(* ===== verification/_CoqProject ===== *)
-Q . S2P
Prelude.v
GoLib.v
Sha256.v
Core.v
Json.v
JsonProps.v
Base64.v
ActionCatalog.v
Planner.v
Store.v
StoreProps.v
StoreTrace.v
StoreOps.v
StoreReports.v
Correlation.v
CorrelationProps.v
GoDuration.v
Interaction.v
Principal.v
GoUrl.v
Oidc.v
Kube.v
Chaos.v
ChaosRepository.v
ChaosRefinement.v
ChaosProps.v
ChaosTrace.v
ChaosBounds.v
ChaosLiveness.v
Limiter.v
Listing.v
RequestBody.v
ManagedResources.v
StrictSort.v
Runes.v
JsonText.v
Regex.v
Redaction.v
Advisor.v
AdvisorBounds.v
AdvisorCall.v
AdvisorProps.v
AdvisorCircuit.v
ManagedConfig.v
ManagedSecurity.v
ManagedSecurityProps.v
ManagedProvenance.v
ManagedDiscovery.v
ManagedDiscoveryProps.v
ClusterObjects.v
Inspector.v
InspectorProps.v
Compliance.v
WorkflowObjects.v
Workflow.v
WorkflowProps.v
WorkflowTrace.v
Repository.v
AgentData.v
Http.v
Server.v
Routes.v
ServerPolicy.v
Agent.v
AgentProps.v
ServerLogic.v
ServerProps.v
ServerStore.v
ServerScenario.v
OperatorApi.v
Operator.v
OperatorRoundTrip.v
OperatorProps.v
OperatorTrace.v
OperatorBounds.v
OperatorScenario.v
Diff.v
DiffProps.v
Adapters.v
AdaptersProps.v
