(* ===== verification/Prelude.v ===== *)
(** * KubeAthrix control plane: a verification library

    KubeAthrix watches a Kubernetes cluster, turns what scanners and its own inspection report into
    findings, plans typed remediations for them, has people approve the plans, and lets an operator
    execute the approved ones; it also runs bounded chaos experiments. This library is a model of the
    Go code that decides: every operation is translated from its source, function by function and
    branch by branch, and the theorems say what the decisions amount to.

    ** The parts of the program and how they interact

    The API server ([services/api]) keeps all records in a repository. Findings enter it through
    [SyncFinding]; correlation groups and scores them; a plan for a finding is built by the planner
    from the action catalog, stored with an approval request, decided by [Approve] or [Reject], and
    released by [ExecuteRemediationPlan]. Findings come from the posture scan of the inspector, from scanner
    reports the adapters read and from the discovery of managed resources. The HTTP API authenticates and
    authorises every request; the AI advisor comments on plans, and the AI agent works through findings
    by itself within the limits of its configuration. The workflow client mirrors plan, approval and run
    as custom resources; the plan is what the operator ([operator]), a separate process, reconciles: it
    revalidates each action against the same catalog, takes a snapshot, writes, verifies and records the
    outcome on the plan, its run and its
    finding, from where [SyncRemediationRun] brings it back. The chaos manager of the API server keeps
    its runs in the same repository and drives each with a periodic reconciler and a runner that
    creates, watches and deletes Chaos Mesh resources; any number of replicas may do so at once.

    ** The files

    Foundations.
    - [Prelude]: notations, record update, results and the state-and-error monad [M], the order of map
      iteration, sorting, invariants of operations, and the tactics that run an operation.
    - [GoLib], [GoDuration]: the functions of Go's [strings], [strconv], [fmt], [time] the code calls.
    - [Sha256], [Json]: [crypto/sha256] and [encoding/json], both of which the code relies on for
      identifiers, hashes and stored snapshots; [JsonProps]: what is encoded scans back.
    - [Core]: the structs and constants of [internal/core].
    - [Interaction]: programs as trees of events, their concurrent executions, and the rule by which a
      protocol checked program by program holds of every execution; [drive] and [runs] for one program
      against given surroundings, [at_most] for bounds on its events.
    - [Kube]: unstructured objects, YAML and the errors of the API server, as a class.

    The repository, [services/api/internal/store/store.go].
    - [Planner]: its pure functions: typed actions, risk tier, approval policy, steps, previews.
    - [Store]: the state [MemoryStore] and an operation per method of the Go type, each one step; a call
      and a reachable state of the whole interface ([StoreCall], [perform], [reachable]).
    - [StoreProps], [StoreTrace], [StoreOps], [StoreReports]: the invariant of every reachable state;
      histories (the audit log only grows, execution follows approval); operation by operation, on every
      branch; the dashboard and the evidence bundle.
    - [ChaosRepository]: the interface the chaos manager needs, as a class with laws the store
      satisfies; [ChaosRefinement]: the store refines an abstract table of versioned runs.

    The action catalog, [pkg/actioncatalog/catalog.go]: [ActionCatalog], with the theorems that say
    exactly which actions validate.

    Correlation, [services/api/internal/findings/correlation.go]: [Correlation], the code with its
    union-find; [CorrelationProps]: it computes connected components, whatever the order of its maps.

    Chaos experiments, [services/api/internal/cluster/chaos.go] and [chaos_manager.go]: [Chaos], handlers
    and reconciler as programs; [ChaosProps], the protocol of each; [ChaosTrace], every concurrent
    execution; [ChaosBounds], which manifests are accepted; [ChaosLiveness], every run ends.

    The operator, [operator/controllers/remediation_controller.go] and [finding_controller.go]:
    [OperatorApi], the API calls; [Operator], the reconciliations as programs over them; [OperatorProps],
    the protocol of each function; [OperatorTrace], every concurrent execution; [OperatorBounds], gates,
    names, resources, numbers of calls; [OperatorRoundTrip], snapshots; [OperatorScenario], a concrete
    cluster the theorems are applied to.

    The HTTP API, [services/api/internal/httpapi] ([server.go], [middleware.go], [metrics.go]).
    - [Principal], [Oidc]: who a request comes from, [services/api/internal/auth]: roles and scopes, and
      the verification of tokens with the cache of signing keys, its setup, and which tokens are accepted.
      [Base64] is the encoding of their parts.
    - [Limiter]: the fixed-window rate limit. [Listing]: the pure functions behind the lists;
      their pages enumerate them. [RequestBody]: the bodies the handlers decode.
    - [Repository]: the store's interface as events, with the store behind it. [Http]: requests,
      responses, the events of all components a handler may call, and handlers as programs over them.
      [Server]: the handlers; [Routes]: the mux, the role of each route and the middleware chain.
    - [ServerPolicy]: the access policy, as what has to precede each call and each thing shown;
      [ServerLogic], [ServerProps]: every handler keeps to it; [ServerStore]: the API and the agent over
      the store; [ServerScenario]: requests, and cycles of the agent, at work.

    The AI advisor, [services/api/internal/ai/advisor.go].
    - [Runes], [JsonText], [Regex], [GoUrl]: what it uses of the standard library.
    - [Redaction], [Advisor], [AdvisorCall]: what is sent to the provider, the checks of its answer, the
      circuit breaker and [Analyze]; [AdvisorBounds], [AdvisorProps], [AdvisorCircuit]: sizes, safety of
      calls, concurrent calls and examples.

    The AI agent, [services/api/internal/agent/agent.go]: [AgentData], [Agent], the cycle as a program over
    the same events as the handlers; [AgentProps], what it may do by itself.

    Managed resources, [services/api/internal/managedresources]: [ManagedResources], [ManagedConfig],
    [ManagedSecurity], [ManagedProvenance], [ManagedDiscovery], one file for each of the source, with
    [ManagedSecurityProps], [ManagedDiscoveryProps], and [StrictSort] for its sorted lists.

    The cluster, [services/api/internal/cluster] beside the chaos experiments.
    - [ClusterObjects], [Inspector]: [inspector.go], the objects the posture scan looks at, its rules, the
      inventory and the controls; [InspectorProps]: what the controls ask of the objects, the shape of the
      findings, and what the planner makes of them; [Compliance]: what violates each control, said of the
      objects themselves, and that the controls find exactly that.
    - [WorkflowObjects], [Workflow]: [workflow.go], plans, approvals, runs, findings and exceptions as
      custom resources; [WorkflowProps], the protocol of each call; [WorkflowTrace], any number of them
      over an API server with optimistic concurrency, and such a server at work.
    - [Diff]: [diff.go], the exact diffs; [DiffProps]: they show what the operator writes.

    The scanner adapters, [services/api/internal/adapters/adapters.go]: [Adapters], the reports and the
    collection; [AdaptersProps], what a collection is, however its goroutines interleave.

    ** What the theorems show

    Safety across time. [api_execution_approved], [execution_was_approved], [crd_execution_approved]: what
    is executed was approved, through the API, in the store and among the custom resources.
    [calls_authorised], [responses_confined], [accepted_authentic]: who may do and see what.
    [agent_autonomy], [Analyze_safe], [advisor_endpoints], [managed_findings_reviewed],
    [secrets_not_copied]: what automation may do, and what leaves the cluster or is kept of it.
    [writes_authorised]: every change the operator makes executes an action of a released and valid plan,
    after a dry run and with its snapshot stored, or saves that snapshot, keeps the operator's records or
    rolls back. [rollback_restores]: what a rollback writes and when it is reported done.
    [ownership_respected]: whose objects are touched. [decided_once]: decisions stand.
    [chaos_two_person], [chaos_recovery_verified], [chaos_deletes_requested]: chaos needs two people, and
    ends verified. Invariants. [reachable_store_inv], [audit_append_only], [chaos_transitions],
    [chaos_ended_final], [scan_well_formed]. Refinement and equivalence. [store_refines_table],
    [correlate_components], [correlate_deterministic], [limiter_fixed_windows], [collect_reference],
    [resources_diff_exact]. Round trip. [snapshot_roundtrip]. Termination and liveness.
    [reconcile_calls], [pages_enumerate], [buildRequestBody_spec], [chaos_run_ends]. Functional behaviour
    of single operations, errors included: [compliance_exact], the theorems named [<operation>_spec] and
    those on idempotency, exceptions, gates and the circuit breaker. Behaviour of the code that is not
    what it says elsewhere is proved as it is: [finding_observed], [rollback_unguarded],
    [abort_deletes_unseen], [daemonset_pdb_invalid], [silent_redaction], [human_only_autoapproved].

    ** Fuel and bounds

    No result depends on a bound chosen here; where a recursion of the code is not structural it
    carries fuel that is proved or evidently enough. [find] follows at most as many parents as there are
    findings ([CorrelationProps] shows roots are found). The JSON parser takes twice the length of its
    text plus one: each level of nesting consumes a character, each comma another. The calendar takes at
    most eleven months of a year. The shortest decimal of a float is searched up to seventeen digits.
    [chaos_run_ends] bounds the reconciler's passes by eight: three attempts to create the resource and
    the steps of its cleanup. [reconcile_calls] bounds the API calls by sixteen per action plus six.

    ** How the code is rendered

    - A Go [error] is a [GoError] in a [result]; [errors.Is] on the sentinels is a comparison. The text
      of a JSON error is one message.
    - An operation of the store runs under its mutex and reads one clock value; it is one step. A
      [context.Context] is the error it reports, if any. [Version] and the sequence number are unbounded
      [Z]: they grow by one per write and stay far below [2 ^ 63].
    - Values are copied: callers share no memory with the store. ([decide] updates the action statuses of
      the stored plan in place; the model returns the updated plan.) A nil slice or map and an empty one
      are the same value except where the code compares with nil.
    - Iteration over a Go map goes through an arbitrary [RangeOrder], so theorems hold for every order.
      [sort.Slice] is a stable merge sort; where ties could show, theorems speak of sortedness and
      permutation only.
    - Strings are bytes; case mapping and folding are those of ASCII.
    - Concurrency: between two events of a program any other event may happen, by the same process or
      by others. Deadlines of derived contexts show as errors the surroundings may answer.
    - The operator's typed objects carry the fields the code reads or writes, and the rest of the object
      as an opaque value that updates keep.
    - client-go, controller-runtime, YAML and quantity parsing are not part of the repository: they are
      fields of classes ([Kubernetes], [KubernetesMeta], [DynamicKubernetes], [OperatorLib],
      [ClusterLibrary]), with laws for documented behaviour, and with
      an instance on JSON objects that the witnesses evaluate.
    - Logging, metrics and tracing are left out.

    ** Not modelled

    - [internal/postgres]: SQL text and transactions of the driver; the contract of the repository is
      modelled by the in-memory store.
    - [internal/telemetry], [provider_secrets.go] and the [main] packages: calls of the tracing library and of
      client-go, flags, environment and wiring, without decisions of their own.
    - In the modelled files: the construction of clients from a kubeconfig ([NewInspector],
      [NewWorkflowClient], [NewManager]),
      the ticker loop of the agent and its webhook's request, and three functions of [inspector.go] that
      nothing calls ([deploymentMissingResources], [deploymentMissingReadiness], [deploymentHasPDB]).
    - The console, the Helm chart and the scripts.
*)
From stdpp Require Export base gmap strings list fin_maps sorting.
From Stdlib Require Export ZArith Lia.
From Stdlib Require OrdersEx.

(** * Notations of the development *)

Declare Scope go_scope.
Delimit Scope go_scope with go.
Open Scope go_scope.

(** Strings compare with the computable test of the standard library. *)
Notation "a == b" := (String.eqb a b) (at level 70, no associativity) : go_scope.
Notation "a != b" := (negb (String.eqb a b)) (at level 70, no associativity) : go_scope.

(** * Functional record update

    [r <| f := v |>] is the Go assignment [r.f = v] on a record passed by value. A record opts in
    with an [Eta] instance, the constructor applied to its projections in order. *)

Class Eta (R : Type) := eta : R → R.
Class Setter {R T : Type} (proj : R → T) := set_field : T → R → R.

Ltac derive_setter :=
  lazymatch goal with
  | |- @Setter ?R ?T ?proj =>
      let inst := constr:(_ : Eta R) in
      let body := eval hnf in inst in
      let body := eval unfold eta in body in
      let pat := eval pattern proj in body in
      lazymatch pat with
      | ?F _ =>
          let t := eval cbv beta in (fun (v : T) (r : R) => F (fun _ => v) r) in
          exact t
      end
  end.

#[export] Hint Extern 1 (Setter _) => derive_setter : typeclass_instances.

Notation "r <| f := v |>" := (set_field (proj := f) v r)
  (at level 1, left associativity, f at level 99, v at level 200,
   format "r <| f  :=  v |>") : go_scope.

(** * Errors and fallible computations

    The sentinels of [store] ([errors.New] values), the two errors a [context.Context] reports,
    [fmt.Errorf] without a wrapped error, and [fmt.Errorf("%w: ...")] or [fmt.Errorf("...: %w")] around
    another error; and a run-time panic, which ends the operation as an error does. *)

Inductive GoError :=
| ErrNotFound
| ErrInvalid
| ErrConflict
| ErrCanceled
| ErrDeadlineExceeded
| Errorf (msg : string)
| Wrapf (inner : GoError) (msg : string)
| Contextf (msg : string) (inner : GoError)
| Panic (msg : string).

#[export] Instance GoError_eq_dec : EqDecision GoError.
Proof. solve_decision. Defined.

(** [errors.Is(err, target)] for a sentinel target: walks the wrapped errors. *)
Fixpoint errors_Is (err target : GoError) : bool :=
  bool_decide (err = target) ||
  match err with Wrapf inner _ | Contextf _ inner => errors_Is inner target | _ => false end.

(** [err.Error()]. *)
Fixpoint error_text (err : GoError) : string :=
  match err with
  | ErrNotFound => "not found"
  | ErrInvalid => "invalid request"
  | ErrConflict => "conflict"
  | ErrCanceled => "context canceled"
  | ErrDeadlineExceeded => "context deadline exceeded"
  | Errorf msg | Panic msg => msg
  | Wrapf inner msg => error_text inner +:+ ": " +:+ msg
  | Contextf msg inner => msg +:+ ": " +:+ error_text inner
  end.

Inductive result (A : Type) :=
| Ok (a : A)
| Err (e : GoError).
Arguments Ok {A} a.
Arguments Err {A} e.

#[export] Instance result_ret : MRet result := λ A a, Ok a.
#[export] Instance result_bind : MBind result := λ A B k m,
  match m with Ok a => k a | Err e => Err e end.
#[export] Instance result_fmap : FMap result := λ A B f m,
  match m with Ok a => Ok (f a) | Err e => Err e end.

Definition is_ok {A} (r : result A) : bool := match r with Ok _ => true | Err _ => false end.

(** [if !cond { return fmt.Errorf(msg) }] *)
Definition unless (cond : bool) (msg : string) : result unit :=
  if cond then Ok tt else Err (Errorf msg).
(** [if err != nil { return fmt.Errorf("msg: %w", err) }] *)
Definition with_context {A} (msg : string) (r : result A) : result A :=
  match r with Ok a => Ok a | Err e => Err (Contextf msg e) end.

Section ResultFacts.
Context {A B : Type}.

Lemma bind_ok (m : result A) (k : A → result B) b :
  m ≫= k = Ok b ↔ ∃ a, m = Ok a ∧ k a = Ok b.
Proof.
  destruct m as [a|e]; cbn; split; [eauto | by intros (? & [= ->] & ?) | done | by intros (? & ? & ?)].
Qed.

Lemma unless_ok (cond : bool) msg (k : result B) b :
  (unless cond msg;; k) = Ok b ↔ cond = true ∧ k = Ok b.
Proof. destruct cond; cbn; naive_solver. Qed.

Lemma with_context_ok msg (m : result A) a : with_context msg m = Ok a ↔ m = Ok a.
Proof. destruct m; cbn; naive_solver. Qed.

End ResultFacts.

(** [ctx.Err()]: [None] while the context is live. *)
Definition Context := option GoError.
Definition Background : Context := None.

(** * Stateful operations: a state transformer that may fail, keeping the state it reached *)

Definition M (S A : Type) : Type := S → result A * S.

#[export] Instance M_ret {S} : MRet (M S) := λ A a s, (Ok a, s).
#[export] Instance M_bind {S} : MBind (M S) := λ A B k m s,
  match m s with
  | (Ok a, s') => k a s'
  | (Err e, s') => (Err e, s')
  end.

Section Operations.
Context {S : Type}.

Definition fail {A} (e : GoError) : M S A := λ s, (Err e, s).
Definition get_state : M S S := λ s, (Ok s, s).
Definition modify (f : S → S) : M S unit := λ s, (Ok tt, f s).
(** [if cond { return zero, err }] *)
Definition reject_if (cond : bool) (e : GoError) : M S unit :=
  λ s, if cond then (Err e, s) else (Ok tt, s).
(** [if err := ctx.Err(); err != nil { return zero, err }] *)
Definition check_ctx (ctx : Context) : M S unit :=
  λ s, match ctx with Some e => (Err e, s) | None => (Ok tt, s) end.
(** [v, ok := m[k]; if !ok { return zero, err }] *)
Definition lookup_or {A} (o : option A) (e : GoError) : M S A :=
  λ s, match o with Some a => (Ok a, s) | None => (Err e, s) end.
Definition lift_result {A} (r : result A) : M S A := λ s, (r, s).

End Operations.

(** A predicate every run of [m] keeps, whatever the outcome. *)
Definition preserves {S A} (P : S → Prop) (m : M S A) : Prop := ∀ s, P s → P (m s).2.

(** A run that fails leaves the state as it found it. *)
Definition atomic {S A} (m : M S A) : Prop := ∀ s e, (m s).1 = Err e → (m s).2 = s.

(** * Integers and time

    [int] and [int64] arithmetic wraps at 64 bits. A [time.Time] is the number of nanoseconds
    since the zero time (January 1, year 1, UTC), so [IsZero] is [t = 0]; a [time.Duration] is a
    number of nanoseconds. *)

Local Open Scope Z_scope.

Definition wrap64 (z : Z) : Z := (z + 2 ^ 63) mod 2 ^ 64 - 2 ^ 63.
Definition MaxInt64 : Z := 2 ^ 63 - 1.
Definition MinInt64 : Z := - 2 ^ 63.

Abbreviation Time := Z (only parsing).
Abbreviation Duration := Z (only parsing).

Definition Second : Duration := 1000000000.
Definition Minute : Duration := 60 * Second.
Definition Hour : Duration := 60 * Minute.

Definition IsZero (t : Time) : bool := t =? 0.
Definition After (t u : Time) : bool := u <? t.
Definition Before (t u : Time) : bool := t <? u.
Definition Equal (t u : Time) : bool := t =? u.
Definition Add (t : Time) (d : Duration) : Time := t + d.
(** [t.Sub(u)] saturates at the extreme durations. *)
Definition Sub (t u : Time) : Duration := Z.max MinInt64 (Z.min MaxInt64 (t - u)).
(** Seconds from the zero time to the Unix epoch. *)
Definition unix_epoch_seconds : Z := 62135596800.
Definition Unix (t : Time) : Z := t / Second - unix_epoch_seconds.

Lemma wrap64_small (z : Z) : MinInt64 ≤ z ≤ MaxInt64 → wrap64 z = z.
Proof.
  unfold wrap64, MinInt64, MaxInt64. intros H. rewrite Z.mod_small; lia.
Qed.

Lemma wrap64_range (z : Z) : MinInt64 ≤ wrap64 z ≤ MaxInt64.
Proof.
  unfold wrap64, MinInt64, MaxInt64.
  pose proof (Z.mod_pos_bound (z + 2 ^ 63) (2 ^ 64)). lia.
Qed.

Lemma After_spec t u : After t u = true ↔ u < t.
Proof. apply Z.ltb_lt. Qed.
Lemma After_false t u : After t u = false ↔ t ≤ u.
Proof. apply Z.ltb_ge. Qed.
Lemma Before_false t u : Before t u = false ↔ u ≤ t.
Proof. apply Z.ltb_ge. Qed.
Lemma Before_spec t u : Before t u = true ↔ t < u.
Proof. apply Z.ltb_lt. Qed.

(** * Map iteration

    Go visits the entries of a map in an unspecified order that may differ from one [range] to the
    next. An operation that ranges over a map takes that order as a parameter; its theorems hold
    for every order. *)

Class RangeOrder := {
  range : ∀ {A : Type}, gmap string A → list (string * A);
  range_perm : ∀ {A : Type} (m : gmap string A), range m ≡ₚ map_to_list m;
  range_int : ∀ {A : Type}, gmap nat A → list (nat * A);
  range_int_perm : ∀ {A : Type} (m : gmap nat A), range_int m ≡ₚ map_to_list m
}.

Definition canonical_order : RangeOrder :=
  {| range := λ A m, map_to_list m; range_perm := λ A m, reflexivity _;
     range_int := λ A m, map_to_list m; range_int_perm := λ A m, reflexivity _ |}.

Section RangeFacts.
Context `{RangeOrder} {A : Type}.
Implicit Types m : gmap string A.

Lemma elem_of_range m k v : (k, v) ∈ range m ↔ m !! k = Some v.
Proof. rewrite range_perm. apply elem_of_map_to_list. Qed.

Lemma NoDup_range m : NoDup (range m).*1.
Proof. rewrite range_perm. apply NoDup_fst_map_to_list. Qed.

Lemma length_range m : length (range m) = size m.
Proof. rewrite range_perm. apply length_map_to_list. Qed.

Lemma elem_of_range_snd m v : v ∈ (range m).*2 ↔ ∃ k, m !! k = Some v.
Proof.
  rewrite list_elem_of_fmap. split.
  - intros [[k v'] [-> Hin]]. exists k. by apply elem_of_range.
  - intros [k Hk]. exists (k, v). split; [done|]. by apply elem_of_range.
Qed.

End RangeFacts.

(** [for k, v := range m { if v' := f(k, v); changed { m[k] = v' } }]: each visit may replace the
    value of the key it visits. *)
Definition range_update {A} (f : string → A → option A) (l : list (string * A))
    (m : gmap string A) : gmap string A :=
  foldl (λ acc kv, match f kv.1 kv.2 with Some v => <[kv.1 := v]> acc | None => acc end) m l.

Section RangeUpdate.
Context {A : Type} (f : string → A → option A).

Lemma range_update_notin l (m : gmap string A) k :
  k ∉ l.*1 → range_update f l m !! k = m !! k.
Proof.
  unfold range_update. revert m. induction l as [|[k' v'] l IH]; intros m Hk; [done|].
  cbn in *. apply not_elem_of_cons in Hk as [Hne Hk]. rewrite IH by done.
  destruct (f k' v'); [by rewrite lookup_insert_ne | done].
Qed.

Lemma range_update_in l (m : gmap string A) k v :
  NoDup l.*1 → (k, v) ∈ l → m !! k = Some v →
  range_update f l m !! k = Some (default v (f k v)).
Proof.
  unfold range_update. revert m.
  induction l as [|[k' v'] l IH]; intros m Hnd Hin Hm; [by apply not_elem_of_nil in Hin|].
  cbn in *. apply NoDup_cons in Hnd as [Hk' Hnd]. apply elem_of_cons in Hin as [[= -> ->]|Hin].
  - change (range_update f l (match f k' v' with Some v => <[k' := v]> m | None => m end) !! k' =
      Some (default v' (f k' v'))).
    rewrite range_update_notin by done. destruct (f k' v'); cbn; [by rewrite lookup_insert_eq | done].
  - assert (k ≠ k') by (intros ->; apply Hk'; apply list_elem_of_fmap; by exists (k', v)).
    apply IH; [done..|]. destruct (f k' v'); [by rewrite lookup_insert_ne | done].
Qed.

(** Whatever the order of the visits, the loop updates every entry once. *)
Lemma range_update_lookup `{RangeOrder} (m : gmap string A) k :
  range_update f (range m) m !! k = (λ v, default v (f k v)) <$> m !! k.
Proof.
  destruct (m !! k) as [v|] eqn:Hk; cbn.
  - apply range_update_in; [apply NoDup_range | by apply elem_of_range | done].
  - rewrite range_update_notin; [done|].
    intros ([k' v] & -> & Hin%elem_of_range)%list_elem_of_fmap. cbn in *. congruence.
Qed.

End RangeUpdate.

(** A loop over a state projects to the loop over one of its components. *)
Lemma foldl_proj {S T X} (π : S → T) (f : S → X → S) (g : T → X → T) l s :
  (∀ s x, π (f s x) = g (π s) x) → π (foldl f s l) = foldl g (π s) l.
Proof. intros Hπ. revert s. induction l as [|x l IH]; intros s; cbn; [done|]. by rewrite IH, Hπ. Qed.

Lemma foldl_invariant {S X} (P : S → Prop) (f : S → X → S) l s :
  P s → (∀ s x, x ∈ l → P s → P (f s x)) → P (foldl f s l).
Proof.
  revert s. induction l as [|x l IH]; intros s Hs Hf; cbn; [done|].
  apply IH; [apply Hf; [left | done] | intros s' x' Hx; apply Hf; by right].
Qed.

Lemma foldr_max_spec (x : Z) l :
  (∀ y, y ∈ l → y ≤ foldr Z.max x l) ∧ x ≤ foldr Z.max x l ∧
  (foldr Z.max x l = x ∨ foldr Z.max x l ∈ l).
Proof.
  induction l as [|y l (IH1 & IH2 & IH3)]; cbn.
  - split_and!; [intros y Hy; by apply elem_of_nil in Hy | lia | by left].
  - split_and!; [|lia|].
    + intros z [->|Hz]%elem_of_cons; [lia|]. specialize (IH1 z Hz). lia.
    + destruct (Z.max_spec y (foldr Z.max x l)) as [[_ ->]|[_ ->]]; [|right; left].
      destruct IH3; [by left | right; by right].
Qed.

(** [for _, x := range l { if key(x).After(latest) { latest = key(x) } }] *)
Definition latest_by {A} (key : A → Time) (start : Time) (l : list A) : Time :=
  foldl (λ latest x, if After (key x) latest then key x else latest) start l.

Lemma latest_by_max {A} (key : A → Time) start l :
  latest_by key start l = foldr Z.max start (map key l).
Proof.
  assert (∀ x y l', foldr Z.max (Z.max x y) l' = Z.max x (foldr Z.max y l')) as Hmax.
  { intros x y l'. induction l'; cbn; lia. }
  unfold latest_by. revert start. induction l as [|a l IH]; intros start; cbn; [done|].
  rewrite IH, <- Hmax. f_equal. unfold After. destruct (Z.ltb_spec start (key a)); lia.
Qed.

(** * Sorting

    [sort.Slice(s, less)] permutes the slice into an order in which no element is [less] than its
    predecessor and fixes nothing about ties. The model sorts stably; because the slices sorted
    come out of map iterations in arbitrary order, every tie order stays possible. *)

Section Sorting.
Context {A : Type} (less : A → A → bool).

Definition not_after (x y : A) : Prop := less y x = false.
#[export] Instance not_after_dec x y : Decision (not_after x y).
Proof. unfold not_after. apply _. Defined.

Definition sort_slice (l : list A) : list A := merge_sort not_after l.

(** What [sort.Slice] requires of [less]. *)
Class StrictWeakOrder : Prop := {
  less_asym x y : less x y = true → less y x = false;
  less_negtrans x y z : less y x = false → less z y = false → less z x = false
}.

Lemma sort_slice_perm l : sort_slice l ≡ₚ l.
Proof. apply merge_sort_Permutation. Qed.

Lemma elem_of_sort_slice x l : x ∈ sort_slice l ↔ x ∈ l.
Proof. by rewrite sort_slice_perm. Qed.

Lemma sort_slice_sorted `{StrictWeakOrder} l : StronglySorted not_after (sort_slice l).
Proof.
  apply StronglySorted_merge_sort.
  - intros x y z. apply less_negtrans.
  - intros x y. unfold not_after. destruct (less y x) eqn:E; [right; by apply less_asym | by left].
Qed.

End Sorting.

Lemma StronglySorted_weaken {A} (R R' : A → A → Prop) l :
  (∀ x y, R x y → R' x y) → StronglySorted R l → StronglySorted R' l.
Proof.
  intros HR. induction 1 as [|x l Hl IH Hx]; constructor; [done|]. eapply Forall_impl; [exact Hx | auto].
Qed.

(** [less] given by a strict key comparison is a strict weak order. *)
Lemma strict_weak_by_key {A} (key : A → Z) : StrictWeakOrder (λ x y, key x <? key y).
Proof. split; intros; rewrite ?Z.ltb_lt, ?Z.ltb_ge in *; lia. Qed.
Lemma strict_weak_by_key_desc {A} (key : A → Z) : StrictWeakOrder (λ x y, key y <? key x).
Proof. split; intros; rewrite ?Z.ltb_lt, ?Z.ltb_ge in *; lia. Qed.

(** Byte-wise order of strings, Go's [<]. *)
Lemma ltb_lt x y : String.ltb x y = true ↔ OrdersEx.String_as_OT.lt x y.
Proof.
  unfold String.ltb, OrdersEx.String_as_OT.lt. change OrdersEx.String_as_OT.compare with String.compare.
  by destruct (String.compare x y).
Qed.

Lemma ltb_ge x y : String.ltb x y = false ↔ x = y ∨ String.ltb y x = true.
Proof.
  rewrite <- not_true_iff_false, !ltb_lt.
  destruct (OrdersEx.String_as_OT.compare_spec x y) as [->|Hlt|Hlt].
  - split; [by left|]. intros _ Hlt. by apply (irreflexivity OrdersEx.String_as_OT.lt y).
  - split; [done|]. intros [->|Hgt].
    + by destruct (irreflexivity OrdersEx.String_as_OT.lt y).
    + exfalso. eapply (irreflexivity OrdersEx.String_as_OT.lt x). by transitivity y.
  - split; [by right|]. intros _ Hgt. eapply (irreflexivity OrdersEx.String_as_OT.lt x).
    by transitivity y.
Qed.

Lemma ltb_trans x y z : String.ltb x y = true → String.ltb y z = true → String.ltb x z = true.
Proof. rewrite !ltb_lt. apply transitivity. Qed.

Lemma ltb_irrefl x : String.ltb x x = false.
Proof. apply ltb_ge. by left. Qed.

Lemma strict_weak_by_string {A} (key : A → string) : StrictWeakOrder (λ x y, String.ltb (key x) (key y)).
Proof.
  split.
  - intros x y Hxy. apply ltb_ge. by right.
  - intros x y z [->|Hxy]%ltb_ge Hyz; [done|]. apply ltb_ge in Hyz as [->|Hyz]; apply ltb_ge; right; [done|].
    by apply ltb_trans with (key y).
Qed.

(** * Automation *)

(** Splits the boolean guards of an operation. *)
Ltac split_guards :=
  repeat match goal with
  | H : (_ && _)%bool = true |- _ => apply andb_true_iff in H as [??]
  | H : (_ || _)%bool = false |- _ => apply orb_false_iff in H as [??]
  | H : negb _ = true |- _ => apply negb_true_iff in H
  | H : negb _ = false |- _ => apply negb_false_iff in H
  | H : String.eqb _ _ = true |- _ => apply String.eqb_eq in H
  | H : String.eqb _ _ = false |- _ => apply String.eqb_neq in H
  | H : After _ _ = true |- _ => apply After_spec in H
  | H : Before _ _ = true |- _ => apply Before_spec in H
  | H : After _ _ = false |- _ => apply After_false in H
  | H : Before _ _ = false |- _ => apply Before_false in H
  | H : Z.eqb _ _ = true |- _ => apply Z.eqb_eq in H
  | H : Z.eqb _ _ = false |- _ => apply Z.eqb_neq in H
  end.

(** The same, with one goal per alternative of a disjunction. *)
Ltac split_alternatives :=
  repeat (split_guards; match goal with
  | H : (_ || _)%bool = true |- _ => apply orb_true_iff in H as [H|H]
  | H : (_ && _)%bool = false |- _ => apply andb_false_iff in H as [H|H]
  end); split_guards; simplify_eq.

(** * Running an operation

    The equations that execute the statements of an operation one by one. *)

Section Run.
Context {S A B : Type}.
Implicit Types (k : A → M S B) (s : S).

Lemma run_ret (a : A) s : (mret a : M S A) s = (Ok a, s).
Proof. done. Qed.
Lemma run_fail e s : (fail e : M S A) s = (Err e, s).
Proof. done. Qed.
Lemma run_modify_last (f : S → S) s : modify f s = (Ok tt, f s).
Proof. done. Qed.
Lemma run_bind_ret (a : A) k s : (mret a ≫= k) s = k a s.
Proof. done. Qed.
Lemma run_bind_fail e k s : (fail e ≫= k) s = (Err e, s).
Proof. done. Qed.
Lemma run_bind_get (k : S → M S B) s : (get_state ≫= k) s = k s s.
Proof. done. Qed.
Lemma run_bind_modify (f : S → S) (k : unit → M S B) s : (modify f ≫= k) s = k tt (f s).
Proof. done. Qed.
Lemma run_reject_last c e s : reject_if c e s = if c then (Err e, s) else (Ok tt, s).
Proof. by destruct c. Qed.
Lemma run_bind_reject c e (k : unit → M S B) s :
  (reject_if c e ≫= k) s = if c then (Err e, s) else k tt s.
Proof. by destruct c. Qed.
Lemma run_check_last ctx s : check_ctx ctx s = match ctx with Some e => (Err e, s) | None => (Ok tt, s) end.
Proof. done. Qed.
Lemma run_bind_check ctx (k : unit → M S B) s :
  (check_ctx ctx ≫= k) s = match ctx with Some e => (Err e, s) | None => k tt s end.
Proof. by destruct ctx. Qed.
Lemma run_lookup_last (o : option A) e s :
  lookup_or o e s = match o with Some a => (Ok a, s) | None => (Err e, s) end.
Proof. done. Qed.
Lemma run_bind_lookup (o : option A) e k s :
  (lookup_or o e ≫= k) s = match o with Some a => k a s | None => (Err e, s) end.
Proof. by destruct o. Qed.
Lemma run_bind_assoc {C} (m : M S C) (h : C → M S A) k s :
  ((m ≫= h) ≫= k) s = (m ≫= λ c, h c ≫= k) s.
Proof. unfold mbind, M_bind. by destruct (m s) as [[] ?]. Qed.

Lemma run_bind m k s r s' :
  (m ≫= k) s = (r, s') → (∃ a s1, m s = (Ok a, s1) ∧ k a s1 = (r, s')) ∨ (∃ e, m s = (Err e, s') ∧ r = Err e).
Proof. unfold mbind, M_bind. destruct (m s) as [[a|e] s1]; naive_solver. Qed.

Lemma run_err_ok e (a : A) (s s' : S) : (Err e, s) = (Ok a, s') → False.
Proof. done. Qed.
Lemma run_ok_err e (a : A) (s s' : S) : (Ok a, s) = (Err e, s') → False.
Proof. done. Qed.
Lemma run_result (r r' : result A) (s s' : S) : (r, s) = (r', s') → r' = r ∧ s = s'.
Proof. by intros [= -> ->]. Qed.
Lemma run_oks (a b : A) (s s' : S) : (Ok a, s) = (Ok b, s') → a = b ∧ s = s'.
Proof. by intros [= -> ->]. Qed.
Lemma run_errs e e' (s s' : S) : (Err e : result A, s) = (Err e', s') → e = e' ∧ s = s'.
Proof. by intros [= -> ->]. Qed.

End Run.

(** Executes an operation in a hypothesis [H : m s = (r, s')]: a statement by its equation, the test
    it reached by a case distinction. *)
Ltac run_test H x :=
  let E := fresh "Htest" in destruct x eqn:E;
  try lazymatch type of H with (Err _, _) = (Ok _, _) => by destruct (run_err_ok _ _ _ _ H) end.
Ltac run_eq H lem := apply (eq_trans (eq_sym lem)) in H; cbv beta zeta in H.
Ltac run_hyp H :=
  cbv beta zeta in H;
  repeat lazymatch type of H with
    | mbind ?k (mbind ?h ?m) ?s = _ => run_eq H uconstr:(run_bind_assoc m h k s)
    | mbind ?k (mret ?a) ?s = _ => run_eq H uconstr:(run_bind_ret a k s)
    | mbind ?k (fail ?e) ?s = _ => run_eq H uconstr:(run_bind_fail e k s)
    | mbind ?k get_state ?s = _ => run_eq H uconstr:(run_bind_get k s)
    | mbind ?k (modify ?f) ?s = _ => run_eq H uconstr:(run_bind_modify f k s)
    | mbind ?k (reject_if ?c ?e) ?s = _ => run_eq H uconstr:(run_bind_reject c e k s)
    | mbind ?k (check_ctx ?c) ?s = _ => run_eq H uconstr:(run_bind_check c k s)
    | mbind ?k (lookup_or ?o ?e) ?s = _ => run_eq H uconstr:(run_bind_lookup o e k s)
    | mbind _ (match ?x with _ => _ end) _ = _ => run_test H x
    | mret ?a ?s = _ => run_eq H uconstr:(run_ret a s)
    | fail ?e ?s = _ => run_eq H uconstr:(run_fail e s)
    | modify ?f ?s = _ => run_eq H uconstr:(run_modify_last f s)
    | reject_if ?c ?e ?s = _ => run_eq H uconstr:(run_reject_last c e s)
    | check_ctx ?c ?s = _ => run_eq H uconstr:(run_check_last c s)
    | lookup_or ?o ?e ?s = _ => run_eq H uconstr:(run_lookup_last o e s)
    | match ?x with _ => _ end = _ => run_test H x
    | match ?x with _ => _ end _ = _ => run_test H x
    | (Err _, _) = (Ok _, _) => by destruct (run_err_ok _ _ _ _ H)
    | (Ok _, _) = (Err _, _) => by destruct (run_ok_err _ _ _ _ H)
    | (Ok _, _) = (Ok _, _) => apply run_oks in H; destruct H as [? <-]; subst
    | (Err _, _) = (Err _, _) => apply run_errs in H; destruct H as [? <-]; subst
    | (_, _) = (?r, _) => is_var r; apply run_result in H; destruct H as [-> <-]
    end; split_guards.

(** To show a fact of the state an operation reaches, run the operation. *)
Lemma run_state {S A} (P : S → Prop) (m : M S A) s : (∀ r s', m s = (r, s') → P s') → P (m s).2.
Proof. intros Hm. destruct (m s) as [r s'] eqn:E. exact (Hm r s' eq_refl). Qed.
