(* ===== verification/GoLib.v ===== *)
(** The parts of the Go standard library the modelled code calls: [strings], [fmt] verbs, the
    RFC 3339 layout of [time], and [float64] division.

    A Go string is its sequence of bytes. Case mapping, white space and case folding act on the
    ASCII range and leave the other bytes unchanged. *)
From Stdlib Require Import SpecFloat.
From stdpp Require Import pretty.
From S2P Require Import Prelude.

Local Open Scope Z_scope.

(** * strings *)

Definition byte_code (c : Ascii.ascii) : Z := Z.of_N (Ascii.N_of_ascii c).
Definition byte_of_code (z : Z) : Ascii.ascii := Ascii.ascii_of_N (Z.to_N z).

Lemma byte_code_range c : 0 ≤ byte_code c < 256.
Proof. unfold byte_code. pose proof (Ascii.N_ascii_bounded c). lia. Qed.
Lemma byte_code_inj c : byte_of_code (byte_code c) = c.
Proof. unfold byte_code, byte_of_code. rewrite N2Z.id. apply Ascii.ascii_N_embedding. Qed.

Definition lower_byte (c : Ascii.ascii) : Ascii.ascii :=
  if (65 <=? byte_code c) && (byte_code c <=? 90) then byte_of_code (byte_code c + 32) else c.
Definition upper_byte (c : Ascii.ascii) : Ascii.ascii :=
  if (97 <=? byte_code c) && (byte_code c <=? 122) then byte_of_code (byte_code c - 32) else c.

Fixpoint string_map (f : Ascii.ascii → Ascii.ascii) (s : string) : string :=
  match s with EmptyString => EmptyString | String c s' => String (f c) (string_map f s') end.

Definition ToLower : string → string := string_map lower_byte.
Definition ToUpper : string → string := string_map upper_byte.
Definition EqualFold (s t : string) : bool := ToLower s == ToLower t.

Definition len (s : string) : Z := Z.of_nat (String.length s).

Definition string_rev (s : string) : string :=
  String.string_of_list_ascii (rev (String.list_ascii_of_string s)).

Definition HasPrefix (s prefix : string) : bool := String.prefix prefix s.
Definition HasSuffix (s suffix : string) : bool := String.prefix (string_rev suffix) (string_rev s).

Fixpoint Contains (s sub : string) : bool :=
  String.prefix sub s ||
  match s with EmptyString => false | String _ s' => Contains s' sub end.

(** [s[:n]] and [s[n:]] for [n] within the string. *)
Fixpoint string_take (n : nat) (s : string) : string :=
  match n, s with
  | S n', String c s' => String c (string_take n' s')
  | _, _ => EmptyString
  end.
Fixpoint string_drop (n : nat) (s : string) : string :=
  match n, s with
  | O, _ => s
  | S n', String _ s' => string_drop n' s'
  | S _, EmptyString => EmptyString
  end.

Definition TrimPrefix (s prefix : string) : string :=
  if HasPrefix s prefix then string_drop (String.length prefix) s else s.

Fixpoint trim_left (drop : Ascii.ascii → bool) (s : string) : string :=
  match s with
  | String c s' => if drop c then trim_left drop s' else s
  | EmptyString => EmptyString
  end.
Definition trim_right (drop : Ascii.ascii → bool) (s : string) : string :=
  string_rev (trim_left drop (string_rev s)).
Definition trim_both (drop : Ascii.ascii → bool) (s : string) : string :=
  trim_right drop (trim_left drop s).

(** Tab, line feed, vertical tab, form feed, carriage return and space. *)
Definition is_space (c : Ascii.ascii) : bool :=
  let n := byte_code c in ((9 <=? n) && (n <=? 13)) || (n =? 32).
Definition in_cutset (cutset : string) (c : Ascii.ascii) : bool :=
  existsb (Ascii.eqb c) (String.list_ascii_of_string cutset).

Definition TrimSpace : string → string := trim_both is_space.
Definition Trim (s cutset : string) : string := trim_both (in_cutset cutset) s.

(** [strings.Split(s, sep)] for a one-byte separator. *)
Fixpoint split_on (sep : Ascii.ascii) (s : string) : list string :=
  match s with
  | EmptyString => [EmptyString]
  | String c s' =>
      if Ascii.eqb c sep then EmptyString :: split_on sep s'
      else match split_on sep s' with
           | piece :: rest => String c piece :: rest
           | [] => [String c EmptyString]
           end
  end.

(** Splits at the bytes that satisfy [sep] and drops the empty fields. *)
Fixpoint split_where (sep : Ascii.ascii → bool) (s : string) : list string :=
  match s with
  | EmptyString => [EmptyString]
  | String c s' =>
      if sep c then EmptyString :: split_where sep s'
      else match split_where sep s' with
           | piece :: rest => String c piece :: rest
           | [] => [String c EmptyString]
           end
  end.
Definition FieldsFunc (s : string) (sep : Ascii.ascii → bool) : list string :=
  List.filter (λ f, f != "") (split_where sep s).
Definition Fields (s : string) : list string := FieldsFunc s is_space.

Definition Join (parts : list string) (sep : string) : string := String.concat sep parts.

Definition newline : string := String (byte_of_code 10) EmptyString.
Definition quote : string := String (byte_of_code 34) EmptyString.
(** The byte 0, written [\x00] in Go. *)
Definition nul : string := String (byte_of_code 0) EmptyString.
(** A double-quoted string inside a literal. *)
Definition quoted (s : string) : string := quote +:+ s +:+ quote.
(** [s] followed by a line feed, for each line. *)
Definition text_lines (ls : list string) : string := Join (map (λ l, l +:+ newline) ls) "".

(** * fmt *)

(** [%d] *)
Definition Itoa (z : Z) : string := pretty z.

(** [%0wd]: zeros after the sign up to width [w]. *)
Definition pad_zeros (w : nat) (digits : string) : string :=
  String.string_of_list_ascii (repeat (byte_of_code 48) (w - String.length digits)) +:+ digits.
Definition Itoa_padded (w : nat) (z : Z) : string :=
  if z <? 0 then "-" +:+ pad_zeros (w - 1) (Itoa (- z)) else pad_zeros w (Itoa z).

Definition hex_lower (n : Z) : string :=
  String (byte_of_code (if n <? 10 then 48 + n else 87 + n)) "".
Definition backslash : string := String (byte_of_code 92) "".

(** [%q] on printable text and control characters. *)
Definition quote_byte (c : Ascii.ascii) : string :=
  let n := byte_code c in
  if (n =? 34) || (n =? 92) then backslash +:+ String c ""
  else if n =? 7 then backslash +:+ "a" else if n =? 8 then backslash +:+ "b"
  else if n =? 12 then backslash +:+ "f" else if n =? 10 then backslash +:+ "n"
  else if n =? 13 then backslash +:+ "r" else if n =? 9 then backslash +:+ "t"
  else if n =? 11 then backslash +:+ "v"
  else if (n <? 32) || (n =? 127) then backslash +:+ "x" +:+ hex_lower (n / 16) +:+ hex_lower (n mod 16)
  else String c "".
Definition Quote (s : string) : string :=
  quoted (Join (map quote_byte (String.list_ascii_of_string s)) "").

(** * strconv.ParseInt(s, 10, 64) *)

Definition is_digit (c : Ascii.ascii) : bool := (48 <=? byte_code c) && (byte_code c <=? 57).

Definition digits_value (s : string) : Z :=
  foldl (λ acc c, acc * 10 + (byte_code c - 48)) 0 (String.list_ascii_of_string s).

Definition take_byte (code : Z) (s : string) : option string :=
  match s with
  | String c rest => if byte_code c =? code then Some rest else None
  | EmptyString => None
  end.

(** [None] is a syntax or a range error. *)
Definition ParseInt (s : string) : option Z :=
  let '(neg, ds) := match take_byte 45 s, take_byte 43 s with
                    | Some r, _ => (true, r)
                    | None, Some r => (false, r)
                    | None, None => (false, s)
                    end in
  if (ds != "") && forallb is_digit (String.list_ascii_of_string ds) then
    let n := if neg then - digits_value ds else digits_value ds in
    if (MinInt64 <=? n) && (n <=? MaxInt64) then Some n else None
  else None.

(** * time.RFC3339 of an instant in UTC *)

Definition is_leap (y : Z) : bool :=
  (y mod 4 =? 0) && (negb (y mod 100 =? 0) || (y mod 400 =? 0)).
Definition days_in_month (y m : Z) : Z :=
  if m =? 2 then (if is_leap y then 29 else 28)
  else if (m =? 4) || (m =? 6) || (m =? 9) || (m =? 11) then 30 else 31.

(** Day number [d] of year [y], from 0, to month and day. *)
Fixpoint month_day (fuel : nat) (y m d : Z) : Z * Z :=
  match fuel with
  | O => (m, d + 1)
  | S fuel' =>
      if d <? days_in_month y m then (m, d + 1)
      else month_day fuel' y (m + 1) (d - days_in_month y m)
  end.

(** Days since January 1 of year 1 to the civil date. *)
Definition civil_of_days (d : Z) : Z * Z * Z :=
  let n400 := d / 146097 in
  let r400 := d mod 146097 in
  let n100 := Z.min 3 (r400 / 36524) in
  let r100 := r400 - n100 * 36524 in
  let n4 := r100 / 1461 in
  let r4 := r100 mod 1461 in
  let n1 := Z.min 3 (r4 / 365) in
  let y := 400 * n400 + 100 * n100 + 4 * n4 + n1 + 1 in
  let '(m, day) := month_day 11 y 1 (r4 - n1 * 365) in
  (y, m, day).

Definition FormatRFC3339 (t : Time) : string :=
  let seconds := t / Second in
  let '(y, m, d) := civil_of_days (seconds / 86400) in
  let s := seconds mod 86400 in
  Itoa_padded 4 y +:+ "-" +:+ Itoa_padded 2 m +:+ "-" +:+ Itoa_padded 2 d +:+ "T" +:+
  Itoa_padded 2 (s / 3600) +:+ ":" +:+ Itoa_padded 2 (s / 60 mod 60) +:+ ":" +:+
  Itoa_padded 2 (s mod 60) +:+ "Z".

(** * float64, as IEEE 754 binary64 data *)

Definition float64 : Type := spec_float.
Definition float64_of_int (z : Z) : float64 := binary_normalize 53 1024 z 0 false.
Definition float64_div (x y : float64) : float64 := SFdiv 53 1024 x y.

(** * Lemmas on strings *)

Lemma string_map_length f s : String.length (string_map f s) = String.length s.
Proof. induction s; cbn; congruence. Qed.

Lemma string_app_cons c s t : String c s +:+ t = String c (s +:+ t).
Proof. done. Qed.

Lemma string_map_app f s t : string_map f (s +:+ t) = string_map f s +:+ string_map f t.
Proof. induction s as [|c s IH]; [done|]. exact (f_equal (String (f c)) IH). Qed.

Lemma prefix_nil s : String.prefix "" s = true.
Proof. by destruct s. Qed.

Lemma prefix_app p s : String.prefix p (p +:+ s) = true.
Proof.
  induction p as [|c p IH]; [apply prefix_nil|].
  rewrite string_app_cons. cbn. by destruct (Ascii.ascii_dec c c).
Qed.

Lemma Contains_app_r s t sub : Contains t sub = true → Contains (s +:+ t) sub = true.
Proof.
  intros Ht. induction s as [|c s IH]; [done|].
  rewrite string_app_cons. cbn. rewrite IH. apply orb_true_r.
Qed.

Lemma Contains_prefix s sub : Contains (sub +:+ s) sub = true.
Proof.
  pose proof (prefix_app sub s) as Hp. destruct (sub +:+ s); cbn in *; by rewrite Hp.
Qed.

Lemma Contains_infix s sub t : Contains (s +:+ sub +:+ t) sub = true.
Proof. apply Contains_app_r, Contains_prefix. Qed.

Lemma string_take_length n s : (String.length (string_take n s) ≤ n)%nat.
Proof. revert s. induction n as [|n IH]; intros [|c s]; cbn; [lia..|]. specialize (IH s). lia. Qed.

Lemma length_list_ascii s : length (String.list_ascii_of_string s) = String.length s.
Proof. induction s; cbn; congruence. Qed.

Lemma string_rev_length s : String.length (string_rev s) = String.length s.
Proof.
  unfold string_rev.
  rewrite <- length_list_ascii.
  rewrite String.list_ascii_of_string_of_list_ascii, length_rev.
  apply length_list_ascii.
Qed.

Lemma trim_left_length drop s : (String.length (trim_left drop s) ≤ String.length s)%nat.
Proof. induction s as [|c s IH]; cbn; [lia|]. destruct (drop c); cbn; lia. Qed.

Lemma trim_both_length drop s : (String.length (trim_both drop s) ≤ String.length s)%nat.
Proof.
  unfold trim_both, trim_right. rewrite string_rev_length.
  etrans; [apply trim_left_length|]. rewrite string_rev_length. apply trim_left_length.
Qed.

Lemma string_length_app s t : String.length (s +:+ t) = (String.length s + String.length t)%nat.
Proof. induction s as [|c s IH]; [done|]. exact (f_equal S IH). Qed.

#[export] Instance Itoa_inj : Inj (=) (=) Itoa := _.

Example ToLower_ex : ToLower "Managed-RESOURCE 9" = "managed-resource 9".
Proof. reflexivity. Qed.
Example Trim_ex : (TrimSpace "  a b " = "a b") ∧ Trim "--x-" "-" = "x".
Proof. done. Qed.
Example Itoa_ex : (Itoa_padded 3 7, Itoa_padded 3 1234, Itoa_padded 3 (-5)) = ("007", "1234", "-05").
Proof. vm_compute. reflexivity. Qed.
Example RFC3339_ex : FormatRFC3339 ((unix_epoch_seconds + 1784116800) * Second) = "2026-07-15T12:00:00Z".
Proof. vm_compute. reflexivity. Qed.
Example RFC3339_zero : FormatRFC3339 0 = "0001-01-01T00:00:00Z".
Proof. vm_compute. reflexivity. Qed.
Example split_ex : split_on (byte_of_code 46) "a.b..c" = ["a"; "b"; ""; "c"] ∧ Fields " x  y " = ["x"; "y"].
Proof. done. Qed.

(** ** Prefixes *)

Lemma prefix_drop prefix s : String.prefix prefix s = true → s = prefix +:+ string_drop (String.length prefix) s.
Proof.
  revert s. induction prefix as [|x prefix IH]; intros s; [by destruct s|].
  destruct s as [|y s]; cbn [String.prefix]; [done|]. destruct (Ascii.ascii_dec x y) as [->|]; [|done].
  intros Hp. change (String y s = String y (prefix +:+ string_drop (String.length prefix) s)). f_equal. by apply IH.
Qed.

Lemma TrimPrefix_changed prefix s : TrimPrefix s prefix ≠ s → s = prefix +:+ TrimPrefix s prefix.
Proof. unfold TrimPrefix, HasPrefix. case_match; [intros _; by apply prefix_drop | done]. Qed.
