(* ===== verification/Sha256.v ===== *)
(** [crypto/sha256] and [encoding/hex]: the digest the program derives identifiers from, on bytes
    as 8-bit codes and 32-bit words as [Z] reduced modulo [2 ^ 32]. The code only relies on the
    digest being a function of its input with a fixed length; no theorem assumes it injective. *)
From S2P Require Import Prelude GoLib.

Local Open Scope Z_scope.

Definition word (z : Z) : Z := z mod 2 ^ 32.
Definition word_not (x : Z) : Z := 2 ^ 32 - 1 - x.
Definition rotate_right (x n : Z) : Z :=
  Z.lor (Z.shiftr x n) (word (Z.shiftl x (32 - n))).
Definition xor3 (x y z : Z) : Z := Z.lxor x (Z.lxor y z).

(** Fractional parts of the square and cube roots of the first primes. *)
Definition initial_words : list Z :=
  [
   1779033703; 3144134277; 1013904242; 2773480762; 1359893119; 2600822924;
   528734635; 1541459225
  ].
Definition round_words : list Z :=
  [
   1116352408; 1899447441; 3049323471; 3921009573; 961987163; 1508970993;
   2453635748; 2870763221; 3624381080; 310598401; 607225278; 1426881987;
   1925078388; 2162078206; 2614888103; 3248222580; 3835390401; 4022224774;
   264347078; 604807628; 770255983; 1249150122; 1555081692; 1996064986;
   2554220882; 2821834349; 2952996808; 3210313671; 3336571891; 3584528711;
   113926993; 338241895; 666307205; 773529912; 1294757372; 1396182291;
   1695183700; 1986661051; 2177026350; 2456956037; 2730485921; 2820302411;
   3259730800; 3345764771; 3516065817; 3600352804; 4094571909; 275423344;
   430227734; 506948616; 659060556; 883997877; 958139571; 1322822218;
   1537002063; 1747873779; 1955562222; 2024104815; 2227730452; 2361852424;
   2428436474; 2756734187; 3204031479; 3329325298
  ].

(** The message schedule keeps the last sixteen words; each round consumes the oldest one and
    appends the next. *)
Definition next_schedule_word (window : list Z) : Z :=
  let w i := nth i window 0 in
  let s0 := xor3 (rotate_right (w 1%nat) 7) (rotate_right (w 1%nat) 18) (Z.shiftr (w 1%nat) 3) in
  let s1 := xor3 (rotate_right (w 14%nat) 17) (rotate_right (w 14%nat) 19) (Z.shiftr (w 14%nat) 10) in
  word (w 0%nat + s0 + w 9%nat + s1).

Definition sha_round (st : list Z * list Z) (k : Z) : list Z * list Z :=
  let '(vars, window) := st in
  match vars with
  | [a; b; c; d; e; f; g; h] =>
      let choice := Z.lxor (Z.land e f) (Z.land (word_not e) g) in
      let majority := xor3 (Z.land a b) (Z.land a c) (Z.land b c) in
      let t1 := h + xor3 (rotate_right e 6) (rotate_right e 11) (rotate_right e 25) + choice + k
                + hd 0 window in
      let t2 := xor3 (rotate_right a 2) (rotate_right a 13) (rotate_right a 22) + majority in
      ([word (t1 + t2); a; b; c; word (d + t1); e; f; g],
       tl window ++ [next_schedule_word window])
  | _ => st
  end.

Definition sha_block (hash block : list Z) : list Z :=
  zip_with (λ x y, word (x + y)) hash (foldl sha_round (hash, block) round_words).1.

(** Big-endian bytes of [z], [n] of them. *)
Fixpoint be_bytes (n : nat) (z : Z) : list Z :=
  match n with O => [] | S n' => be_bytes n' (z / 256) ++ [z mod 256] end.
Definition word_of_bytes (bs : list Z) : Z := foldl (λ acc b, acc * 256 + b) 0 bs.

Fixpoint chunks {A} (fuel n : nat) (l : list A) : list (list A) :=
  match fuel, l with
  | S fuel', _ :: _ => take n l :: chunks fuel' n (drop n l)
  | _, _ => []
  end.

Definition sha_padding (length_bytes : Z) : list Z :=
  128 :: repeat 0 (Z.to_nat ((55 - length_bytes) mod 64)) ++ be_bytes 8 (length_bytes * 8).

Definition Sum256_bytes (msg : list Z) : list Z :=
  let padded := msg ++ sha_padding (Z.of_nat (length msg)) in
  let words := map word_of_bytes (chunks (length padded) 4 padded) in
  let blocks := chunks (length words) 16 words in
  concat (map (be_bytes 4) (foldl sha_block initial_words blocks)).

Definition hex_digit (n : Z) : Ascii.ascii :=
  byte_of_code (if n <? 10 then 48 + n else 87 + n).
Definition hex_bytes (bs : list Z) : string :=
  String.string_of_list_ascii (concat (map (λ b, [hex_digit (b / 16); hex_digit (b mod 16)]) bs)).

Definition bytes_of (s : string) : list Z := map byte_code (String.list_ascii_of_string s).

(** [hex.EncodeToString(sha256.Sum256([]byte(s))[:])] *)
Definition sha256_hex (s : string) : string := hex_bytes (Sum256_bytes (bytes_of s)).

(** [hex.DecodeString(s)] succeeds and yields [n] bytes. *)
Definition is_hex_digit (c : Ascii.ascii) : bool :=
  let n := byte_code c in
  ((48 <=? n) && (n <=? 57)) || ((97 <=? n) && (n <=? 102)) || ((65 <=? n) && (n <=? 70)).
Definition decodes_to_bytes (s : string) (n : Z) : bool :=
  forallb is_hex_digit (String.list_ascii_of_string s) && (len s =? 2 * n).

(** * The digest has 32 bytes *)

Lemma be_bytes_length n z : length (be_bytes n z) = n.
Proof. revert z. induction n as [|n IH]; intros z; cbn; [done|]. rewrite length_app, IH. cbn. lia. Qed.

Lemma sha_round_vars st k : length st.1 = 8%nat → length (sha_round st k).1 = 8%nat.
Proof.
  destruct st as [vars window]. cbn. intros Hv.
  do 9 (destruct vars as [|? vars]; try done).
Qed.

Lemma sha_block_length hash block : length hash = 8%nat → length (sha_block hash block) = 8%nat.
Proof.
  intros Hh. unfold sha_block. rewrite length_zip_with.
  assert (length (foldl sha_round (hash, block) round_words).1 = 8%nat) as ->; [|lia].
  apply (foldl_invariant (λ st, length st.1 = 8%nat)); [done|].
  intros st k _. apply sha_round_vars.
Qed.

Lemma Sum256_bytes_length msg : length (Sum256_bytes msg) = 32%nat.
Proof.
  unfold Sum256_bytes. set (blocks := chunks _ 16 _).
  assert (length (foldl sha_block initial_words blocks) = 8%nat) as H8.
  { apply (foldl_invariant (λ h, length h = 8%nat)); [done|]. intros h b _. apply sha_block_length. }
  destruct (foldl sha_block initial_words blocks) as [|w0 l]; [done|].
  do 8 (destruct l as [|? l]; try done).
Qed.

Lemma hex_bytes_length bs : String.length (hex_bytes bs) = (2 * length bs)%nat.
Proof.
  unfold hex_bytes.
  rewrite <- length_list_ascii, String.list_ascii_of_string_of_list_ascii.
  induction bs as [|b bs IH]; cbn; [done|]. rewrite IH. lia.
Qed.

Lemma sha256_hex_length s : String.length (sha256_hex s) = 64%nat.
Proof. unfold sha256_hex. by rewrite hex_bytes_length, Sum256_bytes_length. Qed.

(** FIPS 180-4 vectors. *)
Example sha256_abc :
  sha256_hex "abc" = "ba7816bf8f01cfea414140de5dae2223b00361a396177a9cb410ff61f20015ad".
Proof. vm_compute. reflexivity. Qed.
Example sha256_empty :
  sha256_hex "" = "e3b0c44298fc1c149afbf4c8996fb92427ae41e4649b934ca495991b7852b855".
Proof. vm_compute. reflexivity. Qed.
Example sha256_two_blocks :
  sha256_hex "abcdbcdecdefdefgefghfghighijhijkijkljklmklmnlmnomnopnopq" =
  "248d6a61d20638b8e5c026930c3e6039a33ce45964ff2167f6ecedd419db06c1".
Proof. vm_compute. reflexivity. Qed.
