(* ===== verification/Core.v ===== *)
(** The shared data model, [services/api/internal/core]: every struct as a record with the source's
    fields in order, prefixed by the struct, its zero value [zero_<Struct>] and its [Eta] instance.

    The string types with named constants ([Severity], [FindingStatus], [Fixability], [RiskTier],
    [ApprovalStatus], [RunState]) stay strings, because the code also converts arbitrary strings to
    them; a pointer is an option, [time.Time] a [Time], [int] and [int64] a [Z], and a map with
    string keys a [gmap]. *)
From Stdlib Require Import SpecFloat.
From S2P Require Import Prelude GoLib.

Local Open Scope Z_scope.

(** * Named constants *)

Definition SeverityCritical : string := "critical".
Definition SeverityHigh : string := "high".
Definition SeverityMedium : string := "medium".
Definition SeverityLow : string := "low".
Definition SeverityInfo : string := "info".
Definition FindingOpen : string := "open".
Definition FindingInReview : string := "in_review".
Definition FindingRemediating : string := "remediating".
Definition FindingResolved : string := "resolved".
Definition FindingSuppressed : string := "suppressed".
Definition FindingExpired : string := "expired".
Definition FixabilityDeterministic : string := "safe_deterministic".
Definition FixabilityGated : string := "dry_run_then_gated".
Definition FixabilityHumanOnly : string := "human_approved_only".
Definition FixabilityInformational : string := "informational_no_fix".
Definition RiskTierA : string := "A".
Definition RiskTierB : string := "B".
Definition RiskTierC : string := "C".
Definition RiskTierD : string := "D".
Definition ApprovalPending : string := "pending".
Definition ApprovalApproved : string := "approved".
Definition ApprovalRejected : string := "rejected".
Definition ApprovalExpired : string := "expired".
Definition RunPendingApproval : string := "pending_approval".
Definition RunPrepared : string := "prepared".
Definition RunApproved : string := "approved".
Definition RunExecutionRequested : string := "execution_requested".
Definition RunProposalOnly : string := "proposal_only".
Definition RunDryRunPassed : string := "dry_run_passed".
Definition RunRunning : string := "running".
Definition RunVerifying : string := "verifying".
Definition RunRollbackRequested : string := "rollback_requested".
Definition RunSucceeded : string := "succeeded".
Definition RunFailed : string := "failed".
Definition RunRolledBack : string := "rolled_back".
Definition ChaosPreflightValidated : string := "preflight_validated".
Definition ChaosPendingApproval : string := "pending_approval".
Definition ChaosApproved : string := "approved".
Definition ChaosExecutionRequested : string := "execution_requested".
Definition ChaosRunning : string := "running".
Definition ChaosCleanupRequested : string := "cleanup_requested".
Definition ChaosAbortRequested : string := "abort_requested".
Definition ChaosVerifying : string := "verifying_recovery".
Definition ChaosSucceeded : string := "succeeded".
Definition ChaosFailed : string := "failed".
Definition ChaosRejected : string := "rejected".
Definition ChaosAborted : string := "aborted".
Definition ChaosExpired : string := "expired".

(** * Records *)

Record ResourceRef := mkResourceRef {
  ref_APIVersion : string;
  ref_Kind : string;
  ref_Namespace : string;
  ref_Name : string
}.
#[export] Instance eta_ResourceRef : Eta ResourceRef := λ r, mkResourceRef (ref_APIVersion r)
    (ref_Kind r) (ref_Namespace r) (ref_Name r).
Definition zero_ResourceRef : ResourceRef := mkResourceRef "" "" "" "".

#[export] Instance ResourceRef_eq_dec : EqDecision ResourceRef.
Proof. solve_decision. Defined.

(** [ResourceRef.String] *)
Definition ref_String (r : ResourceRef) : string :=
  if ref_Namespace r == "" then ref_Kind r +:+ "/" +:+ ref_Name r
  else ref_Kind r +:+ "/" +:+ ref_Namespace r +:+ "/" +:+ ref_Name r.

Record Evidence := mkEvidence {
  evidence_Summary : string;
  evidence_Details : string;
  evidence_SourceID : string;
  evidence_ObservedAt : Time
}.
#[export] Instance eta_Evidence : Eta Evidence := λ r, mkEvidence (evidence_Summary r)
    (evidence_Details r) (evidence_SourceID r) (evidence_ObservedAt r).
Definition zero_Evidence : Evidence := mkEvidence "" "" "" 0.

Record CorrelationKeys := mkCorrelationKeys {
  keys_Workload : string;
  keys_Namespace : string;
  keys_Identity : string;
  keys_NetworkExposure : string;
  keys_Image : string
}.
#[export] Instance eta_CorrelationKeys : Eta CorrelationKeys := λ r, mkCorrelationKeys
    (keys_Workload r) (keys_Namespace r) (keys_Identity r) (keys_NetworkExposure r)
    (keys_Image r).
Definition zero_CorrelationKeys : CorrelationKeys := mkCorrelationKeys "" "" "" "" "".

Record RiskFactor := mkRiskFactor {
  factor_Name : string;
  factor_Points : Z;
  factor_Reason : string
}.
#[export] Instance eta_RiskFactor : Eta RiskFactor := λ r, mkRiskFactor (factor_Name r)
    (factor_Points r) (factor_Reason r).
Definition zero_RiskFactor : RiskFactor := mkRiskFactor "" 0 "".

Record RiskExplanation := mkRiskExplanation {
  risk_Version : string;
  risk_BaseScore : Z;
  risk_Factors : list RiskFactor;
  risk_FinalScore : Z
}.
#[export] Instance eta_RiskExplanation : Eta RiskExplanation := λ r, mkRiskExplanation
    (risk_Version r) (risk_BaseScore r) (risk_Factors r) (risk_FinalScore r).
Definition zero_RiskExplanation : RiskExplanation := mkRiskExplanation "" 0 [] 0.

Record Finding := mkFinding {
  finding_ID : string;
  finding_Source : string;
  finding_Title : string;
  finding_Severity : string;
  finding_Evidence : list Evidence;
  finding_Resources : list ResourceRef;
  finding_BlastRadius : string;
  finding_Fixability : string;
  finding_Status : string;
  finding_CorrelationGroup : string;
  finding_CorrelationKeys : CorrelationKeys;
  finding_RiskScore : Z;
  finding_RiskExplanation : RiskExplanation;
  finding_RemediationState : string;
  finding_RecommendedAction : string;
  finding_CreatedAt : Time;
  finding_UpdatedAt : Time
}.
#[export] Instance eta_Finding : Eta Finding := λ r, mkFinding (finding_ID r) (finding_Source r)
    (finding_Title r) (finding_Severity r) (finding_Evidence r) (finding_Resources r)
    (finding_BlastRadius r) (finding_Fixability r) (finding_Status r)
    (finding_CorrelationGroup r) (finding_CorrelationKeys r) (finding_RiskScore r)
    (finding_RiskExplanation r) (finding_RemediationState r) (finding_RecommendedAction r)
    (finding_CreatedAt r) (finding_UpdatedAt r).
Definition zero_Finding : Finding := mkFinding "" "" "" "" [] [] "" "" "" ""
    zero_CorrelationKeys 0 zero_RiskExplanation "" "" 0 0.

Record AgentStatus := mkAgentStatus {
  agentStatus_AutonomyMode : string;
  agentStatus_UptimeSeconds : Z;
  agentStatus_ActionsLast24H : Z;
  agentStatus_RuntimeIdentity : string
}.
#[export] Instance eta_AgentStatus : Eta AgentStatus := λ r, mkAgentStatus
    (agentStatus_AutonomyMode r) (agentStatus_UptimeSeconds r) (agentStatus_ActionsLast24H r)
    (agentStatus_RuntimeIdentity r).
Definition zero_AgentStatus : AgentStatus := mkAgentStatus "" 0 0 "".

Record ClusterInventory := mkClusterInventory {
  inventory_Nodes : Z;
  inventory_ReadyNodes : Z;
  inventory_Namespaces : Z;
  inventory_Pods : Z;
  inventory_RunningPods : Z;
  inventory_PendingPods : Z;
  inventory_Deployments : Z;
  inventory_StatefulSets : Z;
  inventory_DaemonSets : Z;
  inventory_Services : Z;
  inventory_Ingresses : Z;
  inventory_Jobs : Z;
  inventory_ConfigMaps : Z;
  inventory_Secrets : Z;
  inventory_ServiceAccounts : Z;
  inventory_Roles : Z;
  inventory_RoleBindings : Z;
  inventory_ClusterRoles : Z;
  inventory_ClusterRoleBindings : Z;
  inventory_NetworkPolicies : Z;
  inventory_ResourceQuotas : Z;
  inventory_LimitRanges : Z;
  inventory_PersistentVolumeClaims : Z;
  inventory_PodDisruptionBudgets : Z;
  inventory_HorizontalPodAutoscalers : Z;
  inventory_Events : Z
}.
#[export] Instance eta_ClusterInventory : Eta ClusterInventory := λ r, mkClusterInventory
    (inventory_Nodes r) (inventory_ReadyNodes r) (inventory_Namespaces r) (inventory_Pods r)
    (inventory_RunningPods r) (inventory_PendingPods r) (inventory_Deployments r)
    (inventory_StatefulSets r) (inventory_DaemonSets r) (inventory_Services r)
    (inventory_Ingresses r) (inventory_Jobs r) (inventory_ConfigMaps r) (inventory_Secrets r)
    (inventory_ServiceAccounts r) (inventory_Roles r) (inventory_RoleBindings r)
    (inventory_ClusterRoles r) (inventory_ClusterRoleBindings r) (inventory_NetworkPolicies r)
    (inventory_ResourceQuotas r) (inventory_LimitRanges r) (inventory_PersistentVolumeClaims r)
    (inventory_PodDisruptionBudgets r) (inventory_HorizontalPodAutoscalers r)
    (inventory_Events r).
Definition zero_ClusterInventory : ClusterInventory := mkClusterInventory 0 0 0 0 0 0 0 0 0 0 0
    0 0 0 0 0 0 0 0 0 0 0 0 0 0 0.

Record ScanSummary := mkScanSummary {
  scan_LastRunAt : Time;
  scan_ResourcesScanned : Z;
  scan_PolicyChecks : Z;
  scan_PermissionChecks : Z;
  scan_ConfigurationChecks : Z;
  scan_ComplianceControls : Z;
  scan_PassedControls : Z;
  scan_FailedControls : Z
}.
#[export] Instance eta_ScanSummary : Eta ScanSummary := λ r, mkScanSummary (scan_LastRunAt r)
    (scan_ResourcesScanned r) (scan_PolicyChecks r) (scan_PermissionChecks r)
    (scan_ConfigurationChecks r) (scan_ComplianceControls r) (scan_PassedControls r)
    (scan_FailedControls r).
Definition zero_ScanSummary : ScanSummary := mkScanSummary 0 0 0 0 0 0 0 0.

Record ComplianceControl := mkComplianceControl {
  control_ID : string;
  control_Framework : string;
  control_Title : string;
  control_Status : string;
  control_Severity : string;
  control_Evidence : string
}.
#[export] Instance eta_ComplianceControl : Eta ComplianceControl := λ r, mkComplianceControl
    (control_ID r) (control_Framework r) (control_Title r) (control_Status r)
    (control_Severity r) (control_Evidence r).
Definition zero_ComplianceControl : ComplianceControl := mkComplianceControl "" "" "" "" "" "".

Record ChaosExperiment := mkChaosExperiment {
  experiment_ID : string;
  experiment_Name : string;
  experiment_Category : string;
  experiment_Target : string;
  experiment_Status : string;
  experiment_Engine : string;
  experiment_Description : string;
  experiment_Preflight : list string;
  experiment_Manifest : string
}.
#[export] Instance eta_ChaosExperiment : Eta ChaosExperiment := λ r, mkChaosExperiment
    (experiment_ID r) (experiment_Name r) (experiment_Category r) (experiment_Target r)
    (experiment_Status r) (experiment_Engine r) (experiment_Description r)
    (experiment_Preflight r) (experiment_Manifest r).
Definition zero_ChaosExperiment : ChaosExperiment := mkChaosExperiment "" "" "" "" "" "" "" []
    "".

Record Dashboard := mkDashboard {
  dashboard_TotalFindings : Z;
  dashboard_OpenCritical : Z;
  dashboard_PendingApprovals : Z;
  dashboard_ActiveRemediations : Z;
  dashboard_VerifiedRemediations : Z;
  dashboard_FindingsWithSafeFix : Z;
  dashboard_RiskReduced : Z;
  dashboard_EvidenceFreshness : string;
  dashboard_MeanRiskScore : float64;
  dashboard_FindingsBySeverity : gmap string Z;
  dashboard_FindingsBySource : gmap string Z;
  dashboard_RemediationByState : gmap string Z;
  dashboard_ProtectedNamespaces : Z;
  dashboard_BundledEnginesOnline : Z;
  dashboard_Agent : AgentStatus;
  dashboard_Cluster : ClusterInventory;
  dashboard_Scan : ScanSummary;
  dashboard_Compliance : list ComplianceControl;
  dashboard_Experiments : list ChaosExperiment
}.
#[export] Instance eta_Dashboard : Eta Dashboard := λ r, mkDashboard (dashboard_TotalFindings r)
    (dashboard_OpenCritical r) (dashboard_PendingApprovals r) (dashboard_ActiveRemediations r)
    (dashboard_VerifiedRemediations r) (dashboard_FindingsWithSafeFix r)
    (dashboard_RiskReduced r) (dashboard_EvidenceFreshness r) (dashboard_MeanRiskScore r)
    (dashboard_FindingsBySeverity r) (dashboard_FindingsBySource r)
    (dashboard_RemediationByState r) (dashboard_ProtectedNamespaces r)
    (dashboard_BundledEnginesOnline r) (dashboard_Agent r) (dashboard_Cluster r)
    (dashboard_Scan r) (dashboard_Compliance r) (dashboard_Experiments r).
Definition zero_Dashboard : Dashboard := mkDashboard 0 0 0 0 0 0 0 "" (S754_zero false) ∅ ∅ ∅ 0
    0 zero_AgentStatus zero_ClusterInventory zero_ScanSummary [] [].

Record ChaosExperimentRun := mkChaosExperimentRun {
  chaos_ID : string;
  chaos_ExperimentID : string;
  chaos_Status : string;
  chaos_Message : string;
  chaos_Manifest : string;
  chaos_Resource : ResourceRef;
  chaos_TargetSelector : gmap string string;
  chaos_TargetCount : Z;
  chaos_DurationSeconds : Z;
  chaos_RequestedBy : string;
  chaos_ApprovedBy : string;
  chaos_ApprovalReason : string;
  chaos_AbortedBy : string;
  chaos_FailureReason : string;
  chaos_RecoveryStatus : string;
  chaos_RecoveryMessage : string;
  chaos_AttemptCount : Z;
  chaos_Version : Z;
  chaos_CreatedAt : Time;
  chaos_UpdatedAt : Time;
  chaos_ApprovalExpiresAt : option Time;
  chaos_InjectionDeadline : option Time;
  chaos_StartedAt : option Time;
  chaos_FinishedAt : option Time;
  chaos_CleanupDeadline : option Time;
  chaos_RecoveryDeadline : option Time
}.
#[export] Instance eta_ChaosExperimentRun : Eta ChaosExperimentRun := λ r, mkChaosExperimentRun
    (chaos_ID r) (chaos_ExperimentID r) (chaos_Status r) (chaos_Message r) (chaos_Manifest r)
    (chaos_Resource r) (chaos_TargetSelector r) (chaos_TargetCount r) (chaos_DurationSeconds r)
    (chaos_RequestedBy r) (chaos_ApprovedBy r) (chaos_ApprovalReason r) (chaos_AbortedBy r)
    (chaos_FailureReason r) (chaos_RecoveryStatus r) (chaos_RecoveryMessage r)
    (chaos_AttemptCount r) (chaos_Version r) (chaos_CreatedAt r) (chaos_UpdatedAt r)
    (chaos_ApprovalExpiresAt r) (chaos_InjectionDeadline r) (chaos_StartedAt r)
    (chaos_FinishedAt r) (chaos_CleanupDeadline r) (chaos_RecoveryDeadline r).
Definition zero_ChaosExperimentRun : ChaosExperimentRun := mkChaosExperimentRun "" "" "" "" ""
    zero_ResourceRef ∅ 0 0 "" "" "" "" "" "" "" 0 0 0 0 None None None None None None.

Record ClusterSnapshot := mkClusterSnapshot {
  snapshot_Inventory : ClusterInventory;
  snapshot_Findings : list Finding;
  snapshot_Scan : ScanSummary;
  snapshot_Compliance : list ComplianceControl;
  snapshot_Experiments : list ChaosExperiment
}.
#[export] Instance eta_ClusterSnapshot : Eta ClusterSnapshot := λ r, mkClusterSnapshot
    (snapshot_Inventory r) (snapshot_Findings r) (snapshot_Scan r) (snapshot_Compliance r)
    (snapshot_Experiments r).
Definition zero_ClusterSnapshot : ClusterSnapshot := mkClusterSnapshot zero_ClusterInventory []
    zero_ScanSummary [] [].

Record TypedAction := mkTypedAction {
  action_Type : string;
  action_Target : ResourceRef;
  action_Description : string;
  action_Params : gmap string string
}.
#[export] Instance eta_TypedAction : Eta TypedAction := λ r, mkTypedAction (action_Type r)
    (action_Target r) (action_Description r) (action_Params r).
Definition zero_TypedAction : TypedAction := mkTypedAction "" zero_ResourceRef "" ∅.

Record DryRunResult := mkDryRunResult {
  dryRun_Passed : bool;
  dryRun_Message : string
}.
#[export] Instance eta_DryRunResult : Eta DryRunResult := λ r, mkDryRunResult (dryRun_Passed r)
    (dryRun_Message r).
Definition zero_DryRunResult : DryRunResult := mkDryRunResult false "".

Record ApprovalPolicy := mkApprovalPolicy {
  policy_Required : bool;
  policy_Decision : string;
  policy_Categories : list string
}.
#[export] Instance eta_ApprovalPolicy : Eta ApprovalPolicy := λ r, mkApprovalPolicy
    (policy_Required r) (policy_Decision r) (policy_Categories r).
Definition zero_ApprovalPolicy : ApprovalPolicy := mkApprovalPolicy false "" [].

Record AIAnalysis := mkAIAnalysis {
  ai_Provider : string;
  ai_Model : string;
  ai_Mode : string;
  ai_Summary : string;
  ai_RootCause : string;
  ai_Impact : string;
  ai_RecommendedAction : string;
  ai_Confidence : string;
  ai_SafetyNotes : list string;
  ai_AutonomousPolicy : string;
  ai_GeneratedAt : Time
}.
#[export] Instance eta_AIAnalysis : Eta AIAnalysis := λ r, mkAIAnalysis (ai_Provider r)
    (ai_Model r) (ai_Mode r) (ai_Summary r) (ai_RootCause r) (ai_Impact r)
    (ai_RecommendedAction r) (ai_Confidence r) (ai_SafetyNotes r) (ai_AutonomousPolicy r)
    (ai_GeneratedAt r).
Definition zero_AIAnalysis : AIAnalysis := mkAIAnalysis "" "" "" "" "" "" "" "" [] "" 0.

Record RemediationPlan := mkRemediationPlan {
  plan_ID : string;
  plan_CatalogVersion : string;
  plan_FindingID : string;
  plan_RootCause : string;
  plan_Actions : list TypedAction;
  plan_RiskTier : string;
  plan_DryRunResult : DryRunResult;
  plan_VerificationSteps : list string;
  plan_RollbackSteps : list string;
  plan_ApprovalPolicy : ApprovalPolicy;
  plan_AI : option AIAnalysis;
  plan_Status : string;
  plan_CreatedAt : Time
}.
#[export] Instance eta_RemediationPlan : Eta RemediationPlan := λ r, mkRemediationPlan
    (plan_ID r) (plan_CatalogVersion r) (plan_FindingID r) (plan_RootCause r) (plan_Actions r)
    (plan_RiskTier r) (plan_DryRunResult r) (plan_VerificationSteps r) (plan_RollbackSteps r)
    (plan_ApprovalPolicy r) (plan_AI r) (plan_Status r) (plan_CreatedAt r).
Definition zero_RemediationPlan : RemediationPlan := mkRemediationPlan "" "" "" "" [] ""
    zero_DryRunResult [] [] zero_ApprovalPolicy None "" 0.

Record EvidenceCitation := mkEvidenceCitation {
  citation_SourceID : string;
  citation_Summary : string;
  citation_Resource : string;
  citation_ObservedAt : Time
}.
#[export] Instance eta_EvidenceCitation : Eta EvidenceCitation := λ r, mkEvidenceCitation
    (citation_SourceID r) (citation_Summary r) (citation_Resource r) (citation_ObservedAt r).
Definition zero_EvidenceCitation : EvidenceCitation := mkEvidenceCitation "" "" "" 0.

Record RemediationPreview := mkRemediationPreview {
  preview_FindingID : string;
  preview_Summary : string;
  preview_Candidate : RemediationPlan;
  preview_EvidenceCitations : list EvidenceCitation;
  preview_PromptEvidenceHash : string;
  preview_DeterministicFallback : bool;
  preview_AI : option AIAnalysis;
  preview_SafetyNotes : list string;
  preview_GeneratedAt : Time
}.
#[export] Instance eta_RemediationPreview : Eta RemediationPreview := λ r, mkRemediationPreview
    (preview_FindingID r) (preview_Summary r) (preview_Candidate r)
    (preview_EvidenceCitations r) (preview_PromptEvidenceHash r)
    (preview_DeterministicFallback r) (preview_AI r) (preview_SafetyNotes r)
    (preview_GeneratedAt r).
Definition zero_RemediationPreview : RemediationPreview := mkRemediationPreview "" ""
    zero_RemediationPlan [] "" false None [] 0.

Record PlannedManifest := mkPlannedManifest {
  manifest_ActionType : string;
  manifest_Target : ResourceRef;
  manifest_WriteMode : string;
  manifest_RiskTier : string;
  manifest_ApprovalRequired : bool;
  manifest_RequiredPermissions : list string;
  manifest_VerificationChecks : list string;
  manifest_RollbackProcedure : list string;
  manifest_IdempotencyBehavior : string;
  manifest_FailureHandling : string;
  manifest_Diff : string;
  manifest_Manifest : string
}.
#[export] Instance eta_PlannedManifest : Eta PlannedManifest := λ r, mkPlannedManifest
    (manifest_ActionType r) (manifest_Target r) (manifest_WriteMode r) (manifest_RiskTier r)
    (manifest_ApprovalRequired r) (manifest_RequiredPermissions r)
    (manifest_VerificationChecks r) (manifest_RollbackProcedure r)
    (manifest_IdempotencyBehavior r) (manifest_FailureHandling r) (manifest_Diff r)
    (manifest_Manifest r).
Definition zero_PlannedManifest : PlannedManifest := mkPlannedManifest "" zero_ResourceRef "" ""
    false [] [] [] "" "" "" "".

Record RemediationDiff := mkRemediationDiff {
  diff_PlanID : string;
  diff_Mode : string;
  diff_Summary : string;
  diff_Manifests : list PlannedManifest
}.
#[export] Instance eta_RemediationDiff : Eta RemediationDiff := λ r, mkRemediationDiff
    (diff_PlanID r) (diff_Mode r) (diff_Summary r) (diff_Manifests r).
Definition zero_RemediationDiff : RemediationDiff := mkRemediationDiff "" "" "" [].

Record FindingGroup := mkFindingGroup {
  group_GroupBy : string;
  group_Key : string;
  group_Count : Z;
  group_MeanRiskScore : float64;
  group_HighestSeverity : string;
  group_Findings : list Finding
}.
#[export] Instance eta_FindingGroup : Eta FindingGroup := λ r, mkFindingGroup (group_GroupBy r)
    (group_Key r) (group_Count r) (group_MeanRiskScore r) (group_HighestSeverity r)
    (group_Findings r).
Definition zero_FindingGroup : FindingGroup := mkFindingGroup "" "" 0 (S754_zero false) "" [].

Record FindingListResponse := mkFindingListResponse {
  findingList_Items : list Finding;
  findingList_Groups : list FindingGroup;
  findingList_Total : Z;
  findingList_NextCursor : string
}.
#[export] Instance eta_FindingListResponse : Eta FindingListResponse := λ r, mkFindingListResponse
    (findingList_Items r) (findingList_Groups r) (findingList_Total r)
    (findingList_NextCursor r).
Definition zero_FindingListResponse : FindingListResponse := mkFindingListResponse [] [] 0 "".

Record ApprovalRequest := mkApprovalRequest {
  approval_ID : string;
  approval_SubjectRef : string;
  approval_RequestedAction : string;
  approval_Requester : string;
  approval_Approver : string;
  approval_Status : string;
  approval_ExpiresAt : Time;
  approval_CreatedAt : Time;
  approval_UpdatedAt : Time;
  approval_DecisionReason : string
}.
#[export] Instance eta_ApprovalRequest : Eta ApprovalRequest := λ r, mkApprovalRequest
    (approval_ID r) (approval_SubjectRef r) (approval_RequestedAction r) (approval_Requester r)
    (approval_Approver r) (approval_Status r) (approval_ExpiresAt r) (approval_CreatedAt r)
    (approval_UpdatedAt r) (approval_DecisionReason r).
Definition zero_ApprovalRequest : ApprovalRequest := mkApprovalRequest "" "" "" "" "" "" 0 0 0
    "".

Record ActionStatus := mkActionStatus {
  actionStatus_ActionType : string;
  actionStatus_State : string;
  actionStatus_Message : string
}.
#[export] Instance eta_ActionStatus : Eta ActionStatus := λ r, mkActionStatus
    (actionStatus_ActionType r) (actionStatus_State r) (actionStatus_Message r).
Definition zero_ActionStatus : ActionStatus := mkActionStatus "" "" "".

Record RemediationRun := mkRemediationRun {
  run_ID : string;
  run_PlanID : string;
  run_State : string;
  run_ActionStatuses : list ActionStatus;
  run_ValidationResult : string;
  run_RollbackMetadata : string;
  run_CreatedAt : Time;
  run_UpdatedAt : Time
}.
#[export] Instance eta_RemediationRun : Eta RemediationRun := λ r, mkRemediationRun (run_ID r)
    (run_PlanID r) (run_State r) (run_ActionStatuses r) (run_ValidationResult r)
    (run_RollbackMetadata r) (run_CreatedAt r) (run_UpdatedAt r).
Definition zero_RemediationRun : RemediationRun := mkRemediationRun "" "" "" [] "" "" 0 0.

Record AuditEvent := mkAuditEvent {
  audit_ID : string;
  audit_Actor : string;
  audit_Action : string;
  audit_Subject : string;
  audit_Message : string;
  audit_CreatedAt : Time
}.
#[export] Instance eta_AuditEvent : Eta AuditEvent := λ r, mkAuditEvent (audit_ID r)
    (audit_Actor r) (audit_Action r) (audit_Subject r) (audit_Message r) (audit_CreatedAt r).
Definition zero_AuditEvent : AuditEvent := mkAuditEvent "" "" "" "" "" 0.

Record EvidenceBundle := mkEvidenceBundle {
  bundle_Scope : string;
  bundle_GeneratedAt : Time;
  bundle_Summary : gmap string Z;
  bundle_Findings : list Finding;
  bundle_Plans : list RemediationPlan;
  bundle_Runs : list RemediationRun;
  bundle_ChaosRuns : list ChaosExperimentRun;
  bundle_AuditEvents : list AuditEvent
}.
#[export] Instance eta_EvidenceBundle : Eta EvidenceBundle := λ r, mkEvidenceBundle
    (bundle_Scope r) (bundle_GeneratedAt r) (bundle_Summary r) (bundle_Findings r)
    (bundle_Plans r) (bundle_Runs r) (bundle_ChaosRuns r) (bundle_AuditEvents r).
Definition zero_EvidenceBundle : EvidenceBundle := mkEvidenceBundle "" 0 ∅ [] [] [] [] [].

Record Exception := mkException {
  exception_ID : string;
  exception_Scope : string;
  exception_Owner : string;
  exception_Reason : string;
  exception_ExpiresAt : Time;
  exception_AuditMetadata : string;
  exception_Status : string;
  exception_CreatedAt : Time;
  exception_UpdatedAt : Time
}.
#[export] Instance eta_Exception : Eta Exception := λ r, mkException (exception_ID r)
    (exception_Scope r) (exception_Owner r) (exception_Reason r) (exception_ExpiresAt r)
    (exception_AuditMetadata r) (exception_Status r) (exception_CreatedAt r)
    (exception_UpdatedAt r).
Definition zero_Exception : Exception := mkException "" "" "" "" 0 "" "" 0 0.

Record SecretRef := mkSecretRef {
  secretRef_Name : string;
  secretRef_Key : string
}.
#[export] Instance eta_SecretRef : Eta SecretRef := λ r, mkSecretRef (secretRef_Name r)
    (secretRef_Key r).
Definition zero_SecretRef : SecretRef := mkSecretRef "" "".

Record ExternalSecretRef := mkExternalSecretRef {
  externalRef_Store : string;
  externalRef_Path : string;
  externalRef_Key : string
}.
#[export] Instance eta_ExternalSecretRef : Eta ExternalSecretRef := λ r, mkExternalSecretRef
    (externalRef_Store r) (externalRef_Path r) (externalRef_Key r).
Definition zero_ExternalSecretRef : ExternalSecretRef := mkExternalSecretRef "" "" "".

Record ModelProvider := mkModelProvider {
  provider_Name : string;
  provider_Type : string;
  provider_Model : string;
  provider_APIKeySecretRef : option SecretRef;
  provider_ExternalSecretRef : option ExternalSecretRef
}.
#[export] Instance eta_ModelProvider : Eta ModelProvider := λ r, mkModelProvider
    (provider_Name r) (provider_Type r) (provider_Model r) (provider_APIKeySecretRef r)
    (provider_ExternalSecretRef r).
Definition zero_ModelProvider : ModelProvider := mkModelProvider "" "" "" None None.

Record ModelProviderSettings := mkModelProviderSettings {
  settings_Providers : list ModelProvider
}.
#[export] Instance eta_ModelProviderSettings : Eta ModelProviderSettings := λ r, mkModelProviderSettings
    (settings_Providers r).
Definition zero_ModelProviderSettings : ModelProviderSettings := mkModelProviderSettings [].

Record Integration := mkIntegration {
  integration_Name : string;
  integration_Type : string;
  integration_Enabled : bool;
  integration_Status : string
}.
#[export] Instance eta_Integration : Eta Integration := λ r, mkIntegration (integration_Name r)
    (integration_Type r) (integration_Enabled r) (integration_Status r).
Definition zero_Integration : Integration := mkIntegration "" "" false "".

Record IntegrationHealth := mkIntegrationHealth {
  health_Name : string;
  health_Type : string;
  health_Enabled : bool;
  health_Status : string;
  health_Health : string;
  health_DataLastSeen : string;
  health_Permissions : list string;
  health_SupportedVersions : list string;
  health_SetupGaps : list string;
  health_ErrorState : string;
  health_FindingsCount : Z;
  health_CheckedAt : Time
}.
#[export] Instance eta_IntegrationHealth : Eta IntegrationHealth := λ r, mkIntegrationHealth
    (health_Name r) (health_Type r) (health_Enabled r) (health_Status r) (health_Health r)
    (health_DataLastSeen r) (health_Permissions r) (health_SupportedVersions r)
    (health_SetupGaps r) (health_ErrorState r) (health_FindingsCount r) (health_CheckedAt r).
Definition zero_IntegrationHealth : IntegrationHealth := mkIntegrationHealth "" "" false "" ""
    "" [] [] [] "" 0 0.

(** * The built-in experiment catalogue *)

Definition experiment_network_latency_service : ChaosExperiment := {|
  experiment_ID := "network-latency-service";
  experiment_Name := "Service network latency";
  experiment_Category := "network";
  experiment_Target := "Service-backed pods";
  experiment_Status := "preflight_default_execution_opt_in";
  experiment_Engine := "chaos-mesh";
  experiment_Description := "Validates a bounded latency run for selected service pods. Explicitly configured installations persist approval, execution, cleanup, and recovery state.";
  experiment_Preflight := [
    "Target selector resolves to non-system pods.";
    "Experiment duration and latency are bounded.";
    "Execution requires durable persistence, a separate approver, and an explicit operator request."];
  experiment_Manifest := Join [
    "apiVersion: chaos-mesh.org/v1alpha1";
    "kind: NetworkChaos";
    "metadata:";
    "  name: kubeathrix-service-latency";
    "  namespace: " +:+ quoted "{{TARGET_NAMESPACE}}";
    "spec:";
    "  action: delay";
    "  direction: to";
    "  mode: one";
    "  selector:";
    "    namespaces:";
    "      - " +:+ quoted "{{TARGET_NAMESPACE}}";
    "    labelSelectors:";
    "      " +:+ quoted "{{TARGET_LABEL_KEY}}" +:+ ": " +:+ quoted "{{TARGET_LABEL_VALUE}}";
    "  delay:";
    "    latency: " +:+ quoted "150ms";
    "    correlation: " +:+ quoted "25";
    "    jitter: " +:+ quoted "20ms";
    "  duration: " +:+ quoted "2m"] newline
|}.

Definition experiment_cpu_stress_workload : ChaosExperiment := {|
  experiment_ID := "cpu-stress-workload";
  experiment_Name := "Workload CPU stress";
  experiment_Category := "capacity";
  experiment_Target := "Deployment pods";
  experiment_Status := "preflight_default_execution_opt_in";
  experiment_Engine := "chaos-mesh";
  experiment_Description := "Validates bounded CPU pressure. Execution-enabled installations clean up the resource and verify target pod recovery.";
  experiment_Preflight := [
    "Target pods have CPU requests and limits.";
    "HorizontalPodAutoscaler or runbook owner is defined.";
    "Duration is short enough for a safe maintenance window."];
  experiment_Manifest := Join [
    "apiVersion: chaos-mesh.org/v1alpha1";
    "kind: StressChaos";
    "metadata:";
    "  name: kubeathrix-cpu-stress";
    "  namespace: " +:+ quoted "{{TARGET_NAMESPACE}}";
    "spec:";
    "  mode: one";
    "  selector:";
    "    namespaces:";
    "      - " +:+ quoted "{{TARGET_NAMESPACE}}";
    "    labelSelectors:";
    "      " +:+ quoted "{{TARGET_LABEL_KEY}}" +:+ ": " +:+ quoted "{{TARGET_LABEL_VALUE}}";
    "  stressors:";
    "    cpu:";
    "      workers: 1";
    "      load: 70";
    "  duration: " +:+ quoted "2m"] newline
|}.

Definition experiment_dns_failure_readiness : ChaosExperiment := {|
  experiment_ID := "dns-failure-readiness";
  experiment_Name := "DNS failure readiness";
  experiment_Category := "dependency";
  experiment_Target := "Application namespace";
  experiment_Status := "preflight_default_execution_opt_in";
  experiment_Engine := "chaos-mesh";
  experiment_Description := "Validates a scoped DNS-failure run with an opt-in persistent execution and recovery lifecycle.";
  experiment_Preflight := [
    "Experiment is scoped to one namespace.";
    "Target application has health signals visible to KubeAthrix.";
    "Execution requires durable persistence, a separate approver, and an explicit operator request."];
  experiment_Manifest := Join [
    "apiVersion: chaos-mesh.org/v1alpha1";
    "kind: DNSChaos";
    "metadata:";
    "  name: kubeathrix-dns-failure";
    "  namespace: " +:+ quoted "{{TARGET_NAMESPACE}}";
    "spec:";
    "  action: error";
    "  mode: one";
    "  patterns:";
    "    - " +:+ quoted "dependency.internal";
    "  selector:";
    "    namespaces:";
    "      - " +:+ quoted "{{TARGET_NAMESPACE}}";
    "    labelSelectors:";
    "      " +:+ quoted "{{TARGET_LABEL_KEY}}" +:+ ": " +:+ quoted "{{TARGET_LABEL_VALUE}}";
    "  duration: " +:+ quoted "90s"] newline
|}.

Definition DefaultChaosExperiments : list ChaosExperiment :=
  [experiment_network_latency_service; experiment_cpu_stress_workload; experiment_dns_failure_readiness].
