(* ===== verification/Json.v ===== *)
(** The part of [encoding/json] the modelled code relies on: the decoder's grammar, the resolution
    of an object into a struct or a [map[string]any], and [json.Marshal] of a decoded value.

    Bytes above 127 are passed through, as for valid UTF-8 input, and field names fold in ASCII.
    The text of a decoding error is reduced to one message. *)
From Stdlib Require Import SpecFloat.
From S2P Require Import Prelude GoLib.

Local Open Scope Z_scope.

Set Warnings "-register-all".

(** A JSON value; a number keeps its literal, an object its members in order with repetitions. *)
Inductive json :=
| JNull
| JBool (b : bool)
| JNumber (literal : string)
| JString (s : string)
| JArray (items : list json)
| JObject (members : list (string * json)).

Definition json_error : GoError := Errorf "invalid JSON".

(** * Scanning *)

Definition is_json_space (c : Ascii.ascii) : bool :=
  let n := byte_code c in (n =? 32) || (n =? 9) || (n =? 10) || (n =? 13).
Definition skip_space : string → string := trim_left is_json_space.

Definition hex_value (c : Ascii.ascii) : option Z :=
  let n := byte_code c in
  if is_digit c then Some (n - 48)
  else if (97 <=? n) && (n <=? 102) then Some (n - 87)
  else if (65 <=? n) && (n <=? 70) then Some (n - 55)
  else None.

Definition hex4 (a b c d : Ascii.ascii) : option Z :=
  a ← hex_value a; b ← hex_value b; c ← hex_value c; d ← hex_value d;
  Some (((a * 16 + b) * 16 + c) * 16 + d).

Definition utf8_encode (r : Z) : string :=
  let tail n := String (byte_of_code (128 + n mod 64)) in
  if r <? 128 then String (byte_of_code r) ""
  else if r <? 2048 then String (byte_of_code (192 + r / 64)) (tail r "")
  else if r <? 65536 then
    String (byte_of_code (224 + r / 4096)) (tail (r / 64) (tail r ""))
  else String (byte_of_code (240 + r / 262144)) (tail (r / 4096) (tail (r / 64) (tail r ""))).

Definition is_high_surrogate (r : Z) : bool := (55296 <=? r) && (r <? 56320).
Definition is_low_surrogate (r : Z) : bool := (56320 <=? r) && (r <? 57344).
Definition replacement_char : Z := 65533.

Definition simple_escape (c : Ascii.ascii) : option Z :=
  match byte_code c with
  | 34 => Some 34 | 92 => Some 92 | 47 => Some 47
  | 98 => Some 8 | 102 => Some 12 | 110 => Some 10 | 114 => Some 13 | 116 => Some 9
  | _ => None
  end.

(** The characters of a string literal after its opening quote, and what follows the literal. *)
Fixpoint scan_string (s : string) : option (string * string) :=
  match s with
  | EmptyString => None
  | String c rest =>
      if byte_code c =? 34 then Some ("", rest)
      else if byte_code c <? 32 then None
      else if byte_code c =? 92 then
        match rest with
        | EmptyString => None
        | String e rest1 =>
            if byte_code e =? 117 then
              match rest1 with
              | String a (String b (String c' (String d rest2))) =>
                  match hex4 a b c' d with
                  | None => None
                  | Some r =>
                      let plain r' := prod_map (String.append (utf8_encode r')) id <$> scan_string rest2 in
                      if is_high_surrogate r then
                        match rest2 with
                        | String b1 (String b2 (String x (String y (String z (String w rest3))))) =>
                            if (byte_code b1 =? 92) && (byte_code b2 =? 117) then
                              match hex4 x y z w with
                              | Some r2 =>
                                  if is_low_surrogate r2 then
                                    let rune := 65536 + (r - 55296) * 1024 + (r2 - 56320) in
                                    prod_map (String.append (utf8_encode rune)) id <$> scan_string rest3
                                  else plain replacement_char
                              | None => plain replacement_char
                              end
                            else plain replacement_char
                        | _ => plain replacement_char
                        end
                      else if is_low_surrogate r then plain replacement_char
                      else plain r
                  end
              | _ => None
              end
            else
              match simple_escape e with
              | Some r => prod_map (String.append (utf8_encode r)) id <$> scan_string rest1
              | None => None
              end
        end
      else prod_map (String c) id <$> scan_string rest
  end.

(** A run of digits and what follows it. *)
Fixpoint scan_digits (s : string) : string * string :=
  match s with
  | String c rest => if is_digit c then prod_map (String c) id (scan_digits rest) else ("", s)
  | EmptyString => ("", "")
  end.

Definition scan_fraction (s : string) : option (string * string) :=
  match take_byte 46 s with
  | None => Some ("", s)
  | Some rest =>
      let '(ds, rest') := scan_digits rest in
      if ds == "" then None else Some ("." +:+ ds, rest')
  end.

Definition scan_exponent (s : string) : option (string * string) :=
  match s with
  | String c rest =>
      if (byte_code c =? 101) || (byte_code c =? 69) then
        let '(sign, rest1) := match take_byte 45 rest, take_byte 43 rest with
                              | Some r, _ => ("-", r)
                              | None, Some r => ("", r)
                              | None, None => ("", rest)
                              end in
        let '(ds, rest2) := scan_digits rest1 in
        if ds == "" then None else Some ("e" +:+ sign +:+ ds, rest2)
      else Some ("", s)
  | EmptyString => Some ("", s)
  end.

Definition scan_number (s : string) : option (string * string) :=
  let '(sign, s1) := match take_byte 45 s with Some r => ("-", r) | None => ("", s) end in
  '(int, s2) ← match take_byte 48 s1 with
               | Some r => Some ("0", r)
               | None => let '(ds, r) := scan_digits s1 in if ds == "" then None else Some (ds, r)
               end;
  '(frac, s3) ← scan_fraction s2;
  '(exp, s4) ← scan_exponent s3;
  Some (sign +:+ int +:+ frac +:+ exp, s4).

Definition scan_literal (word s : string) : option string :=
  if HasPrefix s word then Some (string_drop (String.length word) s) else None.

Definition max_nesting : Z := 10000.

(** One value of the text. Each call consumes a byte or ends, so the length of the text, plus one,
    is enough fuel; [depth] is the nesting the scanner bounds. *)
Fixpoint scan_value (fuel : nat) (depth : Z) (s : string) : option (json * string) :=
  match fuel with
  | O => None
  | S fuel' =>
      match skip_space s with
      | EmptyString => None
      | String c rest as s1 =>
          if byte_code c =? 123 then
            if max_nesting <=? depth then None
            else
              match take_byte 125 (skip_space rest) with
              | Some rest' => Some (JObject [], rest')
              | None => prod_map JObject id <$> scan_members fuel' (depth + 1) rest
              end
          else if byte_code c =? 91 then
            if max_nesting <=? depth then None
            else
              match take_byte 93 (skip_space rest) with
              | Some rest' => Some (JArray [], rest')
              | None => prod_map JArray id <$> scan_items fuel' (depth + 1) rest
              end
          else if byte_code c =? 34 then prod_map JString id <$> scan_string rest
          else if byte_code c =? 116 then (λ r, (JBool true, r)) <$> scan_literal "true" s1
          else if byte_code c =? 102 then (λ r, (JBool false, r)) <$> scan_literal "false" s1
          else if byte_code c =? 110 then (λ r, (JNull, r)) <$> scan_literal "null" s1
          else prod_map JNumber id <$> scan_number s1
      end
  end
with scan_items (fuel : nat) (depth : Z) (s : string) : option (list json * string) :=
  match fuel with
  | O => None
  | S fuel' =>
      '(v, rest) ← scan_value fuel' depth s;
      match take_byte 44 (skip_space rest), take_byte 93 (skip_space rest) with
      | Some rest', _ => prod_map (cons v) id <$> scan_items fuel' depth rest'
      | None, Some rest' => Some ([v], rest')
      | None, None => None
      end
  end
with scan_members (fuel : nat) (depth : Z) (s : string) : option (list (string * json) * string) :=
  match fuel with
  | O => None
  | S fuel' =>
      r0 ← take_byte 34 (skip_space s);
      '(k, r1) ← scan_string r0;
      r2 ← take_byte 58 (skip_space r1);
      '(v, rest) ← scan_value fuel' depth r2;
      match take_byte 44 (skip_space rest), take_byte 125 (skip_space rest) with
      | Some rest', _ => prod_map (cons (k, v)) id <$> scan_members fuel' depth rest'
      | None, Some rest' => Some ([(k, v)], rest')
      | None, None => None
      end
  end.

Definition parse_fuel (s : string) : nat := S (2 * String.length s).

(** [decoder.Decode(&v)] followed by a [Decode] that must report [io.EOF]: exactly one value. *)
Definition parse_json (s : string) : result json :=
  match scan_value (parse_fuel s) 0 s with
  | Some (v, rest) =>
      if skip_space rest == "" then Ok v
      else match scan_value (parse_fuel rest) 0 rest with
           | Some (JObject [], _) | Some (JNull, _) => Err (Errorf "multiple JSON values are not allowed")
           | _ => Err json_error
           end
  | None => Err json_error
  end.

(** * Decoding into Go values *)

(** [dst.field = value] for a string field: [null] leaves the field, other kinds are errors. *)
Definition decode_string (old : string) (v : json) : result string :=
  match v with
  | JString s => Ok s
  | JNull => Ok old
  | _ => Err json_error
  end.

(** Decodes a list member by member. *)
Fixpoint decode_all {A} (f : json → result A) (vs : list json) : result (list A) :=
  match vs with
  | [] => Ok []
  | v :: vs' => a ← f v; rest ← decode_all f vs'; Ok (a :: rest)
  end.

(** A struct under [DisallowUnknownFields]: the members in order, each into the field its name
    selects. *)
Definition decode_struct {A} (set : string → json → A → result A) (zero : A) (v : json) : result A :=
  match v with
  | JNull => Ok zero
  | JObject members => foldl (λ acc kv, a ← acc; set kv.1 kv.2 a) (Ok zero) members
  | _ => Err json_error
  end.

(** * Numbers

    A [map[string]any] holds a number as the [float64] nearest to its literal. *)

Record decimal := mkDecimal { decimal_negative : bool; decimal_digits : Z; decimal_exponent : Z }.

(** The value [± digits * 10 ^ exponent] of a number literal. *)
Definition parse_decimal (s : string) : decimal :=
  let '(neg, s1) := match take_byte 45 s with Some r => (true, r) | None => (false, s) end in
  let '(int, s2) := scan_digits s1 in
  let '(frac, s3) := match take_byte 46 s2 with Some r => scan_digits r | None => ("", s2) end in
  let exp := match s3 with
             | String _ r => match take_byte 45 r with
                             | Some r' => - digits_value (scan_digits r').1
                             | None => digits_value (scan_digits r).1
                             end
             | EmptyString => 0
             end in
  mkDecimal neg (digits_value (int +:+ frac)) (exp - len frac).

(** The [float64] nearest to [num / den]: a quotient with enough bits and a sticky bit rounds as the
    exact value does. *)
Definition round_ratio (num den : Z) : float64 :=
  let shift := 1200 + Z.log2 den in
  let q := Z.shiftl num shift / den in
  let sticky := if Z.shiftl num shift mod den =? 0 then 0 else 1 in
  binary_normalize 53 1024 (2 * q + sticky) (- (shift + 1)) false.

Definition round_decimal (digits exp : Z) : float64 :=
  if 0 <=? exp then binary_normalize 53 1024 (digits * 10 ^ exp) 0 false
  else round_ratio digits (10 ^ (- exp)).

(** [strconv.ParseFloat(literal, 64)]; [None] is a range error. An exponent so large that the value
    is out of range for any digits is decided without computing the power. *)
Definition parse_float (s : string) : option float64 :=
  let d := parse_decimal s in
  let magnitude := decimal_exponent d + Z.of_nat (String.length s) in
  let f := if decimal_digits d =? 0 then S754_zero false
           else if 400 <? decimal_exponent d then S754_infinity false
           else if magnitude <? -400 then S754_zero false
           else round_decimal (decimal_digits d) (decimal_exponent d) in
  match f with
  | S754_infinity _ | S754_nan => None
  | S754_zero _ => Some (S754_zero (decimal_negative d))
  | S754_finite _ m e => Some (S754_finite (decimal_negative d) m e)
  end.

(** [floor (m * 2^e / 10^k)] and whether it is exact. *)
Definition scale10 (m e k : Z) : Z * Z :=
  let num := m * (if 0 <=? e then 2 ^ e else 1) * (if k <? 0 then 10 ^ (- k) else 1) in
  let den := (if e <? 0 then 2 ^ (- e) else 1) * (if 0 <=? k then 10 ^ k else 1) in
  (num, den).

Definition same_float (f : float64) (m : positive) (e : Z) : bool :=
  match f with S754_finite _ m' e' => (Pos.eqb m m') && (e =? e') | _ => false end.

(** The candidates of [n] digits around [m * 2^e], the nearer first, as [digits * 10^k]. *)
Definition shortest_at (m : positive) (e k : Z) : option Z :=
  let '(num, den) := scale10 (Zpos m) e k in
  let lo := num / den in
  let twice := 2 * (num - lo * den) in
  let first := if (twice <? den) || ((twice =? den) && Z.even lo) then lo else lo + 1 in
  let second := if first =? lo then lo + 1 else lo in
  if same_float (round_decimal first k) m e then Some first
  else if same_float (round_decimal second k) m e then Some second
  else None.

(** Decimal digits of a positive number. *)
Definition num_digits (z : Z) : Z := len (Itoa z).

(** The decimal exponent of the leading digit of [m * 2^e]. *)
Definition leading_exponent (m : positive) (e : Z) : Z :=
  let '(num, den) := scale10 (Zpos m) e 0 in
  if den <=? num then num_digits (num / den) - 1
  else (* least k with num * 10^k >= den *)
    - (let k := num_digits (den / num) in
       if den <=? num * 10 ^ (k - 1) then k - 1 else k).

(** The shortest digits that read back as the number: 17 always do. *)
Fixpoint shortest (fuel : nat) (n : Z) (m : positive) (e top : Z) : Z * Z :=
  match fuel with
  | O => (0, 0)
  | S fuel' =>
      match shortest_at m e (top - n + 1) with
      | Some d => (d, top - n + 1)
      | None => shortest fuel' (n + 1) m e top
      end
  end.

Fixpoint trim_zeros (fuel : nat) (d k : Z) : Z * Z :=
  match fuel with
  | O => (d, k)
  | S fuel' => if (d mod 10 =? 0) && negb (d =? 0) then trim_zeros fuel' (d / 10) (k + 1) else (d, k)
  end.

Definition zeros (n : Z) : string := pad_zeros (Z.to_nat n) "".

(** [encoding/json]'s floatEncoder: plain notation between 1e-6 and 1e21, else an exponent. *)
Definition format_float (f : float64) : string :=
  match f with
  | S754_zero neg => if neg then "-0" else "0"
  | S754_finite neg m e =>
      let '(d0, k0) := shortest 17 1 m e (leading_exponent m e) in
      let '(d, k) := trim_zeros 20 d0 k0 in
      let ds := Itoa d in
      let point := len ds + k in
      (if neg then "-" else "") +:+
      (if (point <? -5) || (21 <? point) then
         let exp := point - 1 in
         string_take 1 ds +:+
         (if len ds =? 1 then "" else "." +:+ string_drop 1 ds) +:+
         "e" +:+ (if exp <? 0 then "-" +:+ Itoa (- exp) else "+" +:+ Itoa_padded 2 exp)
       else if point <=? 0 then "0." +:+ zeros (- point) +:+ ds
       else if 0 <=? k then ds +:+ zeros k
       else string_take (Z.to_nat point) ds +:+ "." +:+ string_drop (Z.to_nat point) ds)
  | _ => ""
  end.

(** * json.Marshal of a decoded value: keys in order, HTML characters escaped *)

Definition escape_byte (c : Ascii.ascii) : string :=
  let n := byte_code c in
  if (n =? 34) || (n =? 92) then backslash +:+ String c ""
  else if n =? 8 then backslash +:+ "b"
  else if n =? 12 then backslash +:+ "f"
  else if n =? 10 then backslash +:+ "n"
  else if n =? 13 then backslash +:+ "r"
  else if n =? 9 then backslash +:+ "t"
  else if (n <? 32) || (n =? 60) || (n =? 62) || (n =? 38) then
    backslash +:+ "u00" +:+ hex_lower (n / 16) +:+ hex_lower (n mod 16)
  else String c "".

(** Line and paragraph separators (bytes E2 80 A8 and E2 80 A9) are escaped as well. *)
Fixpoint marshal_chars (s : string) : string :=
  match s with
  | EmptyString => ""
  | String c rest =>
      match rest with
      | String c2 (String c3 rest3) =>
          if (byte_code c =? 226) && (byte_code c2 =? 128) &&
             ((byte_code c3 =? 168) || (byte_code c3 =? 169))
          then backslash +:+ "u202" +:+ hex_lower (byte_code c3 - 160) +:+ marshal_chars rest3
          else escape_byte c +:+ marshal_chars rest
      | _ => escape_byte c +:+ marshal_chars rest
      end
  end.
Definition marshal_string (s : string) : string := quoted (marshal_chars s).

Definition object_less (x y : string * string) : bool := String.ltb x.1 y.1.

(** [None]: a number of the value is out of [float64] range. *)
Fixpoint marshal (v : json) : option string :=
  match v with
  | JNull => Some "null"
  | JBool b => Some (if b then "true" else "false")
  | JNumber lit => format_float <$> parse_float lit
  | JString s => Some (marshal_string s)
  | JArray items =>
      (λ parts, "[" +:+ Join parts "," +:+ "]") <$>
      (fix all (vs : list json) : option (list string) :=
         match vs with [] => Some [] | v' :: vs' => x ← marshal v'; xs ← all vs'; Some (x :: xs) end) items
  | JObject members =>
      (λ m : gmap string string,
        "{" +:+ Join (map (λ kv, marshal_string kv.1 +:+ ":" +:+ kv.2)
                       (sort_slice object_less (map_to_list m))) "," +:+ "}") <$>
      (fix all (vs : list (string * json)) (acc : gmap string string) : option (gmap string string) :=
         match vs with
         | [] => Some acc
         | (k, v') :: vs' => x ← marshal v'; all vs' (<[k := x]> acc)
         end) members ∅
  end.

(** Decoding text into a [map[string]any] and marshalling it again: [None] is the nil map. *)
Definition canonical_object (s : string) : result (option string) :=
  v ← parse_json s;
  match v with
  | JNull => Ok None
  | JObject _ => match marshal v with Some text => Ok (Some text) | None => Err json_error end
  | _ => Err json_error
  end.

(** [s] with its single quotes turned into double quotes. *)
Definition requote (s : string) : string :=
  string_map (λ c, if byte_code c =? 39 then byte_of_code 34 else c) s.

Example canonical_ex :
  canonical_object (requote "{ 'b' : [1.50, 2e3, -0.0, 1e-7, 100000000000000000000000, 0.1, 123456.75],
    'a':{'x':null,'x':'<\u00e9\n>'} } ")
  = Ok (Some (requote "{'a':{'x':'\u003cé\n\u003e'},'b':[1.5,2000,-0,1e-7,1e+23,0.1,123456.75]}")).
Proof. vm_compute. reflexivity. Qed.
Example parse_json_multiple : parse_json "{} {}" = Err (Errorf "multiple JSON values are not allowed")
  ∧ parse_json "[1 2]" = Err json_error ∧ parse_json "01" = Err json_error.
Proof. vm_compute. done. Qed.
