(* ===== verification/JsonProps.v ===== *)
(** Decoding what was encoded: a string literal scans back to its characters, an integer to its
    digits. *)
From stdpp Require Import pretty.
From S2P Require Import Prelude GoLib Json.

Local Open Scope Z_scope.

Lemma byte_code_is c n : byte_code c = n → c = byte_of_code n.
Proof. intros <-. by rewrite byte_code_inj. Qed.

Lemma string_app_assoc (s t u : string) : (s +:+ t) +:+ u = s +:+ (t +:+ u).
Proof. induction s as [|c s IH]; [done|]. rewrite !string_app_cons. by f_equal. Qed.

Lemma scan_plain c t :
  ((byte_code c =? 34) || (byte_code c <? 32) || (byte_code c =? 92)) = false →
  scan_string (String c t) = prod_map (String c) id <$> scan_string t.
Proof. intros [[H1 H2]%orb_false_iff H3]%orb_false_iff. cbn [scan_string]. by rewrite H1, H2, H3. Qed.

Lemma scan_simple e r t :
  (byte_code e =? 117) = false → simple_escape e = Some r →
  scan_string (String (byte_of_code 92) (String e t)) = prod_map (String.append (utf8_encode r)) id <$> scan_string t.
Proof. intros He Hr. cbn [scan_string]. rewrite He, Hr. reflexivity. Qed.

Lemma scan_unicode a b c d r t :
  hex4 a b c d = Some r → (is_high_surrogate r || is_low_surrogate r) = false →
  scan_string (String (byte_of_code 92) (String (byte_of_code 117) (String a (String b (String c (String d t))))))
  = prod_map (String.append (utf8_encode r)) id <$> scan_string t.
Proof. intros Hr [H1 H2]%orb_false_iff. cbn [scan_string]. rewrite Hr, H1, H2. reflexivity. Qed.

(** An escaped byte scans back to the byte. *)
Lemma scan_escape_byte c t :
  scan_string (escape_byte c +:+ t) = prod_map (String c) id <$> scan_string t.
Proof.
  destruct c as [[] [] [] [] [] [] [] []];
    (lazymatch goal with |- scan_string (escape_byte ?c +:+ _) = _ =>
       let e := eval vm_compute in (escape_byte c) in change (escape_byte c) with e end);
    rewrite !string_app_cons; change ("" +:+ t) with t;
    first [apply scan_plain; vm_compute; reflexivity
          | etransitivity; [first [apply scan_simple; reflexivity | apply scan_unicode; reflexivity]|];
            destruct (scan_string t) as [[]|]; reflexivity].
Qed.

Lemma scan_separator c t :
  byte_code c = 168 ∨ byte_code c = 169 →
  scan_string ((backslash +:+ "u202" +:+ hex_lower (byte_code c - 160)) +:+ t)
  = prod_map (λ s, String (byte_of_code 226) (String (byte_of_code 128) (String c s))) id <$> scan_string t.
Proof.
  intros [->%byte_code_is | ->%byte_code_is]; (etransitivity; [apply scan_unicode; reflexivity|]);
    destruct (scan_string t) as [[]|]; reflexivity.
Qed.

Lemma scan_marshal_chars s t :
  scan_string (marshal_chars s +:+ t) = prod_map (String.append s) id <$> scan_string t.
Proof.
  remember (String.length s) as n eqn:Hn. assert (String.length s ≤ n)%nat as Hle by lia. clear Hn.
  revert s Hle. induction n as [|n IH]; intros [|c s] Hle; cbn [String.length] in Hle; try lia.
  1,2: change (marshal_chars "" +:+ t) with t; destruct (scan_string t) as [[]|]; reflexivity.
  assert (scan_string ((escape_byte c +:+ marshal_chars s) +:+ t) = prod_map (String.append (String c s)) id <$> scan_string t)
    as Hplain.
  { rewrite string_app_assoc, scan_escape_byte, IH by lia. by destruct (scan_string t) as [[]|]. }
  cbn [marshal_chars]. destruct s as [|c2 [|c3 s]]; [exact Hplain..|].
  destruct (_ && _) eqn:Hsep; [|exact Hplain]. clear Hplain.
  apply andb_true_iff in Hsep as [Hsep H3]. apply andb_true_iff in Hsep as [H1 H2].
  apply Z.eqb_eq in H1, H2. apply byte_code_is in H1 as ->, H2 as ->.
  transitivity (scan_string ((backslash +:+ "u202" +:+ hex_lower (byte_code c3 - 160)) +:+ (marshal_chars s +:+ t)));
    [by rewrite !string_app_assoc|].
  rewrite scan_separator, IH; [by destruct (scan_string t) as [[]|] | cbn in Hle; lia |].
  apply orb_true_iff in H3 as [H3|H3]; apply Z.eqb_eq in H3; auto.
Qed.

Lemma string_app_nil_r (s : string) : s +:+ "" = s.
Proof. induction s as [|c s IH]; [done|]. rewrite string_app_cons. by f_equal. Qed.

(** A quoted literal, after its opening quote. *)
Lemma scan_marshal_string s t : scan_string (marshal_chars s +:+ quote +:+ t) = Some (s, t).
Proof.
  rewrite scan_marshal_chars. change (Some (s +:+ "", t) = Some (s, t)). by rewrite string_app_nil_r.
Qed.

(** * Integers *)

(** What may follow a value: the end of the text, a comma or a closing bracket. *)
Definition delimited (s : string) : bool :=
  match s with
  | EmptyString => true
  | String c _ => (byte_code c =? 44) || (byte_code c =? 93) || (byte_code c =? 125)
  end.
Definition all_digits (s : string) : bool := forallb is_digit (String.list_ascii_of_string s).

Lemma all_digits_app s t : all_digits (s +:+ t) = all_digits s && all_digits t.
Proof.
  unfold all_digits. induction s as [|c s IH]; [done|]. rewrite string_app_cons.
  cbn [String.list_ascii_of_string forallb]. by rewrite IH, andb_assoc.
Qed.

Lemma scan_digits_app ds rest :
  all_digits ds = true → delimited rest = true → scan_digits (ds +:+ rest) = (ds, rest).
Proof.
  intros Hds Hrest. induction ds as [|c ds IH].
  - destruct rest as [|c rest]; [done|]. change ("" +:+ String c rest) with (String c rest).
    cbn [scan_digits delimited] in *. destruct (is_digit c) eqn:Hc; [|done]. unfold is_digit in Hc. lia.
  - cbn in Hds. apply andb_true_iff in Hds as [Hc Hds]. rewrite string_app_cons. cbn [scan_digits].
    rewrite Hc, IH by done. reflexivity.
Qed.

Lemma digit_char_spec x : (x < 10)%N → byte_code (pretty_N_char x) = Z.of_N x + 48.
Proof.
  intros Hx. assert (x ∈ [0; 1; 2; 3; 4; 5; 6; 7; 8; 9]%N) as Hin by (set_unfold; lia). clear Hx.
  repeat (apply elem_of_cons in Hin as [->|Hin]; [reflexivity|]). by apply elem_of_nil in Hin.
Qed.

Lemma pretty_N_go_digits x s :
  ∃ ds, pretty_N_go x s = ds +:+ s ∧ all_digits ds = true ∧ (x = 0%N → ds = "") ∧
    ((0 < x)%N → ∃ c ds', ds = String c ds' ∧ is_digit c = true ∧ byte_code c ≠ 48).
Proof.
  revert s. induction (N.lt_wf_0 x) as [x _ IH]; intros s.
  destruct (base.decide (x = 0)%N) as [->|Hx]; [exists ""; by split_and!|].
  rewrite pretty_N_go_step by lia.
  destruct (IH (x / 10)%N ltac:(apply N.div_lt; lia) (String (pretty_N_char (x mod 10)) s)) as (ds & -> & Hds & H0 & Hpos).
  pose proof (digit_char_spec (x mod 10) ltac:(apply N.mod_lt; lia)) as Hc.
  assert (is_digit (pretty_N_char (x mod 10)) = true) as Hd.
  { unfold is_digit. rewrite Hc. pose proof (N.mod_lt x 10 ltac:(lia)). clear - H. apply andb_true_iff. generalize dependent (x mod 10)%N. intros r Hr. split; apply Z.leb_le; lia. }
  exists (ds +:+ String (pretty_N_char (x mod 10)) ""). split_and!; [by rewrite string_app_assoc | | done |].
  - by rewrite all_digits_app, Hds; cbn; rewrite Hd.
  - intros _. destruct (base.decide (x / 10 = 0)%N) as [Hq|Hq].
    + rewrite (H0 Hq). eexists _, _. split_and!; [done | done |]. rewrite Hc.
      pose proof (N.div_mod x 10 ltac:(lia)) as Hm. rewrite Hq in Hm. revert Hm. generalize (x mod 10)%N. lia.
    + destruct (Hpos (proj1 (N.neq_0_lt_0 _) Hq)) as (c & ds' & -> & ? & ?). rewrite string_app_cons. by eexists _, _.
Qed.

(** The digits of an integer: "0", or a first digit that is not. *)
Lemma Itoa_digits z :
  ∃ neg ds, Itoa z = (if neg : bool then "-" else "") +:+ ds ∧ all_digits ds = true ∧
    (ds = "0" ∨ ∃ c ds', ds = String c ds' ∧ is_digit c = true ∧ byte_code c ≠ 48).
Proof.
  assert (∀ p, ∃ ds, pretty (Npos p) = ds ∧ all_digits ds = true ∧
    (ds = "0" ∨ ∃ c ds', ds = String c ds' ∧ is_digit c = true ∧ byte_code c ≠ 48)) as Hpos.
  { intros p. unfold pretty, pretty_N. destruct (base.decide _); [done|].
    destruct (pretty_N_go_digits (Npos p) "") as (ds & -> & Hds & _ & Hp). rewrite string_app_nil_r.
    exists ds. split_and!; [done..|]. right. by apply Hp. }
  destruct z as [|p|p].
  - exists false, "0". split_and!; [done..|]. by left.
  - destruct (Hpos p) as (ds & Hds & Hrest). exists false, ds. split; [exact Hds | exact Hrest].
  - destruct (Hpos p) as (ds & Hds & Hrest). exists true, ds. split; [|exact Hrest].
    change (Itoa (Zneg p)) with ("-" +:+ pretty (Npos p)). by rewrite Hds.
Qed.

Lemma delimited_take n rest :
  delimited rest = true → n ≠ 44 → n ≠ 93 → n ≠ 125 → take_byte n rest = None.
Proof.
  intros Hd H1 H2 H3. destruct rest as [|c rest]; [done|]. cbn [delimited take_byte] in *.
  destruct (Z.eqb_spec (byte_code c) n); [|done]. lia.
Qed.

Lemma scan_exponent_delimited rest : delimited rest = true → scan_exponent rest = Some ("", rest).
Proof.
  intros Hd. destruct rest as [|c rest]; [done|]. cbn [delimited scan_exponent] in *.
  destruct (Z.eqb_spec (byte_code c) 101); [lia|]. destruct (Z.eqb_spec (byte_code c) 69); [lia|]. done.
Qed.

Lemma take_byte_app n c s t : byte_code c ≠ n → take_byte n (String c s +:+ t) = None.
Proof. intros Hc. rewrite string_app_cons. cbn [take_byte]. by destruct (Z.eqb_spec (byte_code c) n). Qed.

Lemma scan_number_Itoa z rest : delimited rest = true → scan_number (Itoa z +:+ rest) = Some (Itoa z, rest).
Proof.
  intros Hd. destruct (Itoa_digits z) as (neg & ds & -> & Hds & Hfirst).
  assert (∀ s1, s1 = ds +:+ rest → (match take_byte 48 s1 with Some r => Some ("0", r)
    | None => let '(ds, r) := scan_digits s1 in if ds == "" then None else Some (ds, r) end) = Some (ds, rest)) as Hint.
  { intros s1 ->. destruct Hfirst as [->|(c & ds' & -> & Hc & Hne)]; [done|].
    rewrite take_byte_app by done. by rewrite scan_digits_app. }
  assert (take_byte 45 (ds +:+ rest) = None) as Hsign.
  { destruct Hfirst as [->|(c & ds' & -> & Hc & Hne)]; [done|]. apply take_byte_app. unfold is_digit in Hc. lia. }
  unfold scan_number. destruct neg.
  - change (("-" +:+ ds) +:+ rest) with (String (byte_of_code 45) (ds +:+ rest)). cbn [take_byte].
    change (byte_code (byte_of_code 45) =? 45) with true. cbn iota beta. rewrite (Hint _ eq_refl). cbn [mbind option_bind].
    unfold scan_fraction. rewrite delimited_take by done. cbn. rewrite scan_exponent_delimited by done. cbn.
    by rewrite !string_app_nil_r.
  - change (("" +:+ ds) +:+ rest) with (ds +:+ rest). rewrite Hsign. cbn iota beta. rewrite (Hint _ eq_refl).
    cbn [mbind option_bind]. unfold scan_fraction. rewrite delimited_take by done. cbn.
    rewrite scan_exponent_delimited by done. cbn. by rewrite !string_app_nil_r.
Qed.
