(* ===== verification/Base64.v ===== *)
(** [encoding/base64]'s [RawURLEncoding]: the URL-safe alphabet without padding. As in Go, decoding skips
    line breaks and ignores the unused bits of the last character. *)
From S2P Require Import Prelude GoLib.

Local Open Scope Z_scope.

(** [A]-[Z], [a]-[z], [0]-[9], [-], [_]. *)
Definition base64_char (n : Z) : Ascii.ascii :=
  byte_of_code (if n <? 26 then 65 + n else if n <? 52 then 71 + n else if n <? 62 then n - 4
                else if n =? 62 then 45 else 95).

Definition base64_value (c : Ascii.ascii) : option Z :=
  let n := byte_code c in
  if (65 <=? n) && (n <=? 90) then Some (n - 65)
  else if (97 <=? n) && (n <=? 122) then Some (n - 71)
  else if (48 <=? n) && (n <=? 57) then Some (n + 4)
  else if n =? 45 then Some 62
  else if n =? 95 then Some 63
  else None.

Fixpoint EncodeToString (s : string) : string :=
  match s with
  | String a (String b (String c rest)) =>
      let '(a, b, c) := (byte_code a, byte_code b, byte_code c) in
      String (base64_char (a / 4)) (String (base64_char (a mod 4 * 16 + b / 16))
        (String (base64_char (b mod 16 * 4 + c / 64)) (String (base64_char (c mod 64)) (EncodeToString rest))))
  | String a (String b EmptyString) =>
      let '(a, b) := (byte_code a, byte_code b) in
      String (base64_char (a / 4)) (String (base64_char (a mod 4 * 16 + b / 16))
        (String (base64_char (b mod 16 * 4)) ""))
  | String a EmptyString =>
      let a := byte_code a in
      String (base64_char (a / 4)) (String (base64_char (a mod 4 * 16)) "")
  | EmptyString => ""
  end.

Fixpoint decode_groups (s : string) : option string :=
  match s with
  | EmptyString => Some ""
  | String _ EmptyString => None
  | String a (String b EmptyString) =>
      a ← base64_value a; b ← base64_value b;
      Some (String (byte_of_code (a * 4 + b / 16)) "")
  | String a (String b (String c EmptyString)) =>
      a ← base64_value a; b ← base64_value b; c ← base64_value c;
      Some (String (byte_of_code (a * 4 + b / 16)) (String (byte_of_code (b mod 16 * 16 + c / 4)) ""))
  | String a (String b (String c (String d rest))) =>
      a ← base64_value a; b ← base64_value b; c ← base64_value c; d ← base64_value d;
      tail ← decode_groups rest;
      Some (String (byte_of_code (a * 4 + b / 16)) (String (byte_of_code (b mod 16 * 16 + c / 4))
        (String (byte_of_code (c mod 4 * 64 + d)) tail)))
  end.

Fixpoint without_breaks (s : string) : string :=
  match s with
  | EmptyString => ""
  | String c rest =>
      if (byte_code c =? 10) || (byte_code c =? 13) then without_breaks rest else String c (without_breaks rest)
  end.

Definition DecodeString (s : string) : option string := decode_groups (without_breaks s).

Definition base64_char_ok (n : Z) : bool :=
  bool_decide (base64_value (base64_char n) = Some n) &&
  negb (byte_code (base64_char n) =? 10) && negb (byte_code (base64_char n) =? 13).
Lemma base64_chars_ok : forallb base64_char_ok (map Z.of_nat (seq 0 64)) = true.
Proof. vm_compute. reflexivity. Qed.

Lemma base64_char_spec n : 0 ≤ n < 64 →
  base64_value (base64_char n) = Some n ∧ (byte_code (base64_char n) =? 10) = false ∧
  (byte_code (base64_char n) =? 13) = false.
Proof.
  intros Hn. pose proof (proj1 (forallb_forall _ _) base64_chars_ok n) as Hok.
  rewrite in_map_iff in Hok. specialize (Hok ltac:(exists (Z.to_nat n); rewrite in_seq; lia)).
  apply andb_true_iff in Hok as [[Hv H10]%andb_true_iff H13]. apply bool_decide_eq_true in Hv.
  by apply negb_true_iff in H10, H13.
Qed.

Lemma without_breaks_char n s : 0 ≤ n < 64 →
  without_breaks (String (base64_char n) s) = String (base64_char n) (without_breaks s).
Proof. intros (_ & H10 & H13)%base64_char_spec. cbn [without_breaks]. by rewrite H10, H13. Qed.

Lemma base64_value_char n : 0 ≤ n < 64 → base64_value (base64_char n) = Some n.
Proof. by intros []%base64_char_spec. Qed.

(** ** The bits of three bytes, in groups of six *)

Section Bits.
Variables a b c : Z.
Hypotheses (Ha : 0 ≤ a < 256) (Hb : 0 ≤ b < 256) (Hc : 0 ≤ c < 256).

Lemma split_div x y n : 0 ≤ y < n → (x * n + y) / n = x.
Proof. intros Hy. rewrite Z.div_add_l, (Z.div_small y) by lia. lia. Qed.
Lemma split_mod x y n : 0 ≤ y < n → (x * n + y) mod n = y.
Proof. intros Hy. rewrite Z.add_comm, Z.mod_add, Z.mod_small; lia. Qed.

Lemma sextet1 : 0 ≤ a / 4 < 64.
Proof. split; [apply Z.div_pos; lia | apply Z.div_lt_upper_bound; lia]. Qed.
Lemma high_b : 0 ≤ b / 16 < 16.
Proof. split; [apply Z.div_pos; lia | apply Z.div_lt_upper_bound; lia]. Qed.
Lemma high_c : 0 ≤ c / 64 < 4.
Proof. split; [apply Z.div_pos; lia | apply Z.div_lt_upper_bound; lia]. Qed.
Lemma sextet2 : 0 ≤ a mod 4 * 16 + b / 16 < 64.
Proof. pose proof (Z.mod_pos_bound a 4). pose proof high_b. lia. Qed.
Lemma sextet3 : 0 ≤ b mod 16 * 4 + c / 64 < 64.
Proof. pose proof (Z.mod_pos_bound b 16). pose proof high_c. lia. Qed.
Lemma sextet4 : 0 ≤ c mod 64 < 64.
Proof. by apply Z.mod_pos_bound. Qed.

Lemma octet1 : a / 4 * 4 + (a mod 4 * 16 + b / 16) / 16 = a.
Proof. rewrite split_div by apply high_b. pose proof (Z.div_mod a 4). lia. Qed.
Lemma octet2 : (a mod 4 * 16 + b / 16) mod 16 * 16 + (b mod 16 * 4 + c / 64) / 4 = b.
Proof. rewrite split_mod, split_div by (apply high_b || apply high_c). pose proof (Z.div_mod b 16). lia. Qed.
Lemma octet3 : (b mod 16 * 4 + c / 64) mod 4 * 64 + c mod 64 = c.
Proof. rewrite split_mod by apply high_c. pose proof (Z.div_mod c 64). lia. Qed.
End Bits.

(** What was encoded decodes to itself. *)
Lemma DecodeString_EncodeToString s : DecodeString (EncodeToString s) = Some s.
Proof.
  unfold DecodeString. remember (String.length s) as n eqn:Hn. revert s Hn.
  induction (lt_wf n) as [n _ IH]. intros s ->.
  destruct s as [|a [|b [|c rest]]]; [done| | |]; cbn [EncodeToString]; pose proof (byte_code_range a) as Ha;
    try pose proof (byte_code_range b) as Hb; try pose proof (byte_code_range c) as Hc.
  - pose proof (sextet1 _ Ha). pose proof (sextet2 (byte_code a) 0 ltac:(lia)) as H2.
    pose proof (octet1 (byte_code a) 0 ltac:(lia)) as O1. change (0 / 16) with 0 in H2, O1.
    rewrite Z.add_0_r in H2, O1. rewrite !without_breaks_char by done. cbn [without_breaks decode_groups].
    rewrite !base64_value_char by done. cbn [mbind option_bind]. by rewrite O1, byte_code_inj.
  - pose proof (sextet1 _ Ha). pose proof (sextet2 (byte_code a) _ Hb).
    pose proof (sextet3 (byte_code b) 0 ltac:(lia)) as H3. pose proof (octet1 (byte_code a) _ Hb) as O1.
    pose proof (octet2 (byte_code a) (byte_code b) 0 Hb ltac:(lia)) as O2.
    change (0 / 64) with 0 in H3, O2. rewrite Z.add_0_r in H3, O2. rewrite !without_breaks_char by done.
    cbn [without_breaks decode_groups]. rewrite !base64_value_char by done. cbn [mbind option_bind].
    by rewrite O1, O2, !byte_code_inj.
  - pose proof (sextet1 _ Ha). pose proof (sextet2 (byte_code a) _ Hb). pose proof (sextet3 (byte_code b) _ Hc).
    pose proof (sextet4 (byte_code c)). rewrite !without_breaks_char by done. cbn [decode_groups].
    rewrite !base64_value_char by done. cbn [mbind option_bind].
    rewrite (IH (String.length rest)); [|cbn; lia | done]. cbn [mbind option_bind].
    by rewrite octet1, octet2, octet3, !byte_code_inj.
Qed.
