(* ===== verification/ActionCatalog.v ===== *)
(** The remediation action catalog, [pkg/actioncatalog/catalog.go]: the fixed table of actions the
    control plane and the operator share, and the validation of a proposed action against it. *)
From S2P Require Import Prelude GoLib Sha256 Json.

Local Open Scope Z_scope.

Definition Version : string := "v1".
Definition RiskA : string := "A".
Definition RiskB : string := "B".
Definition RiskC : string := "C".
Definition RiskD : string := "D".
Definition ModeDirect : string := "direct".
Definition ModeGitOps : string := "gitops_proposal".
Definition ModeProposal : string := "proposal_only".
Definition ModeInformation : string := "informational".
Definition ManagedResourceChangeAction : string := "propose_managed_resource_change".
Definition ManagedResourceReviewAction : string := "review_managed_resource_finding".
Definition ManagedResourceJSONPatch : string := "application/json-patch+json".

Record ResourceKind := mkResourceKind { kind_APIVersion : string; kind_Kind : string }.

(** [actioncatalog.Action]: the request to validate. *)
Record CatalogAction := mkCatalogAction {
  req_Type : string;
  req_APIVersion : string;
  req_Kind : string;
  req_Params : gmap string string
}.

Record ActionDefinition := mkActionDefinition {
  def_Type : string;
  def_SupportedResources : list ResourceKind;
  def_RiskTier : string;
  def_RequiredPermissions : list string;
  def_ApprovalRequired : bool;
  def_DryRunBehavior : string;
  def_DiffStrategy : string;
  def_VerificationChecks : list string;
  def_RollbackProcedure : list string;
  def_IdempotencyBehavior : string;
  def_FailureHandling : string;
  def_DefaultExecutionMode : string;
  def_RequiredParameters : list string;
  def_AllowedParameters : list string;
  def_StrictParameters : bool
}.
#[export] Instance eta_ActionDefinition : Eta ActionDefinition := λ r, mkActionDefinition (def_Type r)
    (def_SupportedResources r) (def_RiskTier r) (def_RequiredPermissions r) (def_ApprovalRequired r)
    (def_DryRunBehavior r) (def_DiffStrategy r) (def_VerificationChecks r) (def_RollbackProcedure r)
    (def_IdempotencyBehavior r) (def_FailureHandling r) (def_DefaultExecutionMode r)
    (def_RequiredParameters r) (def_AllowedParameters r) (def_StrictParameters r).
Definition zero_ActionDefinition : ActionDefinition :=
  mkActionDefinition "" [] "" [] false "" "" [] [] "" "" "" [] [] false.

(** * The table *)

Definition workloadKinds : list ResourceKind :=
  [mkResourceKind "apps/v1" "Deployment"; mkResourceKind "apps/v1" "StatefulSet";
   mkResourceKind "apps/v1" "DaemonSet"].

Definition proposal (actionType risk detail : string) : ActionDefinition :=
  zero_ActionDefinition
    <| def_Type := actionType |>
    <| def_SupportedResources := [mkResourceKind "*" "*"] |>
    <| def_RiskTier := risk |>
    <| def_ApprovalRequired := true |>
    <| def_DryRunBehavior := "No cluster write is attempted." |>
    <| def_DiffStrategy := detail |>
    <| def_VerificationChecks := ["Review generated artifacts against current cluster state"] |>
    <| def_RollbackProcedure := ["Not applicable until a separately reviewed system applies the proposal"] |>
    <| def_IdempotencyBehavior := "Repeated proposals reuse the request idempotency key." |>
    <| def_FailureHandling := "Keep the action proposal-only and report the generation error." |>
    <| def_DefaultExecutionMode := ModeGitOps |>.

Definition def_of_apply_resource_governance : ActionDefinition :=
  zero_ActionDefinition
    <| def_Type := "apply_resource_governance" |>
    <| def_SupportedResources := [mkResourceKind "v1" "Namespace"] |>
    <| def_RiskTier := RiskA |>
    <| def_RequiredPermissions := ["get/list/create/update ResourceQuota"; "get/list/create/update LimitRange"] |>
    <| def_DryRunBehavior := "Server-side dry-run every create or update before mutation." |>
    <| def_DiffStrategy := "Render exact ResourceQuota and LimitRange objects from the selected governance profile." |>
    <| def_VerificationChecks := [
      "Read both objects back";
      "Compare hard limits and container defaults";
      "Re-run namespace governance scan"] |>
    <| def_RollbackProcedure := [
      "Restore pre-change objects";
      "Delete only objects created by the run";
      "Re-run namespace governance scan"] |>
    <| def_IdempotencyBehavior := "Use fixed managed object names and converge specs with optimistic concurrency." |>
    <| def_FailureHandling := "Stop before the second write if dry-run fails; on partial application, restore the captured snapshot." |>
    <| def_DefaultExecutionMode := ModeDirect |>.

Definition def_of_patch_pod_security_labels : ActionDefinition :=
  zero_ActionDefinition
    <| def_Type := "patch_pod_security_labels" |>
    <| def_SupportedResources := [mkResourceKind "v1" "Namespace"] |>
    <| def_RiskTier := RiskB |>
    <| def_RequiredPermissions := ["get/patch Namespace metadata"] |>
    <| def_ApprovalRequired := true |>
    <| def_DryRunBehavior := "Server-side dry-run an optimistic metadata patch and reject system namespaces." |>
    <| def_DiffStrategy := "Show the exact previous and proposed Pod Security label maps." |>
    <| def_VerificationChecks := ["Read namespace labels back"; "Re-scan namespace Pod Security posture"] |>
    <| def_RollbackProcedure := ["Restore the exact prior values or absence of each managed label"] |>
    <| def_IdempotencyBehavior := "Patch only the three managed label keys using the observed resourceVersion." |>
    <| def_FailureHandling := "Do not retry conflicts blindly; re-read and regenerate the diff." |>
    <| def_DefaultExecutionMode := ModeDirect |>.

Definition def_of_patch_workload_resources : ActionDefinition :=
  zero_ActionDefinition
    <| def_Type := "patch_workload_resources" |>
    <| def_SupportedResources := workloadKinds |>
    <| def_RiskTier := RiskB |>
    <| def_RequiredPermissions := ["get/patch target workload"] |>
    <| def_ApprovalRequired := true |>
    <| def_DryRunBehavior := "Server-side dry-run an exact strategic merge patch for named containers." |>
    <| def_DiffStrategy := "Show each named container's previous and proposed CPU/memory requests and limits." |>
    <| def_VerificationChecks := [
      "Read workload template back";
      "Wait for rollout availability";
      "Re-run resource posture scan"] |>
    <| def_RollbackProcedure := ["Restore the exact workload template resource fields from the pre-change snapshot"] |>
    <| def_IdempotencyBehavior := "Do not overwrite existing resources unless the plan explicitly includes their observed values." |>
    <| def_FailureHandling := "Stop on rollout regression and make the snapshot eligible for rollback." |>
    <| def_DefaultExecutionMode := ModeDirect |>
    <| def_RequiredParameters := ["cpuRequest"; "memoryRequest"; "cpuLimit"; "memoryLimit"] |>.

Definition def_of_create_pdb : ActionDefinition :=
  zero_ActionDefinition
    <| def_Type := "create_pdb" |>
    <| def_SupportedResources := [mkResourceKind "apps/v1" "Deployment"; mkResourceKind "apps/v1" "StatefulSet"] |>
    <| def_RiskTier := RiskB |>
    <| def_RequiredPermissions := ["get target workload"; "get/list/create/update PodDisruptionBudget"] |>
    <| def_ApprovalRequired := true |>
    <| def_DryRunBehavior := "Resolve the workload selector, reject empty selectors, then server-side dry-run the exact PDB." |>
    <| def_DiffStrategy := "Show the resolved non-empty matchLabels selector and availability threshold." |>
    <| def_VerificationChecks := [
      "Read PDB back";
      "Confirm expectedPods and disruptionAllowed conditions become observable"] |>
    <| def_RollbackProcedure := ["Restore a prior same-name PDB or delete only the PDB created by the run"] |>
    <| def_IdempotencyBehavior := "Use a deterministic managed name and refuse ownership collisions." |>
    <| def_FailureHandling := "Never create a PDB with an empty selector; leave the action failed with no mutation." |>
    <| def_DefaultExecutionMode := ModeDirect |>
    <| def_RequiredParameters := ["minAvailable"] |>.

Definition def_of_patch_workload_probes : ActionDefinition :=
  zero_ActionDefinition
    <| def_Type := "patch_workload_probes" |>
    <| def_SupportedResources := workloadKinds |>
    <| def_RiskTier := RiskB |>
    <| def_RequiredPermissions := ["get/patch target workload"] |>
    <| def_ApprovalRequired := true |>
    <| def_DryRunBehavior := "Only dry-run when named containers, ports, paths, timings, and failure thresholds are explicitly configured." |>
    <| def_DiffStrategy := "Show complete prior and proposed probe objects for every named container." |>
    <| def_VerificationChecks := [
      "Read workload template back";
      "Wait for rollout availability";
      "Observe readiness without restart regression"] |>
    <| def_RollbackProcedure := ["Restore exact prior readiness, liveness, and startup probe objects"] |>
    <| def_IdempotencyBehavior := "Patch only explicitly named containers and compare the observed template before writing." |>
    <| def_FailureHandling := "Missing configuration is proposal-only; rollout or health regression makes the snapshot eligible for rollback." |>
    <| def_DefaultExecutionMode := ModeDirect |>
    <| def_RequiredParameters := ["configured"; "container"; "port"; "readinessPath"; "livenessPath"] |>.

Definition def_of_propose_network_policy : ActionDefinition :=
  proposal "propose_network_policy" RiskC "Generate reviewable NetworkPolicy manifests; no executor is registered.".

Definition def_of_propose_security_hardening : ActionDefinition :=
  proposal "propose_security_hardening" RiskC "Generate RBAC, image, admission, or network review artifacts; no executor is registered.".

Definition def_of_review_managed_resource_finding : ActionDefinition :=
  zero_ActionDefinition
    <| def_Type := ManagedResourceReviewAction |>
    <| def_SupportedResources := [mkResourceKind "*" "*"] |>
    <| def_RiskTier := RiskC |>
    <| def_RequiredPermissions := [
      "list the allowlisted Kubernetes-managed resource API group";
      "no Kubernetes or external-provider mutation permission"] |>
    <| def_ApprovalRequired := true |>
    <| def_DryRunBehavior := "Validate the finding, target, management system, and declared source of truth without producing or applying a patch." |>
    <| def_DiffStrategy := "Show the cited flaw and source-of-truth review instruction; an exact change requires a separate trusted proposal artifact." |>
    <| def_VerificationChecks := [
      "A reviewer confirms the controller or GitOps source of truth";
      "The source owner records a disposition or supplies a separately validated exact proposal"] |>
    <| def_RollbackProcedure := [
      "Not applicable because this review action cannot mutate Kubernetes or an external provider"] |>
    <| def_IdempotencyBehavior := "Reuse the finding identity and evidence fingerprint; a recreated Kubernetes object receives a new UID-derived finding identity." |>
    <| def_FailureHandling := "Remain proposal-only and notify the source owner; never infer an IAM or provider change from incomplete evidence." |>
    <| def_DefaultExecutionMode := ModeProposal |>
    <| def_RequiredParameters := ["findingId"; "managementSystem"; "sourceOfTruth"] |>
    <| def_AllowedParameters := ["findingId"; "managementSystem"; "sourceOfTruth"] |>
    <| def_StrictParameters := true |>.

Definition def_of_propose_managed_resource_change : ActionDefinition :=
  zero_ActionDefinition
    <| def_Type := ManagedResourceChangeAction |>
    <| def_SupportedResources := [mkResourceKind "*" "*"] |>
    <| def_RiskTier := RiskC |>
    <| def_RequiredPermissions := [
      "list the allowlisted Kubernetes-managed resource API group";
      "no mutation permission; applying the proposal requires a separately approved source-owner workflow"] |>
    <| def_ApprovalRequired := true |>
    <| def_DryRunBehavior := "Validate the source identity, resourceVersion, generation, RFC 6902 spec patch, exact before/after diff metadata, and rollback spec without writing to Kubernetes or the external provider." |>
    <| def_DiffStrategy := "Show the exact RFC 6902 patch against the owning Kubernetes resource spec and a unified before/after diff bound to SHA-256 spec hashes." |>
    <| def_VerificationChecks := [
      "Confirm status.observedGeneration equals metadata.generation on the owning Kubernetes source";
      "Confirm Ready=True and Synced=True conditions for the current generation";
      "Re-run the originating policy and relationship checks against the reconciled external resource"] |>
    <| def_RollbackProcedure := [
      "Restore rollbackSourceSpec through the owning Kubernetes source after a separate approval";
      "Wait for status.observedGeneration to match metadata.generation and for Ready=True and Synced=True";
      "Re-run the originating policy and relationship checks after reconciliation"] |>
    <| def_IdempotencyBehavior := "Bind the proposal to sourceUID, sourceResourceVersion, sourceGeneration, and spec hashes; regenerate instead of applying when any value is stale." |>
    <| def_FailureHandling := "Remain proposal-only; never report success or mutate either Kubernetes or the external provider unless the source-owner workflow applies the reviewed patch and every verification check passes." |>
    <| def_DefaultExecutionMode := ModeProposal |>
    <| def_RequiredParameters := [
      "managementController";
      "sourceName";
      "sourceUID";
      "sourceResourceVersion";
      "sourceGeneration";
      "externalResourceID";
      "patchType";
      "patch";
      "diff";
      "rollbackSourceSpec"] |>
    <| def_AllowedParameters := [
      "managementController";
      "sourceName";
      "sourceNamespace";
      "sourceUID";
      "sourceResourceVersion";
      "sourceGeneration";
      "externalResourceID";
      "patchType";
      "patch";
      "diff";
      "rollbackSourceSpec"] |>
    <| def_StrictParameters := true |>.

Definition def_of_explain_only : ActionDefinition :=
  zero_ActionDefinition
    <| def_Type := "explain_only" |>
    <| def_SupportedResources := [mkResourceKind "*" "*"] |>
    <| def_RiskTier := RiskD |>
    <| def_ApprovalRequired := true |>
    <| def_DryRunBehavior := "No write is possible." |>
    <| def_DiffStrategy := "Evidence and recommendation only." |>
    <| def_VerificationChecks := ["Human triage records a disposition"] |>
    <| def_RollbackProcedure := ["Not applicable"] |>
    <| def_IdempotencyBehavior := "Repeated proposals reuse the request idempotency key." |>
    <| def_FailureHandling := "Remain informational." |>
    <| def_DefaultExecutionMode := ModeInformation |>.

Definition catalog_entries : list (string * ActionDefinition) := [
    ("apply_resource_governance", def_of_apply_resource_governance);
    ("patch_pod_security_labels", def_of_patch_pod_security_labels);
    ("patch_workload_resources", def_of_patch_workload_resources);
    ("create_pdb", def_of_create_pdb);
    ("patch_workload_probes", def_of_patch_workload_probes);
    ("propose_network_policy", def_of_propose_network_policy);
    ("propose_security_hardening", def_of_propose_security_hardening);
    (ManagedResourceReviewAction, def_of_review_managed_resource_finding);
    (ManagedResourceChangeAction, def_of_propose_managed_resource_change);
    ("explain_only", def_of_explain_only)].
Definition definitions : gmap string ActionDefinition := list_to_map catalog_entries.

(** * Lookup and validation *)

Definition Lookup (actionType : string) : option ActionDefinition := definitions !! actionType.

Definition type_less (x y : ActionDefinition) : bool := String.ltb (def_Type x) (def_Type y).

Definition All `{RangeOrder} : list ActionDefinition := sort_slice type_less (range definitions).*2.

Definition supports (definition : ActionDefinition) (apiVersion kind : string) : bool :=
  existsb (λ r, ((kind_APIVersion r == "*") || (kind_APIVersion r == apiVersion)) &&
                ((kind_Kind r == "*") || (kind_Kind r == kind)))
    (def_SupportedResources definition).

(** [action.Params[name]]: the empty string when absent. *)
Definition param (action : CatalogAction) (name : string) : string :=
  default "" (req_Params action !! name).

Definition asciiAlphaNumeric (value : Ascii.ascii) : bool :=
  let n := byte_code value in ((97 <=? n) && (n <=? 122)) || ((48 <=? n) && (n <=? 57)).

(** [label[0]], [label[len-1]] and the bytes between them. *)
Definition valid_label (label : string) : bool :=
  let bytes := String.list_ascii_of_string label in
  let inner := removelast (tl bytes) in
  (label != "") && (len label <=? 63) &&
  (match head bytes with Some c => asciiAlphaNumeric c | None => false end) &&
  (match last bytes with Some c => asciiAlphaNumeric c | None => false end) &&
  forallb (λ c, asciiAlphaNumeric c || (byte_code c =? 45)) inner.

Definition validDNSName (value : string) : bool :=
  if (value == "") || (253 <? len value) || (value != ToLower value) then false
  else forallb valid_label (split_on (byte_of_code 46) value).

Definition validSHA256 (value : string) : bool := decodes_to_bytes value 32.

(** [managedResourcePatchOperation]; a [json.RawMessage] is empty exactly when the member is absent. *)
Record managedResourcePatchOperation := mkPatchOperation {
  patch_Operation : string;
  patch_Path : string;
  patch_Value : option json
}.
#[export] Instance eta_managedResourcePatchOperation : Eta managedResourcePatchOperation := λ r,
  mkPatchOperation (patch_Operation r) (patch_Path r) (patch_Value r).

Record managedResourceDiff := mkManagedResourceDiff {
  mdiff_Format : string;
  mdiff_BeforeSpecHash : string;
  mdiff_AfterSpecHash : string;
  mdiff_Content : string
}.
#[export] Instance eta_managedResourceDiff : Eta managedResourceDiff := λ r,
  mkManagedResourceDiff (mdiff_Format r) (mdiff_BeforeSpecHash r) (mdiff_AfterSpecHash r)
    (mdiff_Content r).

(** [decodeStrictJSON] into the three targets of [validateManagedResourceChange]. *)
Definition set_patch_field (name : string) (v : json) (o : managedResourcePatchOperation) :
    result managedResourcePatchOperation :=
  if EqualFold name "op" then s ← decode_string (patch_Operation o) v; Ok (o <| patch_Operation := s |>)
  else if EqualFold name "path" then s ← decode_string (patch_Path o) v; Ok (o <| patch_Path := s |>)
  else if EqualFold name "value" then Ok (o <| patch_Value := Some v |>)
  else Err json_error.

Definition decode_patch (s : string) : result (list managedResourcePatchOperation) :=
  v ← parse_json s;
  match v with
  | JNull => Ok []
  | JArray items => decode_all (decode_struct set_patch_field (mkPatchOperation "" "" None)) items
  | _ => Err json_error
  end.

Definition set_diff_field (name : string) (v : json) (d : managedResourceDiff) :
    result managedResourceDiff :=
  if EqualFold name "format" then s ← decode_string (mdiff_Format d) v; Ok (d <| mdiff_Format := s |>)
  else if EqualFold name "beforeSpecHash" then
    s ← decode_string (mdiff_BeforeSpecHash d) v; Ok (d <| mdiff_BeforeSpecHash := s |>)
  else if EqualFold name "afterSpecHash" then
    s ← decode_string (mdiff_AfterSpecHash d) v; Ok (d <| mdiff_AfterSpecHash := s |>)
  else if EqualFold name "content" then
    s ← decode_string (mdiff_Content d) v; Ok (d <| mdiff_Content := s |>)
  else Err json_error.

Definition decode_diff (s : string) : result managedResourceDiff :=
  v ← parse_json s;
  decode_struct set_diff_field (mkManagedResourceDiff "" "" "" "") v.

(** The loop over the patch operations; the result is [mutating]. *)
Fixpoint validate_operations (type : string) (index : Z) (mutating : bool)
    (operations : list managedResourcePatchOperation) : result bool :=
  match operations with
  | [] => Ok mutating
  | operation :: rest =>
      let at_op := "action " +:+ type +:+ " patch operation " +:+ Itoa index in
      let absent := match patch_Value operation with None => true | Some _ => false end in
      let op := patch_Operation operation in
      unless ((patch_Path operation == "/spec") || HasPrefix (patch_Path operation) "/spec/")
        (at_op +:+ " must target /spec");;
      if (op == "add") || (op == "replace") then
        unless (negb absent) (at_op +:+ " requires value");;
        validate_operations type (index + 1) true rest
      else if op == "remove" then
        unless absent ("action " +:+ type +:+ " remove operation " +:+ Itoa index +:+ " must not include value");;
        validate_operations type (index + 1) true rest
      else if op == "test" then
        unless (negb absent) ("action " +:+ type +:+ " test operation " +:+ Itoa index +:+ " requires value");;
        validate_operations type (index + 1) mutating rest
      else Err (Errorf (at_op +:+ " uses unsupported op " +:+ Quote op))
  end.

Definition validateManagedResourceChange (action : CatalogAction) : result unit :=
  let act := "action " +:+ req_Type action in
  unless (negb ((TrimSpace (req_APIVersion action) == "") || (TrimSpace (req_Kind action) == "") ||
                (req_APIVersion action == "*") || (req_Kind action == "*")))
    (act +:+ " requires a concrete apiVersion and kind");;
  unless (validDNSName (param action "managementController"))
    (act +:+ " parameter managementController must be a lowercase DNS name");;
  unless (match ParseInt (param action "sourceGeneration") with Some g => 1 <=? g | None => false end)
    (act +:+ " parameter sourceGeneration must be a positive integer");;
  unless (param action "patchType" == ManagedResourceJSONPatch)
    (act +:+ " parameter patchType must be " +:+ ManagedResourceJSONPatch);;
  operations ← with_context (act +:+ " parameter patch must be a strict RFC 6902 array")
    (decode_patch (param action "patch"));
  mutating ← validate_operations (req_Type action) 0 false operations;
  unless mutating (act +:+ " parameter patch requires at least one add, remove, or replace operation");;
  rollbackSpec ← with_context (act +:+ " parameter rollbackSourceSpec must be a JSON object")
    (canonical_object (param action "rollbackSourceSpec"));
  match rollbackSpec with
  | None => Err (Errorf (act +:+ " parameter rollbackSourceSpec must be a JSON object"))
  | Some canonicalRollbackSpec =>
      diff ← with_context (act +:+ " parameter diff must contain exact diff metadata")
        (decode_diff (param action "diff"));
      unless (mdiff_Format diff == "unified") (act +:+ " diff format must be unified");;
      unless (validSHA256 (mdiff_BeforeSpecHash diff) && validSHA256 (mdiff_AfterSpecHash diff))
        (act +:+ " diff requires valid beforeSpecHash and afterSpecHash SHA-256 values");;
      unless (EqualFold (mdiff_BeforeSpecHash diff) (sha256_hex canonicalRollbackSpec))
        (act +:+ " diff beforeSpecHash does not match rollbackSourceSpec");;
      unless (negb (EqualFold (mdiff_BeforeSpecHash diff) (mdiff_AfterSpecHash diff)))
        (act +:+ " diff beforeSpecHash and afterSpecHash must differ");;
      unless (Contains (mdiff_Content diff) "--- " && Contains (mdiff_Content diff) "+++ " &&
              Contains (mdiff_Content diff) "@@")
        (act +:+ " diff content must be a unified diff")
  end.

(** The first element that fails decides the error. *)
Fixpoint first_missing (bad : string → bool) (l : list string) : option string :=
  match l with
  | [] => None
  | x :: l' => if bad x then Some x else first_missing bad l'
  end.

Definition validateParameters `{RangeOrder} (definition : ActionDefinition) (action : CatalogAction) :
    result unit :=
  match first_missing (λ p, TrimSpace (param action p) == "") (def_RequiredParameters definition) with
  | Some p => Err (Errorf ("action " +:+ req_Type action +:+ " requires parameter " +:+ p))
  | None =>
      let disallowed p := negb (bool_decide (p ∈ def_AllowedParameters definition)) in
      match (if bool_decide (def_AllowedParameters definition = []) then None
             else first_missing disallowed (range (req_Params action)).*1) with
      | Some p => Err (Errorf ("action " +:+ req_Type action +:+ " does not allow parameter " +:+ p))
      | None =>
          if req_Type action == ManagedResourceChangeAction then validateManagedResourceChange action
          else Ok tt
      end
  end.

Definition ValidateProposal `{RangeOrder} (action : CatalogAction) : result ActionDefinition :=
  match Lookup (req_Type action) with
  | None => Err (Errorf ("unknown action type " +:+ Quote (req_Type action) +:+ " in catalog " +:+ Version))
  | Some definition =>
      if negb (supports definition (req_APIVersion action) (req_Kind action)) then
        Err (Errorf ("action " +:+ req_Type action +:+ " does not support " +:+ req_APIVersion action +:+
                     " " +:+ req_Kind action))
      else if def_StrictParameters definition then
        validateParameters definition action;; Ok definition
      else Ok definition
  end.

Definition Validate `{RangeOrder} (action : CatalogAction) : result ActionDefinition :=
  definition ← ValidateProposal action;
  validateParameters definition action;;
  Ok definition.

Definition ExecutionModeFor (action : CatalogAction) : string :=
  match Lookup (req_Type action) with
  | None => ModeProposal
  | Some definition =>
      if (req_Type action == "patch_workload_probes") && (param action "configured" != "true")
      then ModeProposal
      else def_DefaultExecutionMode definition
  end.

(** * Facts of the table *)

Lemma Lookup_entry t d : Lookup t = Some d → (t, d) ∈ catalog_entries.
Proof. apply elem_of_list_to_map_2. Qed.

(** Case analysis on a catalogued type: one goal per entry of the table. *)
Ltac catalog_cases H :=
  apply Lookup_entry in H; unfold catalog_entries in H;
  repeat (apply elem_of_cons in H as [H|H]; [simplify_eq | ]);
  [.. | by apply elem_of_nil in H].

Lemma Lookup_Type t d : Lookup t = Some d → def_Type d = t.
Proof. intros H. by catalog_cases H. Qed.

Lemma first_missing_none bad l : first_missing bad l = None ↔ ∀ x, x ∈ l → bad x = false.
Proof.
  induction l as [|y l IH]; cbn; [split; [set_solver | done]|].
  destruct (bad y) eqn:Hy.
  - split; [done|]. intros Hall. rewrite Hall in Hy; [done | left].
  - rewrite IH. split; [|set_solver]. intros Hall x [->|Hx]%elem_of_cons; auto.
Qed.

Lemma elem_of_range_fst `{RangeOrder} {A} (m : gmap string A) k : k ∈ (range m).*1 ↔ is_Some (m !! k).
Proof.
  rewrite list_elem_of_fmap. split.
  - intros ([k' v] & -> & Hin%elem_of_range). by exists v.
  - intros [v Hv]. exists (k, v). by rewrite elem_of_range.
Qed.

(** Every required parameter is given and not blank; when the definition lists the parameters it
    allows, no other is given. *)
Definition parameters_ok (d : ActionDefinition) (a : CatalogAction) : Prop :=
  (∀ p, p ∈ def_RequiredParameters d → TrimSpace (param a p) ≠ "") ∧
  (def_AllowedParameters d = [] ∨
   ∀ p, is_Some (req_Params a !! p) → p ∈ def_AllowedParameters d).

Lemma validateParameters_ok `{RangeOrder} d a :
  validateParameters d a = Ok tt ↔
  parameters_ok d a ∧
  (req_Type a = ManagedResourceChangeAction → validateManagedResourceChange a = Ok tt).
Proof.
  unfold validateParameters, parameters_ok.
  case_match eqn:Hreq.
  { split; [done|]. intros [[Hall _] _].
    assert (first_missing (λ p, TrimSpace (param a p) == "") (def_RequiredParameters d) = None) as Hn; [|congruence].
    apply first_missing_none. intros x Hx. apply String.eqb_neq, Hall, Hx. }
  assert (∀ p, p ∈ def_RequiredParameters d → TrimSpace (param a p) ≠ "") as Hreq'.
  { intros p Hp. apply String.eqb_neq. by apply first_missing_none with (x := p) in Hreq. }
  case_match eqn:Hallow.
  - split; [done|]. intros [[_ Hall] _]. destruct (bool_decide_reflect (def_AllowedParameters d = [])) as [|Hne]; [done|].
    destruct Hall as [|Hall]; [done|].
    enough (first_missing (λ p, negb (bool_decide (p ∈ def_AllowedParameters d)))
      (range (req_Params a)).*1 = None) by congruence.
    apply first_missing_none. intros x Hx%elem_of_range_fst. apply negb_false_iff, bool_decide_eq_true, Hall, Hx.
  - assert (def_AllowedParameters d = [] ∨ ∀ p, is_Some (req_Params a !! p) → p ∈ def_AllowedParameters d) as Hall.
    { destruct (bool_decide_reflect (def_AllowedParameters d = [])) as [|Hne]; [by left|]. right. intros p Hp.
      apply first_missing_none with (x := p) in Hallow; [|by apply elem_of_range_fst].
      by apply negb_false_iff, bool_decide_eq_true in Hallow. }
    destruct (String.eqb_spec (req_Type a) ManagedResourceChangeAction); naive_solver.
Qed.

Lemma ValidateProposal_lookup `{RangeOrder} a d : ValidateProposal a = Ok d → Lookup (req_Type a) = Some d.
Proof.
  unfold ValidateProposal. intros Hv. repeat case_match; simplify_eq; [|done].
  by apply bind_ok in Hv as ([] & _ & [= ->]).
Qed.

(** * Properties *)

(** C22. [Validate] accepts exactly the actions of a catalogued type on a supported resource kind whose
    parameters are complete and allowed and, for a managed-resource change, whose patch and diff
    pass the change validation; it returns the catalog's definition. The order in which Go visits the
    parameters plays no role. *)
Theorem Validate_spec `{RangeOrder} (a : CatalogAction) (d : ActionDefinition) :
  Validate a = Ok d ↔
  Lookup (req_Type a) = Some d ∧
  supports d (req_APIVersion a) (req_Kind a) = true ∧
  parameters_ok d a ∧
  (req_Type a = ManagedResourceChangeAction → validateManagedResourceChange a = Ok tt).
Proof.
  rewrite <- validateParameters_ok. unfold Validate. rewrite bind_ok. split.
  - intros (d' & Hp & ([] & Hv & [= ->])%bind_ok).
    pose proof (ValidateProposal_lookup _ _ Hp) as Hl. split_and!; [done | | done].
    unfold ValidateProposal in Hp. rewrite Hl in Hp. by destruct (supports d _ _).
  - intros (Hl & Hs & Hv). exists d. rewrite Hv. split; [|done].
    unfold ValidateProposal. rewrite Hl, Hs, Hv. by destruct (def_StrictParameters d).
Qed.

(** [patch_Operation o] is one the validation knows, with a value exactly where it needs one. *)
Definition operation_ok (o : managedResourcePatchOperation) : Prop :=
  (patch_Path o = "/spec" ∨ HasPrefix (patch_Path o) "/spec/" = true) ∧
  ((patch_Operation o ∈ ["add"; "replace"; "test"] ∧ patch_Value o ≠ None) ∨
   (patch_Operation o = "remove" ∧ patch_Value o = None)).

Lemma elem_of_strings (x : string) l : x ∈ l ↔ existsb (String.eqb x) l = true.
Proof.
  rewrite existsb_exists. setoid_rewrite String.eqb_eq. setoid_rewrite <- list_elem_of_In. naive_solver.
Qed.

Lemma validate_operations_ok t i m ops b :
  validate_operations t i m ops = Ok b ↔
  Forall operation_ok ops ∧
  (b = true ↔ m = true ∨ Exists (λ o, patch_Operation o ∈ ["add"; "replace"; "remove"]) ops).
Proof.
  revert i m. induction ops as [|o ops IH]; intros i m.
  { cbn. rewrite Forall_nil, Exists_nil. destruct b, m; naive_solver. }
  rewrite Forall_cons, Exists_cons. unfold operation_ok at 1. rewrite !elem_of_strings.
  cbn -[String.eqb]. rewrite unless_ok, orb_true_iff, String.eqb_eq.
  destruct (String.eqb_spec (patch_Operation o) "add") as [->|Ha],
    (String.eqb_spec (patch_Operation o) "replace") as [Hr|Hr],
    (String.eqb_spec (patch_Operation o) "remove") as [Hm|Hm],
    (String.eqb_spec (patch_Operation o) "test") as [Ht|Ht]; try congruence;
    cbn -[String.eqb]; rewrite ?unless_ok, ?IH; destruct (patch_Value o); cbn -[String.eqb];
    intuition congruence.
Qed.

(** What a managed-resource change promises its reviewer. *)
Record change_ok (a : CatalogAction) (ops : list managedResourcePatchOperation) (canonical : string)
    (diff : managedResourceDiff) (generation : Z) : Prop := {
  change_concrete : TrimSpace (req_APIVersion a) ≠ "" ∧ TrimSpace (req_Kind a) ≠ "" ∧
    req_APIVersion a ≠ "*" ∧ req_Kind a ≠ "*";
  change_controller : validDNSName (param a "managementController") = true;
  change_generation : ParseInt (param a "sourceGeneration") = Some generation ∧ 1 ≤ generation;
  change_patch_type : param a "patchType" = ManagedResourceJSONPatch;
  change_patch : decode_patch (param a "patch") = Ok ops;
  change_in_spec : Forall operation_ok ops;
  change_mutates : Exists (λ o, patch_Operation o ∈ ["add"; "replace"; "remove"]) ops;
  change_rollback : canonical_object (param a "rollbackSourceSpec") = Ok (Some canonical);
  change_diff : decode_diff (param a "diff") = Ok diff;
  change_diff_format : mdiff_Format diff = "unified";
  change_before : ToLower (mdiff_BeforeSpecHash diff) = ToLower (sha256_hex canonical);
  change_after : validSHA256 (mdiff_AfterSpecHash diff) = true;
  change_before_hash : validSHA256 (mdiff_BeforeSpecHash diff) = true;
  change_differs : ToLower (mdiff_BeforeSpecHash diff) ≠ ToLower (mdiff_AfterSpecHash diff);
  change_unified : Contains (mdiff_Content diff) "--- " = true ∧
    Contains (mdiff_Content diff) "+++ " = true ∧ Contains (mdiff_Content diff) "@@" = true
}.

(** C23. [validateManagedResourceChange] accepts exactly the changes that name a concrete source at a
    positive generation, whose strict JSON patch stays under [/spec] and mutates, and whose unified
    diff is bound by SHA-256 to the canonical rollback spec and to a different result. *)
Theorem validateManagedResourceChange_spec (a : CatalogAction) :
  validateManagedResourceChange a = Ok tt ↔
  ∃ ops canonical diff generation, change_ok a ops canonical diff generation.
Proof.
  unfold validateManagedResourceChange. cbv zeta.
  rewrite !unless_ok, negb_true_iff, !orb_false_iff, !String.eqb_neq, String.eqb_eq. split.
  - intros (Hc & Hd & Hg & Ht & (ops & Hp%with_context_ok & H)%bind_ok).
    apply bind_ok in H as (mut & Hv%validate_operations_ok & H). apply unless_ok in H as [-> H].
    apply bind_ok in H as (spec & Hspec%with_context_ok & H). destruct spec as [canonical|]; [|done].
    apply bind_ok in H as (diff & Hdiff%with_context_ok & H). rewrite !unless_ok in H.
    destruct H as (Hf & Hh & Hb & Ha & Hcontent). unfold unless in Hcontent.
    destruct (_ && _ && _)%bool eqn:Hu in Hcontent; [|done]. unfold EqualFold in *. split_guards.
    destruct (ParseInt _) as [g|] eqn:Hgen in Hg; [|done]. apply Z.leb_le in Hg.
    destruct Hv as [Hall Hmut]. exists ops, canonical, diff, g. split; naive_solver.
  - intros (ops & canonical & diff & g & []).
    rewrite change_controller0, change_patch_type0, change_patch0, change_rollback0, change_diff0. cbn.
    destruct change_generation0 as [-> Hg].
    split; [tauto|]. split; [done|]. split; [by apply Z.leb_le|]. split; [done|].
    apply bind_ok. exists true. rewrite validate_operations_ok. split; [naive_solver|]. cbn.
    unfold EqualFold. rewrite change_diff_format0, change_before_hash0, change_after0, change_before0.
    rewrite String.eqb_refl. apply String.eqb_neq in change_differs0. rewrite change_before0 in change_differs0.
    rewrite change_differs0. destruct change_unified0 as (-> & -> & ->). done.
Qed.

Definition direct_types : list string :=
  ["apply_resource_governance"; "patch_pod_security_labels"; "patch_workload_resources"; "create_pdb";
   "patch_workload_probes"].

(** A validated action that runs directly is one of the five with an executor, on a concrete
    namespace or workload; probes only when explicitly configured; and only resource governance, a
    tier A action, skips approval. *)
Theorem direct_actions `{RangeOrder} (a : CatalogAction) (d : ActionDefinition)
    (Hvalid : Validate a = Ok d) (Hmode : ExecutionModeFor a = ModeDirect) :
  req_Type a ∈ direct_types ∧
  (req_APIVersion a, req_Kind a) ∈
    [("v1", "Namespace"); ("apps/v1", "Deployment"); ("apps/v1", "StatefulSet"); ("apps/v1", "DaemonSet")] ∧
  (req_Type a = "patch_workload_probes" → param a "configured" = "true") ∧
  (def_ApprovalRequired d = false → req_Type a = "apply_resource_governance" ∧ def_RiskTier d = RiskA).
Proof.
  unfold Validate in Hvalid. apply bind_ok in Hvalid as (d' & Hp & ([] & _ & [= ->])%bind_ok).
  pose proof (ValidateProposal_lookup _ _ Hp) as Hl. unfold ExecutionModeFor in Hmode. rewrite Hl in Hmode.
  unfold ValidateProposal in Hp. rewrite Hl in Hp.
  destruct (supports d (req_APIVersion a) (req_Kind a)) eqn:Hs; [clear Hp|done].
  assert (req_Type a = "patch_workload_probes" → param a "configured" = "true") as Hprobe.
  { intros Ht. rewrite Ht in Hmode. cbn -[String.eqb] in Hmode.
    destruct (String.eqb_spec (param a "configured") "true"); [done|]. discriminate Hmode. }
  assert (def_DefaultExecutionMode d = ModeDirect) as Hdirect by (by case_match). clear Hmode.
  destruct a as [t api k ps]; cbn [req_Type req_APIVersion req_Kind] in *.
  catalog_cases Hl; try discriminate Hdirect; cbn -[String.eqb] in Hs; split_alternatives; try done;
    (split; [apply (bool_decide_unpack _); vm_compute; done|]);
    (split; [apply (bool_decide_unpack _); vm_compute; done|]); (split; [done|]); done.
Qed.

#[export] Instance type_less_order : StrictWeakOrder type_less := strict_weak_by_string def_Type.

Lemma elem_of_All `{RangeOrder} d : d ∈ All ↔ Lookup (def_Type d) = Some d.
Proof.
  unfold All. rewrite elem_of_sort_slice, elem_of_range_snd. split; [|by exists (def_Type d)].
  intros [t Ht]. by rewrite (Lookup_Type _ _ Ht).
Qed.

Lemma All_perm `{RangeOrder} : All ≡ₚ (map_to_list definitions).*2.
Proof. unfold All. by rewrite sort_slice_perm, range_perm. Qed.

(** [All] lists every definition once, strictly increasing in its type, and the same list for every
    order in which Go may visit the table. *)
Theorem All_deterministic (R R' : RangeOrder) :
  @All R = @All R' ∧
  NoDup (map def_Type (@All R)) ∧
  (∀ d, d ∈ @All R ↔ Lookup (def_Type d) = Some d) ∧
  StronglySorted (λ x y, String.ltb (def_Type y) (def_Type x) = false) (@All R).
Proof.
  assert (∀ R'' : RangeOrder, StronglySorted (not_after type_less) (@All R'')) as Hs.
  { intros R''. apply sort_slice_sorted. apply _. }
  split_and!; [|
    | apply elem_of_All | apply Hs].
  - apply StronglySorted_unique_strong with (R := not_after type_less); [|apply Hs..|].
    + intros x y Hx Hy Hxy Hyx. apply elem_of_All in Hx, Hy. unfold not_after, type_less in *.
      assert (def_Type x = def_Type y) as Heq; [|congruence].
      apply ltb_ge in Hxy as [|Hxy]; [done|]. congruence.
    + by rewrite !All_perm.
  - rewrite All_perm. vm_compute. apply (bool_decide_unpack _). vm_compute. done.
Qed.

(** * Concrete runs *)

Definition sample_probes_action : CatalogAction :=
  mkCatalogAction "patch_workload_probes" "apps/v1" "Deployment"
    (list_to_map [("configured", "true"); ("container", "api"); ("port", "8080");
                  ("readinessPath", "/ready"); ("livenessPath", "/live")]).

Lemma direct_actions_witness :
  ∃ d, @Validate canonical_order sample_probes_action = Ok d ∧
    ExecutionModeFor sample_probes_action = ModeDirect ∧
    req_Type sample_probes_action ∈ direct_types.
Proof.
  exists def_of_patch_workload_probes.
  assert (@Validate canonical_order sample_probes_action = Ok def_of_patch_workload_probes) as Hv
    by (vm_compute; reflexivity).
  assert (ExecutionModeFor sample_probes_action = ModeDirect) as Hm by (vm_compute; reflexivity).
  split; [exact Hv | split; [exact Hm|]].
  exact (proj1 (direct_actions (H := canonical_order) _ _ Hv Hm)).
Defined.

Definition sample_change (before : string) : CatalogAction :=
  mkCatalogAction ManagedResourceChangeAction "s3.aws.upbound.io/v1beta1" "Bucket"
    (list_to_map [("managementController", "provider-aws.crossplane.io"); ("sourceName", "logs");
      ("sourceUID", "uid-1"); ("sourceResourceVersion", "41"); ("sourceGeneration", "3");
      ("externalResourceID", "logs-bucket"); ("patchType", ManagedResourceJSONPatch);
      ("patch", requote "[{'op':'replace','path':'/spec/region','value':'eu-west-1'}]");
      ("diff", requote "{'format':'unified','beforeSpecHash':'" +:+ before +:+
        requote "','afterSpecHash':'" +:+ sha256_hex (requote "{'region':'eu-west-1'}") +:+
        requote "','content':'--- a\n+++ b\n@@ -1 +1 @@'}");
      ("rollbackSourceSpec", requote "{ 'region' : 'us-east-1' }")]).

Example change_accepted :
  @Validate canonical_order (sample_change (sha256_hex (requote "{'region':'us-east-1'}")))
  = Ok def_of_propose_managed_resource_change.
Proof. vm_compute. reflexivity. Qed.

Example change_hash_mismatch :
  @Validate canonical_order (sample_change (sha256_hex "{}"))
  = Err (Errorf "action propose_managed_resource_change diff beforeSpecHash does not match rollbackSourceSpec").
Proof. vm_compute. reflexivity. Qed.
