(* ===== verification/Planner.v ===== *)
(** The deterministic remediation planner, the pure functions of
    [services/api/internal/store/store.go]: from a finding to the typed actions of a plan, its risk
    tier, approval policy, steps, preview and diff, and the identifiers and health summaries derived
    from stored data. *)
From S2P Require Import Prelude GoLib Sha256 Core ActionCatalog.

Local Open Scope Z_scope.

(** * Targets *)

Definition namespaceTarget (target : ResourceRef) : ResourceRef :=
  if ref_Kind target == "Namespace" then mkResourceRef "v1" "Namespace" "" (ref_Name target)
  else if ref_Namespace target != "" then mkResourceRef "v1" "Namespace" "" (ref_Namespace target)
  else target.

Definition workloadTarget (target : ResourceRef) : ResourceRef := target.

Definition isWorkloadTarget (target : ResourceRef) : bool :=
  (ref_APIVersion target == "apps/v1") &&
  ((ref_Kind target == "Deployment") || (ref_Kind target == "StatefulSet") ||
   (ref_Kind target == "DaemonSet")).

Definition catalogAction (action : TypedAction) : CatalogAction :=
  mkCatalogAction (action_Type action) (ref_APIVersion (action_Target action))
    (ref_Kind (action_Target action)) (action_Params action).

(** * From a finding to typed actions *)

(** The duplicate test of [dedupeActions]. *)
Definition action_key (action : TypedAction) : string :=
  action_Type action +:+ "|" +:+ ref_String (action_Target action).

Definition dedupe_step (acc : gset string * list TypedAction) (action : TypedAction) :
    gset string * list TypedAction :=
  if bool_decide (action_key action ∈ acc.1) then acc
  else ({[action_key action]} ∪ acc.1, acc.2 ++ [action]).
Definition dedupeActions (actions : list TypedAction) : list TypedAction :=
  (foldl dedupe_step (∅, []) actions).2.

Definition finding_text (finding : Finding) : string :=
  ToLower (finding_ID finding +:+ " " +:+ finding_Title finding +:+ " " +:+
           finding_BlastRadius finding +:+ " " +:+ finding_RecommendedAction finding).

Definition finding_target (finding : Finding) : ResourceRef :=
  match finding_Resources finding with
  | r :: _ => r
  | [] => mkResourceRef "v1" "Namespace" "" "default"
  end.

Definition is_managed_resource_finding (finding : Finding) : bool :=
  HasPrefix (ToLower (finding_Source finding)) "managed-resource" ||
  Contains (finding_text finding) "kubernetes-managed external resource".

Definition review_action (finding : Finding) (target : ResourceRef) : TypedAction :=
  let system := TrimPrefix (keys_Identity (finding_CorrelationKeys finding)) "managed-resource:" in
  mkTypedAction ManagedResourceReviewAction target
    "Review the managed-resource flaw and its authoritative source; an exact change requires a separate trusted proposal"
    (list_to_map [("findingId", finding_ID finding);
                  ("managementSystem", if system == "" then "unknown" else system);
                  ("sourceOfTruth", "owning Kubernetes controller resource or upstream GitOps repository")]).

(** [if cond { actions = append(actions, action) }] *)
Definition append_if (cond : bool) (action : TypedAction) (actions : list TypedAction) :
    list TypedAction :=
  if cond then actions ++ [action] else actions.

Definition governance_action (target : ResourceRef) : TypedAction :=
  mkTypedAction "apply_resource_governance" (namespaceTarget target)
    "Apply scoped ResourceQuota and LimitRange defaults"
    (list_to_map [("quotaProfile", "team-defaults"); ("dryRun", "required")]).
Definition pod_security_action (target : ResourceRef) : TypedAction :=
  mkTypedAction "patch_pod_security_labels" (namespaceTarget target)
    "Patch namespace Pod Security admission labels after tier validation"
    (list_to_map [("enforce", "baseline"); ("audit", "restricted"); ("dryRun", "required")]).
Definition probes_action (target : ResourceRef) : TypedAction :=
  mkTypedAction "patch_workload_probes" (workloadTarget target)
    "Prepare readiness and liveness probe patches behind approval"
    (list_to_map [("configured", "false"); ("dryRun", "required")]).
Definition resources_action (target : ResourceRef) : TypedAction :=
  mkTypedAction "patch_workload_resources" (workloadTarget target)
    "Prepare bounded workload resource defaults or recommendation-only image pinning guidance"
    (list_to_map [("cpuRequest", "100m"); ("memoryRequest", "128Mi"); ("cpuLimit", "500m");
                  ("memoryLimit", "512Mi"); ("dryRun", "required")]).
Definition pdb_action (target : ResourceRef) : TypedAction :=
  mkTypedAction "create_pdb" (workloadTarget target)
    "Create a scoped PodDisruptionBudget for replicated workloads after approval"
    (list_to_map [("minAvailable", "1"); ("dryRun", "required")]).
Definition network_policy_action (target : ResourceRef) : TypedAction :=
  mkTypedAction "propose_network_policy" (namespaceTarget target)
    "Prepare default-deny and explicit allow NetworkPolicy manifests for review or GitOps PR"
    (list_to_map [("mode", "proposal"); ("requiresApproval", "true")]).

Definition fallback_action (finding : Finding) (target : ResourceRef) : TypedAction :=
  let human := finding_Fixability finding == FixabilityHumanOnly in
  mkTypedAction (if human then "propose_security_hardening" else "explain_only") target
    (if human then "Prepare network, RBAC, and image trust patches for explicit approval"
     else "Document finding and require human triage")
    (list_to_map [("findingId", finding_ID finding); ("dryRun", "required")]).

Definition matched_actions (text : string) (target : ResourceRef) : list TypedAction :=
  let has := Contains text in
  let workload := isWorkloadTarget target in
  let actions := [] in
  let actions := append_if (has "resourcequota" || has "limitrange" || has "resource governance" ||
                            has "resources") (governance_action target) actions in
  let actions := append_if (has "pod security" || has "privileged pod security")
                   (pod_security_action target) actions in
  let actions := append_if (workload && (has "readiness" || has "liveness" || has "probe"))
                   (probes_action target) actions in
  let actions := append_if (workload && (has "requests" || has "limits" || has "mutable image"))
                   (resources_action target) actions in
  let actions := append_if (workload && (has "pdb" || has "poddisruptionbudget" || has "disruption"))
                   (pdb_action target) actions in
  append_if (has "networkpolicy" || has "loadbalancer" || has "nodeport" || has "externalip" ||
             has "ingress") (network_policy_action target) actions.

Definition typedActionsForFinding (finding : Finding) : list TypedAction :=
  let target := finding_target finding in
  if is_managed_resource_finding finding then [review_action finding target]
  else
    let actions := matched_actions (finding_text finding) target in
    dedupeActions (match actions with [] => [fallback_action finding target] | _ => actions end).

Definition primaryAction (plan : RemediationPlan) : TypedAction :=
  match plan_Actions plan with
  | a :: _ => a
  | [] => mkTypedAction "explain_only" (mkResourceRef "v1" "Namespace" "" "default")
            "Document finding and require human triage" ∅
  end.

(** * The parts of a plan *)

Definition risk_rank (tier : string) : Z :=
  if tier == RiskTierA then 1 else if tier == RiskTierB then 2
  else if tier == RiskTierC then 3 else if tier == RiskTierD then 4 else 0.

Section Plans.
Context `{RangeOrder}.

Fixpoint risk_tier_loop (highest : string) (actions : list TypedAction) : string :=
  match actions with
  | [] => highest
  | action :: rest =>
      match ValidateProposal (catalogAction action) with
      | Err _ => RiskTierD
      | Ok definition =>
          let tier := def_RiskTier definition in
          risk_tier_loop (if risk_rank highest <? risk_rank tier then tier else highest) rest
      end
  end.
Definition riskTierForActions (actions : list TypedAction) : string :=
  risk_tier_loop RiskTierA actions.

Definition approval_step (policy : ApprovalPolicy) (action : TypedAction) : ApprovalPolicy :=
  let required := match ValidateProposal (catalogAction action) with
                  | Err _ => true
                  | Ok definition => def_ApprovalRequired definition
                  end in
  let policy := if required then policy <| policy_Required := true |> <| policy_Decision := ApprovalPending |>
                else policy in
  policy <| policy_Categories := policy_Categories policy ++ [action_Type action] |>.
Definition approvalPolicyForActions (actions : list TypedAction) : ApprovalPolicy :=
  foldl approval_step (zero_ApprovalPolicy <| policy_Decision := ApprovalApproved |>) actions.

Definition add_step (acc : gset string * list string) (step : string) : gset string * list string :=
  if bool_decide (step ∈ acc.1) then acc else ({[step]} ∪ acc.1, acc.2 ++ [step]).

(** The distinct steps [select] gives of the valid actions, in order. *)
Definition collect_steps (select : ActionDefinition → list string) (actions : list TypedAction) :
    list string :=
  (foldl (λ acc action,
     match ValidateProposal (catalogAction action) with
     | Err _ => acc
     | Ok definition => foldl add_step acc (select definition)
     end) (∅, []) actions).2.

Definition verificationStepsForFinding (finding : Finding) : list string :=
  let steps := ["Confirm the targeted resources still match the finding evidence.";
                "Run Kubernetes server-side dry-run before writing changes.";
                "Re-scan the source engine and update finding status."] in
  if (finding_Source finding == "falco") || (finding_Source finding == "tetragon")
  then steps ++ ["Correlate runtime event timing with deployment, user, and audit logs."]
  else steps.

Definition verificationStepsForActions (actions : list TypedAction) (finding : Finding) : list string :=
  match collect_steps def_VerificationChecks actions with
  | [] => verificationStepsForFinding finding
  | steps => steps
  end.

Definition rollbackStepsForActions (actions : list TypedAction) : list string :=
  collect_steps def_RollbackProcedure actions.

Definition actionStatuses (actions : list TypedAction) (state message : string) : list ActionStatus :=
  match map (λ a, mkActionStatus (action_Type a) state message) actions with
  | [] => [mkActionStatus "explain_only" state message]
  | statuses => statuses
  end.

Definition buildRemediationPlan (finding : Finding) (requester : string) (now : Time) (seq : Z) :
    RemediationPlan :=
  let planID := if seq =? 0 then "preview-" +:+ finding_ID finding
                else "plan-" +:+ finding_ID finding +:+ "-" +:+ Itoa_padded 3 seq in
  let actions := typedActionsForFinding finding in
  zero_RemediationPlan
    <| plan_ID := planID |>
    <| plan_CatalogVersion := Version |>
    <| plan_FindingID := finding_ID finding |>
    <| plan_RootCause := "KubeAthrix correlated scanner and Kubernetes evidence into a bounded deterministic remediation candidate. Execution is restricted to typed actions with dry-run, approvals, verification, and rollback metadata." |>
    <| plan_Actions := actions |>
    <| plan_RiskTier := riskTierForActions actions |>
    <| plan_DryRunResult := mkDryRunResult false "server-side dry-run has not been performed; this is a proposal" |>
    <| plan_VerificationSteps := verificationStepsForActions actions finding |>
    <| plan_RollbackSteps := rollbackStepsForActions actions |>
    <| plan_ApprovalPolicy := approvalPolicyForActions actions |>
    <| plan_Status := "proposed" |>
    <| plan_CreatedAt := now |>.

(** * Preview and diff *)

Definition evidenceCitations (finding : Finding) : list EvidenceCitation :=
  let resource := match finding_Resources finding with r :: _ => ref_String r | [] => "" end in
  map (λ e, mkEvidenceCitation (evidence_SourceID e) (evidence_Summary e) resource (evidence_ObservedAt e))
    (finding_Evidence finding).

(** The chunks written to the hash, one after the other. *)
Definition promptEvidenceHash (finding : Finding) : string :=
  sha256_hex (finding_ID finding +:+ finding_Title finding +:+ finding_BlastRadius finding +:+
    Join (map (λ e, evidence_SourceID e +:+ evidence_Summary e) (finding_Evidence finding)) "").

Definition buildRemediationPreview (finding : Finding) (plan : RemediationPlan) (now : Time) :
    RemediationPreview :=
  zero_RemediationPreview
    <| preview_FindingID := finding_ID finding |>
    <| preview_Summary := "Strict-schema deterministic preview for " +:+ finding_Title finding +:+ " with " +:+
         Itoa (Z.of_nat (length (plan_Actions plan))) +:+ " typed action(s)." |>
    <| preview_Candidate := plan |>
    <| preview_EvidenceCitations := evidenceCitations finding |>
    <| preview_PromptEvidenceHash := promptEvidenceHash finding |>
    <| preview_DeterministicFallback := true |>
    <| preview_SafetyNotes := [
         "Model output must match the typed remediation schema before it can be stored.";
         "No raw shell, SSH, or kubectl command execution is accepted.";
         "Tier B/C/D changes remain approval gated and dry-run first."] |>
    <| preview_GeneratedAt := now |>.

Definition governance_manifest (namespace : string) : string := text_lines [
  "apiVersion: v1"; "kind: ResourceQuota"; "metadata:"; "  name: kubeathrix-defaults";
  "  namespace: " +:+ namespace; "spec:"; "  hard:"; "    requests.cpu: " +:+ quoted "4";
  "    requests.memory: 8Gi"; "---"; "apiVersion: v1"; "kind: LimitRange"; "metadata:";
  "  name: kubeathrix-defaults"; "  namespace: " +:+ namespace; "spec:"; "  limits:";
  "    - type: Container"; "      defaultRequest:"; "        cpu: 100m"; "        memory: 128Mi";
  "      default:"; "        cpu: 500m"; "        memory: 512Mi"].
Definition pod_security_manifest (name : string) : string := text_lines [
  "apiVersion: v1"; "kind: Namespace"; "metadata:"; "  name: " +:+ name; "  labels:";
  "    pod-security.kubernetes.io/enforce: baseline"; "    pod-security.kubernetes.io/audit: restricted";
  "    pod-security.kubernetes.io/warn: restricted"].
Definition network_policy_manifest (namespace : string) : string := text_lines [
  "apiVersion: networking.k8s.io/v1"; "kind: NetworkPolicy"; "metadata:"; "  name: kubeathrix-default-deny";
  "  namespace: " +:+ namespace; "spec:"; "  podSelector: {}"; "  policyTypes:"; "    - Ingress"; "    - Egress"].

Definition decorate (definition : ActionDefinition) (manifest : PlannedManifest) : PlannedManifest :=
  manifest
    <| manifest_RiskTier := def_RiskTier definition |>
    <| manifest_ApprovalRequired := def_ApprovalRequired definition |>
    <| manifest_RequiredPermissions := def_RequiredPermissions definition |>
    <| manifest_VerificationChecks := def_VerificationChecks definition |>
    <| manifest_RollbackProcedure := def_RollbackProcedure definition |>
    <| manifest_IdempotencyBehavior := def_IdempotencyBehavior definition |>
    <| manifest_FailureHandling := def_FailureHandling definition |>.

Definition plannedManifest (action : TypedAction) : PlannedManifest :=
  let type := action_Type action in
  let target := action_Target action in
  let manifest writeMode diff text :=
    zero_PlannedManifest <| manifest_ActionType := type |> <| manifest_Target := target |>
      <| manifest_WriteMode := writeMode |> <| manifest_Diff := diff |> <| manifest_Manifest := text |> in
  match ValidateProposal (catalogAction action) with
  | Err e => manifest "invalid" (error_text e) ""
  | Ok definition =>
      let mode := ExecutionModeFor (catalogAction action) in
      decorate definition
        (if (mode == ModeProposal) || (mode == ModeInformation) ||
            ((mode == ModeGitOps) && (type != "propose_network_policy"))
         then manifest mode (def_DiffStrategy definition) ""
         else if type == "apply_resource_governance" then
           manifest "direct-tier-a"
             ("Create or update ResourceQuota/kubeathrix-defaults and LimitRange/kubeathrix-defaults in namespace " +:+
              ref_Name target +:+ ".")
             (governance_manifest (ref_Name target))
         else if type == "patch_pod_security_labels" then
           manifest "direct-tier-b"
             "Patch namespace Pod Security labels to enforce baseline, audit restricted, and warn restricted."
             (pod_security_manifest (ref_Name target))
         else if type == "patch_workload_probes" then
           manifest "proposal_only" (def_DiffStrategy definition) ""
         else if type == "patch_workload_resources" then
           manifest "direct-tier-b"
             "Fill only missing CPU/memory requests and limits on the exact containers resolved by the controller; existing values are preserved." ""
         else if type == "create_pdb" then
           manifest "direct-tier-b"
             "Resolve the exact non-empty workload selector, then create or reconcile the managed PodDisruptionBudget after approval." ""
         else if type == "propose_network_policy" then
           manifest "gitops-proposal"
             "Generate default-deny NetworkPolicy proposal; broad network changes are never applied autonomously."
             (network_policy_manifest (if ref_Name target == "" then ref_Namespace target else ref_Name target))
         else manifest "notify-only" (action_Description action) "")
  end.

Definition buildRemediationDiff (plan : RemediationPlan) : RemediationDiff :=
  mkRemediationDiff (plan_ID plan) "typed-server-side-dry-run"
    (Itoa (Z.of_nat (length (plan_Actions plan))) +:+
     " typed action(s) prepared; no arbitrary command path is available.")
    (map plannedManifest (plan_Actions plan)).

End Plans.

(** * Summaries of stored findings *)

Section Summaries.
Context `{RangeOrder}.

Definition latest_update (findings : gmap string Finding) : Time :=
  latest_by (λ kv, finding_UpdatedAt kv.2) 0 (range findings).

Definition evidenceFreshness (findings : gmap string Finding) (now : Time) : string :=
  if Nat.eqb (size findings) 0 then "no-evidence"
  else
    let latest := latest_update findings in
    if IsZero latest then "unknown"
    else
      let age := Sub now latest in
      if age <=? 15 * Minute then "fresh"
      else if age <=? 2 * Hour then "recent"
      else if age <=? 24 * Hour then "stale"
      else "expired".

Definition scopeMatchesFinding (scope : string) (finding : Finding) : bool :=
  (scope == "all") || (scope == finding_ID finding) || (scope == finding_CorrelationGroup finding) ||
  (scope == finding_Source finding) ||
  existsb (λ r, (scope == ref_Namespace r) || (scope == ref_Name r) || (scope == ref_String r))
    (finding_Resources finding).

Definition hasFinding (findings : list Finding) (id : string) : bool :=
  existsb (λ f, finding_ID f == id) findings.
Definition hasPlan (plans : list RemediationPlan) (id : string) : bool :=
  existsb (λ p, plan_ID p == id) plans.
Definition hasRun (runs : list RemediationRun) (id : string) : bool :=
  existsb (λ r, run_ID r == id) runs.

Definition integrationPermissions (name : string) : list string :=
  let name := ToLower name in
  if name == "trivy operator" then
    ["Read vulnerabilityreports"; "Read configauditreports"; "Read exposedsecretreports"; "Read rbacassessmentreports"]
  else if name == "kubescape" then
    ["Read workloadconfiguration scans"; "Read vulnerability manifests"; "Read posture resources"]
  else if name == "kyverno" then
    ["Read policyreports"; "Read clusterpolicyreports"; "Read admission policy status"]
  else if name == "falco" then
    ["Read runtime event stream or forwarded events"; "Correlate pod and namespace metadata"]
  else if name == "tetragon" then
    ["Read process/network event stream"; "Correlate pod and workload metadata"]
  else if (name == "chaos mesh") || (name == "litmuschaos") then
    ["Dry-run create allowlisted chaos objects"; "Create/delete only when chaos execution is enabled"]
  else ["Read integration status and emitted findings"].

(** The condition of the loop over findings; indexing the first field of a blank name panics. *)
Definition integration_matches (sourceName : string) (finding : Finding) : result bool :=
  if Contains sourceName (ToLower (finding_Source finding)) then Ok true
  else match Fields sourceName with
       | word :: _ => Ok (Contains (ToLower (finding_Source finding)) word)
       | [] => Err (Panic "index out of range [0] with length 0")
       end.

Definition last_seen_step (sourceName : string) (acc : result string) (finding : Finding) : result string :=
  lastSeen ← acc;
  matches ← integration_matches sourceName finding;
  Ok (if matches && negb (IsZero (finding_UpdatedAt finding)) &&
         ((lastSeen == "never") || String.ltb lastSeen (FormatRFC3339 (finding_UpdatedAt finding)))
      then FormatRFC3339 (finding_UpdatedAt finding) else lastSeen).

Definition buildIntegrationHealth (integration : Integration) (findings : gmap string Finding)
    (now : Time) : result IntegrationHealth :=
  let configured := integration_Enabled integration && (integration_Status integration != "disabled") in
  lastSeen ← foldl (last_seen_step (ToLower (integration_Name integration))) (Ok "never")
               (range findings).*2;
  Ok (zero_IntegrationHealth
    <| health_Name := integration_Name integration |>
    <| health_Type := integration_Type integration |>
    <| health_Enabled := integration_Enabled integration |>
    <| health_Status := integration_Status integration |>
    <| health_Health := if configured then "healthy" else "not_configured" |>
    <| health_DataLastSeen := lastSeen |>
    <| health_Permissions := integrationPermissions (integration_Name integration) |>
    <| health_SetupGaps := if configured then [] else
         ["Enable the Helm value for this integration and confirm its CRDs or event source are installed."] |>
    <| health_CheckedAt := now |>).

End Summaries.

(** * Identifiers *)

Definition safe_byte (c : Ascii.ascii) : Ascii.ascii :=
  if (byte_code c =? 32) || (byte_code c =? 95) || (byte_code c =? 47) then byte_of_code 45 else c.
Definition safeID (value : string) : string := Trim (string_map safe_byte (ToLower value)) "-".

Definition IdempotentPlanID (findingID requester key : string) : string :=
  let hash := sha256_hex (requester +:+ nul +:+ key +:+ nul +:+ findingID) in
  let prefix := safeID findingID in
  let prefix := if 36 <? len prefix then Trim (string_take 36 prefix) "-" else prefix in
  "plan-" +:+ prefix +:+ "-" +:+ string_take 12 hash.

Definition first (values : list string) : string := match values with v :: _ => v | [] => "" end.

(** * Lemmas *)

Definition seen_invariant {A} (key : A → string) (acc : gset string * list A) : Prop :=
  acc.1 = list_to_set (map key acc.2) ∧ NoDup (map key acc.2).

(** A pass that keeps the first element of every key. *)
Section FirstOfKey.
Context {A : Type} (key : A → string) (step : gset string * list A → A → gset string * list A).
Hypothesis step_eq : ∀ acc a,
  step acc a = if bool_decide (key a ∈ acc.1) then acc else ({[key a]} ∪ acc.1, acc.2 ++ [a]).

Lemma seen_step acc a : seen_invariant key acc → seen_invariant key (step acc a).
Proof using step_eq.
  intros [Hs Hd]. rewrite step_eq. case_bool_decide as Hin; [by split|].
  split; cbn; rewrite map_app; cbn.
  - rewrite list_to_set_app_L, Hs. set_solver.
  - apply NoDup_app. split_and!; [done | | apply NoDup_singleton].
    intros k Hk Hk'. apply list_elem_of_singleton in Hk'. subst k.
    apply Hin. rewrite Hs. by apply elem_of_list_to_set.
Qed.

Lemma seen_foldl acc l : seen_invariant key acc → seen_invariant key (foldl step acc l).
Proof using step_eq. intros Hacc. apply foldl_invariant; [done|]. intros. by apply seen_step. Qed.

Lemma foldl_first_sub acc l a : a ∈ (foldl step acc l).2 → a ∈ acc.2 ∨ a ∈ l.
Proof using step_eq.
  revert acc. induction l as [|b l IH]; intros acc; cbn; [by left|].
  intros [Hin|Hin]%IH; [|right; by right].
  rewrite step_eq in Hin. case_bool_decide; cbn in Hin; [by left|].
  apply elem_of_app in Hin as [?| ->%list_elem_of_singleton]; [by left | right; left].
Qed.

Lemma foldl_first_keys acc l k :
  seen_invariant key acc →
  k ∈ map key (foldl step acc l).2 ↔ k ∈ map key acc.2 ∨ k ∈ map key l.
Proof using step_eq.
  revert acc. induction l as [|b l IH]; intros acc Hacc; cbn; [set_solver|].
  rewrite IH by (by apply seen_step). rewrite elem_of_cons, step_eq. destruct Hacc as [Hs _].
  case_bool_decide as Hin; cbn.
  - rewrite Hs, elem_of_list_to_set in Hin. naive_solver.
  - rewrite map_app, elem_of_app. cbn. rewrite list_elem_of_singleton. tauto.
Qed.

End FirstOfKey.

Lemma seen_nil {A} (key : A → string) : seen_invariant key (∅, []).
Proof. split; [done | apply NoDup_nil_2]. Qed.

Lemma dedupeActions_spec actions :
  NoDup (map action_key (dedupeActions actions)) ∧
  (∀ a, a ∈ dedupeActions actions → a ∈ actions) ∧
  (∀ k, k ∈ map action_key (dedupeActions actions) ↔ k ∈ map action_key actions).
Proof.
  unfold dedupeActions. split_and!.
  - apply (seen_foldl action_key dedupe_step); [done | apply seen_nil].
  - intros a Ha. apply (foldl_first_sub action_key dedupe_step) in Ha as [Ha|Ha]; [|done..].
    by apply elem_of_nil in Ha.
  - intros k. rewrite (foldl_first_keys action_key dedupe_step) by (done || apply seen_nil).
    cbn. rewrite elem_of_nil. tauto.
Qed.

Lemma elem_of_append_if c a b actions : b ∈ append_if c a actions ↔ b ∈ actions ∨ (c = true ∧ b = a).
Proof.
  unfold append_if. destruct c; [|naive_solver]. rewrite elem_of_app, list_elem_of_singleton. naive_solver.
Qed.

(** The actions a finding that is not about a managed resource can lead to. *)
Inductive planned (finding : Finding) : TypedAction → Prop :=
| planned_governance : planned finding (governance_action (finding_target finding))
| planned_pod_security : planned finding (pod_security_action (finding_target finding))
| planned_probes : isWorkloadTarget (finding_target finding) = true →
    planned finding (probes_action (finding_target finding))
| planned_resources : isWorkloadTarget (finding_target finding) = true →
    planned finding (resources_action (finding_target finding))
| planned_pdb : isWorkloadTarget (finding_target finding) = true →
    planned finding (pdb_action (finding_target finding))
| planned_network : planned finding (network_policy_action (finding_target finding))
| planned_fallback : planned finding (fallback_action finding (finding_target finding)).

Lemma matched_planned finding a :
  a ∈ matched_actions (finding_text finding) (finding_target finding) → planned finding a.
Proof.
  unfold matched_actions. rewrite !elem_of_append_if, elem_of_nil.
  intros [[[[[[[]|[? ->]]|[? ->]]|[[? _]%andb_true_iff ->]]|[[? _]%andb_true_iff ->]]|
    [[? _]%andb_true_iff ->]]|[? ->]]; by constructor.
Qed.

(** Planned actions of different types have different keys. *)
Lemma pdb_key finding a :
  action_key (pdb_action (finding_target finding)) = action_key a → planned finding a →
  a = pdb_action (finding_target finding).
Proof.
  intros Hkey Hp. destruct Hp; try done; try discriminate Hkey.
  unfold fallback_action in Hkey. destruct (_ == _); discriminate Hkey.
Qed.

Lemma typedActions_planned finding a :
  a ∈ typedActionsForFinding finding →
  (is_managed_resource_finding finding = true ∧ a = review_action finding (finding_target finding)) ∨
  (is_managed_resource_finding finding = false ∧ planned finding a).
Proof.
  unfold typedActionsForFinding. destruct (is_managed_resource_finding finding).
  { intros ->%list_elem_of_singleton. by left. }
  intros Ha%dedupeActions_spec. right. split; [done|].
  destruct (matched_actions _ _) as [|b l] eqn:E.
  - apply list_elem_of_singleton in Ha as ->. constructor.
  - apply matched_planned. by rewrite E.
Qed.

Lemma typedActions_nonempty finding : typedActionsForFinding finding ≠ [].
Proof.
  unfold typedActionsForFinding. destruct (is_managed_resource_finding finding); [done|].
  set (l := match matched_actions _ _ with [] => _ | _ => _ end).
  assert (∃ k, k ∈ map action_key l) as [k Hk].
  { subst l. destruct (matched_actions _ _) as [|b l]; eexists; left. }
  intros Hnil. apply dedupeActions_spec in Hk. rewrite Hnil in Hk. by apply elem_of_nil in Hk.
Qed.

Definition needs_approval `{RangeOrder} (action : TypedAction) : bool :=
  match ValidateProposal (catalogAction action) with
  | Err _ => true
  | Ok definition => def_ApprovalRequired definition
  end.

Lemma approval_foldl `{RangeOrder} actions policy :
  let policy' := foldl approval_step policy actions in
  policy_Required policy' = policy_Required policy || existsb needs_approval actions ∧
  policy_Decision policy' =
    (if existsb needs_approval actions then ApprovalPending else policy_Decision policy) ∧
  policy_Categories policy' = policy_Categories policy ++ map action_Type actions.
Proof.
  revert policy. induction actions as [|a actions IH]; intros policy; cbn.
  { by rewrite orb_false_r, app_nil_r. }
  destruct (IH (approval_step policy a)) as (-> & -> & ->).
  unfold approval_step. fold (needs_approval a). destruct (needs_approval a); cbn.
  - rewrite orb_true_r, <- app_assoc. by destruct (existsb _ _).
  - by rewrite <- app_assoc.
Qed.

Lemma approvalPolicy_required `{RangeOrder} actions :
  policy_Required (approvalPolicyForActions actions) = existsb needs_approval actions.
Proof. exact (proj1 (approval_foldl actions _)). Qed.

Lemma ValidateProposal_Lookup `{RangeOrder} action d :
  ValidateProposal (catalogAction action) = Ok d → Lookup (action_Type action) = Some d.
Proof. apply (ValidateProposal_lookup (catalogAction action)). Qed.

(** Approval-free and tier A coincide in the catalog, for one action. *)
Lemma approval_free_entry t d : Lookup t = Some d →
  (def_ApprovalRequired d = false ↔ def_RiskTier d = RiskTierA) ∧
  (def_ApprovalRequired d = false → t = "apply_resource_governance") ∧
  1 ≤ risk_rank (def_RiskTier d).
Proof. intros H. catalog_cases H; vm_compute; naive_solver. Qed.

Lemma risk_rank_inj s t : 1 ≤ risk_rank s → risk_rank s = risk_rank t → s = t.
Proof.
  unfold risk_rank. repeat (case_match; split_guards; subst; try lia; try done).
Qed.

(** The tier of an action: that of its definition, D when it is invalid. *)
Definition action_tier `{RangeOrder} (action : TypedAction) : string :=
  match ValidateProposal (catalogAction action) with
  | Err _ => RiskTierD
  | Ok definition => def_RiskTier definition
  end.

Lemma action_tier_rank `{RangeOrder} a : 1 ≤ risk_rank (action_tier a) ≤ 4.
Proof.
  unfold action_tier. destruct (ValidateProposal _) as [d|] eqn:Hv; [|by vm_compute].
  apply ValidateProposal_Lookup in Hv. catalog_cases Hv; by vm_compute.
Qed.

Lemma risk_tier_loop_max `{RangeOrder} highest actions :
  1 ≤ risk_rank highest ≤ 4 →
  risk_rank (risk_tier_loop highest actions) =
    foldr Z.max (risk_rank highest) (map (λ a, risk_rank (action_tier a)) actions).
Proof.
  revert highest. induction actions as [|a actions IH]; intros highest Hh; cbn; [done|].
  assert (∀ x y l, foldr Z.max (Z.max x y) l = Z.max x (foldr Z.max y l)) as Hmax.
  { intros x y l. induction l; cbn; lia. }
  pose proof (action_tier_rank a) as Ha. unfold action_tier in *.
  destruct (ValidateProposal (catalogAction a)) as [d|] eqn:Hv.
  - rewrite IH by (case_match; lia).
    replace (risk_rank (if _ : bool then _ else _)) with
      (Z.max (risk_rank (def_RiskTier d)) (risk_rank highest)); [apply Hmax|].
    destruct (Z.ltb_spec (risk_rank highest) (risk_rank (def_RiskTier d))); lia.
  - change (risk_rank RiskTierD) with 4.
    assert (foldr Z.max (risk_rank highest) (map (λ a, risk_rank (action_tier a)) actions) ≤ 4); [|unfold action_tier in *; lia].
    clear -Hh. induction actions as [|b l IH]; cbn; [lia|]. pose proof (action_tier_rank b). lia.
Qed.

Lemma needs_approval_tier `{RangeOrder} a : needs_approval a = false ↔ action_tier a = RiskTierA.
Proof.
  unfold needs_approval, action_tier. destruct (ValidateProposal _) eqn:Hv; [|done].
  apply ValidateProposal_Lookup, approval_free_entry in Hv. tauto.
Qed.

Lemma risk_tier_bounds `{RangeOrder} actions :
  let tier := riskTierForActions actions in
  (∀ a, a ∈ actions → risk_rank (action_tier a) ≤ risk_rank tier) ∧
  (tier = RiskTierA ∨ ∃ a, a ∈ actions ∧ action_tier a = tier).
Proof.
  cbv zeta. unfold riskTierForActions.
  pose proof (risk_tier_loop_max RiskTierA actions) as Hmax. change (risk_rank RiskTierA) with 1 in Hmax.
  specialize (Hmax ltac:(lia)). set (t := risk_tier_loop RiskTierA actions) in *.
  destruct (foldr_max_spec 1 (map (λ a, risk_rank (action_tier a)) actions)) as (Hall & Hge & Hatt).
  rewrite <- Hmax in *. split.
  - intros a Ha. apply Hall. apply list_elem_of_fmap. by exists a.
  - destruct Hatt as [Heq|(a & Heq & Ha)%list_elem_of_fmap].
    + left. apply risk_rank_inj; [lia | done].
    + right. exists a. split; [done|]. symmetry. apply risk_rank_inj; [lia | done].
Qed.

Lemma risk_tier_A `{RangeOrder} actions :
  riskTierForActions actions = RiskTierA ↔ ∀ a, a ∈ actions → needs_approval a = false.
Proof.
  destruct (risk_tier_bounds actions) as [Hle Hatt]. split.
  - intros HA a Ha. apply needs_approval_tier. specialize (Hle a Ha). rewrite HA in Hle.
    pose proof (action_tier_rank a). change (risk_rank RiskTierA) with 1 in Hle.
    apply risk_rank_inj; [lia|]. change (risk_rank RiskTierA) with 1. lia.
  - intros Hall. destruct Hatt as [|(a & Ha & <-)]; [done|]. by apply needs_approval_tier, Hall.
Qed.

Lemma existsb_false {A} (f : A → bool) l : existsb f l = false ↔ ∀ x, x ∈ l → f x = false.
Proof.
  induction l as [|y l IH]; cbn; [split; [intros _ x Hx; by apply elem_of_nil in Hx | done]|].
  rewrite orb_false_iff, IH. setoid_rewrite elem_of_cons. naive_solver.
Qed.

Lemma NoDup_all_equal {A} (x : A) l : l ≠ [] → (∀ y, y ∈ l → y = x) → NoDup l → l = [x].
Proof.
  destruct l as [|y [|z l]]; intros Hne Hall Hnd; [done | f_equal; apply Hall; left|].
  exfalso. apply NoDup_cons in Hnd as [Hy _]. apply Hy.
  rewrite (Hall y), (Hall z); [left | right; left | left].
Qed.

(** * Properties *)

(** [typedActionsForFinding] plans at least one action, never the same action on the same target
    twice, and only actions of the catalog. A finding about a managed resource leads to the review
    action alone, and no finding to an action that runs directly but the four on its own namespace
    or workload: planned probes stay proposals. *)
Theorem typedActions_spec (finding : Finding) :
  let actions := typedActionsForFinding finding in
  let target := finding_target finding in
  actions ≠ [] ∧
  NoDup (map action_key actions) ∧
  (∀ a, a ∈ actions → is_Some (Lookup (action_Type a))) ∧
  (is_managed_resource_finding finding = true → actions = [review_action finding target]) ∧
  (∀ a, a ∈ actions → ExecutionModeFor (catalogAction a) = ModeDirect →
    a ∈ [governance_action target; pod_security_action target; resources_action target; pdb_action target]).
Proof.
  cbv zeta. split_and!.
  - apply typedActions_nonempty.
  - unfold typedActionsForFinding. destruct (is_managed_resource_finding finding).
    + apply NoDup_singleton.
    + apply dedupeActions_spec.
  - intros a [[_ ->]|[_ Hp]]%typedActions_planned; [by eexists|].
    destruct Hp; try (by eexists). cbn. destruct (_ == _); by eexists.
  - intros Hm. unfold typedActionsForFinding. by rewrite Hm.
  - intros a [[_ ->]|[_ Hp]]%typedActions_planned Hmode; [discriminate Hmode|].
    rewrite !elem_of_cons, elem_of_nil.
    destruct Hp; try (vm_compute in Hmode; discriminate Hmode); [tauto..|].
    unfold fallback_action in Hmode. destruct (_ == _); vm_compute in Hmode; discriminate Hmode.
Qed.

(** The tier of a list of actions is the highest of its actions' tiers, D as soon as one is invalid,
    and A for the empty list. *)
Theorem riskTierForActions_spec `{RangeOrder} (actions : list TypedAction) :
  let tier := riskTierForActions actions in
  (∀ a, a ∈ actions → risk_rank (action_tier a) ≤ risk_rank tier) ∧
  (tier = RiskTierA ∨ ∃ a, a ∈ actions ∧ action_tier a = tier) ∧
  ((∃ a, a ∈ actions ∧ is_ok (ValidateProposal (catalogAction a)) = false) → tier = RiskTierD).
Proof.
  cbv zeta. destruct (risk_tier_bounds actions) as [Hle Hatt].
  split_and!; [done..|].
  intros (a & Ha & Hinvalid). specialize (Hle a Ha). unfold action_tier in Hle.
  destruct (ValidateProposal (catalogAction a)); [done|]. change (risk_rank RiskTierD) with 4 in Hle.
  apply risk_rank_inj; [lia|]. change (risk_rank RiskTierD) with 4.
  destruct Hatt as [HA|(b & _ & Hb)].
  - rewrite HA in Hle. by vm_compute in Hle.
  - pose proof (action_tier_rank b) as Hrank. rewrite Hb in Hrank. lia.
Qed.

(** C21. A plan the planner builds skips approval exactly when its tier is A; then its decision is
    approved, and its only action is resource governance on a namespace, an action that is valid in
    the catalog and approval-free. Every other plan is pending approval. *)
Theorem plan_without_approval `{RangeOrder} (finding : Finding) (requester : string) (now : Time) (seq : Z) :
  let plan := buildRemediationPlan finding requester now seq in
  let policy := plan_ApprovalPolicy plan in
  (policy_Required policy = false ↔ plan_RiskTier plan = RiskTierA) ∧
  (policy_Required policy = false →
    policy_Decision policy = ApprovalApproved ∧
    plan_Actions plan = [governance_action (finding_target finding)] ∧
    is_ok (ValidateProposal (catalogAction (governance_action (finding_target finding)))) = true) ∧
  (policy_Required policy = true → policy_Decision policy = ApprovalPending).
Proof.
  cbv zeta. cbn [plan_ApprovalPolicy plan_RiskTier plan_Actions buildRemediationPlan].
  set (actions := typedActionsForFinding finding).
  change (plan_ApprovalPolicy (buildRemediationPlan finding requester now seq))
    with (approvalPolicyForActions actions).
  change (plan_RiskTier (buildRemediationPlan finding requester now seq)) with (riskTierForActions actions).
  change (plan_Actions (buildRemediationPlan finding requester now seq)) with actions.
  rewrite risk_tier_A, approvalPolicy_required, <- existsb_false.
  unfold approvalPolicyForActions.
  destruct (approval_foldl actions (zero_ApprovalPolicy <| policy_Decision := ApprovalApproved |>))
    as (_ & -> & _).
  split; [done|]. split; [|by intros ->]. intros Hfree. rewrite Hfree. split; [done|].
  assert (∀ a, a ∈ actions → a = governance_action (finding_target finding) ∧
    is_ok (ValidateProposal (catalogAction a)) = true) as Hall.
  { intros a Ha. assert (needs_approval a = false) as Hn by (by eapply existsb_false).
    unfold needs_approval in Hn. destruct (ValidateProposal (catalogAction a)) as [d|] eqn:Hv; [|done].
    split; [|done]. apply ValidateProposal_Lookup in Hv.
    destruct (approval_free_entry _ _ Hv) as (_ & Htype & _). specialize (Htype Hn).
    apply typedActions_planned in Ha as [[_ ->]|[_ Hp]]; [discriminate Htype|].
    destruct Hp; try done. unfold fallback_action in Htype. by destruct (_ == _). }
  pose proof (typedActions_nonempty finding) as Hne.
  assert (actions = [governance_action (finding_target finding)]) as Heq.
  { apply NoDup_all_equal; [done | naive_solver|].
    apply (NoDup_fmap_1 action_key). apply (typedActions_spec finding). }
  split; [done|]. apply Hall. rewrite Heq. left.
Qed.

(** A planned manifest announces a direct write exactly for a valid action that runs directly, apart
    from configured probes, which it still announces as a proposal; it then carries the catalog's
    tier and approval requirement. *)
Theorem plannedManifest_direct `{RangeOrder} (action : TypedAction) :
  let manifest := plannedManifest action in
  (HasPrefix (manifest_WriteMode manifest) "direct" = true ↔
    is_ok (ValidateProposal (catalogAction action)) = true ∧
    ExecutionModeFor (catalogAction action) = ModeDirect ∧
    action_Type action ≠ "patch_workload_probes") ∧
  (∀ d, ValidateProposal (catalogAction action) = Ok d →
    manifest_RiskTier manifest = def_RiskTier d ∧ manifest_ApprovalRequired manifest = def_ApprovalRequired d).
Proof.
  cbv zeta. unfold plannedManifest.
  destruct (ValidateProposal (catalogAction action)) as [d|e] eqn:Hv; [|split; [split; [done | naive_solver] | done]].
  split; [|by intros d' [= <-]].
  assert (Hl := ValidateProposal_Lookup _ _ Hv). clear Hv. unfold ExecutionModeFor.
  change (req_Type (catalogAction action)) with (action_Type action). rewrite Hl.
  apply Lookup_entry in Hl. unfold catalog_entries in Hl.
  destruct action as [type target description params]; cbn [action_Type action_Target] in *.
  destruct (param _ "configured" == "true") eqn:Hc;
    repeat (apply elem_of_cons in Hl as [Hl|Hl]; [simplify_eq; rewrite ?Hc; vm_compute; naive_solver|]);
    by apply elem_of_nil in Hl.
Qed.

(** ** Freshness of the evidence *)

Lemma latest_update_spec `{RangeOrder} (findings : gmap string Finding) :
  (∀ k f, findings !! k = Some f → finding_UpdatedAt f ≤ latest_update findings) ∧
  0 ≤ latest_update findings ∧
  (latest_update findings = 0 ∨ ∃ k f, findings !! k = Some f ∧ finding_UpdatedAt f = latest_update findings).
Proof.
  unfold latest_update. rewrite latest_by_max.
  destruct (foldr_max_spec 0 (map (λ kv, finding_UpdatedAt kv.2) (range findings))) as (Hall & Hge & Hatt).
  split_and!; [|done|].
  - intros k f Hk. apply Hall, list_elem_of_fmap. exists (k, f). by rewrite elem_of_range.
  - destruct Hatt as [|([k f] & Heq & Hin%elem_of_range)%list_elem_of_fmap]; [by left | right].
    exists k, f. by rewrite Heq.
Qed.

Lemma Sub_mono now t u : t ≤ u → Sub now u ≤ Sub now t.
Proof. unfold Sub. lia. Qed.

(** The evidence counts as fresh exactly when some finding was updated, at a set time, within the
    last fifteen minutes, whatever the order in which the findings are visited. *)
Theorem evidence_fresh_iff `{RangeOrder} (findings : gmap string Finding) (now : Time) :
  evidenceFreshness findings now = "fresh" ↔
  ∃ k f, findings !! k = Some f ∧ 0 < finding_UpdatedAt f ∧ Sub now (finding_UpdatedAt f) ≤ 15 * Minute.
Proof.
  unfold evidenceFreshness, IsZero. destruct (latest_update_spec findings) as (Hall & Hge & Hatt).
  destruct (Nat.eqb_spec (size findings) 0) as [Hsize|Hsize].
  { apply map_size_empty_iff in Hsize as ->. split; [done|]. intros (k & f & Hk & _). by rewrite lookup_empty in Hk. }
  destruct (Z.eqb_spec (latest_update findings) 0) as [Hz|Hz].
  { split; [done|]. intros (k & f & Hk & Hpos & _). specialize (Hall _ _ Hk). lia. }
  destruct Hatt as [|(k & f & Hk & Hf)]; [done|].
  destruct (Z.leb_spec (Sub now (latest_update findings)) (15 * Minute)) as [Hle|Hgt].
  { split; [|done]. intros _. exists k, f. rewrite Hf. split; [done|]. split; [lia | done]. }
  split; [by repeat case_match|]. intros (k' & f' & Hk' & _ & Hle).
  pose proof (Sub_mono now _ _ (Hall _ _ Hk')). lia.
Qed.

(** ** Plan identifiers *)

(** An idempotent plan ID has at most 54 bytes, whatever the finding, requester and key. *)
Theorem IdempotentPlanID_length (findingID requester key : string) :
  len (IdempotentPlanID findingID requester key) ≤ 54 ∧
  HasPrefix (IdempotentPlanID findingID requester key) "plan-" = true.
Proof.
  unfold IdempotentPlanID. split; [|apply prefix_app].
  set (prefix := safeID findingID). unfold len. rewrite !string_length_app.
  pose proof (string_take_length 12 (sha256_hex (requester +:+ nul +:+ key +:+ nul +:+ findingID))) as H12.
  enough (String.length (if (36 <? Z.of_nat (String.length prefix))%Z then Trim (string_take 36 prefix) "-" else prefix)
    ≤ 36)%nat by (change (String.length "plan-") with 5%nat; change (String.length "-") with 1%nat; lia).
  destruct (Z.ltb_spec 36 (Z.of_nat (String.length prefix))); [|lia].
  pose proof (trim_both_length (in_cutset "-") (string_take 36 prefix)).
  pose proof (string_take_length 36 prefix). unfold Trim. lia.
Qed.

(** ** Plans the catalog refuses *)

(** For a finding about a DaemonSet whose text mentions disruption, the planner adds a [create_pdb]
    action that the catalog does not support on DaemonSets: the action is invalid and the whole plan
    falls to tier D. *)
Theorem daemonset_pdb_invalid `{RangeOrder} (finding : Finding)
    (Hkind : ref_APIVersion (finding_target finding) = "apps/v1" ∧ ref_Kind (finding_target finding) = "DaemonSet")
    (Htext : Contains (finding_text finding) "disruption" = true)
    (Hordinary : is_managed_resource_finding finding = false) :
  let action := pdb_action (finding_target finding) in
  action ∈ typedActionsForFinding finding ∧
  ValidateProposal (catalogAction action) =
    Err (Errorf "action create_pdb does not support apps/v1 DaemonSet") ∧
  riskTierForActions (typedActionsForFinding finding) = RiskTierD.
Proof.
  cbv zeta. destruct Hkind as [Hapi Hkind].
  assert (ValidateProposal (catalogAction (pdb_action (finding_target finding))) =
    Err (Errorf "action create_pdb does not support apps/v1 DaemonSet")) as Hinvalid.
  { unfold ValidateProposal, catalogAction, pdb_action, workloadTarget. cbn [req_Type req_APIVersion req_Kind
      action_Type action_Target]. by rewrite Hapi, Hkind. }
  assert (isWorkloadTarget (finding_target finding) = true) as Hw.
  { unfold isWorkloadTarget. by rewrite Hapi, Hkind. }
  assert (pdb_action (finding_target finding) ∈ typedActionsForFinding finding) as Hin.
  { unfold typedActionsForFinding. rewrite Hordinary.
    assert (pdb_action (finding_target finding) ∈
      matched_actions (finding_text finding) (finding_target finding)) as Hm.
    { unfold matched_actions. rewrite !elem_of_append_if, Hw, Htext, !orb_true_r. naive_solver. }
    destruct (matched_actions _ _) as [|b l] eqn:E; [by apply elem_of_nil in Hm|]. rewrite <- E in *.
    destruct (dedupeActions_spec (matched_actions (finding_text finding) (finding_target finding)))
      as (_ & Hsub & Hkeys).
    assert (action_key (pdb_action (finding_target finding)) ∈
      map action_key (matched_actions (finding_text finding) (finding_target finding))) as Hk
      by (apply list_elem_of_fmap; eauto).
    apply Hkeys, list_elem_of_fmap in Hk as (a & Hka & Ha).
    pose proof (matched_planned _ _ (Hsub _ Ha)) as Hp. apply pdb_key in Hka; [by subst a | done]. }
  split_and!; [done..|].
  destruct (risk_tier_bounds (typedActionsForFinding finding)) as [Hle Hatt].
  specialize (Hle _ Hin). unfold action_tier at 1 in Hle. rewrite Hinvalid in Hle.
  destruct Hatt as [HA|(b & _ & Hb)]; [rewrite HA in Hle; by vm_compute in Hle|].
  pose proof (action_tier_rank b) as Hrank. rewrite Hb in Hrank.
  change (risk_rank RiskTierD) with 4 in Hle. apply risk_rank_inj; [lia|]. change (risk_rank RiskTierD) with 4. lia.
Qed.

Definition daemonset_finding : Finding :=
  zero_Finding
    <| finding_ID := "f-7" |>
    <| finding_Source := "kyverno" |>
    <| finding_Title := "No PodDisruptionBudget for node agent" |>
    <| finding_Resources := [mkResourceRef "apps/v1" "DaemonSet" "platform" "node-agent"] |>.

Lemma daemonset_pdb_invalid_witness :
  pdb_action (finding_target daemonset_finding) ∈ typedActionsForFinding daemonset_finding ∧
  @riskTierForActions canonical_order (typedActionsForFinding daemonset_finding) = RiskTierD.
Proof.
  destruct (daemonset_pdb_invalid (H := canonical_order) daemonset_finding) as (Hin & _ & Htier).
  - split; reflexivity.
  - vm_compute. reflexivity.
  - vm_compute. reflexivity.
  - exact (conj Hin Htier).
Defined.

Example plan_for_quota :
  let finding := zero_Finding <| finding_ID := "f-1" |> <| finding_Title := "Namespace lacks ResourceQuota" |>
    <| finding_Resources := [mkResourceRef "v1" "Namespace" "" "shop"] |> in
  let plan := @buildRemediationPlan canonical_order finding "ana" 0 4 in
  (plan_ID plan, plan_RiskTier plan, map action_Type (plan_Actions plan), plan_ApprovalPolicy plan) =
  ("plan-f-1-004", "A", ["apply_resource_governance"], mkApprovalPolicy false "approved" ["apply_resource_governance"]).
Proof. vm_compute. reflexivity. Qed.
