(* ===== verification/Store.v ===== *)
(** The repository of the control plane, [services/api/internal/store/store.go]: the state of the
    in-memory store and each operation of its [Repository] interface as a state transformer.

    An operation runs under the store's mutex, so it is one step. It takes its [context.Context]
    and the instant [now] that [s.clock().UTC()] reports during the step; [now] stays constant within
    it, as with the clocks injected by [WithClock]. Loops over maps follow the [RangeOrder]. Values are
    copied in and out of the state: callers that keep a returned slice share no memory with the model. *)
From S2P Require Import Prelude GoLib Core ActionCatalog Planner.

Local Open Scope Z_scope.

(** * State *)

Record FindingFilter := mkFindingFilter {
  filter_Severity : string;
  filter_Status : string;
  filter_Source : string;
  filter_Query : string;
  filter_Namespace : string;
  filter_Kind : string;
  filter_Fixability : string;
  filter_MinRisk : Z
}.
#[export] Instance eta_FindingFilter : Eta FindingFilter := λ r, mkFindingFilter (filter_Severity r)
    (filter_Status r) (filter_Source r) (filter_Query r) (filter_Namespace r) (filter_Kind r)
    (filter_Fixability r) (filter_MinRisk r).
Definition zero_FindingFilter : FindingFilter := mkFindingFilter "" "" "" "" "" "" "" 0.

Record MemoryStore := mkMemoryStore {
  ms_findings : gmap string Finding;
  ms_plans : gmap string RemediationPlan;
  ms_approvals : gmap string ApprovalRequest;
  ms_runs : gmap string RemediationRun;
  ms_chaosRuns : gmap string ChaosExperimentRun;
  ms_auditEvents : list AuditEvent;
  ms_integrations : list Integration;
  ms_modelSettings : ModelProviderSettings;
  ms_idempotency : gmap string string;
  ms_exceptions : gmap string Exception;
  ms_seq : Z
}.
#[export] Instance eta_MemoryStore : Eta MemoryStore := λ r, mkMemoryStore (ms_findings r) (ms_plans r)
    (ms_approvals r) (ms_runs r) (ms_chaosRuns r) (ms_auditEvents r) (ms_integrations r)
    (ms_modelSettings r) (ms_idempotency r) (ms_exceptions r) (ms_seq r).

Definition default_integrations : list Integration := [
  mkIntegration "Trivy Operator" "scanner" false "disabled";
  mkIntegration "Kyverno" "policy" false "disabled";
  mkIntegration "Kubescape" "scanner" false "disabled";
  mkIntegration "Falco" "runtime" false "disabled";
  mkIntegration "Tetragon" "runtime" false "disabled";
  mkIntegration "Chaos Mesh" "verification" false "disabled";
  mkIntegration "LitmusChaos" "verification" false "disabled"].

(** Options are functions on the store, applied in order. *)
Definition NewMemoryStore (options : list (MemoryStore → MemoryStore)) : MemoryStore :=
  foldl (λ s option, option s)
    (mkMemoryStore ∅ ∅ ∅ ∅ ∅ [] default_integrations (mkModelProviderSettings []) ∅ ∅ 0) options.

Definition WithIntegrations (integrations : list Integration) (s : MemoryStore) : MemoryStore :=
  s <| ms_integrations := integrations |>.

Definition WithFindings (findings : list Finding) (s : MemoryStore) : MemoryStore :=
  foldl (λ s finding, s <| ms_findings := <[finding_ID finding := finding]> (ms_findings s) |>) s findings.

(** * Pieces of the operations *)

(** [fmt.Errorf("%w: msg", ErrInvalid)] and the like. *)
Definition invalid (msg : string) : GoError := Wrapf ErrInvalid msg.
Definition conflict (msg : string) : GoError := Wrapf ErrConflict msg.

Definition set_finding (id : string) (finding : Finding) (s : MemoryStore) : MemoryStore :=
  s <| ms_findings := <[id := finding]> (ms_findings s) |>.
Definition set_plan (plan : RemediationPlan) (s : MemoryStore) : MemoryStore :=
  s <| ms_plans := <[plan_ID plan := plan]> (ms_plans s) |>.
Definition set_approval (approval : ApprovalRequest) (s : MemoryStore) : MemoryStore :=
  s <| ms_approvals := <[approval_ID approval := approval]> (ms_approvals s) |>.
Definition set_run (run : RemediationRun) (s : MemoryStore) : MemoryStore :=
  s <| ms_runs := <[run_ID run := run]> (ms_runs s) |>.
Definition set_chaos_run (run : ChaosExperimentRun) (s : MemoryStore) : MemoryStore :=
  s <| ms_chaosRuns := <[chaos_ID run := run]> (ms_chaosRuns s) |>.
Definition set_exception (id : string) (exception : Exception) (s : MemoryStore) : MemoryStore :=
  s <| ms_exceptions := <[id := exception]> (ms_exceptions s) |>.

Definition append_event (event : AuditEvent) (s : MemoryStore) : MemoryStore :=
  s <| ms_auditEvents := ms_auditEvents s ++ [event] |>.

(** An event numbered by the length of the log, [fmt.Sprintf("audit-%03d", len(s.auditEvents)+1)]. *)
Definition log_event (actor action subject message : string) (at_ : Time) (s : MemoryStore) : MemoryStore :=
  append_event (mkAuditEvent ("audit-" +:+ Itoa_padded 3 (Z.of_nat (length (ms_auditEvents s)) + 1))
    actor action subject message at_) s.

Definition exceptionMatches (exception : Exception) (finding : Finding) : bool :=
  (exception_Scope exception == finding_ID finding) ||
  (exception_Scope exception == finding_CorrelationGroup finding) ||
  (exception_Scope exception == "source:" +:+ finding_Source finding).

Definition active_exception (now : Time) (finding : Finding) (exception : Exception) : bool :=
  (exception_Status exception == "active") && After (exception_ExpiresAt exception) now &&
  exceptionMatches exception finding.

Definition LastObservedAt (finding : Finding) : Time :=
  let latest := latest_by evidence_ObservedAt 0 (finding_Evidence finding) in
  if IsZero latest then finding_CreatedAt finding else latest.

Definition matchesResourceFilter (finding : Finding) (namespace kind : string) : bool :=
  if (namespace == "") && (kind == "") then true
  else existsb (λ resource,
    let resourceNamespace := if ref_Kind resource == "Namespace" then ref_Name resource
                             else ref_Namespace resource in
    ((namespace == "") || (resourceNamespace == namespace)) &&
    ((kind == "") || (ref_Kind resource == kind))) (finding_Resources finding).

(** The tests a finding passes to be listed. *)
Definition matches_filter (filter : FindingFilter) (finding : Finding) : bool :=
  ((filter_Severity filter == "") || (finding_Severity finding == filter_Severity filter)) &&
  ((filter_Status filter == "") || (finding_Status finding == filter_Status filter)) &&
  ((filter_Source filter == "") || (finding_Source finding == filter_Source filter)) &&
  ((filter_Fixability filter == "") || (finding_Fixability finding == filter_Fixability filter)) &&
  negb ((0 <? filter_MinRisk filter) && (finding_RiskScore finding <? filter_MinRisk filter)) &&
  matchesResourceFilter finding (filter_Namespace filter) (filter_Kind filter) &&
  ((filter_Query filter == "") ||
   Contains (ToLower (finding_Title finding +:+ " " +:+ finding_BlastRadius finding +:+ " " +:+
                      finding_CorrelationGroup finding)) (ToLower (filter_Query filter))).

Definition finding_less (x y : Finding) : bool :=
  if finding_RiskScore x =? finding_RiskScore y then After (finding_UpdatedAt x) (finding_UpdatedAt y)
  else finding_RiskScore y <? finding_RiskScore x.

Definition audit_less (x y : AuditEvent) : bool :=
  if Equal (audit_CreatedAt x) (audit_CreatedAt y) then String.ltb (audit_ID y) (audit_ID x)
  else After (audit_CreatedAt x) (audit_CreatedAt y).

Section Operations.
Context `{RangeOrder}.
Variables (ctx : Context) (now : Time).

Notation op A := (M MemoryStore A).

(** * Exceptions *)

Definition hasActiveExceptionLocked (s : MemoryStore) (finding : Finding) : bool :=
  existsb (active_exception now finding) (range (ms_exceptions s)).*2.

Definition expire_exception (s : MemoryStore) (entry : string * Exception) : MemoryStore :=
  let (id, exception) := entry in
  if (exception_Status exception == "active") && negb (After (exception_ExpiresAt exception) now) then
    log_event "system" "exception.expired" id "Exception expiration elapsed" now
      (set_exception id (exception <| exception_Status := "expired" |> <| exception_UpdatedAt := now |>) s)
  else s.

Definition reopen_finding (s : MemoryStore) (entry : string * Finding) : MemoryStore :=
  let (id, finding) := entry in
  if (finding_Status finding == FindingSuppressed) && negb (hasActiveExceptionLocked s finding) then
    set_finding id (finding <| finding_Status := FindingOpen |> <| finding_UpdatedAt := now |>) s
  else s.

Definition expireExceptionsLocked (s : MemoryStore) : MemoryStore :=
  let s := foldl expire_exception s (range (ms_exceptions s)) in
  foldl reopen_finding s (range (ms_findings s)).

(** * Reads *)

Definition Health : op unit := check_ctx ctx.

Definition count_in (key : string) (m : gmap string Z) : gmap string Z :=
  <[key := default 0 (m !! key) + 1]> m.
(** [if cond { counter++ }] *)
Definition count_if (cond : bool) (n : Z) : Z := if cond then n + 1 else n.

(** The loop over findings of [Dashboard]: the dashboard, [scoreTotal] and [namespaces]. *)
Definition dashboard_finding (acc : Dashboard * Z * gset string) (finding : Finding) :
    Dashboard * Z * gset string :=
  let '(d, scoreTotal, namespaces) := acc in
  (d <| dashboard_TotalFindings := dashboard_TotalFindings d + 1 |>
     <| dashboard_FindingsBySeverity := count_in (finding_Severity finding) (dashboard_FindingsBySeverity d) |>
     <| dashboard_FindingsBySource := count_in (finding_Source finding) (dashboard_FindingsBySource d) |>
     <| dashboard_RemediationByState := count_in (finding_RemediationState finding) (dashboard_RemediationByState d) |>
     <| dashboard_OpenCritical := count_if ((finding_Severity finding == SeverityCritical) &&
          (finding_Status finding != FindingResolved) && (finding_Status finding != FindingSuppressed))
          (dashboard_OpenCritical d) |>
     <| dashboard_ActiveRemediations := count_if (finding_Status finding == FindingRemediating)
          (dashboard_ActiveRemediations d) |>
     <| dashboard_FindingsWithSafeFix := count_if ((finding_Fixability finding == FixabilityDeterministic) ||
          (finding_Fixability finding == FixabilityGated)) (dashboard_FindingsWithSafeFix d) |>
     <| dashboard_RiskReduced := if finding_Status finding == FindingResolved
          then wrap64 (dashboard_RiskReduced d + finding_RiskScore finding) else dashboard_RiskReduced d |>,
   wrap64 (scoreTotal + finding_RiskScore finding),
   foldl (λ ns r, if ref_Namespace r != "" then {[ref_Namespace r]} ∪ ns else ns)
     namespaces (finding_Resources finding)).

Definition count_matching {A} (p : A → bool) (l : list A) : Z :=
  foldl (λ n x, count_if (p x) n) 0 l.

Definition build_dashboard (s : MemoryStore) : Dashboard :=
  let start := zero_Dashboard <| dashboard_ProtectedNamespaces := 4 |>
    <| dashboard_BundledEnginesOnline := count_matching
         (λ i, integration_Enabled i && (integration_Status i != "disabled")) (ms_integrations s) |> in
  let '(d, scoreTotal, namespaces) := foldl dashboard_finding (start, 0, ∅) (range (ms_findings s)).*2 in
  d <| dashboard_VerifiedRemediations := count_matching (λ r, run_State r == RunSucceeded)
         (range (ms_runs s)).*2 |>
    <| dashboard_PendingApprovals := count_matching
         (λ a, (approval_Status a == ApprovalPending) && After (approval_ExpiresAt a) now)
         (range (ms_approvals s)).*2 |>
    <| dashboard_MeanRiskScore := if 0 <? dashboard_TotalFindings d
         then float64_div (float64_of_int scoreTotal) (float64_of_int (dashboard_TotalFindings d))
         else dashboard_MeanRiskScore d |>
    <| dashboard_EvidenceFreshness := evidenceFreshness (ms_findings s) now |>
    <| dashboard_ProtectedNamespaces := if dashboard_ProtectedNamespaces d <? Z.of_nat (size namespaces)
         then Z.of_nat (size namespaces) else dashboard_ProtectedNamespaces d |>.

Definition GetDashboard : op Dashboard :=
  check_ctx ctx;;
  modify expireExceptionsLocked;;
  s ← get_state;
  mret (build_dashboard s).

Definition ListFindings (filter : FindingFilter) : op (list Finding) :=
  check_ctx ctx;;
  modify expireExceptionsLocked;;
  s ← get_state;
  mret (sort_slice finding_less (List.filter (matches_filter filter) (range (ms_findings s)).*2)).

Definition GetFinding (id : string) : op Finding :=
  check_ctx ctx;;
  s ← get_state;
  lookup_or (ms_findings s !! id) ErrNotFound.

Definition PreviewRemediationPlan (findingID requester : string) : op RemediationPreview :=
  check_ctx ctx;;
  s ← get_state;
  finding ← lookup_or (ms_findings s !! findingID) ErrNotFound;
  let plan := (buildRemediationPlan finding requester now 0) <| plan_ID := "preview-" +:+ finding_ID finding |> in
  mret (buildRemediationPreview finding plan now).

Definition GetRemediationPlan (id : string) : op RemediationPlan :=
  check_ctx ctx;;
  s ← get_state;
  lookup_or (ms_plans s !! id) ErrNotFound.

Definition GetRemediationPlanDiff (id : string) : op RemediationDiff :=
  plan ← GetRemediationPlan id;
  mret (buildRemediationDiff plan).

Definition GetRemediationRun (id : string) : op RemediationRun :=
  check_ctx ctx;;
  s ← get_state;
  lookup_or (ms_runs s !! id) ErrNotFound.

Definition ListExceptions : op (list Exception) :=
  check_ctx ctx;;
  modify expireExceptionsLocked;;
  s ← get_state;
  mret (sort_slice (λ x y, After (exception_CreatedAt x) (exception_CreatedAt y)) (range (ms_exceptions s)).*2).

Definition ListAuditEvents : op (list AuditEvent) :=
  check_ctx ctx;;
  s ← get_state;
  mret (sort_slice audit_less (ms_auditEvents s)).

Definition GetChaosRun (id : string) : op ChaosExperimentRun :=
  check_ctx ctx;;
  s ← get_state;
  lookup_or (ms_chaosRuns s !! id) ErrNotFound.

Definition ListChaosRuns : op (list ChaosExperimentRun) :=
  check_ctx ctx;;
  s ← get_state;
  mret (sort_slice (λ x y, After (chaos_CreatedAt x) (chaos_CreatedAt y)) (range (ms_chaosRuns s)).*2).

Definition ListIntegrations : op (list Integration) :=
  check_ctx ctx;;
  s ← get_state;
  mret (ms_integrations s).

Definition IntegrationHealth_op (name : string) : op IntegrationHealth :=
  check_ctx ctx;;
  s ← get_state;
  match List.find (λ i, EqualFold (integration_Name i) name ||
                        EqualFold (safeID (integration_Name i)) (safeID name)) (ms_integrations s) with
  | Some integration => lift_result (buildIntegrationHealth integration (ms_findings s) now)
  | None => fail ErrNotFound
  end.

Definition GetModelProviders : op ModelProviderSettings :=
  check_ctx ctx;;
  s ← get_state;
  mret (ms_modelSettings s).

(** The five selections of [EvidenceBundle], then the sorting. *)
Definition build_bundle (scope : string) (s : MemoryStore) : EvidenceBundle :=
  let all := scope == "all" in
  let findings := List.filter (scopeMatchesFinding scope) (range (ms_findings s)).*2 in
  let plans := List.filter (λ p, all || (scope == plan_ID p) || (scope == plan_FindingID p) ||
    hasFinding findings (plan_FindingID p)) (range (ms_plans s)).*2 in
  let runs := List.filter (λ r, all || (scope == run_ID r) || (scope == run_PlanID r) ||
    hasPlan plans (run_PlanID r)) (range (ms_runs s)).*2 in
  let chaosRuns := List.filter (λ r, all || (scope == chaos_ID r) || (scope == chaos_ExperimentID r))
    (range (ms_chaosRuns s)).*2 in
  let events := List.filter (λ e, all || (audit_Subject e == scope) || hasPlan plans (audit_Subject e) ||
    hasRun runs (audit_Subject e)) (ms_auditEvents s) in
  let count {A} (l : list A) := Z.of_nat (length l) in
  mkEvidenceBundle scope now
    (list_to_map [("findings", count findings); ("plans", count plans); ("runs", count runs);
                  ("chaosRuns", count chaosRuns); ("auditEvents", count events)])
    (sort_slice (λ x y, finding_RiskScore y <? finding_RiskScore x) findings)
    (sort_slice (λ x y, After (plan_CreatedAt x) (plan_CreatedAt y)) plans)
    (sort_slice (λ x y, After (run_UpdatedAt x) (run_UpdatedAt y)) runs)
    (sort_slice (λ x y, After (chaos_UpdatedAt x) (chaos_UpdatedAt y)) chaosRuns)
    (sort_slice (λ x y, After (audit_CreatedAt x) (audit_CreatedAt y)) events).

Definition bundle_empty (bundle : EvidenceBundle) : bool :=
  match bundle_Findings bundle, bundle_Plans bundle, bundle_Runs bundle, bundle_ChaosRuns bundle,
        bundle_AuditEvents bundle with
  | [], [], [], [], [] => true
  | _, _, _, _, _ => false
  end.

Definition EvidenceBundle_op (scope : string) : op EvidenceBundle :=
  check_ctx ctx;;
  s ← get_state;
  let scope := if scope == "" then "all" else scope in
  let bundle := build_bundle scope s in
  reject_if (bundle_empty bundle && (scope != "all")) ErrNotFound;;
  mret bundle.

(** * Remediation plans *)

(** The stored effects of a new plan: the plan, its pending approval when one is required, its run,
    and the audit event. *)
Definition new_approval (plan : RemediationPlan) (requester : string) : ApprovalRequest :=
  zero_ApprovalRequest
    <| approval_ID := "approval-" +:+ plan_ID plan |>
    <| approval_SubjectRef := plan_ID plan |>
    <| approval_RequestedAction := action_Description (primaryAction plan) |>
    <| approval_Requester := requester |>
    <| approval_Status := ApprovalPending |>
    <| approval_ExpiresAt := Add now (24 * Hour) |>
    <| approval_CreatedAt := now |>
    <| approval_UpdatedAt := now |>.

Definition new_run (plan : RemediationPlan) : RemediationRun :=
  let runState := if policy_Required (plan_ApprovalPolicy plan) then RunPendingApproval else RunPrepared in
  mkRemediationRun ("run-" +:+ plan_ID plan) (plan_ID plan) runState
    (actionStatuses (plan_Actions plan) runState "typed action created; no arbitrary command execution path exists")
    "server-side dry-run has not been performed"
    "pre-change snapshot will be captured by remediator before write" now now.

Definition store_new_plan (plan : RemediationPlan) (findingID requester : string) (s : MemoryStore) :
    MemoryStore :=
  let s := set_plan plan s in
  let s := if policy_Required (plan_ApprovalPolicy plan) then set_approval (new_approval plan requester) s
           else s in
  let s := set_run (new_run plan) s in
  log_event requester "remediation.plan.created" (plan_ID plan)
    ("Created typed remediation plan for " +:+ findingID) now s.

Definition createRemediationPlanLocked (finding : Finding) (requester idempotencyKey : string) :
    op RemediationPlan :=
  reject_if (requester == "") (invalid "authenticated requester is required");;
  s ← get_state;
  match (if idempotencyKey != "" then ms_idempotency s !! (requester +:+ "|" +:+ idempotencyKey) else None) with
  | Some planID =>
      match ms_plans s !! planID with
      | Some plan =>
          reject_if (plan_FindingID plan != finding_ID finding)
            (conflict "idempotency key was used for a different request");;
          mret plan
      | None => fail (conflict "idempotency key was used for a different request")
      end
  | None =>
      let seq := ms_seq s + 1 in
      modify (λ s, s <| ms_seq := seq |>);;
      let plan := buildRemediationPlan finding requester now seq in
      plan ← (if idempotencyKey != "" then
                let plan := plan <| plan_ID := IdempotentPlanID (finding_ID finding) requester idempotencyKey |> in
                modify (λ s, s <| ms_idempotency :=
                  <[requester +:+ "|" +:+ idempotencyKey := plan_ID plan]> (ms_idempotency s) |>);;
                mret plan
              else mret plan);
      modify (store_new_plan plan (finding_ID finding) requester);;
      mret plan
  end.

Definition CreateRemediationPlan (findingID requester : string) (idempotencyKey : list string) :
    op RemediationPlan :=
  check_ctx ctx;;
  s ← get_state;
  finding ← lookup_or (ms_findings s !! findingID) ErrNotFound;
  createRemediationPlanLocked finding requester (first idempotencyKey).

Definition CreateRemediationPlanFromFinding (finding : Finding) (requester : string)
    (idempotencyKey : list string) : op RemediationPlan :=
  check_ctx ctx;;
  reject_if (finding_ID finding == "") (invalid "finding id is required");;
  s ← get_state;
  finding ← match ms_findings s !! finding_ID finding with
            | Some existing => mret existing
            | None => modify (set_finding (finding_ID finding) finding);; mret finding
            end;
  createRemediationPlanLocked finding requester (first idempotencyKey).

Definition SyncRemediationPlan (plan : RemediationPlan) : op unit :=
  check_ctx ctx;;
  reject_if ((plan_ID plan == "") || (plan_FindingID plan == "")) (invalid "plan id and finding id are required");;
  s ← get_state;
  lookup_or (ms_plans s !! plan_ID plan) ErrNotFound;;
  modify (set_plan plan).

(** The effects of an accepted execution request. *)
Definition execution_requested_plan (plan : RemediationPlan) : RemediationPlan :=
  plan <| plan_Status := "execution_requested" |>
       <| plan_DryRunResult := mkDryRunResult false "execution requested; waiting for controller server-side dry-run" |>.

Definition ExecuteRemediationPlan (id actor : string) : op RemediationRun :=
  check_ctx ctx;;
  reject_if (actor == "") (invalid "authenticated actor is required");;
  s ← get_state;
  plan ← lookup_or (ms_plans s !! id) ErrNotFound;
  reject_if (policy_Required (plan_ApprovalPolicy plan) &&
             (policy_Decision (plan_ApprovalPolicy plan) != ApprovalApproved))
    (invalid "approval is still required");;
  reject_if (plan_Status plan == "rejected") (invalid "rejected plan cannot be executed");;
  let plan := execution_requested_plan plan in
  modify (set_plan plan);;
  let runID := "run-" +:+ plan_ID plan in
  let run := default (zero_RemediationRun <| run_ID := runID |> <| run_PlanID := plan_ID plan |>
                        <| run_CreatedAt := now |>) (ms_runs s !! runID) in
  let run := run
    <| run_State := RunExecutionRequested |>
    <| run_UpdatedAt := now |>
    <| run_ValidationResult := "execution requested; controller validation has not completed" |>
    <| run_RollbackMetadata := "pre-change snapshots are required before mutating actions" |>
    <| run_ActionStatuses := actionStatuses (plan_Actions plan) "execution_requested"
         "waiting for typed operator reconciliation" |> in
  modify (set_run run);;
  match ms_findings s !! plan_FindingID plan with
  | Some finding =>
      modify (set_finding (finding_ID finding) (finding
        <| finding_Status := FindingRemediating |>
        <| finding_RemediationState := "execution_requested" |>
        <| finding_UpdatedAt := now |>))
  | None => mret tt
  end;;
  modify (log_event actor "remediation.execution.requested" (plan_ID plan)
    "Execution requested for typed remediation plan" now);;
  mret run.

(** [plan.Status = string(run.State)], with the dry-run result the operator reports. *)
Definition plan_of_run (run : RemediationRun) (plan : RemediationPlan) : RemediationPlan :=
  let plan := plan <| plan_Status := run_State run |> in
  if (run_State run == RunDryRunPassed) || (run_State run == RunVerifying) || (run_State run == RunSucceeded)
  then plan <| plan_DryRunResult := mkDryRunResult true (run_ValidationResult run) |>
  else plan.

Definition SyncRemediationRun (run : RemediationRun) : op unit :=
  check_ctx ctx;;
  modify (set_run run);;
  s ← get_state;
  match ms_plans s !! run_PlanID run with
  | Some plan => modify (set_plan (plan_of_run run plan))
  | None => mret tt
  end.

Definition RequestRollback (runID actor : string) : op RemediationRun :=
  check_ctx ctx;;
  reject_if (actor == "") (invalid "authenticated actor is required");;
  s ← get_state;
  run ← lookup_or (ms_runs s !! runID) ErrNotFound;
  let run := run
    <| run_State := RunRollbackRequested |>
    <| run_ValidationResult := "rollback requested; waiting for Kubernetes controller status" |>
    <| run_UpdatedAt := now |> in
  modify (set_run run);;
  match ms_plans s !! run_PlanID run with
  | Some plan => modify (set_plan (plan <| plan_Status := "rollback_requested" |>))
  | None => mret tt
  end;;
  modify (log_event actor "remediation.rollback.requested" (run_ID run)
    "Rollback requested for remediation run" now);;
  mret run.

(** ** Approvals *)

Definition decided_plan (status : string) (plan : RemediationPlan) : RemediationPlan :=
  if status == ApprovalApproved then
    plan <| plan_Status := "approved" |>
         <| plan_ApprovalPolicy := (plan_ApprovalPolicy plan) <| policy_Decision := ApprovalApproved |> |>
         <| plan_DryRunResult := mkDryRunResult false "approval recorded; server-side dry-run has not yet been performed" |>
  else
    plan <| plan_Status := "rejected" |>
         <| plan_ApprovalPolicy := (plan_ApprovalPolicy plan) <| policy_Decision := ApprovalRejected |> |>
         <| plan_DryRunResult := mkDryRunResult false "approval rejected; no controller action will be attempted" |>.

Definition decided_run (status : string) (run : RemediationRun) : RemediationRun :=
  let run := run <| run_UpdatedAt := now |> in
  if status == ApprovalApproved then
    run <| run_State := RunApproved |>
        <| run_ValidationResult := "approved; execution and server-side dry-run have not been requested" |>
        <| run_ActionStatuses := map (λ a, a <| actionStatus_State := "approved" |>
             <| actionStatus_Message := "approved; no cluster write or dry-run has occurred" |>)
             (run_ActionStatuses run) |>
  else
    run <| run_State := RunFailed |>
        <| run_ValidationResult := "approval rejected" |>
        <| run_ActionStatuses := map (λ a, a <| actionStatus_State := "rejected" |>
             <| actionStatus_Message := "rejected by approver; no cluster write attempted" |>)
             (run_ActionStatuses run) |>.

Definition decided_finding (status : string) (finding : Finding) : Finding :=
  finding <| finding_UpdatedAt := now |> <| finding_Status := FindingInReview |>
    <| finding_RemediationState := if status == ApprovalApproved then "approval_granted" else "rejected" |>.

Definition decide (approvalID actor reason status : string) : op ApprovalRequest :=
  check_ctx ctx;;
  s ← get_state;
  approval ← lookup_or (ms_approvals s !! approvalID) ErrNotFound;
  reject_if (approval_Status approval != ApprovalPending)
    (invalid ("approval is already " +:+ approval_Status approval));;
  reject_if (actor == "") (invalid "authenticated actor is required");;
  let approval := approval
    <| approval_Status := status |>
    <| approval_Approver := actor |>
    <| approval_DecisionReason := reason |>
    <| approval_UpdatedAt := now |> in
  modify (set_approval approval);;
  let plan := ms_plans s !! approval_SubjectRef approval in
  match plan with
  | Some plan => modify (set_plan (decided_plan status plan))
  | None => mret tt
  end;;
  match ms_runs s !! ("run-" +:+ approval_SubjectRef approval) with
  | Some run => modify (set_run (decided_run status run))
  | None => mret tt
  end;;
  match plan with
  | Some plan =>
      match ms_findings s !! plan_FindingID plan with
      | Some finding => modify (set_finding (finding_ID finding) (decided_finding status finding))
      | None => mret tt
      end
  | None => mret tt
  end;;
  modify (log_event actor (if status == ApprovalRejected then "approval.rejected" else "approval.approved")
    (approval_SubjectRef approval) reason now);;
  mret approval.

Definition Approve (approvalID actor reason : string) : op ApprovalRequest :=
  decide approvalID actor reason ApprovalApproved.
Definition Reject (approvalID actor reason : string) : op ApprovalRequest :=
  decide approvalID actor reason ApprovalRejected.

(** * Findings *)

(** What a scan result takes over from the stored finding. *)
Definition merge_finding (existing finding : Finding) : Finding :=
  let finding :=
    if (finding_Status finding == FindingOpen) &&
       ((finding_Status existing == FindingInReview) || (finding_Status existing == FindingSuppressed) ||
        (finding_Status existing == FindingRemediating) || (finding_Status existing == FindingResolved))
    then finding <| finding_Status := finding_Status existing |>
                 <| finding_RemediationState := finding_RemediationState existing |>
    else finding in
  if negb (IsZero (finding_CreatedAt existing)) &&
     (IsZero (finding_CreatedAt finding) || Before (finding_CreatedAt existing) (finding_CreatedAt finding))
  then finding <| finding_CreatedAt := finding_CreatedAt existing |>
  else finding.

Definition suppress_by (finding : Finding) (exception : Exception) : Finding :=
  if active_exception now finding exception then finding <| finding_Status := FindingSuppressed |> else finding.

Definition SyncFinding (finding : Finding) : op unit :=
  check_ctx ctx;;
  s ← get_state;
  let finding := match ms_findings s !! finding_ID finding with
                 | Some existing => merge_finding existing finding
                 | None => finding
                 end in
  let finding := foldl suppress_by finding (range (ms_exceptions s)).*2 in
  modify (set_finding (finding_ID finding) finding).

Definition expire_finding (observedBefore : Time) (s : MemoryStore) (entry : string * Finding) :
    MemoryStore :=
  let (id, finding) := entry in
  let observedAt := LastObservedAt finding in
  if (finding_Status finding != FindingOpen) && (finding_Status finding != FindingInReview) then s
  else if IsZero observedAt || negb (Before observedAt observedBefore) then s
  else
    log_event "system" "finding.expired" id "Finding evidence exceeded the configured freshness window" now
      (set_finding id (finding <| finding_Status := FindingExpired |>
         <| finding_RemediationState := "evidence_expired" |> <| finding_UpdatedAt := now |>) s).

Definition ExpireFindings (observedBefore : Time) : op unit :=
  check_ctx ctx;;
  modify (λ s, foldl (expire_finding observedBefore) s (range (ms_findings s))).

Definition UpdateFindingStatus (id status actor reason : string) : op Finding :=
  check_ctx ctx;;
  reject_if ((actor == "") || (TrimSpace reason == "")) (invalid "actor and reason are required");;
  reject_if ((status != FindingOpen) && (status != FindingInReview))
    (invalid "only open and in_review are manual lifecycle transitions");;
  s ← get_state;
  finding ← lookup_or (ms_findings s !! id) ErrNotFound;
  reject_if ((finding_Status finding == FindingResolved) || (finding_Status finding == FindingRemediating))
    (conflict "cluster-backed lifecycle state cannot be changed manually");;
  let finding := finding <| finding_Status := status |> <| finding_UpdatedAt := now |> in
  modify (set_finding id finding);;
  modify (log_event actor "finding.status.changed" id reason now);;
  mret finding.

Definition suppress_finding (exception : Exception) (s : MemoryStore) (entry : string * Finding) :
    MemoryStore :=
  let (id, finding) := entry in
  if exceptionMatches exception finding then
    set_finding id (finding <| finding_Status := FindingSuppressed |> <| finding_UpdatedAt := now |>) s
  else s.

Definition CreateException (exception : Exception) (actor : string) : op Exception :=
  check_ctx ctx;;
  reject_if ((actor == "") || (TrimSpace (exception_Scope exception) == "") ||
             (TrimSpace (exception_Reason exception) == ""))
    (invalid "scope, reason, and authenticated actor are required");;
  reject_if (negb (After (exception_ExpiresAt exception) now) ||
             After (exception_ExpiresAt exception) (Add now (365 * 24 * Hour)))
    (invalid "expiration must be in the future and no more than 365 days");;
  s ← get_state;
  let seq := ms_seq s + 1 in
  modify (λ s, s <| ms_seq := seq |>);;
  let exception := exception
    <| exception_ID := "exception-" +:+ Itoa (Unix now) +:+ "-" +:+ Itoa_padded 3 seq |>
    <| exception_Owner := actor |> <| exception_Status := "active" |>
    <| exception_AuditMetadata := "created by authenticated API request" |>
    <| exception_CreatedAt := now |> <| exception_UpdatedAt := now |> in
  modify (set_exception (exception_ID exception) exception);;
  modify (λ s, foldl (suppress_finding exception) s (range (ms_findings s)));;
  modify (log_event actor "exception.created" (exception_ID exception) (exception_Reason exception) now);;
  mret exception.

Definition reopen_matching (exception : Exception) (s : MemoryStore) (entry : string * Finding) :
    MemoryStore :=
  if exceptionMatches exception entry.2 then reopen_finding s entry else s.

Definition DeleteException (id actor : string) : op unit :=
  check_ctx ctx;;
  s ← get_state;
  exception ← lookup_or (ms_exceptions s !! id) ErrNotFound;
  modify (λ s, s <| ms_exceptions := delete id (ms_exceptions s) |>);;
  modify (λ s, foldl (reopen_matching exception) s (range (ms_findings s)));;
  modify (log_event actor "exception.deleted" id "Exception removed" now).

(** * Audit log *)

Definition RecordAuditEvent (event : AuditEvent) : op unit :=
  check_ctx ctx;;
  reject_if ((TrimSpace (audit_Actor event) == "") || (TrimSpace (audit_Action event) == "") ||
             (TrimSpace (audit_Subject event) == ""))
    (invalid "audit actor, action, and subject are required");;
  let event := if IsZero (audit_CreatedAt event) then event <| audit_CreatedAt := now |> else event in
  s ← get_state;
  let seq := ms_seq s + 1 in
  event ← (if audit_ID event == "" then
             modify (λ s, s <| ms_seq := seq |>);;
             mret (event <| audit_ID := "audit-" +:+ Itoa_padded 6 seq |>)
           else mret event);
  modify (append_event event).

(** * Chaos runs *)

Definition appendChaosAuditLocked (run : ChaosExperimentRun) (actor action : string) (s : MemoryStore) :
    MemoryStore :=
  if action == "" then s
  else
    let seq := ms_seq s + 1 in
    append_event (mkAuditEvent ("audit-chaos-" +:+ Itoa_padded 6 seq) actor action (chaos_ID run)
      (chaos_Message run) (chaos_UpdatedAt run)) (s <| ms_seq := seq |>).

Definition CreateChaosRun (run : ChaosExperimentRun) (actor auditAction : string) : op ChaosExperimentRun :=
  check_ctx ctx;;
  reject_if ((chaos_ID run == "") || negb (chaos_Version run =? 0))
    (invalid "new chaos run must have an id and version zero");;
  s ← get_state;
  reject_if (bool_decide (is_Some (ms_chaosRuns s !! chaos_ID run))) ErrConflict;;
  let run := run <| chaos_Version := 1 |> in
  modify (set_chaos_run run);;
  modify (appendChaosAuditLocked run actor auditAction);;
  mret run.

Definition UpdateChaosRun (run : ChaosExperimentRun) (expectedVersion : Z) (actor auditAction : string) :
    op ChaosExperimentRun :=
  check_ctx ctx;;
  s ← get_state;
  current ← lookup_or (ms_chaosRuns s !! chaos_ID run) ErrNotFound;
  reject_if (negb (chaos_Version current =? expectedVersion) || negb (chaos_Version run =? expectedVersion))
    ErrConflict;;
  let run := run <| chaos_Version := chaos_Version run + 1 |> in
  modify (set_chaos_run run);;
  modify (appendChaosAuditLocked run actor auditAction);;
  mret run.

(** * Model providers *)

Fixpoint provider_error (providers : list ModelProvider) : option GoError :=
  match providers with
  | [] => None
  | provider :: rest =>
      if (provider_Name provider == "") || (provider_Type provider == "") || (provider_Model provider == "")
      then Some (invalid "provider name, type, and model are required")
      else match provider_APIKeySecretRef provider, provider_ExternalSecretRef provider with
           | None, None => Some (invalid "model provider must use apiKeySecretRef or externalSecretRef")
           | _, _ => provider_error rest
           end
  end.

Definition SaveModelProviders (settings : ModelProviderSettings) : op ModelProviderSettings :=
  check_ctx ctx;;
  match provider_error (settings_Providers settings) with
  | Some e => fail e
  | None => modify (λ s, s <| ms_modelSettings := settings |>);; mret settings
  end.

End Operations.

(** * The repository interface: one call of [Repository] *)

Inductive StoreCall :=
| CallHealth
| CallDashboard
| CallListFindings (filter : FindingFilter)
| CallGetFinding (id : string)
| CallPreviewRemediationPlan (findingID requester : string)
| CallCreateRemediationPlan (findingID requester : string) (idempotencyKey : list string)
| CallCreateRemediationPlanFromFinding (finding : Finding) (requester : string) (idempotencyKey : list string)
| CallGetRemediationPlan (id : string)
| CallSyncRemediationPlan (plan : RemediationPlan)
| CallGetRemediationPlanDiff (id : string)
| CallExecuteRemediationPlan (id actor : string)
| CallRequestRollback (runID actor : string)
| CallGetRemediationRun (id : string)
| CallSyncFinding (finding : Finding)
| CallExpireFindings (observedBefore : Time)
| CallSyncRemediationRun (run : RemediationRun)
| CallUpdateFindingStatus (id status actor reason : string)
| CallListExceptions
| CallCreateException (exception : Exception) (actor : string)
| CallDeleteException (id actor : string)
| CallApprove (approvalID actor reason : string)
| CallReject (approvalID actor reason : string)
| CallListAuditEvents
| CallRecordAuditEvent (event : AuditEvent)
| CallCreateChaosRun (run : ChaosExperimentRun) (actor auditAction : string)
| CallGetChaosRun (id : string)
| CallListChaosRuns
| CallUpdateChaosRun (run : ChaosExperimentRun) (expectedVersion : Z) (actor auditAction : string)
| CallEvidenceBundle (scope : string)
| CallListIntegrations
| CallIntegrationHealth (name : string)
| CallGetModelProviders
| CallSaveModelProviders (settings : ModelProviderSettings).

(** The operation of a call, its answer reduced to success or failure. *)
Definition perform `{RangeOrder} (ctx : Context) (now : Time) (call : StoreCall) : M MemoryStore unit :=
  match call with
  | CallHealth => Health ctx
  | CallDashboard => GetDashboard ctx now;; mret tt
  | CallListFindings filter => ListFindings ctx now filter;; mret tt
  | CallGetFinding id => GetFinding ctx id;; mret tt
  | CallPreviewRemediationPlan findingID requester =>
      PreviewRemediationPlan ctx now findingID requester;; mret tt
  | CallCreateRemediationPlan findingID requester key =>
      CreateRemediationPlan ctx now findingID requester key;; mret tt
  | CallCreateRemediationPlanFromFinding finding requester key =>
      CreateRemediationPlanFromFinding ctx now finding requester key;; mret tt
  | CallGetRemediationPlan id => GetRemediationPlan ctx id;; mret tt
  | CallSyncRemediationPlan plan => SyncRemediationPlan ctx plan
  | CallGetRemediationPlanDiff id => GetRemediationPlanDiff ctx id;; mret tt
  | CallExecuteRemediationPlan id actor => ExecuteRemediationPlan ctx now id actor;; mret tt
  | CallRequestRollback runID actor => RequestRollback ctx now runID actor;; mret tt
  | CallGetRemediationRun id => GetRemediationRun ctx id;; mret tt
  | CallSyncFinding finding => SyncFinding ctx now finding
  | CallExpireFindings observedBefore => ExpireFindings ctx now observedBefore
  | CallSyncRemediationRun run => SyncRemediationRun ctx run
  | CallUpdateFindingStatus id status actor reason =>
      UpdateFindingStatus ctx now id status actor reason;; mret tt
  | CallListExceptions => ListExceptions ctx now;; mret tt
  | CallCreateException exception actor => CreateException ctx now exception actor;; mret tt
  | CallDeleteException id actor => DeleteException ctx now id actor
  | CallApprove approvalID actor reason => Approve ctx now approvalID actor reason;; mret tt
  | CallReject approvalID actor reason => Reject ctx now approvalID actor reason;; mret tt
  | CallListAuditEvents => ListAuditEvents ctx;; mret tt
  | CallRecordAuditEvent event => RecordAuditEvent ctx now event
  | CallCreateChaosRun run actor auditAction => CreateChaosRun ctx run actor auditAction;; mret tt
  | CallGetChaosRun id => GetChaosRun ctx id;; mret tt
  | CallListChaosRuns => ListChaosRuns ctx;; mret tt
  | CallUpdateChaosRun run expectedVersion actor auditAction =>
      UpdateChaosRun ctx run expectedVersion actor auditAction;; mret tt
  | CallEvidenceBundle scope => EvidenceBundle_op ctx now scope;; mret tt
  | CallListIntegrations => ListIntegrations ctx;; mret tt
  | CallIntegrationHealth name => IntegrationHealth_op ctx now name;; mret tt
  | CallGetModelProviders => GetModelProviders ctx;; mret tt
  | CallSaveModelProviders settings => SaveModelProviders ctx settings;; mret tt
  end.

(** The states and the successful calls so far of a store that starts with some integrations and
    findings; each call sees its own context and clock. *)
Inductive reachable `{RangeOrder} : MemoryStore → list StoreCall → Prop :=
| reachable_init integrations findings :
    reachable (NewMemoryStore [WithIntegrations integrations; WithFindings findings]) []
| reachable_call s history ctx now call r s' :
    reachable s history →
    perform ctx now call s = (r, s') →
    reachable s' (if is_ok r then history ++ [call] else history).
