(* ===== verification/StoreProps.v ===== *)
(** The invariants of the store: what every state reachable through the operations of [Store.v]
    satisfies, whatever the order of map iteration, the contexts and the clock. *)
From S2P Require Import Prelude GoLib Core ActionCatalog Planner Store.

Local Open Scope Z_scope.

#[global] Arguments set_finding : simpl never.
#[global] Arguments set_plan : simpl never.
#[global] Arguments set_approval : simpl never.
#[global] Arguments set_run : simpl never.
#[global] Arguments set_chaos_run : simpl never.
#[global] Arguments set_exception : simpl never.
#[global] Arguments append_event : simpl never.
#[global] Arguments log_event : simpl never.

(** * Well-formed records *)

Definition approval_ok (approval : ApprovalRequest) : Prop :=
  approval_ID approval = "approval-" +:+ approval_SubjectRef approval ∧
  approval_Status approval ∈ [ApprovalPending; ApprovalApproved; ApprovalRejected] ∧
  (approval_Status approval ≠ ApprovalPending → approval_Approver approval ≠ "").

Definition exception_ok (exception : Exception) : Prop :=
  exception_Owner exception ≠ "" ∧
  exception_Status exception ∈ ["active"; "expired"] ∧
  exception_CreatedAt exception < exception_ExpiresAt exception ≤ exception_CreatedAt exception + 365 * 24 * Hour.

Definition chaos_ok (run : ChaosExperimentRun) : Prop := chaos_ID run ≠ "" ∧ 1 ≤ chaos_Version run.

(** A model provider is named and takes its API key from a secret reference. *)
Definition provider_ok (provider : ModelProvider) : Prop :=
  provider_Name provider ≠ "" ∧ provider_Type provider ≠ "" ∧ provider_Model provider ≠ "" ∧
  (provider_APIKeySecretRef provider ≠ None ∨ provider_ExternalSecretRef provider ≠ None).

(** Every map is keyed by the identifiers of its values, and the values are well formed. *)
Record store_inv (s : MemoryStore) : Prop := {
  inv_findings : ∀ k f, ms_findings s !! k = Some f → finding_ID f = k;
  inv_plans : ∀ k p, ms_plans s !! k = Some p → plan_ID p = k;
  inv_approvals : ∀ k a, ms_approvals s !! k = Some a → approval_ID a = k ∧ approval_ok a;
  inv_runs : ∀ k r, ms_runs s !! k = Some r → run_ID r = k;
  inv_chaosRuns : ∀ k r, ms_chaosRuns s !! k = Some r → chaos_ID r = k ∧ chaos_ok r;
  inv_exceptions : ∀ k e, ms_exceptions s !! k = Some e → exception_ID e = k ∧ exception_ok e;
  inv_providers : Forall provider_ok (settings_Providers (ms_modelSettings s))
}.

(** A property of all entries of a map is kept by an insertion. *)
Lemma map_all_insert {A} (P : string → A → Prop) (m : gmap string A) k a :
  (∀ k' a', m !! k' = Some a' → P k' a') → P k a → ∀ k' a', <[k := a]> m !! k' = Some a' → P k' a'.
Proof. intros Hm Ha k' a'. destruct (base.decide (k = k')) as [<-|]; simplify_map_eq; naive_solver. Qed.

Create HintDb store discriminated.

Section Invariant.
Implicit Types s : MemoryStore.

Lemma inv_set_finding s k f : store_inv s → finding_ID f = k → store_inv (set_finding k f s).
Proof. intros [] ?. constructor; try assumption. by apply map_all_insert. Qed.
Lemma inv_set_plan s p : store_inv s → store_inv (set_plan p s).
Proof. intros []. constructor; try assumption. by apply (map_all_insert (λ k p, plan_ID p = k)). Qed.
Lemma inv_set_approval s a : store_inv s → approval_ok a → store_inv (set_approval a s).
Proof.
  intros [] ?. constructor; try assumption.
  by apply (map_all_insert (λ k a, approval_ID a = k ∧ approval_ok a)).
Qed.
Lemma inv_set_run s r : store_inv s → store_inv (set_run r s).
Proof. intros []. constructor; try assumption. by apply (map_all_insert (λ k r, run_ID r = k)). Qed.
Lemma inv_set_chaos_run s r : store_inv s → chaos_ok r → store_inv (set_chaos_run r s).
Proof.
  intros [] ?. constructor; try assumption.
  by apply (map_all_insert (λ k r, chaos_ID r = k ∧ chaos_ok r)).
Qed.
Lemma inv_set_exception s k e :
  store_inv s → exception_ID e = k → exception_ok e → store_inv (set_exception k e s).
Proof.
  intros [] ? ?. constructor; try assumption.
  by apply (map_all_insert (λ k e, exception_ID e = k ∧ exception_ok e)).
Qed.
Lemma inv_append_event s e : store_inv s → store_inv (append_event e s).
Proof. by intros []. Qed.
Lemma inv_log_event s actor action subject message t :
  store_inv s → store_inv (log_event actor action subject message t s).
Proof. apply inv_append_event. Qed.
Lemma inv_seq s n : store_inv s → store_inv (s <| ms_seq := n |>).
Proof. by intros []. Qed.
Lemma inv_idempotency s m : store_inv s → store_inv (s <| ms_idempotency := m |>).
Proof. by intros []. Qed.
Lemma inv_modelSettings s m :
  store_inv s → Forall provider_ok (settings_Providers m) → store_inv (s <| ms_modelSettings := m |>).
Proof. by intros []. Qed.
Lemma inv_delete_exception s k :
  store_inv s → store_inv (s <| ms_exceptions := delete k (ms_exceptions s) |>).
Proof.
  intros [????? He ?]. constructor; try assumption. cbn. intros k' e [_ Hk]%lookup_delete_Some. by apply He.
Qed.

End Invariant.

#[export] Hint Resolve inv_set_finding inv_set_plan inv_set_approval inv_set_run inv_set_chaos_run
  inv_set_exception inv_append_event inv_log_event inv_seq inv_idempotency inv_modelSettings
  inv_delete_exception : store.

(** * The operations keep the invariant *)

Section Preservation.
Context `{RangeOrder}.
Variables (ctx : Context) (now : Time).

(** A loop over the entries of a map that writes through elementary updates. *)
Lemma inv_loop {A} (m : gmap string A) (f : MemoryStore → string * A → MemoryStore) s :
  store_inv s →
  (∀ s k a, m !! k = Some a → store_inv s → store_inv (f s (k, a))) →
  store_inv (foldl f s (range m)).
Proof.
  intros Hs Hf. apply foldl_invariant; [done|]. intros s' [k a] Hin Hs'. apply Hf; [|done].
  by apply elem_of_range.
Qed.

Lemma inv_expire_exceptions s : store_inv s → store_inv (expireExceptionsLocked now s).
Proof.
  intros Hs. unfold expireExceptionsLocked. apply inv_loop.
  - apply inv_loop; [done|]. intros s' k e Hk Hs'. cbn. case_match; [|done].
    destruct (inv_exceptions _ Hs _ _ Hk) as [Hid (Ho & _ & Ht)].
    apply inv_log_event, inv_set_exception; [done | exact Hid |]. split; [done|]. split; [set_solver | done].
  - intros s' k f Hk Hs'. cbn. case_match; [|done]. apply inv_set_finding; [done|].
    assert (Hi : ms_findings (foldl (expire_exception now) s (range (ms_exceptions s))) = ms_findings s).
    { apply (foldl_invariant (λ s', ms_findings s' = ms_findings s)); [done|].
      intros s'' [k' e'] _ Heq. cbn. by case_match. }
    rewrite Hi in Hk. exact (inv_findings _ Hs _ _ Hk).
Qed.

Lemma approval_ok_new plan requester : approval_ok (new_approval now plan requester).
Proof. split; [done|]. split; [set_solver | done]. Qed.

Lemma inv_store_new_plan plan findingID requester s :
  store_inv s → store_inv (store_new_plan now plan findingID requester s).
Proof.
  intros Hs. unfold store_new_plan. apply inv_log_event, inv_set_run.
  case_match; auto using approval_ok_new with store.
Qed.

Lemma inv_finding_at s k f f' : store_inv s → ms_findings s !! k = Some f → finding_ID f' = finding_ID f →
  finding_ID f' = k.
Proof. intros Hs Hk ->. by apply (inv_findings _ Hs). Qed.

Lemma inv_suppress_loop e s :
  store_inv s → store_inv (foldl (suppress_finding now e) s (range (ms_findings s))).
Proof.
  intros Hs. apply inv_loop; [done|]. intros s' k f Hk Hs'. cbn. case_match; [|done].
  apply inv_set_finding; [done|]. exact (inv_findings _ Hs _ _ Hk).
Qed.

Lemma inv_reopen_loop e s :
  store_inv s → store_inv (foldl (reopen_matching now e) s (range (ms_findings s))).
Proof.
  intros Hs. apply inv_loop; [done|]. intros s' k f Hk Hs'. unfold reopen_matching, reopen_finding.
  repeat (case_match; [|done]). apply inv_set_finding; [done|]. simplify_eq. exact (inv_findings _ Hs _ _ Hk).
Qed.

Lemma inv_expire_loop observedBefore s :
  store_inv s → store_inv (foldl (expire_finding now observedBefore) s (range (ms_findings s))).
Proof.
  intros Hs. apply inv_loop; [done|]. intros s' k f Hk Hs'. cbn. repeat (case_match; [done|]).
  apply inv_log_event, inv_set_finding; [done|]. exact (inv_findings _ Hs _ _ Hk).
Qed.

Lemma inv_appendChaosAudit run actor action s :
  store_inv s → store_inv (appendChaosAuditLocked run actor action s).
Proof. intros Hs. unfold appendChaosAuditLocked. case_match; auto with store. Qed.

Lemma suppress_by_ID f l : finding_ID (foldl (suppress_by now) f l) = finding_ID f.
Proof. revert f. induction l as [|e l IH]; intros f; cbn; [done|]. rewrite IH. unfold suppress_by. by case_match. Qed.

#[local] Hint Resolve inv_expire_exceptions inv_store_new_plan inv_suppress_loop inv_reopen_loop
  inv_expire_loop inv_appendChaosAudit approval_ok_new : store.

Ltac keep_invariant :=
  intros s Hs; apply run_state; intros r s' Hrun; run_hyp Hrun; eauto 12 with store.

Lemma inv_createLocked finding requester key :
  preserves store_inv (createRemediationPlanLocked now finding requester key).
Proof. unfold createRemediationPlanLocked. keep_invariant. Qed.

Lemma inv_after {A} (m : M MemoryStore A) s r s' : preserves store_inv m → m s = (r, s') → store_inv s → store_inv s'.
Proof. intros Hm Hrun Hs. specialize (Hm s Hs). by rewrite Hrun in Hm. Qed.

Lemma inv_CreateRemediationPlan findingID requester key :
  preserves store_inv (CreateRemediationPlan ctx now findingID requester key).
Proof. unfold CreateRemediationPlan. keep_invariant. eapply inv_after; [apply inv_createLocked | done..]. Qed.

Lemma inv_CreateRemediationPlanFromFinding finding requester key :
  preserves store_inv (CreateRemediationPlanFromFinding ctx now finding requester key).
Proof.
  unfold CreateRemediationPlanFromFinding. keep_invariant; eapply inv_after; eauto using inv_createLocked with store.
Qed.

Lemma inv_SyncRemediationPlan plan : preserves store_inv (SyncRemediationPlan ctx plan).
Proof. unfold SyncRemediationPlan. keep_invariant. Qed.

Lemma inv_ExecuteRemediationPlan id actor : preserves store_inv (ExecuteRemediationPlan ctx now id actor).
Proof. unfold ExecuteRemediationPlan. keep_invariant. Qed.

Lemma inv_SyncRemediationRun run : preserves store_inv (SyncRemediationRun ctx run).
Proof. unfold SyncRemediationRun. keep_invariant. Qed.

Lemma inv_RequestRollback runID actor : preserves store_inv (RequestRollback ctx now runID actor).
Proof. unfold RequestRollback. keep_invariant. Qed.

Lemma approval_ok_decided s k a status actor reason :
  store_inv s → ms_approvals s !! k = Some a → status ∈ [ApprovalApproved; ApprovalRejected] → actor ≠ "" →
  approval_ok (a <| approval_Status := status |> <| approval_Approver := actor |>
    <| approval_DecisionReason := reason |> <| approval_UpdatedAt := now |>).
Proof.
  intros Hs Hk Hstatus Hactor. destruct (inv_approvals _ Hs _ _ Hk) as [_ (Hid & _)].
  split; [done|]. split; [set_solver | done].
Qed.

Lemma inv_decide id actor reason status :
  status ∈ [ApprovalApproved; ApprovalRejected] → preserves store_inv (decide ctx now id actor reason status).
Proof.
  intros Hstatus. unfold decide. pose proof approval_ok_decided. keep_invariant.
Qed.

Lemma inv_SyncFinding finding : preserves store_inv (SyncFinding ctx now finding).
Proof. unfold SyncFinding. keep_invariant. Qed.

Lemma inv_ExpireFindings observedBefore : preserves store_inv (ExpireFindings ctx now observedBefore).
Proof. unfold ExpireFindings. keep_invariant. Qed.

Lemma inv_UpdateFindingStatus id status actor reason :
  preserves store_inv (UpdateFindingStatus ctx now id status actor reason).
Proof.
  unfold UpdateFindingStatus. keep_invariant.
  apply inv_log_event, inv_set_finding; [done|]. exact (inv_findings _ Hs _ _ Htest2).
Qed.

Lemma inv_CreateException e actor : preserves store_inv (CreateException ctx now e actor).
Proof.
  unfold CreateException. keep_invariant.
  apply inv_log_event, inv_suppress_loop, inv_set_exception; [by auto with store | done |].
  split; [done|]. split; [set_solver|]. cbn. unfold Add in *. lia.
Qed.

Lemma inv_DeleteException id actor : preserves store_inv (DeleteException ctx now id actor).
Proof. unfold DeleteException. keep_invariant. Qed.

Lemma inv_RecordAuditEvent event : preserves store_inv (RecordAuditEvent ctx now event).
Proof. unfold RecordAuditEvent. keep_invariant. Qed.

Lemma inv_CreateChaosRun run actor action : preserves store_inv (CreateChaosRun ctx run actor action).
Proof.
  unfold CreateChaosRun. keep_invariant. apply inv_appendChaosAudit, inv_set_chaos_run; [done|].
  split; [done | cbn; lia].
Qed.

Lemma inv_UpdateChaosRun run v actor action : preserves store_inv (UpdateChaosRun ctx run v actor action).
Proof.
  unfold UpdateChaosRun. keep_invariant. apply inv_appendChaosAudit, inv_set_chaos_run; [done|].
  destruct (inv_chaosRuns _ Hs _ _ Htest0) as [Hid [Hne Hv]]. split; cbn; [congruence | lia].
Qed.

Lemma provider_error_none providers : provider_error providers = None → Forall provider_ok providers.
Proof.
  induction providers as [|p providers IH]; cbn; [by constructor|].
  destruct (_ || _ || _)%bool eqn:Hnames; [done|]. split_guards.
  destruct (provider_APIKeySecretRef p) eqn:Hk, (provider_ExternalSecretRef p) eqn:He; intros Hrest;
    try discriminate Hrest; constructor; try by apply IH.
  all: split; [done|]; split; [done|]; split; [done|]; rewrite ?Hk, ?He; naive_solver.
Qed.

Lemma inv_SaveModelProviders settings : preserves store_inv (SaveModelProviders ctx settings).
Proof.
  unfold SaveModelProviders. keep_invariant. apply inv_modelSettings; [done|]. by apply provider_error_none.
Qed.

Lemma inv_GetDashboard : preserves store_inv (GetDashboard ctx now).
Proof. unfold GetDashboard. keep_invariant. Qed.
Lemma inv_ListFindings filter : preserves store_inv (ListFindings ctx now filter).
Proof. unfold ListFindings. keep_invariant. Qed.
Lemma inv_ListExceptions : preserves store_inv (ListExceptions ctx now).
Proof. unfold ListExceptions. keep_invariant. Qed.

End Preservation.

(** * Reads leave the store unchanged *)

Definition pure_read {A} (m : M MemoryStore A) : Prop := ∀ s, (m s).2 = s.

Lemma then_ret {S A} (m : M S A) s : ((m;; mret tt) s).2 = (m s).2.
Proof. unfold mbind, M_bind. by destruct (m s) as [[] ?]. Qed.

Section Reads.
Context `{RangeOrder}.
Variables (ctx : Context) (now : Time).

Ltac read_only := intros s; apply (run_state (λ s', s' = s)); intros r s' Hrun; run_hyp Hrun; try done.

Lemma read_Health : pure_read (Health ctx).
Proof. unfold Health. read_only. Qed.
Lemma read_GetFinding id : pure_read (GetFinding ctx id).
Proof. unfold GetFinding. read_only. Qed.
Lemma read_PreviewRemediationPlan findingID requester : pure_read (PreviewRemediationPlan ctx now findingID requester).
Proof. unfold PreviewRemediationPlan. read_only. Qed.
Lemma read_GetRemediationPlan id : pure_read (GetRemediationPlan ctx id).
Proof. unfold GetRemediationPlan. read_only. Qed.
Lemma read_GetRemediationPlanDiff id : pure_read (GetRemediationPlanDiff ctx id).
Proof. unfold GetRemediationPlanDiff, GetRemediationPlan. read_only. Qed.
Lemma read_GetRemediationRun id : pure_read (GetRemediationRun ctx id).
Proof. unfold GetRemediationRun. read_only. Qed.
Lemma read_ListAuditEvents : pure_read (ListAuditEvents ctx).
Proof. unfold ListAuditEvents. read_only. Qed.
Lemma read_GetChaosRun id : pure_read (GetChaosRun ctx id).
Proof. unfold GetChaosRun. read_only. Qed.
Lemma read_ListChaosRuns : pure_read (ListChaosRuns ctx).
Proof. unfold ListChaosRuns. read_only. Qed.
Lemma read_EvidenceBundle_op scope : pure_read (EvidenceBundle_op ctx now scope).
Proof. unfold EvidenceBundle_op. read_only. Qed.
Lemma read_ListIntegrations : pure_read (ListIntegrations ctx).
Proof. unfold ListIntegrations. read_only. Qed.
Lemma read_IntegrationHealth_op name : pure_read (IntegrationHealth_op ctx now name).
Proof. unfold IntegrationHealth_op, lift_result. read_only. Qed.
Lemma read_GetModelProviders : pure_read (GetModelProviders ctx).
Proof. unfold GetModelProviders. read_only. Qed.

End Reads.

#[export] Hint Resolve read_Health read_GetFinding read_PreviewRemediationPlan read_GetRemediationPlan
  read_GetRemediationPlanDiff read_GetRemediationRun read_ListAuditEvents read_GetChaosRun
  read_ListChaosRuns read_EvidenceBundle_op read_ListIntegrations read_IntegrationHealth_op
  read_GetModelProviders : store.

#[export] Hint Resolve inv_CreateRemediationPlan inv_CreateRemediationPlanFromFinding
  inv_SyncRemediationPlan inv_ExecuteRemediationPlan inv_SyncRemediationRun inv_RequestRollback
  inv_SyncFinding inv_ExpireFindings inv_UpdateFindingStatus inv_CreateException inv_DeleteException
  inv_RecordAuditEvent inv_CreateChaosRun inv_UpdateChaosRun inv_SaveModelProviders inv_GetDashboard
  inv_ListFindings inv_ListExceptions : store.

(** * Every call, every reachable state *)

Section Reachable.
Context `{RangeOrder}.

Lemma preserves_then {A} P (m : M MemoryStore A) : preserves P m → preserves P (m;; mret tt).
Proof. intros Hm s Hs. rewrite then_ret. by apply Hm. Qed.

Lemma preserves_read {A} P (m : M MemoryStore A) : pure_read m → preserves P m.
Proof. intros Hm s Hs. by rewrite Hm. Qed.

#[local] Hint Resolve preserves_then preserves_read | 5 : store.

Lemma inv_perform ctx now call : preserves store_inv (perform ctx now call).
Proof.
  destruct call; cbn [perform]; try (auto with store; fail).
  all: apply preserves_then, inv_decide; set_solver.
Qed.

Lemma inv_init integrations findings :
  store_inv (NewMemoryStore [WithIntegrations integrations; WithFindings findings]).
Proof.
  unfold NewMemoryStore, WithFindings. cbn [foldl].
  apply foldl_invariant; [|by intros; apply inv_set_finding].
  split; cbn; try (intros k v; by rewrite lookup_empty). by constructor.
Qed.

Lemma store_inv_of_reachable s history : reachable s history → store_inv s.
Proof.
  induction 1 as [|s history ctx now call r s' _ IH Hrun]; [apply inv_init|].
  by eapply inv_after; [apply (inv_perform ctx now call)|..].
Qed.

(** C12. Every state the store can reach, through any calls, successful or not, keeps its maps keyed by
    identifiers; each approval answers for one plan, is pending, approved or rejected, and names its
    approver once decided; each exception has an owner and lasts at most 365 days; each chaos run has
    a positive version; each model provider takes its key from a secret reference. *)
Theorem reachable_store_inv (s : MemoryStore) (history : list StoreCall) (Hreach : reachable s history) :
  store_inv s.
Proof. by eapply store_inv_of_reachable. Qed.

End Reachable.
