(* ===== verification/StoreTrace.v ===== *)
(** Histories of the store: which elementary writes each operation is made of, and what follows for
    every sequence of calls. The audit log only grows, and a plan whose approval is required is
    executed only after a successful [Approve] of its approval request. *)
From S2P Require Import Prelude GoLib Core ActionCatalog Planner Store StoreProps.

Local Open Scope Z_scope.

(** * Elementary writes

    A plan is rewritten with the policy it had, created with a policy that is pending when approval is
    required, or, where [decisions] allows it, written freely; an approval is requested, or decided
    where [decisions] allows it. Where [reuse] does not allow otherwise, what is created has an id that
    was not taken. *)
Inductive plan_write (decisions reuse : Prop) (s : MemoryStore) (p : RemediationPlan) : Prop :=
| write_same p0 :
    ms_plans s !! plan_ID p = Some p0 → plan_ApprovalPolicy p = plan_ApprovalPolicy p0 →
    plan_write decisions reuse s p
| write_new :
    (policy_Required (plan_ApprovalPolicy p) = true →
     policy_Decision (plan_ApprovalPolicy p) = ApprovalPending) →
    reuse ∨ ms_plans s !! plan_ID p = None → plan_write decisions reuse s p
| write_any : decisions → plan_write decisions reuse s p.

Inductive approval_write (decisions reuse : Prop) (s : MemoryStore) (a : ApprovalRequest) : Prop :=
| write_request : reuse ∨ ms_approvals s !! approval_ID a = None → approval_write decisions reuse s a
| write_decision : decisions → approval_write decisions reuse s a.

(** A property of states that every elementary write keeps, writes of chaos runs where [chaos] allows
    them. *)
Class Stable (decisions reuse chaos : Prop) (P : MemoryStore → Prop) : Prop := {
  stable_finding s k f : P s → P (set_finding k f s);
  stable_plan s p : plan_write decisions reuse s p → P s → P (set_plan p s);
  stable_approval s a : approval_write decisions reuse s a → P s → P (set_approval a s);
  stable_run s r : P s → P (set_run r s);
  stable_chaos_run s r : chaos → P s → P (set_chaos_run r s);
  stable_exception s k e : P s → P (set_exception k e s);
  stable_delete_exception s k : P s → P (s <| ms_exceptions := delete k (ms_exceptions s) |>);
  stable_event s e : P s → P (append_event e s);
  stable_seq s n : ms_seq s ≤ n → P s → P (s <| ms_seq := n |>);
  stable_idempotency s m : P s → P (s <| ms_idempotency := m |>);
  stable_model s m : P s → P (s <| ms_modelSettings := m |>)
}.

(** Peels the elementary writes off a state. *)
Ltac stable :=
  repeat match goal with
  | |- ?P (set_finding _ _ _) => eapply stable_finding
  | |- ?P (set_approval _ _) => eapply stable_approval
  | |- ?P (set_run _ _) => eapply stable_run
  | |- ?P (set_chaos_run _ _) => eapply stable_chaos_run; [assumption|]
  | |- ?P (set_exception _ _ _) => eapply stable_exception
  | |- ?P (log_event _ _ _ _ _ _) => eapply stable_event
  | |- ?P (append_event _ _) => eapply stable_event
  | |- ?P (set_field (proj := ms_exceptions) _ _) => eapply stable_delete_exception
  | |- ?P (set_field (proj := ms_seq) _ _) => eapply stable_seq; [cbn; lia|]
  | |- ?P (set_field (proj := ms_idempotency) _ _) => eapply stable_idempotency
  | |- ?P (set_field (proj := ms_modelSettings) _ _) => eapply stable_model
  | |- ?P (set_plan _ _) => eapply stable_plan
  end; try assumption.

Section Calls.
Context `{RangeOrder}.

(** The id of a plan that is created, which is a sequence number or a hash. *)
Definition new_plan_ID (s : MemoryStore) (finding : Finding) (requester key : string) : string :=
  if key != "" then IdempotentPlanID (finding_ID finding) requester key
  else plan_ID (buildRemediationPlan finding requester 0 (ms_seq s + 1)).

(** A request that creates a plan, no earlier one having used its idempotency key, gives it an id that is
    not taken. *)
Definition fresh_id (s : MemoryStore) (finding : Finding) (requester key : string) : Prop :=
  (if key != "" then ms_idempotency s !! (requester +:+ "|" +:+ key) else None) = None →
  ms_plans s !! new_plan_ID s finding requester key = None ∧
  ms_approvals s !! ("approval-" +:+ new_plan_ID s finding requester key) = None.

Definition fresh_call (s : MemoryStore) (call : StoreCall) : Prop :=
  match call with
  | CallCreateRemediationPlan findingID requester keys =>
      ∀ finding, ms_findings s !! findingID = Some finding → fresh_id s finding requester (first keys)
  | CallCreateRemediationPlanFromFinding finding requester keys =>
      fresh_id s (default finding (ms_findings s !! finding_ID finding)) requester (first keys)
  | _ => True
  end.

(** The call synchronizes no stored plan with another approval policy. *)
Definition keeps_policies (s : MemoryStore) (call : StoreCall) : Prop :=
  ∀ plan p0, call = CallSyncRemediationPlan plan → ms_plans s !! plan_ID plan = Some p0 →
    plan_ApprovalPolicy plan = plan_ApprovalPolicy p0.

End Calls.

Section StableOperations.
Context `{RangeOrder} {decisions reuse chaos : Prop} {P : MemoryStore → Prop} `{!Stable decisions reuse chaos P}.
Variables (ctx : Context) (now : Time).

Lemma stable_loop {A} (m : gmap string A) (f : MemoryStore → string * A → MemoryStore) s :
  P s → (∀ s e, P s → P (f s e)) → P (foldl f s (range m)).
Proof. intros Hs Hf. apply foldl_invariant; auto. Qed.

Lemma stable_expire s : P s → P (expireExceptionsLocked now s).
Proof.
  intros Hs. unfold expireExceptionsLocked. apply stable_loop; [apply stable_loop; [done|]|].
  - intros s' [k e] Hs'. cbn. case_match; by stable.
  - intros s' [k f] Hs'. cbn. case_match; by stable.
Qed.

Lemma stable_suppress e m s : P s → P (foldl (suppress_finding now e) s (range (A := Finding) m)).
Proof. intros Hs. apply stable_loop; [done|]. intros s' [k f] Hs'. cbn. case_match; by stable. Qed.

Lemma stable_reopen e m s : P s → P (foldl (reopen_matching now e) s (range (A := Finding) m)).
Proof.
  intros Hs. apply stable_loop; [done|]. intros s' [k f] Hs'. unfold reopen_matching, reopen_finding.
  repeat case_match; by stable.
Qed.

Lemma stable_expire_findings t m s : P s → P (foldl (expire_finding now t) s (range (A := Finding) m)).
Proof.
  intros Hs. apply stable_loop; [done|]. intros s' [k f] Hs'. cbn. repeat case_match; by stable.
Qed.

Lemma stable_chaos_audit run actor action s : P s → P (appendChaosAuditLocked run actor action s).
Proof. intros Hs. unfold appendChaosAuditLocked. case_match; by stable. Qed.

(** The policy of a plan the planner builds. *)
Lemma new_policy finding requester seq :
  policy_Required (plan_ApprovalPolicy (buildRemediationPlan finding requester now seq)) = true →
  policy_Decision (plan_ApprovalPolicy (buildRemediationPlan finding requester now seq)) = ApprovalPending.
Proof.
  assert (plan_ApprovalPolicy (buildRemediationPlan finding requester now seq) =
    approvalPolicyForActions (typedActionsForFinding finding)) as -> by reflexivity.
  rewrite approvalPolicy_required. unfold approvalPolicyForActions.
  destruct (approval_foldl (typedActionsForFinding finding)
    (zero_ApprovalPolicy <| policy_Decision := ApprovalApproved |>)) as (_ & -> & _). by intros ->.
Qed.

Lemma stable_store_plan plan findingID requester s :
  plan_write decisions reuse s plan → reuse ∨ ms_approvals s !! ("approval-" +:+ plan_ID plan) = None →
  P s → P (store_new_plan now plan findingID requester s).
Proof. intros Hw Ha Hs. unfold store_new_plan. stable. case_match; stable. by apply write_request. Qed.

Lemma renamed_policy p id : plan_ApprovalPolicy (p <| plan_ID := id |>) = plan_ApprovalPolicy p.
Proof. reflexivity. Qed.

Lemma write_fresh plan finding requester seq s :
  plan_ApprovalPolicy plan = plan_ApprovalPolicy (buildRemediationPlan finding requester now seq) →
  reuse ∨ ms_plans s !! plan_ID plan = None → plan_write decisions reuse s plan.
Proof. intros Heq Hfresh. apply write_new; [|done]. rewrite Heq. apply new_policy. Qed.

(** What a call has to respect where decisions are not allowed: it decides no approval, and a plan it
    synchronizes keeps the stored policy; likewise for ids and for chaos runs. *)
Definition guarded_call (s : MemoryStore) (call : StoreCall) : Prop :=
  match call with
  | CallApprove _ _ _ | CallReject _ _ _ => decisions
  | CallCreateChaosRun _ _ _ | CallUpdateChaosRun _ _ _ _ => chaos
  | CallCreateRemediationPlan _ _ _ | CallCreateRemediationPlanFromFinding _ _ _ => reuse ∨ fresh_call s call
  | CallSyncRemediationPlan plan => decisions ∨ ∀ p0,
      ms_plans s !! plan_ID plan = Some p0 → plan_ApprovalPolicy plan = plan_ApprovalPolicy p0
  | _ => True
  end.

#[local] Hint Resolve stable_expire stable_suppress stable_reopen stable_expire_findings stable_chaos_audit
  stable_store_plan : stable.

Ltac run_stable Hs := apply run_state; intros r s' Hrun; run_hyp Hrun; stable.

Lemma stable_createLocked finding requester key s :
  reuse ∨ fresh_id s finding requester key →
  P s → P (createRemediationPlanLocked now finding requester key s).2.
Proof.
  intros Hfresh Hs.
  assert (reuse ∨ ((if key != "" then ms_idempotency s !! (requester +:+ "|" +:+ key) else None) = None →
    ms_approvals s !! ("approval-" +:+ new_plan_ID s finding requester key) = None)) as Happrovals
    by (destruct Hfresh as [|Hfresh]; [by left | right; intros Hmiss; by apply Hfresh]).
  assert (reuse ∨ ((if key != "" then ms_idempotency s !! (requester +:+ "|" +:+ key) else None) = None →
    ms_plans s !! new_plan_ID s finding requester key = None)) as Hplans
    by (destruct Hfresh as [|Hfresh]; [by left | right; intros Hmiss; by apply Hfresh]).
  clear Hfresh. unfold new_plan_ID in *. unfold createRemediationPlanLocked. run_stable Hs.
  all: apply stable_store_plan; [ | | by stable].
  all: rewrite ?Htest0 in *; cbn [negb] in *.
  - eapply write_fresh; [apply renamed_policy | naive_solver].
  - naive_solver.
  - eapply write_fresh; [reflexivity | naive_solver].
  - naive_solver.
Qed.

Lemma stable_createFrom finding requester key s :
  reuse ∨ fresh_call s (CallCreateRemediationPlanFromFinding finding requester key) →
  P s → P (CreateRemediationPlanFromFinding ctx now finding requester key s).2.
Proof.
  intros Hfresh Hs. unfold CreateRemediationPlanFromFinding. unfold fresh_call in Hfresh. run_stable Hs.
  - pose proof (stable_createLocked f requester (first key) s Hfresh Hs) as Hc. by rewrite Hrun in Hc.
  - assert (P (set_finding (finding_ID finding) finding s)) as Hs' by stable.
    pose proof (stable_createLocked finding requester (first key) (set_finding (finding_ID finding) finding s) Hfresh Hs') as Hc. by rewrite Hrun in Hc.
Qed.

Lemma stable_create findingID requester key s :
  reuse ∨ fresh_call s (CallCreateRemediationPlan findingID requester key) →
  P s → P (CreateRemediationPlan ctx now findingID requester key s).2.
Proof.
  intros Hfresh Hs. unfold CreateRemediationPlan. run_stable Hs.
  assert (reuse ∨ fresh_id s f requester (first key)) as Hid by (destruct Hfresh as [|Hf]; [by left | right; by apply Hf]).
  pose proof (stable_createLocked f requester (first key) s Hid Hs) as Hc. by rewrite Hrun in Hc.
Qed.

Lemma write_stored s k p p' :
  store_inv s → ms_plans s !! k = Some p → plan_ID p' = plan_ID p →
  plan_ApprovalPolicy p' = plan_ApprovalPolicy p → plan_write decisions reuse s p'.
Proof.
  intros Hinv Hk Hid Hp. apply (write_same _ _ _ _ p); [|done].
  by rewrite Hid, (inv_plans _ Hinv _ _ Hk).
Qed.

Lemma stable_execute id actor s : store_inv s → P s → P (ExecuteRemediationPlan ctx now id actor s).2.
Proof.
  intros Hinv Hs. unfold ExecuteRemediationPlan. run_stable Hs.
  all: by eapply write_stored.
Qed.

Lemma stable_sync_run run s : store_inv s → P s → P (SyncRemediationRun ctx run s).2.
Proof.
  intros Hinv Hs. unfold SyncRemediationRun. run_stable Hs.
  eapply write_stored; [by apply inv_set_run | eassumption |..]; unfold plan_of_run; by case_match.
Qed.

Lemma stable_rollback runID actor s : store_inv s → P s → P (RequestRollback ctx now runID actor s).2.
Proof.
  intros Hinv Hs. unfold RequestRollback. run_stable Hs.
  eapply write_stored; [by apply inv_set_run | eassumption | done..].
Qed.

Lemma stable_decide id actor reason status s :
  decisions → P s → P (decide ctx now id actor reason status s).2.
Proof. intros Hd Hs. unfold decide. run_stable Hs; first [by apply write_any | by apply write_decision]. Qed.

Lemma stable_perform call s : store_inv s → guarded_call s call → P s → P (perform ctx now call s).2.
Proof.
  intros Hinv Hcall Hs.
  destruct call; cbn [perform]; rewrite ?then_ret;
    try match goal with |- P (?m _).2 =>
      assert (pure_read m) as Hread by auto with store nocore; by rewrite Hread end.
  - unfold GetDashboard. run_stable Hs. by apply stable_expire.
  - unfold ListFindings. run_stable Hs. by apply stable_expire.
  - by apply stable_create.
  - by apply stable_createFrom.
  - unfold SyncRemediationPlan. run_stable Hs.
    destruct Hcall as [|Hcall]; [by apply write_any | by eapply write_same; [|apply Hcall]].
  - by apply stable_execute.
  - by apply stable_rollback.
  - unfold SyncFinding. by run_stable Hs.
  - unfold ExpireFindings. run_stable Hs. by apply stable_expire_findings.
  - by apply stable_sync_run.
  - unfold UpdateFindingStatus. by run_stable Hs.
  - unfold ListExceptions. run_stable Hs. by apply stable_expire.
  - unfold CreateException. run_stable Hs. apply stable_suppress. by stable.
  - unfold DeleteException. run_stable Hs. apply stable_reopen. by stable.
  - by apply stable_decide.
  - by apply stable_decide.
  - unfold RecordAuditEvent. by run_stable Hs.
  - cbn in Hcall. unfold CreateChaosRun. run_stable Hs. apply stable_chaos_audit. by stable.
  - cbn in Hcall. unfold UpdateChaosRun. run_stable Hs. apply stable_chaos_audit. by stable.
  - unfold SaveModelProviders. by run_stable Hs.
Qed.

End StableOperations.

(** * The audit log only grows *)

#[export] Instance stable_audit_log (log : list AuditEvent) (n : Z) :
  Stable True True True (λ s, log `prefix_of` ms_auditEvents s ∧ n ≤ ms_seq s).
Proof.
  split; try (by intros; naive_solver).
  - intros s e [Hlog Hn]. split; [|done]. cbn. etrans; [exact Hlog|]. by apply prefix_app_r.
  - intros s m Hm [Hlog Hn]. split; [done|]. cbn. lia.
Qed.

Section Histories.
Context `{RangeOrder}.

(** No call of the repository, whatever its outcome, removes, reorders or changes an audit event
    already recorded, and the identifier counter never goes back. *)
Theorem audit_append_only (ctx : Context) (now : Time) (call : StoreCall) (s : MemoryStore)
    (Hinv : store_inv s) :
  ms_auditEvents s `prefix_of` ms_auditEvents (perform ctx now call s).2 ∧
  ms_seq s ≤ ms_seq (perform ctx now call s).2.
Proof.
  apply (stable_perform (decisions := True) (reuse := True) (chaos := True)
    (P := λ s', ms_auditEvents s `prefix_of` ms_auditEvents s' ∧ ms_seq s ≤ ms_seq s')); [done | | done].
  destruct call; cbn; auto.
Qed.

(** * Approved plans *)

(** The plans that need approval and carry an approval. *)
Definition approved_plan (s : MemoryStore) (id : string) : Prop :=
  ∃ p, ms_plans s !! id = Some p ∧ policy_Required (plan_ApprovalPolicy p) = true ∧
       policy_Decision (plan_ApprovalPolicy p) = ApprovalApproved.

#[export] Instance stable_approved_plans (ids : string → Prop) :
  Stable False True True (λ s, ∀ id, approved_plan s id → ids id).
Proof.
  split; try done.
  intros s p Hw Hs id (p' & Hk & Hreq & Hdec).
  change (<[plan_ID p := p]> (ms_plans s) !! id = Some p') in Hk.
  apply lookup_insert_Some in Hk as [[<- <-]|[Hne Hk]]; [|apply Hs; by exists p'].
  destruct Hw as [p0 Hk Heq | Hnew _ | []].
  - apply Hs. exists p0. by rewrite <- Heq.
  - specialize (Hnew Hreq). rewrite Hnew in Hdec. discriminate Hdec.
Qed.

Lemma approved_plan_ext s s' id : ms_plans s = ms_plans s' → approved_plan s id ↔ approved_plan s' id.
Proof. unfold approved_plan. by intros ->. Qed.

Lemma approved_set_plan p s id :
  approved_plan (set_plan p s) id →
  approved_plan s id ∨ (plan_ID p = id ∧ policy_Decision (plan_ApprovalPolicy p) = ApprovalApproved).
Proof.
  intros (p' & Hk & Hreq & Hdec). change (<[plan_ID p := p]> (ms_plans s) !! id = Some p') in Hk.
  apply lookup_insert_Some in Hk as [[<- <-]|[Hne Hk]]; [by right | left; by exists p'].
Qed.

Lemma decided_plan_ID status p : plan_ID (decided_plan status p) = plan_ID p.
Proof. unfold decided_plan. by case_match. Qed.

Lemma decided_plan_approved status p :
  policy_Decision (plan_ApprovalPolicy (decided_plan status p)) = ApprovalApproved → status = ApprovalApproved.
Proof.
  unfold decided_plan. destruct (String.eqb_spec status ApprovalApproved); [done|]. intros Hd. discriminate Hd.
Qed.

(** A decision adds at most the plan its approval request answers for, and only when it approves. *)
Lemma decide_approved_plan ctx now approvalID actor reason status s r s' id :
  store_inv s → decide ctx now approvalID actor reason status s = (r, s') → approved_plan s' id →
  approved_plan s id ∨
  (is_ok r = true ∧ status = ApprovalApproved ∧ approvalID = "approval-" +:+ id ∧ actor ≠ "").
Proof.
  intros Hinv Hrun Hid. unfold decide in Hrun. run_hyp Hrun; auto.
  all: match type of Hid with approved_plan ?s1 _ =>
    match s1 with
    | context [set_plan ?p (set_approval ?a ?s0)] =>
        apply (approved_plan_ext s1 (set_plan p s0)), approved_set_plan in Hid as [Hid|[Hpid Hdec]]; [by left| |done]
    | context [set_approval ?a ?s0] =>
        apply (approved_plan_ext s1 s0) in Hid; [by left | done]
    end end.
  all: right; apply decided_plan_approved in Hdec; split; [done|]; split; [done|]; split; [|done].
  all: rewrite decided_plan_ID in Hpid.
  all: destruct (inv_approvals _ Hinv _ _ Htest0) as [<- [-> _]].
  all: rename select (ms_plans _ !! _ = Some _) into Hp; rewrite (inv_plans _ Hinv _ _ Hp) in Hpid; by rewrite <- Hpid.
Qed.

Definition is_approve (call : StoreCall) : bool := match call with CallApprove _ _ _ => true | _ => false end.
Definition is_reject (call : StoreCall) : bool := match call with CallReject _ _ _ => true | _ => false end.

(** The synchronizations of a history leave the approval policies of stored plans alone. *)
Inductive policy_preserving : MemoryStore → list StoreCall → Prop :=
| preserving_init integrations findings :
    policy_preserving (NewMemoryStore [WithIntegrations integrations; WithFindings findings]) []
| preserving_call s history ctx now call r s' :
    policy_preserving s history →
    keeps_policies s call →
    perform ctx now call s = (r, s') →
    policy_preserving s' (if is_ok r then history ++ [call] else history).

Lemma policy_preserving_reachable s history : policy_preserving s history → reachable s history.
Proof. induction 1; [constructor | by econstructor]. Qed.

Lemma policy_preserving_inv s history : policy_preserving s history → store_inv s.
Proof. intros Hp. by eapply store_inv_of_reachable, policy_preserving_reachable. Qed.

(** [plan id] was approved by an authenticated actor in [history]. *)
Definition was_approved (history : list StoreCall) (id : string) : Prop :=
  ∃ actor reason, actor ≠ "" ∧ CallApprove ("approval-" +:+ id) actor reason ∈ history.

Lemma was_approved_more history id call (b : bool) :
  was_approved history id → was_approved (if b then history ++ [call] else history) id.
Proof.
  intros (actor & reason & Hne & Hin). exists actor, reason. split; [done|].
  destruct b; [apply elem_of_app; by left | done].
Qed.

Lemma approved_plan_init integrations findings id :
  ¬ approved_plan (NewMemoryStore [WithIntegrations integrations; WithFindings findings]) id.
Proof.
  intros (p & Hk & _). unfold NewMemoryStore, WithFindings in Hk. cbn [foldl] in Hk.
  erewrite (foldl_invariant (λ s, ms_plans s = ∅)) in Hk; [by rewrite lookup_empty in Hk | done | done].
Qed.

Lemma approved_was_approved s history id :
  policy_preserving s history → approved_plan s id → was_approved history id.
Proof.
  intros Hpres. revert id. induction Hpres as [|s history ctx now call r s' Hpres IH Hsync Hrun]; intros id Hid.
  { by destruct (approved_plan_init integrations findings id). }
  pose proof (policy_preserving_inv _ _ Hpres) as Hinv.
  destruct (is_approve call) eqn:Happ.
  - destruct call; try discriminate Happ.
    apply run_bind in Hrun as [(a & s1 & Hrun & Hret)|(e & Hrun & ->)].
    + apply run_result in Hret as [-> <-].
      apply (decide_approved_plan _ _ _ _ _ _ _ _ _ _ Hinv Hrun) in Hid as [Hid|(_ & _ & -> & Hactor)].
      * by apply was_approved_more, IH.
      * exists actor, reason. split; [done|]. apply elem_of_app. right. left.
    + apply (decide_approved_plan _ _ _ _ _ _ _ _ _ _ Hinv Hrun) in Hid as [Hid|[[=] _]].
      by apply was_approved_more, IH.
  - apply was_approved_more, IH. destruct (is_reject call) eqn:Hrej.
    + destruct call; try discriminate Hrej.
      apply run_bind in Hrun as [(a & s1 & Hrun & Hret)|(e & Hrun & ->)];
        [apply run_result in Hret as [-> <-]|];
        by apply (decide_approved_plan _ _ _ _ _ _ _ _ _ _ Hinv Hrun) in Hid as [Hid|(_ & [=] & _)].
    + replace s' with (perform ctx now call s).2 in Hid by (by rewrite Hrun).
      revert id Hid.
      apply (stable_perform (decisions := False) (reuse := True) (P := λ s', ∀ id, approved_plan s' id → approved_plan s id));
        [done | | done].
      destruct call; try done; [by left | by left |]. right. intros p0 Hp0. by apply Hsync.
Qed.

(** C7. In every history whose synchronizations respect the approval policies, a plan that requires
    approval is executed only after a successful [Approve] of its approval request by an
    authenticated actor, and never when it is marked rejected. *)
Theorem execution_was_approved (ctx : Context) (now : Time) (s : MemoryStore) (history : list StoreCall)
    (id actor : string) (run : RemediationRun)
    (Hhistory : policy_preserving s history)
    (Hexec : (ExecuteRemediationPlan ctx now id actor s).1 = Ok run) :
  ∃ plan, ms_plans s !! id = Some plan ∧ actor ≠ "" ∧ plan_Status plan ≠ "rejected" ∧
    (policy_Required (plan_ApprovalPolicy plan) = true → was_approved history id).
Proof.
  destruct (ExecuteRemediationPlan ctx now id actor s) as [r s'] eqn:Hrun. cbn in Hexec. subst r.
  unfold ExecuteRemediationPlan in Hrun. run_hyp Hrun; exists r; (split; [done|]; split; [done|]; split; [done|]);
    intros Hreq; apply (approved_was_approved _ _ _ Hhistory); exists r; (split; [done|]; split; [done|]);
    rewrite Hreq in Htest2; cbn [andb] in Htest2; by split_guards.
Qed.

End Histories.

(** * A concrete history *)

Section Play.
Context `{RangeOrder}.

Fixpoint play (s : MemoryStore) (history : list StoreCall) (calls : list (Time * StoreCall)) :
    MemoryStore * list StoreCall :=
  match calls with
  | [] => (s, history)
  | (now, call) :: rest =>
      let '(r, s') := perform Background now call s in
      play s' (if is_ok r then history ++ [call] else history) rest
  end.

Lemma play_preserving s history calls :
  policy_preserving s history → Forall (λ c, ∀ plan, c.2 ≠ CallSyncRemediationPlan plan) calls →
  policy_preserving (play s history calls).1 (play s history calls).2.
Proof.
  intros Hs Hcalls. revert s history Hs. induction Hcalls as [|[now call] calls Hc _ IH]; intros s history Hs; cbn; [done|].
  destruct (perform Background now call s) as [r s'] eqn:Hrun. apply IH.
  econstructor; [exact Hs | | exact Hrun]. intros plan p0 Heq. by destruct (Hc plan).
Qed.

End Play.

Definition sample_finding : Finding :=
  zero_Finding
    <| finding_ID := "f-1" |> <| finding_Source := "kyverno" |> <| finding_Title := "Pod Security labels missing" |>
    <| finding_Severity := SeverityHigh |> <| finding_Status := FindingOpen |> <| finding_RiskScore := 70 |>
    <| finding_Resources := [mkResourceRef "v1" "Namespace" "" "shop"] |>
    <| finding_CreatedAt := 100 |> <| finding_UpdatedAt := 100 |>.

Definition sample_start : MemoryStore := NewMemoryStore [WithIntegrations []; WithFindings [sample_finding]].

Definition sample_calls : list (Time * StoreCall) :=
  [(200, CallCreateRemediationPlan "f-1" "ana" []);
   (250, CallExecuteRemediationPlan "plan-f-1-001" "ana");
   (300, CallApprove "approval-plan-f-1-001" "bo" "reviewed")].

Definition sample_state : MemoryStore := (@play canonical_order sample_start [] sample_calls).1.
Definition sample_history : list StoreCall := (@play canonical_order sample_start [] sample_calls).2.

Lemma sample_preserving : @policy_preserving canonical_order sample_state sample_history.
Proof.
  unfold sample_state, sample_history. apply play_preserving.
  - unfold sample_start. apply preserving_init.
  - unfold sample_calls. repeat (constructor; [done|]). constructor.
Qed.

(** The refused execution is not part of the history, the approval is. *)
Example sample_history_eq : sample_history =
  [CallCreateRemediationPlan "f-1" "ana" []; CallApprove "approval-plan-f-1-001" "bo" "reviewed"].
Proof. vm_compute. reflexivity. Qed.

Lemma execution_was_approved_witness :
  ∃ plan, ms_plans sample_state !! "plan-f-1-001" = Some plan ∧ "ana" ≠ "" ∧ plan_Status plan ≠ "rejected" ∧
    (policy_Required (plan_ApprovalPolicy plan) = true → was_approved sample_history "plan-f-1-001").
Proof.
  eapply (execution_was_approved (H := canonical_order) Background 400 sample_state sample_history
    "plan-f-1-001" "ana"); [exact sample_preserving | vm_compute; reflexivity].
Defined.

Lemma reachable_store_inv_witness : store_inv sample_state.
Proof.
  exact (reachable_store_inv (H := canonical_order) _ _ (policy_preserving_reachable _ _ sample_preserving)).
Defined.

Lemma audit_append_only_witness :
  ms_auditEvents sample_state `prefix_of`
    ms_auditEvents (@perform canonical_order Background 400 (CallReject "approval-plan-f-1-001" "cy" "late") sample_state).2.
Proof.
  refine (proj1 (audit_append_only (H := canonical_order) Background 400
    (CallReject "approval-plan-f-1-001" "cy" "late") sample_state _)).
  exact (policy_preserving_inv _ _ sample_preserving).
Defined.
