(* ===== verification/StoreOps.v ===== *)
(** What the single operations of the store do: plan creation under idempotency keys, decisions,
    exceptions and their expiry, listings, synchronization of findings, chaos run versions. *)
From S2P Require Import Prelude GoLib Core ActionCatalog Planner Store StoreProps StoreTrace.

Local Open Scope Z_scope.

(** * Creating plans *)

Section Plans.
Context `{RangeOrder}.

Definition idempotency_scope (requester key : string) : string := requester +:+ "|" +:+ key.

(** The key answers with the stored plan, or with a conflict for another finding. *)
Lemma locked_hit now finding requester key s planID plan :
  requester ≠ "" → key ≠ "" →
  ms_idempotency s !! idempotency_scope requester key = Some planID → ms_plans s !! planID = Some plan →
  createRemediationPlanLocked now finding requester key s =
    if plan_FindingID plan == finding_ID finding then (Ok plan, s)
    else (Err (conflict "idempotency key was used for a different request"), s).
Proof.
  intros Hreq Hkey Hidem Hplan. unfold createRemediationPlanLocked, idempotency_scope in *.
  apply String.eqb_neq in Hreq, Hkey. rewrite run_bind_reject, Hreq, run_bind_get, Hkey. cbn [negb].
  rewrite Hidem, Hplan. rewrite run_bind_reject. by destruct (plan_FindingID plan == finding_ID finding).
Qed.

#[local] Opaque buildRemediationPlan.

Lemma build_FindingID finding requester now seq :
  plan_FindingID (buildRemediationPlan finding requester now seq) = finding_ID finding.
Proof. reflexivity. Qed.

Lemma renamed_FindingID p id : plan_FindingID (p <| plan_ID := id |>) = plan_FindingID p.
Proof. reflexivity. Qed.

Lemma store_new_plan_fields now plan findingID requester s :
  let s' := store_new_plan now plan findingID requester s in
  ms_plans s' = <[plan_ID plan := plan]> (ms_plans s) ∧ ms_findings s' = ms_findings s ∧
  ms_idempotency s' = ms_idempotency s.
Proof. unfold store_new_plan. by destruct (policy_Required (plan_ApprovalPolicy plan)). Qed.

Lemma locked_ok now finding requester key s plan s' :
  createRemediationPlanLocked now finding requester key s = (Ok plan, s') →
  requester ≠ "" ∧ plan_FindingID plan = finding_ID finding ∧ ms_findings s' = ms_findings s ∧
  (key ≠ "" → ∃ planID, ms_idempotency s' !! idempotency_scope requester key = Some planID ∧
                        ms_plans s' !! planID = Some plan).
Proof.
  intros Hrun. unfold createRemediationPlanLocked in Hrun. run_hyp Hrun.
  - split; [done|]. split; [done|]. split; [done|]. intros Hkey. apply String.eqb_neq in Hkey.
    rewrite Hkey in Htest0. by exists s0.
  - match goal with |- context [store_new_plan ?n ?p ?f ?r ?s0] =>
      destruct (store_new_plan_fields n p f r s0) as (-> & -> & ->) end.
    split; [done|]. split; [by rewrite renamed_FindingID, build_FindingID|].
    split; [done|]. intros _. eexists. split; apply lookup_insert_eq.
  - match goal with |- context [store_new_plan ?n ?p ?f ?r ?s0] =>
      destruct (store_new_plan_fields n p f r s0) as (-> & -> & ->) end.
    split; [done|]. split; [apply build_FindingID|]. split; [done|]. done.
Qed.

(** Once a request with an idempotency key has been answered with a plan, repeating it answers the
    same plan and changes nothing, and using the key for another finding is a conflict. *)
Theorem create_plan_idempotent (ctx : Context) (now : Time) (findingID requester key : string)
    (s s' : MemoryStore) (plan : RemediationPlan)
    (Hinv : store_inv s) (Hkey : key ≠ "")
    (Hcreate : CreateRemediationPlan ctx now findingID requester [key] s = (Ok plan, s')) :
  plan_FindingID plan = findingID ∧
  (∀ later, CreateRemediationPlan Background later findingID requester [key] s' = (Ok plan, s')) ∧
  (∀ later other, is_Some (ms_findings s' !! other) → other ≠ findingID →
    CreateRemediationPlan Background later other requester [key] s' =
      (Err (conflict "idempotency key was used for a different request"), s')).
Proof.
  unfold CreateRemediationPlan in *. run_hyp Hcreate. rename select (ms_findings s !! _ = _) into Hf.
  cbn [first] in *. pose proof (inv_findings _ Hinv _ _ Hf) as Hid.
  destruct (locked_ok _ _ _ _ _ _ _ Hcreate) as (Hreq & Hplan & Hsame & Hstored).
  destruct (Hstored Hkey) as (planID & Hidem & Hlookup). rewrite Hid in Hplan.
  split; [done|]. split.
  - intros later. rewrite run_bind_check, run_bind_get, Hsame, run_bind_lookup, Hf.
    rewrite (locked_hit later f requester key s' planID plan) by done. by rewrite Hid, Hplan, String.eqb_refl.
  - intros later other [g Hg] Hne. rewrite run_bind_check, run_bind_get, run_bind_lookup, Hg.
    rewrite (locked_hit later g requester key s' planID plan) by done.
    rewrite Hsame in Hg. pose proof (inv_findings _ Hinv _ _ Hg) as Hgid.
    rewrite Hplan, Hgid. by destruct (String.eqb_spec findingID other).
Qed.

End Plans.

(** * Decisions *)

Section Decisions.
Context `{RangeOrder}.

Definition decided_approval (now : Time) (status actor reason : string) (a : ApprovalRequest) : ApprovalRequest :=
  a <| approval_Status := status |> <| approval_Approver := actor |>
    <| approval_DecisionReason := reason |> <| approval_UpdatedAt := now |>.

(** A decision that succeeds: what it found and the approvals and plans it leaves. *)
Lemma decide_ok ctx now approvalID actor reason status s approval s' :
  store_inv s → decide ctx now approvalID actor reason status s = (Ok approval, s') →
  ∃ a, ms_approvals s !! approvalID = Some a ∧ approval_Status a = ApprovalPending ∧ actor ≠ "" ∧
    approval = decided_approval now status actor reason a ∧
    ms_approvals s' = <[approvalID := approval]> (ms_approvals s) ∧
    ms_plans s' = match ms_plans s !! approval_SubjectRef a with
                  | Some p => <[approval_SubjectRef a := decided_plan status p]> (ms_plans s)
                  | None => ms_plans s
                  end.
Proof.
  intros Hinv Hrun. unfold decide in Hrun. run_hyp Hrun; rename select (ms_approvals s !! _ = _) into Ha.
  all: destruct (inv_approvals _ Hinv _ _ Ha) as [Hid _]; exists a.
  all: split; [done|]; split; [done|]; split; [done|]; split; [done|].
  all: split; [by rewrite <- Hid|].
  all: rename select (ms_plans s !! _ = _) into Hp; change (approval_SubjectRef _) with (approval_SubjectRef a) in Hp;
    rewrite Hp; try done.
  all: pose proof (inv_plans _ Hinv _ _ Hp) as Hpid; rewrite <- Hpid.
  all: unfold decided_plan; by destruct (status == ApprovalApproved).
Qed.

Lemma decide_error ctx now approvalID actor reason status s err s' :
  decide ctx now approvalID actor reason status s = (Err err, s') → s' = s.
Proof. unfold decide. intros Hrun. by run_hyp Hrun. Qed.

(** The plan requires an approval that was refused. *)
Definition refused (id : string) (s : MemoryStore) : Prop :=
  ∃ p, ms_plans s !! id = Some p ∧ policy_Required (plan_ApprovalPolicy p) = true ∧
    policy_Decision (plan_ApprovalPolicy p) = ApprovalRejected.

#[export] Instance stable_request (id : string) (a : ApprovalRequest) :
  Stable False False True (λ s, ms_approvals s !! id = Some a).
Proof.
  split; try done. intros s b [[[]|Hnew]|[]] Ha.
  change (<[approval_ID b := b]> (ms_approvals s) !! id = Some a). rewrite lookup_insert_ne; [done|]. congruence.
Qed.

#[export] Instance stable_refused (id : string) : Stable False False True (refused id).
Proof.
  split; try done. intros s p Hw (p0 & Hp & Hreq & Hdec). unfold refused.
  change (ms_plans (set_plan p s)) with (<[plan_ID p := p]> (ms_plans s)).
  destruct (base.decide (plan_ID p = id)) as [<-|]; [|exists p0; by rewrite lookup_insert_ne].
  exists p. rewrite lookup_insert_eq. split; [done|]. destruct Hw as [p1 Hp1 ->|_ [[]|Hnew]|[]]; [|congruence].
  by simplify_eq.
Qed.

(** A decision leaves every request already decided, and its plan, alone. *)
Lemma decide_others ctx now other actor reason status s id a :
  store_inv s → ms_approvals s !! id = Some a → approval_Status a ≠ ApprovalPending →
  let s' := (decide ctx now other actor reason status s).2 in
  ms_approvals s' !! id = Some a ∧ (refused (approval_SubjectRef a) s → refused (approval_SubjectRef a) s').
Proof.
  intros Hinv Ha Hdecided. destruct (decide _ _ _ _ _ _ s) as [[b|err] s'] eqn:Hrun; cbn.
  - destruct (decide_ok _ _ _ _ _ _ _ _ _ Hinv Hrun) as (a' & Ha' & Hpending & _ & _ & -> & Hplans).
    assert (other ≠ id) as Hne by congruence.
    split; [by rewrite lookup_insert_ne|]. intros (p & Hp & Hpolicy). exists p. split; [|done]. rewrite Hplans.
    destruct (inv_approvals _ Hinv _ _ Ha) as [<- [Hid _]], (inv_approvals _ Hinv _ _ Ha') as [<- [Hid' _]].
    destruct (ms_plans s !! approval_SubjectRef a'); [|done]. rewrite lookup_insert_ne; [done|]. congruence.
  - by apply decide_error in Hrun as ->.
Qed.

Lemma perform_keeps_decision ctx now call s id a :
  store_inv s → fresh_call s call → keeps_policies s call →
  ms_approvals s !! id = Some a → approval_Status a ≠ ApprovalPending →
  ms_approvals (perform ctx now call s).2 !! id = Some a ∧
  (refused (approval_SubjectRef a) s → refused (approval_SubjectRef a) (perform ctx now call s).2).
Proof.
  intros Hinv Hfresh Hsync Ha Hdecided. destruct (is_approve call || is_reject call) eqn:Hdecide.
  - destruct call; try discriminate Hdecide; cbn [perform]; rewrite then_ret; by apply decide_others.
  - assert (guarded_call (decisions := False) (reuse := False) (chaos := True) s call) as Hguard.
    { destruct call; try done; [by right.. | right; intros p0 Hp0; by apply Hsync]. }
    split.
    + by apply (stable_perform (P := λ s, ms_approvals s !! id = Some a) (decisions := False) (reuse := False) (chaos := True)).
    + by apply (stable_perform (P := refused (approval_SubjectRef a)) (decisions := False) (reuse := False) (chaos := True)).
Qed.

(** The states the store may get to from [s], by calls that give new plans ids not taken and synchronize
    plans with the approval policies stored. *)
Inductive later_state (s : MemoryStore) : MemoryStore → Prop :=
| later_here : later_state s s
| later_call s1 ctx now call r s2 :
    later_state s s1 → fresh_call s1 call → keeps_policies s1 call → perform ctx now call s1 = (r, s2) →
    later_state s s2.

Lemma decision_stands s s' id a :
  store_inv s → later_state s s' → ms_approvals s !! id = Some a → approval_Status a ≠ ApprovalPending →
  store_inv s' ∧ ms_approvals s' !! id = Some a ∧
  (refused (approval_SubjectRef a) s → refused (approval_SubjectRef a) s').
Proof.
  intros Hinv Hlater Ha Hdecided. induction Hlater as [|s1 ctx now call r s2 _ IH Hfresh Hsync Hrun]; [done|].
  destruct IH as (Hinv1 & Ha1 & Hrefused). pose proof (inv_perform ctx now call s1 Hinv1) as Hinv2.
  destruct (perform_keeps_decision ctx now call s1 id a Hinv1 Hfresh Hsync Ha1 Hdecided) as [Ha2 Hr2].
  rewrite Hrun in *. auto.
Qed.

(** C11. An approval request is decided at most once: a decision that succeeds found it pending and names
    its actor, and from then on, whatever calls the store serves, the request keeps that decision and
    every further one is refused without effect; where it was a rejection and the plan requires approval, the
    plan is never executed. Taken for granted of the later calls is that a plan created gets an id not
    yet taken, and that a synchronization leaves the approval policy of a stored plan alone. *)
Theorem decided_once (ctx : Context) (now : Time) (approvalID actor reason status : string)
    (s s' s'' : MemoryStore) (approval : ApprovalRequest)
    (Hinv : store_inv s) (Hstatus : status ∈ [ApprovalApproved; ApprovalRejected])
    (Hrun : decide ctx now approvalID actor reason status s = (Ok approval, s'))
    (Hlater : later_state s' s'') :
  (∃ a, ms_approvals s !! approvalID = Some a ∧ approval_Status a = ApprovalPending) ∧
  approval_Status approval = status ∧ approval_Approver approval = actor ∧ actor ≠ "" ∧
  ms_approvals s'' !! approvalID = Some approval ∧
  (∀ later actor' reason' status',
    decide Background later approvalID actor' reason' status' s'' =
      (Err (invalid ("approval is already " +:+ status)), s'')) ∧
  (∀ later actor' p, status = ApprovalRejected →
    ms_plans s !! approval_SubjectRef approval = Some p → policy_Required (plan_ApprovalPolicy p) = true →
    ∃ msg, ExecuteRemediationPlan Background later (approval_SubjectRef approval) actor' s'' =
      (Err (invalid msg), s'')).
Proof.
  destruct (decide_ok _ _ _ _ _ _ _ _ _ Hinv Hrun) as (a & Ha & Hpending & Hactor & -> & Happrovals & Hplans).
  set (b := decided_approval now status actor reason a) in *.
  assert (ms_approvals s' !! approvalID = Some b) as Hnew by (rewrite Happrovals; apply lookup_insert_eq).
  assert (status ≠ ApprovalPending) as Hne by (intros ->; set_solver).
  assert (store_inv s') as Hinv' by
    (pose proof (inv_decide ctx now approvalID actor reason status ltac:(set_solver) s Hinv) as Hi; by rewrite Hrun in Hi).
  destruct (decision_stands s' s'' approvalID b Hinv' Hlater Hnew Hne) as (_ & Hb & Hrefused).
  split; [by exists a|]. split; [done|]. split; [done|]. split; [done|]. split; [done|]. split.
  - intros later actor' reason' status'. unfold decide.
    rewrite run_bind_check, run_bind_get, run_bind_lookup, Hb, run_bind_reject.
    change (approval_Status b) with status. by apply String.eqb_neq in Hne as ->.
  - intros later actor' p -> Hp Hreq. destruct Hrefused as (p' & Hp' & Hreq' & Hdec').
    { change (approval_SubjectRef b) with (approval_SubjectRef a) in *. rewrite Hp in Hplans.
      exists (decided_plan ApprovalRejected p). by rewrite Hplans, lookup_insert_eq. }
    unfold ExecuteRemediationPlan. rewrite run_bind_check, run_bind_reject, run_bind_get.
    destruct (actor' == "") eqn:Hactor'; [by eexists|].
    rewrite run_bind_lookup, Hp', run_bind_reject, Hreq', Hdec'. by eexists.
Qed.

End Decisions.

(** * Exceptions *)

Section Exceptions.
Context `{RangeOrder}.
Implicit Types (now : Time) (s : MemoryStore).

(** The entries after the first loop of [expireExceptionsLocked]. *)
Definition exception_after now (e : Exception) : Exception :=
  if (exception_Status e == "active") && negb (After (exception_ExpiresAt e) now)
  then e <| exception_Status := "expired" |> <| exception_UpdatedAt := now |> else e.

Lemma expire_loop_exceptions now s :
  ms_exceptions (foldl (expire_exception now) s (range (ms_exceptions s))) =
    exception_after now <$> ms_exceptions s.
Proof.
  rewrite (foldl_proj ms_exceptions (expire_exception now) (λ m entry,
    match (if (exception_Status entry.2 == "active") && negb (After (exception_ExpiresAt entry.2) now)
           then Some (exception_after now entry.2) else None) with
    | Some e => <[entry.1 := e]> m | None => m end)).
  - apply map_eq. intros k.
    change (foldl _ _ _) with (range_update (λ _ e,
      if (exception_Status e == "active") && negb (After (exception_ExpiresAt e) now)
      then Some (exception_after now e) else None) (range (ms_exceptions s)) (ms_exceptions s)).
    rewrite range_update_lookup, lookup_fmap. destruct (ms_exceptions s !! k) as [e|]; cbn; [|done].
    unfold exception_after. by destruct (_ && _).
  - intros s' [k e]. cbn. unfold exception_after. by destruct (_ && _).
Qed.

Lemma expire_loop_findings now s l :
  ms_findings (foldl (expire_exception now) s l) = ms_findings s.
Proof.
  apply (foldl_invariant (λ s', ms_findings s' = ms_findings s)); [done|].
  intros s' [k e] _ Heq. cbn. by case_match.
Qed.

(** The exception is active, has not lapsed, and its scope names the finding, its group or its source. *)
Definition excuses now (f : Finding) (e : Exception) : Prop :=
  exception_Status e = "active" ∧ now < exception_ExpiresAt e ∧
  exception_Scope e ∈ [finding_ID f; finding_CorrelationGroup f; "source:" +:+ finding_Source f].

Lemma excuses_spec now f e : active_exception now f e = true ↔ excuses now f e.
Proof.
  unfold active_exception, excuses, exceptionMatches, After. rewrite !andb_true_iff, !orb_true_iff, !String.eqb_eq, Z.ltb_lt.
  rewrite !elem_of_cons, elem_of_nil. tauto.
Qed.

(** Some exception of [m] excuses the finding. *)
Definition covered now (m : gmap string Exception) (f : Finding) : Prop := ∃ k e, m !! k = Some e ∧ excuses now f e.

Lemma hasActive_covered now s f : hasActiveExceptionLocked now s f = true ↔ covered now (ms_exceptions s) f.
Proof.
  unfold hasActiveExceptionLocked, covered. rewrite existsb_exists. setoid_rewrite <- excuses_spec. split.
  - intros (e & Hin%list_elem_of_In%elem_of_range_snd & Ha). destruct Hin as [k Hk]. eauto.
  - intros (k & e & Hk & Ha). exists e. split; [|done]. apply list_elem_of_In, elem_of_range_snd. eauto.
Qed.

Lemma hasActive_ext now s s' f :
  ms_exceptions s = ms_exceptions s' → hasActiveExceptionLocked now s f = hasActiveExceptionLocked now s' f.
Proof. unfold hasActiveExceptionLocked. by intros ->. Qed.

(** A reopened finding. *)
Definition reopened now (f : Finding) : Finding :=
  f <| finding_Status := FindingOpen |> <| finding_UpdatedAt := now |>.

(** A loop that reopens the findings passing [test] against the exceptions it started with. *)
Definition reopens now (test : Finding → bool) s (f : Finding) : option Finding :=
  if test f && (finding_Status f == FindingSuppressed) && negb (hasActiveExceptionLocked now s f)
  then Some (reopened now f) else None.

Definition reopen_if now (test : Finding → bool) s (entry : string * Finding) : MemoryStore :=
  if test entry.2 then reopen_finding now s entry else s.

Lemma reopen_loop now test s l :
  ms_findings (foldl (reopen_if now test) s l) =
    range_update (λ _, reopens now test s) l (ms_findings s) ∧
  ms_exceptions (foldl (reopen_if now test) s l) = ms_exceptions s.
Proof.
  assert (∀ s0, ms_exceptions s0 = ms_exceptions s →
    ms_findings (foldl (reopen_if now test) s0 l) = range_update (λ _, reopens now test s) l (ms_findings s0) ∧
    ms_exceptions (foldl (reopen_if now test) s0 l) = ms_exceptions s) as Hgen; [|by apply Hgen].
  unfold range_update. induction l as [|[k f] l IH]; intros s0 Hs0; [done|]. cbn [foldl fst snd].
  assert (reopens now test s f = reopens now test s0 f) as ->
    by (unfold reopens; by rewrite (hasActive_ext now s s0 f)).
  unfold reopens at 2, reopen_if at 2 4, reopen_finding. cbn [snd]. destruct (test f); cbn [andb].
  - destruct (_ && _).
    + destruct (IH (set_finding k (reopened now f) s0)) as [Hf He]; [done|]. split; [exact Hf | exact He].
    + by destruct (IH s0) as [-> ->].
  - by destruct (IH s0) as [-> ->].
Qed.

Lemma reopen_loop_lookup now test s k :
  ms_findings (foldl (reopen_if now test) s (range (ms_findings s))) !! k =
    (λ f, default f (reopens now test s f)) <$> ms_findings s !! k.
Proof. rewrite (proj1 (reopen_loop now test s _)). apply (range_update_lookup (λ _, reopens now test s)). Qed.

Lemma reopen_loop_all now s l :
  foldl (reopen_finding now) s l = foldl (reopen_if now (λ _, true)) s l.
Proof. done. Qed.

(** Maps after [expireExceptionsLocked]. *)
Lemma expire_exceptions_after now s :
  ms_exceptions (expireExceptionsLocked now s) = exception_after now <$> ms_exceptions s.
Proof.
  unfold expireExceptionsLocked. rewrite reopen_loop_all, (proj2 (reopen_loop now _ _ _)).
  apply expire_loop_exceptions.
Qed.

Lemma active_after now f e :
  active_exception now f (exception_after now e) = active_exception now f e.
Proof.
  unfold exception_after. destruct (_ && _) eqn:E; [|done]. unfold active_exception. cbn.
  split_guards. destruct (After (exception_ExpiresAt e) now) eqn:Ha; split_guards; [lia|].
  by rewrite andb_false_r.
Qed.

Lemma covered_after now m f : covered now (exception_after now <$> m) f ↔ covered now m f.
Proof.
  unfold covered. setoid_rewrite lookup_fmap_Some. setoid_rewrite <- excuses_spec. split.
  - intros (k & e' & (e & <- & Hk) & Ha). exists k, e. by rewrite <- (active_after now f e).
  - intros (k & e & Hk & Ha). exists k, (exception_after now e). rewrite active_after. eauto.
Qed.

Lemma expire_findings_after now s k :
  ms_findings (expireExceptionsLocked now s) !! k =
    (λ f, default f (reopens now (λ _, true) s f)) <$> ms_findings s !! k.
Proof.
  unfold expireExceptionsLocked. rewrite reopen_loop_all.
  set (s1 := foldl (expire_exception now) s (range (ms_exceptions s))).
  assert (ms_findings s1 = ms_findings s) as Hf by apply expire_loop_findings.
  rewrite reopen_loop_lookup, Hf. destruct (ms_findings s !! k) as [f|]; cbn; [|done]. do 2 f_equal.
  assert (hasActiveExceptionLocked now s1 f = hasActiveExceptionLocked now s f) as Heq.
  { apply eq_true_iff_eq. rewrite !hasActive_covered. subst s1. rewrite expire_loop_exceptions.
    apply covered_after. }
  unfold reopens. by rewrite Heq.
Qed.

(** C14. After [expireExceptionsLocked], which every listing and the dashboard run first: no
    exception was added or dropped, those that were active and have lapsed are expired and every other
    one is as it was, so that an exception still active has not expired; a finding is suppressed only while
    some active exception covers it; a finding no exception covers any more is open again; and no other
    finding was added, dropped or changed. *)
Theorem exceptions_enforced (now : Time) (s : MemoryStore) :
  let s' := expireExceptionsLocked now s in
  (∀ k, ms_exceptions s' !! k = match ms_exceptions s !! k with
     | Some e => Some (if (exception_Status e == "active") && (exception_ExpiresAt e <=? now)
                       then e <| exception_Status := "expired" |> <| exception_UpdatedAt := now |> else e)
     | None => None
     end) ∧
  (∀ k e, ms_exceptions s' !! k = Some e → exception_Status e = "active" → now < exception_ExpiresAt e) ∧
  (∀ k f, ms_findings s' !! k = Some f → finding_Status f = FindingSuppressed →
    covered now (ms_exceptions s') f) ∧
  (∀ k f, ms_findings s !! k = Some f →
    (finding_Status f = FindingSuppressed ∧ ¬ covered now (ms_exceptions s) f ∧
     ms_findings s' !! k = Some (reopened now f)) ∨
    ((finding_Status f ≠ FindingSuppressed ∨ covered now (ms_exceptions s) f) ∧ ms_findings s' !! k = Some f)) ∧
  (∀ k, ms_findings s !! k = None → ms_findings s' !! k = None).
Proof.
  cbv zeta.
  assert (∀ k f, ms_findings s !! k = Some f → ms_findings (expireExceptionsLocked now s) !! k = Some
      (if (finding_Status f == FindingSuppressed) && negb (hasActiveExceptionLocked now s f)
       then reopened now f else f)) as Hall.
  { intros k f Hk. rewrite expire_findings_after, Hk. unfold reopens. cbn. by destruct (_ && _). }
  split_and!.
  - intros k. rewrite expire_exceptions_after, lookup_fmap. destruct (ms_exceptions s !! k) as [e|]; [|done].
    cbn. unfold exception_after, After. by rewrite Z.leb_antisym.
  - intros k e Hk Hact. rewrite expire_exceptions_after, lookup_fmap_Some in Hk.
    destruct Hk as (e0 & <- & Hk). unfold exception_after in *.
    destruct (_ && _) eqn:E; [discriminate Hact|]. rewrite Hact in E. cbn in E. by split_guards.
  - intros k f' Hk Hsup. assert (is_Some (ms_findings s !! k)) as [f Hf].
    { rewrite expire_findings_after in Hk. by destruct (ms_findings s !! k). }
    rewrite (Hall _ _ Hf) in Hk. rewrite expire_exceptions_after, covered_after, <- hasActive_covered.
    destruct (_ && _) eqn:E in Hk; injection Hk as <-; [discriminate Hsup|].
    rewrite Hsup in E. cbn in E. by split_guards.
  - intros k f Hk. rewrite (Hall _ _ Hk), <- hasActive_covered.
    destruct (String.eqb_spec (finding_Status f) FindingSuppressed), (hasActiveExceptionLocked now s f); cbn; auto.
  - intros k Hk. by rewrite expire_findings_after, Hk.
Qed.

End Exceptions.

(** * Listings *)

Section Listings.
Context `{RangeOrder}.

Lemma elem_of_filter_bool {A} (p : A → bool) l x : x ∈ List.filter p l ↔ x ∈ l ∧ p x = true.
Proof. rewrite !list_elem_of_In. apply filter_In. Qed.

#[export] Instance finding_less_order : StrictWeakOrder finding_less.
Proof.
  split; unfold finding_less, After.
  - intros x y. repeat (case_match; split_guards); rewrite ?Z.ltb_lt, ?Z.ltb_ge; lia.
  - intros x y z. repeat (case_match; split_guards); rewrite ?Z.ltb_lt, ?Z.ltb_ge; lia.
Qed.

(** [ListFindings] answers, once per stored finding, exactly the findings that pass the filter after
    expired exceptions are lifted, in decreasing risk, the most recently updated first among equals. *)
Theorem ListFindings_spec (now : Time) (filter : FindingFilter) (s : MemoryStore) :
  ∃ findings,
    ListFindings Background now filter s = (Ok findings, expireExceptionsLocked now s) ∧
    (∀ f, f ∈ findings ↔
      (∃ k, ms_findings (expireExceptionsLocked now s) !! k = Some f) ∧ matches_filter filter f = true) ∧
    (store_inv s → NoDup (map finding_ID findings)) ∧
    StronglySorted (λ x y, finding_RiskScore y < finding_RiskScore x ∨
      (finding_RiskScore x = finding_RiskScore y ∧ finding_UpdatedAt y ≤ finding_UpdatedAt x)) findings.
Proof.
  set (s' := expireExceptionsLocked now s). eexists. split_and!.
  - unfold ListFindings. rewrite run_bind_check, run_bind_modify, run_bind_get, run_ret. done.
  - intros f. by rewrite elem_of_sort_slice, elem_of_filter_bool, elem_of_range_snd.
  - intros Hinv. rewrite sort_slice_perm. fold s'.
    assert (NoDup (map finding_ID (range (ms_findings s')).*2)) as Hnd.
    { assert (map finding_ID (range (ms_findings s')).*2 = (range (ms_findings s')).*1) as ->;
        [|apply NoDup_range].
      rewrite map_map. apply map_ext_in. intros [k f] Hin%list_elem_of_In%elem_of_range.
      by apply (inv_findings _ (inv_expire_exceptions now s Hinv)). }
    revert Hnd. generalize (range (ms_findings s')).*2 as l.
    induction l as [|f l IH]; cbn; [by constructor|].
    intros [Hnot Hnd]%NoDup_cons. destruct (matches_filter filter f); [|by apply IH].
    cbn. constructor; [|by apply IH].
    intros (g & Hg & [Hin _]%elem_of_filter_bool)%list_elem_of_fmap. apply Hnot, list_elem_of_fmap. eauto.
  - eapply StronglySorted_weaken; [|apply sort_slice_sorted; apply _].
    intros x y. unfold not_after, finding_less, After. case_match; split_guards; rewrite ?Z.ltb_ge; lia.
Qed.

#[export] Instance audit_less_order : StrictWeakOrder audit_less.
Proof.
  split; unfold audit_less, After, Equal.
  - intros x y. repeat (case_match; split_guards); rewrite ?Z.ltb_lt, ?Z.ltb_ge; try lia.
    intros Hlt. apply ltb_ge. by right.
  - intros x y z. repeat (case_match; split_guards); rewrite ?Z.ltb_ge; try lia.
    rewrite !ltb_ge. intros [Hxy|Hxy] [Hyz|Hyz]; rewrite ?Hxy, ?Hyz in *; auto.
    right. by eapply ltb_trans.
Qed.

(** [ListAuditEvents] answers every recorded event as often as it was recorded, the latest first, and
    changes nothing. *)
Theorem ListAuditEvents_spec (s : MemoryStore) :
  ∃ events, ListAuditEvents Background s = (Ok events, s) ∧
    events ≡ₚ ms_auditEvents s ∧
    StronglySorted (λ x y, audit_CreatedAt y ≤ audit_CreatedAt x) events.
Proof.
  eexists. split; [|split; [apply (sort_slice_perm audit_less)|]].
  - unfold ListAuditEvents. by rewrite run_bind_check, run_bind_get, run_ret.
  - eapply StronglySorted_weaken; [|apply sort_slice_sorted; apply _].
    intros x y. unfold not_after, audit_less, After, Equal. case_match; split_guards; rewrite ?Z.ltb_ge; lia.
Qed.

End Listings.

(** * Findings *)

Section Findings.
Context `{RangeOrder}.

(** Suppression looks at what a finding is about only. *)
Definition same_subject (f g : Finding) : Prop :=
  finding_ID f = finding_ID g ∧ finding_CorrelationGroup f = finding_CorrelationGroup g ∧
  finding_Source f = finding_Source g.

Lemma covered_same now m f g : same_subject f g → covered now m f ↔ covered now m g.
Proof. intros (Hid & Hgroup & Hsource). unfold covered, excuses. by rewrite Hid, Hgroup, Hsource. Qed.

Lemma merge_same existing f : same_subject (merge_finding existing f) f.
Proof. unfold merge_finding. by repeat case_match. Qed.

Lemma suppress_fold now f l :
  foldl (suppress_by now) f l =
    if existsb (active_exception now f) l then f <| finding_Status := FindingSuppressed |> else f.
Proof.
  assert (∀ l, foldl (suppress_by now) (f <| finding_Status := FindingSuppressed |>) l =
    f <| finding_Status := FindingSuppressed |>) as Hfix.
  { clear l. intros l. induction l as [|e l IH]; cbn; [done|].
    unfold suppress_by at 2. case_match; exact IH. }
  induction l as [|e l IH]; cbn; [done|]. unfold suppress_by at 2.
  destruct (active_exception now f e); cbn; [apply Hfix | apply IH].
Qed.

Definition sticky_status (status : string) : bool :=
  (status == FindingInReview) || (status == FindingSuppressed) || (status == FindingRemediating) ||
  (status == FindingResolved).

(** A scan result stored over an earlier one: an exception in force suppresses it; otherwise a result
    that reports the finding open leaves it in review, suppressed, remediating or resolved, with its
    remediation state; and the creation time is the earliest one known. *)
Theorem SyncFinding_spec (now : Time) (f : Finding) (s : MemoryStore) :
  ∃ f', SyncFinding Background now f s = (Ok tt, set_finding (finding_ID f) f' s) ∧
    same_subject f' f ∧
    (covered now (ms_exceptions s) f → finding_Status f' = FindingSuppressed) ∧
    (¬ covered now (ms_exceptions s) f →
      match ms_findings s !! finding_ID f with
      | Some existing =>
          if (finding_Status f == FindingOpen) && sticky_status (finding_Status existing)
          then finding_Status f' = finding_Status existing ∧
               finding_RemediationState f' = finding_RemediationState existing
          else finding_Status f' = finding_Status f ∧ finding_RemediationState f' = finding_RemediationState f
      | None => f' = f
      end) ∧
    (∀ existing, ms_findings s !! finding_ID f = Some existing → finding_CreatedAt existing ≠ 0 →
      finding_CreatedAt f' = if finding_CreatedAt f =? 0 then finding_CreatedAt existing
                             else Z.min (finding_CreatedAt existing) (finding_CreatedAt f)).
Proof.
  unfold SyncFinding. rewrite run_bind_check, run_bind_get. cbv zeta.
  set (m := match ms_findings s !! finding_ID f with Some existing => merge_finding existing f | None => f end).
  assert (same_subject m f) as Hm.
  { subst m. destruct (ms_findings s !! finding_ID f); [apply merge_same | done]. }
  rewrite suppress_fold. change (existsb (active_exception now m) (range (ms_exceptions s)).*2) with
    (hasActiveExceptionLocked now s m).
  set (f' := if hasActiveExceptionLocked now s m then _ else m).
  assert (same_subject f' f) as Hf' by (subst f'; by destruct (hasActiveExceptionLocked now s m)).
  exists f'. split_and!; [| done | | |].
  - rewrite run_modify_last. by destruct Hf' as [-> _].
  - intros Hc. apply (covered_same _ _ _ _ Hm), hasActive_covered in Hc. subst f'. by rewrite Hc.
  - intros Hc. rewrite <- (covered_same _ _ _ _ Hm), <- hasActive_covered in Hc. subst f'.
    apply not_true_is_false in Hc. rewrite Hc. subst m.
    destruct (ms_findings s !! finding_ID f) as [existing|]; [|done].
    unfold merge_finding, sticky_status. repeat case_match; done.
  - intros existing Hk Hz. subst f' m. rewrite Hk. clear Hm Hf'.
    transitivity (finding_CreatedAt (merge_finding existing f)); [by destruct (hasActiveExceptionLocked _ _ _)|].
    unfold merge_finding, IsZero, Before. apply Z.eqb_neq in Hz. rewrite Hz. cbn [negb andb].
    set (f1 := if (_ && _) then _ else f).
    assert (finding_CreatedAt f1 = finding_CreatedAt f) as -> by (subst f1; by destruct (_ && _)).
    destruct (Z.eqb_spec (finding_CreatedAt f) 0); cbn [orb]; [done|].
    destruct (Z.ltb_spec (finding_CreatedAt existing) (finding_CreatedAt f)); cbn; [lia|].
    subst f1. destruct (_ && _); cbn; lia.
Qed.

(** ** Expiry of evidence *)

Definition evidence_stale (observedBefore : Time) (f : Finding) : bool :=
  ((finding_Status f == FindingOpen) || (finding_Status f == FindingInReview)) &&
  negb (IsZero (LastObservedAt f)) && Before (LastObservedAt f) observedBefore.

Definition expired now (f : Finding) : Finding :=
  f <| finding_Status := FindingExpired |> <| finding_RemediationState := "evidence_expired" |>
    <| finding_UpdatedAt := now |>.

Lemma expire_finding_step now t s k f :
  expire_finding now t s (k, f) =
    if evidence_stale t f
    then log_event "system" "finding.expired" k "Finding evidence exceeded the configured freshness window" now
           (set_finding k (expired now f) s)
    else s.
Proof.
  unfold expire_finding, evidence_stale, expired.
  destruct (finding_Status f == FindingOpen), (finding_Status f == FindingInReview),
    (IsZero (LastObservedAt f)), (Before (LastObservedAt f) t); done.
Qed.

Lemma expire_findings_log now t s l :
  ∃ events, ms_auditEvents (foldl (expire_finding now t) s l) = ms_auditEvents s ++ events ∧
    map audit_Subject events = map fst (List.filter (λ kv, evidence_stale t kv.2) l) ∧
    Forall (λ e, audit_Action e = "finding.expired" ∧ audit_Actor e = "system") events.
Proof.
  revert s. induction l as [|[k f] l IH]; intros s; cbn [foldl].
  { exists []. by rewrite app_nil_r. }
  destruct (IH (expire_finding now t s (k, f))) as (events & Hlog & Hsub & Hall).
  rewrite Hlog, expire_finding_step. cbn. destruct (evidence_stale t f).
  - eexists (_ :: events). split; [symmetry; apply (app_assoc _ [_] events)|].
    cbn. rewrite Hsub. split; [done|]. by constructor.
  - by exists events.
Qed.

(** [ExpireFindings] expires exactly the open and reviewed findings last observed, at a set time, before
    the cutoff, leaves every other finding as it is, and records one event for each expired one. *)
Theorem ExpireFindings_spec (now observedBefore : Time) (s : MemoryStore) :
  ∃ s', ExpireFindings Background now observedBefore s = (Ok tt, s') ∧
    (∀ k, ms_findings s' !! k =
      (λ f, if evidence_stale observedBefore f then expired now f else f) <$> ms_findings s !! k) ∧
    ∃ events, ms_auditEvents s' = ms_auditEvents s ++ events ∧
      NoDup (map audit_Subject events) ∧
      (∀ k, k ∈ map audit_Subject events ↔
        ∃ f, ms_findings s !! k = Some f ∧ evidence_stale observedBefore f = true) ∧
      Forall (λ e, audit_Action e = "finding.expired" ∧ audit_Actor e = "system") events.
Proof.
  eexists. split; [unfold ExpireFindings; by rewrite run_bind_check, run_modify_last|]. split.
  - intros k.
    rewrite (foldl_proj ms_findings (expire_finding now observedBefore) (λ m kv,
      match (if evidence_stale observedBefore kv.2 then Some (expired now kv.2) else None) with
      | Some f => <[kv.1 := f]> m | None => m end)).
    + etrans; [exact (range_update_lookup (λ _ f, if evidence_stale observedBefore f then Some (expired now f) else None) _ k)|].
      destruct (ms_findings s !! k); cbn; [|done]. by destruct (evidence_stale _ _).
    + intros s' [k' f']. rewrite expire_finding_step. by destruct (evidence_stale _ _).
  - destruct (expire_findings_log now observedBefore s (range (ms_findings s))) as (events & Hlog & Hsub & Hall).
    exists events. split; [done|]. rewrite Hsub. split; [|split; [|done]].
    + pose proof (NoDup_range (ms_findings s)) as Hnd. revert Hnd. generalize (range (ms_findings s)) as l.
      induction l as [|[k f] l IH]; cbn; [by constructor|]. intros [Hnot Hnd]%NoDup_cons.
      destruct (evidence_stale _ _); [|by apply IH]. cbn. constructor; [|by apply IH].
      intros (kv & -> & [Hin _]%elem_of_filter_bool)%list_elem_of_fmap. apply Hnot, list_elem_of_fmap. eauto.
    + intros k. rewrite list_elem_of_fmap. split.
      * intros ([k' f] & -> & [Hin Hst]%elem_of_filter_bool). exists f. by rewrite <- elem_of_range.
      * intros (f & Hk & Hst). exists (k, f). rewrite elem_of_filter_bool, elem_of_range. done.
Qed.

(** A manual status change succeeds exactly with an actor and a reason, to open or in review, on a
    finding no remediation or resolution backs; it then changes that finding alone and records who
    did it and why. *)
Theorem UpdateFindingStatus_spec (now : Time) (id status actor reason : string) (s s' : MemoryStore) (f' : Finding) :
  UpdateFindingStatus Background now id status actor reason s = (Ok f', s') ↔
  ∃ f, ms_findings s !! id = Some f ∧ actor ≠ "" ∧ TrimSpace reason ≠ "" ∧
    status ∈ [FindingOpen; FindingInReview] ∧ finding_Status f ∉ [FindingResolved; FindingRemediating] ∧
    f' = f <| finding_Status := status |> <| finding_UpdatedAt := now |> ∧
    s' = log_event actor "finding.status.changed" id reason now (set_finding id f' s).
Proof.
  unfold UpdateFindingStatus. rewrite run_bind_check, run_bind_reject. split.
  - intros Hrun. run_hyp Hrun. eexists. split; [done|]. split; [done|]. split; [done|].
    split_alternatives; (split; [set_solver|]; split; [set_solver | done]).
  - intros (f & Hk & Hactor & Hreason & Hstatus & Hold & -> & ->).
    apply String.eqb_neq in Hactor, Hreason. rewrite Hactor, Hreason. cbn [orb]. rewrite run_bind_reject.
    assert ((status != FindingOpen) && (status != FindingInReview) = false) as ->.
    { apply elem_of_cons in Hstatus as [->| ->%list_elem_of_singleton]; done. }
    rewrite run_bind_get, run_bind_lookup, Hk, run_bind_reject.
    assert ((finding_Status f == FindingResolved) || (finding_Status f == FindingRemediating) = false) as ->.
    { apply orb_false_iff. rewrite !String.eqb_neq. set_solver. }
    by rewrite !run_bind_modify, run_ret.
Qed.

End Findings.

(** * Chaos run versions *)

(** Optimistic locking: an update succeeds exactly against the stored version, which it increments;
    any other expectation, in particular a second update that read the same version, is a conflict
    that changes nothing. *)
Theorem UpdateChaosRun_optimistic (run : ChaosExperimentRun) (expectedVersion : Z) (actor auditAction : string)
    (s s' : MemoryStore) (r : result ChaosExperimentRun)
    (Hrun : UpdateChaosRun Background run expectedVersion actor auditAction s = (r, s')) :
  match ms_chaosRuns s !! chaos_ID run with
  | None => r = Err ErrNotFound ∧ s' = s
  | Some current =>
      if (chaos_Version current =? expectedVersion) && (chaos_Version run =? expectedVersion) then
        let stored := run <| chaos_Version := expectedVersion + 1 |> in
        r = Ok stored ∧ ms_chaosRuns s' = <[chaos_ID run := stored]> (ms_chaosRuns s) ∧
        ∀ run' actor' auditAction', chaos_ID run' = chaos_ID run →
          UpdateChaosRun Background run' expectedVersion actor' auditAction' s' = (Err ErrConflict, s')
      else r = Err ErrConflict ∧ s' = s
  end.
Proof.
  unfold UpdateChaosRun in Hrun. rewrite run_bind_check, run_bind_get, run_bind_lookup in Hrun.
  destruct (ms_chaosRuns s !! chaos_ID run) as [current|]; [|by apply run_result in Hrun as [-> ->]].
  rewrite run_bind_reject in Hrun.
  destruct (Z.eqb_spec (chaos_Version current) expectedVersion) as [Hc|]; cbn in Hrun; [|by apply run_result in Hrun as [-> ->]].
  destruct (Z.eqb_spec (chaos_Version run) expectedVersion) as [Hr|]; cbn in Hrun; [|by apply run_result in Hrun as [-> ->]].
  rewrite !run_bind_modify, run_ret in Hrun. apply run_result in Hrun as [-> <-]. cbv zeta. rewrite Hr.
  set (stored := run <| chaos_Version := expectedVersion + 1 |>).
  assert (ms_chaosRuns (appendChaosAuditLocked stored actor auditAction (set_chaos_run stored s)) =
    <[chaos_ID run := stored]> (ms_chaosRuns s)) as Hstored.
  { unfold appendChaosAuditLocked. by destruct (auditAction == ""). }
  split; [done|]. split; [done|]. intros run' actor' auditAction' Hid. unfold UpdateChaosRun.
  rewrite run_bind_check, run_bind_get, run_bind_lookup, Hstored, Hid, lookup_insert_eq, run_bind_reject.
  change (chaos_Version stored) with (expectedVersion + 1).
  destruct (Z.eqb_spec (expectedVersion + 1) expectedVersion); [lia | done].
Qed.

(** * Concrete runs *)

Definition quota_finding : Finding :=
  sample_finding <| finding_ID := "f-2" |> <| finding_Title := "ResourceQuota missing" |>.
Definition two_findings : MemoryStore :=
  NewMemoryStore [WithIntegrations []; WithFindings [sample_finding; quota_finding]].

Lemma create_plan_idempotent_witness :
  ∃ plan s', @CreateRemediationPlan canonical_order Background 200 "f-1" "ana" ["k1"] two_findings = (Ok plan, s') ∧
    plan_FindingID plan = "f-1" ∧
    @CreateRemediationPlan canonical_order Background 900 "f-1" "ana" ["k1"] s' = (Ok plan, s') ∧
    @CreateRemediationPlan canonical_order Background 900 "f-2" "ana" ["k1"] s' =
      (Err (conflict "idempotency key was used for a different request"), s').
Proof.
  destruct (@CreateRemediationPlan canonical_order Background 200 "f-1" "ana" ["k1"] two_findings)
    as [[plan|e] s'] eqn:Hrun; [|exfalso; by vm_compute in Hrun].
  exists plan, s'. split; [reflexivity|].
  destruct (create_plan_idempotent (H := canonical_order) Background 200 "f-1" "ana" "k1" two_findings s' plan)
    as (Hid & Hagain & Hother); [apply inv_init | done | exact Hrun |].
  split; [exact Hid|]. split; [apply Hagain|]. apply Hother; [|done].
  assert (is_Some (ms_findings (@CreateRemediationPlan canonical_order Background 200 "f-1" "ana" ["k1"] two_findings).2
    !! "f-2")) as Hf by (vm_compute; by eexists).
  by rewrite Hrun in Hf.
Defined.

Definition pending_state : MemoryStore :=
  (@play canonical_order sample_start [] [(200, CallCreateRemediationPlan "f-1" "ana" [])]).1.

Lemma pending_inv : store_inv pending_state.
Proof.
  apply (policy_preserving_inv (H := canonical_order) pending_state
    (@play canonical_order sample_start [] [(200, CallCreateRemediationPlan "f-1" "ana" [])]).2).
  unfold pending_state. apply play_preserving; [unfold sample_start; apply preserving_init|].
  constructor; [done | constructor].
Qed.

(** After the rejection a second plan is created for the same finding. *)
Definition rejected_state : MemoryStore :=
  (decide Background 300 "approval-plan-f-1-001" "bo" "no" ApprovalRejected pending_state).2.
Definition second_plan_state : MemoryStore :=
  (@perform canonical_order Background 350 (CallCreateRemediationPlan "f-1" "dee" []) rejected_state).2.

Lemma second_plan_later : later_state (H := canonical_order) rejected_state second_plan_state.
Proof.
  unfold second_plan_state.
  destruct (@perform canonical_order Background 350 (CallCreateRemediationPlan "f-1" "dee" []) rejected_state) as [r s2] eqn:Hrun.
  eapply later_call; [apply later_here | | | exact Hrun]; [|discriminate].
  assert (is_Some (ms_findings rejected_state !! "f-1")) as [f Hf] by (vm_compute; by eexists).
  intros finding Hfinding _. rewrite Hfinding in Hf. revert Hfinding. clear. vm_compute. by intros [= <-].
Qed.

Lemma decided_once_witness :
  ∃ approval, ms_approvals second_plan_state !! "approval-plan-f-1-001" = Some approval ∧
    approval_Status approval = ApprovalRejected ∧
    decide Background 400 "approval-plan-f-1-001" "cy" "yes" ApprovalApproved second_plan_state =
      (Err (invalid "approval is already rejected"), second_plan_state) ∧
    ∃ msg, ExecuteRemediationPlan Background 500 "plan-f-1-001" "ana" second_plan_state =
      (Err (invalid msg), second_plan_state).
Proof.
  destruct (decide Background 300 "approval-plan-f-1-001" "bo" "no" ApprovalRejected pending_state)
    as [[approval|e] s'] eqn:Hrun; [|exfalso; by vm_compute in Hrun].
  assert (rejected_state = s') as Hs' by (unfold rejected_state; by rewrite Hrun).
  pose proof second_plan_later as Hlater. rewrite Hs' in Hlater.
  destruct (decided_once (H := canonical_order) Background 300 "approval-plan-f-1-001" "bo" "no" ApprovalRejected pending_state s'
    second_plan_state approval) as (_ & Hstatus & _ & _ & Hstored & Hagain & Hrefused);
    [apply pending_inv | right; left | exact Hrun | exact Hlater |].
  exists approval. split; [exact Hstored|]. split; [exact Hstatus|]. split; [apply Hagain|].
  assert (is_Some (ms_plans pending_state !! "plan-f-1-001")) as [p Hp] by (vm_compute; by eexists).
  assert (approval_SubjectRef approval = "plan-f-1-001") as Hsubject
    by (revert Hrun; clear; vm_compute; by intros [= <- _]).
  rewrite <- Hsubject in Hp |- *. apply (Hrefused 500 "ana" p eq_refl Hp). rewrite Hsubject in Hp.
  revert Hp. clear. vm_compute. by intros [= <-].
Defined.

Definition sample_chaos : ChaosExperimentRun :=
  zero_ChaosExperimentRun <| chaos_ID := "c-1" |> <| chaos_Version := 1 |> <| chaos_Status := ChaosPendingApproval |>.
Definition chaos_state : MemoryStore := set_chaos_run sample_chaos sample_start.

Lemma UpdateChaosRun_optimistic_witness :
  let r := UpdateChaosRun Background (sample_chaos <| chaos_Status := ChaosApproved |>) 1 "bo" "chaos.approved" chaos_state in
  is_ok r.1 = true ∧
  UpdateChaosRun Background (sample_chaos <| chaos_Status := ChaosRejected |>) 1 "cy" "chaos.rejected" r.2 =
    (Err ErrConflict, r.2).
Proof.
  cbv zeta. destruct (UpdateChaosRun Background (sample_chaos <| chaos_Status := ChaosApproved |>) 1 "bo"
    "chaos.approved" chaos_state) as [r s'] eqn:Hrun.
  pose proof (UpdateChaosRun_optimistic (sample_chaos <| chaos_Status := ChaosApproved |>) 1 "bo" "chaos.approved"
    chaos_state s' r Hrun) as Hspec.
  assert (ms_chaosRuns chaos_state !! chaos_ID (sample_chaos <| chaos_Status := ChaosApproved |>) = Some sample_chaos)
    as Hk by (vm_compute; reflexivity).
  rewrite Hk in Hspec. cbn in Hspec. destruct Hspec as (-> & _ & Hagain). split; [done|]. by apply Hagain.
Defined.
