(* ===== verification/StoreReports.v ===== *)
(** The two reports computed from the store, the dashboard and the evidence bundle: what they count
    and select, for every order of map iteration. *)
From Stdlib Require Import SpecFloat.
From S2P Require Import Prelude GoLib Core Planner Store StoreProps StoreOps.

Local Open Scope Z_scope.

(** * Counting *)

Section Counting.
Context {A : Type}.
Implicit Types (p : A → bool) (l : list A).

Definition count_of p l : Z := Z.of_nat (length (List.filter p l)).

Lemma count_fold p l n : foldl (λ n x, count_if (p x) n) n l = n + count_of p l.
Proof.
  unfold count_of. revert n. induction l as [|x l IH]; intros n; cbn; [lia|].
  rewrite IH. unfold count_if. destruct (p x); cbn; lia.
Qed.

Lemma count_matching_of p l : count_matching p l = count_of p l.
Proof. apply count_fold. Qed.

Lemma count_all l : count_of (λ _, true) l = Z.of_nat (length l).
Proof. unfold count_of. f_equal. induction l; cbn; congruence. Qed.

(** [m[key(x)]++] for every element. *)
Lemma count_in_fold (key : A → string) l (m : gmap string Z) k :
  default 0 (foldl (λ m x, count_in (key x) m) m l !! k) = default 0 (m !! k) + count_of (λ x, key x == k) l.
Proof.
  unfold count_of. revert m. induction l as [|x l IH]; intros m; cbn; [lia|].
  rewrite IH. unfold count_in. destruct (String.eqb_spec (key x) k) as [->|Hne].
  - rewrite lookup_insert_eq. cbn. lia.
  - by rewrite lookup_insert_ne.
Qed.

(** A sum of [int]s: wrapping at each addition or once at the end is the same. *)
Lemma wrap64_add a b : wrap64 (wrap64 a + b) = wrap64 (a + b).
Proof.
  unfold wrap64. f_equal.
  replace ((a + 2 ^ 63) mod 2 ^ 64 - 2 ^ 63 + b + 2 ^ 63) with ((a + 2 ^ 63) mod 2 ^ 64 + b) by ring.
  rewrite Zplus_mod_idemp_l. f_equal. ring.
Qed.

Definition sum_of (f : A → Z) l : Z := foldr (λ x t, f x + t) 0 l.

Lemma sum_fold (f : A → Z) l t : foldl (λ t x, wrap64 (t + f x)) (wrap64 t) l = wrap64 (t + sum_of f l).
Proof.
  revert t. induction l as [|x l IH]; intros t; cbn [foldl sum_of foldr List.filter]; [by rewrite Z.add_0_r|].
  rewrite wrap64_add, IH. by rewrite Z.add_assoc.
Qed.

Lemma sum_fold_if (p : A → bool) (f : A → Z) l t :
  foldl (λ t x, if p x then wrap64 (t + f x) else t) (wrap64 t) l = wrap64 (t + sum_of f (List.filter p l)).
Proof.
  revert t. induction l as [|x l IH]; intros t; cbn [foldl sum_of foldr List.filter]; [by rewrite Z.add_0_r|].
  destruct (p x); cbn [sum_of foldr]; [|apply IH]. rewrite wrap64_add, IH. by rewrite Z.add_assoc.
Qed.

End Counting.

(** * The dashboard *)

Section Dashboard.
Context `{RangeOrder}.

Definition open_critical (f : Finding) : bool :=
  (finding_Severity f == SeverityCritical) && (finding_Status f != FindingResolved) &&
  (finding_Status f != FindingSuppressed).
Definition safely_fixable (f : Finding) : bool :=
  (finding_Fixability f == FixabilityDeterministic) || (finding_Fixability f == FixabilityGated).
Definition awaiting (now : Time) (a : ApprovalRequest) : bool :=
  (approval_Status a == ApprovalPending) && After (approval_ExpiresAt a) now.

(** A field of the dashboard through the findings loop. *)
Lemma dashboard_field {T} (field : Dashboard → T) (g : T → Finding → T) start total namespaces l :
  (∀ d t n f, field (dashboard_finding (d, t, n) f).1.1 = g (field d) f) →
  field (foldl dashboard_finding (start, total, namespaces) l).1.1 = foldl g (field start) l.
Proof.
  intros Hg. apply (foldl_proj (λ acc : Dashboard * Z * gset string, field acc.1.1)).
  intros [[d t] n] f. apply Hg.
Qed.

Lemma dashboard_total start total namespaces l :
  (foldl dashboard_finding (start, wrap64 total, namespaces) l).1.2 = wrap64 (total + sum_of finding_RiskScore l).
Proof.
  rewrite <- sum_fold. apply (foldl_proj (λ acc : Dashboard * Z * gset string, acc.1.2)). by intros [[d t] n] f.
Qed.

(** The figures of the dashboard, computed after expired exceptions are lifted. *)
Theorem Dashboard_spec (now : Time) (s : MemoryStore) :
  let s' := expireExceptionsLocked now s in
  let findings := (range (ms_findings s')).*2 in
  ∃ d, GetDashboard Background now s = (Ok d, s') ∧
    dashboard_TotalFindings d = Z.of_nat (size (ms_findings s')) ∧
    dashboard_OpenCritical d = count_of open_critical findings ∧
    dashboard_ActiveRemediations d = count_of (λ f, finding_Status f == FindingRemediating) findings ∧
    dashboard_FindingsWithSafeFix d = count_of safely_fixable findings ∧
    dashboard_RiskReduced d =
      wrap64 (sum_of finding_RiskScore (List.filter (λ f, finding_Status f == FindingResolved) findings)) ∧
    (∀ k, default 0 (dashboard_FindingsBySeverity d !! k) = count_of (λ f, finding_Severity f == k) findings) ∧
    (∀ k, default 0 (dashboard_FindingsBySource d !! k) = count_of (λ f, finding_Source f == k) findings) ∧
    (∀ k, default 0 (dashboard_RemediationByState d !! k) = count_of (λ f, finding_RemediationState f == k) findings) ∧
    dashboard_VerifiedRemediations d = count_of (λ r, run_State r == RunSucceeded) (range (ms_runs s')).*2 ∧
    dashboard_PendingApprovals d = count_of (awaiting now) (range (ms_approvals s')).*2 ∧
    dashboard_MeanRiskScore d =
      (if Nat.eqb (size (ms_findings s')) 0 then S754_zero false
       else float64_div (float64_of_int (wrap64 (sum_of finding_RiskScore findings)))
              (float64_of_int (Z.of_nat (size (ms_findings s'))))) ∧
    4 ≤ dashboard_ProtectedNamespaces d.
Proof.
  cbv zeta. set (s' := expireExceptionsLocked now s). set (findings := (range (ms_findings s')).*2).
  assert (Z.of_nat (length findings) = Z.of_nat (size (ms_findings s'))) as Hsize.
  { unfold findings. by rewrite length_fmap, length_range. }
  exists (build_dashboard now s'). split.
  { unfold GetDashboard. by rewrite run_bind_check, run_bind_modify, run_bind_get, run_ret. }
  unfold build_dashboard. fold findings.
  set (start := zero_Dashboard <| dashboard_ProtectedNamespaces := 4 |> <| dashboard_BundledEnginesOnline := _ |>).
  pose proof (λ T field g, @dashboard_field T field g start 0 ∅ findings) as Hfield.
  pose proof (dashboard_total start 0 ∅ findings) as Htotal. change (wrap64 0) with 0 in Htotal.
  destruct (foldl dashboard_finding (start, 0, ∅) findings) as [[d t] n]. cbn [fst snd] in *.
  assert (dashboard_TotalFindings d = Z.of_nat (size (ms_findings s'))) as HTotal.
  { rewrite (Hfield _ dashboard_TotalFindings (λ n _, count_if true n)) by done.
    change (λ n (_ : Finding), count_if true n) with (λ n (x : Finding), count_if ((λ _ : Finding, true) x) n).
    rewrite count_fold, count_all, Hsize. done. }
  split_and!.
  - exact HTotal.
  - etrans; [exact (eq_refl (dashboard_OpenCritical d)) |].
    rewrite (Hfield _ dashboard_OpenCritical (λ n f, count_if (open_critical f) n)) by done.
    etrans; [apply count_fold | reflexivity].
  - etrans; [exact (eq_refl (dashboard_ActiveRemediations d)) |].
    rewrite (Hfield _ dashboard_ActiveRemediations (λ n f, count_if (finding_Status f == FindingRemediating) n)) by done.
    etrans; [apply count_fold | reflexivity].
  - etrans; [exact (eq_refl (dashboard_FindingsWithSafeFix d)) |].
    rewrite (Hfield _ dashboard_FindingsWithSafeFix (λ n f, count_if (safely_fixable f) n)) by done.
    etrans; [apply count_fold | reflexivity].
  - etrans; [exact (eq_refl (dashboard_RiskReduced d)) |].
    rewrite (Hfield _ dashboard_RiskReduced (λ t f,
      if finding_Status f == FindingResolved then wrap64 (t + finding_RiskScore f) else t)) by done.
    apply (sum_fold_if _ _ _ 0).
  - intros k. change (dashboard_FindingsBySeverity _) with (dashboard_FindingsBySeverity d).
    rewrite (Hfield _ dashboard_FindingsBySeverity (λ m f, count_in (finding_Severity f) m)) by done.
    by rewrite count_in_fold.
  - intros k. change (dashboard_FindingsBySource _) with (dashboard_FindingsBySource d).
    rewrite (Hfield _ dashboard_FindingsBySource (λ m f, count_in (finding_Source f) m)) by done.
    by rewrite count_in_fold.
  - intros k. change (dashboard_RemediationByState _) with (dashboard_RemediationByState d).
    rewrite (Hfield _ dashboard_RemediationByState (λ m f, count_in (finding_RemediationState f) m)) by done.
    by rewrite count_in_fold.
  - apply count_matching_of.
  - apply count_matching_of.
  - cbn. rewrite HTotal, Htotal. destruct (Nat.eqb_spec (size (ms_findings s')) 0) as [->|Hne]; cbn.
    + by rewrite (Hfield _ dashboard_MeanRiskScore (λ m _, m)), (foldl_invariant (λ m, m = S754_zero false)) by done.
    + destruct (Z.ltb_spec 0 (Z.of_nat (size (ms_findings s')))); [done | lia].
  - cbn. assert (dashboard_ProtectedNamespaces d = 4) as ->.
    { rewrite (Hfield _ dashboard_ProtectedNamespaces (λ m _, m)) by done.
      by apply (foldl_invariant (λ m, m = 4)). }
    destruct (Z.ltb_spec 4 (Z.of_nat (size n))); lia.
Qed.

End Dashboard.

(** * The evidence bundle *)

Section Bundle.
Context `{RangeOrder}.

Lemma sort_slice_nil {A} (less : A → A → bool) l : sort_slice less l = [] ↔ l = [].
Proof.
  split; [|by intros ->]. intros Hnil. apply Permutation_nil. rewrite <- Hnil. apply sort_slice_perm.
Qed.

Lemma elem_of_bundle {A} (less : A → A → bool) (p : A → bool) (m : gmap string A) x :
  x ∈ sort_slice less (List.filter p (range m).*2) ↔ (∃ k, m !! k = Some x) ∧ p x = true.
Proof. by rewrite elem_of_sort_slice, elem_of_filter_bool, elem_of_range_snd. Qed.

Lemma hasPlan_spec plans id : hasPlan plans id = true ↔ ∃ p, p ∈ plans ∧ plan_ID p = id.
Proof.
  unfold hasPlan. rewrite existsb_exists. setoid_rewrite String.eqb_eq. setoid_rewrite <- list_elem_of_In. done.
Qed.
Lemma hasRun_spec runs id : hasRun runs id = true ↔ ∃ r, r ∈ runs ∧ run_ID r = id.
Proof.
  unfold hasRun. rewrite existsb_exists. setoid_rewrite String.eqb_eq. setoid_rewrite <- list_elem_of_In. done.
Qed.
Lemma hasFinding_spec findings id : hasFinding findings id = true ↔ ∃ f, f ∈ findings ∧ finding_ID f = id.
Proof.
  unfold hasFinding. rewrite existsb_exists. setoid_rewrite String.eqb_eq. setoid_rewrite <- list_elem_of_In. done.
Qed.

(** The evidence bundle of a scope holds exactly the findings in scope, the plans named by the scope or
    about such a finding, the runs of those plans, the chaos runs named by the scope, and the audit
    events about any of these plans and runs; its summary counts them; and it is an error exactly when a
    scope other than [all] selects nothing. The store does not change. *)
Theorem EvidenceBundle_spec (now : Time) (scope : string) (s : MemoryStore) :
  let scope' := if scope == "" then "all" else scope in
  let all := scope' = "all" in
  let b := build_bundle now scope' s in
  (∀ f, f ∈ bundle_Findings b ↔ (∃ k, ms_findings s !! k = Some f) ∧ scopeMatchesFinding scope' f = true) ∧
  (∀ p, p ∈ bundle_Plans b ↔ (∃ k, ms_plans s !! k = Some p) ∧
    (all ∨ scope' = plan_ID p ∨ scope' = plan_FindingID p ∨
     ∃ f, f ∈ bundle_Findings b ∧ finding_ID f = plan_FindingID p)) ∧
  (∀ r, r ∈ bundle_Runs b ↔ (∃ k, ms_runs s !! k = Some r) ∧
    (all ∨ scope' = run_ID r ∨ scope' = run_PlanID r ∨ ∃ p, p ∈ bundle_Plans b ∧ plan_ID p = run_PlanID r)) ∧
  (∀ r, r ∈ bundle_ChaosRuns b ↔ (∃ k, ms_chaosRuns s !! k = Some r) ∧
    (all ∨ scope' = chaos_ID r ∨ scope' = chaos_ExperimentID r)) ∧
  (∀ e, e ∈ bundle_AuditEvents b ↔ e ∈ ms_auditEvents s ∧
    (all ∨ audit_Subject e = scope' ∨ (∃ p, p ∈ bundle_Plans b ∧ plan_ID p = audit_Subject e) ∨
     ∃ r, r ∈ bundle_Runs b ∧ run_ID r = audit_Subject e)) ∧
  bundle_Summary b !! "auditEvents" = Some (Z.of_nat (length (bundle_AuditEvents b))) ∧
  EvidenceBundle_op Background now scope s =
    (if bundle_empty b && (scope' != "all") then (Err ErrNotFound, s) else (Ok b, s)).
Proof.
  cbv zeta. set (scope' := if scope == "" then "all" else scope). unfold build_bundle.
  cbn [bundle_Findings bundle_Plans bundle_Runs bundle_ChaosRuns bundle_AuditEvents bundle_Summary].
  split_and!.
  - intros f. apply elem_of_bundle.
  - intros p. rewrite elem_of_bundle, !orb_true_iff, !String.eqb_eq, hasFinding_spec.
    setoid_rewrite elem_of_sort_slice. tauto.
  - intros r. rewrite elem_of_bundle, !orb_true_iff, !String.eqb_eq, hasPlan_spec.
    setoid_rewrite elem_of_sort_slice. tauto.
  - intros r. rewrite elem_of_bundle, !orb_true_iff, !String.eqb_eq. tauto.
  - intros e. rewrite elem_of_sort_slice, elem_of_filter_bool, !orb_true_iff, !String.eqb_eq, hasPlan_spec, hasRun_spec.
    setoid_rewrite elem_of_sort_slice. tauto.
  - rewrite sort_slice_perm. reflexivity.
  - unfold EvidenceBundle_op. rewrite run_bind_check, run_bind_get, run_bind_reject. cbv zeta. fold scope'.
    fold (build_bundle now scope' s). by rewrite run_ret.
Qed.

End Bundle.
