(* ===== verification/Correlation.v ===== *)
(** Correlation of findings and the risk model, [services/api/internal/findings/correlation.go]:
    findings that share a correlation key within a rule's time window are united by a union-find, each
    group gets an identifier derived from its members, and each finding a score. *)
From S2P Require Import Prelude GoLib Sha256 Json Core.

Local Open Scope Z_scope.

Definition CorrelationVersion : string := "v1".
Definition RiskModelVersion : string := "v1".

(** * Configuration *)

Record Config := mkConfig {
  cfg_CriticalBase : Z;
  cfg_HighBase : Z;
  cfg_MediumBase : Z;
  cfg_LowBase : Z;
  cfg_InfoBase : Z;
  cfg_MultiSourcePoints : Z;
  cfg_CorrelatedPointsCap : Z;
  cfg_NetworkPoints : Z;
  cfg_IdentityPoints : Z;
  cfg_ImagePoints : Z;
  cfg_MultiResourcePointsCap : Z;
  cfg_WorkloadWindowMinutes : Z;
  cfg_ImageWindowMinutes : Z;
  cfg_IdentityWindowMinutes : Z;
  cfg_NetworkWindowMinutes : Z
}.
#[export] Instance eta_Config : Eta Config := λ r, mkConfig (cfg_CriticalBase r) (cfg_HighBase r)
    (cfg_MediumBase r) (cfg_LowBase r) (cfg_InfoBase r) (cfg_MultiSourcePoints r)
    (cfg_CorrelatedPointsCap r) (cfg_NetworkPoints r) (cfg_IdentityPoints r) (cfg_ImagePoints r)
    (cfg_MultiResourcePointsCap r) (cfg_WorkloadWindowMinutes r) (cfg_ImageWindowMinutes r)
    (cfg_IdentityWindowMinutes r) (cfg_NetworkWindowMinutes r).

Definition DefaultConfig : Config := mkConfig 90 72 50 28 10 6 6 5 5 3 5 120 1440 60 120.

(** [dst.field = value] for an [int] field: an integer literal in range, [null] leaves the field. *)
Definition decode_int (old : Z) (v : json) : result Z :=
  match v with
  | JNumber literal => match ParseInt literal with Some n => Ok n | None => Err json_error end
  | JNull => Ok old
  | _ => Err json_error
  end.

(** [json.Unmarshal] of one member into a [Config]; unknown names are ignored. *)
Definition set_config_field (name : string) (v : json) (c : Config) : result Config :=
  if EqualFold name "criticalBase" then n ← decode_int (cfg_CriticalBase c) v; Ok (c <| cfg_CriticalBase := n |>)
  else if EqualFold name "highBase" then n ← decode_int (cfg_HighBase c) v; Ok (c <| cfg_HighBase := n |>)
  else if EqualFold name "mediumBase" then n ← decode_int (cfg_MediumBase c) v; Ok (c <| cfg_MediumBase := n |>)
  else if EqualFold name "lowBase" then n ← decode_int (cfg_LowBase c) v; Ok (c <| cfg_LowBase := n |>)
  else if EqualFold name "infoBase" then n ← decode_int (cfg_InfoBase c) v; Ok (c <| cfg_InfoBase := n |>)
  else if EqualFold name "multiSourcePoints" then
    n ← decode_int (cfg_MultiSourcePoints c) v; Ok (c <| cfg_MultiSourcePoints := n |>)
  else if EqualFold name "correlatedPointsCap" then
    n ← decode_int (cfg_CorrelatedPointsCap c) v; Ok (c <| cfg_CorrelatedPointsCap := n |>)
  else if EqualFold name "networkPoints" then
    n ← decode_int (cfg_NetworkPoints c) v; Ok (c <| cfg_NetworkPoints := n |>)
  else if EqualFold name "identityPoints" then
    n ← decode_int (cfg_IdentityPoints c) v; Ok (c <| cfg_IdentityPoints := n |>)
  else if EqualFold name "imagePoints" then
    n ← decode_int (cfg_ImagePoints c) v; Ok (c <| cfg_ImagePoints := n |>)
  else if EqualFold name "multiResourcePointsCap" then
    n ← decode_int (cfg_MultiResourcePointsCap c) v; Ok (c <| cfg_MultiResourcePointsCap := n |>)
  else if EqualFold name "workloadWindowMinutes" then
    n ← decode_int (cfg_WorkloadWindowMinutes c) v; Ok (c <| cfg_WorkloadWindowMinutes := n |>)
  else if EqualFold name "imageWindowMinutes" then
    n ← decode_int (cfg_ImageWindowMinutes c) v; Ok (c <| cfg_ImageWindowMinutes := n |>)
  else if EqualFold name "identityWindowMinutes" then
    n ← decode_int (cfg_IdentityWindowMinutes c) v; Ok (c <| cfg_IdentityWindowMinutes := n |>)
  else if EqualFold name "networkWindowMinutes" then
    n ← decode_int (cfg_NetworkWindowMinutes c) v; Ok (c <| cfg_NetworkWindowMinutes := n |>)
  else Ok c.

Definition config_points (c : Config) : list Z :=
  [cfg_MultiSourcePoints c; cfg_CorrelatedPointsCap c; cfg_NetworkPoints c; cfg_IdentityPoints c;
   cfg_ImagePoints c; cfg_MultiResourcePointsCap c].
Definition config_windows (c : Config) : list Z :=
  [cfg_WorkloadWindowMinutes c; cfg_ImageWindowMinutes c; cfg_IdentityWindowMinutes c;
   cfg_NetworkWindowMinutes c].

Definition bases_descend (c : Config) : bool :=
  (cfg_HighBase c <=? cfg_CriticalBase c) && (cfg_MediumBase c <=? cfg_HighBase c) &&
  (cfg_LowBase c <=? cfg_MediumBase c) && (cfg_InfoBase c <=? cfg_LowBase c) &&
  (0 <=? cfg_InfoBase c) && (cfg_CriticalBase c <=? 100).

Definition ParseConfig (raw : string) : result Config :=
  if raw == "" then Ok DefaultConfig
  else
    config ← with_context "parse risk config"
      (v ← parse_json raw; decode_struct set_config_field DefaultConfig v);
    unless (bases_descend config) "risk severity bases must descend from 0 through 100";;
    unless (negb (existsb (λ value, (value <? 0) || (20 <? value)) (config_points config)))
      "risk factor points must be between 0 and 20";;
    unless (negb (existsb (λ value, (value <? 1) || (10080 <? value)) (config_windows config)))
      "correlation windows must be between 1 and 10080 minutes";;
    Ok config.

Record Rule := mkRule {
  rule_Name : string;
  rule_Window : Duration;
  rule_Key : Finding → string;
  rule_RequireKey : bool
}.

Definition minutes (n : Z) : Duration := wrap64 (n * Minute).

Definition rules (config : Config) : list Rule := [
  mkRule "same-workload" (minutes (cfg_WorkloadWindowMinutes config))
    (λ f, keys_Workload (finding_CorrelationKeys f)) true;
  mkRule "same-image" (minutes (cfg_ImageWindowMinutes config))
    (λ f, keys_Image (finding_CorrelationKeys f)) true;
  mkRule "same-identity" (minutes (cfg_IdentityWindowMinutes config))
    (λ f, keys_Identity (finding_CorrelationKeys f)) true;
  mkRule "same-network-exposure" (minutes (cfg_NetworkWindowMinutes config))
    (λ f, keys_NetworkExposure (finding_CorrelationKeys f)) true].

(** * Correlation keys *)

Definition workload_kinds : list string := ["Deployment"; "StatefulSet"; "DaemonSet"; "ReplicaSet"; "Pod"].

Definition ensureKeys (finding : Finding) : Finding :=
  match finding_Resources finding with
  | [] => finding
  | resource :: _ =>
      let keys := finding_CorrelationKeys finding in
      let keys := if keys_Namespace keys == "" then
                    keys <| keys_Namespace := if ref_Kind resource == "Namespace" then ref_Name resource
                                              else ref_Namespace resource |>
                  else keys in
      let keys := if (keys_Workload keys == "") && existsb (String.eqb (ref_Kind resource)) workload_kinds then
                    keys <| keys_Workload := ref_Namespace resource +:+ "/" +:+ ref_Kind resource +:+ "/" +:+
                                             ref_Name resource |>
                  else keys in
      finding <| finding_CorrelationKeys := keys |>
  end.

(** * Union-find with path compression, on the slice [parents] *)

(** The recursion follows a path to its root; the number of nodes is enough fuel for any path. *)
Fixpoint find_fuel (fuel : nat) (parents : list nat) (value : nat) : nat * list nat :=
  match fuel with
  | O => (value, parents)
  | S fuel' =>
      match parents !! value with
      | None => (value, parents)
      | Some parent =>
          if Nat.eqb parent value then (value, parents)
          else let '(root, parents) := find_fuel fuel' parents parent in (root, <[value := root]> parents)
      end
  end.
Definition find (parents : list nat) (value : nat) : nat * list nat :=
  find_fuel (length parents) parents value.

Definition union (parents : list nat) (left right : nat) : list nat :=
  let '(leftRoot, parents) := find parents left in
  let '(rightRoot, parents) := find parents right in
  if Nat.eqb leftRoot rightRoot then parents else <[rightRoot := leftRoot]> parents.

(** * Groups *)

(** [findings[i]], for an index in range. *)
Definition finding_at (findings : list Finding) (i : nat) : Finding := default zero_Finding (findings !! i).

(** The indices of the findings with each key, in order. *)
Definition group_by_key (rule : Rule) (findings : list Finding) : gmap string (list nat) :=
  foldl (λ byKey index,
    let key := rule_Key rule (finding_at findings index) in
    if (key == "") && rule_RequireKey rule then byKey
    else <[key := default [] (byKey !! key) ++ [index]]> byKey)
    ∅ (seq 0 (length findings)).

(** The two nested loops over the sorted indices: [start] stays while the next finding lies within the
    window after it, else the next finding becomes the start of a new run. *)
Fixpoint link_run (window : Duration) (findings : list Finding) (start : nat) (indexes : list nat)
    (parents : list nat) : list nat :=
  match indexes with
  | [] => parents
  | end_ :: rest =>
      if Sub (finding_UpdatedAt (finding_at findings end_)) (finding_UpdatedAt (finding_at findings start)) <=? window
      then link_run window findings start rest (union parents start end_)
      else link_run window findings end_ rest parents
  end.

Definition earlier (findings : list Finding) (i j : nat) : bool :=
  Before (finding_UpdatedAt (finding_at findings i)) (finding_UpdatedAt (finding_at findings j)).

Definition link_key (rule : Rule) (findings : list Finding) (parents indexes : list nat) : list nat :=
  match sort_slice (earlier findings) indexes with
  | [] => parents
  | start :: rest => link_run (rule_Window rule) findings start rest parents
  end.

Definition stable (value : string) : string :=
  string_take 20 (sha256_hex (CorrelationVersion +:+ nul +:+ value)).

Definition stringsJoin (values : list string) (separator : string) : string := Join values separator.

Definition severity_base (config : Config) (severity : string) : Z :=
  if severity == SeverityCritical then cfg_CriticalBase config
  else if severity == SeverityHigh then cfg_HighBase config
  else if severity == SeverityMedium then cfg_MediumBase config
  else if severity == SeverityLow then cfg_LowBase config
  else if severity == SeverityInfo then cfg_InfoBase config
  else 0.

(** [if cond { add(name, points, reason) }] *)
Definition add_factor (cond : bool) (name : string) (points : Z) (reason : string) (factors : list RiskFactor) :
    list RiskFactor :=
  if cond then factors ++ [mkRiskFactor name points reason] else factors.

Definition score_factors (finding : Finding) (sourceCount groupSize : Z) (config : Config) : list RiskFactor :=
  let keys := finding_CorrelationKeys finding in
  let resources := Z.of_nat (length (finding_Resources finding)) in
  let factors := [] in
  let factors := add_factor (1 <? sourceCount) "multi-source-corroboration" (cfg_MultiSourcePoints config)
    "Independent evidence sources are correlated to the same entity." factors in
  let factors := add_factor (1 <? groupSize) "correlated-findings"
    (Z.min (cfg_CorrelatedPointsCap config) (groupSize - 1))
    "Multiple findings affect the same explicit correlation key within its time window." factors in
  let factors := add_factor (keys_NetworkExposure keys != "") "network-exposure" (cfg_NetworkPoints config)
    "The affected resource has an explicit network exposure correlation key." factors in
  let factors := add_factor (keys_Identity keys != "") "identity-impact" (cfg_IdentityPoints config)
    "The evidence affects an explicit Kubernetes identity or permission path." factors in
  let factors := add_factor (keys_Image keys != "") "image-reuse" (cfg_ImagePoints config)
    "The affected image can be shared by multiple workload replicas or namespaces." factors in
  add_factor (1 <? resources) "multi-resource-blast-radius" (Z.min (cfg_MultiResourcePointsCap config) resources)
    "The finding cites multiple affected Kubernetes resources." factors.

Definition score (finding : Finding) (sourceCount groupSize : Z) (config : Config) : RiskExplanation :=
  let base := severity_base config (finding_Severity finding) in
  let factors := score_factors finding sourceCount groupSize config in
  let final := foldl (λ final factor, wrap64 (final + factor_Points factor)) base factors in
  mkRiskExplanation RiskModelVersion base factors (if 100 <? final then 100 else final).

Section Correlate.
Context `{RangeOrder}.

Definition link_rule (findings : list Finding) (parents : list nat) (rule : Rule) : list nat :=
  foldl (link_key rule findings) parents (range (group_by_key rule findings)).*2.

Definition link_all (config : Config) (findings : list Finding) : list nat :=
  foldl (link_rule findings) (seq 0 (length findings)) (rules config).

(** The loop that collects the members of each root, compressing paths as it goes. *)
Definition collect_group (acc : gmap nat (list nat) * list nat) (index : nat) : gmap nat (list nat) * list nat :=
  let '(groups, parents) := acc in
  let '(root, parents) := find parents index in
  (<[root := default [] (groups !! root) ++ [index]]> groups, parents).
Definition collect_groups (parents : list nat) (n : nat) : gmap nat (list nat) :=
  (foldl collect_group (∅, parents) (seq 0 n)).1.

Definition group_id (findings : list Finding) (indexes : list nat) : string :=
  "corr-" +:+ stable (stringsJoin
    (sort_slice String.ltb (map (λ i, finding_ID (finding_at findings i)) indexes)) nul).

Definition source_count (findings : list Finding) (indexes : list nat) : Z :=
  Z.of_nat (size (list_to_set (map (λ i, finding_Source (finding_at findings i)) indexes) : gset string)).

(** The three assignments to [findings[index]]. *)
Definition relabel (config : Config) (groupID : string) (sources size : Z) (finding : Finding) : Finding :=
  let finding := finding <| finding_CorrelationGroup := groupID |> in
  let explanation := score finding sources size config in
  finding <| finding_RiskExplanation := explanation |> <| finding_RiskScore := risk_FinalScore explanation |>.

Definition label_finding (config : Config) (groupID : string) (sources size : Z) (findings : list Finding)
    (index : nat) : list Finding :=
  <[index := relabel config groupID sources size (finding_at findings index)]> findings.

Definition label_group (config : Config) (findings : list Finding) (indexes : list nat) : list Finding :=
  foldl (label_finding config (group_id findings indexes) (source_count findings indexes)
           (Z.of_nat (length indexes))) findings indexes.

Definition CorrelateWithConfig (input : list Finding) (config : Config) : list Finding :=
  let findings := map ensureKeys input in
  let parents := link_all config findings in
  foldl (label_group config) findings (range_int (collect_groups parents (length findings))).*2.

Definition Correlate (input : list Finding) : list Finding := CorrelateWithConfig input DefaultConfig.

End Correlate.
