(* ===== verification/CorrelationProps.v ===== *)
(** Properties of the correlation: the union-find computes the connected components of the links the
    rules find, so the result of a correlation is a function of its input alone; valid configurations
    give scores between 0 and 100. *)
From S2P Require Import Prelude GoLib Sha256 Json Core Correlation.

(** * Union-find *)

Section UnionFind.
Implicit Types (ps : list nat) (i j r s : nat).

(** [r] is the root of the node [i]. *)
Inductive root_of ps : nat → nat → Prop :=
| root_here i : ps !! i = Some i → root_of ps i i
| root_step i p r : ps !! i = Some p → p ≠ i → root_of ps p r → root_of ps i r.

(** The same with the length of the path. *)
Inductive root_in ps : nat → nat → nat → Prop :=
| root_in_here i : ps !! i = Some i → root_in ps 0 i i
| root_in_step k i p r : ps !! i = Some p → p ≠ i → root_in ps k p r → root_in ps (S k) i r.

Definition forest ps : Prop := ∀ i, i < length ps → ∃ r, root_of ps i r.

Lemma root_of_in ps i r : root_of ps i r ↔ ∃ k, root_in ps k i r.
Proof.
  split.
  - induction 1 as [|i p r ??? [k IH]]; eexists; [by constructor | by econstructor].
  - intros [k Hk]. induction Hk; [by constructor | by econstructor].
Qed.

Lemma root_in_det ps k k' i r r' : root_in ps k i r → root_in ps k' i r' → k = k' ∧ r = r'.
Proof.
  intros Hk. revert k' r'. induction Hk as [i Hi|k i p r Hi Hne Hk IH]; intros k' r' Hk'; inversion Hk'; simplify_eq.
  - done.
  - rename select (root_in _ _ _ r') into Hr. by destruct (IH _ _ Hr) as [-> ->].
Qed.

Lemma root_of_det ps i r r' : root_of ps i r → root_of ps i r' → r = r'.
Proof. rewrite !root_of_in. intros [k Hk] [k' Hk']. by destruct (root_in_det _ _ _ _ _ _ Hk Hk'). Qed.

Lemma root_of_bound ps i r : root_of ps i r → i < length ps ∧ r < length ps ∧ ps !! r = Some r.
Proof.
  induction 1 as [i Hi|i p r Hi _ _ (_ & Hr & Hrr)]; [|split; [by eapply lookup_lt_Some | done]].
  apply lookup_lt_Some in Hi as Hlt. done.
Qed.

Lemma root_of_root ps r s : ps !! r = Some r → root_of ps r s → s = r.
Proof. intros Hr Hs. eapply root_of_det; [exact Hs | by constructor]. Qed.

(** A path visits distinct nodes, so the number of nodes bounds its length. *)
Lemma path_nodes ps k i r :
  root_in ps k i r → ∃ l, length l = S k ∧ NoDup l ∧
    (∀ j, j ∈ l → j < length ps ∧ ∃ k', k' ≤ k ∧ root_in ps k' j r).
Proof.
  induction 1 as [i Hi|k i p r Hi Hne Hk (l & Hlen & Hnd & Hl)].
  - exists [i]. split; [done|]. split; [apply NoDup_singleton|].
    intros j ->%list_elem_of_singleton. split; [by eapply lookup_lt_Some|]. exists 0. split; [lia | by constructor].
  - exists (i :: l). split; [cbn; lia|]. split.
    + apply NoDup_cons. split; [|done]. intros Hin. destruct (Hl _ Hin) as [_ (k' & Hk' & Hr)].
      assert (root_in ps (S k) i r) as Hi' by by econstructor.
      destruct (root_in_det _ _ _ _ _ _ Hi' Hr). lia.
    + intros j [->|Hin]%elem_of_cons.
      * split; [by eapply lookup_lt_Some|]. exists (S k). split; [lia | by econstructor].
      * destruct (Hl _ Hin) as [? (k' & ? & ?)]. split; [done|]. exists k'. split; [lia | done].
Qed.

Lemma root_in_length ps k i r : root_in ps k i r → k < length ps.
Proof.
  intros (l & Hlen & Hnd & Hl)%path_nodes.
  assert (l ⊆+ seq 0 (length ps)) as Hsub.
  { apply NoDup_submseteq; [done|]. intros j Hj. apply elem_of_seq. destruct (Hl _ Hj). lia. }
  apply submseteq_length in Hsub. rewrite length_seq in Hsub. lia.
Qed.

(** Pointing a node to its root keeps every root. *)
Lemma compress_root ps i r :
  root_of ps i r → ∀ j s, root_of (<[i := r]> ps) j s ↔ root_of ps j s.
Proof.
  intros Hi. destruct (root_of_bound _ _ _ Hi) as (Hlt & Hrlt & Hr).
  assert (<[i := r]> ps !! r = Some r) as Hr'.
  { destruct (decide (i = r)) as [->|]; [by rewrite list_lookup_insert_eq | by rewrite list_lookup_insert_ne]. }
  assert (∀ j s, root_of ps j s → root_of (<[i := r]> ps) j s) as Hfwd.
  { intros j s Hj. induction Hj as [j Hj|j p s Hj Hne Hp IH].
    - destruct (decide (i = j)) as [->|].
      + assert (r = j) as -> by (by eapply root_of_root). by constructor.
      + constructor. by rewrite list_lookup_insert_ne.
    - destruct (decide (i = j)) as [->|].
      + assert (s = r) as ->.
        { eapply root_of_det; [by econstructor | exact Hi]. }
        destruct (decide (r = j)) as [->|]; [by constructor|].
        eapply root_step; [by apply list_lookup_insert_eq | done | by constructor].
      + eapply root_step; [by rewrite list_lookup_insert_ne | done | done]. }
  intros j s. split; [|apply Hfwd].
  intros Hj. assert (j < length ps) as Hjlt.
  { apply root_of_bound in Hj as [Hj _]. by rewrite length_insert in Hj. }
  induction Hj as [j Hj|j p s Hj Hne Hp IH].
  - destruct (decide (i = j)) as [->|].
    + rewrite list_lookup_insert_eq in Hj by done. injection Hj as ->. by constructor.
    + constructor. by rewrite list_lookup_insert_ne in Hj.
  - destruct (decide (i = j)) as [->|].
    + rewrite list_lookup_insert_eq in Hj by done. injection Hj as <-.
      by rewrite (root_of_root _ _ _ Hr' Hp).
    + rewrite list_lookup_insert_ne in Hj by done. econstructor; [done..|]. apply IH.
      apply root_of_bound in Hp as [Hp _]. by rewrite length_insert in Hp.
Qed.

(** Two slices of parents with the same nodes and the same roots. *)
Definition same_roots ps ps' : Prop :=
  length ps' = length ps ∧ ∀ j s, root_of ps' j s ↔ root_of ps j s.

Lemma find_fuel_spec fuel ps k i r :
  root_in ps k i r → k < fuel → ∃ ps', find_fuel fuel ps i = (r, ps') ∧ same_roots ps ps'.
Proof.
  revert k i. induction fuel as [|fuel IH]; intros k i Hk Hlt; [lia|].
  cbn. inversion Hk as [? Hi|k' ? p ? Hi Hne Hp]; subst; rewrite Hi.
  - rewrite Nat.eqb_refl. by exists ps.
  - apply Nat.eqb_neq in Hne. rewrite Hne. destruct (IH k' p Hp ltac:(lia)) as (ps' & -> & Hlen & Hsame).
    eexists. split; [done|]. split; [by rewrite length_insert|]. intros j s. rewrite compress_root; [done|].
    rewrite Hsame. apply root_of_in. by exists (S k').
Qed.

(** In a forest [find] always returns: the root, and a slice with the same roots. *)
Lemma find_spec ps i r : root_of ps i r → ∃ ps', find ps i = (r, ps') ∧ same_roots ps ps'.
Proof.
  intros [k Hk]%root_of_in. apply find_fuel_spec with k; [done|]. by eapply root_in_length.
Qed.

(** Two nodes of one tree. *)
Definition joined ps i j : Prop := ∃ r, root_of ps i r ∧ root_of ps j r.

Lemma same_roots_forest ps ps' : same_roots ps ps' → forest ps → forest ps'.
Proof. intros [Hlen Hs] Hf i Hi. rewrite Hlen in Hi. destruct (Hf i Hi) as [r Hr]. exists r. by apply Hs. Qed.

Lemma joined_refl ps i : forest ps → i < length ps → joined ps i i.
Proof. intros Hf Hi. destruct (Hf i Hi) as [r Hr]. by exists r. Qed.
Lemma joined_sym ps i j : joined ps i j → joined ps j i.
Proof. intros (r & ? & ?). by exists r. Qed.
Lemma joined_trans ps i j k : joined ps i j → joined ps j k → joined ps i k.
Proof.
  intros (r & Hi & Hj) (r' & Hj' & Hk). exists r. split; [done|].
  by rewrite (root_of_det _ _ _ _ Hj Hj').
Qed.

(** Linking the root [b] below the root [a]. *)
Lemma link_roots ps a b :
  ps !! a = Some a → ps !! b = Some b → a ≠ b →
  ∀ j s, root_of (<[b := a]> ps) j s ↔ (root_of ps j s ∧ s ≠ b) ∨ (root_of ps j b ∧ s = a).
Proof.
  intros Ha Hb Hne. pose proof (lookup_lt_Some _ _ _ Hb) as Hblt.
  assert (root_of (<[b := a]> ps) a a) as Haa by (constructor; by rewrite list_lookup_insert_ne).
  assert (∀ j s, root_of ps j s → root_of (<[b := a]> ps) j (if decide (s = b) then a else s)) as Hfwd.
  { intros j s Hj. induction Hj as [j Hj|j p s Hj Hnj Hp IH].
    - case_decide as Hjb; [subst j|].
      + eapply root_step; [by apply list_lookup_insert_eq | done | done].
      + constructor. by rewrite list_lookup_insert_ne.
    - eapply root_step; [rewrite list_lookup_insert_ne; [done|congruence] | done | done]. }
  intros j s. split.
  - intros Hj. assert (∃ t, root_of ps j t) as [t Ht].
    { clear Hfwd. induction Hj as [j Hj|j p s Hj Hnj Hp [t IH]].
      - destruct (decide (b = j)) as [->|].
        + exists j. by constructor.
        + exists j. constructor. by rewrite list_lookup_insert_ne in Hj.
      - destruct (decide (b = j)) as [->|].
        + exists j. by constructor.
        + exists t. rewrite list_lookup_insert_ne in Hj by done. by econstructor. }
    pose proof (root_of_det _ _ _ _ Hj (Hfwd _ _ Ht)) as ->. case_decide; subst; [by right | by left].
  - intros [[Hj Hs]|[Hj ->]]; apply Hfwd in Hj; case_decide; congruence.
Qed.

Lemma same_roots_joined ps ps' i j : same_roots ps ps' → joined ps' i j ↔ joined ps i j.
Proof. intros [_ Hs]. unfold joined. by setoid_rewrite Hs. Qed.

(** [union] merges the trees of its two nodes and no others. *)
Lemma union_spec ps a b :
  forest ps → a < length ps → b < length ps →
  length (union ps a b) = length ps ∧ forest (union ps a b) ∧
  ∀ i j, joined (union ps a b) i j ↔
    joined ps i j ∨ (joined ps i a ∧ joined ps b j) ∨ (joined ps i b ∧ joined ps a j).
Proof.
  intros Hf Ha Hb. destruct (Hf a Ha) as [ra Hra]. destruct (Hf b Hb) as [rb Hrb].
  destruct (find_spec _ _ _ Hra) as (ps1 & Hfind1 & Hs1).
  assert (root_of ps1 b rb) as Hrb1 by by apply Hs1.
  destruct (find_spec _ _ _ Hrb1) as (ps2 & Hfind2 & Hs2').
  assert (same_roots ps ps2) as Hs2.
  { destruct Hs1 as [L1 S1], Hs2' as [L2 S2]. split; [congruence|]. intros. by rewrite S2, S1. }
  unfold union. rewrite Hfind1, Hfind2. destruct (Nat.eqb_spec ra rb) as [<-|Hne].
  - split; [apply Hs2|]. split; [by eapply same_roots_forest|]. intros i j. rewrite (same_roots_joined _ _ _ _ Hs2).
    split; [by left|]. assert (joined ps a b) as Hab by by exists ra.
    intros [?|[[Hi Hj]|[Hi Hj]]]; [done | |].
    + exact (joined_trans _ _ _ _ Hi (joined_trans _ _ _ _ Hab Hj)).
    + exact (joined_trans _ _ _ _ Hi (joined_trans _ _ _ _ (joined_sym _ _ _ Hab) Hj)).
  - assert (ps2 !! ra = Some ra ∧ ps2 !! rb = Some rb) as [Hra2 Hrb2].
    { split; [eapply (root_of_bound ps2 a) | eapply (root_of_bound ps2 b)]; by apply Hs2. }
    pose proof (link_roots ps2 ra rb Hra2 Hrb2 Hne) as Hlink. destruct Hs2 as [Hlen Hs2].
    setoid_rewrite Hs2 in Hlink. split; [by rewrite length_insert|]. split.
    + intros i Hi. rewrite length_insert, Hlen in Hi. destruct (Hf i Hi) as [r Hr].
      destruct (decide (r = rb)) as [->|]; [exists ra | exists r]; apply Hlink; auto.
    + intros i j. unfold joined. setoid_rewrite Hlink. split.
      * intros (s & [[Hi Hsi]|[Hi ->]] & [[Hj Hsj]|[Hj Hs]]); subst; try done.
        -- left. by exists s.
        -- right. left. split; [by exists ra | by exists rb].
        -- right. right. split; [by exists rb | by exists ra].
        -- left. by exists rb.
      * assert (∀ i r r', root_of ps i r → root_of ps i r' → r' = r) as Hdet
          by (intros; by eapply root_of_det).
        intros [(r & Hi & Hj)|[[(r & Hi & Har) (r' & Hbr & Hj)]|[(r & Hi & Hbr) (r' & Har & Hj)]]].
        -- destruct (decide (r = rb)) as [->|]; [exists ra | exists r]; auto.
        -- rewrite (Hdet _ _ _ Hra Har), (Hdet _ _ _ Hrb Hbr) in *. exists ra. auto.
        -- rewrite (Hdet _ _ _ Hra Har), (Hdet _ _ _ Hrb Hbr) in *. exists ra. auto.
Qed.

(** ** A sequence of unions *)

Definition union_pairs ps (pairs : list (nat * nat)) : list nat :=
  foldl (λ ps ab, union ps ab.1 ab.2) ps pairs.

(** Connected by links, in either direction. *)
Definition connected (pairs : list (nat * nat)) : nat → nat → Prop :=
  rtc (λ i j, (i, j) ∈ pairs ∨ (j, i) ∈ pairs).

Lemma connected_sym pairs i j : connected pairs i j → connected pairs j i.
Proof.
  induction 1 as [i|i j k Hij _ IH]; [constructor|]. eapply rtc_r; [exact IH|]. tauto.
Qed.

Lemma connected_mono pairs pairs' i j :
  (∀ ab, ab ∈ pairs → ab ∈ pairs') → connected pairs i j → connected pairs' i j.
Proof. intros Hsub. apply rtc_subrel. intros x y [Hxy|Hxy]; auto. Qed.

Lemma connected_add pairs a b i j :
  connected (pairs ++ [(a, b)]) i j ↔
  connected pairs i j ∨ (connected pairs i a ∧ connected pairs b j) ∨ (connected pairs i b ∧ connected pairs a j).
Proof.
  assert (∀ x y, connected pairs x y → connected (pairs ++ [(a, b)]) x y) as Hmono.
  { intros x y. apply connected_mono. intros ab Hab. apply elem_of_app. by left. }
  assert (connected (pairs ++ [(a, b)]) a b) as Hab.
  { apply rtc_once. left. apply elem_of_app. right. left. }
  split.
  - induction 1 as [i|i k j Hik _ IH]; [left; constructor|].
    assert (connected pairs i k ∨ (i = a ∧ k = b) ∨ (i = b ∧ k = a)) as Hstep.
    { rewrite !elem_of_app, !list_elem_of_singleton in Hik.
      destruct Hik as [[Hik|[= -> ->]]|[Hik|[= -> ->]]]; auto; left; apply rtc_once; auto. }
    destruct Hstep as [Hc|[[-> ->]|[-> ->]]].
    + destruct IH as [IH|[[IH IH']|[IH IH']]]; [left|right; left|right; right]; try split; try done; by etrans.
    + destruct IH as [IH|[[IH IH']|[IH IH']]].
      * right; left. split; [constructor | done].
      * right; left. split; [constructor | done].
      * left. done.
    + destruct IH as [IH|[[IH IH']|[IH IH']]].
      * right; right. split; [constructor | done].
      * left. done.
      * right; right. split; [constructor | done].
  - intros [?|[[Hi Hj]|[Hi Hj]]]; [by apply Hmono | |].
    + etrans; [by apply Hmono|]. etrans; [exact Hab | by apply Hmono].
    + etrans; [by apply Hmono|]. etrans; [by apply connected_sym | by apply Hmono].
Qed.

Lemma union_pairs_spec ps pairs pairs0 :
  forest ps → Forall (λ ab, ab.1 < length ps ∧ ab.2 < length ps) pairs →
  (∀ i j, i < length ps → j < length ps → joined ps i j ↔ connected pairs0 i j) →
  length (union_pairs ps pairs) = length ps ∧ forest (union_pairs ps pairs) ∧
  ∀ i j, i < length ps → j < length ps →
    joined (union_pairs ps pairs) i j ↔ connected (pairs0 ++ pairs) i j.
Proof.
  intros Hf Hp. revert ps pairs0 Hf Hp. induction pairs as [|[a b] pairs IH]; intros ps pairs0 Hf Hp Hj.
  { by rewrite app_nil_r. }
  apply Forall_cons in Hp as [[Ha Hb] Hp]. cbn in *.
  destruct (union_spec ps a b Hf Ha Hb) as (Hlen & Hf' & Hj').
  destruct (IH (union ps a b) (pairs0 ++ [(a, b)])) as (Hlen2 & Hf2 & Hj2); [done | by rewrite Hlen | |].
  - intros i j Hi Hjl. rewrite Hlen in Hi, Hjl. rewrite Hj', connected_add, !Hj by done. done.
  - rewrite Hlen in *. split; [done|]. split; [done|]. intros i j Hi Hjl. rewrite Hj2 by done.
    by rewrite <- app_assoc.
Qed.

Lemma singletons_forest n : forest (seq 0 n) ∧ ∀ i j, i < n → j < n → joined (seq 0 n) i j ↔ connected [] i j.
Proof.
  assert (∀ i, i < n → root_of (seq 0 n) i i) as Hr by (intros i Hi; constructor; by apply lookup_seq).
  split.
  - intros i Hi. rewrite length_seq in Hi. exists i. auto.
  - intros i j Hi Hj. split.
    + intros (r & Hir & Hjr). rewrite (root_of_det _ _ _ _ (Hr i Hi) Hir), (root_of_det _ _ _ _ (Hr j Hj) Hjr).
      constructor.
    + intros Hc. assert (i = j) as ->.
      { clear Hi Hj. induction Hc as [|x y z [Hxy|Hxy] _ _]; [done | by apply elem_of_nil in Hxy..]. }
      exists j. auto.
Qed.

End UnionFind.

(** * The links a correlation unites *)

(** The pairs [link_run] unites. *)
Fixpoint run_links (window : Duration) (findings : list Finding) (start : nat) (indexes : list nat) :
    list (nat * nat) :=
  match indexes with
  | [] => []
  | end_ :: rest =>
      if (Sub (finding_UpdatedAt (finding_at findings end_)) (finding_UpdatedAt (finding_at findings start)) <=? window)%Z
      then (start, end_) :: run_links window findings start rest
      else run_links window findings end_ rest
  end.

Definition key_links (rule : Rule) (findings : list Finding) (indexes : list nat) : list (nat * nat) :=
  match sort_slice (earlier findings) indexes with
  | [] => []
  | start :: rest => run_links (rule_Window rule) findings start rest
  end.

(** One rule links two findings directly, as the start and a member of one of its runs. *)
Definition linked (config : Config) (findings : list Finding) (i j : nat) : Prop :=
  ∃ rule key indexes, rule ∈ rules config ∧ group_by_key rule findings !! key = Some indexes ∧
    (i, j) ∈ key_links rule findings indexes.

(** Two findings end up in one group when links connect them. *)
Definition correlated (config : Config) (findings : list Finding) : nat → nat → Prop :=
  rtsc (linked config findings).

Section Links.
Context `{RangeOrder}.
Implicit Types (rule : Rule) (findings : list Finding).

Lemma link_run_pairs window findings start indexes parents :
  link_run window findings start indexes parents = union_pairs parents (run_links window findings start indexes).
Proof.
  revert start parents. induction indexes as [|e rest IH]; intros start parents; cbn; [done|].
  case_match; apply IH.
Qed.

Lemma link_key_pairs rule findings parents indexes :
  link_key rule findings parents indexes = union_pairs parents (key_links rule findings indexes).
Proof. unfold link_key, key_links. case_match; [done | apply link_run_pairs]. Qed.

Definition rule_links findings rule : list (nat * nat) :=
  flat_map (key_links rule findings) (range (group_by_key rule findings)).*2.
Definition all_links (config : Config) findings : list (nat * nat) :=
  flat_map (rule_links findings) (rules config).

Lemma union_pairs_app ps l1 l2 : union_pairs ps (l1 ++ l2) = union_pairs (union_pairs ps l1) l2.
Proof. apply foldl_app. Qed.

Lemma union_pairs_flat {A} (f : list nat → A → list nat) (links : A → list (nat * nat)) ps l :
  (∀ ps x, f ps x = union_pairs ps (links x)) → foldl f ps l = union_pairs ps (flat_map links l).
Proof.
  intros Hf. revert ps. induction l as [|x l IH]; intros ps; cbn; [done|].
  by rewrite union_pairs_app, IH, Hf.
Qed.

Lemma link_all_pairs config findings :
  link_all config findings = union_pairs (seq 0 (length findings)) (all_links config findings).
Proof.
  apply union_pairs_flat. intros ps rule. apply union_pairs_flat. intros. apply link_key_pairs.
Qed.

Lemma elem_of_flat_map {A B} (f : A → list B) l y : y ∈ flat_map f l ↔ ∃ x, x ∈ l ∧ y ∈ f x.
Proof. setoid_rewrite list_elem_of_In. rewrite in_flat_map. done. Qed.

Lemma elem_of_all_links config findings i j : (i, j) ∈ all_links config findings ↔ linked config findings i j.
Proof.
  unfold all_links, rule_links, linked. setoid_rewrite elem_of_flat_map. setoid_rewrite elem_of_flat_map.
  setoid_rewrite elem_of_range_snd. naive_solver.
Qed.

Lemma connected_correlated config findings i j :
  connected (all_links config findings) i j ↔ correlated config findings i j.
Proof.
  unfold connected, correlated, rtsc. split; apply rtc_subrel; intros x y; unfold sc;
    rewrite !elem_of_all_links; tauto.
Qed.

End Links.

(** ** Grouping by key *)

(** [m[key(i)] = append(m[key(i)], i)] for the indices that have a key. *)
Definition group_step {K} `{Countable K} (key : nat → option K) (m : gmap K (list nat)) (i : nat) :
    gmap K (list nat) :=
  match key i with Some k => <[k := default [] (m !! k) ++ [i]]> m | None => m end.

Lemma group_lookup {K} `{Countable K} (key : nat → option K) l (m : gmap K (list nat)) k :
  default [] (foldl (group_step key) m l !! k) =
    default [] (m !! k) ++ List.filter (λ i, bool_decide (key i = Some k)) l.
Proof.
  revert m. induction l as [|i l IH]; intros m; cbn; [by rewrite app_nil_r|].
  rewrite IH. unfold group_step. case_bool_decide as Hk.
  - rewrite Hk, lookup_insert_eq. cbn. by rewrite <- app_assoc.
  - destruct (key i) as [k'|]; [|done]. rewrite lookup_insert_ne by congruence. done.
Qed.

Lemma group_nonempty {K} `{Countable K} (key : nat → option K) l (m : gmap K (list nat)) k :
  m !! k ≠ Some [] → foldl (group_step key) m l !! k ≠ Some [].
Proof.
  revert m. induction l as [|i l IH]; intros m Hm; cbn; [done|]. apply IH. unfold group_step.
  destruct (key i) as [k'|]; [|done]. destruct (decide (k' = k)) as [->|].
  - rewrite lookup_insert_eq. intros [= Happ]. by destruct (default [] (m !! k)).
  - by rewrite lookup_insert_ne.
Qed.

(** The members with key [k], in increasing order, and no entry without members. *)
Lemma group_spec {K} `{Countable K} (key : nat → option K) n k members :
  foldl (group_step key) ∅ (seq 0 n) !! k = Some members ↔
    members ≠ [] ∧ members = List.filter (λ i, bool_decide (key i = Some k)) (seq 0 n).
Proof.
  pose proof (group_lookup key (seq 0 n) ∅ k) as Hl. rewrite lookup_empty in Hl. cbn [default app] in Hl.
  pose proof (group_nonempty key (seq 0 n) ∅ k) as Hne. rewrite lookup_empty in Hne. specialize (Hne ltac:(done)).
  destruct (foldl (group_step key) ∅ (seq 0 n) !! k) as [l|]; cbn -[List.filter seq] in Hl; rewrite <- Hl.
  - split; [intros [= <-]; split; congruence | intros [_ ->]; done].
  - split; [done | intros [Hm ->]; done].
Qed.

Lemma elem_of_members {K} `{Countable K} (key : nat → option K) n k i :
  i ∈ List.filter (λ i, bool_decide (key i = Some k)) (seq 0 n) ↔ i < n ∧ key i = Some k.
Proof.
  rewrite list_elem_of_In, filter_In, <- list_elem_of_In, elem_of_seq, bool_decide_eq_true.
  split; intros [Hi Hk]; (split; [lia | done]).
Qed.

Definition rule_key_of (rule : Rule) (findings : list Finding) (i : nat) : option string :=
  let key := rule_Key rule (finding_at findings i) in
  if (key == "") && rule_RequireKey rule then None else Some key.

Lemma group_by_key_step rule findings :
  group_by_key rule findings = foldl (group_step (rule_key_of rule findings)) ∅ (seq 0 (length findings)).
Proof.
  unfold group_by_key. generalize (seq 0 (length findings)) as l. generalize (∅ : gmap string (list nat)) as m.
  intros m l. revert m. induction l as [|i l IH]; intros m; cbn [foldl]; [done|].
  rewrite IH. f_equal. unfold group_step, rule_key_of. cbv zeta. by case_match.
Qed.

Lemma run_links_members window findings start indexes a b :
  (a, b) ∈ run_links window findings start indexes → a ∈ start :: indexes ∧ b ∈ indexes ∧
  (Sub (finding_UpdatedAt (finding_at findings b)) (finding_UpdatedAt (finding_at findings a)) ≤ window)%Z.
Proof.
  revert start. induction indexes as [|e rest IH]; intros start; cbn; [by intros Hn%elem_of_nil|].
  destruct (Z.leb_spec (Sub (finding_UpdatedAt (finding_at findings e)) (finding_UpdatedAt (finding_at findings start))) window).
  - intros [[= -> ->]|Hin]%elem_of_cons; [split; [left | split; [left | done]]|].
    apply IH in Hin as (Ha & Hb & Hw). apply elem_of_cons in Ha as [->|Ha].
    + split; [left | split; [by right | done]].
    + split; [right; by right | split; [by right | done]].
  - intros Hin. apply IH in Hin as (Ha & Hb & Hw). split; [by right | split; [by right | done]].
Qed.

(** A link relates two findings of the input with the same key of one rule, not empty, within the
    rule's window. *)
Lemma linked_sound config findings i j :
  linked config findings i j →
  i < length findings ∧ j < length findings ∧ ∃ rule, rule ∈ rules config ∧
    rule_Key rule (finding_at findings i) = rule_Key rule (finding_at findings j) ∧
    (rule_RequireKey rule = true → rule_Key rule (finding_at findings i) ≠ "") ∧
    (Sub (finding_UpdatedAt (finding_at findings j)) (finding_UpdatedAt (finding_at findings i)) ≤ rule_Window rule)%Z.
Proof.
  intros (rule & key & indexes & Hrule & Hgroup & Hin).
  rewrite group_by_key_step, group_spec in Hgroup. destruct Hgroup as [_ ->].
  set (members := List.filter _ _) in Hin.
  assert (∀ k, k ∈ sort_slice (earlier findings) members → k < length findings ∧
    rule_key_of rule findings k = Some key) as Hmem.
  { intros k Hk%elem_of_sort_slice. by apply elem_of_members in Hk. }
  unfold key_links in Hin. destruct (sort_slice (earlier findings) members) as [|start rest];
    [by apply elem_of_nil in Hin|].
  apply run_links_members in Hin as (Hi & Hj & Hw).
  destruct (Hmem i Hi) as [Hil Hik]. destruct (Hmem j ltac:(by right)) as [Hjl Hjk].
  split; [done|]. split; [done|]. exists rule. unfold rule_key_of in Hik, Hjk.
  repeat case_match; simplify_eq. split; [done|]. split; [done|]. split; [|done].
  intros Hreq Hempty. rewrite Hempty, Hreq in *. done.
Qed.

(** * The groups of a correlation *)

Section Groups.
Context `{RangeOrder}.

(** The root of every index, whatever compressions happened in between. *)
Definition rootf (ps : list nat) (i : nat) : nat := (find ps i).1.

Lemma rootf_spec ps i r : root_of ps i r → rootf ps i = r.
Proof. intros Hr. destruct (find_spec _ _ _ Hr) as (ps' & Hf & _). unfold rootf. by rewrite Hf. Qed.

Lemma collect_groups_step ps n :
  forest ps → length ps = n →
  collect_groups ps n = foldl (group_step (λ i, Some (rootf ps i))) ∅ (seq 0 n).
Proof.
  intros Hf Hlen. unfold collect_groups.
  assert (∀ l m ps', same_roots ps ps' → (∀ i, i ∈ l → i < n) →
    (foldl collect_group (m, ps') l).1 = foldl (group_step (λ i, Some (rootf ps i))) m l) as Hgen; [|apply Hgen].
  - induction l as [|i l IH]; intros m ps' Hs Hl; [done|].
    destruct (Hf i) as [r Hr]; [rewrite Hlen; apply Hl; left|].
    assert (root_of ps' i r) as Hr' by by apply Hs.
    destruct (find_spec _ _ _ Hr') as (ps'' & Hfind & Hs').
    cbn [foldl collect_group]. rewrite Hfind. unfold group_step at 2. rewrite (rootf_spec _ _ _ Hr).
    apply IH; [|intros j Hj; apply Hl; by right].
    destruct Hs as [L1 S1], Hs' as [L2 S2]. split; [congruence|]. intros. by rewrite S2, S1.
  - done.
  - intros i Hi%elem_of_seq. lia.
Qed.

Lemma link_all_spec config findings :
  let ps := link_all config findings in
  length ps = length findings ∧ forest ps ∧
  ∀ i j, i < length findings → j < length findings →
    rootf ps i = rootf ps j ↔ correlated config findings i j.
Proof.
  cbv zeta. destruct (singletons_forest (length findings)) as [Hf Hj].
  destruct (union_pairs_spec (seq 0 (length findings)) (all_links config findings) []) as (Hlen & Hf' & Hj').
  - done.
  - apply Forall_forall. intros [a b] Hab%elem_of_all_links%linked_sound. rewrite length_seq. cbn. tauto.
  - rewrite length_seq. done.
  - rewrite length_seq in *. cbn [app] in Hj'. rewrite link_all_pairs. split; [done|]. split; [done|].
    intros i j Hi Hjl. rewrite <- connected_correlated, <- Hj' by done.
    set (ps := union_pairs _ _) in *.
    destruct (Hf' i ltac:(lia)) as [r Hr]. destruct (Hf' j ltac:(lia)) as [r' Hr'].
    rewrite (rootf_spec _ _ _ Hr), (rootf_spec _ _ _ Hr'). split.
    + intros <-. by exists r.
    + intros (s & His & Hjs). by rewrite (root_of_det _ _ _ _ Hr His), (root_of_det _ _ _ _ Hr' Hjs).
Qed.

(** The members of the group of [i]. *)
Definition component (ps : list nat) (n i : nat) : list nat :=
  List.filter (λ j, bool_decide (Some (rootf ps j) = Some (rootf ps i))) (seq 0 n).

Lemma range_int_snd {A} (m : gmap nat A) v : v ∈ (range_int m).*2 ↔ ∃ k, m !! k = Some v.
Proof.
  rewrite list_elem_of_fmap. setoid_rewrite range_int_perm. split.
  - intros ([k v'] & -> & Hin%elem_of_map_to_list). by exists k.
  - intros [k Hk]. exists (k, v). split; [done|]. by apply elem_of_map_to_list.
Qed.

(** ** Labelling *)

(** What labelling keeps: the identifiers and sources the group labels are computed from. *)
Definition same_ids (fs fs' : list Finding) : Prop :=
  length fs' = length fs ∧
  ∀ i, finding_ID (finding_at fs' i) = finding_ID (finding_at fs i) ∧
       finding_Source (finding_at fs' i) = finding_Source (finding_at fs i).

(** The finding [i] of [fs] as a member of the group [members]. *)
Definition labelled (config : Config) (fs : list Finding) (members : list nat) (i : nat) : Finding :=
  relabel config (group_id fs members) (source_count fs members) (Z.of_nat (length members)) (finding_at fs i).

Lemma same_ids_labels fs fs' members :
  same_ids fs fs' → group_id fs' members = group_id fs members ∧ source_count fs' members = source_count fs members.
Proof.
  intros [_ Hs]. unfold group_id, source_count.
  assert (map (λ i, finding_ID (finding_at fs' i)) members = map (λ i, finding_ID (finding_at fs i)) members) as ->
    by (apply map_ext; intros i; apply Hs).
  assert (map (λ i, finding_Source (finding_at fs' i)) members = map (λ i, finding_Source (finding_at fs i)) members)
    as -> by (apply map_ext; intros i; apply Hs). done.
Qed.

Definition label_loop config groupID sources size fs (l : list nat) : list Finding :=
  foldl (label_finding config groupID sources size) fs l.

Lemma label_finding_same config groupID sources size fs i : same_ids fs (label_finding config groupID sources size fs i).
Proof.
  split; [apply length_insert|]. intros j. unfold label_finding, finding_at.
  destruct (decide (i = j)) as [->|]; [|by rewrite list_lookup_insert_ne].
  destruct (decide (j < length fs)); [|by rewrite list_insert_ge by lia].
  by rewrite list_lookup_insert_eq.
Qed.

Lemma same_ids_trans fs fs' fs'' : same_ids fs fs' → same_ids fs' fs'' → same_ids fs fs''.
Proof.
  intros [L1 S1] [L2 S2]. split; [congruence|]. intros i. destruct (S1 i), (S2 i). split; congruence.
Qed.

Lemma label_loop_same config groupID sources size l fs : same_ids fs (label_loop config groupID sources size fs l).
Proof.
  revert fs. induction l as [|i l IH]; intros fs; [done|].
  eapply same_ids_trans; [apply label_finding_same | apply IH].
Qed.

Lemma label_loop_notin config groupID sources size l fs i :
  i ∉ l → label_loop config groupID sources size fs l !! i = fs !! i.
Proof.
  revert fs. induction l as [|j l IH]; intros fs Hi; [done|]. apply not_elem_of_cons in Hi as [Hne Hi].
  cbn. etrans; [by apply IH|]. unfold label_finding. by rewrite list_lookup_insert_ne.
Qed.

Lemma label_loop_in config groupID sources size l fs i :
  NoDup l → i ∈ l → i < length fs →
  label_loop config groupID sources size fs l !! i = label_finding config groupID sources size fs i !! i.
Proof.
  revert fs. induction l as [|j l IH]; intros fs Hnd Hi Hlt; [by apply elem_of_nil in Hi|].
  apply NoDup_cons in Hnd as [Hj Hnd]. cbn. apply elem_of_cons in Hi as [->|Hi].
  - by apply label_loop_notin.
  - assert (i ≠ j) as Hne by (intros ->; done).
    etrans; [apply IH; [done | done |]; unfold label_finding; by rewrite length_insert|].
    unfold label_finding. rewrite !list_lookup_insert_eq by (rewrite ?length_insert; done).
    unfold finding_at. by rewrite list_lookup_insert_ne.
Qed.

Lemma label_group_same config fs members : same_ids fs (label_group config fs members).
Proof. apply label_loop_same. Qed.

Lemma label_group_notin config fs members i : i ∉ members → label_group config fs members !! i = fs !! i.
Proof. apply label_loop_notin. Qed.

Lemma label_group_in config fs0 fs members i :
  same_ids fs0 fs → fs !! i = fs0 !! i → NoDup members → i ∈ members → i < length fs0 →
  label_group config fs members !! i = Some (labelled config fs0 members i).
Proof.
  intros Hs Hi Hnd Hin Hlt. destruct Hs as [Hlen Hs'] eqn:Heq. clear Heq.
  unfold label_group. etrans; [apply label_loop_in; [done.. | lia]|].
  destruct (same_ids_labels fs0 fs members) as [-> ->]; [done|].
  unfold label_finding, labelled. rewrite list_lookup_insert_eq by lia.
  unfold finding_at. by rewrite Hi.
Qed.

(** Labelling disjoint groups in any order labels each member once. *)
Lemma label_groups config fs0 fs (groups : list (list nat)) i members :
  same_ids fs0 fs → fs !! i = fs0 !! i → NoDup groups →
  (∀ g, g ∈ groups → NoDup g) → (∀ g, g ∈ groups → i ∈ g → g = members) →
  members ∈ groups → i ∈ members → i < length fs0 →
  foldl (label_group config) fs groups !! i = Some (labelled config fs0 members i).
Proof.
  revert fs. induction groups as [|g groups IH]; intros fs Hs Hi Hnd Hg Huniq Hin Hmem Hlt; [by apply elem_of_nil in Hin|].
  apply NoDup_cons in Hnd as [Hgn Hnd]. cbn [foldl]. destruct (decide (g = members)) as [->|Hne].
  - assert (∀ l fs, (∀ g, g ∈ l → i ∉ g) → foldl (label_group config) fs l !! i = fs !! i) as Hrest.
    { clear. intros l. induction l as [|g l IH]; intros fs Hl; [done|]. cbn. rewrite IH.
      - apply label_group_notin, Hl. left.
      - intros g' Hg'. apply Hl. by right. }
    rewrite Hrest; [apply label_group_in; try done; apply Hg; left|].
    intros g Hgin Hig. assert (g = members) as -> by (apply Huniq; [by right | done]). done.
  - apply elem_of_cons in Hin as [->|Hin]; [done|]. apply IH; try done.
    + eapply same_ids_trans; [exact Hs | apply label_group_same].
    + rewrite label_group_notin; [done|]. intros Hig. apply Hne, Huniq; [left | done].
    + intros g' Hg'. apply Hg. by right.
    + intros g' Hg'. apply Huniq. by right.
Qed.

Lemma members_NoDup {K} `{Countable K} (key : nat → option K) n k :
  NoDup (List.filter (λ i, bool_decide (key i = Some k)) (seq 0 n)).
Proof. apply NoDup_ListNoDup, List.NoDup_filter, NoDup_ListNoDup, NoDup_seq. Qed.

(** The result of a correlation, finding by finding. *)
Lemma correlate_lookup input config i :
  let fs := map ensureKeys input in
  i < length input →
  CorrelateWithConfig input config !! i =
    Some (labelled config fs (component (link_all config fs) (length fs) i) i).
Proof.
  cbv zeta. intros Hi. set (fs := map ensureKeys input). assert (i < length fs) as Hi' by (unfold fs; by rewrite length_map).
  unfold CorrelateWithConfig. fold fs.
  destruct (link_all_spec config fs) as (Hlen & Hforest & _). set (ps := link_all config fs) in *.
  rewrite (collect_groups_step ps (length fs)) by done.
  set (key := λ i, Some (rootf ps i)). set (groups := foldl (group_step key) ∅ (seq 0 (length fs))).
  assert (∀ g, g ∈ (range_int groups).*2 ↔ ∃ r, g ≠ [] ∧
    g = List.filter (λ j, bool_decide (key j = Some r)) (seq 0 (length fs))) as Hgroups.
  { intros g. rewrite range_int_snd. unfold groups. by setoid_rewrite group_spec. }
  assert (i ∈ component ps (length fs) i) as Hself.
  { unfold component. apply (elem_of_members (λ j, Some (rootf ps j))). done. }
  apply label_groups; try done.
  - apply NoDup_fmap_2_strong; [|rewrite range_int_perm; apply NoDup_map_to_list].
    intros [r g] [r' g']. rewrite !range_int_perm, !elem_of_map_to_list. cbn. intros Hr Hr' <-.
    unfold groups in Hr, Hr'. rewrite group_spec in Hr, Hr'. destruct Hr as [Hne Hg], Hr' as [_ Hg'].
    destruct g as [|j g]; [done|]. assert (j ∈ j :: g) as Hj by left. f_equal.
    assert (key j = Some r) as Hk1 by (rewrite Hg in Hj; apply (elem_of_members key) in Hj; tauto).
    assert (key j = Some r') as Hk2 by (rewrite Hg' in Hj; apply (elem_of_members key) in Hj; tauto). congruence.
  - intros g (r & _ & ->)%Hgroups. apply members_NoDup.
  - intros g (r & _ & ->)%Hgroups (_ & Hk)%elem_of_members. unfold component. by rewrite <- Hk.
  - apply Hgroups. exists (rootf ps i). split; [|done]. intros Hnil. rewrite Hnil in Hself. by apply elem_of_nil in Hself.
Qed.

Lemma correlate_length input config : length (CorrelateWithConfig input config) = length input.
Proof.
  unfold CorrelateWithConfig. rewrite <- (length_map ensureKeys input).
  apply (foldl_invariant (λ fs, length fs = length (map ensureKeys input))); [done|].
  intros fs g _ <-. apply (label_group_same config fs g).
Qed.

Lemma component_spec config fs i :
  i < length fs →
  ∀ j, j ∈ component (link_all config fs) (length fs) i ↔ j < length fs ∧ correlated config fs i j.
Proof.
  intros Hi j. destruct (link_all_spec config fs) as (_ & _ & Hroots). unfold component.
  rewrite (elem_of_members (λ j, Some (rootf (link_all config fs) j))). split; intros [Hj Hr]; (split; [done|]).
  - apply Hroots; [done..|]. congruence.
  - f_equal. symmetry. by apply Hroots.
Qed.

End Groups.

(** The members of the group of the finding [i]: the findings links connect to it. *)
Definition members_of (config : Config) (fs : list Finding) (i : nat) (members : list nat) : Prop :=
  StronglySorted lt members ∧ ∀ j, j ∈ members ↔ j < length fs ∧ correlated config fs i j.

Lemma filter_seq_sorted (p : nat → bool) k n : StronglySorted lt (List.filter p (seq k n)).
Proof.
  revert k. induction n as [|n IH]; intros k; cbn; [constructor|]. destruct (p k); [|apply IH].
  constructor; [apply IH|]. apply Forall_forall. intros j [Hj _]%list_elem_of_In%filter_In.
  apply list_elem_of_In, elem_of_seq in Hj. lia.
Qed.

(** C34. Correlating labels every finding, in place, with the group of exactly the findings that links
    connect to it: links join findings with equal nonempty keys within a rule's window, the group
    identifier is derived from the sorted identifiers of the members, and the score counts the members
    and their distinct sources. *)
Theorem correlate_components `{RangeOrder} (input : list Finding) (config : Config) :
  let fs := map ensureKeys input in
  length (CorrelateWithConfig input config) = length input ∧
  (∀ i, i < length input → ∃ members, members_of config fs i members ∧
    CorrelateWithConfig input config !! i = Some (labelled config fs members i)) ∧
  (∀ i j, linked config fs i j →
    i < length input ∧ j < length input ∧ ∃ rule, rule ∈ rules config ∧
      rule_Key rule (finding_at fs i) = rule_Key rule (finding_at fs j) ∧
      rule_Key rule (finding_at fs i) ≠ "" ∧
      (Sub (finding_UpdatedAt (finding_at fs j)) (finding_UpdatedAt (finding_at fs i)) ≤ rule_Window rule)%Z).
Proof.
  cbv zeta. set (fs := map ensureKeys input). assert (length fs = length input) as Hlen by apply length_map.
  split; [apply correlate_length|]. split.
  - intros i Hi. eexists. split; [|by apply correlate_lookup].
    split; [apply filter_seq_sorted | apply component_spec; fold fs; lia].
  - intros i j (Hi & Hj & rule & Hrule & Hkey & Hreq & Hw)%linked_sound. rewrite <- Hlen.
    split; [done|]. split; [done|]. exists rule. split; [done|]. split; [done|]. split; [|done].
    apply Hreq. unfold rules in Hrule. repeat (apply elem_of_cons in Hrule as [->|Hrule]; [done|]).
    by apply elem_of_nil in Hrule.
Qed.

(** C35. The result does not depend on the orders in which Go visits the keys and the groups. *)
Theorem correlate_deterministic (R R' : RangeOrder) (input : list Finding) (config : Config) :
  @CorrelateWithConfig R input config = @CorrelateWithConfig R' input config.
Proof.
  apply list_eq. intros i. destruct (decide (i < length input)) as [Hi|Hi].
  - rewrite !correlate_lookup by done. apply (f_equal (λ members, Some (labelled config (map ensureKeys input) members i))).
    apply (StronglySorted_unique_strong lt); [intros; lia | apply filter_seq_sorted..|].
    apply NoDup_Permutation; [apply members_NoDup..|]. intros j.
    assert (i < length (map ensureKeys input)) as Hi' by by rewrite length_map.
    rewrite (component_spec (H := R) config _ i Hi' j). symmetry. apply (component_spec (H := R') config _ i Hi' j).
  - rewrite !(proj2 (lookup_ge_None _ _)); [done | rewrite correlate_length; lia..].
Qed.

(** * Configuration and score *)

Local Open Scope Z_scope.

Definition valid_config (c : Config) : Prop :=
  0 ≤ cfg_InfoBase c ≤ cfg_LowBase c ∧ cfg_LowBase c ≤ cfg_MediumBase c ≤ cfg_HighBase c ∧
  cfg_HighBase c ≤ cfg_CriticalBase c ≤ 100 ∧
  (∀ p, p ∈ config_points c → 0 ≤ p ≤ 20) ∧ (∀ w, w ∈ config_windows c → 1 ≤ w ≤ 10080).

Lemma existsb_none {A} (p : A → bool) l : existsb p l = false → ∀ x, x ∈ l → p x = false.
Proof.
  intros Hl x Hx. apply not_true_is_false. intros Hp.
  assert (existsb p l = true) by (apply existsb_exists; exists x; split; [by apply list_elem_of_In | done]).
  congruence.
Qed.

Lemma ParseConfig_valid raw c : ParseConfig raw = Ok c → valid_config c.
Proof.
  unfold ParseConfig. destruct (raw == "").
  - intros [= <-]. unfold valid_config, DefaultConfig, config_points, config_windows. cbn.
    do 3 (split; [lia|]). split; intros p Hp; repeat (apply elem_of_cons in Hp as [->|Hp]; [lia|]);
      by apply elem_of_nil in Hp.
  - intros (c' & _ & Hk)%bind_ok. rewrite !unless_ok, !negb_true_iff in Hk. destruct Hk as (Hb & Hp & Hw & [= ->]).
    unfold bases_descend in Hb. split_guards. rewrite !Z.leb_le in *. unfold valid_config.
    do 3 (split; [lia|]).
    split; intros x Hx.
    + pose proof (existsb_none _ _ Hp x Hx) as Hbad. cbn in Hbad. split_guards. rewrite !Z.ltb_ge in *. lia.
    + pose proof (existsb_none _ _ Hw x Hx) as Hbad. cbn in Hbad. split_guards. rewrite !Z.ltb_ge in *. lia.
Qed.

Lemma severity_base_bounds c severity : valid_config c → 0 ≤ severity_base c severity ≤ 100.
Proof. intros (H1 & H2 & H3 & _). unfold severity_base. repeat case_match; lia. Qed.

Definition factor_ok (f : RiskFactor) : Prop := 0 ≤ factor_Points f ≤ 20.

Lemma add_factor_ok cond name points reason factors n :
  (cond = true → 0 ≤ points ≤ 20) → Forall factor_ok factors ∧ Z.of_nat (length factors) ≤ n →
  Forall factor_ok (add_factor cond name points reason factors) ∧
  Z.of_nat (length (add_factor cond name points reason factors)) ≤ n + 1.
Proof.
  intros Hp [Hf Hn]. unfold add_factor. destruct cond; [|split; [done | lia]].
  split; [apply Forall_app; split; [done | by repeat constructor; apply Hp]|]. rewrite length_app. cbn. lia.
Qed.

Lemma score_factors_ok f sources size c : valid_config c →
  Forall factor_ok (score_factors f sources size c) ∧ Z.of_nat (length (score_factors f sources size c)) ≤ 6.
Proof.
  intros (_ & _ & _ & Hp & _). unfold score_factors. cbv zeta.
  assert (0 ≤ cfg_MultiSourcePoints c ≤ 20) by (apply Hp; left).
  assert (0 ≤ cfg_CorrelatedPointsCap c ≤ 20) by (apply Hp; right; left).
  assert (0 ≤ cfg_NetworkPoints c ≤ 20) by (apply Hp; do 2 right; left).
  assert (0 ≤ cfg_IdentityPoints c ≤ 20) by (apply Hp; do 3 right; left).
  assert (0 ≤ cfg_ImagePoints c ≤ 20) by (apply Hp; do 4 right; left).
  assert (0 ≤ cfg_MultiResourcePointsCap c ≤ 20) by (apply Hp; do 5 right; left).
  change 6 with (0 + 1 + 1 + 1 + 1 + 1 + 1).
  repeat (apply add_factor_ok; [rewrite ?Z.ltb_lt; lia|]). by repeat constructor.
Qed.

Definition points_of (factors : list RiskFactor) : Z := foldr (λ f t, factor_Points f + t) 0 factors.

Lemma final_fold base factors :
  Forall factor_ok factors → 0 ≤ base → base + 20 * Z.of_nat (length factors) ≤ MaxInt64 →
  foldl (λ final factor, wrap64 (final + factor_Points factor)) base factors = base + points_of factors ∧
  0 ≤ points_of factors.
Proof.
  intros Hf. revert base. induction Hf as [|f factors [Hf1 Hf2] _ IH]; intros base Hb Hmax; cbn [foldl points_of foldr].
  { lia. }
  cbn [length] in Hmax. rewrite wrap64_small by (unfold MinInt64; lia).
  destruct (IH (base + factor_Points f)) as [-> Hpos]; [lia..|]. fold (points_of factors). lia.
Qed.

(** Under a configuration [ParseConfig] accepts, a score lies between 0 and 100: it is the severity's
    base plus the points of its factors, each between 0 and 20, capped at 100, and a more severe
    finding never starts from a lower base. *)
Theorem score_bounds (raw : string) (config : Config) (finding : Finding) (sourceCount groupSize : Z)
    (Hconfig : ParseConfig raw = Ok config) :
  let risk := score finding sourceCount groupSize config in
  0 ≤ risk_FinalScore risk ≤ 100 ∧
  risk_FinalScore risk = Z.min 100 (risk_BaseScore risk + points_of (risk_Factors risk)) ∧
  Forall (λ f, 0 ≤ factor_Points f ≤ 20) (risk_Factors risk) ∧
  (severity_base config SeverityInfo ≤ severity_base config SeverityLow ≤ severity_base config SeverityMedium ∧
   severity_base config SeverityMedium ≤ severity_base config SeverityHigh ≤ severity_base config SeverityCritical).
Proof.
  cbv zeta. apply ParseConfig_valid in Hconfig as Hvalid.
  pose proof (severity_base_bounds config (finding_Severity finding) Hvalid) as Hbase.
  destruct (score_factors_ok finding sourceCount groupSize config Hvalid) as [Hf Hlen].
  unfold score. cbv zeta. cbn [risk_FinalScore risk_BaseScore risk_Factors].
  destruct (final_fold (severity_base config (finding_Severity finding))
    (score_factors finding sourceCount groupSize config)) as [-> Hpos]; [done | lia | unfold MaxInt64; lia |].
  split; [|split; [|split; [exact Hf|]]].
  - destruct (Z.ltb_spec 100 (severity_base config (finding_Severity finding) +
      points_of (score_factors finding sourceCount groupSize config))); lia.
  - destruct (Z.ltb_spec 100 (severity_base config (finding_Severity finding) +
      points_of (score_factors finding sourceCount groupSize config))); lia.
  - destruct Hvalid as (H1 & H2 & H3 & _). cbn. lia.
Qed.

Lemma score_bounds_witness :
  ∃ config, ParseConfig (requote "{'criticalBase': 95, 'multiSourcePoints': 20, 'note': [1]}") = Ok config ∧
    0 ≤ risk_FinalScore (score (zero_Finding <| finding_Severity := SeverityCritical |>) 3 4 config) ≤ 100.
Proof.
  eexists. assert (ParseConfig (requote "{'criticalBase': 95, 'multiSourcePoints': 20, 'note': [1]}") =
    Ok (DefaultConfig <| cfg_CriticalBase := 95 |> <| cfg_MultiSourcePoints := 20 |>)) as Hc by (vm_compute; reflexivity).
  split; [exact Hc|].
  exact (proj1 (score_bounds _ _ (zero_Finding <| finding_Severity := SeverityCritical |>) 3 4 Hc)).
Defined.

Definition workload_finding (id source : string) (t : Time) : Finding :=
  zero_Finding <| finding_ID := id |> <| finding_Source := source |> <| finding_Severity := SeverityHigh |>
    <| finding_UpdatedAt := t |> <| finding_Resources := [mkResourceRef "apps/v1" "Deployment" "shop" "api"] |>.

(** Two findings of one workload within two hours form a group scored for two sources; a third, 130
    minutes after the first, starts its own. *)
Example correlate_ex :
  let out := @Correlate canonical_order
    [workload_finding "a" "trivy" 0; workload_finding "b" "falco" (30 * Minute); workload_finding "c" "falco" (130 * Minute)] in
  map finding_RiskScore out = [79; 79; 72] ∧
  bool_decide (map finding_CorrelationGroup out !! 0%nat = map finding_CorrelationGroup out !! 1%nat) = true ∧
  bool_decide (map finding_CorrelationGroup out !! 1%nat = map finding_CorrelationGroup out !! 2%nat) = false.
Proof. vm_compute. done. Qed.
