(* ===== verification/GoDuration.v ===== *)
(** [time.ParseDuration], [Duration.Seconds] and the remaining string functions of the chaos code,
    from the Go standard library. A unit's fraction is rounded through [float64] as the library does. *)
From Stdlib Require Import SpecFloat.
From S2P Require Import Prelude GoLib.

Local Open Scope Z_scope.

(** * strings and strconv *)

Definition TrimSuffix (s suffix : string) : string :=
  if HasSuffix s suffix then string_take (String.length s - String.length suffix) s else s.

Definition ContainsAny (s chars : string) : bool :=
  existsb (in_cutset chars) (String.list_ascii_of_string s).

(** [int] has 64 bits on the platforms the images are built for. *)
Definition Atoi : string → option Z := ParseInt.

(** * float64 *)

Definition float64_mul (x y : float64) : float64 := SFmul 53 1024 x y.
Definition float64_add (x y : float64) : float64 := SFadd 53 1024 x y.

(** Conversion of a finite non-negative [float64] to an integer truncates. *)
Definition truncate (f : float64) : Z :=
  match f with
  | S754_finite sign m e => (if sign then -1 else 1) * (Z.shiftl (Zpos m) e)
  | _ => 0
  end.

(** * time.ParseDuration *)

Definition two63 : Z := 2 ^ 63.

(** [leadingInt]: the digits consumed and the rest, [None] on overflow. *)
Fixpoint leadingInt (x : Z) (s : string) : option (Z * string) :=
  match s with
  | String c rest =>
      if is_digit c then
        if two63 / 10 <? x then None
        else let x := x * 10 + (byte_code c - 48) in
             if two63 <? x then None else leadingInt x rest
      else Some (x, s)
  | EmptyString => Some (x, s)
  end.

(** [leadingFraction]: digits past the precision are dropped. *)
Fixpoint leadingFraction (x : Z) (scale : float64) (overflow : bool) (s : string) : Z * float64 * string :=
  match s with
  | String c rest =>
      if is_digit c then
        if overflow || ((two63 - 1) / 10 <? x) then leadingFraction x scale true rest
        else let y := x * 10 + (byte_code c - 48) in
             if two63 <? y then leadingFraction x scale true rest
             else leadingFraction y (float64_mul scale (float64_of_int 10)) false rest
      else (x, scale, s)
  | EmptyString => (x, scale, s)
  end.

(** The unit runs to the next digit or dot. *)
Fixpoint take_unit (s : string) : string * string :=
  match s with
  | String c rest =>
      if (byte_code c =? 46) || is_digit c then (EmptyString, s)
      else let '(u, rest') := take_unit rest in (String c u, rest')
  | EmptyString => (EmptyString, s)
  end.

(** The micro sign U+00B5 and the Greek letter U+03BC in UTF-8. *)
Definition micro_sign : string := String (byte_of_code 194) (String (byte_of_code 181) "s").
Definition greek_mu : string := String (byte_of_code 206) (String (byte_of_code 188) "s").

Definition unit_value (u : string) : option Z :=
  if u == "ns" then Some 1
  else if (u == "us") || (u == micro_sign) || (u == greek_mu) then Some 1000
  else if u == "ms" then Some 1000000
  else if u == "s" then Some Second
  else if u == "m" then Some Minute
  else if u == "h" then Some Hour
  else None.

(** [if f > 0 { v += uint64(float64(f) * (float64(unit) / scale)) }] *)
Definition with_fraction (v f : Z) (scale : float64) (unit : Z) : Z :=
  if 0 <? f then v + truncate (float64_mul (float64_of_int f) (float64_div (float64_of_int unit) scale)) else v.

(** One [number unit] term: its value and the rest. *)
Definition parse_term (s : string) : option (Z * string) :=
  match s with
  | EmptyString => None
  | String c _ =>
      if negb ((byte_code c =? 46) || is_digit c) then None else
      '(v, rest) ← leadingInt 0 s;
      let pre := negb (Nat.eqb (String.length rest) (String.length s)) in
      let '(f, scale, rest', post) :=
        match take_byte 46 rest with
        | Some frac => let '(f, scale, rest') := leadingFraction 0 (float64_of_int 1) false frac in
                       (f, scale, rest', negb (Nat.eqb (String.length rest') (String.length frac)))
        | None => (0, float64_of_int 1, rest, false)
        end in
      if negb pre && negb post then None else
      let '(u, rest'') := take_unit rest' in
      if u == "" then None else
      unit ← unit_value u;
      if two63 / unit <? v then None else
      let v := v * unit in
      let v' := with_fraction v f scale unit in
      if (0 <? f) && (two63 <? v') then None else Some (v', rest'')
  end.

(** The terms up to the end of the string; each consumes at least a byte, so the length is enough fuel. *)
Fixpoint parse_terms (fuel : nat) (d : Z) (s : string) : option Z :=
  match fuel, s with
  | _, EmptyString => Some d
  | O, _ => None
  | S fuel', _ =>
      '(v, rest) ← parse_term s;
      if two63 <? d + v then None else parse_terms fuel' (d + v) rest
  end.

(** [None] is an invalid duration. *)
Definition ParseDuration (s : string) : option Duration :=
  let '(neg, s) := match take_byte 45 s, take_byte 43 s with
                   | Some r, _ => (true, r)
                   | None, Some r => (false, r)
                   | None, None => (false, s)
                   end in
  if s == "0" then Some 0
  else if s == "" then None
  else
    d ← parse_terms (String.length s) 0 s;
    if neg then Some (- d) else if two63 - 1 <? d then None else Some d.

(** [int64(d.Seconds())]: whole seconds and a [float64] fraction, truncated. *)
Definition whole_seconds (d : Duration) : Z :=
  truncate (float64_add (float64_of_int (Z.quot d Second))
              (float64_div (float64_of_int (Z.rem d Second)) (float64_of_int Second))).

Example ParseDuration_ex :
  map ParseDuration ["30s"; "5m"; "1h15m30.918s"; "1.5ms"; "-2m"; "0"; ""; "3"; "5x"; ".s"; "99999999h"] =
  [Some (30 * Second); Some (5 * Minute); Some 4530918000000; Some 1500000; Some (-2 * Minute);
   Some 0; None; None; None; None; None].
Proof. vm_compute. reflexivity. Qed.
Example whole_seconds_ex : map whole_seconds [300 * Second; 300 * Second - 1; 500000000] = [300; 299; 0].
Proof. vm_compute. reflexivity. Qed.
