(* ===== verification/Interaction.v ===== *)
(** Programs that interact with their surroundings, as trees of events: a program answers a value or
    performs an event and goes on with the answer. Several programs run concurrently; between any two
    events of one of them the others, and the surroundings, may act. A protocol, a precondition for
    every event and what may be assumed of its answer, is checked program by program and then holds
    of every concurrent execution. *)
From S2P Require Import Prelude.

Inductive prog (E : Type → Type) (A : Type) : Type :=
| Ret (a : A)
| Vis (X : Type) (e : E X) (k : X → prog E A).
Arguments Ret {E A} a.
Arguments Vis {E A X} e k.

Fixpoint prog_bind {E A B} (k : A → prog E B) (p : prog E A) : prog E B :=
  match p with
  | Ret a => k a
  | Vis e h => Vis e (λ x, prog_bind k (h x))
  end.

(** * Fallible programs: [return zero, err] ends the function *)

Definition P (E : Type → Type) (A : Type) : Type := prog E (result A).

#[export] Instance P_ret {E} : MRet (P E) := λ A a, Ret (Ok a).
#[export] Instance P_bind {E} : MBind (P E) := λ A B k p,
  prog_bind (λ r, match r with Ok a => k a | Err e => Ret (Err e) end) p.

Section Statements.
Context {E : Type → Type} {A : Type}.

(** An event that cannot fail, and one that answers a value or an error. *)
Definition ask (e : E A) : P E A := Vis e (λ x, Ret (Ok x)).
Definition call (e : E (result A)) : P E A := Vis e (λ r, Ret r).
Definition raise (e : GoError) : P E A := Ret (Err e).
Definition raise_if (cond : bool) (e : GoError) : P E unit := Ret (if cond then Err e else Ok tt).
Definition pure_result (r : result A) : P E A := Ret r.
(** [x, err := p]: the caller looks at the error itself. A panic is not an error value. *)
Definition caught (r : result A) : result (result A) :=
  match r with Err (Panic text) => Err (Panic text) | _ => Ok r end.
Definition attempt (p : P E A) : P E (result A) := prog_bind (λ r, Ret (caught r)) p.

End Statements.

(** * Histories *)

Section Histories.
Context {E : Type → Type}.

(** An event with its answer; a history lists them, the latest first. *)
Inductive occurrence : Type := Occ (X : Type) (e : E X) (x : X).
Definition history : Type := list occurrence.

(** * Protocols *)

Section Protocol.
(** [pre h e] has to hold when [e] is performed after [h]; [post h e x] may be assumed of its answer. *)
Variables (pre : ∀ X, history → E X → Prop) (post : ∀ X, history → E X → X → Prop).

(** [p], started after [h], respects the protocol whatever happens between its events; [Q] holds of
    its value. *)
Fixpoint safe {A} (h : history) (p : prog E A) (Q : history → A → Prop) : Prop :=
  match p with
  | Ret a => ∀ h', suffix h h' → Q h' a
  | @Vis _ _ X e k => ∀ h', suffix h h' →
      pre X h' e ∧ ∀ x, post X h' e x → safe (Occ X e x :: h') (k x) Q
  end.

Lemma safe_later {A} h h' (p : prog E A) Q : suffix h h' → safe h p Q → safe h' p Q.
Proof. intros Hh. destruct p; cbn; intros Hp h'' Hh''; apply Hp; by transitivity h'. Qed.

Lemma safe_weaken {A} h (p : prog E A) (Q Q' : history → A → Prop) :
  (∀ h' a, Q h' a → Q' h' a) → safe h p Q → safe h p Q'.
Proof.
  intros HQ. revert h. induction p as [a|X e k IH]; intros h; cbn; [eauto|].
  intros Hp h' Hh'. destruct (Hp h' Hh') as [He Hx]. split; [done|]. intros x Hpost. apply IH. auto.
Qed.

(** What holds of a value when it is returned holds of it at any later time. *)
Lemma safe_persists {A} h (p : prog E A) (Q : history → A → Prop) :
  safe h p Q → safe h p (λ h' a, ∀ h'', suffix h' h'' → Q h'' a).
Proof.
  revert h. induction p as [a|X e k IH]; intros h; cbn; [intros HQ h' Hh' h'' Hh''; apply HQ; by transitivity h'|].
  intros Hp h' Hh'. destruct (Hp h' Hh') as [He Hx]. split; [done|]. intros x Hpost. apply IH. auto.
Qed.

(** Histories only grow. *)
Lemma safe_grows {A} h (p : prog E A) (Q : history → A → Prop) :
  safe h p Q → safe h p (λ h' a, suffix h h' ∧ Q h' a).
Proof.
  revert h. induction p as [a|X e k IH]; intros h; cbn; [auto|].
  intros Hp h' Hh'. destruct (Hp h' Hh') as [He Hx]. split; [done|]. intros x Hpost.
  eapply safe_weaken; [|by apply IH, Hx]. intros h'' a [Hs HQ]. split; [|done].
  transitivity (Occ X e x :: h'); [|done]. transitivity h'; [done | by exists [Occ X e x]].
Qed.

Lemma safe_bind {A B} h (p : prog E A) (k : A → prog E B) Q :
  safe h p (λ h' a, safe h' (k a) Q) → safe h (prog_bind k p) Q.
Proof.
  revert h. induction p as [a|X e k' IH]; intros h; cbn; [intros Hp; by apply Hp|].
  intros Hp h' Hh'. destruct (Hp h' Hh') as [He Hx]. split; [done|]. intros x Hpost. apply IH. auto.
Qed.

(** A value returned without an event, where the postcondition persists. *)
Lemma safe_ret {A} h (a : A) (Q : history → A → Prop) : (∀ h', suffix h h' → Q h' a) → safe h (Ret a) Q.
Proof. done. Qed.

Lemma safe_call {A} h (e : E A) (k : A → prog E unit) Q :
  (∀ h', suffix h h' → pre A h' e ∧ ∀ x, post A h' e x → safe (Occ A e x :: h') (k x) Q) →
  safe h (Vis e k) Q.
Proof. done. Qed.

(** ** Fallible programs *)

Definition on_ok {A} (Q : history → A → Prop) (h : history) (r : result A) : Prop :=
  match r with Ok a => Q h a | Err _ => True end.

Lemma safe_then {A B} h (p : P E A) (k : A → P E B) (Q : history → B → Prop) :
  safe h p (on_ok (λ h' a, safe h' (k a) (on_ok Q))) → safe h (p ≫= k) (on_ok Q).
Proof.
  intros Hp. apply safe_bind. eapply safe_weaken; [|exact Hp]. intros h' [a|e]; [done|]. by intros _ h'' _.
Qed.

Lemma safe_attempt {A} h (p : P E A) (Q : history → result A → Prop) :
  safe h p Q → safe h (attempt p) (on_ok Q).
Proof.
  intros Hp%safe_persists. apply safe_bind. eapply safe_weaken; [|exact Hp]. intros h' r Hr h'' Hh''.
  destruct r as [|[]]; cbn; auto.
Qed.

(** ** Statement by statement *)

Section Statements.
Context {A B : Type}.
Implicit Types (Q : history → B → Prop) (k : A → P E B).

Lemma safe_then_spec h (p : P E A) (Φ : history → A → Prop) k Q :
  safe h p (on_ok Φ) → (∀ h' a, Φ h' a → safe h' (k a) (on_ok Q)) → safe h (p ≫= k) (on_ok Q).
Proof. intros Hp Hk. apply safe_then. eapply safe_weaken; [|exact Hp]. intros h' [a|e]; cbn; auto. Qed.

Lemma safe_then_grows h (p : P E A) (Φ : history → A → Prop) k Q :
  safe h p (on_ok Φ) → (∀ h' a, suffix h h' → Φ h' a → safe h' (k a) (on_ok Q)) → safe h (p ≫= k) (on_ok Q).
Proof.
  intros Hp Hk. apply safe_then. eapply safe_weaken; [|by apply safe_grows, Hp].
  intros h' [a|e]; cbn; [|done]. intros [Hs Ha]. by apply Hk.
Qed.

Lemma safe_then_ret h (a : A) k Q : safe h (k a) (on_ok Q) → safe h (mret a ≫= k) (on_ok Q).
Proof. done. Qed.

Lemma safe_then_pure h (r : result A) k Q :
  (∀ a, r = Ok a → safe h (k a) (on_ok Q)) → safe h (pure_result r ≫= k) (on_ok Q).
Proof. intros Hk. destruct r; cbn; [by apply Hk | done]. Qed.

Lemma safe_then_raise h e k Q : safe h (raise e ≫= k) (on_ok Q).
Proof. done. Qed.

Lemma safe_then_ask h (e : E A) k Q :
  (∀ h', suffix h h' → pre A h' e ∧ ∀ x, post A h' e x → safe (Occ A e x :: h') (k x) (on_ok Q)) →
  safe h (ask e ≫= k) (on_ok Q).
Proof. done. Qed.

Lemma safe_then_call h (e : E (result A)) k Q :
  (∀ h', suffix h h' → pre _ h' e ∧
     ∀ x, post _ h' e (Ok x) → safe (Occ _ e (Ok x) :: h') (k x) (on_ok Q)) →
  safe h (call e ≫= k) (on_ok Q).
Proof.
  intros Hk h' Hh'. destruct (Hk h' Hh') as [He Hx]. split; [done|]. intros [x|err] Hpost; [by apply Hx | done].
Qed.

Lemma safe_then_attempt_call h (e : E (result A)) (k : result A → P E B) Q :
  (∀ h', suffix h h' → pre _ h' e ∧ ∀ x, post _ h' e x → safe (Occ _ e x :: h') (k x) (on_ok Q)) →
  safe h (attempt (call e) ≫= k) (on_ok Q).
Proof.
  intros Hk h' Hh'. destruct (Hk h' Hh') as [He Hx]. split; [done|]. intros x Hpost.
  specialize (Hx x Hpost). by destruct x as [|[]].
Qed.

Lemma safe_then_attempt h (p : P E A) (Φ : history → result A → Prop) (k : result A → P E B) Q :
  safe h p Φ → (∀ h' r, Φ h' r → safe h' (k r) (on_ok Q)) → safe h (attempt p ≫= k) (on_ok Q).
Proof.
  intros Hp Hk. apply safe_then. eapply safe_weaken; [|apply safe_attempt, safe_persists, Hp].
  intros h' [r|e]; cbn; [|done]. intros Hr. by apply Hk, Hr.
Qed.

Lemma safe_then_bind {C} h (p : P E C) (f : C → P E A) k Q :
  safe h (p ≫= λ c, f c ≫= k) (on_ok Q) → safe h ((p ≫= f) ≫= k) (on_ok Q).
Proof.
  revert h. induction p as [r|X e g IH]; intros h; cbn; [destruct r; cbn; auto|].
  intros Hp h' Hh'. destruct (Hp h' Hh') as [He Hx]. split; [done|]. intros x Hpost. apply IH. by apply Hx.
Qed.

Lemma safe_ret_ok h (b : B) Q : (∀ h', suffix h h' → Q h' b) → safe h (mret b : P E B) (on_ok Q).
Proof. done. Qed.

Lemma safe_raise h e Q : safe h (raise e : P E B) (on_ok Q).
Proof. done. Qed.

Lemma safe_last_call h (e : E (result B)) Q :
  (∀ h', suffix h h' → pre _ h' e ∧
     ∀ x, post _ h' e (Ok x) → ∀ h'', suffix (Occ _ e (Ok x) :: h') h'' → Q h'' x) →
  safe h (call e) (on_ok Q).
Proof.
  intros Hk h' Hh'. destruct (Hk h' Hh') as [He Hx]. split; [done|]. intros [x|err] Hpost; cbn; auto.
Qed.

End Statements.

Lemma safe_then_raise_if {B} h cond e (k : unit → P E B) (Q : history → B → Prop) :
  (cond = false → safe h (k tt) (on_ok Q)) → safe h (raise_if cond e ≫= k) (on_ok Q).
Proof. intros Hk. destruct cond; cbn; auto. Qed.

Lemma safe_raise_if h cond e (Q : history → unit → Prop) :
  (cond = false → ∀ h', suffix h h' → Q h' tt) → safe h (raise_if cond e : P E unit) (on_ok Q).
Proof. intros HQ. destruct cond; cbn; auto. Qed.

(** * Concurrent executions *)

Section Executions.
Context {St : Type}.
Variables
  (init : St → Prop)
  (entry : prog E unit → Prop)
  (handles : ∀ X, St → E X → X → St → Prop)
  (env : St → St → Prop).

(** The state, the history and the running programs reached: a program may start at any time, any
    running program may take the next step, the surroundings may act in between. *)
Inductive execution : history → St → list (prog E unit) → Prop :=
| exec_init σ : init σ → execution [] σ []
| exec_start h σ ts p : entry p → execution h σ ts → execution h σ (p :: ts)
| exec_env h σ σ' ts : env σ σ' → execution h σ ts → execution h σ' ts
| exec_event h σ σ' ts1 ts2 X (e : E X) k x :
    handles X σ e x σ' → execution h σ (ts1 ++ Vis e k :: ts2) →
    execution (Occ X e x :: h) σ' (ts1 ++ k x :: ts2).

(** Every event of the history met its precondition. *)
Fixpoint obeys (h : history) : Prop :=
  match h with
  | [] => True
  | Occ X e x :: h' => pre X h' e ∧ obeys h'
  end.

(** What came before the last event was itself an execution. *)
Lemma execution_before h σ ts later before :
  execution h σ ts → h = later ++ before → ∃ σ' ts', execution before σ' ts'.
Proof.
  intros He. revert later. induction He as [σ Hσ|h σ ts p Hp He IH|h σ σ' ts Hσ He IH|
    h σ σ' ts1 ts2 X e k x Hσ He IH]; intros later Heq.
  - apply symmetry, app_eq_nil in Heq as [-> ->]. exists σ, []. by constructor.
  - eauto.
  - eauto.
  - destruct later as [|o later]; cbn in Heq; simplify_eq; [|by eapply IH].
    exists σ', (ts1 ++ k x :: ts2). by econstructor.
Qed.

(** The state an event of the history was performed in. *)
Lemma execution_at h σ ts later X (e : E X) x before :
  execution h σ ts → h = later ++ Occ X e x :: before →
  ∃ σ0 ts0 σ1, execution before σ0 ts0 ∧ handles X σ0 e x σ1.
Proof.
  intros He. revert later. induction He as [σ Hσ|h σ ts p Hp He IH|h σ σ' ts Hσ He IH|
    h σ σ' ts1 ts2 Y f k y Hσ He IH]; intros later Heq; [by destruct later | eauto | eauto |].
  destruct later as [|o later]; [|apply (f_equal tail) in Heq; cbn in Heq; by eapply IH].
  pose proof (f_equal (hd (Occ Y f y)) Heq) as Ho. apply (f_equal tail) in Heq. cbn in Ho, Heq. subst h.
  exists σ, (ts1 ++ Vis f k :: ts2), σ'. split; [done|].
  exact (match Ho in _ = o return match o with Occ X e x => handles X σ e x σ' end with eq_refl => Hσ end).
Qed.

Variable (inv : history → St → Prop).
Hypotheses
  (inv_init : ∀ σ, init σ → inv [] σ)
  (inv_env : ∀ h σ σ', env σ σ' → inv h σ → inv h σ')
  (inv_event : ∀ X h σ σ' (e : E X) x, handles X σ e x σ' → inv h σ → obeys h → pre X h e →
     post X h e x ∧ inv (Occ X e x :: h) σ')
  (entry_safe : ∀ p h, entry p → safe h p (λ _ _, True)).

(** When every entry point respects the protocol, every concurrent execution does. *)
Theorem executions_obey h σ ts :
  execution h σ ts → inv h σ ∧ obeys h ∧ Forall (λ p, safe h p (λ _ _, True)) ts.
Proof.
  induction 1 as [σ Hσ|h σ ts p Hp _ (Hi & Ho & Hts)|h σ σ' ts Hσ _ (Hi & Ho & Hts)|
    h σ σ' ts1 ts2 X e k x Hσ _ (Hi & Ho & Hts)].
  - split_and!; [auto | done | constructor].
  - split_and!; [done..|]. constructor; auto.
  - split_and!; [eauto | done..].
  - apply Forall_app in Hts as [Hts1 Hts2]. apply Forall_cons in Hts2 as [Hp Hts2].
    destruct (Hp h (reflexivity h)) as [Hpre Hk]. destruct (inv_event _ _ _ _ _ _ Hσ Hi Ho Hpre) as [Hpost Hi'].
    split_and!; [done | done |].
    assert (suffix h (Occ X e x :: h)) as Hs by (by exists [Occ X e x]).
    rewrite Forall_app, Forall_cons. split_and!; [|by apply Hk|]; (eapply Forall_impl; [eassumption|]);
      intros q; by apply safe_later.
Qed.

End Executions.

(** * One program among others *)

(** [p] performed the events of [h], whatever they answered and whatever happened in between, and goes on
    as the program reached. *)
Inductive performs {A} (p : prog E A) : history → prog E A → Prop :=
| performs_none : performs p [] p
| performs_event h X (e : E X) k x : performs p h (Vis e k) → performs p (Occ X e x :: h) (k x).

Lemma performs_safe {A} (p : prog E A) Q h p' :
  (∀ X h (e : E X) x, post X h e x) → safe [] p Q → performs p h p' → obeys h ∧ safe h p' Q.
Proof.
  intros Hpost Hp. induction 1 as [|h X e k x _ [IHo IH]]; [done|].
  destruct (IH h (reflexivity h)) as [He Hk]. split; [done | by apply Hk].
Qed.

Lemma obeys_at later X (e : E X) x before : obeys (later ++ Occ X e x :: before) → pre X before e.
Proof. induction later as [|[Y f y] later IH]; cbn; [by intros [] | intros [_ Ho]; auto]. Qed.

End Protocol.

(** A protocol with weaker preconditions. *)
Lemma safe_pre_weaken {A} (pre pre' : ∀ X, history → E X → Prop) post h (p : prog E A) Q :
  (∀ X h (e : E X), pre X h e → pre' X h e) → safe pre post h p Q → safe pre' post h p Q.
Proof.
  intros Hpre. revert h. induction p as [a|X e k IH]; intros h; cbn; [auto|].
  intros Hp h' Hh'. destruct (Hp h' Hh') as [He Hx]. split; [auto|]. intros x Hpost. apply IH. auto.
Qed.

(** * Running one program to its end against a deterministic handler *)

Section Driver.
Context {D : Type}.
Variable (handle : ∀ X, E X → D → X * D).

Fixpoint drive {A} (p : prog E A) (d : D) (h : history) : A * D * history :=
  match p with
  | Ret a => (a, d, h)
  | @Vis _ _ X e k => let '(x, d') := handle X e d in drive (k x) d' (Occ X e x :: h)
  end.

(** ** Statement by statement *)

Section Statements.
Context {A B : Type}.
Implicit Types (k : A → P E B) (d : D) (h : history).

Lemma drive_ret (a : A) k d h : drive (mret a ≫= k) d h = drive (k a) d h.
Proof. done. Qed.
Lemma drive_pure (r : result A) k d h :
  drive (pure_result r ≫= k) d h = drive (match r with Ok a => k a | Err e => Ret (Err e) end) d h.
Proof. done. Qed.
Lemma drive_raise_if cond err (k : unit → P E B) d h :
  drive (raise_if cond err ≫= k) d h = if cond then (Err err, d, h) else drive (k tt) d h.
Proof. by destruct cond. Qed.
Lemma drive_ask (e : E A) k d h :
  drive (ask e ≫= k) d h = let '(x, d') := handle A e d in drive (k x) d' (Occ A e x :: h).
Proof. done. Qed.
Lemma drive_call (e : E (result A)) k d h :
  drive (call e ≫= k) d h =
    let '(x, d') := handle _ e d in
    drive (match x with Ok a => k a | Err err => Ret (Err err) end) d' (Occ _ e x :: h).
Proof. done. Qed.
Lemma drive_attempt_call (e : E (result A)) (k : result A → P E B) d h :
  drive (attempt (call e) ≫= k) d h =
    let '(x, d') := handle _ e d in
    drive (match caught x with Ok r => k r | Err err => Ret (Err err) end) d' (Occ _ e x :: h).
Proof. done. Qed.
Lemma drive_bind (p : P E A) k d h :
  drive (p ≫= k) d h = let '(r, d', h') := drive p d h in
    drive (match r with Ok a => k a | Err err => Ret (Err err) end) d' h'.
Proof.
  revert d h. induction p as [r|X e f IH]; intros d h; [by destruct r|]. cbn. destruct (handle X e d) as [x d'].
  apply IH.
Qed.
Lemma drive_attempt (p : P E A) (k : result A → P E B) d h :
  drive (attempt p ≫= k) d h = let '(r, d', h') := drive p d h in
    drive (match caught r with Ok a => k a | Err err => Ret (Err err) end) d' h'.
Proof.
  revert d h. induction p as [r|X e f IH]; intros d h; [by destruct (caught r)|]. cbn.
  destruct (handle X e d) as [x d']. apply IH.
Qed.
End Statements.

(** [p], run from [d], ends with a value and a state that satisfy [Q]. *)
Definition runs {A} (p : prog E A) (d : D) (Q : A → D → Prop) : Prop :=
  ∀ h, let '(a, d', _) := drive p d h in Q a d'.

Lemma drive_performs {A} (p p' : prog E A) d h :
  performs p h p' → let '(a, _, h') := drive p' d h in performs p h' (Ret a).
Proof.
  revert d h. induction p' as [a|X e k IH]; intros d h Hp; cbn; [done|]. destruct (handle X e d) as [x d'].
  apply IH. by constructor.
Qed.

Lemma drive_returns {A} (p : prog E A) d a : (drive p d []).1.1 = a → performs p (drive p d []).2 (Ret a).
Proof.
  pose proof (drive_performs p p d [] (performs_none p)) as Hp. destruct (drive p d []) as [[a' d'] h']. by intros <-.
Qed.

Section Runs.
Context {A B : Type}.
Implicit Types (k : A → P E B) (d : D) (Q : result B → D → Prop).

Lemma runs_ret (b : B) d Q : Q (Ok b) d → runs (mret b : P E B) d Q.
Proof. by intros HQ h. Qed.
Lemma runs_raise err d Q : Q (Err err) d → runs (raise err : P E B) d Q.
Proof. by intros HQ h. Qed.
Lemma runs_then_ret (a : A) k d Q : runs (k a) d Q → runs (mret a ≫= k) d Q.
Proof. done. Qed.
Lemma runs_then_pure (a : A) r k d Q : r = Ok a → runs (k a) d Q → runs (pure_result r ≫= k) d Q.
Proof. by intros ->. Qed.
Lemma runs_then_raise_if cond err (k : unit → P E B) d Q :
  cond = false → runs (k tt) d Q → runs (raise_if cond err ≫= k) d Q.
Proof. by intros ->. Qed.
Lemma runs_then_ask (e : E A) k d Q :
  (let '(x, d') := handle A e d in runs (k x) d' Q) → runs (ask e ≫= k) d Q.
Proof. intros Hk h. rewrite drive_ask. destruct (handle A e d) as [x d']. apply Hk. Qed.
Lemma runs_then_call (e : E (result A)) k d Q :
  (let '(x, d') := handle _ e d in ∃ a, x = Ok a ∧ runs (k a) d' Q) → runs (call e ≫= k) d Q.
Proof. intros Hk h. rewrite drive_call. destruct (handle _ e d) as [x d']. destruct Hk as (a & -> & Hk). apply Hk. Qed.
Lemma runs_then_attempt_call (e : E (result A)) (k : result A → P E B) d Q :
  (let '(x, d') := handle _ e d in caught x = Ok x ∧ runs (k x) d' Q) → runs (attempt (call e) ≫= k) d Q.
Proof.
  intros Hk h. rewrite drive_attempt_call. destruct (handle _ e d) as [x d']. destruct Hk as [-> Hk]. apply Hk.
Qed.
Lemma runs_then (p : P E A) (Q' : A → D → Prop) k d Q :
  runs p d (λ r d', ∃ a, r = Ok a ∧ Q' a d') → (∀ a d', Q' a d' → runs (k a) d' Q) → runs (p ≫= k) d Q.
Proof.
  intros Hp Hk h. rewrite drive_bind. specialize (Hp h). destruct (drive p d h) as [[r d'] h'].
  destruct Hp as (a & -> & Ha). by apply Hk.
Qed.
Lemma runs_then_attempt (p : P E A) (Q' : result A → D → Prop) (k : result A → P E B) d Q :
  runs p d (λ r d', caught r = Ok r ∧ Q' r d') → (∀ r d', Q' r d' → runs (k r) d' Q) →
  runs (attempt p ≫= k) d Q.
Proof.
  intros Hp Hk h. rewrite drive_attempt. specialize (Hp h). destruct (drive p d h) as [[r d'] h'].
  destruct Hp as [-> Hr]. by apply Hk.
Qed.
End Runs.

Context {St : Type}.
Variables (init : St → Prop) (entry : prog E unit → Prop)
  (handles : ∀ X, St → E X → X → St → Prop) (env : St → St → Prop) (view : D → St).
Hypothesis handle_sound : ∀ X (e : E X) d, handles X (view d) e (handle X e d).1 (view (handle X e d).2).

(** Running a program alone is one of its concurrent executions. *)
Lemma drive_execution (p : prog E unit) d h ts :
  execution init entry handles env h (view d) (p :: ts) →
  let '(_, d', h') := drive p d h in ∃ a, execution init entry handles env h' (view d') (Ret a :: ts).
Proof.
  revert d h. induction p as [a|X e k IH]; intros d h He; cbn; [by exists a|].
  pose proof (handle_sound X e d) as Hs. destruct (handle X e d) as [x d']. cbn in Hs.
  apply IH. exact (exec_event _ _ _ _ _ _ _ [] ts _ _ _ _ Hs He).
Qed.

(** Programs one after the other, from the state [d]: the state and the history reached. *)
Definition drive_all d (ps : list (prog E unit)) : D * history :=
  foldl (λ dh p, let '(_, d', h') := drive p dh.1 dh.2 in (d', h')) (d, []) ps.

Lemma drive_all_execution d ps :
  init (view d) → Forall entry ps →
  ∃ ts, execution init entry handles env (drive_all d ps).2 (view (drive_all d ps).1) ts.
Proof.
  intros Hinit Hps. unfold drive_all.
  assert (∃ ts, execution init entry handles env [] (view d) ts) as Hex by (exists []; by apply exec_init).
  revert Hex. generalize (@nil occurrence) as h. clear Hinit. revert d.
  induction Hps as [|p ps Hp _ IH]; intros d h [ts Hts]; [by exists ts|]. cbn [foldl fst snd].
  assert (execution init entry handles env h (view d) (p :: ts)) as Hp' by by apply exec_start.
  pose proof (drive_execution p d h ts Hp') as Hd. destruct (drive p d h) as [[[] d'] h']. apply IH.
  destruct Hd as [[] Hd]. by exists (Ret tt :: ts).
Qed.

End Driver.
End Histories.
Arguments occurrence E : clear implicits.
Arguments history E : clear implicits.

(** * Executing programs under [safe] *)

(** Suffix goals: every history on the way extends the one before. *)
Ltac later :=
  repeat match goal with
  | |- suffix ?h ?h => reflexivity
  | |- suffix _ (_ :: _) => apply suffix_cons_r
  | H : suffix ?h1 ?h2 |- suffix ?h ?h2 => first [exact H | transitivity h1; [clear H | exact H]]
  end.

(** What happened stays: the membership in an earlier history. *)
Lemma in_later {A} (x : A) l l' : suffix l l' → x ∈ l → x ∈ l'.
Proof. intros [p ->] Hx. apply elem_of_app. by right. Qed.
Ltac happened :=
  match goal with
  | |- ?o ∈ ?o :: _ => by apply elem_of_cons; left
  | H : suffix (?o :: ?h) ?h' |- ?o ∈ ?h' => eapply in_later; [exact H | by apply elem_of_cons; left]
  | _ => eapply in_later; [|eassumption]; later
  | _ => eapply in_later; [|by apply elem_of_cons; left]; later
  end.

(** The statements that perform no event. *)
Ltac safe_pure_step :=
  cbv beta;
  lazymatch goal with
  | |- safe _ _ _ (mbind _ (mbind _ _)) _ => apply safe_then_bind
  | |- safe _ _ _ (mbind _ (raise_if _ _)) _ => apply safe_then_raise_if; intros ?
  | |- safe _ _ _ (mbind _ (mret _)) _ => apply safe_then_ret
  | |- safe _ _ _ (mbind _ (pure_result _)) _ => apply safe_then_pure; intros ??
  | |- safe _ _ _ (mbind _ (raise _)) _ => apply safe_then_raise
  | |- safe _ _ _ (raise _) _ => apply safe_raise
  | |- safe _ _ _ (mbind _ (match ?x with _ => _ end)) _ => destruct x eqn:?
  | |- safe _ _ _ (match ?x with _ => _ end) _ => destruct x eqn:?
  end.

(** * How many events a program performs *)

Section Bounds.
Context {E : Type → Type}.

(** At most [n] events on every path. *)
Fixpoint at_most {A} (n : nat) (p : prog E A) {struct p} : Prop :=
  match p with
  | Ret _ => True
  | Vis e k => match n with O => False | S n' => ∀ x, at_most n' (k x) end
  end.

Lemma at_most_more {A} n n' (p : prog E A) : (n ≤ n')%nat → at_most n p → at_most n' p.
Proof.
  revert n n'. induction p as [a|X e k IH]; intros n n' Hn; cbn; [intros _; exact I|].
  destruct n as [|n]; [done|]. destruct n' as [|n']; [lia|]. intros Hk x. eapply IH; [|apply Hk]; lia.
Qed.

Lemma at_most_bind {A B} n n' (p : prog E A) (k : A → prog E B) :
  at_most n p → (∀ a, at_most n' (k a)) → at_most (n + n') (prog_bind k p).
Proof.
  revert n. induction p as [a|X e h IH]; intros n; cbn; [intros _ Hk; eapply at_most_more; [|apply Hk]; lia|].
  destruct n as [|n]; [done|]. intros Hh Hk x. cbn. by apply IH.
Qed.

Lemma at_most_then {A B} n n' (p : P E A) (k : A → P E B) :
  at_most n p → (∀ a, at_most n' (k a)) → at_most (n + n') (p ≫= k).
Proof. intros Hp Hk. apply at_most_bind; [exact Hp|]. intros [a|e]; [apply Hk | exact I]. Qed.

Lemma at_most_raise_if {B} n cond e (k : unit → P E B) :
  (cond = false → at_most n (k tt)) → at_most n (raise_if cond e ≫= k).
Proof. intros Hk. destruct cond; cbn; auto. Qed.

Lemma at_most_pure {A B} n (r : result A) (k : A → P E B) :
  (∀ a, r = Ok a → at_most n (k a)) → at_most n (pure_result r ≫= k).
Proof. intros Hk. destruct r; cbn; auto. Qed.

Lemma at_most_call {A} (e : E (result A)) : at_most 1 (call e).
Proof. done. Qed.

Lemma at_most_attempt {A} n (p : P E A) : at_most n p → at_most n (attempt p).
Proof.
  intros Hp. rewrite (plus_n_O n). apply at_most_bind; [exact Hp|]. intros a. exact I.
Qed.

(** A number of events along every path of a driven program bounds its history. *)
Lemma at_most_drive {D A} (handle : ∀ X, E X → D → X * D) n (p : prog E A) d h :
  at_most n p → let '(_, _, h') := drive handle p d h in (length h' ≤ n + length h)%nat.
Proof.
  revert n d h. induction p as [a|X e k IH]; intros n d h; cbn; [lia|]. destruct n as [|n]; [done|].
  intros Hk. destruct (handle X e d) as [x d'].
  specialize (IH x n d' (Occ X e x :: h) (Hk x)). destruct (drive handle (k x) d' _) as [[a d''] h'].
  cbn in IH. lia.
Qed.
End Bounds.
