(* ===== verification/Principal.v ===== *)
(** Principals, their roles and scopes, [services/api/internal/auth/principal.go]: who a request comes
    from, what its token lets it do, and to which clusters and namespaces. *)
From S2P Require Import Prelude GoLib.

Local Open Scope Z_scope.

(** [Role] is a string type with four constants; roles come out of tokens as strings. *)
Abbreviation Role := string (only parsing).
Definition RoleViewer : Role := "viewer".
Definition RoleOperator : Role := "operator".
Definition RoleApprover : Role := "approver".
Definition RoleAdministrator : Role := "administrator".

Definition ErrUnauthenticated : GoError := Errorf "authentication required".
Definition ErrUnauthorized : GoError := Errorf "insufficient permissions".

Record Principal := mkPrincipal {
  principal_Subject : string;
  principal_DisplayName : string;
  principal_Roles : gset string;
  principal_Namespaces : gset string;
  principal_Clusters : gset string
}.
#[export] Instance eta_Principal : Eta Principal :=
  λ r, mkPrincipal (principal_Subject r) (principal_DisplayName r) (principal_Roles r) (principal_Namespaces r)
         (principal_Clusters r).
Definition zero_Principal : Principal := mkPrincipal "" "" ∅ ∅ ∅.

Definition Actor (p : Principal) : string :=
  if TrimSpace (principal_DisplayName p) != "" then
    TrimSpace (principal_DisplayName p) +:+ " (" +:+ principal_Subject p +:+ ")"
  else principal_Subject p.

Definition mem (x : string) (X : gset string) : bool := bool_decide (x ∈ X).

Definition HasRole (p : Principal) (required : Role) : bool :=
  if mem RoleAdministrator (principal_Roles p) then true
  else if required == RoleViewer then negb (bool_decide (principal_Roles p = ∅))
  else if required == RoleOperator then mem RoleOperator (principal_Roles p) || mem RoleApprover (principal_Roles p)
  else mem required (principal_Roles p).

Definition CanAccessCluster (p : Principal) (clusterID : string) : bool :=
  if HasRole p RoleAdministrator then true
  else if mem "*" (principal_Clusters p) then true
  else mem clusterID (principal_Clusters p).

Definition CanAccessNamespace (p : Principal) (clusterID namespace : string) : bool :=
  if CanAccessCluster p clusterID then true
  else if mem "*" (principal_Namespaces p) then true
  else mem namespace (principal_Namespaces p).

Definition StaticVerify (p : Principal) (rawToken : string) : result Principal :=
  if principal_Subject p == "" then Err ErrUnauthenticated else Ok p.

Definition DevelopmentPrincipal : Principal :=
  mkPrincipal "insecure-development-user" "Insecure development administrator" {[ RoleAdministrator ]} {[ "*" ]} {[ "*" ]}.

(** ** Facts *)

(** Roles are ordered: an administrator has every role, an approver those of an operator, and whoever
    has any role is a viewer. *)
Lemma HasRole_administrator p role : HasRole p RoleAdministrator = true → HasRole p role = true.
Proof. unfold HasRole. destruct (mem RoleAdministrator _); [done|]. done. Qed.

Lemma HasRole_approver p : HasRole p RoleApprover = true → HasRole p RoleOperator = true.
Proof.
  unfold HasRole. destruct (mem RoleAdministrator _); [done|]. cbn [RoleApprover]. intros Ha.
  change (mem RoleApprover (principal_Roles p) = true) in Ha. rewrite Ha. by apply orb_true_r.
Qed.

Lemma HasRole_viewer p role : HasRole p role = true → HasRole p RoleViewer = true.
Proof.
  assert (∀ x, mem x (principal_Roles p) = true → negb (bool_decide (principal_Roles p = ∅)) = true) as Hne.
  { intros x Hx%bool_decide_eq_true. apply negb_true_iff, bool_decide_eq_false. set_solver. }
  unfold HasRole. destruct (mem RoleAdministrator _); [done|]. cbn -[mem].
  destruct (role == RoleViewer); [done|]. destruct (role == RoleOperator); [|by apply Hne].
  intros [?|?]%orb_true_iff; by eapply Hne.
Qed.

Lemma CanAccessNamespace_cluster p clusterID namespace :
  CanAccessCluster p clusterID = true → CanAccessNamespace p clusterID namespace = true.
Proof. unfold CanAccessNamespace. by intros ->. Qed.
