(* ===== verification/GoUrl.v ===== *)
(** The part of [net/url] and [net/netip] the program uses: parsing a URL into its parts, percent-encoding,
    the host name and the text of a parsed URL. The texts of the errors are reduced to one. *)
From S2P Require Import Prelude GoLib Json.

Local Open Scope Z_scope.

Definition url_error : GoError := Errorf "invalid URL".

Record URL := mkURL {
  url_Scheme : string;
  url_Opaque : string;
  url_User : option (string * option string);
  url_Host : string;
  url_Path : string;
  url_RawPath : string;
  url_OmitHost : bool;
  url_ForceQuery : bool;
  url_RawQuery : string;
  url_Fragment : string;
  url_RawFragment : string
}.
#[export] Instance eta_URL : Eta URL := λ r, mkURL (url_Scheme r) (url_Opaque r) (url_User r) (url_Host r) (url_Path r)
  (url_RawPath r) (url_OmitHost r) (url_ForceQuery r) (url_RawQuery r) (url_Fragment r) (url_RawFragment r).
Definition zero_URL : URL := mkURL "" "" None "" "" "" false false "" "" "".

(** * Cutting *)

Definition is_code (n : Z) (c : Ascii.ascii) : bool := byte_code c =? n.
Definition one_of_bytes (s : string) (c : Ascii.ascii) : bool := in_cutset s c.
Definition alphanumeric (c : Ascii.ascii) : bool :=
  let n := byte_code c in
  ((97 <=? n) && (n <=? 122)) || ((65 <=? n) && (n <=? 90)) || ((48 <=? n) && (n <=? 57)).

(** [strings.Cut] at the first byte that satisfies [p], and at the last. *)
Fixpoint cut_first (p : Ascii.ascii → bool) (s : string) : option (string * string) :=
  match s with
  | EmptyString => None
  | String c rest => if p c then Some ("", rest) else prod_map (String c) id <$> cut_first p rest
  end.
Fixpoint cut_last (p : Ascii.ascii → bool) (s : string) : option (string * string) :=
  match s with
  | EmptyString => None
  | String c rest =>
      match cut_last p rest with
      | Some (before, after) => Some (String c before, after)
      | None => if p c then Some ("", rest) else None
      end
  end.
Definition Cut (p : Ascii.ascii → bool) (s : string) : string * string := default (s, "") (cut_first p s).
Definition has_byte (p : Ascii.ascii → bool) (s : string) : bool := existsb p (String.list_ascii_of_string s).

(** * Percent-encoding *)

Inductive encoding := encodePath | encodeHost | encodeZone | encodeUserPassword | encodeFragment.
Definition host_mode (mode : encoding) : bool := match mode with encodeHost | encodeZone => true | _ => false end.

Definition shouldEscape (c : Ascii.ascii) (mode : encoding) : bool :=
  if alphanumeric c then false
  else if host_mode mode && (one_of_bytes "!$&'()*+,;=:[]<>" c || is_code 34 c) then false
  else if one_of_bytes "-_.~" c then false
  else
    let reserved := one_of_bytes "$&+,/:;=?@" c in
    match mode with
    | encodePath => if reserved then is_code 63 c else true
    | encodeUserPassword => if reserved then one_of_bytes "@/?:" c else true
    | encodeFragment => negb (reserved || one_of_bytes "!()*" c)
    | encodeHost | encodeZone => true
    end.

(** [unescape]: the bytes, or nothing for a bad escape. *)
Fixpoint unescape (mode : encoding) (s : string) : option string :=
  match s with
  | EmptyString => Some EmptyString
  | String c rest =>
      if is_code 37 c then
        match rest with
        | String a (String b rest') =>
            high ← hex_value a;
            low ← hex_value b;
            let v := byte_of_code (high * 16 + low) in
            let percent := (high =? 2) && (low =? 5) in
            if (match mode with
                | encodeHost => (high <? 8) && negb percent
                | encodeZone => negb percent && negb (is_code 32 v) && shouldEscape v encodeHost
                | _ => false
                end)
            then None
            else String v <$> unescape mode rest'
        | _ => None
        end
      else if host_mode mode && (byte_code c <? 128) && shouldEscape c mode then None
      else String c <$> unescape mode rest
  end.

Definition hex_upper (n : Z) : string :=
  String (byte_of_code (if n <? 10 then 48 + n else 55 + n)) "".
Fixpoint escape (mode : encoding) (s : string) : string :=
  match s with
  | EmptyString => EmptyString
  | String c rest =>
      (if shouldEscape c mode then "%" +:+ hex_upper (byte_code c / 16) +:+ hex_upper (byte_code c `mod` 16) else String c "")
      +:+ escape mode rest
  end.

Definition validEncoded (s : string) (mode : encoding) : bool :=
  forallb (λ c, one_of_bytes "!$&'()*+,;=:@[]%" c || negb (shouldEscape c mode)) (String.list_ascii_of_string s).

(** * IP addresses *)

(** [netip.ParseAddr] of a text in brackets: whether it is an IPv6 address. The four fields of an embedded IPv4
    address are decimal numbers up to 255 without leading zeros. *)
Definition ipv4_field (s : string) : bool :=
  (s != "") && forallb is_digit (String.list_ascii_of_string s) && (len s <=? 3) && (digits_value s <=? 255) &&
  negb (HasPrefix s "0" && (1 <? len s)).
Definition valid_ipv4 (s : string) : bool :=
  let fields := split_on (byte_of_code 46) s in (length fields =? 4)%nat && forallb ipv4_field fields.

Definition is_hex (c : Ascii.ascii) : bool := match hex_value c with Some _ => true | None => false end.
Fixpoint hex_run (s : string) : string * string :=
  match s with
  | String c rest => if is_hex c then prod_map (String c) id (hex_run rest) else ("", s)
  | EmptyString => ("", "")
  end.

(** [parsed] bytes of the address were read; at most eight groups, which is the fuel. *)
Fixpoint ipv6_groups (groups : nat) (parsed : Z) (ellipsis : bool) (s : string) : bool :=
  let stop (parsed : Z) (s : string) := (s == "") && (if parsed <? 16 then ellipsis else negb ellipsis) in
  match groups with
  | O => stop parsed s
  | S groups' =>
      let '(digits, rest) := hex_run s in
      if (len digits =? 0) || (4 <? len digits) then false
      else if HasPrefix rest "." then
        (ellipsis || (parsed =? 12)) && (parsed + 4 <=? 16) && valid_ipv4 s &&
        (if parsed + 4 <? 16 then ellipsis else negb ellipsis)
      else
        let parsed := parsed + 2 in
        if rest == "" then stop parsed rest
        else
          match take_byte 58 rest with
          | None => false
          | Some rest =>
              if rest == "" then false
              else match take_byte 58 rest with
                   | Some rest' =>
                       if ellipsis then false
                       else if rest' == "" then parsed <? 16
                       else ipv6_groups groups' parsed true rest'
                   | None => ipv6_groups groups' parsed ellipsis rest
                   end
          end
  end.

Definition valid_ipv6 (s : string) : bool :=
  match cut_first (is_code 37) s with
  | Some (_, "") => false
  | cut =>
      let s := match cut with Some (before, _) => before | None => s end in
      if HasPrefix s "::" then (s == "::") || ipv6_groups 8 0 true (string_drop 2 s)
      else ipv6_groups 8 0 false s
  end.
(** The first dot, colon or percent sign decides what the text is read as. *)
Definition ip_literal (s : string) : bool :=
  match cut_first (one_of_bytes ".:%") s with
  | Some (before, _) => HasPrefix (string_drop (String.length before) s) ":" && valid_ipv6 s
  | None => false
  end.

(** * Parsing *)

Fixpoint scheme_end (i : nat) (s : string) : option (option nat) :=
  match s with
  | EmptyString => Some None
  | String c rest =>
      let n := byte_code c in
      if ((97 <=? n) && (n <=? 122)) || ((65 <=? n) && (n <=? 90)) then scheme_end (S i) rest
      else if is_digit c || one_of_bytes "+-." c then match i with O => Some None | S _ => scheme_end (S i) rest end
      else if is_code 58 c then match i with O => None | S _ => Some (Some i) end
      else Some None
  end.
(** The scheme and what follows it; nothing when it is missing. *)
Definition getScheme (rawURL : string) : option (string * string) :=
  match scheme_end 0 rawURL with
  | None => None
  | Some None => Some ("", rawURL)
  | Some (Some i) => Some (string_take i rawURL, string_drop (S i) rawURL)
  end.

Definition validUserinfo (s : string) : bool :=
  forallb (λ c, alphanumeric c || one_of_bytes "-._:~!$&'()*+,;=%@" c) (String.list_ascii_of_string s).

Definition validOptionalPort (port : string) : bool :=
  match port with
  | EmptyString => true
  | String c digits => is_code 58 c && forallb is_digit (String.list_ascii_of_string digits)
  end.

(** The text from the first occurrence of [%25] on. *)
Fixpoint zone_index (s : string) : option (string * string) :=
  match s with
  | EmptyString => None
  | String c rest => if HasPrefix s "%25" then Some ("", s) else prod_map (String c) id <$> zone_index rest
  end.

Definition parseHost (host : string) : option string :=
  match cut_last (is_code 91) host with
  | Some (_, inside) =>
      '(_, colonPort) ← cut_last (is_code 93) host;
      guard (validOptionalPort colonPort = true);;
      port ← unescape encodeHost colonPort;
      '(hostname, _) ← cut_last (is_code 93) inside;
      name ← match zone_index hostname with
             | Some (before, zone) =>
                 hostPart ← unescape encodeHost before; zonePart ← unescape encodeZone zone; Some (hostPart +:+ zonePart)
             | None => unescape encodeHost hostname
             end;
      guard (ip_literal name = true);;
      Some ("[" +:+ name +:+ "]" +:+ port)
  | None =>
      match cut_last (is_code 58) host with
      | Some (_, port) => guard (validOptionalPort (":" +:+ port) = true);; unescape encodeHost host
      | None => unescape encodeHost host
      end
  end.

Definition parseAuthority (authority : string) : option (option (string * option string) * string) :=
  match cut_last (is_code 64) authority with
  | None => host ← parseHost authority; Some (None, host)
  | Some (userinfo, rest) =>
      host ← parseHost rest;
      guard (validUserinfo userinfo = true);;
      match cut_first (is_code 58) userinfo with
      | None => username ← unescape encodeUserPassword userinfo; Some (Some (username, None), host)
      | Some (username, password) =>
          username ← unescape encodeUserPassword username;
          password ← unescape encodeUserPassword password;
          Some (Some (username, Some password), host)
      end
  end.

(** Sets the path, or the fragment, and its raw form where that is not the default encoding. *)
Definition decoded (mode : encoding) (p : string) : option (string * string) :=
  path ← unescape mode p;
  Some (path, if p == escape mode path then "" else p).

Definition control_byte (c : Ascii.ascii) : bool := (byte_code c <? 32) || (byte_code c =? 127).

Definition set_path (u : URL) (rest : string) : option URL :=
  '(path, raw) ← decoded encodePath rest; Some (u <| url_Path := path |> <| url_RawPath := raw |>).

Definition parse_hierarchy (u : URL) (rest : string) : option URL :=
  if ((url_Scheme u != "") || negb (HasPrefix rest "///")) && HasPrefix rest "//" then
    let authority := string_drop 2 rest in
    let '(authority, rest) := match cut_first (is_code 47) authority with
                              | Some (before, after) => (before, "/" +:+ after)
                              | None => (authority, "")
                              end in
    '(user, host) ← parseAuthority authority;
    set_path (u <| url_User := user |> <| url_Host := host |>) rest
  else set_path (if (url_Scheme u != "") && HasPrefix rest "/" then u <| url_OmitHost := true |> else u) rest.

Definition parse_without_fragment (rawURL : string) : option URL :=
  if has_byte control_byte rawURL then None
  else if rawURL == "*" then Some (zero_URL <| url_Path := "*" |>)
  else
    '(scheme, rest) ← getScheme rawURL;
    let u := zero_URL <| url_Scheme := ToLower scheme |> in
    let '(u, rest) := match cut_first (is_code 63) rest with
                      | Some (before, "") => (u <| url_ForceQuery := true |>, before)
                      | Some (before, query) => (u <| url_RawQuery := query |>, before)
                      | None => (u, rest)
                      end in
    if negb (HasPrefix rest "/") then
      if url_Scheme u != "" then Some (u <| url_Opaque := rest |>)
      else if has_byte (is_code 58) (Cut (is_code 47) rest).1 then None
      else parse_hierarchy u rest
    else parse_hierarchy u rest.

(** [url.Parse] *)
Definition ParseURL (rawURL : string) : result URL :=
  let '(u, fragment) := Cut (is_code 35) rawURL in
  match (url ← parse_without_fragment u;
         if fragment == "" then Some url
         else '(f, raw) ← decoded encodeFragment fragment; Some (url <| url_Fragment := f |> <| url_RawFragment := raw |>))
  with
  | Some url => Ok url
  | None => Err url_error
  end.

(** * The parts of a URL *)

Definition IsAbs (u : URL) : bool := url_Scheme u != "".

(** [URL.Hostname]: without the port and the brackets. *)
Definition Hostname (u : URL) : string :=
  let host := match cut_last (is_code 58) (url_Host u) with
              | Some (before, port) => if validOptionalPort (":" +:+ port) then before else url_Host u
              | None => url_Host u
              end in
  if HasPrefix host "[" && HasSuffix host "]" then string_take (String.length host - 2) (string_drop 1 host) else host.

Definition encoded_part (mode : encoding) (raw value : string) : string :=
  if (raw != "") && validEncoded raw mode && bool_decide (unescape mode raw = Some value) then raw else escape mode value.
Definition EscapedPath (u : URL) : string :=
  if (url_RawPath u != "") && validEncoded (url_RawPath u) encodePath &&
     bool_decide (unescape encodePath (url_RawPath u) = Some (url_Path u)) then url_RawPath u
  else if url_Path u == "*" then "*" else escape encodePath (url_Path u).
Definition EscapedFragment (u : URL) : string := encoded_part encodeFragment (url_RawFragment u) (url_Fragment u).

Definition userinfo_text (user : string * option string) : string :=
  escape encodeUserPassword user.1 +:+
  match user.2 with Some password => ":" +:+ escape encodeUserPassword password | None => "" end.

(** [URL.String] *)
Definition authority_text (u : URL) : string :=
  let no_user := match url_User u with None => true | Some _ => false end in
  if (url_Scheme u == "") && (url_Host u == "") && no_user then ""
  else if url_OmitHost u && (url_Host u == "") && no_user then ""
  else
    (if (url_Host u != "") || (url_Path u != "") || negb no_user then "//" else "") +:+
    match url_User u with Some user => userinfo_text user +:+ "@" | None => "" end +:+
    escape encodeHost (url_Host u).
Definition URLString (u : URL) : string :=
  let scheme := if url_Scheme u == "" then "" else url_Scheme u +:+ ":" in
  scheme +:+
  (if url_Opaque u != "" then url_Opaque u
   else
     let path := EscapedPath u in
     let start := authority_text u +:+ (if (path != "") && negb (HasPrefix path "/") && (url_Host u != "") then "/" else "") in
     let dot := (scheme +:+ start == "") && has_byte (is_code 58) (Cut (is_code 47) path).1 in
     start +:+ (if dot then "./" else "") +:+ path) +:+
  (if url_ForceQuery u || (url_RawQuery u != "") then "?" +:+ url_RawQuery u else "") +:+
  (if url_Fragment u == "" then "" else "#" +:+ EscapedFragment u).

Definition url_view (s : string) : option (string * option (string * option string) * string * string) :=
  match ParseURL s with Ok u => Some (url_Scheme u, url_User u, url_Host u, URLString u) | Err _ => None end.

Example parse_ex : map url_view
    ["https://api.example.com:8443/v1/chat?x=1"; "HTTP://ann:s%40cret@[::1]:80/a%2Fb#top"; "mailto:ann@example.com";
     "//host/path"; "a b"; "https://bad host/"; "x:y/z"; ":nope"; "https://[::1"; "https://h:port/"; "1:2"; "x:/y"] =
  [Some ("https", None, "api.example.com:8443", "https://api.example.com:8443/v1/chat?x=1");
   Some ("http", Some ("ann", Some "s@cret"), "[::1]:80", "http://ann:s%40cret@[::1]:80/a%2Fb#top");
   Some ("mailto", None, "", "mailto:ann@example.com");
   Some ("", None, "host", "//host/path");
   Some ("", None, "", "a%20b"); None; Some ("x", None, "", "x:y/z"); None; None; None; None;
   Some ("x", None, "", "x:/y")].
Proof. vm_compute. reflexivity. Qed.

Example hostname_ex : map (λ s, match ParseURL s with Ok u => Hostname u | Err _ => "" end)
    ["https://[fe80::1%25en0]:443/"; "http://localhost:80"; "https://example.com"] =
  ["fe80::1%en0"; "localhost"; "example.com"].
Proof. vm_compute. reflexivity. Qed.

Example ip_literal_ex : map ip_literal
    ["::"; "::1"; "2001:db8::8:800:200c:417a"; "1:2:3:4:5:6:7:8"; "::ffff:10.0.0.1"; "fe80::1%eth0";
     "1:2:3"; "1::2::3"; "12345::"; "1.2.3.4"; "::1%"; "1:2:3:4:5:6:7::"; "1:2:3:4:5:6:7:8::"; "g::"] =
  [true; true; true; true; true; true; false; false; false; false; false; true; false; false].
Proof. vm_compute. reflexivity. Qed.
