(* ===== verification/Oidc.v ===== *)
(** Verification of OpenID Connect tokens, [services/api/internal/auth/oidc.go]: the cache of the issuer's
    signing keys, the signature and the claims of a token, and the principal derived from them.

    The properties: whoever is accepted presented a token signed with a key the issuer published, addressed to this
    client and in force, and has exactly the roles and scopes its claims list.

    [Verify], [refreshKeys] and [NewOIDCVerifier] are programs over events: the clock, the keys the verifier keeps behind its
    lock, HTTP requests. Checking an RSA or ECDSA signature is the library's and a field of a class. *)
From Stdlib Require Import SpecFloat.
From S2P Require Import Prelude GoLib GoDuration Sha256 Json Base64 Interaction Principal GoUrl.

Local Open Scope Z_scope.

(** * Strings *)

Definition TrimRight (s cutset : string) : string := trim_right (in_cutset cutset) s.
Definition dot : Ascii.ascii := byte_of_code 46.
Definition colon : Ascii.ascii := byte_of_code 58.

(** The bytes of a digest as a string. *)
Definition string_of_bytes (bs : list Z) : string := String.string_of_list_ascii (map byte_of_code bs).

(** The big-endian number of [new(big.Int).SetBytes]. *)
Definition SetBytes (s : string) : Z := word_of_bytes (bytes_of s).

(** * Keys *)

Inductive PublicKey := RSAKey (modulus exponent : Z) | ECKey (x y : Z).

(** The checks of [crypto/rsa.VerifyPKCS1v15] with SHA-256 and of [crypto/ecdsa.Verify] on P-256. *)
Class SignatureLibrary := {
  rsa_Verify : Z → Z → string → string → bool;
  ecdsa_Verify : Z → Z → string → Z → Z → bool
}.

Definition p256 : Z := 2 ^ 256 - 2 ^ 224 + 2 ^ 192 + 2 ^ 96 - 1.
Definition p256_b : Z := 0x5ac635d8aa3a93e7b3ebbd55769886bc651d06b0cc53b0f63bce3c3e27d2604b.
Definition IsOnCurve (x y : Z) : bool :=
  (0 <=? x) && (x <? p256) && (0 <=? y) && (y <? p256) && (y * y mod p256 =? (x * x * x - 3 * x + p256_b) mod p256).

Example p256_base_point : IsOnCurve
  0x6b17d1f2e12c4247f8bce6e563a440f277037d812deb33a0f4a13945d898c296
  0x4fe342e2fe1a7f9b8ee7eb4a7c0f9e162bce33576b315ececbb6406837bf51f5 = true.
Proof. vm_compute. reflexivity. Qed.

Record jsonWebKey := mkJsonWebKey {
  jwk_KeyID : string; jwk_Use : string; jwk_Type : string; jwk_N : string; jwk_E : string;
  jwk_Curve : string; jwk_X : string; jwk_Y : string
}.
#[export] Instance eta_jsonWebKey : Eta jsonWebKey :=
  λ r, mkJsonWebKey (jwk_KeyID r) (jwk_Use r) (jwk_Type r) (jwk_N r) (jwk_E r) (jwk_Curve r) (jwk_X r) (jwk_Y r).

(** The member [v] named [name] of a key, as [encoding/json] assigns it. *)
Definition set_jwk (name : string) (v : json) (key : jsonWebKey) : result jsonWebKey :=
  if EqualFold name "kid" then s ← decode_string (jwk_KeyID key) v; Ok (key <| jwk_KeyID := s |>)
  else if EqualFold name "use" then s ← decode_string (jwk_Use key) v; Ok (key <| jwk_Use := s |>)
  else if EqualFold name "kty" then s ← decode_string (jwk_Type key) v; Ok (key <| jwk_Type := s |>)
  else if EqualFold name "n" then s ← decode_string (jwk_N key) v; Ok (key <| jwk_N := s |>)
  else if EqualFold name "e" then s ← decode_string (jwk_E key) v; Ok (key <| jwk_E := s |>)
  else if EqualFold name "crv" then s ← decode_string (jwk_Curve key) v; Ok (key <| jwk_Curve := s |>)
  else if EqualFold name "x" then s ← decode_string (jwk_X key) v; Ok (key <| jwk_X := s |>)
  else if EqualFold name "y" then s ← decode_string (jwk_Y key) v; Ok (key <| jwk_Y := s |>)
  else Ok key.

Definition set_jwks (name : string) (v : json) (keys : list jsonWebKey) : result (list jsonWebKey) :=
  if EqualFold name "keys" then
    match v with
    | JNull => Ok []
    | JArray items => decode_all (decode_struct set_jwk (mkJsonWebKey "" "" "" "" "" "" "" "")) items
    | _ => Err json_error
    end
  else Ok keys.

(** [decoder.Decode]: the first value of the text. *)
Definition decode_first (text : string) : result json :=
  match scan_value (parse_fuel text) 0 text with Some (v, _) => Ok v | None => Err json_error end.

Definition publicKey (key : jsonWebKey) : result PublicKey :=
  if jwk_Type key == "RSA" then
    match DecodeString (jwk_N key) with
    | Some nBytes =>
        if len nBytes <? 256 then Err (Errorf "invalid RSA modulus")
        else match DecodeString (jwk_E key) with
             | Some eBytes =>
                 if (len eBytes =? 0) || (4 <? len eBytes) then Err (Errorf "invalid RSA exponent")
                 else if SetBytes eBytes <? 3 then Err (Errorf "invalid RSA exponent")
                 else Ok (RSAKey (SetBytes nBytes) (SetBytes eBytes))
             | None => Err (Errorf "invalid RSA exponent")
             end
    | None => Err (Errorf "invalid RSA modulus")
    end
  else if jwk_Type key == "EC" then
    if jwk_Curve key != "P-256" then Err (Errorf "unsupported EC curve")
    else match DecodeString (jwk_X key), DecodeString (jwk_Y key) with
         | Some xBytes, Some yBytes =>
             if IsOnCurve (SetBytes xBytes) (SetBytes yBytes) then Ok (ECKey (SetBytes xBytes) (SetBytes yBytes))
             else Err (Errorf "EC key is not on curve")
         | _, _ => Err (Errorf "invalid EC coordinate")
         end
  else Err (Errorf "unsupported key type").

(** The loop of [refreshKeys] over the published keys: later keys replace earlier ones of the same id. *)
Definition usable_keys (published : list jsonWebKey) : gmap string PublicKey :=
  foldl (λ keys item,
    if (jwk_KeyID item == "") || ((jwk_Use item != "") && (jwk_Use item != "sig")) then keys
    else match publicKey item with Ok key => <[jwk_KeyID item := key]> keys | Err _ => keys end) ∅ published.

Section Signatures.
Context `{SignatureLibrary}.

Definition verifySignature (algorithm : string) (key : PublicKey) (digest signature : string) : bool :=
  if algorithm == "RS256" then
    match key with RSAKey n e => rsa_Verify n e digest signature | ECKey _ _ => false end
  else if algorithm == "ES256" then
    match key with
    | ECKey x y =>
        if negb (len signature =? 64) then false
        else ecdsa_Verify x y digest (SetBytes (string_take 32 signature)) (SetBytes (string_drop 32 signature))
    | RSAKey _ _ => false
    end
  else false.
End Signatures.

(** * Headers and claims *)

Record jwtHeader := mkJwtHeader { header_Algorithm : string; header_KeyID : string; header_Type : string }.
#[export] Instance eta_jwtHeader : Eta jwtHeader :=
  λ r, mkJwtHeader (header_Algorithm r) (header_KeyID r) (header_Type r).

Definition set_header (name : string) (v : json) (h : jwtHeader) : result jwtHeader :=
  if EqualFold name "alg" then s ← decode_string (header_Algorithm h) v; Ok (h <| header_Algorithm := s |>)
  else if EqualFold name "kid" then s ← decode_string (header_KeyID h) v; Ok (h <| header_KeyID := s |>)
  else if EqualFold name "typ" then s ← decode_string (header_Type h) v; Ok (h <| header_Type := s |>)
  else Ok h.

(** A claim of type [any] is its JSON value, [JNull] when absent; a raw claim is absent or a value. *)
Record tokenClaims := mkTokenClaims {
  claim_Issuer : string; claim_Subject : string; claim_Audience : option json;
  claim_ExpiresAt : string; claim_NotBefore : string; claim_IssuedAt : string;
  claim_Name : string; claim_PreferredUsername : string;
  claim_Roles : json; claim_Groups : json; claim_KubeAthrixRoles : json;
  claim_KubeAthrixNamespaces : json; claim_KubeAthrixClusters : json;
  claim_Scope : string; claim_RealmRoles : json
}.
#[export] Instance eta_tokenClaims : Eta tokenClaims :=
  λ r, mkTokenClaims (claim_Issuer r) (claim_Subject r) (claim_Audience r) (claim_ExpiresAt r) (claim_NotBefore r)
         (claim_IssuedAt r) (claim_Name r) (claim_PreferredUsername r) (claim_Roles r) (claim_Groups r)
         (claim_KubeAthrixRoles r) (claim_KubeAthrixNamespaces r) (claim_KubeAthrixClusters r) (claim_Scope r)
         (claim_RealmRoles r).
Definition zero_tokenClaims : tokenClaims :=
  mkTokenClaims "" "" None "" "" "" "" "" JNull JNull JNull JNull JNull "" JNull.

(** A [json.Number]: a number, or a string that spells one. *)
Definition spells_number (s : string) : bool := match scan_number s with Some (_, rest) => rest == "" | None => false end.
Definition decode_number (old : string) (v : json) : result string :=
  match v with
  | JNumber literal => Ok literal
  | JString s => if spells_number s then Ok s else Err json_error
  | JNull => Ok old
  | _ => Err json_error
  end.

Definition set_realm (name : string) (v : json) (roles : json) : result json :=
  if EqualFold name "roles" then Ok v else Ok roles.

Definition set_claim (name : string) (v : json) (c : tokenClaims) : result tokenClaims :=
  if EqualFold name "iss" then s ← decode_string (claim_Issuer c) v; Ok (c <| claim_Issuer := s |>)
  else if EqualFold name "sub" then s ← decode_string (claim_Subject c) v; Ok (c <| claim_Subject := s |>)
  else if EqualFold name "aud" then Ok (c <| claim_Audience := Some v |>)
  else if EqualFold name "exp" then s ← decode_number (claim_ExpiresAt c) v; Ok (c <| claim_ExpiresAt := s |>)
  else if EqualFold name "nbf" then s ← decode_number (claim_NotBefore c) v; Ok (c <| claim_NotBefore := s |>)
  else if EqualFold name "iat" then s ← decode_number (claim_IssuedAt c) v; Ok (c <| claim_IssuedAt := s |>)
  else if EqualFold name "name" then s ← decode_string (claim_Name c) v; Ok (c <| claim_Name := s |>)
  else if EqualFold name "preferred_username" then
    s ← decode_string (claim_PreferredUsername c) v; Ok (c <| claim_PreferredUsername := s |>)
  else if EqualFold name "roles" then Ok (c <| claim_Roles := v |>)
  else if EqualFold name "groups" then Ok (c <| claim_Groups := v |>)
  else if EqualFold name "kubeathrix_roles" then Ok (c <| claim_KubeAthrixRoles := v |>)
  else if EqualFold name "kubeathrix_namespaces" then Ok (c <| claim_KubeAthrixNamespaces := v |>)
  else if EqualFold name "kubeathrix_clusters" then Ok (c <| claim_KubeAthrixClusters := v |>)
  else if EqualFold name "scope" then s ← decode_string (claim_Scope c) v; Ok (c <| claim_Scope := s |>)
  else if EqualFold name "realm_access" then
    roles ← decode_struct set_realm (claim_RealmRoles c) v; Ok (c <| claim_RealmRoles := roles |>)
  else Ok c.

(** [time.Unix(value, 0)]: the seconds since the year 1 are kept in 64 bits. *)
Definition unix_time (value : Z) : Time := wrap64 (value + unix_epoch_seconds) * Second.

Definition unixClaim (number : string) (required : bool) : result Time :=
  if number == "" then
    if required then Err (Errorf "required numeric date is missing") else Ok 0
  else match ParseInt number with
       | Some value => if value <=? 0 then Err (Errorf "invalid numeric date") else Ok (unix_time value)
       | None => Err (Errorf "invalid numeric date")
       end.

Definition stringListFromRaw (raw : option json) : result (list string) :=
  match raw with
  | None => Err (Errorf "value is missing")
  | Some v =>
      match decode_string "" v with
      | Ok single => Ok [single]
      | Err _ => match v with JArray items => decode_all (decode_string "") items | _ => Err json_error end
      end
  end.

Definition stringList (value : json) : list string :=
  match value with
  | JString typed =>
      if Contains typed " " then Fields typed
      else if typed != "" then [typed] else []
  | JArray items => omap (λ item, match item with JString text => if text != "" then Some text else None | _ => None end) items
  | _ => []
  end.

Definition toSet (values : list string) : gset string :=
  foldl (λ result value, let value := TrimSpace value in if value != "" then {[ value ]} ∪ result else result) ∅ values.

Definition contains (values : list string) (expected : string) : bool := existsb (λ value, value == expected) values.

(** [strings.SplitN(s, sep, 2)] with both parts present. *)
Fixpoint cut_at (sep : Ascii.ascii) (s : string) : option (string * string) :=
  match s with
  | EmptyString => None
  | String c rest => if Ascii.eqb c sep then Some ("", rest) else prod_map (String c) id <$> cut_at sep rest
  end.

Fixpoint cacheMaxAge_of (directives : list string) : Duration :=
  match directives with
  | [] => 0
  | directive :: rest =>
      match cut_at (byte_of_code 61) (TrimSpace directive) with
      | Some (name, value) =>
          if EqualFold name "max-age" then
            match Atoi (Trim value quote) with
            | Some seconds => if 0 <? seconds then wrap64 (seconds * Second) else cacheMaxAge_of rest
            | None => cacheMaxAge_of rest
            end
          else cacheMaxAge_of rest
      | None => cacheMaxAge_of rest
      end
  end.
Definition cacheMaxAge (cacheControl : string) : Duration :=
  cacheMaxAge_of (split_on (byte_of_code 44) cacheControl).

(** * The principal of a token *)

Definition normalized_role (value : string) : string :=
  TrimPrefix (TrimPrefix (ToLower value) "kubeathrix:") "kubeathrix-".
Definition known_role (role : string) : bool :=
  contains [RoleViewer; RoleOperator; RoleApprover; RoleAdministrator] role.

Definition grant_role (p : Principal) (value : string) : Principal :=
  let normalized := normalized_role value in
  if known_role normalized then p <| principal_Roles := {[ normalized ]} ∪ principal_Roles p |> else p.

Definition grant_scope (p : Principal) (value : string) : Principal :=
  if HasPrefix value "kubeathrix:namespace:" then
    p <| principal_Namespaces := {[ TrimPrefix value "kubeathrix:namespace:" ]} ∪ principal_Namespaces p |>
  else if HasPrefix value "kubeathrix:cluster:" then
    p <| principal_Clusters := {[ TrimPrefix value "kubeathrix:cluster:" ]} ∪ principal_Clusters p |>
  else p.

Definition principalFromClaims (claims : tokenClaims) : Principal :=
  let displayName := TrimSpace (claim_PreferredUsername claims) in
  let displayName := if displayName == "" then TrimSpace (claim_Name claims) else displayName in
  let principal := mkPrincipal (claim_Subject claims) displayName ∅
    (toSet (stringList (claim_KubeAthrixNamespaces claims))) (toSet (stringList (claim_KubeAthrixClusters claims))) in
  let roleValues := stringList (claim_Roles claims) ++ stringList (claim_Groups claims) ++
    stringList (claim_KubeAthrixRoles claims) ++ stringList (claim_RealmRoles claims) in
  foldl grant_scope (foldl grant_role principal roleValues) (Fields (claim_Scope claims)).

(** * The verifier *)

Inductive OidcE : Type → Type :=
| OidcNow : OidcE Time
| LoadKeys : OidcE (gmap string PublicKey * Time)
| StoreKeys (keys : gmap string PublicKey) (until : Time) : OidcE unit
(** a GET: the status, the [Cache-Control] header and the body of the response *)
| HttpGet (endpoint : string) : OidcE (result (Z * string * string))
(** the caller goes on with the principal it was answered: no effect, it marks the return *)
| Accepted (rawToken : string) (p : Principal) : OidcE unit.

Record OIDCVerifier := mkOIDCVerifier { verifier_issuer : string; verifier_clientID : string; verifier_jwksURL : string }.

Definition maxOIDCResponseBytes : nat := Z.to_nat (2 ^ 20).
Definition skew : Duration := 30 * Second.

Section Verifier.
Context `{SignatureLibrary}.
Variable v : OIDCVerifier.

Abbreviation op := (P OidcE).

Definition getJSON {A} (endpoint : string) (decode : json → result A) : op (A * Duration) :=
  '(status, cacheControl, body) ← call (HttpGet endpoint);
  raise_if (negb (status =? 200)) (Errorf ("unexpected HTTP status " +:+ Itoa status));;
  document ← pure_result (value ← decode_first (string_take maxOIDCResponseBytes body); decode value);
  mret (document, cacheMaxAge cacheControl).

Definition refreshKeys : op unit :=
  fetched ← attempt (getJSON (verifier_jwksURL v) (decode_struct set_jwks []));
  match fetched with
  | Err err => raise (Contextf "fetch OIDC signing keys" err)
  | Ok (document, maxAge) =>
      let keys := usable_keys document in
      raise_if (bool_decide (keys = ∅)) (Errorf "OIDC JWKS contains no supported signing keys");;
      let maxAge := if (maxAge <=? 0) || (Hour <? maxAge) then 15 * Minute else maxAge in
      now ← ask OidcNow;
      ask (StoreKeys keys (Add now maxAge))
  end.

Definition signing_key (keyID : string) : op PublicKey :=
  '(keys, until) ← ask LoadKeys;
  now ← ask OidcNow;
  match keys !! keyID, After now until with
  | Some key, false => mret key
  | _, _ =>
      refreshKeys;;
      '(keys, _) ← ask LoadKeys;
      match keys !! keyID with Some key => mret key | None => raise (Errorf "signing key not found") end
  end.

Definition or_unauthenticated {A} (o : option A) : op A :=
  match o with Some a => mret a | None => raise ErrUnauthenticated end.
Definition ok_or_unauthenticated {A} (r : result A) : op A :=
  match r with Ok a => mret a | Err _ => raise ErrUnauthenticated end.

Definition validateClaims (claims : tokenClaims) : op unit :=
  raise_if ((TrimRight (claim_Issuer claims) "/" != verifier_issuer v) || (claim_Subject claims == "")) ErrUnauthenticated;;
  audiences ← ok_or_unauthenticated (stringListFromRaw (claim_Audience claims));
  raise_if (negb (contains audiences (verifier_clientID v))) ErrUnauthenticated;;
  now ← ask OidcNow;
  expiresAt ← ok_or_unauthenticated (unixClaim (claim_ExpiresAt claims) true);
  raise_if (negb (After expiresAt (Add now (- skew)))) ErrUnauthenticated;;
  notBefore ← ok_or_unauthenticated (unixClaim (claim_NotBefore claims) false);
  raise_if (negb (IsZero notBefore) && After notBefore (Add now skew)) ErrUnauthenticated;;
  issuedAt ← ok_or_unauthenticated (unixClaim (claim_IssuedAt claims) false);
  raise_if (negb (IsZero issuedAt) && After issuedAt (Add now (5 * Minute))) ErrUnauthenticated.

Definition Verify (rawToken : string) : op Principal :=
  match split_on dot rawToken with
  | [part0; part1; part2] =>
      raise_if (64 * 1024 <? len rawToken) ErrUnauthenticated;;
      headerBytes ← or_unauthenticated (DecodeString part0);
      header ← ok_or_unauthenticated (value ← parse_json headerBytes; decode_struct set_header (mkJwtHeader "" "" "") value);
      raise_if (header_KeyID header == "") ErrUnauthenticated;;
      raise_if ((header_Algorithm header != "RS256") && (header_Algorithm header != "ES256")) ErrUnauthenticated;;
      found ← attempt (signing_key (header_KeyID header));
      key ← ok_or_unauthenticated found;
      signature ← or_unauthenticated (DecodeString part2);
      let digest := string_of_bytes (Sum256_bytes (bytes_of (part0 +:+ "." +:+ part1))) in
      raise_if (negb (verifySignature (header_Algorithm header) key digest signature)) ErrUnauthenticated;;
      claimBytes ← or_unauthenticated (DecodeString part1);
      claims ← ok_or_unauthenticated (value ← decode_first claimBytes; decode_struct set_claim zero_tokenClaims value);
      checked ← attempt (validateClaims claims);
      ok_or_unauthenticated checked;;
      let principal := principalFromClaims claims in
      raise_if ((principal_Subject principal == "") || bool_decide (principal_Roles principal = ∅)) ErrUnauthorized;;
      mret principal
  | _ => raise ErrUnauthenticated
  end.

(** A caller of [Verify]. *)
Definition authenticate (rawToken : string) : op unit := principal ← Verify rawToken; ask (Accepted rawToken principal).
End Verifier.

(** * Setting up a verifier *)

(** The groups of an IPv6 address that [valid_ipv6] accepts. *)
Definition hex_number (s : string) : Z :=
  foldl (λ n c, 16 * n + default 0 (hex_value c)) 0 (String.list_ascii_of_string s).
Definition address_field (field : string) : list Z :=
  if Contains field "." then
    match map digits_value (split_on dot field) with [a; b; c; d] => [256 * a + b; 256 * c + d] | _ => [] end
  else if field == "" then [] else [hex_number field].
Definition address_part (part : string) : list Z := flat_map address_field (split_on (byte_of_code 58) part).
Fixpoint cut_ellipsis (s : string) : option (string * string) :=
  match s with
  | String a (String b rest as tail) =>
      if is_code 58 a && is_code 58 b then Some ("", rest) else prod_map (String a) id <$> cut_ellipsis tail
  | _ => None
  end.
Definition ipv6_address (s : string) : list Z :=
  match cut_ellipsis s with
  | Some (before, after) =>
      let left := address_part before in
      let right := address_part after in
      left ++ replicate (8 - length left - length right)%nat 0 ++ right
  | None => address_part s
  end.
(** [net.ParseIP(host)], which takes no zones, and [IsLoopback]. *)
Definition loopback_address (host : string) : bool :=
  if ip_literal host then
    negb (Contains host "%") &&
    match ipv6_address host with
    | [0; 0; 0; 0; 0; 65535; high; _] => high / 256 =? 127
    | groups => bool_decide (groups = [0; 0; 0; 0; 0; 0; 0; 1])
    end
  else valid_ipv4 host && bool_decide (head (split_on dot host) = Some "127").

Definition validateEndpoint (rawURL : string) : result unit :=
  match ParseURL rawURL with
  | Ok parsed =>
      unless (negb ((url_Host parsed == "") || bool_decide (is_Some (url_User parsed)) || (url_Fragment parsed != "")))
        "absolute URL without credentials or fragment is required";;
      let host := Hostname parsed in
      unless ((url_Scheme parsed == "https") ||
              ((url_Scheme parsed == "http") && (EqualFold host "localhost" || loopback_address host)))
        "HTTPS is required for non-loopback endpoints"
  | Err _ => Err (Errorf "absolute URL without credentials or fragment is required")
  end.

(** The HTTP client and the clock are events. *)
Record OIDCConfig := mkOIDCConfig { config_IssuerURL : string; config_ClientID : string }.
Record discoveryDocument := mkDiscoveryDocument { document_Issuer : string; document_JWKSURL : string }.
Definition set_discovery (name : string) (v : json) (d : discoveryDocument) : result discoveryDocument :=
  if EqualFold name "issuer" then s ← decode_string (document_Issuer d) v; Ok (mkDiscoveryDocument s (document_JWKSURL d))
  else if EqualFold name "jwks_uri" then s ← decode_string (document_JWKSURL d) v; Ok (mkDiscoveryDocument (document_Issuer d) s)
  else Ok d.

Definition discovery_path : string := "/.well-known/openid-configuration".
Definition NewOIDCVerifier `{SignatureLibrary} (config : OIDCConfig) : P OidcE OIDCVerifier :=
  let issuer := TrimRight (TrimSpace (config_IssuerURL config)) "/" in
  raise_if ((issuer == "") || (TrimSpace (config_ClientID config) == ""))
    (Errorf "OIDC issuer URL and client ID are required");;
  pure_result (with_context "invalid OIDC issuer" (validateEndpoint issuer));;
  fetched ← attempt (getJSON (issuer +:+ discovery_path) (decode_struct set_discovery (mkDiscoveryDocument "" "")));
  match fetched with
  | Err err => raise (Contextf "fetch OIDC discovery" err)
  | Ok (document, _) =>
      raise_if (TrimRight (document_Issuer document) "/" != issuer) (Errorf "OIDC discovery issuer mismatch");;
      pure_result (with_context "invalid OIDC JWKS URI" (validateEndpoint (document_JWKSURL document)));;
      let verifier := mkOIDCVerifier issuer (config_ClientID config) (document_JWKSURL document) in
      refreshKeys verifier;;
      mret verifier
  end.

Example validateEndpoint_ex :
  map (λ url, match validateEndpoint url with Ok _ => true | Err _ => false end)
    ["https://id.example.com/realm"; "http://localhost:8080"; "http://127.3.2.1/"; "http://[::1]:80/x"; "http://[::ffff:127.0.0.1]/";
     "http://id.example.com"; "http://10.0.0.1"; "http://[::2]"; "https://u@id.example.com"; "https://id#f"; "id.example.com"; "http://128.0.0.1"]
  = [true; true; true; true; true; false; false; false; false; false; false; false].
Proof. vm_compute. reflexivity. Qed.

(** * Whoever is accepted presented a token of the issuer, for this client and in force *)

(** * Claims to principals *)

Lemma from_none {A} (P : Prop) (Q : A → Prop) : P ↔ P ∨ ∃ x, x ∈ [] ∧ Q x.
Proof. split; [by left|]. intros [HP|(x & Hx & _)]; [done | by apply elem_of_nil in Hx]. Qed.
Lemma from_cons {A} (P : Prop) (Q : A → Prop) y l :
  (P ∨ Q y) ∨ (∃ x, x ∈ l ∧ Q x) ↔ P ∨ ∃ x, x ∈ y :: l ∧ Q x.
Proof. setoid_rewrite elem_of_cons. split; [|intros [HP|(x & [->|Hx] & HQ)]; eauto 6]. intros [[HP|HQ]|(x & Hx & HQ)]; eauto 6. Qed.

Lemma contains_elem values x : contains values x = true ↔ x ∈ values.
Proof.
  unfold contains. rewrite existsb_exists. setoid_rewrite <- list_elem_of_In. setoid_rewrite String.eqb_eq.
  naive_solver.
Qed.

Definition role_claims (claims : tokenClaims) : list string :=
  stringList (claim_Roles claims) ++ stringList (claim_Groups claims) ++
  stringList (claim_KubeAthrixRoles claims) ++ stringList (claim_RealmRoles claims).

Lemma toSet_elem values x : x ∈ toSet values ↔ x ≠ "" ∧ ∃ value, value ∈ values ∧ TrimSpace value = x.
Proof.
  unfold toSet. assert (∀ acc : gset string, x ∈ foldl (λ result value, let value := TrimSpace value in
    if value != "" then {[ value ]} ∪ result else result) acc values ↔
    x ∈ acc ∨ (x ≠ "" ∧ ∃ value, value ∈ values ∧ TrimSpace value = x)) as ->; [|set_solver].
  induction values as [|value values IH]; intros acc; cbn [foldl]; [set_solver|]. rewrite IH. cbv zeta.
  setoid_rewrite elem_of_cons. destruct (String.eqb_spec (TrimSpace value) "") as [He|He]; cbn [negb]; set_solver.
Qed.

(** The roles a value of a claim grants. *)
Definition grants_role (role value : string) : Prop := known_role role = true ∧ normalized_role value = role.
Definition grants_namespace (n value : string) : Prop :=
  HasPrefix value "kubeathrix:namespace:" = true ∧ TrimPrefix value "kubeathrix:namespace:" = n.
Definition grants_cluster (c value : string) : Prop :=
  HasPrefix value "kubeathrix:namespace:" = false ∧ HasPrefix value "kubeathrix:cluster:" = true ∧
  TrimPrefix value "kubeathrix:cluster:" = c.

Lemma grant_role_spec p value role :
  role ∈ principal_Roles (grant_role p value) ↔ role ∈ principal_Roles p ∨ grants_role role value.
Proof.
  unfold grant_role, grants_role. destruct (known_role (normalized_role value)) eqn:Hk.
  - cbn. rewrite elem_of_union, elem_of_singleton. split; intros [?|?]; subst; auto. destruct_and!; subst; auto.
  - split; [by left|]. intros [?|[Hr Hn]]; [done|]. by rewrite <- Hn, Hk in Hr.
Qed.

Lemma grant_scope_namespace p value n :
  n ∈ principal_Namespaces (grant_scope p value) ↔ n ∈ principal_Namespaces p ∨ grants_namespace n value.
Proof.
  unfold grant_scope, grants_namespace. destruct (HasPrefix value "kubeathrix:namespace:"); cbn.
  - rewrite elem_of_union, elem_of_singleton. split; intros [?|?]; subst; auto. destruct_and!; subst; auto.
  - case_match; (split; [by left|]); intros [?|[? _]]; done.
Qed.

Lemma grant_scope_cluster p value c :
  c ∈ principal_Clusters (grant_scope p value) ↔ c ∈ principal_Clusters p ∨ grants_cluster c value.
Proof.
  unfold grant_scope, grants_cluster. destruct (HasPrefix value "kubeathrix:namespace:"); cbn.
  { split; [by left|]. intros [?|(? & _)]; done. }
  destruct (HasPrefix value "kubeathrix:cluster:"); cbn.
  - rewrite elem_of_union, elem_of_singleton. split; intros [?|?]; subst; auto. destruct_and!; subst; auto.
  - split; [by left|]. intros [?|(_ & ? & _)]; done.
Qed.

(** What a fold over the values of a claim collects. *)
Lemma collected {A} (grant : Principal → string → Principal) (get : Principal → A → Prop) (Q : A → string → Prop) values p a :
  (∀ p value, get (grant p value) a ↔ get p a ∨ Q a value) →
  get (foldl grant p values) a ↔ get p a ∨ ∃ value, value ∈ values ∧ Q a value.
Proof.
  intros Hgrant. revert p. induction values as [|value values IH]; intros p; cbn [foldl]; [apply from_none|].
  by rewrite IH, Hgrant, from_cons.
Qed.

Lemma kept {A} (grant : Principal → string → Principal) (get : Principal → A) values p :
  (∀ p value, get (grant p value) = get p) → get (foldl grant p values) = get p.
Proof. intros Hg. revert p. induction values as [|value values IH]; intros p; cbn [foldl]; [done|]. by rewrite IH. Qed.

Lemma grant_role_kept p value :
  (principal_Subject (grant_role p value), principal_DisplayName (grant_role p value),
   principal_Namespaces (grant_role p value), principal_Clusters (grant_role p value)) =
  (principal_Subject p, principal_DisplayName p, principal_Namespaces p, principal_Clusters p).
Proof. unfold grant_role. by case_match. Qed.
Lemma grant_scope_kept p value :
  (principal_Subject (grant_scope p value), principal_DisplayName (grant_scope p value), principal_Roles (grant_scope p value)) =
  (principal_Subject p, principal_DisplayName p, principal_Roles p).
Proof. unfold grant_scope. by repeat case_match. Qed.

(** The principal of a token has the token's subject, the roles its role, group and realm claims name
    (up to case and the [kubeathrix] prefixes) and no others, and exactly the namespaces and clusters its
    scope claims and its OAuth scopes list. *)
Theorem principalFromClaims_spec (claims : tokenClaims) :
  let p := principalFromClaims claims in
  principal_Subject p = claim_Subject claims ∧
  (∀ role, role ∈ principal_Roles p ↔ ∃ value, value ∈ role_claims claims ∧ grants_role role value) ∧
  (∀ n, n ∈ principal_Namespaces p ↔
     (n ≠ "" ∧ ∃ value, value ∈ stringList (claim_KubeAthrixNamespaces claims) ∧ TrimSpace value = n) ∨
     ∃ value, value ∈ Fields (claim_Scope claims) ∧ grants_namespace n value) ∧
  (∀ c, c ∈ principal_Clusters p ↔
     (c ≠ "" ∧ ∃ value, value ∈ stringList (claim_KubeAthrixClusters claims) ∧ TrimSpace value = c) ∨
     ∃ value, value ∈ Fields (claim_Scope claims) ∧ grants_cluster c value).
Proof.
  cbv zeta. unfold principalFromClaims. cbv zeta. set (p0 := mkPrincipal _ _ _ _ _).
  pose proof (kept grant_role _ (role_claims claims) p0 grant_role_kept) as Hp. fold (role_claims claims).
  set (p1 := foldl grant_role p0 (role_claims claims)) in *. injection Hp as Hs Hd Hn Hc.
  pose proof (kept grant_scope _ (Fields (claim_Scope claims)) p1 grant_scope_kept) as Hp'. injection Hp' as Hs' _ Hr'.
  split; [by rewrite Hs', Hs|]. split; [|split].
  - intros role. rewrite Hr'. unfold p1.
    rewrite (collected grant_role (λ p role, role ∈ principal_Roles p) grants_role) by (intros; apply grant_role_spec).
    cbn. rewrite elem_of_empty. naive_solver.
  - intros n. rewrite (collected grant_scope (λ p n, n ∈ principal_Namespaces p) grants_namespace)
      by (intros; apply grant_scope_namespace). rewrite Hn. cbn. by rewrite toSet_elem.
  - intros c. rewrite (collected grant_scope (λ p c, c ∈ principal_Clusters p) grants_cluster)
      by (intros; apply grant_scope_cluster). rewrite Hc. cbn. by rewrite toSet_elem.
Qed.

(** * Verified tokens *)

Section Verification.
Context `{SignatureLibrary}.
Variable v : OIDCVerifier.
Implicit Types h : history OidcE.

(** The issuer's key endpoint answered with these keys. *)
Definition published h (keys : gmap string PublicKey) : Prop :=
  ∃ cacheControl body value document,
    Occ _ (HttpGet (verifier_jwksURL v)) (Ok (200, cacheControl, body)) ∈ h ∧
    decode_first (string_take maxOIDCResponseBytes body) = Ok value ∧
    decode_struct set_jwks [] value = Ok document ∧ keys = usable_keys document.

(** The claims are this issuer's, for this client, and in force at [now], up to the tolerated skew. *)
Record in_force (claims : tokenClaims) (now : Time) : Prop := {
  force_issuer : TrimRight (claim_Issuer claims) "/" = verifier_issuer v;
  force_subject : claim_Subject claims ≠ "";
  force_audience : ∃ audiences, stringListFromRaw (claim_Audience claims) = Ok audiences ∧ verifier_clientID v ∈ audiences;
  force_expiry : ∃ t, unixClaim (claim_ExpiresAt claims) true = Ok t ∧ now < t + skew;
  force_start : ∃ t, unixClaim (claim_NotBefore claims) false = Ok t ∧ (t = 0 ∨ t ≤ now + skew);
  force_issued : ∃ t, unixClaim (claim_IssuedAt claims) false = Ok t ∧ (t = 0 ∨ t ≤ now + 5 * Minute)
}.

Definition signed_part (part0 part1 : string) : string :=
  string_of_bytes (Sum256_bytes (bytes_of (part0 +:+ "." +:+ part1))).

(** The token is signed with a published key, and [p] is what its claims, in force, say. *)
Definition authentic h (rawToken : string) (p : Principal) : Prop :=
  ∃ part0 part1 part2 header keys key signature claims now,
    split_on dot rawToken = [part0; part1; part2] ∧
    (∃ text value, DecodeString part0 = Some text ∧ parse_json text = Ok value ∧
       decode_struct set_header (mkJwtHeader "" "" "") value = Ok header) ∧
    header_Algorithm header ∈ ["RS256"; "ES256"] ∧
    published h keys ∧ keys !! header_KeyID header = Some key ∧
    DecodeString part2 = Some signature ∧
    verifySignature (header_Algorithm header) key (signed_part part0 part1) signature = true ∧
    (∃ text value, DecodeString part1 = Some text ∧ decode_first text = Ok value ∧
       decode_struct set_claim zero_tokenClaims value = Ok claims) ∧
    Occ _ OidcNow now ∈ h ∧ in_force claims now ∧
    p = principalFromClaims claims ∧ principal_Roles p ≠ ∅.

Definition oidc_pre X h (e : OidcE X) : Prop :=
  match e with
  | StoreKeys keys until => published h keys ∧ keys ≠ ∅ ∧ ∃ now, Occ _ OidcNow now ∈ h ∧ now < until ≤ now + Hour
  | Accepted rawToken p => authentic h rawToken p
  | _ => True
  end.

(** The keys the verifier holds are none, or keys that were published. *)
Definition oidc_post X h (e : OidcE X) : X → Prop :=
  match e in OidcE X return X → Prop with
  | LoadKeys => λ held, held.1 = ∅ ∨ published h held.1
  | _ => λ _, True
  end.

Lemma published_later h h' keys : suffix h h' → published h keys → published h' keys.
Proof.
  intros Hs (cc & body & value & document & Hin & ?). exists cc, body, value, document. split; [|done].
  by eapply in_later.
Qed.

Lemma in_force_checked h claims :
  safe oidc_pre oidc_post h (validateClaims v claims)
    (on_ok (λ h' _, suffix h h' ∧ ∃ now, Occ _ OidcNow now ∈ h' ∧ in_force claims now)).
Proof.
  unfold validateClaims, ok_or_unauthenticated. repeat safe_pure_step.
  apply safe_then_ask. intros h' Hs'. split; [exact I|]. intros now _. repeat safe_pure_step.
  apply safe_raise_if. intros Hissued h'' Hs''. split_guards. unfold After, Add, IsZero in *.
  repeat match goal with E : _ && (_ <? _) = false |- _ => apply andb_false_iff in E end.
  split; [later|].
  exists now. split; [happened|]. split; try done.
  - eexists. split; [eassumption|]. by apply contains_elem.
  - eexists. split; [eassumption|]. lia.
  - eexists. split; [eassumption|]. destruct_or!; split_guards; lia.
  - eexists. split; [eassumption|]. destruct_or!; split_guards; lia.
Qed.

Lemma fetched_keys h :
  safe (oidc_pre) oidc_post h (getJSON (verifier_jwksURL v) (decode_struct set_jwks []))
    (on_ok (λ h' found, suffix h h' ∧ published h' (usable_keys found.1))).
Proof.
  unfold getJSON. repeat safe_pure_step. apply safe_then_call. intros h1 Hs1. split; [exact I|].
  intros [[status cacheControl] body] _. repeat safe_pure_step. split_guards.
  match goal with E : mbind _ _ = Ok _ |- _ => apply bind_ok in E as (value & Hvalue & Hdocument) end.
  apply safe_ret_ok. intros h2 Hs2. split; [later|]. exists cacheControl, body, value. eexists.
  split; [|done]. assert (status = 200) as -> by lia. happened.
Qed.

Lemma refreshKeys_checked h :
  safe oidc_pre oidc_post h (refreshKeys v) (on_ok (λ h' _, suffix h h')).
Proof.
  unfold refreshKeys. eapply safe_then_attempt; [apply fetched_keys|]. intros h1 [[document maxAge]|err] Hk; [|by apply safe_raise].
  destruct Hk as [Hs1 Hk]. repeat safe_pure_step. case_bool_decide as Hne; [done|].
  set (age := if _ : bool then _ else maxAge). assert (0 < age ≤ Hour) as Hage.
  { subst age. destruct (_ || _) eqn:Ha; [vm_compute; by split|]. split_guards. lia. }
  apply safe_then_ask. intros h2 Hs2. split; [exact I|]. intros now _. intros h3 Hs3. split.
  - split; [eapply published_later; [|exact Hk]; later|]. split; [done|]. exists now. split; [happened|]. unfold Add. lia.
  - intros [] _ h4 Hs4. cbn. later.
Qed.

Lemma signing_key_checked h keyID :
  safe oidc_pre oidc_post h (signing_key v keyID)
    (on_ok (λ h' key, suffix h h' ∧ ∃ keys, published h' keys ∧ keys !! keyID = Some key)).
Proof.
  assert (∀ h' (keys : gmap string PublicKey) key, keys = ∅ ∨ published h' keys → keys !! keyID = Some key →
    published h' keys) as Hheld by (by intros h' keys key [->|?] ?).
  unfold signing_key. apply safe_then_ask. intros h1 Hs1. split; [exact I|]. intros [keys until] Hkeys. cbn in Hkeys.
  assert (∀ h2, suffix h1 h2 → safe oidc_pre oidc_post h2 (refreshKeys v;; '(keys, _) ← ask LoadKeys;
      match keys !! keyID with Some key => mret key | None => raise (Errorf "signing key not found") end)
    (on_ok (λ h' key, suffix h h' ∧ ∃ keys, published h' keys ∧ keys !! keyID = Some key))) as Hrefresh.
  { intros h2 Hs2. eapply safe_then_spec; [apply refreshKeys_checked|]. intros h3 [] Hs3. cbn in Hs3. apply safe_then_ask.
    intros h4 Hs4. split; [exact I|]. intros [keys' until'] Hkeys'. cbn in Hkeys'.
    destruct (keys' !! keyID) as [key|] eqn:Hk; [|by apply safe_raise]. apply safe_ret_ok. intros h5 Hs5.
    split; [later|]. exists keys'. split; [|done]. eapply published_later; [|by eapply Hheld]. later. }
  apply safe_then_ask. intros h2 Hs2. split; [exact I|]. intros now _.
  destruct (keys !! keyID) as [key|] eqn:Hk; [|apply Hrefresh; later].
  destruct (After now until); [apply Hrefresh; later|]. apply safe_ret_ok. intros h3 Hs3. split; [later|].
  exists keys. split; [|done]. eapply published_later; [|by eapply Hheld]. later.
Qed.

Lemma Verify_checked h rawToken :
  safe oidc_pre oidc_post h (Verify v rawToken) (on_ok (λ h' p, authentic h' rawToken p)).
Proof.
  unfold Verify, or_unauthenticated, ok_or_unauthenticated.
  destruct (split_on dot rawToken) as [|part0 [|part1 [|part2 []]]] eqn:Hparts; try (by apply safe_raise).
  repeat safe_pure_step.
  match goal with E : mbind _ _ = Ok _ |- _ => apply bind_ok in E as (hvalue & Hhvalue & Hheader) end.
  eapply safe_then_attempt; [apply signing_key_checked|]. intros h1 [key|err] Hkey; [|by apply safe_raise].
  destruct Hkey as (Hs1 & keys & Hpublished & Hkey). repeat safe_pure_step.
  match goal with E : mbind _ _ = Ok _ |- _ => apply bind_ok in E as (cvalue & Hcvalue & Hclaims) end.
  eapply safe_then_attempt; [apply in_force_checked|]. intros h2 [[]|err] Hforce; [|by apply safe_raise].
  destruct Hforce as (Hs2 & now & Hnow & Hforce). repeat safe_pure_step. apply safe_ret_ok. intros h3 Hs3.
  split_guards. exists part0, part1, part2. do 6 eexists.
  split; [done|]. split; [by eauto|]. split.
  { match goal with E : _ && _ = false |- _ => apply andb_false_iff in E end. destruct_or!; split_guards; set_solver. }
  split; [eapply published_later; [|exact Hpublished]; later|]. split; [done|]. split; [done|]. split; [done|].
  split; [by eauto|]. split; [eapply in_later; [|exact Hnow]; later|]. split; [done|]. split; [done|].
  by eapply bool_decide_eq_false_1.
Qed.

(** ** Concurrent verifications *)

(** Any number of requests verify tokens, and keys are refreshed, over one verifier; the network and the
    clock answer anything. The verifier starts without keys. *)
Inductive oidc_entry : prog OidcE unit → Prop :=
| enter_authenticate rawToken : oidc_entry (prog_bind (λ _, Ret tt) (authenticate v rawToken))
| enter_refresh : oidc_entry (prog_bind (λ _, Ret tt) (refreshKeys v)).

Definition held_keys : Type := gmap string PublicKey * Time.
Definition oidc_handles X (held : held_keys) (e : OidcE X) : X → held_keys → Prop :=
  match e in OidcE X return X → held_keys → Prop with
  | LoadKeys => λ x held', x = held ∧ held' = held
  | StoreKeys keys until => λ _ held', held' = (keys, until)
  | _ => λ _ held', held' = held
  end.
Definition oidc_execution : history OidcE → held_keys → list (prog OidcE unit) → Prop :=
  execution (λ held, held = (∅, 0)) oidc_entry oidc_handles (λ held held', held' = held).

Lemma oidc_entry_safe p h : oidc_entry p → safe oidc_pre oidc_post h p (λ _ _, True).
Proof.
  assert (∀ A (q : P OidcE A) Q, safe oidc_pre oidc_post h q (on_ok Q) →
    safe oidc_pre oidc_post h (prog_bind (λ _, Ret tt) q) (λ _ _, True)) as Hd.
  { intros A q Q Hq. apply safe_bind. eapply safe_weaken; [|exact Hq]. by intros h' r _ h'' _. }
  intros [rawToken|]; [apply (Hd _ _ (λ _ _, True)) | eapply Hd, refreshKeys_checked].
  apply safe_then. eapply safe_weaken; [|apply safe_persists, Verify_checked].
  intros h1 [p1|err] Hp; [|done]. intros h2 Hs2. split; [exact (Hp h2 Hs2)|]. by intros [] _ h3 _.
Qed.

Lemma oidc_executions_obey h held ts :
  oidc_execution h held ts → (held.1 = ∅ ∨ published h held.1) ∧ obeys oidc_pre h.
Proof.
  intros He. eapply (executions_obey oidc_pre oidc_post) with (inv := λ h held, held.1 = ∅ ∨ published h held.1) in He
    as (Hi & Ho & _); [done| | | |].
  - intros ? ->. by left.
  - by intros h' held' ? ->.
  - intros X h' held1 held2 e x Hh Hi _ Hpre.
    assert (∀ keys, published h' keys → published (Occ X e x :: h') keys) as Hlater.
    { intros keys Hk. eapply published_later; [|exact Hk]. later. }
    destruct e; cbn in *; try (subst; split; [done | destruct Hi; [by left | right; by apply Hlater]]).
    + destruct Hh as [-> ->]. split; [done|]. destruct Hi; [by left | right; by apply Hlater].
    + subst. split; [done|]. right. apply Hlater, Hpre.
  - intros p h' Hp. by apply oidc_entry_safe.
Qed.

(** C6. In every concurrent execution, a token that is accepted has three parts, is signed, with RS256 or
    ES256 over its first two, under a key of the named id that the issuer's key endpoint published; its
    claims carry the configured issuer and client, have not expired and have begun, up to the tolerated
    skew; and the caller goes on with exactly the principal the claims describe, which has a role. *)
Theorem accepted_authentic h held ts later rawToken p x before
    (He : oidc_execution h held ts) (Hh : h = later ++ Occ _ (Accepted rawToken p) x :: before) :
  authentic before rawToken p.
Proof.
  apply oidc_executions_obey in He as [_ Ho]. subst h. induction later as [|[] later IH]; cbn in Ho; destruct Ho; [done|].
  by apply IH.
Qed.
End Verification.

(** * The endpoints of a verifier *)

Section Setup.
Context `{SignatureLibrary}.
Variable config : OIDCConfig.

Definition trusted (endpoint : string) : Prop := validateEndpoint endpoint = Ok tt.
Definition configured_issuer : string := TrimRight (TrimSpace (config_IssuerURL config)) "/".
Definition setup_pre X (h : history OidcE) (e : OidcE X) : Prop :=
  match e with
  | HttpGet endpoint => trusted endpoint ∨ endpoint = configured_issuer +:+ discovery_path ∧ trusted configured_issuer
  | StoreKeys keys _ => keys ≠ ∅
  | _ => True
  end.
Definition setup_post X (h : history OidcE) (e : OidcE X) (x : X) : Prop := True.

Lemma getJSON_setup {A} h endpoint (decode : json → result A) :
  trusted endpoint ∨ endpoint = configured_issuer +:+ discovery_path ∧ trusted configured_issuer →
  safe setup_pre setup_post h (getJSON endpoint decode) (on_ok (λ _ _, True)).
Proof.
  intros Hp. unfold getJSON. apply safe_then_call. intros h1 Hs1. split; [exact Hp|].
  intros [[status cacheControl] body] _. repeat safe_pure_step. by apply safe_ret_ok.
Qed.

Lemma refreshKeys_setup h v : trusted (verifier_jwksURL v) → safe setup_pre setup_post h (refreshKeys v) (on_ok (λ _ _, True)).
Proof.
  intros Ht. unfold refreshKeys. eapply safe_then_attempt; [by apply getJSON_setup; left|]. intros h1 [[document maxAge]|err] _; [|done].
  repeat safe_pure_step. case_bool_decide as Hne; [done|]. apply safe_then_ask. intros h2 Hs2. split; [exact I|]. intros now _.
  intros h3 Hs3. split; [exact Hne|]. by intros [] _ h4 Hs4.
Qed.

(** Setting up a verifier talks to the issuer that is configured and the key endpoint it names only, over HTTPS or
    within the host; the verifier it makes has that issuer, not empty, and such a key endpoint. *)
Theorem verifier_endpoints h :
  safe setup_pre setup_post h (NewOIDCVerifier config)
    (on_ok (λ _ v, verifier_issuer v = configured_issuer ∧ configured_issuer ≠ "" ∧ verifier_clientID v = config_ClientID config ∧
                   trusted (verifier_issuer v) ∧ trusted (verifier_jwksURL v))).
Proof.
  assert (∀ text endpoint u, with_context text (validateEndpoint endpoint) = Ok u → trusted endpoint) as Htrusted.
  { intros text endpoint []. unfold trusted, with_context. by destruct (validateEndpoint endpoint) as [[]|]. }
  unfold NewOIDCVerifier. cbv zeta. fold configured_issuer. apply safe_then_raise_if. intros Hg.
  apply safe_then_pure. intros u Hissuer%Htrusted.
  eapply safe_then_attempt; [by apply getJSON_setup; right|]. intros h1 [[document maxAge]|err] _; [|by apply safe_raise].
  apply safe_then_raise_if. intros _. apply safe_then_pure. intros u' Hkeys%Htrusted.
  eapply safe_then_spec; [by apply refreshKeys_setup|]. intros h2 [] _. apply safe_ret_ok. intros h3 _. cbn.
  apply orb_false_iff in Hg as [Hg _]. apply String.eqb_neq in Hg. done.
Qed.
End Setup.

(** * A concrete issuer *)

Module Issuer.
(** A library that takes the digest itself for its signature. *)
#[local] Instance toy_library : SignatureLibrary := {
  rsa_Verify n e digest signature := digest == signature;
  ecdsa_Verify x y digest r s := false
}.
Definition verifier : OIDCVerifier := mkOIDCVerifier "https://id.example.com" "kubeathrix" "https://id.example.com/keys".
Definition modulus : string := EncodeToString (String.concat "" (repeat "kubeathrix-key--" 16)).
Definition keys_document : string :=
  requote ("{'keys':[{'kid':'k1','use':'sig','kty':'RSA','n':'" +:+ modulus +:+ "','e':'AQAB'}]}").
Definition header : string := EncodeToString (requote "{'alg':'RS256','kid':'k1'}").
Definition claims : string := EncodeToString (requote
  "{'iss':'https://id.example.com/','sub':'ana','aud':['kubeathrix'],'exp':2000000000,'roles':['KubeAthrix:Approver','dev'],'scope':'openid kubeathrix:namespace:shop'}").
Definition token : string := header +:+ "." +:+ claims +:+ "." +:+ EncodeToString (signed_part header claims).
Definition noon : Time := (1900000000 + unix_epoch_seconds) * Second.

Definition handle X (e : OidcE X) (held : held_keys) : X * held_keys :=
  match e in OidcE X return X * held_keys with
  | OidcNow => (noon, held)
  | LoadKeys => (held, held)
  | StoreKeys keys until => (tt, (keys, until))
  | HttpGet endpoint => (Ok (200, "max-age=600", keys_document), held)
  | Accepted _ _ => (tt, held)
  end.

Definition approver : Principal := mkPrincipal "ana" "" {["approver"]} {["shop"]} ∅.
Definition trace : history OidcE := (drive handle (prog_bind (λ _, Ret tt) (authenticate verifier token)) (∅, 0) []).2.
End Issuer.

Lemma issuer_execution : ∃ ts, oidc_execution (H := Issuer.toy_library) Issuer.verifier Issuer.trace
    (drive Issuer.handle (prog_bind (λ _, Ret tt) (authenticate (H := Issuer.toy_library) Issuer.verifier Issuer.token)) (∅, 0) []).1.2 ts.
Proof.
  assert (oidc_execution (H := Issuer.toy_library) Issuer.verifier [] (∅, 0)
    [prog_bind (λ _, Ret tt) (authenticate (H := Issuer.toy_library) Issuer.verifier Issuer.token)]) as Hp.
  { apply exec_start; [apply enter_authenticate | by apply exec_init]. }
  assert (∀ X (e : OidcE X) (held : held_keys), oidc_handles X held e (Issuer.handle X e held).1 (Issuer.handle X e held).2)
    as Hs by (by intros X []).
  pose proof (drive_execution Issuer.handle _ _ _ _ (λ held : held_keys, held) Hs _ _ _ _ Hp) as Hd.
  unfold Issuer.trace. destruct (drive Issuer.handle _ (∅, 0) []) as [[[] held] h]. destruct Hd as [[] Hd]. by exists [Ret tt].
Qed.

Lemma accepted_authentic_witness :
  ∃ before, Issuer.trace = Occ _ (Accepted Issuer.token Issuer.approver) tt :: before ∧
    authentic (H := Issuer.toy_library) Issuer.verifier before Issuer.token Issuer.approver.
Proof.
  destruct issuer_execution as [ts Hts].
  assert (Issuer.trace = Occ _ (Accepted Issuer.token Issuer.approver) tt :: tail Issuer.trace) as Ht
    by (vm_compute; reflexivity).
  exists (tail Issuer.trace). split; [exact Ht|].
  exact (accepted_authentic (H := Issuer.toy_library) _ _ _ _ [] _ _ _ _ Hts Ht).
Defined.
