(* ===== verification/Kube.v ===== *)
(** What the program uses of the Kubernetes client libraries: dynamic values, unstructured objects and
    their accessors, YAML decoding, and the classification of API errors. They are not part of the
    repository, so they are the fields of a class; the laws name the documented behaviour the proofs
    rely on. [json_kubernetes] is an instance on JSON objects, for evaluating concrete inputs. *)
From Stdlib Require Import SpecFloat.
From S2P Require Import Prelude GoLib Json.

Local Open Scope Z_scope.

(** A Go [any] as JSON decoding produces it. *)
Inductive any :=
| ANil
| ABool (b : bool)
| AInt64 (z : Z)
| AFloat64 (f : float64)
| AString (s : string)
| ASlice (elements : list any)
| AMap (entries : list (string * any)).

(** [m[key]] of a [map[string]any]: [nil] when the key is absent. *)
Definition fields : Type := list (string * any).
Definition field (key : string) (m : fields) : any :=
  default ANil (snd <$> List.find (λ kv, kv.1 == key) m).

(** The type assertions [v.(string)] (the zero value when it fails) and [v.(map[string]any)]. *)
Definition as_string (v : any) : string := match v with AString s => s | _ => "" end.
Definition as_map (v : any) : option fields := match v with AMap m => Some m | _ => None end.
(** [v == text] between an interface value and a string. *)
Definition equals_string (v : any) (text : string) : bool := match v with AString s => s == text | _ => false end.

(** [json.Marshal] of a value; the keys of a map are distinct and come in order. *)
Definition member_text (kv : string * string) : string := marshal_string kv.1 +:+ ":" +:+ kv.2.
Definition brackets (left right : string) (parts : list string) : string := left +:+ Join parts "," +:+ right.
Fixpoint marshal_any (v : any) : option string :=
  match v with
  | ANil => Some "null"
  | ABool b => Some (if b then "true" else "false")
  | AInt64 z => Some (Itoa z)
  | AFloat64 f => match f with S754_infinity _ | S754_nan => None | _ => Some (format_float f) end
  | AString s => Some (marshal_string s)
  | ASlice vs => brackets "[" "]" <$> mapM marshal_any vs
  | AMap m =>
      members ← mapM (λ kv, text ← marshal_any kv.2; Some (kv.1, text)) m;
      Some (brackets "{" "}" (map member_text (sort_slice object_less members)))
  end.

Record GroupVersionKind := mkGVK { gvk_Group : string; gvk_Version : string; gvk_Kind : string }.
Record GroupVersionResource := mkGVR { gvr_Group : string; gvr_Version : string; gvr_Resource : string }.
#[export] Instance GroupVersionKind_eq_dec : EqDecision GroupVersionKind.
Proof. solve_decision. Defined.
#[export] Instance GroupVersionResource_eq_dec : EqDecision GroupVersionResource.
Proof. solve_decision. Defined.

Class Kubernetes := {
  (** [unstructured.Unstructured] *)
  object : Type;
  Object : object → fields;
  GetAPIVersion : object → string;
  GetKind : object → string;
  GetNamespace : object → string;
  GetName : object → string;
  GetGVK : object → GroupVersionKind;
  GetLabels : object → gmap string string;
  SetLabels : gmap string string → object → object;
  GetDeletionTimestamp : object → option Time;
  (** the nested accessors: found, absent, or of another type *)
  NestedString : list string → fields → result (option string);
  NestedStringSlice : list string → fields → result (option (list string));
  NestedStringMap : list string → fields → result (option (gmap string string));
  NestedInt64 : list string → fields → result (option Z);
  NestedSlice : list string → fields → result (option (list any));
  NestedFieldNoCopy : list string → fields → result (option any);
  (** [yaml.NewYAMLOrJSONDecoder(...).Decode(object)] *)
  decode_yaml : string → result object;
  (** [schema] and [labels] *)
  ParseGroupVersion : string → result (string * string);
  GVKString : GroupVersionKind → string;
  GroupVersionString : GroupVersionKind → string;
  SelectorString : gmap string string → string;
  (** [apierrors] *)
  IsNotFound : GoError → bool;
  IsAlreadyExists : GoError → bool
}.

(** [SetLabels] sets the labels and nothing else the accessors show. *)
Class KubernetesLaws (K : Kubernetes) : Prop := {
  GetLabels_set labels o : GetLabels (SetLabels labels o) = labels;
  GetNamespace_set labels o : GetNamespace (SetLabels labels o) = GetNamespace o;
  GetName_set labels o : GetName (SetLabels labels o) = GetName o;
  GetKind_set labels o : GetKind (SetLabels labels o) = GetKind o
}.

(** [v, _, _ := accessor(...)] keeps the zero value unless a value is found. *)
Definition found_or {A} (zero : A) (r : result (option A)) : A :=
  match r with Ok (Some a) => a | _ => zero end.
(** [_, found, _ := accessor(...)] *)
Definition found {A} (r : result (option A)) : bool := match r with Ok (Some _) => true | _ => false end.

(** The key-value pairs of a map, without an order among them: the first entry of a key counts. *)
Definition map_of {A} (pairs : list (string * A)) : gmap string A := list_to_map pairs.

(** * An instance on JSON text *)

Fixpoint any_of_json (v : json) : any :=
  match v with
  | JNull => ANil
  | JBool b => ABool b
  | JNumber text => match ParseInt text with Some z => AInt64 z | None => ANil end
  | JString s => AString s
  | JArray vs => ASlice (map any_of_json vs)
  | JObject ms => AMap (map (λ m, (m.1, any_of_json m.2)) ms)
  end.

Fixpoint nested (path : list string) (v : any) : option any :=
  match path with
  | [] => Some v
  | name :: rest =>
      match v with
      | AMap m => match List.find (λ kv, kv.1 == name) m with Some kv => nested rest kv.2 | None => None end
      | _ => None
      end
  end.

(** The nested value converted by [f], an error when the conversion fails. *)
Definition nested_as {A} (f : any → option A) (path : list string) (m : fields) : result (option A) :=
  match nested path (AMap m) with
  | None => Ok None
  | Some v => match f v with Some a => Ok (Some a) | None => Err (Errorf "accessor error") end
  end.

Definition string_of_any (v : any) : option string := match v with AString s => Some s | _ => None end.
Definition strings_of_any (v : any) : option (list string) :=
  match v with ASlice vs => mapM string_of_any vs | _ => None end.
Definition labels_of_any (v : any) : option (gmap string string) :=
  match v with
  | AMap m => map_of <$> mapM (λ kv, s ← string_of_any kv.2; Some (kv.1, s)) m
  | _ => None
  end.
Definition int_of_any (v : any) : option Z := match v with AInt64 z => Some z | _ => None end.
Definition slice_of_any (v : any) : option (list any) := match v with ASlice vs => Some vs | _ => None end.

Record json_object := mkJsonObject { jo_fields : fields; jo_labels : gmap string string }.

Definition split_group_version (s : string) : string * string :=
  match split_on (byte_of_code 47) s with
  | [version] => ("", version)
  | group :: version :: _ => (group, version)
  | [] => ("", "")
  end.

Definition json_string (path : list string) (o : json_object) : string :=
  found_or "" (nested_as string_of_any path (jo_fields o)).

#[export] Instance json_kubernetes : Kubernetes := {|
  object := json_object;
  Object := jo_fields;
  GetAPIVersion := json_string ["apiVersion"];
  GetKind := json_string ["kind"];
  GetNamespace := json_string ["metadata"; "namespace"];
  GetName := json_string ["metadata"; "name"];
  GetGVK := λ o, let '(g, v) := split_group_version (json_string ["apiVersion"] o) in
                 mkGVK g v (json_string ["kind"] o);
  GetLabels := jo_labels;
  SetLabels := λ labels o, mkJsonObject (jo_fields o) labels;
  GetDeletionTimestamp := λ o, None;
  NestedString := nested_as string_of_any;
  NestedStringSlice := nested_as strings_of_any;
  NestedStringMap := nested_as labels_of_any;
  NestedInt64 := nested_as int_of_any;
  NestedSlice := nested_as slice_of_any;
  NestedFieldNoCopy := nested_as Some;
  decode_yaml := λ text,
    v ← parse_json text;
    match any_of_json v with
    | AMap m => Ok (mkJsonObject m (found_or ∅ (nested_as labels_of_any ["metadata"; "labels"] m)))
    | _ => Err (Errorf "not an object")
    end;
  ParseGroupVersion := λ s, Ok (split_group_version s);
  GVKString := λ gvk, gvk_Group gvk +:+ "/" +:+ gvk_Version gvk +:+ ", Kind=" +:+ gvk_Kind gvk;
  GroupVersionString := λ gvk,
    if gvk_Group gvk == "" then gvk_Version gvk else gvk_Group gvk +:+ "/" +:+ gvk_Version gvk;
  SelectorString := λ labels, Join (map (λ kv, kv.1 +:+ "=" +:+ kv.2) (map_to_list labels)) ",";
  IsNotFound := λ e, bool_decide (e = Errorf "NotFound");
  IsAlreadyExists := λ e, bool_decide (e = Errorf "AlreadyExists")
|}.

#[export] Instance json_kubernetes_laws : KubernetesLaws json_kubernetes.
Proof. split; reflexivity. Qed.
