(* ===== verification/Chaos.v ===== *)
(** Chaos experiments: the runner that validates and creates bounded Chaos Mesh resources,
    [services/api/internal/cluster/chaos.go], and the manager that drives a run from its request to
    verified recovery, [services/api/internal/cluster/chaos_manager.go].

    Both are programs over events: the clock, the repository of runs, the Kubernetes API. The timeouts
    of the derived contexts show as errors the API may answer. *)
From S2P Require Import Prelude GoLib GoDuration Json Core Kube Interaction Store.

Local Open Scope Z_scope.

Abbreviation Run := ChaosExperimentRun.

(** * Events *)

Section Events.
Context `{K : Kubernetes}.

Inductive ChaosE : Type → Type :=
| Now : ChaosE Time
| NewUUID : ChaosE string
| RepoGet (id : string) : ChaosE (result Run)
| RepoList : ChaosE (result (list Run))
| RepoCreate (run : Run) (actor action : string) : ChaosE (result Run)
| RepoUpdate (run : Run) (expectedVersion : Z) (actor action : string) : ChaosE (result Run)
| KubeCreate (gvr : GroupVersionResource) (namespace : string) (o : object) (dryRun : bool)
    (fieldManager : string) : ChaosE (result object)
| KubeGet (gvr : GroupVersionResource) (namespace name : string) : ChaosE (result object)
| KubeDelete (gvr : GroupVersionResource) (namespace name : string) : ChaosE (result unit)
| KubeList (gvr : GroupVersionResource) (namespace selector : string) (limit : Z) : ChaosE (result (list object)).

End Events.
Arguments ChaosE K : clear implicits.

(** * Bounds on a chaos resource *)

Definition allowedChaosResources : list (GroupVersionKind * GroupVersionResource) := [
  (mkGVK "chaos-mesh.org" "v1alpha1" "NetworkChaos", mkGVR "chaos-mesh.org" "v1alpha1" "networkchaos");
  (mkGVK "chaos-mesh.org" "v1alpha1" "StressChaos", mkGVR "chaos-mesh.org" "v1alpha1" "stresschaos");
  (mkGVK "chaos-mesh.org" "v1alpha1" "DNSChaos", mkGVR "chaos-mesh.org" "v1alpha1" "dnschaos")].
Definition allowed_resource (gvk : GroupVersionKind) : option GroupVersionResource :=
  snd <$> List.find (λ kv, bool_decide (kv.1 = gvk)) allowedChaosResources.

Definition protectedChaosNamespaces : list string :=
  ["kube-system"; "kube-public"; "kube-node-lease"; "kubeathrix-system"].

Definition maxChaosDuration : Duration := 5 * Minute.
Definition maxChaosTargetCandidates : Z := 20.
Definition podsResource : GroupVersionResource := mkGVR "" "v1" "pods".

Definition in_list (s : string) (l : list string) : bool := existsb (String.eqb s) l.

Definition valid_label_byte (c : Ascii.ascii) : bool :=
  let n := byte_code c in
  negb (((n <? 97) || (122 <? n)) && ((n <? 48) || (57 <? n)) && negb (n =? 45)).

Definition last_byte (s : string) : option Ascii.ascii := last (String.list_ascii_of_string s).
Definition is_dash (c : option Ascii.ascii) : bool :=
  match c with Some c => byte_code c =? 45 | None => false end.

Definition valid_dns_part (part : string) : bool :=
  negb ((part == "") || (63 <? len part) || is_dash (head (String.list_ascii_of_string part)) ||
        is_dash (last_byte part)) &&
  forallb valid_label_byte (String.list_ascii_of_string part).

Definition validExactDNSName (value : string) : bool :=
  let value := TrimSuffix (ToLower (TrimSpace value)) "." in
  if (value == "") || (253 <? len value) || ContainsAny value "*?/" then false
  else
    let parts := split_on (byte_of_code 46) value in
    if Z.of_nat (length parts) <? 2 then false else forallb valid_dns_part parts.

(** [text, err := time.ParseDuration(text)] outside of the bounds. *)
Definition duration_within (low high : Duration) (text : string) : bool :=
  match ParseDuration text with Some d => (low <=? d) && (d <=? high) | None => false end.
Definition int_within (low high : Z) (text : string) : bool :=
  match Atoi text with Some n => (low <=? n) && (n <=? high) | None => false end.
Definition found_within (low high : Z) (r : result (option Z)) : bool :=
  match r with Ok (Some n) => (low <=? n) && (n <=? high) | _ => false end.

Section Runner.
Context `{K : Kubernetes}.
Implicit Types o : object.

Definition spec_string (path : list string) o : string := found_or "" (NestedString ("spec" :: path) (Object o)).
Definition spec_strings (path : list string) o : list string :=
  found_or [] (NestedStringSlice ("spec" :: path) (Object o)).
Definition spec_found (path : list string) o : bool := found (NestedFieldNoCopy ("spec" :: path) (Object o)).
Definition spec_int (path : list string) o : result (option Z) := NestedInt64 ("spec" :: path) (Object o).

Definition validateNetworkChaos o : result unit :=
  unless (spec_string ["action"] o == "delay") "NetworkChaos supports only the bounded delay action";;
  unless (spec_string ["direction"] o == "to")
    "NetworkChaos spec.direction must be to when secondary targets are disabled";;
  unless (negb (spec_found ["target"] o)) "NetworkChaos spec.target is not supported";;
  unless (Nat.eqb (length (spec_strings ["externalTargets"] o)) 0) "NetworkChaos externalTargets are not supported";;
  unless (duration_within 1 (500 * 1000000) (spec_string ["delay"; "latency"] o))
    "NetworkChaos delay.latency must be greater than zero and at most 500ms";;
  let jitterText := spec_string ["delay"; "jitter"] o in
  unless ((jitterText == "") || duration_within 0 (100 * 1000000) jitterText)
    "NetworkChaos delay.jitter must be at most 100ms";;
  let correlationText := spec_string ["delay"; "correlation"] o in
  unless ((correlationText == "") || int_within 0 100 correlationText)
    "NetworkChaos delay.correlation must be between 0 and 100";;
  unless (negb (spec_found ["delay"; "reorder"] o)) "NetworkChaos packet reordering is not supported".

Definition validateStressChaos o : result unit :=
  unless (negb (spec_found ["stressors"; "memory"] o)) "StressChaos memory pressure is not supported";;
  unless (found_within 1 1 (spec_int ["stressors"; "cpu"; "workers"] o)) "StressChaos cpu.workers must equal 1";;
  unless (found_within 1 80 (spec_int ["stressors"; "cpu"; "load"] o))
    "StressChaos cpu.load must be between 1 and 80".

Fixpoint check_patterns (patterns : list string) : result unit :=
  match patterns with
  | [] => Ok tt
  | pattern :: rest =>
      unless (validExactDNSName pattern)
        ("DNSChaos pattern " +:+ Quote pattern +:+ " must be an exact DNS name without wildcards");;
      check_patterns rest
  end.

Definition validateDNSChaos o : result unit :=
  unless (spec_string ["action"] o == "error") "DNSChaos supports only the error action";;
  let patterns := spec_strings ["patterns"] o in
  unless (negb (Nat.eqb (length patterns) 0) && (Z.of_nat (length patterns) <=? 5))
    "DNSChaos requires between one and five exact DNS patterns";;
  check_patterns patterns.

Definition validateChaosKindBounds o : result unit :=
  if GetKind o == "NetworkChaos" then validateNetworkChaos o
  else if GetKind o == "StressChaos" then validateStressChaos o
  else if GetKind o == "DNSChaos" then validateDNSChaos o
  else Err (Errorf ("chaos kind " +:+ GetKind o +:+ " is not supported")).

(** The runner: whether it holds an API client, and its configuration. *)
Record ChaosRunner := mkChaosRunner {
  r_client : bool;
  r_allowedNamespaces : list string;
  r_serverSideDryRun : bool
}.

Definition namespaceAllowlist (value : string) : list string :=
  List.filter (λ ns, ns != "") (map TrimSpace (split_on (byte_of_code 44) value)).
Definition NewChaosRunner (allowlist : string) : ChaosRunner := mkChaosRunner true (namespaceAllowlist allowlist) true.
Definition NewChaosRunnerFromClient : ChaosRunner := mkChaosRunner true ["default"] true.
Definition NewChaosPreflightRunner (allowlist : string) : ChaosRunner :=
  mkChaosRunner false (namespaceAllowlist allowlist) false.

Definition target_labels o : gmap string string :=
  found_or ∅ (NestedStringMap ["spec"; "selector"; "labelSelectors"] (Object o)).

Definition valid_mode o : result unit :=
  let mode := spec_string ["mode"] o in
  if mode == "one" then Ok tt
  else if mode == "fixed" then
    unless (int_within 1 3 (spec_string ["value"] o)) "fixed chaos mode requires spec.value between 1 and 3"
  else Err (Errorf "spec.mode must be one or fixed").

Definition validateTarget (r : ChaosRunner) o : result unit :=
  let namespace := GetNamespace o in
  unless (negb (in_list namespace protectedChaosNamespaces || HasPrefix namespace "kube-"))
    ("namespace " +:+ Quote namespace +:+ " is protected from chaos experiments");;
  unless (in_list namespace (r_allowedNamespaces r))
    ("namespace " +:+ Quote namespace +:+ " is not in KUBEATHRIX_CHAOS_NAMESPACE_ALLOWLIST");;
  unless (bool_decide (spec_strings ["selector"; "namespaces"] o = [namespace]))
    "spec.selector.namespaces must contain exactly metadata.namespace";;
  unless (bool_decide (target_labels o ≠ ∅)) "spec.selector.labelSelectors must select an explicit workload";;
  valid_mode o;;
  unless (duration_within 1 maxChaosDuration (spec_string ["duration"] o))
    "spec.duration must be greater than zero and at most 5m0s";;
  validateChaosKindBounds o.

Definition plannedTargetCount o : result Z :=
  let mode := spec_string ["mode"] o in
  if mode == "one" then Ok 1
  else match Atoi (spec_string ["value"] o) with
       | Some count => if (mode != "fixed") || (count <? 1) || (3 <? count)
                       then Err (Errorf "chaos target count is invalid") else Ok count
       | None => Err (Errorf "chaos target count is invalid")
       end.

Definition decodeChaosObject (manifest : string) : result object :=
  o ← with_context "decode manifest" (decode_yaml manifest);
  unless (negb ((GetAPIVersion o == "") || (GetKind o == "") || (GetName o == "")))
    "manifest must include apiVersion, kind, metadata.name";;
  Ok o.

(** * The runner's calls to the API *)

Abbreviation op A := (P (ChaosE K) A).

(** [if err != nil { return fmt.Errorf("msg: %w", err) }] around a program. *)
Definition wrap {A} (msg : string) (p : op A) : op A := prog_bind (λ r, Ret (with_context msg r)) p.

Fixpoint ready_condition (conditions : list any) : bool :=
  match conditions with
  | [] => false
  | raw :: rest =>
      match as_map raw with
      | Some condition =>
          if equals_string (field "type" condition) "Ready" && equals_string (field "status" condition) "True"
          then true else ready_condition rest
      | None => ready_condition rest
      end
  end.

Definition chaosTargetPodReady (pod : object) : bool :=
  match GetDeletionTimestamp pod with
  | Some _ => false
  | None =>
      if found_or "" (NestedString ["status"; "phase"] (Object pod)) != "Running" then false
      else ready_condition (found_or [] (NestedSlice ["status"; "conditions"] (Object pod)))
  end.

Definition targetPods (r : ChaosRunner) (namespace : string) (labels : gmap string string) : op (list object) :=
  raise_if (negb (r_client r)) (Errorf "Kubernetes chaos client is unavailable");;
  call (KubeList podsResource namespace (SelectorString labels) (maxChaosTargetCandidates + 1)).

Definition validateLiveTargets (r : ChaosRunner) (namespace : string) (labels : gmap string string)
    (targetCount : Z) : op unit :=
  pods ← wrap "discover chaos targets" (targetPods r namespace labels);
  let count := Z.of_nat (length pods) in
  raise_if (count <? targetCount) (Errorf ("target selector matched " +:+ Itoa count +:+
    " pods but the experiment requires " +:+ Itoa targetCount));;
  raise_if (maxChaosTargetCandidates <? count) (Errorf ("target selector matched " +:+ Itoa count +:+
    " pods; maximum candidate set is " +:+ Itoa maxChaosTargetCandidates));;
  match List.find (λ pod, negb (chaosTargetPodReady pod)) pods with
  | Some pod => raise (Errorf ("target pod " +:+ GetName pod +:+
                               " must be Running and Ready before chaos execution"))
  | None => mret tt
  end.

Definition field_manager : string := "kubeathrix-chaos".
(** The zero [FieldManager] of [metav1.CreateOptions]. *)
Definition no_manager : string := EmptyString.

Definition object_text o : string :=
  gvk_Kind (GetGVK o) +:+ "/" +:+ GetName o +:+ " in namespace " +:+ GetNamespace o.

Definition Preflight (r : ChaosRunner) (experimentID manifest : string) (discoverTargets : bool) : op Run :=
  o ← pure_result (decodeChaosObject manifest);
  let gvk := GetGVK o in
  match allowed_resource gvk with
  | None => raise (Errorf ("chaos kind " +:+ GVKString gvk +:+ " is not allowlisted"))
  | Some gvr =>
      raise_if (GetNamespace o == "") (Errorf "chaos manifest must declare metadata.namespace");;
      pure_result (validateTarget r o);;
      let targetLabels := target_labels o in
      targetCount ← pure_result (plannedTargetCount o);
      (if discoverTargets then
         raise_if (negb (r_client r)) (Errorf "live target discovery is unavailable");;
         validateLiveTargets r (GetNamespace o) targetLabels targetCount
       else mret tt);;
      message ← (if r_serverSideDryRun r && r_client r then
                   wrap "chaos server-side dry-run failed" (call (KubeCreate gvr (GetNamespace o) o true no_manager));;
                   mret ("server-side dry-run validated " +:+ object_text o +:+ "; no chaos resource was created")
                 else mret ("validated " +:+ object_text o +:+ "; no chaos resource was created"));
      now ← ask Now;
      let duration := default 0 (ParseDuration (spec_string ["duration"] o)) in
      mret (zero_ChaosExperimentRun
        <| chaos_ID := "chaos-run-" +:+ Itoa (now - unix_epoch_seconds * Second) |>
        <| chaos_ExperimentID := experimentID |>
        <| chaos_Status := ChaosPreflightValidated |>
        <| chaos_Message := message |>
        <| chaos_Manifest := manifest |>
        <| chaos_Resource := mkResourceRef (GroupVersionString gvk) (gvk_Kind gvk) (GetNamespace o) (GetName o) |>
        <| chaos_TargetSelector := targetLabels |>
        <| chaos_TargetCount := targetCount |>
        <| chaos_DurationSeconds := whole_seconds duration |>
        <| chaos_CreatedAt := now |>
        <| chaos_UpdatedAt := now |>)
  end.

Definition Run_op (r : ChaosRunner) (experimentID manifest : string) : op Run := Preflight r experimentID manifest false.

(** The probe lists each allowed resource, in the order [resources] the map is visited. *)
Fixpoint discover (resources : list GroupVersionResource) : op unit :=
  match resources with
  | [] => mret tt
  | gvr :: rest =>
      wrap ("discover " +:+ gvr_Resource gvr) (call (KubeList gvr "" "" 1));;
      discover rest
  end.
Definition RunnerHealth (resources : list GroupVersionResource) (r : ChaosRunner) : op unit :=
  raise_if (negb (r_client r)) (Errorf "Kubernetes chaos client is unavailable");;
  discover resources.

Definition run_label : string := "security.kubeathrix.io/chaos-run".
Definition owner_label o : string := default "" (GetLabels o !! run_label).
Definition owned_labels (run : Run) (labels : gmap string string) : gmap string string :=
  <[run_label := chaos_ID run]> (<["app.kubernetes.io/managed-by" := "kubeathrix"]> labels).

Definition Start (r : ChaosRunner) (run : Run) : op unit :=
  o ← pure_result (decodeChaosObject (chaos_Manifest run));
  match allowed_resource (GetGVK o) with
  | None => raise (Errorf ("chaos kind " +:+ GVKString (GetGVK o) +:+ " is not allowlisted"))
  | Some gvr =>
      pure_result (validateTarget r o);;
      raise_if ((GetNamespace o != ref_Namespace (chaos_Resource run)) ||
                (GetName o != ref_Name (chaos_Resource run)) || (GetKind o != ref_Kind (chaos_Resource run)))
        (Errorf "persisted chaos resource identity does not match manifest");;
      validateLiveTargets r (ref_Namespace (chaos_Resource run)) (chaos_TargetSelector run) (chaos_TargetCount run);;
      let namespace := GetNamespace o in
      (if r_serverSideDryRun r then
         wrap "chaos server-side dry-run failed" (call (KubeCreate gvr namespace o true field_manager));; mret tt
       else mret tt);;
      let o := SetLabels (owned_labels run (GetLabels o)) o in
      created ← attempt (call (KubeCreate gvr namespace o false field_manager));
      match created with
      | Ok _ => mret tt
      | Err err =>
          if IsAlreadyExists err then
            existing ← wrap "create chaos resource" (call (KubeGet gvr namespace (GetName o)));
            raise_if (owner_label existing != chaos_ID run)
              (Errorf ("chaos resource " +:+ GetNamespace o +:+ "/" +:+ GetName o +:+
                       " already exists and is not owned by run " +:+ chaos_ID run))
          else raise (Contextf "create chaos resource" err)
      end
  end.

Definition resourceForRun (r : ChaosRunner) (run : Run) : result GroupVersionResource :=
  unless (r_client r) "Kubernetes chaos client is unavailable";;
  let ref := chaos_Resource run in
  '(group, version) ← with_context "invalid chaos resource apiVersion" (ParseGroupVersion (ref_APIVersion ref));
  match allowed_resource (mkGVK group version (ref_Kind ref)) with
  | Some gvr => Ok gvr
  | None => Err (Errorf ("chaos kind " +:+ ref_APIVersion ref +:+ "/" +:+ ref_Kind ref +:+ " is not allowlisted"))
  end.

Definition ownership_error (run : Run) : GoError :=
  Errorf ("chaos resource ownership label does not match run " +:+ chaos_ID run).

Definition Exists (r : ChaosRunner) (run : Run) : op bool :=
  gvr ← pure_result (resourceForRun r run);
  got ← attempt (call (KubeGet gvr (ref_Namespace (chaos_Resource run)) (ref_Name (chaos_Resource run))));
  match got with
  | Err err => if IsNotFound err then mret false else raise err
  | Ok o => raise_if (owner_label o != chaos_ID run) (ownership_error run);; mret true
  end.

Record ChaosObservation := mkChaosObservation {
  obs_AllInjected : bool;
  obs_Failed : bool;
  obs_Message : string
}.

(** The first loop of [Observe]: the first AllInjected condition that is true or gives a reason. *)
Fixpoint observe_conditions (conditions : list any) : option ChaosObservation :=
  match conditions with
  | [] => None
  | raw :: rest =>
      match as_map raw with
      | None => observe_conditions rest
      | Some condition =>
          if as_string (field "type" condition) != "AllInjected" then observe_conditions rest
          else
            let reason := as_string (field "reason" condition) in
            if as_string (field "status" condition) == "True" then
              Some (mkChaosObservation true false "Chaos Mesh reported AllInjected=True")
            else if TrimSpace reason != "" then
              Some (mkChaosObservation false false ("Chaos Mesh has not completed injection: " +:+ reason))
            else observe_conditions rest
      end
  end.

Definition failed_apply (raw : any) : option fields :=
  match as_map raw with
  | Some event => if equals_string (field "type" event) "Failed" && equals_string (field "operation" event) "Apply"
                  then Some event else None
  | None => None
  end.

(** The events of a record, the last first. *)
Fixpoint last_failure (events : list any) : option fields :=
  match events with
  | [] => None
  | raw :: rest => match failed_apply raw with Some event => Some event | None => last_failure rest end
  end.

Fixpoint observe_records (records : list any) : option ChaosObservation :=
  match records with
  | [] => None
  | raw :: rest =>
      match as_map raw with
      | None => observe_records rest
      | Some record =>
          match last_failure (rev (found_or [] (NestedSlice ["events"] record))) with
          | Some event =>
              let message := TrimSpace (as_string (field "message" event)) in
              let message := if 512 <? len message then string_take 512 message else message in
              Some (mkChaosObservation false true ("Chaos Mesh reported an injection failure: " +:+ message))
          | None => observe_records rest
          end
      end
  end.

(** A slice accessor whose type error is reported. *)
Definition slice_or_error (context : string) (r : result (option (list any))) : result (list any) :=
  o ← with_context context r; Ok (default [] o).

Definition observation o : result ChaosObservation :=
  conditions ← slice_or_error "read chaos status conditions" (NestedSlice ["status"; "conditions"] (Object o));
  match observe_conditions conditions with
  | Some observed => Ok observed
  | None =>
      records ← slice_or_error "read chaos experiment records"
        (NestedSlice ["status"; "experiment"; "containerRecords"] (Object o));
      Ok (default (mkChaosObservation false false "awaiting Chaos Mesh AllInjected=True status")
            (observe_records records))
  end.

Definition Observe (r : ChaosRunner) (run : Run) : op ChaosObservation :=
  gvr ← pure_result (resourceForRun r run);
  o ← call (KubeGet gvr (ref_Namespace (chaos_Resource run)) (ref_Name (chaos_Resource run)));
  raise_if (owner_label o != chaos_ID run) (ownership_error run);;
  pure_result (observation o).

Definition Delete (r : ChaosRunner) (run : Run) : op unit :=
  gvr ← pure_result (resourceForRun r run);
  deleted ← attempt (call (KubeDelete gvr (ref_Namespace (chaos_Resource run)) (ref_Name (chaos_Resource run))));
  match deleted with
  | Ok _ => mret tt
  | Err err => if IsNotFound err then mret tt else raise err
  end.

Definition VerifyRecovery (r : ChaosRunner) (run : Run) : op (bool * string) :=
  pods ← targetPods r (ref_Namespace (chaos_Resource run)) (chaos_TargetSelector run);
  let count := Z.of_nat (length pods) in
  if count <? chaos_TargetCount run then
    mret (false, "only " +:+ Itoa count +:+ " matching pods are present; expected at least " +:+
                 Itoa (chaos_TargetCount run))
  else match List.find (λ pod, negb (chaosTargetPodReady pod)) pods with
       | Some pod => mret (false, "pod " +:+ GetName pod +:+ " has not recovered to Running and Ready")
       | None => mret (true, Itoa count +:+ " matching pods are Running and Ready after cleanup")
       end.

End Runner.

(** * The manager *)

Definition chaosApprovalTTL : Duration := 15 * Minute.
Definition chaosInjectionWindow : Duration := 30 * Second.
Definition chaosCleanupGrace : Duration := 30 * Second.
Definition chaosRecoveryWindow : Duration := 2 * Minute.
Definition chaosMaxAttempts : Z := 3.

Definition chaosActive (status : string) : bool :=
  in_list status [ChaosExecutionRequested; ChaosRunning; ChaosCleanupRequested; ChaosAbortRequested; ChaosVerifying].

Definition abortable (status : string) : bool :=
  in_list status [ChaosPendingApproval; ChaosApproved; ChaosExecutionRequested; ChaosRunning;
                  ChaosCleanupRequested; ChaosVerifying].

Record ChaosManager := mkChaosManager {
  m_runner : option ChaosRunner;
  m_executionEnabled : bool
}.

(** [deadline != nil && !now.Before( *deadline)] *)
Definition passed (deadline : option Time) (now : Time) : bool :=
  match deadline with Some t => negb (Before now t) | None => false end.

(** [time.Duration(run.DurationSeconds)*time.Second] *)
Definition run_duration (run : Run) : Duration := wrap64 (chaos_DurationSeconds run * Second).

Section Manager.
Context `{K : Kubernetes}.
Variable m : ChaosManager.

Abbreviation op A := (P (ChaosE K) A).

Definition Save (run : Run) (actor action : string) : op Run :=
  call (RepoUpdate run (chaos_Version run) actor action).

(** A method call on the runner: on a nil pointer its first field access panics. *)
Definition runner : op ChaosRunner :=
  match m_runner m with Some r => mret r | None => raise (Panic "nil pointer dereference") end.

Definition Request (experimentID manifest actor : string) : op Run :=
  match m_runner m with
  | None => raise (Errorf "chaos runner is unavailable")
  | Some r =>
      run ← Preflight r experimentID manifest (m_executionEnabled m);
      now ← ask Now;
      uuid ← ask NewUUID;
      let run := run <| chaos_ID := "chaos-run-" +:+ uuid |> <| chaos_RequestedBy := actor |>
                     <| chaos_CreatedAt := now |> <| chaos_UpdatedAt := now |> in
      let '(run, action) :=
        if m_executionEnabled m then
          (run <| chaos_Status := ChaosPendingApproval |>
               <| chaos_Message := "bounded preflight passed; explicit approval by a different principal is required before execution" |>
               <| chaos_ApprovalExpiresAt := Some (Add now chaosApprovalTTL) |>,
           "chaos.approval.requested")
        else (run, "chaos.preflight.validated") in
      call (RepoCreate run actor action)
  end.

Definition ManagerHealth (resources : list GroupVersionResource) : op unit :=
  if negb (m_executionEnabled m) then mret tt
  else match m_runner m with
       | None => raise (Errorf "chaos runner is unavailable")
       | Some r => RunnerHealth resources r
       end.

Definition TargetNamespace (manifest : string) : result string :=
  o ← decodeChaosObject manifest;
  unless (GetNamespace o != "") "chaos manifest must declare metadata.namespace";;
  Ok (GetNamespace o).

Definition expire (run : Run) : op Run :=
  now ← ask Now;
  Save (run <| chaos_Status := ChaosExpired |> <| chaos_Message := "chaos approval expired; no resource was created" |>
            <| chaos_UpdatedAt := now |> <| chaos_FinishedAt := Some now |>) "system" "chaos.approval.expired".

(** The expiry test of the decision handlers: an expired request is recorded as such and refused. The
    clock is read only when the request has a deadline. *)
Definition refuse_expired (run : Run) (message : string) : op unit :=
  match chaos_ApprovalExpiresAt run with
  | None => mret tt
  | Some deadline =>
      now ← ask Now;
      if negb (Before now deadline) then expire run;; raise (Wrapf ErrConflict message)
      else mret tt
  end.

Definition status_error (run : Run) (suffix : string) : GoError :=
  Wrapf ErrConflict ("chaos run is " +:+ chaos_Status run +:+ suffix).

Definition Approve (id actor reason : string) : op Run :=
  let reason := TrimSpace reason in
  raise_if (reason == "") (invalid "approval reason is required");;
  run ← call (RepoGet id);
  raise_if (chaos_Status run != ChaosPendingApproval) (status_error run ", not pending approval");;
  refuse_expired run "chaos approval expired";;
  raise_if (actor == chaos_RequestedBy run) (invalid "requester cannot approve their own chaos run");;
  now ← ask Now;
  Save (run <| chaos_Status := ChaosApproved |> <| chaos_ApprovedBy := actor |> <| chaos_ApprovalReason := reason |>
            <| chaos_Message := "chaos run approved; execution remains a separate explicit request" |>
            <| chaos_UpdatedAt := now |>) actor "chaos.approved".

Definition Reject (id actor reason : string) : op Run :=
  let reason := TrimSpace reason in
  raise_if (reason == "") (invalid "rejection reason is required");;
  run ← call (RepoGet id);
  raise_if (chaos_Status run != ChaosPendingApproval) (status_error run ", not pending approval");;
  refuse_expired run "chaos approval expired";;
  raise_if (actor == chaos_RequestedBy run) (invalid "requester cannot reject their own chaos run");;
  now ← ask Now;
  Save (run <| chaos_Status := ChaosRejected |> <| chaos_ApprovedBy := actor |> <| chaos_ApprovalReason := reason |>
            <| chaos_Message := "chaos run rejected; no resource was created" |>
            <| chaos_UpdatedAt := now |> <| chaos_FinishedAt := Some now |>) actor "chaos.rejected".

(** * Reconciliation: one pass over a run *)

Definition recovery_after (now : Time) : option Time := Some (Add now chaosRecoveryWindow).

(** The resource vanished: verify that the target recovered. *)
Definition reconcile_vanished (run : Run) (now : Time) (reason message : string) : op unit :=
  Save (run <| chaos_Status := ChaosVerifying |> <| chaos_FailureReason := reason |> <| chaos_Message := message |>
            <| chaos_RecoveryDeadline := recovery_after now |> <| chaos_UpdatedAt := now |>)
    "system" "chaos.recovery.requested";;
  mret tt.

Definition reconcile_create (r : ChaosRunner) (run : Run) (now : Time) : op unit :=
  started ← attempt (Start r run);
  match started with
  | Err err =>
      let run := run <| chaos_AttemptCount := wrap64 (chaos_AttemptCount run + 1) |> in
      let run := run <| chaos_Message := "chaos creation attempt " +:+ Itoa (chaos_AttemptCount run) +:+
                                         " failed: " +:+ error_text err |>
                     <| chaos_UpdatedAt := now |> in
      (if chaosMaxAttempts <=? chaos_AttemptCount run then
         Save (run <| chaos_Status := ChaosFailed |> <| chaos_FinishedAt := Some now |>) "system" "chaos.failed"
       else Save run "system" "chaos.execution.retry");;
      mret tt
  | Ok _ =>
      Save (run <| chaos_Message := "Kubernetes acknowledged the owned chaos resource; awaiting Chaos Mesh AllInjected=True" |>
                <| chaos_InjectionDeadline := Some (Add now chaosInjectionWindow) |> <| chaos_UpdatedAt := now |>)
        "system" "chaos.resource.created";;
      mret tt
  end.

(** The resource exists and has an injection deadline: wait, give up, or start the bounded execution. *)
Definition reconcile_injection (run : Run) (deadline now : Time) (observed : ChaosObservation) : op unit :=
  if negb (obs_AllInjected observed) then
    if Before now deadline then
      if (obs_Message observed != "") && (obs_Message observed != chaos_Message run) then
        Save (run <| chaos_Message := obs_Message observed |> <| chaos_UpdatedAt := now |>)
          "system" "chaos.injection.pending";;
        mret tt
      else mret tt
    else
      let cleanup := Add now chaosCleanupGrace in
      let failureReason := if obs_Failed observed && (obs_Message observed != "") then obs_Message observed
        else "Chaos Mesh did not report AllInjected=True before the injection deadline" in
      Save (run <| chaos_Status := ChaosCleanupRequested |> <| chaos_FailureReason := failureReason |>
                <| chaos_Message := failureReason +:+ "; cleanup requested" |>
                <| chaos_CleanupDeadline := Some cleanup |> <| chaos_RecoveryDeadline := recovery_after cleanup |>
                <| chaos_UpdatedAt := now |>) "system" "chaos.cleanup.requested";;
      mret tt
  else
    let cleanup := Add now (wrap64 (run_duration run + chaosCleanupGrace)) in
    Save (run <| chaos_Status := ChaosRunning |>
              <| chaos_Message := obs_Message observed +:+ "; bounded execution is running" |>
              <| chaos_StartedAt := Some now |> <| chaos_CleanupDeadline := Some cleanup |>
              <| chaos_RecoveryDeadline := recovery_after cleanup |> <| chaos_UpdatedAt := now |>)
      "system" "chaos.execution.started";;
    mret tt.

Definition reconcile_requested (run : Run) (now : Time) : op unit :=
  r ← runner;
  exists_ ← Exists r run;
  match exists_, chaos_InjectionDeadline run with
  | false, Some _ =>
      reconcile_vanished run now "owned chaos resource disappeared before injection was proven"
        "chaos resource disappeared before AllInjected=True; verifying target recovery"
  | false, None => reconcile_create r run now
  | true, None =>
      Save (run <| chaos_Message := "recovered an owned chaos resource after restart; awaiting Chaos Mesh AllInjected=True" |>
                <| chaos_InjectionDeadline := Some (Add now chaosInjectionWindow) |> <| chaos_UpdatedAt := now |>)
        "system" "chaos.resource.recovered";;
      mret tt
  | true, Some deadline => observed ← Observe r run; reconcile_injection run deadline now observed
  end.

Definition reconcile_cleanup (run : Run) (now : Time) : op unit :=
  r ← runner;
  Delete r run;;
  exists_ ← Exists r run;
  if (exists_ : bool) then mret tt
  else
    Save (run <| chaos_Status := ChaosVerifying |>
              <| chaos_Message := "owned chaos resource deleted; verifying workload recovery" |>
              <| chaos_UpdatedAt := now |>) "system" "chaos.cleanup.completed";;
    mret tt.

Definition reconcile_running (run : Run) (now : Time) : op unit :=
  match chaos_StartedAt run with
  | None =>
      Save (run <| chaos_Status := ChaosFailed |>
                <| chaos_Message := "running chaos record has no acknowledged start time" |>
                <| chaos_UpdatedAt := now |> <| chaos_FinishedAt := Some now |>) "system" "chaos.failed";;
      mret tt
  | Some startedAt =>
      r ← runner;
      exists_ ← Exists r run;
      let executionEnd := Add startedAt (run_duration run) in
      if exists_ && Before now executionEnd then mret tt
      else if negb exists_ && Before now executionEnd then
        reconcile_vanished run now "owned chaos resource disappeared before the bounded duration elapsed"
          "chaos resource disappeared early; verifying target recovery"
      else
        run ← Save (run <| chaos_Status := ChaosCleanupRequested |>
                        <| chaos_Message := "execution duration elapsed; cleanup requested" |>
                        <| chaos_UpdatedAt := now |>) "system" "chaos.cleanup.requested";
        reconcile_cleanup run now
  end.

(** The end of a run: target healthy, or the recovery window over. *)
Definition finished (run : Run) (status recovery recoveryMessage message : string) (now : Time) : Run :=
  run <| chaos_Status := status |> <| chaos_RecoveryStatus := recovery |>
      <| chaos_RecoveryMessage := recoveryMessage |> <| chaos_Message := message |>
      <| chaos_UpdatedAt := now |> <| chaos_FinishedAt := Some now |>.

Definition reconcile_abort (run : Run) (now : Time) : op unit :=
  r ← runner;
  Delete r run;;
  exists_ ← Exists r run;
  if (exists_ : bool) then mret tt
  else
    '(healthy, message) ← VerifyRecovery r run;
    if (healthy : bool) then
      Save (finished run ChaosAborted "healthy" message
              "chaos run aborted; resource deletion and target recovery were verified" now)
        (chaos_AbortedBy run) "chaos.aborted";;
      mret tt
    else if passed (chaos_RecoveryDeadline run) now then
      Save (finished run ChaosFailed "unhealthy" message
              "abort cleanup completed but target recovery timed out" now)
        (chaos_AbortedBy run) "chaos.failed";;
      mret tt
    else mret tt.

Definition reconcile_verifying (run : Run) (now : Time) : op unit :=
  r ← runner;
  exists_ ← Exists r run;
  if (exists_ : bool) then
    if passed (chaos_CleanupDeadline run) now then Delete r run else mret tt
  else
    '(healthy, message) ← VerifyRecovery r run;
    if (healthy : bool) then
      (if chaos_FailureReason run != "" then
         Save (finished run ChaosFailed "healthy" message
                 (chaos_FailureReason run +:+ "; resource cleanup and target recovery were verified") now)
           "system" "chaos.failed"
       else
         Save (finished run ChaosSucceeded "healthy" message
                 "chaos resource cleaned up and target recovery was verified" now) "system" "chaos.succeeded");;
      mret tt
    else if passed (chaos_RecoveryDeadline run) now then
      Save (finished run ChaosFailed "unhealthy" message "target recovery verification timed out" now)
        "system" "chaos.failed";;
      mret tt
    else mret tt.

Definition reconcileOne (run : Run) : op unit :=
  now ← ask Now;
  if (chaos_Status run == ChaosPendingApproval) && passed (chaos_ApprovalExpiresAt run) now then expire run;; mret tt
  else if chaos_Status run == ChaosExecutionRequested then reconcile_requested run now
  else if chaos_Status run == ChaosRunning then reconcile_running run now
  else if chaos_Status run == ChaosCleanupRequested then reconcile_cleanup run now
  else if chaos_Status run == ChaosAbortRequested then reconcile_abort run now
  else if chaos_Status run == ChaosVerifying then reconcile_verifying run now
  else mret tt.

(** * The handlers that reconcile at once *)

Definition Execute (id actor : string) : op Run :=
  raise_if (negb (m_executionEnabled m)) (invalid "chaos execution is disabled");;
  run ← call (RepoGet id);
  raise_if (chaos_Status run != ChaosApproved) (status_error run ", not approved");;
  refuse_expired run "approved chaos run expired before execution";;
  now ← ask Now;
  run ← Save (run <| chaos_Status := ChaosExecutionRequested |>
                  <| chaos_Message := "chaos execution requested; Kubernetes creation has not yet been acknowledged" |>
                  <| chaos_UpdatedAt := now |>) actor "chaos.execution.requested";
  reconcileOne run;;
  call (RepoGet id).

Definition Abort (id actor reason : string) : op Run :=
  let reason := TrimSpace reason in
  raise_if (reason == "") (invalid "abort reason is required");;
  run ← call (RepoGet id);
  raise_if (negb (abortable (chaos_Status run)))
    (Wrapf ErrConflict ("chaos run in state " +:+ chaos_Status run +:+ " cannot be aborted"));;
  now ← ask Now;
  if (chaos_Status run == ChaosPendingApproval) || (chaos_Status run == ChaosApproved) then
    Save (run <| chaos_Status := ChaosAborted |> <| chaos_AbortedBy := actor |>
              <| chaos_Message := "approved chaos run aborted before resource creation: " +:+ reason |>
              <| chaos_UpdatedAt := now |> <| chaos_FinishedAt := Some now |>) actor "chaos.aborted"
  else
    run ← Save (run <| chaos_Status := ChaosAbortRequested |> <| chaos_AbortedBy := actor |>
                    <| chaos_Message := "chaos abort requested; deleting the owned resource: " +:+ reason |>
                    <| chaos_UpdatedAt := now |>
                    <| chaos_RecoveryDeadline := Some (Add now (chaosCleanupGrace + chaosRecoveryWindow)) |>)
            actor "chaos.abort.requested";
    reconcileOne run;;
    call (RepoGet id).

Definition Get (id : string) : op Run :=
  run ← call (RepoGet id);
  if chaosActive (chaos_Status run) || (chaos_Status run == ChaosPendingApproval) then
    reconcileOne run;;
    call (RepoGet id)
  else mret run.

Definition List : op (list Run) := call RepoList.

(** One tick of the background reconciler: failures are logged and the loop goes on; a
    panic is not recovered. *)
Fixpoint reconcile_runs (runs : list Run) : op unit :=
  match runs with
  | [] => mret tt
  | run :: rest =>
      if negb (chaosActive (chaos_Status run)) && (chaos_Status run != ChaosPendingApproval)
      then reconcile_runs rest
      else
        attempt (reconcileOne run);; reconcile_runs rest
  end.

Definition reconcileAll : op unit :=
  runs ← attempt (call RepoList);
  match runs with
  | Ok runs => reconcile_runs runs
  | Err _ => mret tt
  end.

End Manager.
