(* ===== verification/ChaosRepository.v ===== *)
(** What the chaos manager relies on in its repository: runs are kept under their identifiers, and an
    update succeeds only against the version stored, which it increments. The in-memory store
    implements it; the rest of the repository interface leaves the chaos runs alone. *)
From S2P Require Import Prelude GoLib Core Store StoreProps StoreTrace.

Local Open Scope Z_scope.

Class ChaosRepository (S : Type) := {
  repo_get : Context → string → M S ChaosExperimentRun;
  repo_list : Context → M S (list ChaosExperimentRun);
  repo_create : Context → ChaosExperimentRun → string → string → M S ChaosExperimentRun;
  repo_update : Context → ChaosExperimentRun → Z → string → string → M S ChaosExperimentRun;
  (** the other users of the same repository *)
  repo_other : S → S → Prop;
  (** the runs stored, and the states a repository can be in *)
  runs_of : S → gmap string ChaosExperimentRun;
  repo_inv : S → Prop
}.

Class ChaosRepositoryLaws {S : Type} (R : ChaosRepository S) : Prop := {
  repo_keys s id run : repo_inv s → runs_of s !! id = Some run → chaos_ID run = id;
  repo_get_spec ctx id s r s' :
    repo_inv s → repo_get ctx id s = (r, s') →
    s' = s ∧ ∀ run, r = Ok run → runs_of s !! id = Some run;
  repo_list_spec ctx s r s' :
    repo_inv s → repo_list ctx s = (r, s') →
    s' = s ∧ ∀ runs, r = Ok runs → ∀ run, run ∈ runs → runs_of s !! chaos_ID run = Some run;
  repo_create_spec ctx run actor action s r s' :
    repo_inv s → repo_create ctx run actor action s = (r, s') →
    repo_inv s' ∧
    match r with
    | Ok run' => chaos_Version run = 0 ∧ runs_of s !! chaos_ID run = None ∧
                 run' = run <| chaos_Version := 1 |> ∧
                 runs_of s' = <[chaos_ID run := run']> (runs_of s)
    | Err _ => runs_of s' = runs_of s
    end;
  repo_update_spec ctx run version actor action s r s' :
    repo_inv s → repo_update ctx run version actor action s = (r, s') →
    repo_inv s' ∧
    match r with
    | Ok run' => chaos_Version run = version ∧
                 (∃ stored, runs_of s !! chaos_ID run = Some stored ∧ chaos_Version stored = version) ∧
                 run' = run <| chaos_Version := version + 1 |> ∧
                 runs_of s' = <[chaos_ID run := run']> (runs_of s)
    | Err _ => runs_of s' = runs_of s
    end;
  repo_other_spec s s' : repo_inv s → repo_other s s' → repo_inv s' ∧ runs_of s' = runs_of s
}.

Section MemoryStoreChaos.
Context `{RangeOrder}.

(** A call of the repository interface that is not a write of the chaos manager. *)
Definition other_call (call : StoreCall) : bool :=
  match call with
  | CallCreateChaosRun _ _ _ | CallUpdateChaosRun _ _ _ _ => false
  | _ => true
  end.

#[export] Instance MemoryStore_chaos : ChaosRepository MemoryStore := {
  repo_get := GetChaosRun;
  repo_list := ListChaosRuns;
  repo_create := CreateChaosRun;
  repo_update := UpdateChaosRun;
  repo_other s s' := ∃ ctx now call r, other_call call = true ∧ perform ctx now call s = (r, s');
  runs_of := ms_chaosRuns;
  repo_inv := store_inv
}.

#[export] Instance stable_chaos_runs (runs : gmap string ChaosExperimentRun) :
  Stable True True False (λ s, ms_chaosRuns s = runs).
Proof. by split. Qed.

Lemma other_call_runs ctx now call s :
  store_inv s → other_call call = true → ms_chaosRuns (perform ctx now call s).2 = ms_chaosRuns s.
Proof.
  intros Hinv Hcall.
  apply (stable_perform (decisions := True) (reuse := True) (chaos := False) (P := λ s', ms_chaosRuns s' = ms_chaosRuns s));
    [done| |done].
  destruct call; cbn in *; auto; done.
Qed.

Lemma chaos_audit_runs run actor action s :
  ms_chaosRuns (appendChaosAuditLocked run actor action s) = ms_chaosRuns s.
Proof. unfold appendChaosAuditLocked. by case_match. Qed.

#[export] Instance MemoryStore_chaos_laws : ChaosRepositoryLaws MemoryStore_chaos.
Proof.
  split; cbn [repo_get repo_list repo_create repo_update repo_other runs_of repo_inv MemoryStore_chaos].
  - intros s id run Hinv Hid. by apply (inv_chaosRuns _ Hinv).
  - intros ctx id s r s' Hinv Hrun. unfold GetChaosRun in Hrun. run_hyp Hrun; naive_solver.
  - intros ctx s r s' Hinv Hrun. unfold ListChaosRuns in Hrun. run_hyp Hrun; [naive_solver|].
    split; [done|]. intros runs [= <-] run Hin. apply elem_of_sort_slice, elem_of_range_snd in Hin as [k Hk].
    by rewrite (proj1 (inv_chaosRuns _ Hinv _ _ Hk)).
  - intros ctx run actor action s r s' Hinv Hrun. split.
    + exact (inv_after _ _ _ _ (inv_CreateChaosRun ctx run actor action) Hrun Hinv).
    + unfold CreateChaosRun in Hrun. run_hyp Hrun; rewrite ?chaos_audit_runs; try done.
      split; [done|]. split; [|done]. apply eq_None_not_Some. by eapply bool_decide_eq_false_1.
  - intros ctx run version actor action s r s' Hinv Hrun. split.
    + exact (inv_after _ _ _ _ (inv_UpdateChaosRun ctx run version actor action) Hrun Hinv).
    + unfold UpdateChaosRun in Hrun. run_hyp Hrun; rewrite ?chaos_audit_runs; try done.
      subst. split; [done|]. split; [by eexists | by rewrite <- H1].
  - intros s s' Hinv (ctx & now & call & r & Hcall & Hrun).
    pose proof (inv_perform ctx now call s Hinv) as Hinv'. pose proof (other_call_runs ctx now call s Hinv Hcall) as Hr.
    by rewrite Hrun in Hinv', Hr.
Qed.

End MemoryStoreChaos.
