(* ===== verification/ChaosRefinement.v ===== *)
(** The in-memory store refines a table of versioned runs: what the chaos manager sees of the store, with
    every other user of the store calling in between, is what an abstract table answers that knows
    nothing of findings, plans, approvals, providers or audit events. *)
From S2P Require Import Prelude GoLib Core Store StoreProps StoreTrace ChaosRepository.

Local Open Scope Z_scope.

(** The calls of the chaos manager on its repository. *)
Inductive RepositoryCall :=
| RepositoryGet (id : string)
| RepositoryList
| RepositoryCreate (run : ChaosExperimentRun)
| RepositoryUpdate (run : ChaosExperimentRun) (expectedVersion : Z).

Definition answer := result (list ChaosExperimentRun).
Definition table := gmap string ChaosExperimentRun.

Definition newest_first (x y : ChaosExperimentRun) : Prop := After (chaos_CreatedAt y) (chaos_CreatedAt x) = false.

(** * The abstract table *)

(** [answers ctx runs call a runs']: asked [call], a table with [runs] answers [a] and goes to [runs']. *)
Inductive answers : Context → table → RepositoryCall → answer → table → Prop :=
| answers_cancelled err runs call : answers (Some err) runs call (Err err) runs
| answers_get id run runs : runs !! id = Some run → answers None runs (RepositoryGet id) (Ok [run]) runs
| answers_get_missing id runs : runs !! id = None → answers None runs (RepositoryGet id) (Err ErrNotFound) runs
| answers_list l runs :
    l ≡ₚ (map_to_list runs).*2 → StronglySorted newest_first l →
    answers None runs RepositoryList (Ok l) runs
| answers_create run runs :
    chaos_ID run ≠ "" → chaos_Version run = 0 → runs !! chaos_ID run = None →
    let stored := run <| chaos_Version := 1 |> in
    answers None runs (RepositoryCreate run) (Ok [stored]) (<[chaos_ID run := stored]> runs)
| answers_create_taken run runs :
    chaos_ID run ≠ "" → chaos_Version run = 0 → is_Some (runs !! chaos_ID run) →
    answers None runs (RepositoryCreate run) (Err ErrConflict) runs
| answers_create_invalid run runs :
    chaos_ID run = "" ∨ chaos_Version run ≠ 0 →
    answers None runs (RepositoryCreate run) (Err (invalid "new chaos run must have an id and version zero")) runs
| answers_update run current version runs :
    runs !! chaos_ID run = Some current → chaos_Version current = version → chaos_Version run = version →
    let stored := run <| chaos_Version := version + 1 |> in
    answers None runs (RepositoryUpdate run version) (Ok [stored]) (<[chaos_ID run := stored]> runs)
| answers_update_missing run version runs :
    runs !! chaos_ID run = None → answers None runs (RepositoryUpdate run version) (Err ErrNotFound) runs
| answers_update_stale run current version runs :
    runs !! chaos_ID run = Some current → chaos_Version current ≠ version ∨ chaos_Version run ≠ version →
    answers None runs (RepositoryUpdate run version) (Err ErrConflict) runs.

(** A conversation of the chaos manager with the table. *)
Inductive conversation : table → list (Context * RepositoryCall * answer) → table → Prop :=
| conversation_end runs : conversation runs [] runs
| conversation_call ctx runs call a runs1 rest runs2 :
    answers ctx runs call a runs1 → conversation runs1 rest runs2 →
    conversation runs ((ctx, call, a) :: rest) runs2.

(** * The store *)

Section Refinement.
Context `{RangeOrder}.

Definition repository_call (call : StoreCall) : option RepositoryCall :=
  match call with
  | CallGetChaosRun id => Some (RepositoryGet id)
  | CallListChaosRuns => Some RepositoryList
  | CallCreateChaosRun run _ _ => Some (RepositoryCreate run)
  | CallUpdateChaosRun run version _ _ => Some (RepositoryUpdate run version)
  | _ => None
  end.

(** What the store answers to a call of the chaos manager. *)
Definition answer_of (ctx : Context) (call : StoreCall) (s : MemoryStore) : answer :=
  match call with
  | CallGetChaosRun id => (run ← GetChaosRun ctx id; mret [run]) s
  | CallListChaosRuns => ListChaosRuns ctx s
  | CallCreateChaosRun run actor action => (run' ← CreateChaosRun ctx run actor action; mret [run']) s
  | CallUpdateChaosRun run version actor action => (run' ← UpdateChaosRun ctx run version actor action; mret [run']) s
  | _ => (mret [], s)
  end.1.

(** The calls of all users, in the order the lock of the store lets them in, and what the chaos manager
    sees of them. *)
Fixpoint observe (calls : list (Context * Time * StoreCall)) (s : MemoryStore) :
    list (Context * RepositoryCall * answer) * MemoryStore :=
  match calls with
  | [] => ([], s)
  | (ctx, now, call) :: rest =>
      let '(seen, s') := observe rest (perform ctx now call s).2 in
      (match repository_call call with Some c => (ctx, c, answer_of ctx call s) :: seen | None => seen end, s')
  end.

Lemma run_then_snd {A} (m : M MemoryStore A) s : ((m;; mret tt) s).2 = (m s).2.
Proof. unfold mbind, M_bind. destruct (m s) as [[a|e] s']; reflexivity. Qed.
Lemma run_one_fst (m : M MemoryStore ChaosExperimentRun) s :
  ((run ← m; mret [run]) s).1 = match (m s).1 with Ok run => Ok [run] | Err e => Err e end.
Proof. unfold mbind, M_bind. destruct (m s) as [[a|e] s']; reflexivity. Qed.

#[export] Instance newest_first_order : StrictWeakOrder (λ x y, After (chaos_CreatedAt x) (chaos_CreatedAt y)).
Proof. split; intros *; unfold After; rewrite ?Z.ltb_lt, ?Z.ltb_ge; lia. Qed.

Lemma create_answers ctx run actor action s :
  answers ctx (ms_chaosRuns s) (RepositoryCreate run)
    (match (CreateChaosRun ctx run actor action s).1 with Ok run' => Ok [run'] | Err e => Err e end)
    (ms_chaosRuns (CreateChaosRun ctx run actor action s).2).
Proof.
  unfold CreateChaosRun. rewrite run_bind_check. destruct ctx as [err|]; [apply answers_cancelled|].
  rewrite run_bind_reject. destruct (_ || _) eqn:Hnew.
  { apply answers_create_invalid. apply orb_true_iff in Hnew as [Hnew|Hnew]; split_guards; [by left | by right]. }
  split_guards. rewrite run_bind_get, run_bind_reject. case_bool_decide as Hid; [by apply answers_create_taken|].
  rewrite !run_bind_modify, run_ret. cbn [fst snd]. rewrite chaos_audit_runs.
  apply answers_create; [done..|]. by apply eq_None_not_Some.
Qed.

Lemma update_answers ctx run version actor action s :
  answers ctx (ms_chaosRuns s) (RepositoryUpdate run version)
    (match (UpdateChaosRun ctx run version actor action s).1 with Ok run' => Ok [run'] | Err e => Err e end)
    (ms_chaosRuns (UpdateChaosRun ctx run version actor action s).2).
Proof.
  unfold UpdateChaosRun. rewrite run_bind_check. destruct ctx as [err|]; [apply answers_cancelled|].
  rewrite run_bind_get, run_bind_lookup.
  destruct (ms_chaosRuns s !! chaos_ID run) as [current|] eqn:Hid; [|by apply answers_update_missing].
  rewrite run_bind_reject. destruct (_ || _) eqn:Hversion.
  { apply (answers_update_stale _ current); [done|].
    apply orb_true_iff in Hversion as [Hversion|Hversion]; split_guards; [by left | by right]. }
  split_guards. rewrite !run_bind_modify, run_ret. cbn [fst snd]. rewrite chaos_audit_runs.
  by match goal with Hv : chaos_Version run = _ |- _ => rewrite Hv; apply (answers_update run current) end.
Qed.

Lemma get_answers ctx id s :
  answers ctx (ms_chaosRuns s) (RepositoryGet id)
    (match (GetChaosRun ctx id s).1 with Ok run' => Ok [run'] | Err e => Err e end) (ms_chaosRuns (GetChaosRun ctx id s).2).
Proof.
  unfold GetChaosRun. rewrite run_bind_check. destruct ctx as [err|]; [apply answers_cancelled|].
  rewrite run_bind_get, run_lookup_last.
  destruct (ms_chaosRuns s !! id) as [run|] eqn:Hid; [by apply answers_get | by apply answers_get_missing].
Qed.

Lemma list_answers ctx s :
  answers ctx (ms_chaosRuns s) RepositoryList (ListChaosRuns ctx s).1 (ms_chaosRuns (ListChaosRuns ctx s).2).
Proof.
  unfold ListChaosRuns. rewrite run_bind_check. destruct ctx as [err|]; [apply answers_cancelled|].
  rewrite run_bind_get, run_ret. cbn [fst snd]. apply answers_list.
  - etransitivity; [apply sort_slice_perm | apply fmap_Permutation, range_perm].
  - apply (sort_slice_sorted (λ x y, After (chaos_CreatedAt x) (chaos_CreatedAt y))).
Qed.

Lemma repository_step ctx now call c s :
  repository_call call = Some c →
  answers ctx (ms_chaosRuns s) c (answer_of ctx call s) (ms_chaosRuns (perform ctx now call s).2).
Proof.
  destruct call; intros [= <-]; unfold answer_of, perform; rewrite run_then_snd, ?run_one_fst.
  - apply create_answers.
  - apply get_answers.
  - apply list_answers.
  - apply update_answers.
Qed.

(** The calls of the others are silent steps of the table. *)
Lemma repository_stutter ctx now call s :
  store_inv s → repository_call call = None → ms_chaosRuns (perform ctx now call s).2 = ms_chaosRuns s.
Proof. intros Hinv Hcall. apply other_call_runs; [done|]. by destruct call. Qed.

Lemma observe_conversation calls : ∀ s, store_inv s →
  let '(seen, s') := observe calls s in conversation (ms_chaosRuns s) seen (ms_chaosRuns s').
Proof.
  induction calls as [|[[ctx now] call] rest IH]; intros s Hinv; cbn [observe]; [constructor|].
  specialize (IH (perform ctx now call s).2 (inv_perform ctx now call s Hinv)).
  destruct (observe rest _) as [seen s']. destruct (repository_call call) as [c|] eqn:Hcall.
  - econstructor; [by apply repository_step | done].
  - by rewrite repository_stutter in IH.
Qed.

Lemma init_runs integrations findings :
  ms_chaosRuns (NewMemoryStore [WithIntegrations integrations; WithFindings findings]) = ∅.
Proof.
  unfold NewMemoryStore, WithFindings. cbn [foldl].
  apply (foldl_invariant (λ s, ms_chaosRuns s = ∅)); [done|]. by intros.
Qed.

(** C37. The in-memory store implements the table of versioned runs: whatever calls all users of a store
    make, in whatever order its lock lets them in, the answers the chaos manager gets are those of the
    table, started empty, to the manager's calls alone, and the runs stored at the end are the table's.
    No other call creates, changes or removes a run, no answer depends on one. *)
Theorem store_refines_table integrations findings calls :
  let '(seen, s') := observe calls (NewMemoryStore [WithIntegrations integrations; WithFindings findings]) in
  conversation ∅ seen (ms_chaosRuns s').
Proof.
  pose proof (observe_conversation calls _ (inv_init integrations findings)) as Hconv.
  destruct (observe calls _) as [seen s']. by rewrite init_runs in Hconv.
Qed.
End Refinement.
