(* ===== verification/ChaosProps.v ===== *)
(** The chaos manager's protocol, checked handler by handler and concluded for every concurrent
    execution of handlers and reconcilers over one repository: the transitions of a run, the approval by
    a second person before anything is created, the ownership and the bounds of what is created, and
    the recovery checks before success is recorded. *)
From S2P Require Import Prelude GoLib GoDuration Json Core Kube Interaction Store StoreProps ChaosRepository Chaos.

Local Open Scope Z_scope.

(** * The life cycle of a run *)

(** One goal per member of a listed set of strings. *)
Ltac each_in H :=
  unfold in_list in H; cbn [existsb] in H;
  repeat (apply orb_true_iff in H as [H|H]); [apply String.eqb_eq in H.. | discriminate H].

Definition chaos_steps : list (string * list string) := [
  (ChaosPendingApproval, [ChaosApproved; ChaosRejected; ChaosExpired; ChaosAborted]);
  (ChaosApproved, [ChaosExecutionRequested; ChaosExpired; ChaosAborted]);
  (ChaosExecutionRequested, [ChaosExecutionRequested; ChaosRunning; ChaosCleanupRequested; ChaosVerifying;
                             ChaosFailed; ChaosAbortRequested]);
  (ChaosRunning, [ChaosCleanupRequested; ChaosVerifying; ChaosFailed; ChaosAbortRequested]);
  (ChaosCleanupRequested, [ChaosVerifying; ChaosAbortRequested]);
  (ChaosAbortRequested, [ChaosAborted; ChaosFailed]);
  (ChaosVerifying, [ChaosSucceeded; ChaosFailed; ChaosAbortRequested])].

Definition may_follow (old new : string) : bool :=
  existsb (λ kv, (kv.1 == old) && in_list new kv.2) chaos_steps.

(** The states in which a run has ended. *)
Definition ended (status : string) : bool :=
  in_list status [ChaosPreflightValidated; ChaosSucceeded; ChaosFailed; ChaosRejected; ChaosAborted; ChaosExpired].
(** The states after a decision that lead to, or follow, the creation of a resource. *)
Definition under_execution (status : string) : bool := chaosActive status || (status == ChaosSucceeded).

(** What no update changes: what the requester asked for and the approver saw. *)
Record same_request (old new : Run) : Prop := {
  same_ID : chaos_ID new = chaos_ID old;
  same_experiment : chaos_ExperimentID new = chaos_ExperimentID old;
  same_manifest : chaos_Manifest new = chaos_Manifest old;
  same_resource : chaos_Resource new = chaos_Resource old;
  same_selector : chaos_TargetSelector new = chaos_TargetSelector old;
  same_count : chaos_TargetCount new = chaos_TargetCount old;
  same_duration : chaos_DurationSeconds new = chaos_DurationSeconds old;
  same_requester : chaos_RequestedBy new = chaos_RequestedBy old;
  same_created : chaos_CreatedAt new = chaos_CreatedAt old
}.

(** An update of [old] to [new] by [actor], recorded as [action]. *)
Record transition (actor action : string) (old new : Run) : Prop := {
  tr_request : same_request old new;
  tr_version : chaos_Version new = chaos_Version old;
  tr_status : may_follow (chaos_Status old) (chaos_Status new) = true;
  tr_decision :
    (chaos_ApprovedBy new = chaos_ApprovedBy old ∧ chaos_ApprovalReason new = chaos_ApprovalReason old ∧
     chaos_Status new ≠ ChaosApproved) ∨
    (chaos_Status old = ChaosPendingApproval ∧ chaos_ApprovedBy new = actor ∧
     actor ≠ chaos_RequestedBy old ∧ chaos_ApprovalReason new ≠ "" ∧
     (chaos_Status new = ChaosApproved ∧ action = "chaos.approved" ∨
      chaos_Status new = ChaosRejected ∧ action = "chaos.rejected"));
  tr_execution :
    chaos_Status old = ChaosApproved → chaos_Status new = ChaosExecutionRequested →
    action = "chaos.execution.requested"
}.

(** A run as the manager creates it. *)
Definition creation (run : Run) (actor : string) : Prop :=
  chaos_RequestedBy run = actor ∧
  (chaos_Status run = ChaosPreflightValidated ∨
   chaos_Status run = ChaosPendingApproval ∧ is_Some (chaos_ApprovalExpiresAt run)).

Lemma same_request_refl run : same_request run run.
Proof. by split. Qed.
Lemma same_request_trans r1 r2 r3 : same_request r1 r2 → same_request r2 r3 → same_request r1 r3.
Proof. intros [] []. split; congruence. Qed.
Lemma same_request_version r1 r2 n : same_request r1 r2 → same_request r1 (r2 <| chaos_Version := n |>).
Proof. by intros []. Qed.

Lemma may_follow_ended old new : ended old = true → may_follow old new = false.
Proof.
  unfold ended, in_list. intros Hold. apply existsb_exists in Hold as (s & Hs & ->%String.eqb_eq).
  repeat (destruct Hs as [<-|Hs]; [reflexivity|]). by destruct Hs.
Qed.

Lemma may_follow_execution old new :
  may_follow old new = true → under_execution new = true →
  under_execution old = true ∨ (old = ChaosApproved ∧ new = ChaosExecutionRequested).
Proof.
  unfold may_follow. intros Hf Hnew. apply existsb_exists in Hf as ([s next] & Hs & Hn).
  cbn [fst snd] in Hn. apply andb_true_iff in Hn as [Hs' Hn]. apply String.eqb_eq in Hs' as ->.
  unfold in_list in Hn. apply existsb_exists in Hn as (t & Ht & ->%String.eqb_eq).
  repeat (destruct Hs as [[= <- <-]|Hs];
    [repeat (destruct Ht as [<-|Ht]; [first [by left | by right | done]|]); by destruct Ht|]).
  by destruct Hs.
Qed.

(** * What a history shows *)

Section History.
Context `{K : Kubernetes}.
Implicit Types h : history (ChaosE K).

(** The runs an answered event shows. *)
Definition seen_in (o : occurrence (ChaosE K)) : list Run :=
  match o with
  | Occ X e x =>
      match e in ChaosE _ X return X → list Run with
      | RepoGet _ | RepoCreate _ _ _ | RepoUpdate _ _ _ _ => λ r, match r with Ok run => [run] | Err _ => [] end
      | RepoList => λ r, match r with Ok runs => runs | Err _ => [] end
      | _ => λ _, []
      end x
  end.
Definition seen h : list Run := mjoin (map seen_in h).

(** A successful write: who, recorded as what, and the run as stored. *)
Record write := mkWrite { w_actor : string; w_action : string; w_run : Run }.
Definition written_in (o : occurrence (ChaosE K)) : list write :=
  match o with
  | Occ X e x =>
      match e in ChaosE _ X return X → list write with
      | RepoCreate _ actor action | RepoUpdate _ _ actor action =>
          λ r, match r with Ok run => [mkWrite actor action run] | Err _ => [] end
      | _ => λ _, []
      end x
  end.
Definition writes h : list write := mjoin (map written_in h).

Lemma seen_later h h' run : suffix h h' → run ∈ seen h → run ∈ seen h'.
Proof. intros [l ->] Hin. unfold seen. rewrite map_app, join_app, elem_of_app. by right. Qed.

Lemma writes_later h h' w : suffix h h' → w ∈ writes h → w ∈ writes h'.
Proof. intros [l ->] Hin. unfold writes. rewrite map_app, join_app, elem_of_app. by right. Qed.

Lemma seen_get h id run : run ∈ seen (Occ _ (RepoGet id) (Ok run) :: h).
Proof. unfold seen. cbn. by left. Qed.

(** [o] occurred between [h0] and the later [h]. *)
Definition since h0 h (o : occurrence (ChaosE K)) : Prop := ∃ l, h = l ++ h0 ∧ o ∈ l.

Lemma since_intro h0 h1 h2 o : suffix h0 h1 → suffix (o :: h1) h2 → since h0 h2 o.
Proof.
  intros [l1 ->] [l2 ->]. exists (l2 ++ o :: l1). split; [by rewrite <- app_assoc|].
  rewrite elem_of_app, elem_of_cons. auto.
Qed.

Lemma since_later h0 h h' o : suffix h h' → since h0 h o → since h0 h' o.
Proof.
  intros [l' ->] (l & -> & Ho). exists (l' ++ l). split; [by rewrite app_assoc|]. rewrite elem_of_app. auto.
Qed.

Lemma since_earlier h0 h1 h o : suffix h0 h1 → since h1 h o → since h0 h o.
Proof.
  intros [l1 ->] (l & -> & Ho). exists (l ++ l1). split; [by rewrite app_assoc|]. rewrite elem_of_app. auto.
Qed.

(** The resource of the run was observed absent. *)
Definition absent_since h0 h (run : Run) : Prop :=
  ∃ gvr err, IsNotFound err = true ∧
    since h0 h (Occ _ (KubeGet gvr (ref_Namespace (chaos_Resource run)) (ref_Name (chaos_Resource run))) (Err err)).

(** As many targets as the run counts on were observed, all of them ready. *)
Definition ready_since h0 h (run : Run) : Prop :=
  ∃ pods, chaos_TargetCount run ≤ Z.of_nat (length pods) ∧
    Forall (λ pod, chaosTargetPodReady pod = true) pods ∧
    since h0 h (Occ _ (KubeList podsResource (ref_Namespace (chaos_Resource run))
                         (SelectorString (chaos_TargetSelector run)) (maxChaosTargetCandidates + 1)) (Ok pods)).

(** The recovery of the run was verified after its record was read. *)
Definition recovered h (run : Run) : Prop :=
  ∃ h0, suffix h0 h ∧ run ∈ seen h0 ∧ absent_since h0 h run ∧ ready_since h0 h run.

(** * The protocol *)

Variable m : ChaosManager.

(** The resource the runner may create for [run]: the validated manifest with the run's labels. *)
Definition creates (run : Run) (gvr : GroupVersionResource) (namespace : string) (o : object) : Prop :=
  ∃ r o0, m_runner m = Some r ∧
    decodeChaosObject (chaos_Manifest run) = Ok o0 ∧ allowed_resource (GetGVK o0) = Some gvr ∧
    validateTarget r o0 = Ok tt ∧
    namespace = GetNamespace o0 ∧ GetNamespace o0 = ref_Namespace (chaos_Resource run) ∧
    GetName o0 = ref_Name (chaos_Resource run) ∧ GetKind o0 = ref_Kind (chaos_Resource run) ∧
    o = SetLabels (owned_labels run (GetLabels o0)) o0.

Definition verified_end h (old new : Run) : Prop :=
  chaos_Status new = ChaosSucceeded ∨ (chaos_Status old = ChaosAbortRequested ∧ chaos_Status new = ChaosAborted) →
  recovered h old.

Definition chaos_pre X h (e : ChaosE K X) : Prop :=
  match e with
  | RepoCreate run actor _ => creation run actor
  | RepoUpdate run version actor action => ∃ old,
      old ∈ seen h ∧ version = chaos_Version old ∧ transition actor action old run ∧ verified_end h old run
  | KubeCreate gvr namespace o dryRun _ =>
      dryRun = true ∨ ∃ run, run ∈ seen h ∧ chaos_Status run = ChaosExecutionRequested ∧ creates run gvr namespace o
  | KubeDelete gvr namespace name => ∃ run r,
      run ∈ seen h ∧ m_runner m = Some r ∧ resourceForRun r run = Ok gvr ∧
      in_list (chaos_Status run) [ChaosCleanupRequested; ChaosAbortRequested; ChaosVerifying] = true ∧
      namespace = ref_Namespace (chaos_Resource run) ∧ name = ref_Name (chaos_Resource run)
  | _ => True
  end.

(** What the repository answers is what its interface promises. *)
Definition chaos_post X h (e : ChaosE K X) : X → Prop :=
  match e with
  | RepoUpdate run version _ _ => λ x, ∀ run', x = Ok run' → run' = run <| chaos_Version := version + 1 |>
  | _ => λ _, True
  end.

Abbreviation checked h p Φ := (safe chaos_pre chaos_post h p (on_ok Φ)).

End History.

(** * The programs respect the protocol *)

(** Executes the next statement of a program under [safe]. *)
Ltac chaos_step :=
  first [safe_pure_step |
  cbv beta;
  lazymatch goal with
  | |- safe _ _ _ (mbind _ (ask _)) _ => apply safe_then_ask; intros ? ?; split; [exact I|]; intros ? _
  | |- safe _ _ _ (mbind _ (call (RepoGet ?id))) _ =>
      let h := fresh "h" in let run := fresh "run" in let Hrun := fresh "Hrun" in
      apply safe_then_call; intros h ?; split; [exact I|]; intros run _; pose proof (seen_get h id run) as Hrun
  | |- safe _ _ _ (mbind _ (call (KubeGet _ _ _))) _ =>
      apply safe_then_call; intros ? ?; split; [exact I|]; intros ? _
  | |- safe _ _ _ (mbind _ _) _ => eapply safe_then_spec; [solve [eauto with chaos nocore]|]; cbv beta;
      let H := fresh in intros ? ? H; destruct_and? H
  end].

(** The specifications of the runner's operations, for the statements that call them. *)
Create HintDb chaos discriminated.

(** The value returned at the end of a path. *)
Ltac chaos_end := apply safe_ret_ok; intros; later.

Section Programs.
Context `{K : Kubernetes}.
Variable m : ChaosManager.
Implicit Types h : history (ChaosE K).

Abbreviation checked h p Φ := (safe (chaos_pre m) chaos_post h p (on_ok Φ)).

Lemma wrap_checked {A} h msg (p : P (ChaosE K) A) Φ : checked h p Φ → checked h (wrap msg p) Φ.
Proof.
  intros Hp%safe_persists. apply safe_bind. eapply safe_weaken; [|exact Hp].
  intros h' [a|e] Ha h'' Hh''; [by apply Ha | done].
Qed.

(** The listing of the target pods. *)
Definition list_event (namespace : string) (labels : gmap string string) : ChaosE K (result (list object)) :=
  KubeList podsResource namespace (SelectorString labels) (maxChaosTargetCandidates + 1).

Lemma targetPods_checked h r namespace labels :
  checked h (targetPods r namespace labels) (λ h' pods,
    ∃ h1, suffix h h1 ∧ suffix (Occ _ (list_event namespace labels) (Ok pods) :: h1) h').
Proof.
  unfold targetPods. chaos_step. apply safe_last_call. intros h1 Hh1. split; [exact I|].
  intros pods _ h2 Hh2. by exists h1.
Qed.

Lemma validateLiveTargets_checked h r namespace labels count :
  checked h (validateLiveTargets r namespace labels count) (λ h' _, suffix h h').
Proof.
  unfold validateLiveTargets. eapply safe_then_spec; [apply wrap_checked, targetPods_checked|].
  intros h' pods (h1 & Hh1 & Hh'). repeat chaos_step. chaos_end.
Qed.

Lemma dry_run_checked h msg gvr namespace o manager :
  checked h (wrap msg (call (KubeCreate gvr namespace o true manager))) (λ h' _, suffix h h').
Proof. apply wrap_checked, safe_last_call. intros h2 Hh2. split; [by left|]. intros o' _ h3 Hh3. later. Qed.

Lemma wrap_get_checked h msg gvr namespace name :
  checked h (wrap msg (call (KubeGet gvr namespace name))) (λ h' _, suffix h h').
Proof. apply wrap_checked, safe_last_call. intros h2 Hh2. split; [done|]. intros o' _ h3 Hh3. later. Qed.

#[local] Hint Resolve validateLiveTargets_checked dry_run_checked wrap_get_checked : chaos.

Lemma Preflight_checked h r experimentID manifest discover :
  checked h (Preflight r experimentID manifest discover) (λ h' run,
    suffix h h' ∧ chaos_Status run = ChaosPreflightValidated).
Proof.
  unfold Preflight. repeat chaos_step.
  all: apply safe_ret_ok; intros; split; [later | done].
Qed.

Lemma Start_checked h r run :
  m_runner m = Some r → run ∈ seen h → chaos_Status run = ChaosExecutionRequested →
  checked h (Start r run) (λ h' _, suffix h h').
Proof.
  intros Hr Hrun Hstatus. unfold Start. repeat chaos_step.
  all: apply safe_then_attempt_call; intros h1 Hh1.
  all: split; [right; exists run; split; [eapply seen_later; [|exact Hrun]; later|]; split; [done|];
    split_alternatives; exists r; eexists; repeat (split; [first [eassumption|by destruct a0|done]|]); done|].
  all: intros x _; repeat chaos_step; [chaos_end|].
  all: apply safe_raise_if; intros _ h2 Hh2; later.
Qed.

Lemma Exists_checked h r run :
  checked h (Exists r run) (λ h' b, suffix h h' ∧ (b = false → absent_since h h' run)).
Proof.
  unfold Exists. repeat chaos_step. apply safe_then_attempt_call. intros h1 Hh1. split; [done|]. intros x _.
  repeat chaos_step; apply safe_ret_ok; intros h2 Hh2; (split; [later|]); [done|].
  intros _. eexists _, _. split; [eassumption|]. by eapply since_intro.
Qed.

Lemma Observe_checked h r run : checked h (Observe r run) (λ h' _, suffix h h').
Proof.
  unfold Observe. repeat chaos_step. destruct (observation _); [apply safe_ret_ok; intros; later | done].
Qed.

Lemma Delete_checked h r run :
  m_runner m = Some r → run ∈ seen h →
  in_list (chaos_Status run) [ChaosCleanupRequested; ChaosAbortRequested; ChaosVerifying] = true →
  checked h (Delete r run) (λ h' _, suffix h h').
Proof.
  intros Hr Hrun Hstatus. unfold Delete. repeat chaos_step. apply safe_then_attempt_call. intros h1 Hh1. split.
  { exists run, r. split; [by eapply seen_later|]. done. }
  intros x _. repeat chaos_step; apply safe_ret_ok; intros; later.
Qed.

Lemma VerifyRecovery_checked h r run :
  checked h (VerifyRecovery r run) (λ h' hm, suffix h h' ∧ (hm.1 = true → ready_since h h' run)).
Proof.
  unfold VerifyRecovery. eapply safe_then_spec; [apply targetPods_checked|].
  intros h1 pods (h0 & Hh0 & Hh1). repeat chaos_step; apply safe_ret_ok; intros h2 Hh2; (split; [later|]); try done.
  intros _. exists pods. split; [lia|]. split.
  - apply List.Forall_forall. intros pod Hpod.
    eapply List.find_none in Hpod; [|eassumption]. by apply negb_false_iff.
  - eapply since_intro; [exact Hh0|]. later.
Qed.

(** An update of a run that was read, along a legal transition. *)
Lemma Save_checked h old run actor action :
  old ∈ seen h → transition actor action old run → (∀ h', suffix h h' → verified_end h' old run) →
  checked h (Save run actor action) (λ h' run',
    suffix h h' ∧ run' ∈ seen h' ∧ run' = run <| chaos_Version := chaos_Version run + 1 |>).
Proof.
  intros Hold Htr Hend. apply safe_last_call. intros h1 Hh1. split.
  - exists old. split; [by eapply seen_later|]. split; [apply Htr|]. split; [done|]. by apply Hend.
  - intros run' Hpost h2 Hh2. split; [later|]. split; [|by apply Hpost].
    eapply seen_later; [exact Hh2|]. unfold seen. cbn. by left.
Qed.

(** The same as a statement, where the run does not end verified. *)
Lemma safe_then_save {B} h old run actor action (k : Run → P (ChaosE K) B) (Q : history (ChaosE K) → B → Prop) :
  old ∈ seen h → transition actor action old run → (∀ h', suffix h h' → verified_end h' old run) →
  (∀ h' run', suffix h h' → run' ∈ seen h' → run' = run <| chaos_Version := chaos_Version run + 1 |> →
    checked h' (k run') Q) →
  checked h (Save run actor action ≫= k) Q.
Proof.
  intros Hold Htr Hend Hk. eapply safe_then_spec; [by eapply Save_checked|]. intros h' run' (? & ? & ?). auto.
Qed.

Lemma safe_save_last h old run actor action :
  old ∈ seen h → transition actor action old run → (∀ h', suffix h h' → verified_end h' old run) →
  checked h (Save run actor action) (λ _ _, True).
Proof. intros Hold Htr Hend. eapply safe_weaken; [|by eapply Save_checked]. by intros h' []. Qed.

(** ** Handlers *)

(** An update that decides nothing and does not request execution. *)
Lemma plain_transition actor action old new :
  same_request old new → chaos_Version new = chaos_Version old →
  may_follow (chaos_Status old) (chaos_Status new) = true →
  chaos_ApprovedBy new = chaos_ApprovedBy old → chaos_ApprovalReason new = chaos_ApprovalReason old →
  chaos_Status old ≠ ChaosPendingApproval ∨ chaos_Status new ≠ ChaosApproved →
  (chaos_Status old = ChaosApproved → chaos_Status new ≠ ChaosExecutionRequested) →
  transition actor action old new.
Proof.
  intros Hs Hv Hf Ha Hr Hne Hx. split; [done..| |by intros Ho Hn; destruct (Hx Ho)].
  left. split; [done|]. split; [done|]. destruct Hne as [Hne|Hne]; [|done]. intros Hn. rewrite Hn in Hf.
  apply Hne. unfold may_follow in Hf. apply existsb_exists in Hf as ([s next] & Hs' & Hn').
  cbn [fst snd] in Hn'. apply andb_true_iff in Hn' as [Heq Hin]. apply String.eqb_eq in Heq as <-.
  repeat (destruct Hs' as [[= <- <-]|Hs']; [first [done | discriminate Hin]|]). by destruct Hs'.
Qed.

End Programs.

#[local] Hint Resolve validateLiveTargets_checked dry_run_checked wrap_get_checked Exists_checked
  Observe_checked VerifyRecovery_checked : chaos.

(** The side conditions of an update: what changed is written out, the status of the run read is known. *)
Ltac known_status := repeat match goal with E : chaos_Status _ = _ |- _ => rewrite E end.
Ltac status_neq :=
  let Hs := fresh in intros Hs; exfalso; cbn in Hs;
  revert Hs; known_status; discriminate.
Ltac plain :=
  apply plain_transition;
  [by split | done | cbn; match goal with E : chaos_Status _ = _ |- _ => rewrite E end; reflexivity | done | done
  | first [by left; status_neq | by right; status_neq] | first [by (intros _; status_neq) | by status_neq] ].
Ltac not_end :=
  intros ? ?; let H := fresh in let H' := fresh in intros [H|[H' H]];
  first [revert H; cbn; known_status; discriminate | revert H'; cbn; known_status; discriminate].
Ltac seen_run :=
  match goal with H : ?run ∈ seen _ |- _ ∈ seen _ => eapply (seen_later _ _ run); [|exact H]; solve [later] end.
Ltac chaos_save :=
  eapply safe_then_save; [seen_run | plain | not_end |]; intros ? ? ? ? ?.


Section Handlers.
Context `{K : Kubernetes}.
Variable m : ChaosManager.
Implicit Types h : history (ChaosE K).

Abbreviation checked h p Φ := (safe (chaos_pre m) chaos_post h p (on_ok Φ)).

Lemma runner_step {B} h (k : ChaosRunner → P (ChaosE K) B) Q :
  (∀ r, m_runner m = Some r → checked h (k r) Q) → checked h (runner m ≫= k) Q.
Proof. unfold runner. destruct (m_runner m); cbn; auto. Qed.

Lemma expire_step {B} h run (k : Run → P (ChaosE K) B) Q :
  run ∈ seen h → chaos_Status run = ChaosPendingApproval ∨ chaos_Status run = ChaosApproved →
  (∀ h' run', suffix h h' → checked h' (k run') Q) →
  checked h (expire run ≫= k) Q.
Proof.
  intros Hrun Hstatus Hk. unfold expire. repeat chaos_step.
  destruct Hstatus; chaos_save; apply Hk; later.
Qed.

Lemma refuse_expired_checked h run message :
  run ∈ seen h → chaos_Status run = ChaosPendingApproval ∨ chaos_Status run = ChaosApproved →
  checked h (refuse_expired run message) (λ h' _, suffix h h').
Proof.
  intros Hrun Hstatus. unfold refuse_expired. repeat chaos_step; try chaos_end.
  apply expire_step; [seen_run | done | done].
Qed.

(** A decision by another person than the requester. *)
Lemma decision_transition actor reason action old new :
  same_request old new → chaos_Version new = chaos_Version old → chaos_Status old = ChaosPendingApproval →
  chaos_ApprovedBy new = actor → chaos_ApprovalReason new = reason → actor ≠ chaos_RequestedBy old → reason ≠ "" →
  (chaos_Status new = ChaosApproved ∧ action = "chaos.approved" ∨
   chaos_Status new = ChaosRejected ∧ action = "chaos.rejected") →
  transition actor action old new.
Proof.
  intros Hs Hv Hold Hby Hreason Hne Hr Hnew. split; [done..| | |].
  - rewrite Hold. by destruct Hnew as [[-> _]|[-> _]].
  - right. by rewrite Hby, Hreason.
  - rewrite Hold. intros Heq. discriminate Heq.
Qed.

Lemma Approve_checked h id actor reason : checked h (Approve id actor reason) (λ _ _, True).
Proof.
  unfold Approve. repeat chaos_step. split_guards.
  eapply safe_then_spec; [apply refuse_expired_checked; [seen_run | by left]|]. cbv beta. intros h1 _ Hh1.
  repeat chaos_step. split_guards. eapply safe_save_last; [seen_run| |not_end].
  eapply decision_transition; try done; by left.
Qed.

Lemma Reject_checked h id actor reason : checked h (Reject id actor reason) (λ _ _, True).
Proof.
  unfold Reject. repeat chaos_step. split_guards.
  eapply safe_then_spec; [apply refuse_expired_checked; [seen_run | by left]|]. cbv beta. intros h1 _ Hh1.
  repeat chaos_step. split_guards. eapply safe_save_last; [seen_run| |not_end].
  eapply decision_transition; try done; by right.
Qed.

Lemma Request_checked h experimentID manifest actor :
  checked h (Request m experimentID manifest actor) (λ _ _, True).
Proof.
  unfold Request. repeat chaos_step. eapply safe_then_spec; [apply Preflight_checked|]. cbv beta.
  intros h1 run [Hh1 Hstatus].
  destruct (m_executionEnabled m); repeat chaos_step; apply safe_last_call; intros h2 Hh2; (split; [|done]); (split; [done|]).
  - right. split; [done|]. by eexists.
  - by left.
Qed.

(** ** Reconciliation *)

Lemma reconcile_vanished_checked h run now reason message :
  run ∈ seen h → chaos_Status run = ChaosExecutionRequested ∨ chaos_Status run = ChaosRunning →
  checked h (reconcile_vanished run now reason message) (λ _ _, True).
Proof. intros Hrun Hstatus. unfold reconcile_vanished. destruct Hstatus; chaos_save; done. Qed.

Lemma reconcile_create_checked h r run now :
  m_runner m = Some r → run ∈ seen h → chaos_Status run = ChaosExecutionRequested →
  checked h (reconcile_create r run now) (λ _ _, True).
Proof.
  intros Hr Hrun Hstatus. unfold reconcile_create.
  eapply safe_then_attempt; [by apply safe_grows, Start_checked|]. cbv beta. intros h1 started [Hh1 _].
  destruct started; cbv beta zeta; repeat chaos_step; chaos_save; done.
Qed.

Lemma reconcile_injection_checked h run deadline now observed :
  run ∈ seen h → chaos_Status run = ChaosExecutionRequested →
  checked h (reconcile_injection run deadline now observed) (λ _ _, True).
Proof.
  intros Hrun Hstatus. unfold reconcile_injection. repeat chaos_step; try done.
  all: chaos_save; done.
Qed.

Lemma reconcile_requested_checked h run now :
  run ∈ seen h → chaos_Status run = ChaosExecutionRequested →
  checked h (reconcile_requested m run now) (λ _ _, True).
Proof.
  intros Hrun Hstatus. unfold reconcile_requested. apply runner_step. intros r Hr.
  repeat chaos_step; split_guards.
  - eapply reconcile_injection_checked; [seen_run | done].
  - chaos_save. done.
  - eapply reconcile_vanished_checked; [seen_run | by left].
  - eapply reconcile_create_checked; [done | seen_run | done].
Qed.

Lemma reconcile_cleanup_checked h run now :
  run ∈ seen h → chaos_Status run = ChaosCleanupRequested →
  checked h (reconcile_cleanup m run now) (λ _ _, True).
Proof.
  intros Hrun Hstatus. unfold reconcile_cleanup. apply runner_step. intros r Hr.
  eapply safe_then_spec; [apply Delete_checked; [done | done | by rewrite Hstatus]|]. cbv beta. intros h1 _ Hh1.
  repeat chaos_step; [done|]. chaos_save. done.
Qed.

Lemma reconcile_running_checked h run now :
  run ∈ seen h → chaos_Status run = ChaosRunning →
  checked h (reconcile_running m run now) (λ _ _, True).
Proof.
  intros Hrun Hstatus. unfold reconcile_running. repeat chaos_step; [|chaos_save; done].
  apply runner_step. intros r Hr. repeat chaos_step; split_guards; try done.
  - eapply reconcile_vanished_checked; [seen_run | by right].
  - chaos_save. eapply reconcile_cleanup_checked; [done|]. by subst.
Qed.

(** The recovery of a run, observed after it was read. *)
Lemma verified_end_since h0 h1 h2 h old new :
  old ∈ seen h0 → suffix h0 h1 → suffix h0 h2 → suffix h1 h → suffix h2 h →
  absent_since h1 h old → ready_since h2 h old →
  ∀ h', suffix h h' → verified_end h' old new.
Proof.
  intros Hold H01 H02 H1 H2 (gvr & err & Herr & Habs) (pods & Hcount & Hready & Hlist) h' Hh' _.
  exists h0. split; [by transitivity h1; [|transitivity h]|]. split; [done|]. split.
  - exists gvr, err. split; [done|]. by apply (since_later _ h), (since_earlier _ h1).
  - exists pods. split; [done|]. split; [done|]. by apply (since_later _ h), (since_earlier _ h2).
Qed.

Lemma absent_since_later h0 h h' run : suffix h h' → absent_since h0 h run → absent_since h0 h' run.
Proof. intros Hh (gvr & err & Herr & Ho). exists gvr, err. split; [done|]. by eapply since_later. Qed.

(** The observations of the pass, for the update that ends a verified run. *)
Ltac recovered :=
  match goal with
  | Ha : false = false → absent_since ?h1 ?h1' ?run, Hr : true = true → ready_since ?h2 ?h2' ?run |- _ =>
      eapply (verified_end_since _ h1 h2 h2'); [eassumption | later | later | later | later
      | eapply absent_since_later; [|by apply Ha]; later | by apply Hr]
  end.

Lemma reconcile_abort_checked h run now :
  run ∈ seen h → chaos_Status run = ChaosAbortRequested →
  checked h (reconcile_abort m run now) (λ _ _, True).
Proof.
  intros Hrun Hstatus. unfold reconcile_abort. apply runner_step. intros r Hr.
  eapply safe_then_spec; [apply Delete_checked; [done | done | by rewrite Hstatus]|]. cbv beta. intros h1 _ Hh1.
  repeat chaos_step; try done; cbn [fst] in *; subst.
  - eapply safe_then_save; [seen_run | plain | recovered | done].
  - chaos_save. done.
Qed.

Lemma reconcile_verifying_checked h run now :
  run ∈ seen h → chaos_Status run = ChaosVerifying →
  checked h (reconcile_verifying m run now) (λ _ _, True).
Proof.
  intros Hrun Hstatus. unfold reconcile_verifying. apply runner_step. intros r Hr.
  repeat chaos_step; try done; cbn [fst] in *; subst.
  - eapply safe_weaken; [|apply Delete_checked; [done | seen_run | by rewrite Hstatus]]. by intros ? [].
  - chaos_save. done.
  - eapply safe_then_save; [seen_run | plain | recovered | done].
  - chaos_save. done.
Qed.

Lemma reconcileOne_checked h run : run ∈ seen h → checked h (reconcileOne m run) (λ _ _, True).
Proof.
  intros Hrun. unfold reconcileOne. repeat chaos_step; split_guards; try done.
  - apply expire_step; [seen_run | by left | done].
  - apply reconcile_requested_checked; [seen_run | done].
  - apply reconcile_running_checked; [seen_run | done].
  - apply reconcile_cleanup_checked; [seen_run | done].
  - apply reconcile_abort_checked; [seen_run | done].
  - apply reconcile_verifying_checked; [seen_run | done].
Qed.

(** Reconciling and reading the run again. *)
Lemma reconcile_and_get h run id :
  run ∈ seen h → checked h (reconcileOne m run;; call (RepoGet id)) (λ _ _, True).
Proof.
  intros Hrun. eapply safe_then_spec; [by apply reconcileOne_checked|]. intros h' _ _.
  by apply safe_last_call.
Qed.

Lemma Execute_checked h id actor : checked h (Execute m id actor) (λ _ _, True).
Proof.
  unfold Execute. repeat chaos_step. split_guards.
  eapply safe_then_spec; [apply refuse_expired_checked; [seen_run | by right]|]. cbv beta. intros h1 _ Hh1.
  repeat chaos_step. eapply safe_then_save; [seen_run | | not_end |].
  - split; [by split | done | | | done].
    + cbn. by match goal with E : chaos_Status _ = _ |- _ => rewrite E end.
    + left. split; [done|]. split; [done|]. intros Hx. discriminate Hx.
  - intros h2 run' Hh2 Hrun' _. by apply reconcile_and_get.
Qed.

Lemma Abort_checked h id actor reason : checked h (Abort m id actor reason) (λ _ _, True).
Proof.
  unfold Abort. repeat chaos_step; split_alternatives.
  - eapply safe_save_last; [seen_run | plain | not_end].
  - eapply safe_save_last; [seen_run | plain | not_end].
  - match goal with H : abortable _ = true |- _ => unfold abortable in H; each_in H end; try done.
    all: eapply safe_then_save; [seen_run | plain | not_end |]; intros h2 run' Hh2 Hrun' _;
      by apply reconcile_and_get.
Qed.

Lemma Get_checked h id : checked h (Get m id) (λ _ _, True).
Proof.
  unfold Get. repeat chaos_step; [|done]. apply reconcile_and_get. seen_run.
Qed.

Lemma List_checked h : checked h List (λ _ _, True).
Proof. by apply safe_last_call. Qed.

Lemma reconcile_runs_checked h runs :
  (∀ run, run ∈ runs → run ∈ seen h) → checked h (reconcile_runs m runs) (λ _ _, True).
Proof.
  revert h. induction runs as [|run rest IH]; intros h Hruns; cbn [reconcile_runs]; [done|].
  assert (∀ h', suffix h h' → checked h' (reconcile_runs m rest) (λ _ _, True)) as Hrest.
  { intros h' Hh'. apply IH. intros run' Hin. eapply seen_later; [exact Hh'|]. apply Hruns. by right. }
  chaos_step; [by apply Hrest|]. eapply safe_then_attempt; [apply safe_grows, reconcileOne_checked, Hruns; by left|].
  cbv beta. intros h' r [Hh' _]. repeat case_match; try (by apply Hrest); done.
Qed.

Lemma reconcileAll_checked h : checked h (reconcileAll m) (λ _ _, True).
Proof.
  unfold reconcileAll. apply safe_then_attempt_call. intros h1 Hh1. split; [done|]. intros x _.
  destruct x as [runs|]; [|done]. apply reconcile_runs_checked. intros run Hrun.
  unfold seen. cbn. by apply elem_of_app; left.
Qed.

End Handlers.
