(* ===== verification/ChaosTrace.v ===== *)
(** Concurrent executions of the chaos manager: any number of request handlers and reconciler passes, of
    any number of replicas, interleaved event by event over one repository, with arbitrary answers of
    the clock and of the Kubernetes API. The repository is any implementation of its interface. *)
From S2P Require Import Prelude GoLib GoDuration Json Core Kube Interaction Store StoreProps ChaosRepository.
From S2P Require Import Chaos ChaosProps.

Local Open Scope Z_scope.

(** * What the successful writes of a history show *)

Section Writes.
Implicit Types ws : list write.

(** The write created the run, or took it one version further along a legal transition. *)
Definition legal ws (w : write) : Prop :=
  (chaos_Version (w_run w) = 1 ∧ creation (w_run w) (w_actor w)) ∨
  ∃ w0, w0 ∈ ws ∧ chaos_Version (w_run w) = chaos_Version (w_run w0) + 1 ∧
    transition (w_actor w) (w_action w) (w_run w0) ((w_run w) <| chaos_Version := chaos_Version (w_run w0) |>).

(** The run was approved by the person its record names, who did not request it. *)
Definition approval_recorded ws (run : Run) : Prop :=
  ∃ w, w ∈ ws ∧ w_action w = "chaos.approved" ∧ same_request (w_run w) run ∧
    w_actor w = chaos_ApprovedBy run ∧ w_actor w ≠ chaos_RequestedBy run.

Definition execution_recorded ws (run : Run) : Prop :=
  ∃ w, w ∈ ws ∧ w_action w = "chaos.execution.requested" ∧ same_request (w_run w) run.

Definition approved_or_later (status : string) : bool := (status == ChaosApproved) || under_execution status.

(** The statuses of a run reached only through an approval, and through a request to execute. *)
Definition decided ws (run : Run) : Prop :=
  (approved_or_later (chaos_Status run) = true → approval_recorded ws run) ∧
  (under_execution (chaos_Status run) = true → execution_recorded ws run).

Record writes_ok (runs : gmap string Run) ws : Prop := {
  wo_stored : ∀ id run, runs !! id = Some run → ∃ w, w ∈ ws ∧ w_run w = run;
  wo_current : ∀ w, w ∈ ws → ∃ run, runs !! chaos_ID (w_run w) = Some run ∧
    (w_run w = run ∨ chaos_Version (w_run w) < chaos_Version run);
  wo_legal : ∀ w, w ∈ ws → legal ws w;
  wo_ended : ∀ w, w ∈ ws → ended (chaos_Status (w_run w)) = true → runs !! chaos_ID (w_run w) = Some (w_run w);
  wo_decided : ∀ w, w ∈ ws → decided ws (w_run w)
}.

Lemma legal_more ws w' w : legal ws w → legal (w' :: ws) w.
Proof. intros [?|(w0 & ? & ?)]; [by left | right; exists w0]. split; [by right | done]. Qed.

Lemma decided_more ws w run : decided ws run → decided (w :: ws) run.
Proof.
  intros [Ha He]. split; intros Hs.
  - destruct (Ha Hs) as (w0 & ? & ?). exists w0. split; [by right | done].
  - destruct (He Hs) as (w0 & ? & ?). exists w0. split; [by right | done].
Qed.

Lemma writes_ok_empty : writes_ok ∅ [].
Proof. split; [done|..]; by intros w ?%elem_of_nil. Qed.

(** A write of a run over an older version, or of a new run. *)
Lemma writes_ok_write runs ws w :
  writes_ok runs ws →
  (∀ run, runs !! chaos_ID (w_run w) = Some run →
     chaos_Version run < chaos_Version (w_run w) ∧ ended (chaos_Status run) = false) →
  legal (w :: ws) w → decided (w :: ws) (w_run w) →
  writes_ok (<[chaos_ID (w_run w) := w_run w]> runs) (w :: ws).
Proof.
  intros [Hst Hcur Hleg Hend Hdec] Hver Hlw Hdw. split.
  - intros id run. rewrite lookup_insert_Some. intros [[<- <-]|[_ Hr]]; [exists w; by split; [left|]|].
    destruct (Hst _ _ Hr) as (w0 & ? & ?). exists w0. by split; [right|].
  - intros w' [->|Hw']%elem_of_cons; [exists (w_run w); rewrite lookup_insert_eq; auto|].
    destruct (Hcur _ Hw') as (run & Hrun & Hor). destruct (base.decide (chaos_ID (w_run w) = chaos_ID (w_run w'))) as [Heq|].
    + rewrite Heq, lookup_insert_eq. exists (w_run w). split; [done|]. right. rewrite <- Heq in Hrun.
      destruct (Hver _ Hrun) as [Hlt _]. destruct Hor as [->|]; lia.
    + rewrite lookup_insert_ne by done. by exists run.
  - intros w' [->|Hw']%elem_of_cons; [done | by apply legal_more, Hleg].
  - intros w' [->|Hw']%elem_of_cons Hended; [by rewrite lookup_insert_eq|].
    pose proof (Hend _ Hw' Hended) as Hr. destruct (base.decide (chaos_ID (w_run w) = chaos_ID (w_run w'))) as [Heq|].
    + rewrite <- Heq in Hr. destruct (Hver _ Hr). congruence.
    + by rewrite lookup_insert_ne.
  - intros w' [->|Hw']%elem_of_cons; [done | by apply decided_more, Hdec].
Qed.

Lemma creation_decided ws run actor : creation run actor → decided ws run.
Proof. intros [_ [Hs|[Hs _]]]; split; rewrite Hs; discriminate. Qed.

(** A transition keeps the decisions on record. *)
Lemma transition_decided ws w old run :
  decided ws old → transition (w_actor w) (w_action w) old run →
  same_request run (w_run w) → chaos_Status (w_run w) = chaos_Status run →
  chaos_ApprovedBy (w_run w) = chaos_ApprovedBy run →
  decided (w :: ws) (w_run w).
Proof.
  intros [Ha He] [Hreq Hv Hf Hdec Hex] Hsame Hst Hby.
  assert (same_request old (w_run w)) as Hsr by (by eapply same_request_trans).
  assert (same_request (w_run w) (w_run w)) as Hrefl by apply same_request_refl.
  split; rewrite Hst; intros Hs.
  - destruct Hdec as [(Hb & _ & Hne)|(_ & Hb & Hactor & _ & [[Hn Haction]|[Hn _]])].
    + unfold approved_or_later in Hs. apply orb_true_iff in Hs as [Hs|Hs]; [by apply String.eqb_eq in Hs|].
      assert (approved_or_later (chaos_Status old) = true) as Hold.
      { destruct (may_follow_execution _ _ Hf Hs) as [Hx|[-> _]]; [|done].
        unfold approved_or_later. rewrite Hx. apply orb_true_r. }
      destruct (Ha Hold) as (w0 & Hw0 & Haction & Hreq0 & Hby0 & Hne0). exists w0.
      split; [by right|]. split; [done|]. split; [by eapply same_request_trans|].
      rewrite Hby, Hb, (same_requester _ _ Hsr). done.
    + exists w. split; [by left|]. split; [done|]. split; [done|]. rewrite Hby, (same_requester _ _ Hsr). done.
    + rewrite Hn in Hs. discriminate Hs.
  - destruct (may_follow_execution _ _ Hf Hs) as [Hx|[Hold Hnew]].
    + destruct (He Hx) as (w0 & Hw0 & Haction & Hreq0). exists w0.
      split; [by right|]. split; [done|]. by eapply same_request_trans.
    + exists w. split; [by left|]. split; [by apply Hex | done].
Qed.

End Writes.

(** * Concurrent executions *)

Section Concurrent.
Context `{K : Kubernetes} {S : Type} {R : ChaosRepository S} {RL : ChaosRepositoryLaws R}.
Variable m : ChaosManager.
Implicit Types (σ : S) (h : history (ChaosE K)).

(** A handler run for its effects. *)
Definition discard {A} (p : P (ChaosE K) A) : prog (ChaosE K) unit := prog_bind (λ _, Ret tt) p.

(** What may start at any time: a request of a client, or a pass of the reconciler. *)
Inductive chaos_entry : prog (ChaosE K) unit → Prop :=
| enter_Request experimentID manifest actor : chaos_entry (discard (Request m experimentID manifest actor))
| enter_Approve id actor reason : chaos_entry (discard (Approve id actor reason))
| enter_Reject id actor reason : chaos_entry (discard (Reject id actor reason))
| enter_Execute id actor : chaos_entry (discard (Execute m id actor))
| enter_Abort id actor reason : chaos_entry (discard (Abort m id actor reason))
| enter_Get id : chaos_entry (discard (Get m id))
| enter_List : chaos_entry (discard List)
| enter_reconcileAll : chaos_entry (discard (reconcileAll m)).

(** The answers of the repository are those of its operations; the clock, the identifiers and the
    Kubernetes API answer anything. *)
Definition chaos_answers X (σ : S) (e : ChaosE K X) : X → S → Prop :=
  match e with
  | RepoGet id => λ x σ', ∃ ctx, repo_get ctx id σ = (x, σ')
  | RepoList => λ x σ', ∃ ctx, repo_list ctx σ = (x, σ')
  | RepoCreate run actor action => λ x σ', ∃ ctx, repo_create ctx run actor action σ = (x, σ')
  | RepoUpdate run version actor action => λ x σ', ∃ ctx, repo_update ctx run version actor action σ = (x, σ')
  | _ => λ _ σ', σ' = σ
  end.

Definition chaos_init σ : Prop := repo_inv σ ∧ runs_of σ = ∅.

Definition chaos_execution : history (ChaosE K) → S → list (prog (ChaosE K) unit) → Prop :=
  execution chaos_init chaos_entry chaos_answers repo_other.

Record chaos_inv h σ : Prop := {
  ci_repo : repo_inv σ;
  ci_writes : writes_ok (runs_of σ) (writes h);
  ci_seen : ∀ run, run ∈ seen h → ∃ w, w ∈ writes h ∧ w_run w = run
}.

(** A snapshot that still has the stored version is the stored run. *)
Lemma seen_current h σ old stored :
  chaos_inv h σ → old ∈ seen h → runs_of σ !! chaos_ID old = Some stored →
  chaos_Version stored = chaos_Version old → stored = old.
Proof.
  intros [_ Hw Hseen] Hold Hst Hv. destruct (Hseen _ Hold) as (w & Hin & <-).
  destruct (wo_current _ _ Hw _ Hin) as (run & Hrun & [Heq|Hlt]); [congruence|].
  rewrite Hrun in Hst. simplify_eq. lia.
Qed.

Lemma chaos_inv_init σ : chaos_init σ → chaos_inv [] σ.
Proof. intros [Hr He]. split; [done | rewrite He; apply writes_ok_empty | by intros run ?%elem_of_nil]. Qed.

Lemma chaos_inv_env h σ σ' : repo_other σ σ' → chaos_inv h σ → chaos_inv h σ'.
Proof.
  intros Ho [Hr Hw Hs]. destruct (repo_other_spec _ _ Hr Ho) as [Hr' He]. split; [done | by rewrite He | done].
Qed.

(** An event that writes nothing. *)
Lemma chaos_inv_read h σ σ' (o : occurrence (ChaosE K)) :
  chaos_inv h σ → repo_inv σ' → runs_of σ' = runs_of σ → written_in o = [] →
  (∀ run, run ∈ seen_in o → runs_of σ !! chaos_ID run = Some run) →
  chaos_inv (o :: h) σ'.
Proof.
  intros [Hr Hw Hs] Hr' He Ho Hrun.
  assert (writes (o :: h) = writes h) as Hws by (unfold writes; cbn; by rewrite Ho).
  split; [done | by rewrite He, Hws |]. rewrite Hws.
  intros run Hin. unfold seen in Hin. cbn in Hin. apply elem_of_app in Hin as [Hin|Hin]; [|by apply Hs].
  by eapply wo_stored, Hrun.
Qed.

Lemma chaos_inv_quiet h σ σ' (o : occurrence (ChaosE K)) :
  chaos_inv h σ → repo_inv σ' → runs_of σ' = runs_of σ → written_in o = [] → seen_in o = [] →
  chaos_inv (o :: h) σ'.
Proof.
  intros Hi Hr He Hw Hs. eapply chaos_inv_read; try done. rewrite Hs. by intros run ?%elem_of_nil.
Qed.

(** A successful write. *)
Lemma chaos_inv_write h σ σ' (o : occurrence (ChaosE K)) w :
  chaos_inv h σ → repo_inv σ' → written_in o = [w] → seen_in o = [w_run w] →
  runs_of σ' = <[chaos_ID (w_run w) := w_run w]> (runs_of σ) →
  (∀ run, runs_of σ !! chaos_ID (w_run w) = Some run →
     chaos_Version run < chaos_Version (w_run w) ∧ ended (chaos_Status run) = false) →
  legal (w :: writes h) w → decided (w :: writes h) (w_run w) →
  chaos_inv (o :: h) σ'.
Proof.
  intros [Hr Hw Hs] Hr' Hwo Hso He Hver Hleg Hdec.
  assert (writes (o :: h) = w :: writes h) as Hws by (unfold writes; cbn; by rewrite Hwo).
  split; [done | rewrite He, Hws; by apply writes_ok_write |]. rewrite Hws.
  intros run Hin. unfold seen in Hin. cbn in Hin. rewrite Hso in Hin. apply elem_of_app in Hin as [Hin|Hin].
  - apply list_elem_of_singleton in Hin as ->. exists w. by split; [left|].
  - destruct (Hs _ Hin) as (w0 & ? & ?). exists w0. by split; [right|].
Qed.

Lemma set_version run v n : chaos_Version run = v → run <| chaos_Version := n |> <| chaos_Version := v |> = run.
Proof. intros <-. by destruct run. Qed.

Lemma chaos_update_event h σ σ' run version actor action x :
  chaos_answers _ σ (RepoUpdate run version actor action) x σ' → chaos_inv h σ →
  chaos_pre m _ h (RepoUpdate run version actor action) →
  chaos_post _ h (RepoUpdate run version actor action) x ∧
  chaos_inv (Occ _ (RepoUpdate run version actor action) x :: h) σ'.
Proof.
  intros [ctx Hx] Hi (old & Hold & -> & Htr & _).
  destruct (repo_update_spec _ _ _ _ _ _ _ _ (ci_repo _ _ Hi) Hx) as [Hr Hres]. destruct x as [run'|err].
  - destruct Hres as (Hv & (stored & Hst & Hsv) & Hrun' & He).
    split; [by intros ? [= <-]|].
    rewrite (same_ID _ _ (tr_request _ _ _ _ Htr)) in Hst.
    pose proof (seen_current _ _ _ _ Hi Hold Hst Hsv) as ->.
    destruct (ci_seen _ _ Hi _ Hold) as (w0 & Hw0 & Hw0r).
    assert (chaos_ID run' = chaos_ID old) as Hid.
    { rewrite Hrun'. exact (same_ID _ _ (tr_request _ _ _ _ Htr)). }
    apply (chaos_inv_write h σ σ' _ (mkWrite actor action run')); cbn [w_run w_actor w_action]; try done.
    + rewrite He, Hid. by rewrite (same_ID _ _ (tr_request _ _ _ _ Htr)).
    + intros r. rewrite Hid, Hst. intros [= <-]. split; [rewrite Hrun'; cbn; lia|].
      destruct (ended (chaos_Status old)) eqn:Hend; [|done]. apply may_follow_ended with (new := chaos_Status run) in Hend.
      by rewrite (tr_status _ _ _ _ Htr) in Hend.
    + right. exists w0. rewrite Hw0r. split; [by right|]. split; [by rewrite Hrun'|].
      cbn. rewrite Hrun', set_version; [done|]. by rewrite (tr_version _ _ _ _ Htr).
    + apply (transition_decided _ (mkWrite actor action run') old run); [|done|by rewrite Hrun'; split..].
      rewrite <- Hw0r. by apply (wo_decided _ _ (ci_writes _ _ Hi)).
  - split; [done|]. by eapply chaos_inv_quiet.
Qed.

Lemma chaos_create_event h σ σ' run actor action x :
  chaos_answers _ σ (RepoCreate run actor action) x σ' → chaos_inv h σ →
  chaos_pre m _ h (RepoCreate run actor action) →
  chaos_inv (Occ _ (RepoCreate run actor action) x :: h) σ'.
Proof.
  intros [ctx Hx] Hi Hc. cbn in Hc.
  destruct (repo_create_spec _ _ _ _ _ _ _ (ci_repo _ _ Hi) Hx) as [Hr Hres]. destruct x as [run'|err].
  - destruct Hres as (Hv & Hnone & Hrun' & He).
    assert (creation run' actor) as Hc' by (by rewrite Hrun').
    assert (chaos_ID run' = chaos_ID run) as Hid by (by rewrite Hrun').
    apply (chaos_inv_write h σ σ' _ (mkWrite actor action run')); cbn [w_run w_actor w_action]; try done.
    + by rewrite He, Hid.
    + intros r. by rewrite Hid, Hnone.
    + left. split; [by rewrite Hrun' | done].
    + by eapply creation_decided.
  - by eapply chaos_inv_quiet.
Qed.

Lemma chaos_inv_event X h σ σ' (e : ChaosE K X) x :
  chaos_answers X σ e x σ' → chaos_inv h σ → obeys (chaos_pre m) h → chaos_pre m X h e →
  chaos_post X h e x ∧ chaos_inv (Occ X e x :: h) σ'.
Proof.
  intros Hx Hi _ Hpre. pose proof (ci_repo _ _ Hi) as Hr. destruct e.
  all: try (cbn in Hx; subst; split; [done|]; by eapply chaos_inv_quiet).
  - destruct Hx as [ctx Hx]. destruct (repo_get_spec _ _ _ _ _ Hr Hx) as [-> Hrun]. split; [done|].
    eapply chaos_inv_read; try done. intros run Hin. destruct x as [run'|]; [|by apply elem_of_nil in Hin].
    apply list_elem_of_singleton in Hin as ->. specialize (Hrun _ eq_refl).
    by rewrite (repo_keys _ _ _ Hr Hrun).
  - destruct Hx as [ctx Hx]. destruct (repo_list_spec _ _ _ _ Hr Hx) as [-> Hrun]. split; [done|].
    eapply chaos_inv_read; try done. intros run Hin. destruct x as [runs|]; [|by apply elem_of_nil in Hin].
    by eapply Hrun.
  - split; [done|]. by eapply chaos_create_event.
  - by apply (chaos_update_event _ σ).
Qed.

Lemma chaos_entry_safe p h : chaos_entry p → safe (chaos_pre m) chaos_post h p (λ _ _, True).
Proof.
  assert (∀ A (q : P (ChaosE K) A), safe (chaos_pre m) chaos_post h q (on_ok (λ _ _, True)) →
    safe (chaos_pre m) chaos_post h (discard q) (λ _ _, True)) as Hd.
  { intros A q Hq. apply safe_bind. eapply safe_weaken; [|exact Hq]. by intros h' r _ h'' _. }
  intros []; apply Hd; auto using Request_checked, Approve_checked, Reject_checked, Execute_checked,
    Abort_checked, Get_checked, List_checked, reconcileAll_checked.
Qed.

Lemma chaos_execution_obeys h σ ts :
  chaos_execution h σ ts → chaos_inv h σ ∧ obeys (chaos_pre m) h.
Proof.
  intros He. eapply executions_obey in He as (Hi & Ho & _); [by split|..].
  - apply chaos_inv_init.
  - apply chaos_inv_env.
  - apply chaos_inv_event.
  - apply chaos_entry_safe.
Qed.

(** The precondition of an event in the middle of a history, and the invariant before it. *)
Lemma chaos_event_pre h σ ts later X (e : ChaosE K X) x before :
  chaos_execution h σ ts → h = later ++ Occ X e x :: before →
  chaos_pre m X before e ∧ ∃ σ', chaos_inv before σ'.
Proof.
  intros He Heq.
  destruct (execution_before _ _ _ _ _ _ _ later _ He Heq) as (σ1 & ts1 & H1).
  destruct (chaos_execution_obeys _ _ _ H1) as [_ Ho]. cbn in Ho. destruct Ho as [Hpre _]. split; [done|].
  destruct (execution_before _ _ _ _ _ _ _ [Occ X e x] before H1 eq_refl) as (σ2 & ts2 & H2).
  exists σ2. by apply (chaos_execution_obeys _ _ ts2).
Qed.

(** C10. A chaos resource is created only for a run that two people stand behind: in every concurrent
    execution, a creation request that is not a dry run comes after an approval of that very request by
    somebody other than its requester, and after a request to execute it; what is created is the
    approved manifest, within the validated bounds, labelled with the run. *)
Theorem chaos_two_person h σ ts later before gvr namespace o fieldManager x
    (He : chaos_execution h σ ts)
    (Hh : h = later ++ Occ _ (KubeCreate gvr namespace o false fieldManager) x :: before) :
  ∃ run approval execution r manifest,
    approval ∈ writes before ∧ w_action approval = "chaos.approved" ∧ same_request (w_run approval) run ∧
    w_actor approval ≠ chaos_RequestedBy run ∧
    execution ∈ writes before ∧ w_action execution = "chaos.execution.requested" ∧
    same_request (w_run execution) run ∧
    m_runner m = Some r ∧ decodeChaosObject (chaos_Manifest run) = Ok manifest ∧
    validateTarget r manifest = Ok tt ∧ allowed_resource (GetGVK manifest) = Some gvr ∧
    namespace = GetNamespace manifest ∧ o = SetLabels (owned_labels run (GetLabels manifest)) manifest.
Proof.
  destruct (chaos_event_pre _ _ _ _ _ _ _ _ He Hh) as [[|(run & Hrun & Hst & Hc)] [σ' Hi]]; [done|].
  destruct Hc as (r & o0 & Hr & Hdec & Hgvr & Hval & Hns & _ & _ & _ & Ho).
  destruct (ci_seen _ _ Hi _ Hrun) as (w & Hw & <-).
  destruct (wo_decided _ _ (ci_writes _ _ Hi) _ Hw) as [Ha Hx]. rewrite Hst in Ha, Hx.
  destruct (Ha eq_refl) as (wa & ? & ? & ? & ? & ?). destruct (Hx eq_refl) as (wx & ? & ? & ?).
  exists (w_run w), wa, wx, r, o0. done.
Qed.

(** C13. In every concurrent execution each stored version of a run is either its creation, by its
    requester, or follows the version before along a legal transition: concurrent handlers and
    reconcilers never overwrite each other's changes, what was requested never changes, and only a
    decision by somebody other than the requester sets the approver. *)
Theorem chaos_transitions h σ ts w (He : chaos_execution h σ ts) (Hw : w ∈ writes h) : legal (writes h) w.
Proof. destruct (chaos_execution_obeys _ _ _ He) as [Hi _]. by apply (wo_legal _ _ (ci_writes _ _ Hi)). Qed.

(** A run that has ended, rejected, expired, aborted, failed or succeeded, stays as it is: whatever
    handlers and reconcilers run afterwards, it is the run the repository holds. *)
Theorem chaos_ended_final h σ ts w (He : chaos_execution h σ ts) (Hw : w ∈ writes h)
    (Hend : ended (chaos_Status (w_run w)) = true) :
  runs_of σ !! chaos_ID (w_run w) = Some (w_run w).
Proof. destruct (chaos_execution_obeys _ _ _ He) as [Hi _]. by apply (wo_ended _ _ (ci_writes _ _ Hi)). Qed.

(** C25. Success is recorded, and an abort of a started run completed, only after its recovery was
    observed: after the run was read, its resource was absent and at least as many target pods as it
    counts on were listed, all ready. *)
Theorem chaos_recovery_verified h σ ts later before run version actor action x
    (He : chaos_execution h σ ts)
    (Hh : h = later ++ Occ _ (RepoUpdate run version actor action) x :: before) :
  ∃ old, old ∈ seen before ∧ same_request old run ∧ version = chaos_Version old ∧
    (chaos_Status run = ChaosSucceeded ∨
     (chaos_Status old = ChaosAbortRequested ∧ chaos_Status run = ChaosAborted) → recovered before old).
Proof.
  destruct (chaos_event_pre _ _ _ _ _ _ _ _ He Hh) as [(old & Hold & Hv & Htr & Hend) _].
  exists old. split; [done|]. split; [apply Htr|]. by split.
Qed.

(** Deletions are issued only for runs in a state that asks for cleanup, by kind, namespace and name
    of the recorded resource. *)
Theorem chaos_deletes_requested h σ ts later before gvr namespace name x
    (He : chaos_execution h σ ts)
    (Hh : h = later ++ Occ _ (KubeDelete gvr namespace name) x :: before) :
  ∃ w r, w ∈ writes before ∧ m_runner m = Some r ∧ resourceForRun r (w_run w) = Ok gvr ∧
    in_list (chaos_Status (w_run w)) [ChaosCleanupRequested; ChaosAbortRequested; ChaosVerifying] = true ∧
    namespace = ref_Namespace (chaos_Resource (w_run w)) ∧ name = ref_Name (chaos_Resource (w_run w)).
Proof.
  destruct (chaos_event_pre _ _ _ _ _ _ _ _ He Hh) as [(run & r & Hrun & Hc) [σ' Hi]].
  destruct (ci_seen _ _ Hi _ Hrun) as (w & Hw & <-). exists w, r. done.
Qed.

End Concurrent.

(** * A scenario

    A run requested by alice, approved by bob, executed, reconciled to success, against the in-memory
    store and a cluster that holds one resource. *)

Module Scenario.

Record world := mkWorld { w_store : MemoryStore; w_clock : Time; w_cluster : option json_object }.

#[local] Instance order : RangeOrder := canonical_order.

(** The resource as the chaos controller reports it. *)
Definition injected (o : json_object) : json_object :=
  mkJsonObject (jo_fields o ++ [("status", AMap [("conditions",
    ASlice [AMap [("type", AString "AllInjected"); ("status", AString "True")]])])]) (jo_labels o).

Definition pod (name : string) : json_object :=
  mkJsonObject [("metadata", AMap [("name", AString name)]);
    ("status", AMap [("phase", AString "Running");
      ("conditions", ASlice [AMap [("type", AString "Ready"); ("status", AString "True")]])])] ∅.

Definition NotFound : GoError := Errorf "NotFound".
Definition AlreadyExists : GoError := Errorf "AlreadyExists".

(** Every look at the clock advances it by a minute. *)
Definition handle X (e : ChaosE json_kubernetes X) (d : world) : X * world :=
  let on_store {A} (op : M MemoryStore A) : result A * world :=
    let '(r, s) := op (w_store d) in (r, mkWorld s (w_clock d) (w_cluster d)) in
  match e in ChaosE _ X return X * world with
  | Now => (w_clock d, mkWorld (w_store d) (w_clock d + Minute) (w_cluster d))
  | NewUUID => ("1", d)
  | RepoGet id => on_store (repo_get None id)
  | RepoList => on_store (repo_list None)
  | RepoCreate run actor action => on_store (repo_create None run actor action)
  | RepoUpdate run version actor action => on_store (repo_update None run version actor action)
  | KubeCreate gvr namespace o dryRun _ =>
      if (dryRun : bool) then (Ok o, d)
      else match w_cluster d with
           | None => (Ok o, mkWorld (w_store d) (w_clock d) (Some o))
           | Some _ => (Err AlreadyExists, d)
           end
  | KubeGet _ _ _ => (match w_cluster d with Some o => Ok (injected o) | None => Err NotFound end, d)
  | KubeDelete _ _ _ => (Ok tt, mkWorld (w_store d) (w_clock d) None)
  | KubeList _ _ _ _ => (Ok [pod "web-1"; pod "web-2"], d)
  end.

Lemma handle_sound X (e : ChaosE json_kubernetes X) d :
  chaos_answers X (w_store d) e (handle X e d).1 (w_store (handle X e d).2).
Proof.
  assert (∀ A (op : Context → M MemoryStore A),
    let rs := let '(r, s) := op None (w_store d) in (r, mkWorld s (w_clock d) (w_cluster d)) in
    ∃ ctx, op ctx (w_store d) = (rs.1, w_store rs.2)) as Hop.
  { intros A op. exists None. by destruct (op None (w_store d)). }
  destruct e; cbn [handle chaos_answers]; try done.
  - exact (Hop _ (λ ctx, repo_get ctx id)).
  - exact (Hop _ (λ ctx, repo_create ctx run actor action)).
  - exact (Hop _ (λ ctx, repo_update ctx run expectedVersion actor action)).
  - by destruct dryRun, (w_cluster d).
Qed.

Definition manager : ChaosManager := mkChaosManager (Some NewChaosRunnerFromClient) true.

Definition manifest : string := requote
  "{'apiVersion':'chaos-mesh.org/v1alpha1','kind':'NetworkChaos','metadata':{'namespace':'default','name':'delay-web'},'spec':{'mode':'fixed','value':'2','duration':'90s','action':'delay','direction':'to','selector':{'namespaces':['default'],'labelSelectors':{'app':'web'}},'delay':{'latency':'200ms'}}}".

Definition initial : world := mkWorld (NewMemoryStore [WithIntegrations []; WithFindings []]) (64000000000 * Second) None.

Abbreviation program := (prog (ChaosE json_kubernetes) unit).

(** The programs one after the other: the world and the history reached. *)
Definition play (ps : list program) : world * history (ChaosE json_kubernetes) :=
  drive_all handle initial ps.

Lemma chaos_play_execution ps :
  Forall (chaos_entry manager) ps →
  ∃ ts, chaos_execution manager (play ps).2 (w_store (play ps).1) ts.
Proof.
  apply (drive_all_execution handle _ _ _ _ w_store handle_sound). split; [apply inv_init | done].
Qed.

Definition run_id : string := "chaos-run-1".
Definition steps : list program := [
  discard (Request manager "experiment-1" manifest "alice");
  discard (Approve run_id "bob" " within the agreed window ");
  discard (Execute manager run_id "alice");
  discard (reconcileAll manager); discard (reconcileAll manager); discard (reconcileAll manager);
  discard (reconcileAll manager); discard (reconcileAll manager)].

Lemma chaos_steps_entries : Forall (chaos_entry manager) steps.
Proof.
  apply Forall_cons; split; [apply enter_Request|]. apply Forall_cons; split; [apply enter_Approve|].
  apply Forall_cons; split; [apply enter_Execute|].
  repeat (apply Forall_cons; split; [apply enter_reconcileAll|]). apply Forall_nil_2.
Qed.

Definition trace : history (ChaosE json_kubernetes) := (play steps).2.

Lemma trace_execution : ∃ ts, chaos_execution manager trace (w_store (play steps).1) ts.
Proof. apply chaos_play_execution, chaos_steps_entries. Qed.

Example trace_actions : rev (map w_action (writes trace)) =
  ["chaos.approval.requested"; "chaos.approved"; "chaos.execution.requested"; "chaos.resource.created";
   "chaos.execution.started"; "chaos.cleanup.requested"; "chaos.cleanup.completed"; "chaos.succeeded"].
Proof. vm_compute. reflexivity. Qed.

(** An event of a kind, with what came after and before it. *)
Lemma split_at {B} (f : occurrence (ChaosE json_kubernetes) → option B) (h : history (ChaosE json_kubernetes)) :
  existsb (λ o, match f o with Some _ => true | None => false end) h = true →
  ∃ later o before b, h = later ++ o :: before ∧ f o = Some b.
Proof.
  induction h as [|o h IH]; cbn; [done|]. destruct (f o) as [b|] eqn:E; [by exists [], o, h, b|].
  intros Hf. destruct (IH Hf) as (later & o' & before & b & -> & Hb). by exists (o :: later), o', before, b.
Qed.

Definition as_create (o : occurrence (ChaosE json_kubernetes)) :=
  match o with
  | Occ X e x =>
      match e in ChaosE _ X return X → option (GroupVersionResource * string * json_object * string * result json_object) with
      | KubeCreate gvr namespace o false manager => λ x, Some (gvr, namespace, o, manager, x)
      | _ => λ _, None
      end x
  end.

Lemma as_create_spec o gvr namespace ob manager x :
  as_create o = Some (gvr, namespace, ob, manager, x) → o = Occ _ (KubeCreate gvr namespace ob false manager) x.
Proof. destruct o as [X e y]. destruct e; try done. destruct dryRun; [done|]. by intros [= -> -> -> -> ->]. Qed.

Definition as_delete (o : occurrence (ChaosE json_kubernetes)) :=
  match o with
  | Occ X e x =>
      match e in ChaosE _ X return X → option (GroupVersionResource * string * string * result unit) with
      | KubeDelete gvr namespace name => λ x, Some (gvr, namespace, name, x)
      | _ => λ _, None
      end x
  end.

Lemma as_delete_spec o gvr namespace name x :
  as_delete o = Some (gvr, namespace, name, x) → o = Occ _ (KubeDelete gvr namespace name) x.
Proof. destruct o as [X e y]. destruct e; try done. by intros [= -> -> -> ->]. Qed.

Definition as_update (o : occurrence (ChaosE json_kubernetes)) :=
  match o with
  | Occ X e x =>
      match e in ChaosE _ X return X → option (Run * Z * string * string * result Run) with
      | RepoUpdate run version actor action => λ x, Some (run, version, actor, action, x)
      | _ => λ _, None
      end x
  end.

Lemma as_update_spec o run version actor action x :
  as_update o = Some (run, version, actor, action, x) → o = Occ _ (RepoUpdate run version actor action) x.
Proof. destruct o as [X e y]. destruct e; try done. by intros [= -> -> -> -> ->]. Qed.

Lemma trace_create : ∃ later before gvr namespace o manager x,
  trace = later ++ Occ _ (KubeCreate gvr namespace o false manager) x :: before.
Proof.
  destruct (split_at as_create trace) as (later & o & before & [[[[gvr ns] ob] fm] x] & Hh & ->%as_create_spec);
    [vm_compute; reflexivity|].
  exists later, before, gvr, ns, ob, fm, x. exact Hh.
Qed.

Lemma trace_delete : ∃ later before gvr namespace name x,
  trace = later ++ Occ _ (KubeDelete gvr namespace name) x :: before.
Proof.
  destruct (split_at as_delete trace) as (later & o & before & [[[gvr ns] name] x] & Hh & ->%as_delete_spec);
    [vm_compute; reflexivity|].
  exists later, before, gvr, ns, name, x. exact Hh.
Qed.

Definition as_success (o : occurrence (ChaosE json_kubernetes)) :=
  match as_update o with
  | Some (run, version, actor, action, x) =>
      if chaos_Status run == ChaosSucceeded then Some (run, version, actor, action, x) else None
  | None => None
  end.

Lemma trace_success : ∃ later before run version actor action x,
  trace = later ++ Occ _ (RepoUpdate run version actor action) x :: before ∧ chaos_Status run = ChaosSucceeded.
Proof.
  destruct (split_at as_success trace) as (later & o & before & [[[[run version] actor] action] x] & Hh & Ho);
    [vm_compute; reflexivity|].
  unfold as_success in Ho. destruct (as_update o) as [[[[[run' version'] actor'] action'] x']|] eqn:E; [|discriminate Ho].
  apply as_update_spec in E as ->. destruct (String.eqb_spec (chaos_Status run') ChaosSucceeded); [|discriminate Ho].
  exists later, before, run', version', actor', action', x'. split; [exact Hh | assumption].
Qed.

Lemma trace_ended : ∃ w, w ∈ writes trace ∧ ended (chaos_Status (w_run w)) = true.
Proof.
  assert (existsb (λ w, ended (chaos_Status (w_run w))) (writes trace) = true) as He by (vm_compute; reflexivity).
  apply existsb_exists in He as (w & Hin & Hend). exists w. split; [by apply list_elem_of_In | exact Hend].
Qed.

End Scenario.

Lemma chaos_two_person_witness :
  ∃ later before gvr namespace o manager x run approval,
    Scenario.trace = later ++ Occ _ (KubeCreate gvr namespace o false manager) x :: before ∧
    approval ∈ writes before ∧ w_action approval = "chaos.approved" ∧ same_request (w_run approval) run ∧
    w_actor approval ≠ chaos_RequestedBy run.
Proof.
  destruct Scenario.trace_execution as [ts Hts].
  destruct Scenario.trace_create as (later & before & gvr & ns & o & fm & x & Hh).
  destruct (chaos_two_person _ _ _ _ _ _ _ _ _ _ _ Hts Hh) as (run & approval & ex & r & mf & H1 & H2 & H3 & H4 & _).
  exists later, before, gvr, ns, o, fm, x, run, approval. exact (conj Hh (conj H1 (conj H2 (conj H3 H4)))).
Defined.

Lemma chaos_transitions_witness : ∃ w, w ∈ writes Scenario.trace ∧ legal (writes Scenario.trace) w.
Proof.
  destruct Scenario.trace_execution as [ts Hts]. destruct Scenario.trace_ended as (w & Hw & _).
  exists w. split; [exact Hw|]. exact (chaos_transitions _ _ _ _ _ Hts Hw).
Defined.

Lemma chaos_ended_final_witness :
  ∃ w, w ∈ writes Scenario.trace ∧ ended (chaos_Status (w_run w)) = true ∧
    ms_chaosRuns (Scenario.w_store (Scenario.play Scenario.steps).1) !! chaos_ID (w_run w) = Some (w_run w).
Proof.
  destruct Scenario.trace_execution as [ts Hts]. destruct Scenario.trace_ended as (w & Hw & Hend).
  exists w. split; [exact Hw|]. split; [exact Hend|]. exact (chaos_ended_final _ _ _ _ _ Hts Hw Hend).
Defined.

Lemma chaos_recovery_verified_witness :
  ∃ later before run version actor action x old,
    Scenario.trace = later ++ Occ _ (RepoUpdate run version actor action) x :: before ∧
    old ∈ seen before ∧ recovered before old.
Proof.
  destruct Scenario.trace_execution as [ts Hts].
  destruct Scenario.trace_success as (later & before & run & version & actor & action & x & Hh & Hst).
  destruct (chaos_recovery_verified _ _ _ _ _ _ _ _ _ _ _ Hts Hh) as (old & Hold & _ & _ & Hrec).
  exists later, before, run, version, actor, action, x, old. split; [exact Hh|]. split; [exact Hold|].
  apply Hrec. by left.
Defined.

Lemma chaos_deletes_requested_witness :
  ∃ later before gvr namespace name x w,
    Scenario.trace = later ++ Occ _ (KubeDelete gvr namespace name) x :: before ∧ w ∈ writes before ∧
    name = ref_Name (chaos_Resource (w_run w)).
Proof.
  destruct Scenario.trace_execution as [ts Hts].
  destruct Scenario.trace_delete as (later & before & gvr & ns & name & x & Hh).
  destruct (chaos_deletes_requested _ _ _ _ _ _ _ _ _ _ Hts Hh) as (w & r & Hw & _ & _ & _ & _ & Hname).
  exists later, before, gvr, ns, name, x, w. exact (conj Hh (conj Hw Hname)).
Defined.
