(* ===== verification/ChaosBounds.v ===== *)
(** The bounds on what the chaos runner accepts, and two facts about single operations: the list of
    pods it waits for, and the deletion by name. *)
From S2P Require Import Prelude GoLib GoDuration Json Core Kube Interaction Store StoreProps ChaosRepository.
From S2P Require Import Chaos ChaosProps ChaosTrace.

Local Open Scope Z_scope.

Section Bounds.
Context `{K : Kubernetes}.
Implicit Types o : object.

(** A duration text within bounds, a number text within bounds. *)
Definition duration_in (low high : Duration) (text : string) : Prop :=
  ∃ d, ParseDuration text = Some d ∧ low ≤ d ≤ high.
Definition number_in (low high : Z) (text : string) : Prop := ∃ n, Atoi text = Some n ∧ low ≤ n ≤ high.

Lemma duration_within_spec low high text : duration_within low high text = true ↔ duration_in low high text.
Proof.
  unfold duration_within, duration_in. destruct (ParseDuration text) as [d|]; [|by split; [|intros (? & ? & _)]].
  rewrite andb_true_iff, !Z.leb_le. split; [by exists d | by intros (? & [= <-] & ?)].
Qed.

Lemma int_within_spec low high text : int_within low high text = true ↔ number_in low high text.
Proof.
  unfold int_within, number_in. destruct (Atoi text) as [d|]; [|by split; [|intros (? & ? & _)]].
  rewrite andb_true_iff, !Z.leb_le. split; [by exists d | by intros (? & [= <-] & ?)].
Qed.

Lemma found_within_spec low high r : found_within low high r = true ↔ ∃ n, r = Ok (Some n) ∧ low ≤ n ≤ high.
Proof.
  unfold found_within. destruct r as [[n|]|]; [|by split; [|intros (? & ? & _)]..].
  rewrite andb_true_iff, !Z.leb_le. split; [by exists n | by intros (? & [= <-] & ?)].
Qed.

Lemma in_list_spec s l : in_list s l = true ↔ s ∈ l.
Proof.
  unfold in_list. rewrite existsb_exists. split.
  - intros (t & Hin & ->%String.eqb_eq). by apply list_elem_of_In.
  - intros Hin. exists s. split; [by apply list_elem_of_In | apply String.eqb_refl].
Qed.

(** What each kind of experiment may do. *)
Definition network_bounds o : Prop :=
  spec_string ["action"] o = "delay" ∧ spec_string ["direction"] o = "to" ∧
  spec_found ["target"] o = false ∧ spec_strings ["externalTargets"] o = [] ∧
  duration_in 1 (500 * 1000000) (spec_string ["delay"; "latency"] o) ∧
  (spec_string ["delay"; "jitter"] o = "" ∨ duration_in 0 (100 * 1000000) (spec_string ["delay"; "jitter"] o)) ∧
  (spec_string ["delay"; "correlation"] o = "" ∨ number_in 0 100 (spec_string ["delay"; "correlation"] o)) ∧
  spec_found ["delay"; "reorder"] o = false.

Definition stress_bounds o : Prop :=
  spec_found ["stressors"; "memory"] o = false ∧
  spec_int ["stressors"; "cpu"; "workers"] o = Ok (Some 1) ∧
  ∃ load, spec_int ["stressors"; "cpu"; "load"] o = Ok (Some load) ∧ 1 ≤ load ≤ 80.

Definition dns_bounds o : Prop :=
  spec_string ["action"] o = "error" ∧ (1 ≤ length (spec_strings ["patterns"] o) ≤ 5)%nat ∧
  Forall (λ p, validExactDNSName p = true) (spec_strings ["patterns"] o).

Lemma unless_last cond msg : unless cond msg = Ok tt ↔ cond = true.
Proof. by destruct cond. Qed.

Lemma then_ok (r : result unit) (k : result unit) : (r;; k) = Ok tt ↔ r = Ok tt ∧ k = Ok tt.
Proof. destruct r as [[]|]; cbn; naive_solver. Qed.

Ltac checks := rewrite ?unless_ok, ?unless_last, ?negb_true_iff, ?orb_true_iff,
  ?String.eqb_eq, ?duration_within_spec, ?int_within_spec, ?found_within_spec.

Lemma validateNetworkChaos_spec o : validateNetworkChaos o = Ok tt ↔ network_bounds o.
Proof.
  unfold validateNetworkChaos, network_bounds. cbv zeta. checks. rewrite Nat.eqb_eq, length_zero_iff_nil. done.
Qed.

Lemma validateStressChaos_spec o : validateStressChaos o = Ok tt ↔ stress_bounds o.
Proof.
  unfold validateStressChaos, stress_bounds. checks. split.
  - intros (? & (n & Hn & ?) & ?). split; [done|]. split; [|done]. rewrite Hn. do 2 f_equal. lia.
  - intros (? & Hn & ?). split; [done|]. split; [|done]. exists 1. split; [done | lia].
Qed.

Lemma check_patterns_spec ps : check_patterns ps = Ok tt ↔ Forall (λ p, validExactDNSName p = true) ps.
Proof.
  induction ps as [|p ps IH]; cbn [check_patterns]; [by split; intros; [constructor|]|].
  checks. by rewrite IH, Forall_cons.
Qed.

Lemma validateDNSChaos_spec o : validateDNSChaos o = Ok tt ↔ dns_bounds o.
Proof.
  unfold validateDNSChaos, dns_bounds. cbv zeta. checks.
  rewrite andb_true_iff, negb_true_iff, Nat.eqb_neq, Z.leb_le, check_patterns_spec.
  split; intros (? & [? ?] & ?); (split; [done|]); (split; [|done]); lia.
Qed.

Lemma validateChaosKindBounds_spec o :
  validateChaosKindBounds o = Ok tt ↔
  (GetKind o = "NetworkChaos" ∧ network_bounds o) ∨ (GetKind o = "StressChaos" ∧ stress_bounds o) ∨
  (GetKind o = "DNSChaos" ∧ dns_bounds o).
Proof.
  unfold validateChaosKindBounds.
  rewrite <- validateNetworkChaos_spec, <- validateStressChaos_spec, <- validateDNSChaos_spec.
  destruct (String.eqb_spec (GetKind o) "NetworkChaos") as [->|];
    [|destruct (String.eqb_spec (GetKind o) "StressChaos") as [->|];
      [|destruct (String.eqb_spec (GetKind o) "DNSChaos") as [->|]]]; naive_solver.
Qed.

Lemma valid_mode_spec o :
  valid_mode o = Ok tt ↔
  spec_string ["mode"] o = "one" ∨ (spec_string ["mode"] o = "fixed" ∧ number_in 1 3 (spec_string ["value"] o)).
Proof.
  unfold valid_mode. destruct (String.eqb_spec (spec_string ["mode"] o) "one") as [->|]; [naive_solver|].
  destruct (String.eqb_spec (spec_string ["mode"] o) "fixed") as [->|]; [|naive_solver].
  checks. naive_solver.
Qed.

(** The runner accepts a manifest exactly when it stays within the bounds: an allowlisted,
    unprotected namespace that the selector names alone, an explicit label selector, one target or a
    fixed number up to three, a duration up to five minutes, and one of the three bounded faults. *)
Theorem validateTarget_spec (r : ChaosRunner) o :
  validateTarget r o = Ok tt ↔
  GetNamespace o ∉ protectedChaosNamespaces ∧ HasPrefix (GetNamespace o) "kube-" = false ∧
  GetNamespace o ∈ r_allowedNamespaces r ∧
  spec_strings ["selector"; "namespaces"] o = [GetNamespace o] ∧ target_labels o ≠ ∅ ∧
  (spec_string ["mode"] o = "one" ∨ (spec_string ["mode"] o = "fixed" ∧ number_in 1 3 (spec_string ["value"] o))) ∧
  duration_in 1 (5 * Minute) (spec_string ["duration"] o) ∧
  ((GetKind o = "NetworkChaos" ∧ network_bounds o) ∨ (GetKind o = "StressChaos" ∧ stress_bounds o) ∨
   (GetKind o = "DNSChaos" ∧ dns_bounds o)).
Proof.
  unfold validateTarget. cbv zeta. checks. rewrite then_ok. checks.
  rewrite orb_false_iff, in_list_spec, !bool_decide_eq_true, <- validateChaosKindBounds_spec, <- valid_mode_spec.
  rewrite <- (in_list_spec _ protectedChaosNamespaces), not_true_iff_false. unfold maxChaosDuration. tauto.
Qed.

(** The planned target count of an accepted manifest: one, or the number it fixes. *)
Lemma plannedTargetCount_accepted o :
  valid_mode o = Ok tt → ∃ n, plannedTargetCount o = Ok n ∧ 1 ≤ n ≤ 3.
Proof.
  rewrite valid_mode_spec. unfold plannedTargetCount. cbv zeta.
  destruct (String.eqb_spec (spec_string ["mode"] o) "one") as [->|]; [by exists 1|].
  intros [|[-> (count & -> & ?)]]; [done|]. exists count. split; [|done].
  cbn [String.eqb negb orb]. destruct (count <? 1) eqn:?, (3 <? count) eqn:?; try lia. done.
Qed.

End Bounds.

(** * Deletion goes by name

    [Delete] never looks at the owner of the resource. *)

Section Deletion.
Context `{K : Kubernetes}.
Variable m : ChaosManager.

Lemma performs_step {E A X} (p q q' : prog E A) h (e : E X) k x :
  performs p h q → q = Vis e k → k x = q' → performs p (Occ X e x :: h) q'.
Proof. intros Hp -> <-. by constructor. Qed.

(** What the abort of a run under execution stores. *)
Definition abort_requested (run : Run) (actor reason : string) (now : Time) : Run :=
  run <| chaos_Status := ChaosAbortRequested |> <| chaos_AbortedBy := actor |>
      <| chaos_Message := "chaos abort requested; deleting the owned resource: " +:+ TrimSpace reason |>
      <| chaos_UpdatedAt := now |>
      <| chaos_RecoveryDeadline := Some (Add now (chaosCleanupGrace + chaosRecoveryWindow)) |>.

(** A reconciliation of a run that is to be aborted deletes first. *)
Lemma reconcile_deletes r run gvr now h {A} (p : P (ChaosE K) A) (k : unit → P (ChaosE K) A) :
  m_runner m = Some r → resourceForRun r run = Ok gvr → chaos_Status run = ChaosAbortRequested →
  performs p h (reconcileOne m run ≫= k) →
  ∃ k', performs p (Occ _ Now now :: h)
    (Vis (KubeDelete gvr (ref_Namespace (chaos_Resource run)) (ref_Name (chaos_Resource run))) k').
Proof.
  intros Hr Hgvr Hstatus Hp. assert (∃ k1, reconcile_abort m run now =
    Vis (KubeDelete gvr (ref_Namespace (chaos_Resource run)) (ref_Name (chaos_Resource run))) k1) as [k1 Hdelete].
  { unfold reconcile_abort, runner. rewrite Hr. eexists.
    match goal with |- _ ≫= ?f = _ => transitivity (f r); [reflexivity|] end.
    cbv beta. unfold Delete. rewrite Hgvr. reflexivity. }
  eexists. eapply performs_step; [exact Hp | reflexivity |]. cbv beta.
  rewrite Hstatus. change (ChaosAbortRequested == ChaosPendingApproval) with false.
  change (ChaosAbortRequested == ChaosExecutionRequested) with false. change (ChaosAbortRequested == ChaosRunning) with false.
  change (ChaosAbortRequested == ChaosCleanupRequested) with false.
  change (ChaosAbortRequested == ChaosAbortRequested) with true. cbn [andb]. rewrite Hdelete. reflexivity.
Qed.

(** C36. Deletion does not check ownership. For every run under execution, whatever resource carries its name and
    whoever owns that: when it is aborted with a reason, a runner being configured for the kind of its resource and
    the repository having answered the run and stored the request, the call that follows is the deletion of the
    resource by its name. None of the four calls before it, and these are all, looked at the resource. *)
Theorem abort_deletes_unseen (r : ChaosRunner) (id actor reason : string) (run stored : Run)
    (gvr : GroupVersionResource) (now later : Time)
    (Hrunner : m_runner m = Some r) (Hreason : TrimSpace reason ≠ "")
    (Hstatus : chaos_Status run ∈ [ChaosExecutionRequested; ChaosRunning; ChaosCleanupRequested; ChaosVerifying])
    (Hstored : chaos_Status stored = ChaosAbortRequested) (Hgvr : resourceForRun r stored = Ok gvr) :
  ∃ k, performs (Abort m id actor reason)
    [Occ _ Now later;
     Occ _ (RepoUpdate (abort_requested run actor reason now) (chaos_Version run) actor "chaos.abort.requested") (Ok stored);
     Occ _ Now now;
     Occ _ (RepoGet id) (Ok run)]
    (Vis (KubeDelete gvr (ref_Namespace (chaos_Resource stored)) (ref_Name (chaos_Resource stored))) k).
Proof.
  apply String.eqb_neq in Hreason.
  assert (abortable (chaos_Status run) = true ∧
    (chaos_Status run == ChaosPendingApproval) || (chaos_Status run == ChaosApproved) = false) as [Habort Hstarted].
  { revert Hstatus. generalize (chaos_Status run). intros s Hs. rewrite !elem_of_cons in Hs.
    by destruct Hs as [->|[->|[->|[->|[]%elem_of_nil]]]]. }
  apply (reconcile_deletes r stored gvr later _ _ (λ _, call (RepoGet id))); [done..|].
  eapply performs_step; [eapply performs_step; [eapply performs_step; [constructor | |]| |]| |].
  - unfold Abort. rewrite Hreason. reflexivity.
  - cbv beta iota. rewrite Habort. reflexivity.
  - reflexivity.
  - cbv beta. rewrite Hstarted. reflexivity.
  - reflexivity.
  - reflexivity.
Qed.
End Deletion.

(** A run that could not create its resource, because somebody else's has the name, and its abort. *)
Module ForeignResource.
Import Scenario.

(** A resource with the name of the run's, that belongs to somebody else. *)
Definition foreign : json_object :=
  mkJsonObject [("metadata", AMap [("name", AString "delay-web")])] {[run_label := "somebody-else"]}.

Definition occupied : world := mkWorld (w_store initial) (w_clock initial) (Some foreign).

Definition play_on (d : world) (ps : list program) : world :=
  foldl (λ d p, let '(_, d', _) := drive handle p d [] in d') d ps.

Definition requested : list program := [
  discard (Request manager "experiment-1" manifest "alice");
  discard (Approve run_id "bob" "ok");
  discard (Execute manager run_id "alice")].

Definition status_of (d : world) : option string := chaos_Status <$> ms_chaosRuns (w_store d) !! run_id.

Example abort_deletes_foreign :
  (status_of (play_on occupied requested), w_cluster (play_on occupied requested)) =
    (Some ChaosExecutionRequested, Some foreign) ∧
  owner_label foreign ≠ run_id ∧
  (status_of (play_on occupied (requested ++ [discard (Abort manager run_id "alice" "stop")])),
   w_cluster (play_on occupied (requested ++ [discard (Abort manager run_id "alice" "stop")]))) =
    (Some ChaosAborted, None).
Proof.
  split; [vm_compute; reflexivity|]. split; [|vm_compute; reflexivity].
  vm_compute. intros H. discriminate H.
Qed.

Definition refused_run : Run := default zero_ChaosExperimentRun (ms_chaosRuns (w_store (play_on occupied requested)) !! run_id).

Lemma abort_deletes_unseen_witness :
  ∃ gvr k, performs (Abort (K := json_kubernetes) manager run_id "alice" "stop")
    [Occ _ Now 20;
     Occ _ (RepoUpdate (abort_requested refused_run "alice" "stop" 10) (chaos_Version refused_run) "alice"
              "chaos.abort.requested") (Ok (abort_requested refused_run "alice" "stop" 10));
     Occ _ Now 10;
     Occ _ (RepoGet run_id) (Ok refused_run)]
    (Vis (KubeDelete gvr "default" "delay-web") k).
Proof.
  destruct (resourceForRun NewChaosRunnerFromClient (abort_requested refused_run "alice" "stop" 10)) as [gvr|] eqn:Hgvr;
    [|exfalso; by vm_compute in Hgvr].
  destruct (abort_deletes_unseen (K := json_kubernetes) manager NewChaosRunnerFromClient run_id "alice" "stop" refused_run
    (abort_requested refused_run "alice" "stop" 10) gvr 10 20) as [k Hk].
  - reflexivity.
  - vm_compute. discriminate.
  - vm_compute. left.
  - reflexivity.
  - exact Hgvr.
  - exists gvr, k. exact Hk.
Defined.

End ForeignResource.
