(* ===== verification/ChaosLiveness.v ===== *)
(** Every chaos run ends: in surroundings that cooperate, a run under execution reaches a final state
    within a bounded number of passes of the reconciler. *)
From S2P Require Import Prelude GoLib GoDuration Json Core Kube Interaction Store ChaosRepository Chaos ChaosProps.

Local Open Scope Z_scope.

Section Liveness.
Context `{K : Kubernetes}.
Variables (m : ChaosManager) (r : ChaosRunner) (manifest : string).

(** The time is past every deadline the run records, and past the end of its bounded execution. *)
Record late (now : Time) (run : Run) : Prop := {
  late_injection t : chaos_InjectionDeadline run = Some t → t ≤ now;
  late_recovery t : chaos_RecoveryDeadline run = Some t → t ≤ now;
  late_execution t : chaos_StartedAt run = Some t → Add t (run_duration run) ≤ now
}.

(** What the run is about; no update changes it. *)
Definition target_of (run : Run) : ResourceRef * string := (chaos_Resource run, chaos_Manifest run).

Definition bump (run : Run) : Run := run <| chaos_Version := chaos_Version run + 1 |>.

(** Surroundings: [stored] is the run in the repository, [absent] whether its resource does not exist.
    The repository stores what the reconciler writes; each look at the clock is late for the run as it
    is stored; a deletion takes effect; the resource that exists is the run's own and has a readable
    status; the pods can be listed. Creating the resource of the manifest may fail, but not with a panic, and the
    pods need not recover. *)
Section Surroundings.
Context {D : Type} (handle : ∀ X, ChaosE K X → D → X * D) (stored : D → Run) (absent : D → bool).

Definition quiet (d d' : D) : Prop := stored d' = stored d ∧ absent d' = absent d.

Class Cooperative : Prop := {
  coop_runner : m_runner m = Some r;
  coop_now d : let '(now, d') := handle _ Now d in late now (stored d) ∧ quiet d d';
  coop_update d run actor action :
    let '(x, d') := handle _ (RepoUpdate run (chaos_Version (stored d)) actor action) d in
    x = Ok (run <| chaos_Version := chaos_Version (stored d) + 1 |>) ∧
    stored d' = (run <| chaos_Version := chaos_Version (stored d) + 1 |>) ∧ absent d' = absent d;
  coop_get d gvr :
    let '(x, d') := handle _ (KubeGet gvr (ref_Namespace (chaos_Resource (stored d)))
                                (ref_Name (chaos_Resource (stored d)))) d in
    quiet d d' ∧ caught x = Ok x ∧
    match x with
    | Ok o => absent d = false ∧ owner_label o = chaos_ID (stored d) ∧ ∃ observed, observation o = Ok observed
    | Err err => absent d = true ∧ IsNotFound err = true
    end;
  coop_delete d gvr :
    let '(x, d') := handle _ (KubeDelete gvr (ref_Namespace (chaos_Resource (stored d)))
                                (ref_Name (chaos_Resource (stored d)))) d in
    x = Ok tt ∧ stored d' = stored d ∧ absent d' = true;
  coop_list d namespace selector limit :
    let '(x, d') := handle _ (KubeList podsResource namespace selector limit) d in (∃ pods, x = Ok pods) ∧ quiet d d';
  coop_start d : chaos_Manifest (stored d) = manifest →
    runs handle (Start r (stored d)) d (λ x d', caught x = Ok x ∧ stored d' = stored d)
}.
Context `{Cooperative}.

(** What holds of a run under execution: its resource is of a known kind, its attempts are counted, its
    recovery has a deadline once it was started, and it is verified only when its resource is gone. *)
Record steady (d : D) : Prop := {
  steady_resource : ∃ gvr, resourceForRun r (stored d) = Ok gvr;
  steady_manifest : chaos_Manifest (stored d) = manifest;
  steady_attempts : 0 ≤ chaos_AttemptCount (stored d) ≤ chaosMaxAttempts;
  steady_recovery : chaos_Status (stored d) ≠ ChaosExecutionRequested → is_Some (chaos_RecoveryDeadline (stored d));
  steady_verifying : chaos_Status (stored d) = ChaosVerifying → absent d = true
}.

(** How many passes the run has before it at most. *)
Definition distance (run : Run) : nat :=
  if chaos_Status run == ChaosExecutionRequested then
    match chaos_InjectionDeadline run with
    | None => 5 + Z.to_nat (chaosMaxAttempts - chaos_AttemptCount run)
    | Some _ => 4
    end
  else if chaos_Status run == ChaosRunning then 3
  else if chaos_Status run == ChaosCleanupRequested then 2
  else if chaosActive (chaos_Status run) then 1
  else 0.

(** The outcome of a pass: the run is closer to its end, or has ended. *)
Definition progress (d d' : D) : Prop :=
  (distance (stored d') < distance (stored d))%nat ∧
  (ended (chaos_Status (stored d')) = true ∨ chaosActive (chaos_Status (stored d')) = true ∧ steady d').

Lemma runs_Save run actor action (k : Run → P (ChaosE K) unit) d Q :
  chaos_Version run = chaos_Version (stored d) →
  (∀ d', stored d' = bump run → absent d' = absent d → runs handle (k (bump run)) d' Q) →
  runs handle (Save run actor action ≫= k) d Q.
Proof.
  intros Hv Hk. unfold Save. apply runs_then_call. rewrite Hv. pose proof (coop_update d run actor action) as Hu.
  destruct (handle _ _ d) as [x d']. destruct Hu as (-> & Hs & Ha). unfold bump in Hk. rewrite Hv in Hk.
  eexists. split; [done|]. by apply Hk.
Qed.

(** A pass whose last step stores [run]. *)
Lemma runs_last_Save run actor action d Q :
  chaos_Version run = chaos_Version (stored d) →
  (∀ d', stored d' = bump run → absent d' = absent d → Q (Ok tt) d') →
  runs handle (Save run actor action;; mret tt) d Q.
Proof. intros Hv HQ. apply runs_Save; [done|]. intros d' Hs Ha. apply runs_ret. by apply HQ. Qed.

Section Runner.
Variables (gvr : GroupVersionResource) (run : Run).
Hypothesis Hgvr : resourceForRun r run = Ok gvr.

Lemma runs_Exists (k : bool → P (ChaosE K) unit) d Q :
  stored d = run → (∀ d', stored d' = run → absent d' = absent d → runs handle (k (negb (absent d))) d' Q) →
  runs handle (Exists r run ≫= k) d Q.
Proof.
  intros Hs Hk. apply runs_then with (λ b d', b = negb (absent d) ∧ stored d' = run ∧ absent d' = absent d).
  - unfold Exists. eapply runs_then_pure; [exact Hgvr|]. apply runs_then_attempt_call.
    pose proof (coop_get d gvr) as Hg. rewrite Hs in Hg. destruct (handle _ _ d) as [x d'].
    destruct Hg as ([Hs' Ha'] & Hc & Hx). split; [done|]. rewrite Hs in Hs'. destruct x as [o|err].
    + destruct Hx as (Ha & Ho & _). apply runs_then_raise_if; [rewrite Ho; by rewrite String.eqb_refl|].
      apply runs_ret. exists true. split_and!; [done | by rewrite Ha | done..].
    + destruct Hx as [Ha ->]. apply runs_ret. exists false. split_and!; [done | by rewrite Ha | done..].
  - intros b d' (-> & Hs' & Ha'). by apply Hk.
Qed.

Lemma runs_Delete (k : unit → P (ChaosE K) unit) d Q :
  stored d = run → (∀ d', stored d' = run → absent d' = true → runs handle (k tt) d' Q) →
  runs handle (Delete r run ≫= k) d Q.
Proof.
  intros Hs Hk. apply runs_then with (λ _ d', stored d' = run ∧ absent d' = true).
  - unfold Delete. eapply runs_then_pure; [exact Hgvr|]. apply runs_then_attempt_call.
    pose proof (coop_delete d gvr) as Hg. rewrite Hs in Hg. destruct (handle _ _ d) as [x d'].
    destruct Hg as (-> & Hs' & Ha). split; [done|]. apply runs_ret. exists tt. by rewrite Hs'.
  - intros [] d' [Hs' Ha]. by apply Hk.
Qed.

Lemma runs_Observe (k : ChaosObservation → P (ChaosE K) unit) d Q :
  stored d = run → absent d = false →
  (∀ observed d', stored d' = run → absent d' = absent d → runs handle (k observed) d' Q) →
  runs handle (Observe r run ≫= k) d Q.
Proof.
  intros Hs Ha Hk. apply runs_then with (λ _ d', stored d' = run ∧ absent d' = absent d).
  - unfold Observe. eapply runs_then_pure; [exact Hgvr|]. apply runs_then_call.
    pose proof (coop_get d gvr) as Hg. rewrite Hs in Hg. destruct (handle _ _ d) as [x d'].
    destruct Hg as ([Hs' Ha'] & _ & Hx). destruct x as [o|err]; [|destruct Hx; congruence].
    destruct Hx as (_ & Ho & observed & Hobs).
    exists o. split; [done|]. apply runs_then_raise_if; [rewrite Ho; by rewrite String.eqb_refl|].
    intros h. rewrite Hobs. exists observed. split; [done|]. split; congruence.
  - intros observed d' [Hs' Ha']. by apply Hk.
Qed.

Lemma runs_VerifyRecovery (k : bool * string → P (ChaosE K) unit) d Q :
  stored d = run → (∀ outcome d', stored d' = run → absent d' = absent d → runs handle (k outcome) d' Q) →
  runs handle (VerifyRecovery r run ≫= k) d Q.
Proof.
  intros Hs Hk. apply runs_then with (λ _ d', stored d' = run ∧ absent d' = absent d);
    [|intros outcome d' [Hs' Ha']; by apply Hk].
  unfold VerifyRecovery. apply runs_then with (λ _ d', stored d' = run ∧ absent d' = absent d).
  - unfold targetPods. apply runs_then_raise_if.
    { unfold resourceForRun in Hgvr. by destruct (r_client r). }
    intros h. cbn. pose proof (coop_list d (ref_Namespace (chaos_Resource run))
      (SelectorString (chaos_TargetSelector run)) (maxChaosTargetCandidates + 1)) as Hl.
    destruct (handle _ _ d) as [x d']. destruct Hl as [(pods & ->) [Hs' Ha']]. exists pods. split; [done|].
    by rewrite Hs', Ha'.
  - intros pods d' Hd'. cbv zeta. destruct (_ <? _); [apply runs_ret; by eexists|].
    destruct (List.find _ pods); apply runs_ret; by eexists.
Qed.
End Runner.

(** * A pass over a run under execution *)

Section Pass.
Variables (d0 d : D) (run : Run) (now : Time) (gvr : GroupVersionResource).
Hypotheses (Hrun : stored d0 = run) (Hsteady : steady d0) (Hlate : late now run)
  (Hd : stored d = run) (Habsent : absent d = absent d0) (Hgvr : resourceForRun r run = Ok gvr).

Abbreviation passes_from d0 d p := (runs handle p d (λ x d', x = Ok tt ∧ progress d0 d')).
Abbreviation passes p := (passes_from d0 d p).

Lemma closer run' d' :
  stored d' = bump run' → (distance run' < distance run)%nat →
  ended (chaos_Status run') = true ∨
  (chaosActive (chaos_Status run') = true ∧ target_of run' = target_of run ∧
   0 ≤ chaos_AttemptCount run' ≤ chaosMaxAttempts ∧
   (chaos_Status run' ≠ ChaosExecutionRequested → is_Some (chaos_RecoveryDeadline run')) ∧
   (chaos_Status run' = ChaosVerifying → absent d' = true)) →
  progress d0 d'.
Proof.
  intros Hs Hlt Hend. split; [by rewrite Hs, Hrun|]. rewrite Hs.
  destruct Hend as [He|(Hact & Hres & Hatt & Hrec & Hver)]; [by left|]. right. split; [exact Hact|].
  injection Hres as Hres Hman. split; rewrite ?Hs; try done.
  - exists gvr. unfold resourceForRun in *. change (chaos_Resource (bump run')) with (chaos_Resource run'). by rewrite Hres.
  - change (chaos_Manifest run' = manifest). rewrite Hman, <- Hrun. apply (steady_manifest _ Hsteady).
Qed.

Lemma attempts_ok : 0 ≤ chaos_AttemptCount run ≤ chaosMaxAttempts.
Proof. rewrite <- Hrun. apply (steady_attempts _ Hsteady). Qed.

Lemma recovery_known : chaos_Status run ≠ ChaosExecutionRequested → ∃ t, chaos_RecoveryDeadline run = Some t ∧ passed (Some t) now = true.
Proof.
  intros Hne. destruct (steady_recovery _ Hsteady) as [t Ht]; [by rewrite Hrun|]. rewrite Hrun in Ht.
  exists t. split; [done|]. pose proof (late_recovery _ _ Hlate _ Ht). unfold passed, Before. lia.
Qed.

(** The last write of a pass: the distance is a computation on the statuses. *)
Ltac stores Hst :=
  apply runs_last_Save; [cbn; congruence|]; intros ? ? ?; split; [reflexivity|];
  eapply closer; [eassumption | unfold distance; cbn; rewrite Hst; cbn; try lia |].

Lemma abort_passes : chaos_Status run = ChaosAbortRequested → passes (reconcile_abort m run now).
Proof.
  intros Hst. unfold reconcile_abort, runner. rewrite coop_runner. apply runs_then_ret.
  eapply runs_Delete; [exact Hgvr | exact Hd|]. intros d1 Hs1 Ha1.
  eapply runs_Exists; [exact Hgvr | exact Hs1|]. intros d2 Hs2 Ha2. rewrite Ha1. cbn [negb].
  eapply runs_VerifyRecovery; [exact Hgvr | exact Hs2|]. intros [healthy message] d3 Hs3 Ha3.
  destruct recovery_known as (t & Ht & Hpassed); [by rewrite Hst|]. rewrite Ht, Hpassed.
  destruct healthy; stores Hst; by left.
Qed.

Lemma verifying_passes : chaos_Status run = ChaosVerifying → passes (reconcile_verifying m run now).
Proof.
  intros Hst. unfold reconcile_verifying, runner. rewrite coop_runner. apply runs_then_ret.
  assert (absent d = true) as Ha. { rewrite Habsent. apply (steady_verifying _ Hsteady). by rewrite Hrun. }
  eapply runs_Exists; [exact Hgvr | exact Hd|]. intros d1 Hs1 Ha1. rewrite Ha. cbn [negb].
  eapply runs_VerifyRecovery; [exact Hgvr | exact Hs1|]. intros [healthy message] d2 Hs2 Ha2.
  destruct recovery_known as (t & Ht & Hpassed); [by rewrite Hst|]. rewrite Ht, Hpassed.
  destruct healthy; [destruct (_ != _)|]; stores Hst; by left.
Qed.

(** Cleanup, from a run stored during the pass or before. *)
Lemma cleanup_passes run1 d1 :
  stored d1 = run1 → chaos_Status run1 = ChaosCleanupRequested → target_of run1 = target_of run →
  chaos_AttemptCount run1 = chaos_AttemptCount run → is_Some (chaos_RecoveryDeadline run1) → (1 < distance run)%nat →
  passes_from d0 d1 (reconcile_cleanup m run1 now).
Proof.
  intros Hs1 Hst Hres Hatt Hrec Hlt. unfold reconcile_cleanup, runner. rewrite coop_runner. apply runs_then_ret.
  assert (resourceForRun r run1 = Ok gvr) as Hgvr1 by (injection Hres as Hres _; unfold resourceForRun in *; by rewrite Hres).
  eapply runs_Delete; [exact Hgvr1 | exact Hs1|]. intros d2 Hs2 Ha2.
  eapply runs_Exists; [exact Hgvr1 | exact Hs2|]. intros d3 Hs3 Ha3. rewrite Ha2. cbn [negb].
  apply runs_last_Save; [cbn; congruence|]. intros d4 Hs4 Ha4. split; [reflexivity|].
  eapply closer; [exact Hs4 | exact Hlt |]. right. pose proof attempts_ok.
  split_and!; [done | done | cbn; lia | cbn; lia | done | cbn; congruence].
Qed.

Lemma running_passes : chaos_Status run = ChaosRunning → passes (reconcile_running m run now).
Proof.
  intros Hst. unfold reconcile_running. destruct (chaos_StartedAt run) as [t|] eqn:Hstart; [|stores Hst; by left].
  unfold runner. rewrite coop_runner. apply runs_then_ret.
  eapply runs_Exists; [exact Hgvr | exact Hd|]. intros d1 Hs1 Ha1. cbv zeta.
  pose proof (late_execution _ _ Hlate _ Hstart) as Hend.
  assert (Before now (Add t (run_duration run)) = false) as -> by (unfold Before; lia). rewrite !andb_false_r.
  apply runs_Save; [cbn; congruence|]. intros d2 Hs2 Ha2. apply cleanup_passes; [exact Hs2 | done..| |].
  - destruct recovery_known as (u & Hu & _); [by rewrite Hst|]. exists u. exact Hu.
  - unfold distance. rewrite Hst. cbn. lia.
Qed.

(** A pass after which the execution is still only requested. *)
Lemma closer_requested run' d' :
  stored d' = bump run' → chaos_Status run' = ChaosExecutionRequested → (distance run' < distance run)%nat →
  target_of run' = target_of run → 0 ≤ chaos_AttemptCount run' ≤ chaosMaxAttempts → progress d0 d'.
Proof.
  intros Hs Hst Hlt Hres Hatt. eapply closer; [exact Hs | exact Hlt|]. rewrite Hst. right.
  split; [reflexivity|]. split; [exact Hres|]. split; [exact Hatt|]. split; [congruence | intros Hv; discriminate Hv].
Qed.

Ltac stores_requested Hst Hinj :=
  apply runs_last_Save; [cbn; congruence|]; intros ? ? ?; split; [reflexivity|];
  eapply closer_requested; [eassumption | exact Hst | unfold distance; cbn; rewrite Hst, ?Hinj; cbn; lia | reflexivity |
    cbn; lia].

Lemma requested_passes : chaos_Status run = ChaosExecutionRequested → passes (reconcile_requested m run now).
Proof.
  intros Hst. pose proof attempts_ok as Hatt. assert (chaosMaxAttempts = 3) as H3 by done.
  unfold reconcile_requested, runner. rewrite coop_runner. apply runs_then_ret.
  eapply runs_Exists; [exact Hgvr | exact Hd|]. intros d1 Hs1 Ha1.
  destruct (absent d) eqn:Ha; cbn [negb]; destruct (chaos_InjectionDeadline run) as [t|] eqn:Hinj.
  - unfold reconcile_vanished. stores Hst; [rewrite Hinj; lia|]. right.
    split_and!; [done | done | cbn; lia | cbn; lia | by intros; eexists | intros; congruence].
  - unfold reconcile_create. apply runs_then_attempt with (λ _ d', stored d' = run).
  { pose proof (coop_start d1) as Hstart. rewrite Hs1 in Hstart. apply Hstart. rewrite <- Hrun.
      apply (steady_manifest _ Hsteady). }
    intros [[]|err] d2 Hs2.
    + stores_requested Hst Hinj.
    + assert (wrap64 (chaos_AttemptCount run + 1) = chaos_AttemptCount run + 1) as Hw.
      { apply wrap64_small. unfold MinInt64, MaxInt64. lia. }
      cbv zeta. rewrite Hw. cbn [chaos_AttemptCount set_field]. destruct (Z.leb_spec chaosMaxAttempts (chaos_AttemptCount run + 1)).
      * stores Hst; [rewrite Hinj; lia|]. by left.
      * stores_requested Hst Hinj.
  - eapply runs_Observe; [exact Hgvr | exact Hs1 | congruence|]. intros observed d2 Hs2 Ha2.
    pose proof (late_injection _ _ Hlate _ Hinj) as Hpast. unfold reconcile_injection.
    assert (Before now t = false) as -> by (unfold Before; lia).
    destruct (negb (obs_AllInjected observed)); cbv zeta.
    + stores Hst; [rewrite Hinj; lia|]. right. split_and!; [done | done | cbn; lia | cbn; lia | by intros; eexists | done].
    + stores Hst; [rewrite Hinj; lia|]. right. split_and!; [done | done | cbn; lia | cbn; lia | by intros; eexists | done].
  - stores_requested Hst Hinj.
Qed.

End Pass.

(** A pass over an active run brings it closer to its end. *)
Lemma pass_progress d :
  steady d → chaosActive (chaos_Status (stored d)) = true →
  runs handle (reconcileOne m (stored d)) d (λ x d', x = Ok tt ∧ progress d d').
Proof.
  intros Hsteady Hactive. unfold reconcileOne. apply runs_then_ask.
  pose proof (coop_now d) as Hnow. destruct (handle _ Now d) as [now d1]. destruct Hnow as (Hlate & Hs & Ha).
  destruct (steady_resource _ Hsteady) as [gvr Hgvr]. unfold chaosActive in Hactive. each_in Hactive; rewrite Hactive; cbn [andb].
  - by eapply requested_passes.
  - by eapply running_passes.
  - eapply cleanup_passes with (run := stored d); try eassumption; try done.
    + apply (steady_recovery _ Hsteady). by rewrite Hactive.
    + unfold distance. rewrite Hactive. cbn. lia.
  - by eapply abort_passes.
  - by eapply verifying_passes.
Qed.

(** Repeated passes over the run as it is stored. *)
Fixpoint after_passes (n : nat) (d : D) : D :=
  match n with
  | O => d
  | S n' => let '(_, d', _) := drive handle (reconcileOne m (stored d)) d [] in after_passes n' d'
  end.

Lemma after_passes_S n d :
  after_passes (S n) d = let '(_, d', _) := drive handle (reconcileOne m (stored d)) d [] in after_passes n d'.
Proof. done. Qed.

(** C33. In surroundings that cooperate, and with every look at the clock late for the deadlines on
    record, an active run ends within eight passes of the reconciler, however often creating its
    resource fails and whether or not its targets recover. *)
Theorem chaos_run_ends d (Hsteady : steady d) (Hactive : chaosActive (chaos_Status (stored d)) = true) :
  ∃ n, (n ≤ 8)%nat ∧ ended (chaos_Status (stored (after_passes n d))) = true.
Proof.
  assert (∀ k d, (distance (stored d) ≤ k)%nat → steady d → chaosActive (chaos_Status (stored d)) = true →
    ∃ n, (n ≤ k)%nat ∧ ended (chaos_Status (stored (after_passes n d))) = true) as Hend.
  { clear d Hsteady Hactive. induction k as [|k IH]; intros d Hk Hsteady Hactive.
    - pose proof (pass_progress d Hsteady Hactive []) as Hp. destruct (drive _ _ _ _) as [[x d'] h].
      destruct Hp as (_ & Hlt & _). lia.
    - pose proof (pass_progress d Hsteady Hactive []) as Hp.
      destruct (drive handle (reconcileOne m (stored d)) d []) as [[x d'] h] eqn:Hd.
      destruct Hp as (_ & Hlt & Hp). destruct Hp as [He|[Hact Hst]].
      + exists 1%nat. rewrite after_passes_S, Hd. split; [lia | exact He].
      + destruct (IH d' ltac:(lia) Hst Hact) as (n & Hn & He). exists (S n). rewrite after_passes_S, Hd. split; [lia | exact He]. }
  destruct (Hend 8%nat d) as (n & Hn & He); [|done..|by exists n].
  pose proof (steady_attempts _ Hsteady). assert (chaosMaxAttempts = 3) by done. unfold distance.
  repeat case_match; lia.
Qed.
End Surroundings.
End Liveness.

(** * A world that cooperates *)

Module SlowWorld.

(** The run, and whether its resource exists; its targets never come back. *)
Record world := mkWorld { w_run : Run; w_absent : bool }.

Definition latest (run : Run) : Time :=
  Z.max (default 0 (chaos_InjectionDeadline run))
    (Z.max (default 0 (chaos_RecoveryDeadline run))
       match chaos_StartedAt run with Some t => Add t (run_duration run) | None => 0 end).

Definition handle X (e : ChaosE json_kubernetes X) (d : world) : X * world :=
  match e in ChaosE _ X return X * world with
  | Now => (latest (w_run d), d)
  | NewUUID => ("1", d)
  | RepoGet id => (Ok (w_run d), d)
  | RepoList => (Ok [w_run d], d)
  | RepoCreate run actor action => (Err (Errorf "exists"), d)
  | RepoUpdate run version actor action =>
      (Ok (run <| chaos_Version := version + 1 |>), mkWorld (run <| chaos_Version := version + 1 |>) (w_absent d))
  | KubeCreate gvr namespace o dryRun _ => (Err (Errorf "quota exceeded"), d)
  | KubeGet _ _ _ =>
      (if w_absent d then Err (Errorf "NotFound")
       else Ok (mkJsonObject [] {[run_label := chaos_ID (w_run d)]}), d)
  | KubeDelete _ _ _ => (Ok tt, mkWorld (w_run d) true)
  | KubeList _ _ _ _ => (Ok [], d)
  end.

Definition runner : ChaosRunner := NewChaosRunnerFromClient.
Definition manager : ChaosManager := mkChaosManager (Some runner) true.

#[export] Instance cooperates : Cooperative manager runner EmptyString handle w_run w_absent.
Proof.
  split.
  - done.
  - intros d. cbn. split; [|done]. unfold latest. split; intros t Ht; rewrite Ht; cbn; lia.
  - intros d run actor action. done.
  - intros d gvr. cbn. destruct (w_absent d) eqn:Ha; cbn; (split; [done|]); (split; [done|]); [done|].
    split; [done|]. split; [|by eexists]. unfold owner_label. change (default EmptyString (({[run_label := chaos_ID (w_run d)]} : gmap string string) !! run_label) = chaos_ID (w_run d)). by rewrite lookup_singleton_eq.
  - intros d gvr. done.
  - intros d namespace selector limit. cbn. split; [by eexists | done].
  - intros d Hm h. unfold Start. rewrite Hm. vm_compute. done.
Qed.

(** An execution was requested, its resource exists, the faults were never injected. *)
Definition requested : Run :=
  zero_ChaosExperimentRun
    <| chaos_ID := "chaos-run-1" |> <| chaos_Status := ChaosExecutionRequested |>
    <| chaos_Resource := mkResourceRef "chaos-mesh.org/v1alpha1" "NetworkChaos" "default" "delay-web" |>
    <| chaos_TargetCount := 2 |> <| chaos_Version := 3 |>
    <| chaos_InjectionDeadline := Some (64000000000 * Second) |>.
Definition initial : world := mkWorld requested false.

Example final_status : chaos_Status (w_run (after_passes manager handle w_run 3 initial)) = ChaosFailed.
Proof. vm_compute. reflexivity. Qed.

End SlowWorld.

Lemma chaos_run_ends_witness :
  ∃ n, (n ≤ 8)%nat ∧
    ended (chaos_Status (SlowWorld.w_run (after_passes SlowWorld.manager SlowWorld.handle SlowWorld.w_run n SlowWorld.initial))) = true.
Proof.
  apply (@chaos_run_ends _ _ _ _ _ _ _ _ SlowWorld.cooperates).
  - split.
    + eexists. vm_compute. reflexivity.
    + reflexivity.
    + vm_compute. split; discriminate.
    + intros Hne. exfalso. by apply Hne.
    + intros Hv. discriminate Hv.
  - reflexivity.
Defined.
