(* ===== verification/Limiter.v ===== *)
(** The request limiter of the HTTP API, [services/api/internal/httpapi/middleware.go]: a counter per
    client and minute, and the eviction that keeps the table of counters small. *)
From S2P Require Import Prelude GoLib.

Local Open Scope Z_scope.

Record rateWindow := mkRateWindow { window_started : Time; window_count : Z; window_seen : Time }.
Definition zero_rateWindow : rateWindow := mkRateWindow 0 0 0.

(** The limiter's state; [limit] and [interval] are fixed at its creation. *)
Abbreviation windows := (gmap string rateWindow) (only parsing).

Definition newRequestLimiter_limit (limit : Z) : Z := if limit <=? 0 then 120 else limit.
Definition limiter_interval : Duration := Minute.
Definition max_windows : nat := 4096.

Definition maxDuration (left minimum : Duration) : Duration := if left <? minimum then minimum else left.

Section Limiter.
Variable limit : Z.

Definition current_window (now : Time) (window : rateWindow) : rateWindow :=
  let window := if IsZero (window_started window) || (limiter_interval <=? Sub now (window_started window))
                then mkRateWindow now 0 0 else window in
  mkRateWindow (window_started window) (window_count window + 1) now.

Definition idle (now : Time) (window : rateWindow) : bool := 5 * limiter_interval <? Sub now (window_seen window).

Definition allow (now : Time) (key : string) (l : windows) : (bool * Duration) * windows :=
  let window := current_window now (default zero_rateWindow (l !! key)) in
  let l := <[key := window]> l in
  let l := if Nat.ltb max_windows (size l) then filter (λ kv, idle now kv.2 = false) l else l in
  (if limit <? window_count window then
     (false, maxDuration (limiter_interval - Sub now (window_started window)) Second)
   else (true, 0), l).

(** The header of a refusal, in whole seconds rounded up. *)
Definition retry_seconds (retryAfter : Duration) : Z := Z.max (Z.quot (retryAfter + Second - 1) Second) 1.

(** The limiter over a sequence of calls. *)
Fixpoint allow_all (calls : list (Time * string)) (l : windows) : list (bool * Duration) :=
  match calls with
  | [] => []
  | (now, key) :: rest => let '(answer, l') := allow now key l in answer :: allow_all rest l'
  end.

(** * What a limiter promises: fixed windows, client by client *)

(** [current] is the window of the client, with its number of requests, if it has made one. *)
Definition count_request (now : Time) (current : option (Time * Z)) : Time * Z :=
  match current with
  | Some (started, count) => if now - started <? limiter_interval then (started, count + 1) else (now, 1)
  | None => (now, 1)
  end.

Definition verdict (now : Time) (counted : Time * Z) : bool * Duration :=
  if counted.2 <=? limit then (true, 0)
  else (false, Z.max (limiter_interval - (now - counted.1)) Second).

Fixpoint fixed_windows (times : list Time) (current : option (Time * Z)) : list (bool * Duration) :=
  match times with
  | [] => []
  | now :: rest =>
      let counted := count_request now current in verdict now counted :: fixed_windows rest (Some counted)
  end.

Definition is_of (key : string) (call : Time * string) : bool := call.2 == key.

Definition answers_of (key : string) (calls : list (Time * string)) (answers : list (bool * Duration)) :
    list (bool * Duration) :=
  (List.filter (λ p, is_of key p.1) (zip calls answers)).*2.

(** The clock does not run backwards and is past its zero value. *)
Fixpoint clocked (from : Time) (calls : list (Time * string)) : Prop :=
  match calls with [] => True | (now, _) :: rest => from ≤ now ∧ clocked now rest end.

(** How a stored window relates to the promise: a window that was evicted, or never stored, is over. *)
Definition tracks (now : Time) (stored : option rateWindow) (current : option (Time * Z)) : Prop :=
  match stored, current with
  | Some w, Some (started, count) =>
      window_started w = started ∧ window_count w = count ∧ 0 < started ≤ window_seen w ∧ window_seen w ≤ now
  | None, Some (started, _) => limiter_interval ≤ now - started
  | None, None => True
  | Some _, None => False
  end.

Lemma leb_Sub t u d : 0 < d ≤ MaxInt64 → (d <=? Sub t u) = (d <=? t - u).
Proof. intros Hd. unfold Sub, MinInt64, MaxInt64 in *. apply Bool.eq_iff_eq_true. rewrite !Z.leb_le. lia. Qed.

Lemma interval_range : 0 < limiter_interval ≤ MaxInt64.
Proof. by vm_compute. Qed.

Lemma idle_over now w : 0 < window_started w ≤ window_seen w → idle now w = true → limiter_interval ≤ now - window_started w.
Proof.
  intros Hw. unfold idle, Sub. pose proof interval_range. rewrite Z.ltb_lt. unfold MinInt64, MaxInt64 in *. lia.
Qed.

(** The counter a call leaves for its client, before any eviction. *)
Lemma current_window_tracks now0 now stored current :
  tracks now0 stored current → 0 < now → now0 ≤ now →
  let w := current_window now (default zero_rateWindow stored) in
  let counted := count_request now current in
  window_started w = counted.1 ∧ window_count w = counted.2 ∧ 0 < counted.1 ≤ now ∧ window_seen w = now ∧
  now - counted.1 < limiter_interval.
Proof.
  intros Ht Hpos Hnow. pose proof interval_range as Hi. cbv zeta. unfold count_request, current_window, IsZero.
  destruct stored as [w|], current as [[started count]|]; cbn [default from_option] in *; unfold id; try done.
  - destruct Ht as (<- & <- & Hs & Hseen). rewrite leb_Sub by done.
    rewrite (proj2 (Z.eqb_neq (window_started w) 0)) by lia. cbn [orb].
    destruct (Z.ltb_spec (now - window_started w) limiter_interval); destruct (Z.leb_spec limiter_interval (now - window_started w));
      try lia; cbn; lia.
  - cbn in *. rewrite (proj2 (Z.ltb_ge (now - started) limiter_interval)) by lia. cbn. lia.
  - cbn. lia.
Qed.

Lemma verdict_of_window now w counted :
  window_started w = counted.1 → window_count w = counted.2 → 0 < counted.1 ≤ now → now - counted.1 < limiter_interval →
  (if limit <? window_count w then (false, maxDuration (limiter_interval - Sub now (window_started w)) Second) else (true, 0)) =
  verdict now counted.
Proof.
  intros -> -> Hs Hw. unfold verdict, maxDuration. pose proof interval_range.
  assert (Sub now counted.1 = now - counted.1) as -> by (unfold Sub, MinInt64, MaxInt64 in *; lia).
  destruct (Z.ltb_spec limit counted.2), (Z.leb_spec counted.2 limit); try lia; [|done].
  f_equal. case_match; lia.
Qed.

Lemma allow_step now0 now key l (current : string → option (Time * Z)) :
  (∀ k, tracks now0 (l !! k) (current k)) → 0 < now → now0 ≤ now →
  let counted := count_request now (current key) in
  let '(answer, l') := allow now key l in
  answer = verdict now counted ∧ ∀ k, tracks now (l' !! k) (if decide (k = key) then Some counted else current k).
Proof.
  intros Hl Hpos Hnow. cbv zeta. unfold allow.
  destruct (current_window_tracks now0 now _ _ (Hl key) Hpos Hnow) as (Hs & Hc & Hr & Hseen & Hw).
  split; [by apply verdict_of_window|]. set (w := current_window _ _) in *. clearbody w.
  assert (∀ k, tracks now (<[key := w]> l !! k) (if decide (k = key) then Some (count_request now (current key)) else current k))
    as Hins.
  { intros k. destruct (decide (k = key)) as [->|Hk].
    - rewrite lookup_insert_eq. cbn. destruct (count_request now (current key)) as [started count].
      rewrite Hseen. cbn in *. lia.
    - rewrite lookup_insert_ne by done. specialize (Hl k). destruct (l !! k), (current k) as [[]|]; cbn in *; lia || done. }
  destruct (Nat.ltb _ _); [|done]. intros k. specialize (Hins k).
  destruct (filter _ _ !! k) as [w'|] eqn:Hf.
  { apply map_lookup_filter_Some in Hf as [Hk _]. by rewrite Hk in Hins. }
  destruct (if decide (k = key) then _ else _) as [[started count]|] eqn:Hcur; [|done].
  apply map_lookup_filter_None in Hf as [Hk|Hidle]; [by rewrite Hk in Hins|].
  destruct (<[key := w]> l !! k) as [w'|] eqn:Hk; [|done]. destruct Hins as (<- & _ & Hw' & _).
  apply idle_over; [done|]. apply not_false_is_true, (Hidle w' eq_refl).
Qed.

(** C38. Whatever the other clients do and however often the table is evicted, what a client is answered is
    what a counter of its own would answer: its requests fall into windows of a minute, each opened by the
    first request after the last one is over; the first [limit] requests of a window are admitted, the
    others are refused until the window is over, and for at least a second. *)
Theorem limiter_fixed_windows calls key now0 (Hclock : clocked now0 calls) (Hpos : 0 < now0) :
  answers_of key calls (allow_all calls ∅) = fixed_windows (List.filter (is_of key) calls).*1 None.
Proof.
  assert (∀ calls l now0 current, (∀ k, tracks now0 (l !! k) (current k)) → 0 < now0 → clocked now0 calls →
    answers_of key calls (allow_all calls l) = fixed_windows (List.filter (is_of key) calls).*1 (current key)) as Hall.
  { clear. intros calls. induction calls as [|[now k] rest IH]; intros l now0 current Ht Hpos Hclock; [done|].
    destruct Hclock as [Hnow Hclock]. pose proof (allow_step now0 now k l current Ht ltac:(lia) Hnow) as Hstep. cbv zeta in Hstep.
    cbn [allow_all]. destruct (allow now k l) as [answer l']. destruct Hstep as [-> Ht'].
    specialize (IH l' now _ Ht' ltac:(lia) Hclock). unfold answers_of in *. cbn [zip List.filter fst snd] in *.
    change (is_of key (now, k)) with (k == key). destruct (String.eqb_spec k key) as [->|Hk].
    - cbn [fmap list_fmap fst snd fixed_windows]. rewrite decide_True in IH by done. cbv zeta. by f_equal.
    - rewrite decide_False in IH by done. exact IH. }
  apply (Hall calls ∅ now0 (λ _, None)); [|done..]. intros k. by rewrite lookup_empty.
Qed.
End Limiter.

(** Three requests of one client in a window that admits two, one of another client in between, and one
    when the window is over. *)
Definition sample_requests : list (Time * string) :=
  [(1000 * Second, "a"); (1001 * Second, "a"); (1002 * Second, "b"); (1010 * Second, "a"); (1060 * Second, "a")].

Lemma limiter_fixed_windows_witness :
  allow_all 2 sample_requests ∅ = [(true, 0); (true, 0); (true, 0); (false, 50 * Second); (true, 0)] ∧
  answers_of "a" sample_requests (allow_all 2 sample_requests ∅) =
    fixed_windows 2 (List.filter (is_of "a") sample_requests).*1 None.
Proof.
  split; [vm_compute; reflexivity|]. apply (limiter_fixed_windows 2 sample_requests "a" (1000 * Second)).
  - unfold sample_requests, clocked, Second. lia.
  - unfold Second. lia.
Defined.
