(* ===== verification/Listing.v ===== *)
(** The pure functions of the HTTP API, [services/api/internal/httpapi/server.go]: filters, merging of
    observed findings, sorting, grouping, pages and the cursors between them, access to findings, and the
    figures added to the dashboard. What they show: the sorted order, that the pages of a list enumerate it, that
    groups partition it, who may see which finding. *)
From Stdlib Require Import SpecFloat.
From S2P Require Import Prelude GoLib GoDuration Base64 Core Store Principal.

Local Open Scope Z_scope.

(** * Requests *)

(** [value] is [r.URL.Query().Get(name)]. *)
Definition queryInt (raw name : string) (fallback minimum maximum : Z) : result Z :=
  if raw == "" then Ok fallback
  else
    let bad := Errorf (name +:+ " must be an integer between " +:+ Itoa minimum +:+ " and " +:+ Itoa maximum) in
    match Atoi raw with
    | Some value => if (value <? minimum) || (maximum <? value) then Err bad else Ok value
    | None => Err bad
    end.

Definition hex_digit_value (c : Ascii.ascii) : option Z :=
  let n := byte_code c in
  if (48 <=? n) && (n <=? 57) then Some (n - 48)
  else if (97 <=? n) && (n <=? 102) then Some (n - 87)
  else if (65 <=? n) && (n <=? 70) then Some (n - 55)
  else None.

(** [url.PathUnescape]. *)
Fixpoint PathUnescape (s : string) : option string :=
  match s with
  | EmptyString => Some ""
  | String c rest =>
      if byte_code c =? 37 then
        match rest with
        | String a (String b rest') =>
            a ← hex_digit_value a; b ← hex_digit_value b; t ← PathUnescape rest';
            Some (String (byte_of_code (a * 16 + b)) t)
        | _ => None
        end
      else String c <$> PathUnescape rest
  end.

(** [value] is [r.PathValue(name)]. *)
Definition pathValue (value : string) : string := default value (PathUnescape value).

Definition normalizeName (value : string) : string :=
  Trim (string_map (λ c, let n := byte_code c in
    if (n =? 32) || (n =? 95) || (n =? 47) then byte_of_code 45 else c) (ToLower value)) "-".

(** * Filters *)

Definition resource_namespace (resource : ResourceRef) : string :=
  if ref_Kind resource == "Namespace" then ref_Name resource else ref_Namespace resource.

Definition matchesFilter (finding : Finding) (filter : FindingFilter) : bool :=
  if (filter_Severity filter != "") && (finding_Severity finding != filter_Severity filter) then false
  else if (filter_Status filter != "") && (finding_Status finding != filter_Status filter) then false
  else if (filter_Source filter != "") && (finding_Source finding != filter_Source filter) then false
  else if (filter_Fixability filter != "") && (finding_Fixability finding != filter_Fixability filter) then false
  else if (0 <? filter_MinRisk filter) && (finding_RiskScore finding <? filter_MinRisk filter) then false
  else if ((filter_Namespace filter != "") || (filter_Kind filter != "")) &&
    negb (existsb (λ resource,
      ((filter_Namespace filter == "") || (resource_namespace resource == filter_Namespace filter)) &&
      ((filter_Kind filter == "") || (ref_Kind resource == filter_Kind filter))) (finding_Resources finding)) then false
  else if filter_Query filter != "" then
    Contains (ToLower (finding_Title finding +:+ " " +:+ finding_BlastRadius finding +:+ " " +:+
                       finding_CorrelationGroup finding)) (ToLower (filter_Query filter))
  else true.

(** The first finding with the observed identifier is replaced, or dropped when the observed one does not
    match. *)
Fixpoint mergeObservedFinding (existing : list Finding) (observed : Finding) (filter : FindingFilter) : list Finding :=
  match existing with
  | [] => if matchesFilter observed filter then [observed] else []
  | finding :: rest =>
      if finding_ID finding != finding_ID observed then finding :: mergeObservedFinding rest observed filter
      else if matchesFilter observed filter then observed :: rest
      else rest
  end.

(** By risk, then by time of update: the order of the merged lists. *)
Definition riskier (x y : Finding) : bool :=
  if finding_RiskScore x =? finding_RiskScore y then After (finding_UpdatedAt x) (finding_UpdatedAt y)
  else finding_RiskScore y <? finding_RiskScore x.

(** The map of [mergeWorkflowFindings], before it is listed. *)
Definition merge_by_id (findings workflowFindings : list Finding) (filter : FindingFilter) : gmap string Finding :=
  foldl (λ byID finding,
    if matchesFilter finding filter then <[finding_ID finding := finding]> byID else delete (finding_ID finding) byID)
    (foldl (λ byID finding, <[finding_ID finding := finding]> byID) ∅ findings) workflowFindings.

(** * Access *)

Definition findingAllowed (principal : Principal) (clusterID : string) (finding : Finding) : bool :=
  if CanAccessCluster principal clusterID then true
  else match finding_Resources finding with
       | [] => false
       | resources =>
           forallb (λ resource, let namespace := resource_namespace resource in
             negb ((namespace == "") || negb (CanAccessNamespace principal clusterID namespace))) resources
       end.

(** * Sorting *)

Definition string_compare (x y : string) : Z :=
  match String.compare x y with Eq => 0 | Lt => -1 | Gt => 1 end.

Definition severity_rank_of (severity : string) : Z :=
  if severity == SeverityCritical then 5 else if severity == SeverityHigh then 4
  else if severity == SeverityMedium then 3 else if severity == SeverityLow then 2
  else if severity == SeverityInfo then 1 else 0.

Definition sort_fields : list string := ["risk"; "updated"; "severity"; "title"; "source"].

Definition compare_findings (field : string) (left right : Finding) : Z :=
  if field == "risk" then finding_RiskScore left - finding_RiskScore right
  else if field == "updated" then
    if Before (finding_UpdatedAt left) (finding_UpdatedAt right) then -1
    else if After (finding_UpdatedAt left) (finding_UpdatedAt right) then 1 else 0
  else if field == "severity" then
    severity_rank_of (finding_Severity left) - severity_rank_of (finding_Severity right)
  else if field == "title" then string_compare (ToLower (finding_Title left)) (ToLower (finding_Title right))
  else if field == "source" then string_compare (ToLower (finding_Source left)) (ToLower (finding_Source right))
  else 0.

Definition sorts_before (field order : string) (x y : Finding) : bool :=
  let result := compare_findings field x y in
  if result =? 0 then String.ltb (finding_ID x) (finding_ID y)
  else if order == "asc" then result <? 0 else 0 <? result.

Definition sortFindings (findings : list Finding) (field order : string) : result (list Finding) :=
  let field := if field == "" then "risk" else field in
  let order := if order == "" then "desc" else order in
  if (order != "asc") && (order != "desc") then Err (Errorf "order must be asc or desc")
  else if negb (existsb (String.eqb field) sort_fields) then
    Err (Errorf "sort must be risk, updated, severity, title, or source")
  else Ok (sort_slice (sorts_before field order) findings).

(** * Pages *)

Definition expired_cursor : GoError := Errorf "cursor no longer identifies a finding in this result set".

Fixpoint index_of_id (id : string) (findings : list Finding) : option nat :=
  match findings with
  | [] => None
  | finding :: rest => if finding_ID finding == id then Some O else S <$> index_of_id id rest
  end.

Definition cursorStart (findings : list Finding) (encoded : string) : result nat :=
  if encoded == "" then Ok O
  else match DecodeString encoded with
       | Some decoded =>
           if len decoded =? 0 then Err (Errorf "cursor is invalid")
           else match index_of_id decoded findings with
                | Some index => Ok (S index)
                | None => Err expired_cursor
                end
       | None => Err (Errorf "cursor is invalid")
       end.

(** [findings[start:end]] and the cursor to what follows. *)
Definition page_of (findings : list Finding) (start limit : nat) : list Finding * string :=
  let stop := Nat.min (start + limit) (length findings) in
  (take (stop - start) (drop start findings),
   if Nat.ltb stop (length findings) then
     match findings !! (stop - 1)%nat with Some finding => EncodeToString (finding_ID finding) | None => "" end
   else "").

(** * Groups *)

Definition severityRank (severity : string) : Z :=
  if severity == SeverityCritical then 5 else if severity == SeverityHigh then 4
  else if severity == SeverityMedium then 3 else if severity == SeverityLow then 2 else 1.

Definition groupKey (finding : Finding) (groupBy : string) : string :=
  match finding_Resources finding with
  | [] => "unscoped"
  | resource :: _ =>
      if groupBy == "namespace" then
        if ref_Namespace resource != "" then ref_Namespace resource
        else if ref_Kind resource == "Namespace" then ref_Name resource else "cluster"
      else if groupBy == "owner" then
        match split_on (byte_of_code 45) (finding_CorrelationGroup finding) with
        | part :: _ => if part != "" then part else "cluster"
        | [] => "cluster"
        end
      else if groupBy == "workload" then
        if ref_Namespace resource != "" then ref_Namespace resource +:+ "/" +:+ ref_Name resource
        else ref_Name resource
      else "cluster"
  end.

Definition add_to_group (groupBy : string) (groups : gmap string FindingGroup) (finding : Finding) : gmap string FindingGroup :=
  let key := groupKey finding groupBy in
  let group := default (mkFindingGroup groupBy key 0 (S754_zero false) (finding_Severity finding) []) (groups !! key) in
  let group := group
    <| group_Count := group_Count group + 1 |>
    <| group_MeanRiskScore := float64_add (group_MeanRiskScore group) (float64_of_int (finding_RiskScore finding)) |>
    <| group_Findings := group_Findings group ++ [finding] |> in
  let group := if severityRank (group_HighestSeverity group) <? severityRank (finding_Severity finding)
               then group <| group_HighestSeverity := finding_Severity finding |> else group in
  <[key := group]> groups.

Definition mean_of (group : FindingGroup) : FindingGroup :=
  if 0 <? group_Count group then
    group <| group_MeanRiskScore := float64_div (group_MeanRiskScore group) (float64_of_int (group_Count group)) |>
  else group.

Definition group_before (x y : FindingGroup) : bool :=
  if SFeqb (group_MeanRiskScore x) (group_MeanRiskScore y) then String.ltb (group_Key x) (group_Key y)
  else SFltb (group_MeanRiskScore y) (group_MeanRiskScore x).

Definition groupFindings `{RangeOrder} (findings : list Finding) (groupBy : string) : result (list FindingGroup) :=
  if (groupBy != "workload") && (groupBy != "namespace") && (groupBy != "owner") then
    Err (Errorf ("unsupported groupBy " +:+ Quote groupBy))
  else
    let groupsByKey := foldl (add_to_group groupBy) ∅ findings in
    Ok (sort_slice group_before (map mean_of (range groupsByKey).*2)).

(** * Dashboard and experiments *)

Definition freshnessLabel (observedAt now : Time) : string :=
  if IsZero observedAt then "no-evidence"
  else
    let age := Sub now observedAt in
    if age <=? 15 * Minute then "fresh"
    else if age <=? 2 * Hour then "recent"
    else if age <=? 24 * Hour then "stale"
    else "expired".

Definition addFindingToDashboard (d : Dashboard) (finding : Finding) : Dashboard :=
  let d := d
    <| dashboard_TotalFindings := dashboard_TotalFindings d + 1 |>
    <| dashboard_FindingsBySeverity := count_in (finding_Severity finding) (dashboard_FindingsBySeverity d) |>
    <| dashboard_FindingsBySource := count_in (finding_Source finding) (dashboard_FindingsBySource d) |>
    <| dashboard_RemediationByState := count_in (finding_RemediationState finding) (dashboard_RemediationByState d) |>
    <| dashboard_OpenCritical := count_if ((finding_Severity finding == SeverityCritical) &&
         (finding_Status finding != FindingResolved) && (finding_Status finding != FindingSuppressed))
         (dashboard_OpenCritical d) |>
    <| dashboard_ActiveRemediations := count_if (finding_Status finding == FindingRemediating)
         (dashboard_ActiveRemediations d) |>
    <| dashboard_FindingsWithSafeFix := count_if ((finding_Fixability finding == FixabilityDeterministic) ||
         (finding_Fixability finding == FixabilityGated)) (dashboard_FindingsWithSafeFix d) |>
    <| dashboard_RiskReduced := if finding_Status finding == FindingResolved
         then wrap64 (dashboard_RiskReduced d + finding_RiskScore finding) else dashboard_RiskReduced d |> in
  if 0 <? dashboard_TotalFindings d then
    let scoreTotal := truncate (float64_mul (dashboard_MeanRiskScore d) (float64_of_int (dashboard_TotalFindings d - 1))) in
    d <| dashboard_MeanRiskScore :=
           float64_div (float64_of_int (wrap64 (scoreTotal + finding_RiskScore finding)))
             (float64_of_int (dashboard_TotalFindings d)) |>
  else d.

(** The findings not seen before are counted, and then seen. *)
Definition add_unseen (acc : Dashboard * gset string) (finding : Finding) : Dashboard * gset string :=
  if bool_decide (finding_ID finding ∈ acc.2) then acc
  else (addFindingToDashboard acc.1 finding, {[ finding_ID finding ]} ∪ acc.2).

Definition findExperiment (experiments : list ChaosExperiment) (id : string) : option ChaosExperiment :=
  List.find (λ experiment, experiment_ID experiment == id) experiments.

(** * What the lists show *)

(** * Pages *)

(** A client that fetches a page and follows the cursor it got, until there is none. *)
Fixpoint fetch_pages (fuel : nat) (findings : list Finding) (limit : nat) (cursor : string) : result (list (list Finding)) :=
  match fuel with
  | O => Err (Errorf "too many pages")
  | S fuel' =>
      start ← cursorStart findings cursor;
      let '(items, next) := page_of findings start limit in
      if next == "" then Ok [items]
      else rest ← fetch_pages fuel' findings limit next; Ok (items :: rest)
  end.

Lemma EncodeToString_empty s : EncodeToString s = "" → s = "".
Proof. intros He. pose proof (DecodeString_EncodeToString s) as Hd. rewrite He in Hd. by injection Hd. Qed.

Lemma index_of_id_lookup findings k finding :
  NoDup (map finding_ID findings) → findings !! k = Some finding → index_of_id (finding_ID finding) findings = Some k.
Proof.
  revert k. induction findings as [|f findings IH]; intros k Hnd Hk; [done|].
  apply NoDup_cons in Hnd as [Hnot Hnd]. cbn [index_of_id]. destruct k as [|k].
  - injection Hk as ->. by rewrite String.eqb_refl.
  - cbn in Hk. destruct (String.eqb_spec (finding_ID f) (finding_ID finding)) as [Heq|_].
    + destruct Hnot. rewrite Heq. apply list_elem_of_fmap. exists finding. split; [done|]. by eapply list_elem_of_lookup_2.
    + by rewrite (IH k Hnd Hk).
Qed.

Section Pages.
Variables (findings : list Finding) (limit : nat).
Hypotheses (Hlimit : (1 ≤ limit)%nat) (Hids : NoDup (map finding_ID findings))
  (Hnonempty : ∀ finding, finding ∈ findings → finding_ID finding ≠ "").

(** The cursor handed out with a page that ends at [stop] leads to [stop]. *)
Lemma cursor_leads stop : (1 ≤ stop < length findings)%nat →
  ∃ cursor, (match findings !! (stop - 1)%nat with Some finding => EncodeToString (finding_ID finding) | None => "" end) = cursor ∧
    cursor ≠ "" ∧ cursorStart findings cursor = Ok stop.
Proof.
  intros Hstop. destruct (lookup_lt_is_Some_2 findings (stop - 1)) as [finding Hk]; [lia|]. rewrite Hk.
  pose proof (Hnonempty _ (list_elem_of_lookup_2 _ _ _ Hk)) as Hid. eexists. split; [done|].
  assert (EncodeToString (finding_ID finding) ≠ "") as Hne by (by intros He%EncodeToString_empty).
  split; [done|]. unfold cursorStart. rewrite (proj2 (String.eqb_neq _ _) Hne), DecodeString_EncodeToString.
  destruct (Z.eqb_spec (len (finding_ID finding)) 0) as [Hlen|_].
  { destruct Hid. unfold len in Hlen. by destruct (finding_ID finding). }
  rewrite (index_of_id_lookup _ _ _ Hids Hk). f_equal. lia.
Qed.

Lemma fetch_from fuel : ∀ start cursor,
  cursorStart findings cursor = Ok start → (length findings - start < fuel)%nat →
  ∃ pages, fetch_pages fuel findings limit cursor = Ok pages ∧ concat pages = drop start findings ∧
    Forall (λ page, length page ≤ limit)%nat pages.
Proof.
  induction fuel as [|fuel IH]; intros start cursor Hstart Hfuel; [lia|].
  cbn [fetch_pages]. rewrite Hstart. cbn [mbind result_bind]. unfold page_of.
  set (stop := Nat.min (start + limit) (length findings)).
  assert (length (take (stop - start) (drop start findings)) ≤ limit)%nat as Hlen by (rewrite length_take; lia).
  destruct (Nat.ltb_spec stop (length findings)) as [Hlt|Hge].
  - destruct (cursor_leads stop) as (next & Hnext & Hne & Hleads); [lia|]. rewrite Hnext.
    rewrite (proj2 (String.eqb_neq _ _) Hne). destruct (IH stop next Hleads) as (pages & -> & Hconcat & Hall); [lia|].
    eexists. split; [done|]. split; [|by constructor]. cbn [concat]. rewrite Hconcat.
    rewrite <- (take_drop (stop - start) (drop start findings)) at 2. rewrite drop_drop. do 2 f_equal. lia.
  - eexists. split; [done|]. split; [|by constructor]. cbn [concat]. rewrite app_nil_r. apply take_ge.
    rewrite length_drop. lia.
Qed.
End Pages.

(** C39. Following the cursors from the first page on, while the result set, whose identifiers are distinct and not
    empty, stays the same, ends, and lists every finding of it exactly once and in its order, in pages of at most
    the limit asked for. *)
Theorem pages_enumerate (findings : list Finding) (limit : nat) (Hlimit : (1 ≤ limit)%nat)
    (Hids : NoDup (map finding_ID findings)) (Hnonempty : ∀ finding, finding ∈ findings → finding_ID finding ≠ "") :
  ∃ pages, fetch_pages (S (length findings)) findings limit "" = Ok pages ∧ concat pages = findings ∧
    Forall (λ page, length page ≤ limit)%nat pages.
Proof. apply (fetch_from findings limit Hlimit Hids Hnonempty (S (length findings)) 0 ""); [done | lia]. Qed.

(** * Sorting *)

(** A three-way comparison. *)
Class Comparison {A} (c : A → A → Z) : Prop := {
  comparison_flip x y : 0 < c x y ↔ c y x < 0;
  comparison_trans x y z : c x y ≤ 0 → c y z ≤ 0 → c x z ≤ 0
}.

Lemma difference_comparison {A} (key : A → Z) : Comparison (λ x y, key x - key y).
Proof. split; intros; lia. Qed.

Lemma string_compare_lt x y : string_compare x y < 0 ↔ String.ltb x y = true.
Proof. unfold string_compare, String.ltb. by destruct (String.compare x y). Qed.
Lemma string_compare_flip x y : 0 < string_compare x y ↔ string_compare y x < 0.
Proof. unfold string_compare. rewrite (String.compare_antisym x y). by destruct (String.compare y x). Qed.
Lemma string_compare_le x y : string_compare x y ≤ 0 ↔ String.ltb y x = false.
Proof. rewrite <- not_true_iff_false, <- string_compare_lt, <- string_compare_flip. lia. Qed.

Lemma string_comparison {A} (key : A → string) : Comparison (λ x y, string_compare (key x) (key y)).
Proof.
  split; [intros; apply string_compare_flip|]. intros x y z. rewrite !string_compare_le, !ltb_ge.
  intros [->|Hxy] [->|Hyz]; auto. right. by eapply ltb_trans.
Qed.

#[export] Instance findings_comparison field : Comparison (compare_findings field).
Proof.
  unfold compare_findings. repeat case_match; try apply difference_comparison; try apply string_comparison.
  - split; unfold Before, After; intros *; repeat case_match; split_guards; rewrite ?Z.ltb_lt, ?Z.ltb_ge in *; lia.
  - split; lia.
Qed.

Section ThreeWay.
Context {A : Type} (c : A → A → Z) `{!Comparison c} (id : A → string) (ascending : bool).

Definition three_way (x y : A) : bool :=
  if c x y =? 0 then String.ltb (id x) (id y) else if ascending then c x y <? 0 else 0 <? c x y.

(** Every order of the list is a strict weak order, so the sort is what it says. *)
#[export] Instance three_way_order : StrictWeakOrder three_way.
Proof.
  split; unfold three_way.
  - intros x y. pose proof (comparison_flip x y). pose proof (comparison_flip y x).
    destruct (Z.eqb_spec (c x y) 0), (Z.eqb_spec (c y x) 0); try lia.
    + intros Hlt. apply ltb_ge. by right.
    + destruct ascending; rewrite !Z.ltb_lt, Z.ltb_ge; lia.
  - intros x y z. pose proof (comparison_flip x y). pose proof (comparison_flip y x).
    pose proof (comparison_flip y z). pose proof (comparison_flip z y). pose proof (comparison_flip x z).
    pose proof (comparison_flip z x). pose proof (comparison_trans x y z). pose proof (comparison_trans z y x).
    pose proof (comparison_trans y x z). pose proof (comparison_trans y z x). pose proof (comparison_trans x z y).
    pose proof (comparison_trans z x y).
    destruct (Z.eqb_spec (c y x) 0), (Z.eqb_spec (c z y) 0), (Z.eqb_spec (c z x) 0); try lia;
      try (destruct ascending; rewrite ?Z.ltb_ge; lia).
    rewrite !ltb_ge. intros [Hxy|Hxy] [Hyz|Hyz]; rewrite ?Hxy, ?Hyz in *; auto. right. by eapply ltb_trans.
Qed.
End ThreeWay.

(** [x] comes before [y], or is equal to it in the field and in its identifier. *)
Definition in_order (field : string) (ascending : bool) (x y : Finding) : Prop :=
  let c := compare_findings field x y in
  (if ascending then c < 0 else 0 < c) ∨ (c = 0 ∧ (finding_ID x = finding_ID y ∨ String.ltb (finding_ID x) (finding_ID y) = true)).

(** Sorting by one of the five fields, ascending or descending, answers the same findings in that order,
    ties by ascending identifier; any other field or order is refused. *)
Theorem sortFindings_spec (findings : list Finding) (field order : string) :
  match sortFindings findings field order with
  | Ok sorted =>
      let field := if field == "" then "risk" else field in
      field ∈ sort_fields ∧ order ∈ [""; "asc"; "desc"] ∧ sorted ≡ₚ findings ∧
      StronglySorted (in_order field (order == "asc")) sorted
  | Err err => field ∉ "" :: sort_fields ∨ order ∉ [""; "asc"; "desc"]
  end.
Proof.
  unfold sortFindings. set (field' := if field == "" then "risk" else field).
  set (order' := if order == "" then "desc" else order).
  assert (order' = "asc" ∨ order' = "desc" ↔ order ∈ [""; "asc"; "desc"]) as Horder.
  { subst order'. destruct (String.eqb_spec order ""); set_solver. }
  assert (existsb (String.eqb field') sort_fields = true ↔ field' ∈ sort_fields) as Hfield.
  { rewrite existsb_exists. setoid_rewrite String.eqb_eq. setoid_rewrite <- list_elem_of_In. naive_solver. }
  destruct ((order' != "asc") && (order' != "desc")) eqn:Ho.
  { split_guards. right. rewrite <- Horder. by intros [|]. }
  assert (order' = "asc" ∨ order' = "desc") as Hord by (apply andb_false_iff in Ho as [Ho|Ho]; split_guards; auto).
  destruct (existsb (String.eqb field') sort_fields) eqn:Hf; cbn [negb].
  2: { left. intros Hin. assert (field' ∈ sort_fields) as Hin' by (subst field'; destruct (String.eqb_spec field ""); set_solver).
       by apply Hfield in Hin'. }
  split; [by apply Hfield|]. split; [by apply Horder|]. split; [apply sort_slice_perm|].
  assert (order == "asc" = (order' == "asc")) as -> by (subst order'; by destruct (String.eqb_spec order "") as [->|]).
  eapply StronglySorted_weaken; [|apply (sort_slice_sorted (three_way (compare_findings field') finding_ID (order' == "asc")))].
  intros x y. unfold not_after, three_way, in_order. pose proof (comparison_flip (c := compare_findings field') x y).
  pose proof (comparison_flip (c := compare_findings field') y x).
  destruct (Z.eqb_spec (compare_findings field' y x) 0).
  - intros [Hid|Hid]%ltb_ge; right; (split; [lia|]); auto.
  - destruct (order' == "asc"); rewrite Z.ltb_ge; lia.
Qed.

(** Five findings in pages of two. *)
Definition sample_list : list Finding := map (λ id, zero_Finding <| finding_ID := id |>) ["a"; "b"; "c"; "d"; "e"].

Lemma pages_enumerate_witness :
  ∃ pages, fetch_pages 6 sample_list 2 "" = Ok pages ∧ concat pages = sample_list ∧ Forall (λ page, length page ≤ 2)%nat pages.
Proof.
  apply (pages_enumerate sample_list 2).
  - lia.
  - apply (bool_decide_unpack _). vm_compute. exact I.
  - intros finding Hin. apply (proj1 (Forall_forall (λ f, finding_ID f ≠ "") sample_list)); [|exact Hin].
    apply (bool_decide_unpack _). vm_compute. exact I.
Defined.

(** The mean of the dashboard drifts: the sum of the scores is recovered from the rounded mean by
    truncation, here 60 instead of 61. *)
Example mean_drifts :
  let scored (score : Z) := zero_Finding <| finding_RiskScore := score |> in
  let seven := zero_Dashboard <| dashboard_TotalFindings := 7 |>
                 <| dashboard_MeanRiskScore := float64_div (float64_of_int 61) (float64_of_int 7) |> in
  dashboard_MeanRiskScore (addFindingToDashboard seven (scored 39)) = float64_div (float64_of_int 99) (float64_of_int 8).
Proof. vm_compute. reflexivity. Qed.
