(* ===== verification/RequestBody.v ===== *)
(** Request bodies of the HTTP API: how far [encoding/json]'s decoder gets with a body cut off at the size
    limit, times in RFC 3339, and the structs the handlers of [services/api/internal/httpapi/server.go]
    decode, unknown fields refused. *)
From S2P Require Import Prelude GoLib GoDuration Json Core.

Local Open Scope Z_scope.

(** * The scanner of the decoder

    The state machine that finds the end of the first value of a stream, byte by byte: it matters where
    a body that is too long breaks off. *)

Inductive parse_state := ObjectKey | ObjectValue | ArrayValue.

Inductive scan_state :=
| BeginValue
| BeginValueOrEmpty
| BeginString
| BeginStringOrEmpty
| EndValue
| InString
| InStringEscape
| InStringHex (remaining : nat)
| InLiteral (rest : string)
| AfterMinus
| AfterZero
| InDigits
| AfterDot
| InFraction
| AfterE
| AfterESign
| InExponent.

Inductive scan_verdict := ScanGoes (state : scan_state) (stack : list parse_state) | ScanDone | ScanFails.

Definition is_byte (code : Z) (c : Ascii.ascii) : bool := byte_code c =? code.

Definition push_state (state : scan_state) (top : parse_state) (stack : list parse_state) : scan_verdict :=
  if max_nesting <=? Z.of_nat (length stack) then ScanFails else ScanGoes state (top :: stack).

(** After a value; with an empty stack the stream's value has ended before [c]. *)
Definition end_value (c : Ascii.ascii) (stack : list parse_state) : scan_verdict :=
  match stack with
  | [] => ScanDone
  | top :: below =>
      if is_json_space c then ScanGoes EndValue stack
      else match top with
           | ObjectKey => if is_byte 58 c then ScanGoes BeginValue (ObjectValue :: below) else ScanFails
           | ObjectValue =>
               if is_byte 44 c then ScanGoes BeginString (ObjectKey :: below)
               else if is_byte 125 c then match below with [] => ScanDone | _ => ScanGoes EndValue below end
               else ScanFails
           | ArrayValue =>
               if is_byte 44 c then ScanGoes BeginValue stack
               else if is_byte 93 c then match below with [] => ScanDone | _ => ScanGoes EndValue below end
               else ScanFails
           end
  end.

Definition begin_value (c : Ascii.ascii) (stack : list parse_state) : scan_verdict :=
  if is_json_space c then ScanGoes BeginValue stack
  else if is_byte 123 c then push_state BeginStringOrEmpty ObjectKey stack
  else if is_byte 91 c then push_state BeginValueOrEmpty ArrayValue stack
  else if is_byte 34 c then ScanGoes InString stack
  else if is_byte 45 c then ScanGoes AfterMinus stack
  else if is_byte 48 c then ScanGoes AfterZero stack
  else if is_byte 116 c then ScanGoes (InLiteral "rue") stack
  else if is_byte 102 c then ScanGoes (InLiteral "alse") stack
  else if is_byte 110 c then ScanGoes (InLiteral "ull") stack
  else if is_digit c then ScanGoes InDigits stack
  else ScanFails.

Definition after_zero (c : Ascii.ascii) (stack : list parse_state) : scan_verdict :=
  if is_byte 46 c then ScanGoes AfterDot stack
  else if is_byte 101 c || is_byte 69 c then ScanGoes AfterE stack
  else end_value c stack.

Definition scan_step (state : scan_state) (c : Ascii.ascii) (stack : list parse_state) : scan_verdict :=
  match state with
  | BeginValue => begin_value c stack
  | BeginValueOrEmpty =>
      if is_json_space c then ScanGoes BeginValueOrEmpty stack
      else if is_byte 93 c then end_value c stack
      else begin_value c stack
  | BeginString =>
      if is_json_space c then ScanGoes BeginString stack
      else if is_byte 34 c then ScanGoes InString stack else ScanFails
  | BeginStringOrEmpty =>
      if is_json_space c then ScanGoes BeginStringOrEmpty stack
      else if is_byte 125 c then
        match stack with _ :: below => end_value c (ObjectValue :: below) | [] => ScanFails end
      else if is_byte 34 c then ScanGoes InString stack else ScanFails
  | EndValue => end_value c stack
  | InString =>
      if is_byte 34 c then ScanGoes EndValue stack
      else if is_byte 92 c then ScanGoes InStringEscape stack
      else if byte_code c <? 32 then ScanFails else ScanGoes InString stack
  | InStringEscape =>
      if is_byte 117 c then ScanGoes (InStringHex 4) stack
      else match simple_escape c with Some _ => ScanGoes InString stack | None => ScanFails end
  | InStringHex remaining =>
      match hex_value c, remaining with
      | Some _, S (S n) => ScanGoes (InStringHex (S n)) stack
      | Some _, _ => ScanGoes InString stack
      | None, _ => ScanFails
      end
  | InLiteral rest =>
      match rest with
      | String c' rest' =>
          if Ascii.eqb c c' then ScanGoes (if rest' == "" then EndValue else InLiteral rest') stack else ScanFails
      | EmptyString => end_value c stack
      end
  | AfterMinus =>
      if is_byte 48 c then ScanGoes AfterZero stack else if is_digit c then ScanGoes InDigits stack else ScanFails
  | AfterZero => after_zero c stack
  | InDigits => if is_digit c then ScanGoes InDigits stack else after_zero c stack
  | AfterDot => if is_digit c then ScanGoes InFraction stack else ScanFails
  | InFraction =>
      if is_digit c then ScanGoes InFraction stack
      else if is_byte 101 c || is_byte 69 c then ScanGoes AfterE stack
      else end_value c stack
  | AfterE =>
      if is_byte 43 c || is_byte 45 c then ScanGoes AfterESign stack
      else if is_digit c then ScanGoes InExponent stack else ScanFails
  | AfterESign => if is_digit c then ScanGoes InExponent stack else ScanFails
  | InExponent => if is_digit c then ScanGoes InExponent stack else end_value c stack
  end.

(** The decoder has read [s] and asks for more: neither the end of a value nor an error is in sight. *)
Fixpoint asks_for_more (state : scan_state) (stack : list parse_state) (s : string) : bool :=
  match s with
  | EmptyString => true
  | String c rest =>
      match scan_step state c stack with
      | ScanGoes state' stack' => asks_for_more state' stack' rest
      | ScanDone | ScanFails => false
      end
  end.

Example scanner_ex :
  map (λ s, asks_for_more BeginValue [] (requote s))
    ["{'a':[1,{}],'b':'x"; "{'a':[1,{}]}"; "{'a' 1"; " 12"; "12 "; "[tru"; "[trx"; ""; "{'a':-"; "{'a':1e5,"; "'\u12"]
  = [true; false; false; true; false; true; false; true; true; true; true].
Proof. vm_compute. reflexivity. Qed.

(** * Times *)

Definition days_before_year (y : Z) : Z := 365 * (y - 1) + (y - 1) / 4 - (y - 1) / 100 + (y - 1) / 400.
Fixpoint days_before_month (months : nat) (y : Z) : Z :=
  match months with O => 0 | S m => days_before_month m y + days_in_month y (Z.of_nat months) end.

(** [parseUint(s, min, max)] on the first [n] bytes, and the rest. *)
Definition take_uint (n : nat) (minimum maximum : Z) (s : string) : option (Z * string) :=
  let ds := string_take n s in
  let x := digits_value ds in
  if (len ds =? Z.of_nat n) && forallb is_digit (String.list_ascii_of_string ds) && (minimum <=? x) && (x <=? maximum)
  then Some (x, string_drop n s) else None.

(** A fraction of a second: nine digits count. *)
Definition take_nanoseconds (s : string) : Z * string :=
  match take_byte 46 s with
  | Some rest =>
      let '(ds, rest') := scan_digits rest in
      if ds == "" then (0, s)
      else let nine := string_take 9 ds in (digits_value nine * 10 ^ (9 - len nine), rest')
  | None => (0, s)
  end.

(** The offset of a zone, in seconds. *)
Definition take_zone (s : string) : option Z :=
  if s == "Z" then Some 0
  else
    '(sign, r) ← match take_byte 43 s, take_byte 45 s with
                 | Some r, _ => Some (1, r) | None, Some r => Some (-1, r) | None, None => None end;
    '(hours, r) ← take_uint 2 0 23 r;
    r ← take_byte 58 r;
    '(minutes, r) ← take_uint 2 0 59 r;
    if r == "" then Some (sign * (hours * 3600 + minutes * 60)) else None.

(** [time.Time.UnmarshalJSON]: a time in strict RFC 3339. *)
Definition ParseRFC3339 (s : string) : option Time :=
  '(y, s) ← take_uint 4 0 9999 s; s ← take_byte 45 s;
  '(m, s) ← take_uint 2 1 12 s; s ← take_byte 45 s;
  '(d, s) ← take_uint 2 1 (days_in_month y m) s; s ← take_byte 84 s;
  '(hh, s) ← take_uint 2 0 23 s; s ← take_byte 58 s;
  '(mm, s) ← take_uint 2 0 59 s; s ← take_byte 58 s;
  '(ss, s) ← take_uint 2 0 59 s;
  let '(nanoseconds, s) := take_nanoseconds s in
  offset ← take_zone s;
  let days := days_before_year y + days_before_month (Z.to_nat (m - 1)) y + d - 1 in
  Some ((days * 86400 + hh * 3600 + mm * 60 + ss - offset) * Second + nanoseconds).

Example time_ex :
  (FormatRFC3339 <$> ParseRFC3339 "2024-02-29T23:59:58.25+01:30", ParseRFC3339 "2023-02-29T00:00:00Z",
   ParseRFC3339 "0001-01-01T00:00:00.5Z") = (Some "2024-02-29T22:29:58Z", None, Some 500000000).
Proof. vm_compute. reflexivity. Qed.

Definition decode_time (old : Time) (v : json) : result Time :=
  match v with
  | JNull => Ok old
  | JString s => match ParseRFC3339 s with Some t => Ok t | None => Err json_error end
  | _ => Err json_error
  end.

(** * The requests *)

Record statusRequest := mkStatusRequest { request_Status : string; request_Reason : string }.
#[export] Instance eta_statusRequest : Eta statusRequest := λ r, mkStatusRequest (request_Status r) (request_Reason r).
Definition set_statusRequest (name : string) (v : json) (r : statusRequest) : result statusRequest :=
  if EqualFold name "status" then s ← decode_string (request_Status r) v; Ok (r <| request_Status := s |>)
  else if EqualFold name "reason" then s ← decode_string (request_Reason r) v; Ok (r <| request_Reason := s |>)
  else Err json_error.
Definition decode_statusRequest : json → result statusRequest := decode_struct set_statusRequest (mkStatusRequest "" "").

Record exceptionRequest := mkExceptionRequest { request_Scope : string; request_Why : string; request_ExpiresAt : Time }.
#[export] Instance eta_exceptionRequest : Eta exceptionRequest :=
  λ r, mkExceptionRequest (request_Scope r) (request_Why r) (request_ExpiresAt r).
Definition set_exceptionRequest (name : string) (v : json) (r : exceptionRequest) : result exceptionRequest :=
  if EqualFold name "scope" then s ← decode_string (request_Scope r) v; Ok (r <| request_Scope := s |>)
  else if EqualFold name "reason" then s ← decode_string (request_Why r) v; Ok (r <| request_Why := s |>)
  else if EqualFold name "expiresAt" then t ← decode_time (request_ExpiresAt r) v; Ok (r <| request_ExpiresAt := t |>)
  else Err json_error.
Definition decode_exceptionRequest : json → result exceptionRequest :=
  decode_struct set_exceptionRequest (mkExceptionRequest "" "" 0).

(** A request with one string field, [findingId], [reason] or [manifest]; and the empty request. *)
Definition set_field_only (field name : string) (v : json) (old : string) : result string :=
  if EqualFold name field then decode_string old v else Err json_error.
Definition decode_single (field : string) : json → result string := decode_struct (set_field_only field) "".
Definition decode_empty : json → result unit := decode_struct (λ _ _ _, Err json_error) tt.

Record modelProviderSecretRequest := mkSecretRequest { request_SecretName : string; request_Key : string; request_Value : string }.
#[export] Instance eta_secretRequest : Eta modelProviderSecretRequest :=
  λ r, mkSecretRequest (request_SecretName r) (request_Key r) (request_Value r).
Definition set_secretRequest (name : string) (v : json) (r : modelProviderSecretRequest) : result modelProviderSecretRequest :=
  if EqualFold name "secretName" then s ← decode_string (request_SecretName r) v; Ok (r <| request_SecretName := s |>)
  else if EqualFold name "key" then s ← decode_string (request_Key r) v; Ok (r <| request_Key := s |>)
  else if EqualFold name "value" then s ← decode_string (request_Value r) v; Ok (r <| request_Value := s |>)
  else Err json_error.
Definition decode_secretRequest : json → result modelProviderSecretRequest :=
  decode_struct set_secretRequest (mkSecretRequest "" "" "").

Definition set_secretRef (name : string) (v : json) (r : SecretRef) : result SecretRef :=
  if EqualFold name "name" then s ← decode_string (secretRef_Name r) v; Ok (r <| secretRef_Name := s |>)
  else if EqualFold name "key" then s ← decode_string (secretRef_Key r) v; Ok (r <| secretRef_Key := s |>)
  else Err json_error.
Definition set_externalRef (name : string) (v : json) (r : ExternalSecretRef) : result ExternalSecretRef :=
  if EqualFold name "store" then s ← decode_string (externalRef_Store r) v; Ok (r <| externalRef_Store := s |>)
  else if EqualFold name "path" then s ← decode_string (externalRef_Path r) v; Ok (r <| externalRef_Path := s |>)
  else if EqualFold name "key" then s ← decode_string (externalRef_Key r) v; Ok (r <| externalRef_Key := s |>)
  else Err json_error.

(** A pointer to a struct: [null] clears it, an object fills the struct it points to, a new one at first. *)
Definition decode_pointer {A} (set : string → json → A → result A) (zero : A) (old : option A) (v : json) : result (option A) :=
  match v with JNull => Ok None | _ => Some <$> decode_struct set (default zero old) v end.

Definition set_provider (name : string) (v : json) (r : ModelProvider) : result ModelProvider :=
  if EqualFold name "name" then s ← decode_string (provider_Name r) v; Ok (r <| provider_Name := s |>)
  else if EqualFold name "type" then s ← decode_string (provider_Type r) v; Ok (r <| provider_Type := s |>)
  else if EqualFold name "model" then s ← decode_string (provider_Model r) v; Ok (r <| provider_Model := s |>)
  else if EqualFold name "apiKeySecretRef" then
    p ← decode_pointer set_secretRef zero_SecretRef (provider_APIKeySecretRef r) v; Ok (r <| provider_APIKeySecretRef := p |>)
  else if EqualFold name "externalSecretRef" then
    p ← decode_pointer set_externalRef zero_ExternalSecretRef (provider_ExternalSecretRef r) v;
    Ok (r <| provider_ExternalSecretRef := p |>)
  else Err json_error.

Definition set_settings (name : string) (v : json) (r : ModelProviderSettings) : result ModelProviderSettings :=
  if EqualFold name "providers" then
    match v with
    | JNull => Ok (r <| settings_Providers := [] |>)
    | JArray items => l ← decode_all (decode_struct set_provider zero_ModelProvider) items; Ok (r <| settings_Providers := l |>)
    | _ => Err json_error
    end
  else Err json_error.
Definition decode_settings : json → result ModelProviderSettings := decode_struct set_settings zero_ModelProviderSettings.
