(* ===== verification/ManagedResources.v ===== *)
(** Managed resources, [services/api/internal/managedresources/types.go]: what discovery reports of the
    allowlisted objects of the cluster and their relationships. *)
From S2P Require Import Prelude GoLib Core Kube.

Local Open Scope Z_scope.

Definition RedactedValue : string := "[REDACTED]".

Record AllowlistEntry := mkAllowlistEntry {
  allow_APIGroup : string; allow_Version : string; allow_Resources : list string; allow_Namespaced : bool
}.
#[export] Instance eta_AllowlistEntry : Eta AllowlistEntry :=
  λ r, mkAllowlistEntry (allow_APIGroup r) (allow_Version r) (allow_Resources r) (allow_Namespaced r).
Record ManagedConfig := mkManagedConfig { managed_Enabled : bool; managed_Allowlist : list AllowlistEntry }.
#[export] Instance eta_ManagedConfig : Eta ManagedConfig := λ r, mkManagedConfig (managed_Enabled r) (managed_Allowlist r).

Definition ManagementArgoCD : string := "argocd".
Definition ManagementFlux : string := "flux".
Definition ManagementHelm : string := "helm".
Definition ManagementCrossplane : string := "crossplane".
Definition ManagementOperator : string := "operator".
Definition ManagementUnknown : string := "unknown".

Record Provenance := mkProvenance {
  provenance_System : string; provenance_Controller : string; provenance_SourceRef : string; provenance_GitOps : bool;
  provenance_Signals : list string
}.
#[export] Instance eta_Provenance : Eta Provenance :=
  λ r, mkProvenance (provenance_System r) (provenance_Controller r) (provenance_SourceRef r) (provenance_GitOps r)
         (provenance_Signals r).

Record ResourceReference := mkResourceReference {
  reference_APIVersion : string; reference_Kind : string; reference_Namespace : string; reference_Name : string;
  reference_UID : string
}.
#[export] Instance eta_ResourceReference : Eta ResourceReference :=
  λ r, mkResourceReference (reference_APIVersion r) (reference_Kind r) (reference_Namespace r) (reference_Name r)
         (reference_UID r).
#[export] Instance ResourceReference_eq_dec : EqDecision ResourceReference.
Proof. solve_decision. Defined.

Definition RelationshipOwner : string := "owned_by".
Definition RelationshipReference : string := "references".
Definition RelationshipClaim : string := "claimed_by".

Record Relationship := mkRelationship {
  relationship_From : ResourceReference; relationship_To : ResourceReference; relationship_Type : string;
  relationship_Path : string
}.
#[export] Instance eta_Relationship : Eta Relationship :=
  λ r, mkRelationship (relationship_From r) (relationship_To r) (relationship_Type r) (relationship_Path r).

Record Condition := mkCondition {
  condition_Type : string; condition_Status : string; condition_Reason : string; condition_Message : string;
  condition_ObservedGeneration : Z; condition_LastTransitionTime : option Time
}.
#[export] Instance eta_Condition : Eta Condition :=
  λ r, mkCondition (condition_Type r) (condition_Status r) (condition_Reason r) (condition_Message r)
         (condition_ObservedGeneration r) (condition_LastTransitionTime r).

Record ResourceStatus := mkResourceStatus {
  rstatus_Ready : option bool; rstatus_Synced : option bool; rstatus_Stalled : option bool; rstatus_State : string;
  rstatus_ObservedGeneration : Z; rstatus_Conditions : list Condition
}.
#[export] Instance eta_ResourceStatus : Eta ResourceStatus :=
  λ r, mkResourceStatus (rstatus_Ready r) (rstatus_Synced r) (rstatus_Stalled r) (rstatus_State r)
         (rstatus_ObservedGeneration r) (rstatus_Conditions r).

Record Resource := mkResource {
  resource_ID : string; resource_APIGroup : string; resource_Version : string; resource_Plural : string;
  resource_APIVersion : string; resource_Kind : string; resource_Namespace : string; resource_Name : string;
  resource_UID : string; resource_Generation : Z; resource_CreatedAt : Time; resource_DeletionTimestamp : option Time;
  resource_Finalizers : list string; resource_Labels : gmap string string; resource_Annotations : gmap string string;
  resource_Spec : fields; resource_ExternalID : string; resource_Status : ResourceStatus; resource_Provenance : Provenance
}.
#[export] Instance eta_Resource : Eta Resource :=
  λ r, mkResource (resource_ID r) (resource_APIGroup r) (resource_Version r) (resource_Plural r) (resource_APIVersion r)
         (resource_Kind r) (resource_Namespace r) (resource_Name r) (resource_UID r) (resource_Generation r)
         (resource_CreatedAt r) (resource_DeletionTimestamp r) (resource_Finalizers r) (resource_Labels r)
         (resource_Annotations r) (resource_Spec r) (resource_ExternalID r) (resource_Status r) (resource_Provenance r).

(** [Resource.Reference] *)
Definition Reference (r : Resource) : ResourceReference :=
  mkResourceReference (resource_APIVersion r) (resource_Kind r) (resource_Namespace r) (resource_Name r) (resource_UID r).

Record Warning := mkWarning {
  warning_APIGroup : string; warning_Version : string; warning_Resource : string; warning_Code : string;
  warning_Message : string
}.

Record Snapshot := mkSnapshot {
  managed_ObservedAt : Time; managed_Resources : list Resource; managed_Relationships : list Relationship;
  managed_Findings : list Finding; managed_Warnings : list Warning
}.
#[export] Instance eta_Snapshot : Eta Snapshot :=
  λ r, mkSnapshot (managed_ObservedAt r) (managed_Resources r) (managed_Relationships r) (managed_Findings r)
         (managed_Warnings r).
