(* ===== verification/StrictSort.v ===== *)
(** Lists sorted strictly: sorting distinct elements gives the only strictly sorted list of them. *)
From S2P Require Import Prelude GoLib.

(** [less] is a strict total order. *)
Class StrictTotalOrder {A} (less : A → A → bool) : Prop := {
  less_irrefl x : less x x = false;
  less_trans x y z : less x y = true → less y z = true → less x z = true;
  less_total x y : less x y = false → less y x = false → x = y
}.

#[export] Instance ltb_total_order : StrictTotalOrder String.ltb.
Proof.
  split; [apply ltb_irrefl | apply ltb_trans |]. intros x y [->|Hyx]%ltb_ge Hxy; [done|]. congruence.
Qed.

#[export] Instance total_order_weak {A} (less : A → A → bool) : StrictTotalOrder less → StrictWeakOrder less.
Proof.
  intros [Hirr Htrans Htot]. split.
  - intros x y Hxy. destruct (less y x) eqn:Hyx; [|done]. pose proof (Htrans _ _ _ Hxy Hyx). congruence.
  - intros x y z Hyx Hzy. destruct (less z x) eqn:Hzx; [|done]. exfalso.
    destruct (less x y) eqn:Hxy; [by rewrite (Htrans _ _ _ Hzx Hxy) in Hzy|].
    rewrite (Htot _ _ Hxy Hyx) in Hzx. congruence.
Qed.

Section Strict.
Context {A K : Type} (key : A → K) (less : K → K → bool) `{!StrictTotalOrder less}.

(** Strictly sorted by the key. *)
Definition increasing (l : list A) : Prop := StronglySorted (λ x y, less (key x) (key y) = true) l.

#[export] Instance weak_by_key : StrictWeakOrder (λ x y, less (key x) (key y)).
Proof.
  assert (StrictWeakOrder less) as [Ha Hn] by apply _.
  split; [intros x y; apply Ha | intros x y z; apply Hn].
Qed.

Lemma sort_increasing l : NoDup (map key l) → increasing (sort_slice (λ x y, less (key x) (key y)) l).
Proof.
  intros Hnd. set (l' := sort_slice _ l).
  assert (StronglySorted (not_after (λ x y, less (key x) (key y))) l') as Hs by apply sort_slice_sorted, _.
  assert (NoDup (map key l')) as Hnd' by (unfold l'; by rewrite sort_slice_perm). clearbody l'. clear Hnd.
  unfold increasing. induction Hs as [|x l' Hs IH Hx]; [constructor|]. apply NoDup_cons in Hnd' as [Hnotin Hnd'].
  constructor; [by apply IH|]. rewrite Forall_forall in *. intros y Hy. specialize (Hx y Hy). unfold not_after in Hx.
  destruct (less (key x) (key y)) eqn:Hxy; [done|]. destruct Hnotin. rewrite (less_total _ _ Hxy Hx).
  by apply list_elem_of_fmap_2.
Qed.

Lemma increasing_NoDup l : increasing l → NoDup (map key l).
Proof.
  induction 1 as [|x l Hs IH Hx]; [constructor|]. apply NoDup_cons. split; [|done].
  intros (y & Hkey & Hy)%list_elem_of_fmap. rewrite Forall_forall in Hx. specialize (Hx y Hy). cbn in Hx.
  rewrite Hkey, less_irrefl in Hx. done.
Qed.

Lemma increasing_unique l1 l2 : increasing l1 → increasing l2 → (∀ x, x ∈ l1 ↔ x ∈ l2) → l1 = l2.
Proof.
  intros H1. revert l2. induction H1 as [|x l1 Hs1 IH Hx1]; intros l2 H2 Heq.
  { destruct l2 as [|y l2]; [done|]. assert (y ∈ []) as Hy by (apply Heq; left). by apply not_elem_of_nil in Hy. }
  destruct H2 as [|y l2 Hs2 Hx2]. { assert (x ∈ []) as Hx by (apply Heq; left). by apply not_elem_of_nil in Hx. }
  rewrite Forall_forall in Hx1, Hx2.
  assert (x = y) as ->.
  { assert (x ∈ y :: l2) as [->|Hx]%elem_of_cons by (apply Heq; left); [done|].
    assert (y ∈ x :: l1) as [->|Hy]%elem_of_cons by (apply Heq; left); [done|].
    pose proof (less_trans _ _ _ (Hx1 _ Hy) (Hx2 _ Hx)) as Hloop. by rewrite less_irrefl in Hloop. }
  f_equal. apply IH; [done|]. intros z. split; intros Hz.
  - assert (z ∈ y :: l2) as [->|Hz']%elem_of_cons by (apply Heq; by right); [|done].
    specialize (Hx1 _ Hz). cbn in Hx1. by rewrite less_irrefl in Hx1.
  - assert (z ∈ y :: l1) as [->|Hz']%elem_of_cons by (apply Heq; by right); [|done].
    specialize (Hx2 _ Hz). cbn in Hx2. by rewrite less_irrefl in Hx2.
Qed.
End Strict.
