(* ===== verification/Runes.v ===== *)
(** The runes of a Go string: [range s], [[]rune(s)] and [string(runes)] on the bytes of UTF-8. A byte that
    is not part of an encoding reads as the replacement character, alone. How many runes a string has: encoding runes and reading
    them back, and the effect of trimming. *)
From S2P Require Import Prelude GoLib Json.
From S2P Require Import JsonProps.

Local Open Scope Z_scope.

Definition between (lo hi : Z) (c : Ascii.ascii) : bool := (lo <=? byte_code c) && (byte_code c <=? hi).
Definition continuation (c : Ascii.ascii) : Z := byte_code c - 128.

(** The first rune of [String c rest], and how many bytes of [rest] belong to it. *)
Definition first_rune (c : Ascii.ascii) (rest : string) : Z * nat :=
  let n := byte_code c in
  let bad := (replacement_char, O) in
  if n <? 128 then (n, O)
  else if between 194 223 c then
    match rest with
    | String c1 _ => if between 128 191 c1 then ((n - 192) * 64 + continuation c1, 1%nat) else bad
    | _ => bad
    end
  else if between 224 239 c then
    let lo := if n =? 224 then 160 else 128 in
    let hi := if n =? 237 then 159 else 191 in
    match rest with
    | String c1 (String c2 _) =>
        if between lo hi c1 && between 128 191 c2
        then ((n - 224) * 4096 + continuation c1 * 64 + continuation c2, 2%nat) else bad
    | _ => bad
    end
  else if between 240 244 c then
    let lo := if n =? 240 then 144 else 128 in
    let hi := if n =? 244 then 143 else 191 in
    match rest with
    | String c1 (String c2 (String c3 _)) =>
        if between lo hi c1 && between 128 191 c2 && between 128 191 c3
        then ((n - 240) * 262144 + continuation c1 * 4096 + continuation c2 * 64 + continuation c3, 3%nat) else bad
    | _ => bad
    end
  else bad.

(** [skip] bytes still belong to the rune before. *)
Fixpoint runes_from (skip : nat) (s : string) : list Z :=
  match s, skip with
  | EmptyString, _ => []
  | String _ rest, S skip' => runes_from skip' rest
  | String c rest, O => let '(rune, more) := first_rune c rest in rune :: runes_from more rest
  end.
Definition runes : string → list Z := runes_from 0.

(** [string(runes)] *)
Definition string_of_runes (l : list Z) : string := foldr (λ rune s, utf8_encode rune +:+ s) "" l.

Example runes_ex : runes "aé€" = [97; 233; 8364] ∧ string_of_runes (runes "aé€") = "aé€"
  ∧ runes (String (byte_of_code 195) "a") = [65533; 97].
Proof. by vm_compute. Qed.

(** The runes with the bytes that encode them. *)
Definition text : Type := list (Z * string).
Fixpoint text_from (skip : nat) (s : string) : string * text :=
  match s, skip with
  | EmptyString, _ => ("", [])
  | String c rest, S skip' => let '(bytes, t) := text_from skip' rest in (String c bytes, t)
  | String c rest, O =>
      let '(rune, more) := first_rune c rest in
      let '(bytes, t) := text_from more rest in ("", (rune, String c bytes) :: t)
  end.
Definition text_of (s : string) : text := (text_from 0 s).2.
Definition text_string (t : text) : string := foldr (λ r s, r.2 +:+ s) "" t.

Lemma text_from_string skip s : (text_from skip s).1 +:+ text_string (text_from skip s).2 = s.
Proof.
  revert skip. induction s as [|c s IH]; intros [|skip]; cbn; [done..| |].
  - destruct (first_rune c s) as [rune more]. specialize (IH more). destruct (text_from more s) as [bytes t].
    exact (f_equal (String c) IH).
  - specialize (IH skip). destruct (text_from skip s) as [bytes t]. exact (f_equal (String c) IH).
Qed.

(** Nothing is lost. *)
Lemma text_of_string s : text_string (text_of s) = s.
Proof.
  unfold text_of. rewrite <- (text_from_string 0 s) at 2. destruct s as [|c s]; [done|]. cbn [text_from].
  destruct (first_rune c s) as [rune more]. by destruct (text_from more s).
Qed.

Lemma append_assoc (s t u : string) : s +:+ t +:+ u = (s +:+ t) +:+ u.
Proof. induction s as [|c s IH]; [done|]. exact (f_equal (String c) IH). Qed.

Lemma text_string_app t u : text_string (t ++ u) = text_string t +:+ text_string u.
Proof. 
  induction t as [|[r b] t IH]; [done|]. change (b +:+ text_string (t ++ u) = (b +:+ text_string t) +:+ text_string u).
  by rewrite IH, append_assoc.
 Qed.

Lemma text_from_runes skip s : (text_from skip s).2.*1 = runes_from skip s.
Proof.
  revert skip. induction s as [|c s IH]; intros [|skip]; cbn; [done..| |].
  - destruct (first_rune c s) as [rune more]. rewrite <- IH. by destruct (text_from more s).
  - rewrite <- IH. by destruct (text_from skip s).
Qed.
Lemma text_of_runes s : (text_of s).*1 = runes s.
Proof. apply text_from_runes. Qed.

(** An ASCII string is the list of its bytes. *)
Definition ascii_only (s : string) : bool := forallb (λ c, byte_code c <? 128) (String.list_ascii_of_string s).

Lemma runes_ascii s : ascii_only s = true → runes s = map byte_code (String.list_ascii_of_string s).
Proof.
  unfold ascii_only, runes. induction s as [|c s IH]; [done|]. cbn [String.list_ascii_of_string forallb map].
  intros [Hc Hs]%andb_true_iff. cbn [runes_from]. unfold first_rune. rewrite Hc. cbv zeta. f_equal. by apply IH.
Qed.

(** * How many runes a string has *)

(** [utf8.RuneCountInString] *)
Definition rune_count (s : string) : Z := Z.of_nat (length (runes s)).

(** * Encoding and decoding *)

(** The code points UTF-8 can encode. *)
Definition encodable (r : Z) : Prop := 0 ≤ r < 55296 ∨ 57344 ≤ r < 1114112.

Lemma byte_code_of z : 0 ≤ z < 256 → byte_code (byte_of_code z) = z.
Proof. intros Hz. unfold byte_code, byte_of_code. rewrite Ascii.N_ascii_embedding by lia. lia. Qed.

Lemma first_rune_encodable c rest : encodable (first_rune c rest).1.
Proof.
  pose proof (byte_code_range c). assert (encodable replacement_char) as Hbad by (unfold encodable, replacement_char; lia).
  unfold first_rune, between, continuation. repeat case_match; cbn [fst]; try done.
  all: repeat match goal with H : (_ && _) = true |- _ => apply andb_true_iff in H as [? ?] end.
  all: repeat match goal with
         | H : (_ <=? _) = true |- _ => apply Z.leb_le in H | H : (_ <? _) = true |- _ => apply Z.ltb_lt in H
         | H : (_ <? _) = false |- _ => apply Z.ltb_ge in H | H : (_ =? _) = true |- _ => apply Z.eqb_eq in H
         | H : (_ =? _) = false |- _ => apply Z.eqb_neq in H end.
  all: unfold encodable; lia.
Qed.

Lemma runes_encodable s : Forall encodable (runes s).
Proof.
  unfold runes. generalize O as skip. induction s as [|c s IH]; intros [|skip]; cbn; [constructor..| |apply IH].
  pose proof (first_rune_encodable c s) as Hr. destruct (first_rune c s) as [rune more]. by constructor.
Qed.
Lemma between_in lo hi z : 0 ≤ z < 256 → lo ≤ z ≤ hi → between lo hi (byte_of_code z) = true.
Proof. intros. unfold between. rewrite byte_code_of by done. apply andb_true_iff. rewrite !Z.leb_le. lia. Qed.
Lemma between_out lo hi z : 0 ≤ z < 256 → z < lo ∨ hi < z → between lo hi (byte_of_code z) = false.
Proof. intros. unfold between. rewrite byte_code_of by done. apply andb_false_iff. rewrite !Z.leb_gt. lia. Qed.

Lemma runes_one a s : 0 ≤ a < 128 → runes (String (byte_of_code a) s) = a :: runes s.
Proof.
  intros Ha. unfold runes at 1. cbn [runes_from]. unfold first_rune. rewrite byte_code_of by lia.
  by rewrite (proj2 (Z.ltb_lt a 128)) by lia.
Qed.
Lemma runes_two a b s : 2 ≤ a < 32 → 0 ≤ b < 64 →
  runes (String (byte_of_code (192 + a)) (String (byte_of_code (128 + b)) s)) = a * 64 + b :: runes s.
Proof.
  intros Ha Hb. unfold runes at 1. cbn [runes_from]. unfold first_rune, continuation. rewrite !byte_code_of by lia.
  rewrite (proj2 (Z.ltb_ge (192 + a) 128)) by lia. rewrite !between_in by lia. f_equal; lia.
Qed.
Lemma runes_three a b c s : 0 ≤ a < 16 → 0 ≤ b < 64 → 0 ≤ c < 64 → (a = 0 → 32 ≤ b) → (a = 13 → b < 32) →
  runes (String (byte_of_code (224 + a)) (String (byte_of_code (128 + b)) (String (byte_of_code (128 + c)) s))) =
  a * 4096 + b * 64 + c :: runes s.
Proof.
  intros Ha Hb Hc H0 H13. unfold runes at 1. cbn [runes_from]. unfold first_rune, continuation. rewrite !byte_code_of by lia.
  rewrite (proj2 (Z.ltb_ge (224 + a) 128)) by lia. rewrite between_out, between_in by lia.
  destruct (Z.eqb_spec (224 + a) 224), (Z.eqb_spec (224 + a) 237); try lia; rewrite !between_in by lia; cbn [andb]; f_equal; lia.
Qed.
Lemma runes_four a b c d s : 0 ≤ a < 5 → 0 ≤ b < 64 → 0 ≤ c < 64 → 0 ≤ d < 64 → (a = 0 → 16 ≤ b) → (a = 4 → b < 16) →
  runes (String (byte_of_code (240 + a)) (String (byte_of_code (128 + b)) (String (byte_of_code (128 + c)) (String (byte_of_code (128 + d)) s)))) =
  a * 262144 + b * 4096 + c * 64 + d :: runes s.
Proof.
  intros Ha Hb Hc Hd H0 H4. unfold runes at 1. cbn [runes_from]. unfold first_rune, continuation. rewrite !byte_code_of by lia.
  rewrite (proj2 (Z.ltb_ge (240 + a) 128)) by lia. rewrite !(between_out _ _ (240 + a)), (between_in _ _ (240 + a)) by lia.
  destruct (Z.eqb_spec (240 + a) 240), (Z.eqb_spec (240 + a) 244); try lia; rewrite !between_in by lia; cbn [andb]; f_equal; lia.
Qed.

Lemma runes_encode r s : encodable r → runes (utf8_encode r +:+ s) = r :: runes s.
Proof.
  intros Hr. unfold utf8_encode. cbv zeta.
  assert (∀ n, 0 ≤ n mod 64 < 64) as Hm by (intros; apply Z.mod_pos_bound; lia).
  pose proof (Hm r). pose proof (Hm (r / 64)). pose proof (Hm (r / 4096)).
  pose proof (Z.div_mod r 64 ltac:(lia)) as E1. pose proof (Z.div_mod (r / 64) 64 ltac:(lia)) as E2.
  pose proof (Z.div_mod (r / 4096) 64 ltac:(lia)) as E3. rewrite !Z.div_div in E2, E3 by lia. 
  change (64 * 64) with 4096 in E2. change (4096 * 64) with 262144 in E3.
  destruct (Z.ltb_spec r 128), (Z.ltb_spec r 2048), (Z.ltb_spec r 65536); unfold encodable in Hr; try lia.
  all: rewrite ?string_app_cons.
  - apply runes_one. lia.
  - etrans; [apply (runes_two (r / 64) (r mod 64)); lia|]. f_equal. lia.
  - etrans; [apply (runes_three (r / 4096) ((r / 64) mod 64) (r mod 64)); lia|]. f_equal. lia.
  - etrans; [apply (runes_four (r / 262144) ((r / 4096) mod 64) ((r / 64) mod 64) (r mod 64)); lia|]. f_equal. lia.
Qed.

Lemma runes_string_of_runes l : Forall encodable l → runes (string_of_runes l) = l.
Proof. induction 1 as [|r l Hr _ IH]; [done|]. change (string_of_runes (r :: l)) with (utf8_encode r +:+ string_of_runes l). by rewrite runes_encode, IH. Qed.

(** * Trimming *)

Definition ascii_string (s : string) : Prop := Forall (λ c, byte_code c < 128) (String.list_ascii_of_string s).

Lemma list_ascii_app s t :
  String.list_ascii_of_string (s +:+ t) = String.list_ascii_of_string s ++ String.list_ascii_of_string t.
Proof. induction s as [|c s IH]; [done|]. exact (f_equal (cons c) IH). Qed.

Lemma string_rev_app s t : string_rev (s +:+ t) = string_rev t +:+ string_rev s.
Proof.
  unfold string_rev. rewrite list_ascii_app, rev_app_distr.
  generalize (rev (String.list_ascii_of_string t)). intros l. induction l as [|c l IH]; [done|]. exact (f_equal (String c) IH).
Qed.
Lemma list_ascii_rev s : String.list_ascii_of_string (string_rev s) = rev (String.list_ascii_of_string s).
Proof. unfold string_rev. by rewrite String.list_ascii_of_string_of_list_ascii. Qed.
Lemma string_rev_twice s : string_rev (string_rev s) = s.
Proof. unfold string_rev at 1. by rewrite list_ascii_rev, rev_involutive, String.string_of_list_ascii_of_string. Qed.

(** What is trimmed. *)
Lemma trim_left_split drop s : ∃ u, s = u +:+ trim_left drop s ∧ Forall (λ c, drop c = true) (String.list_ascii_of_string u).
Proof.
  induction s as [|c s (u & Hu & Hd)]; [by exists ""|]. cbn [trim_left]. destruct (drop c) eqn:Hc; [|by exists ""].
  exists (String c u). split; [exact (f_equal (String c) Hu) | by constructor].
Qed.
Lemma trim_right_split drop s : ∃ u, s = trim_right drop s +:+ u ∧ Forall (λ c, drop c = true) (String.list_ascii_of_string u).
Proof.
  destruct (trim_left_split drop (string_rev s)) as (u & Hu & Hd). exists (string_rev u). split.
  - unfold trim_right. by rewrite <- string_rev_app, <- Hu, string_rev_twice.
  - rewrite list_ascii_rev. by apply List.Forall_rev.
Qed.

Lemma is_space_ascii c : is_space c = true → byte_code c < 128.
Proof. unfold is_space. intros Hc. apply orb_true_iff in Hc as [[_ Hc%Z.leb_le]%andb_true_iff|Hc%Z.eqb_eq]; lia. Qed.

Lemma runes_ascii_byte c s : byte_code c < 128 → runes (String c s) = byte_code c :: runes s.
Proof. intros Hc. rewrite <- (byte_code_inj c) at 1. apply runes_one. pose proof (byte_code_range c). lia. Qed.

Lemma runes_ascii_prefix u s : ascii_string u → runes (u +:+ s) = runes u ++ runes s.
Proof.
  unfold ascii_string. induction u as [|c u IH]; [done|]. intros [Hc Hu]%Forall_cons.
  change (String c u +:+ s) with (String c (u +:+ s)). by rewrite !runes_ascii_byte, IH.
Qed.

(** An encoding does not reach into ASCII bytes. *)
Lemma not_continuation lo hi c : 128 ≤ lo → byte_code c < 128 → between lo hi c = false.
Proof. intros. unfold between. apply andb_false_iff. rewrite Z.leb_gt. lia. Qed.
Lemma first_rune_app c t d u : byte_code d < 128 → first_rune c (t +:+ String d u) = first_rune c t.
Proof.
  intros Hd. assert (∀ lo hi, 128 ≤ lo → between lo hi d = false) as Hn by (intros; by apply not_continuation).
  assert (∀ (b : bool), 128 ≤ (if b then 160 else 128) ∧ 128 ≤ (if b then 144 else 128)) as Hlo by (intros []; lia).
  unfold first_rune. destruct t as [|c1 [|c2 [|c3 t]]]; rewrite ?string_app_cons; try done.
  all: change ("" +:+ String d u) with (String d u); destruct u as [|d1 [|d2 u]].
  all: rewrite ?Hn by (lia || apply Hlo); rewrite ?andb_false_r, ?andb_false_l; repeat case_match; done.
Qed.
Lemma runes_from_app skip t u : ascii_string u →
  (length (runes_from skip t) ≤ length (runes_from skip (t +:+ u)))%nat.
Proof.
  intros Hu. revert skip. induction t as [|c t IH]; intros skip; [cbn; lia|]. rewrite string_app_cons.
  destruct skip as [|skip]; cbn [runes_from]; [|apply IH].
  assert (first_rune c (t +:+ u) = first_rune c t) as ->.
  { destruct u as [|d u]; [by rewrite string_app_nil_r|]. apply Forall_cons in Hu as [Hd _]. by apply first_rune_app. }
  destruct (first_rune c t) as [rune more]. cbn [length]. apply le_n_S, IH.
Qed.

Lemma trimmed_ascii u : Forall (λ c, is_space c = true) (String.list_ascii_of_string u) → ascii_string u.
Proof. intros Hu. eapply Forall_impl; [exact Hu|]. apply is_space_ascii. Qed.

Lemma rune_count_TrimSpace s : rune_count (TrimSpace s) ≤ rune_count s.
Proof.
  unfold TrimSpace, trim_both, rune_count.
  destruct (trim_left_split is_space s) as (u & Hu & Hd%trimmed_ascii). rewrite Hu at 2. rewrite runes_ascii_prefix by done.
  generalize (trim_left is_space s). intros t.
  destruct (trim_right_split is_space t) as (v & Hv & Hv'%trimmed_ascii). rewrite Hv at 2.
  pose proof (runes_from_app 0 (trim_right is_space t) v Hv'). rewrite length_app. unfold runes in *. lia.
Qed.

Lemma rune_count_empty s : rune_count s = 0 → s = "".
Proof. destruct s as [|c s]; [done|]. unfold rune_count, runes. cbn [runes_from]. destruct (first_rune c s). cbn. lia. Qed.
