(* ===== verification/JsonText.v ===== *)
(** Structs as [json.Marshal] writes them: their members in order, some left out when they are empty. *)
From S2P Require Import Prelude GoLib Json.

(** A member of a struct as [json.Marshal] writes it, and one with [omitempty]. *)
Definition member (name value : string) : list string := [quoted name +:+ ":" +:+ value].
Definition optional_member (name value : string) : list string :=
  if value == "" then [] else member name (marshal_string value).
Definition object_of (members : list (list string)) : string := "{" +:+ Join (concat members) "," +:+ "}".
Definition array_of (items : list string) : string := "[" +:+ Join items "," +:+ "]".

(** A list member with [omitempty], of the texts of its elements. *)
Definition optional_list (name : string) (items : list string) : list string :=
  match items with [] => [] | _ => member name (array_of items) end.
