(* ===== verification/Regex.v ===== *)
(** The part of [regexp] the program uses: patterns over runes, the match [MatchString] and
    [ReplaceAllString] look for, leftmost and, among those that start there, first in the order of
    preference of the pattern. What a pattern matches is defined twice, as a relation and as the list of
    its ways to match, in the order they are preferred; the two agree. *)
From S2P Require Import Prelude GoLib Runes.

Local Open Scope Z_scope.

(** A repetition is of one rune of a class, which is all the patterns need; [Many lazy min p] prefers few
    runes over many when it is lazy. *)
Inductive regex :=
| Eps
| Chars (p : Z → bool)
| Many (lazy : bool) (min : nat) (p : Z → bool)
| Then (r1 r2 : regex)
| Either (r1 r2 : regex)
| Group (n : nat) (r : regex)
| WordEdge.

(** [[0-9A-Za-z_]], and [\b] between the rune before and the text after a position. *)
Definition word_rune (r : Z) : bool :=
  ((48 <=? r) && (r <=? 57)) || ((65 <=? r) && (r <=? 90)) || ((97 <=? r) && (r <=? 122)) || (r =? 95).
Definition word_before (prev : option Z) : bool := match prev with Some r => word_rune r | None => false end.
Definition word_after (t : text) : bool := match t with (r, _) :: _ => word_rune r | [] => false end.
Definition at_edge (prev : option Z) (after : text) : bool := xorb (word_before prev) (word_after after).

(** The last rune of [t], read after [prev]. *)
Fixpoint last_rune (prev : option Z) (t : text) : option Z :=
  match t with [] => prev | (r, _) :: t' => last_rune (Some r) t' end.

(** * The relation *)

(** [r] matches [m] where [prev] stands before it and [after] follows. *)
Fixpoint matches (r : regex) (prev : option Z) (m after : text) : Prop :=
  match r with
  | Eps => m = []
  | Chars p => ∃ c, m = [c] ∧ p c.1 = true
  | Many _ min p => (min ≤ length m)%nat ∧ Forall (λ c, p c.1 = true) m
  | Then r1 r2 => ∃ m1 m2, m = m1 ++ m2 ∧ matches r1 prev m1 (m2 ++ after) ∧ matches r2 (last_rune prev m1) m2 after
  | Either r1 r2 => matches r1 prev m after ∨ matches r2 prev m after
  | Group _ r => matches r prev m after
  | WordEdge => m = [] ∧ at_edge prev after = true
  end.

(** * The matcher *)

(** The groups that took part, the latest first. *)
Definition groups : Type := list (nat * text).

(** The prefixes of [t] of runes in [p], the longest first. *)
Fixpoint runs (p : Z → bool) (t : text) : list text :=
  match t with
  | c :: t' => if p c.1 then map (cons c) (runs p t') ++ [[]] else [[]]
  | [] => [[]]
  end.

Fixpoint ways (r : regex) (prev : option Z) (t : text) : list (text * groups) :=
  match r with
  | Eps => [([], [])]
  | Chars p => match t with c :: _ => if p c.1 then [([c], [])] else [] | [] => [] end
  | Many lazy min p =>
      let ms := List.filter (λ m, (min <=? length m)%nat) (runs p t) in
      map (λ m, (m, [])) (if lazy then rev ms else ms)
  | Then r1 r2 =>
      flat_map (λ w1 : text * groups,
        map (λ w2 : text * groups, (w1.1 ++ w2.1, w2.2 ++ w1.2)) (ways r2 (last_rune prev w1.1) (drop (length w1.1) t)))
        (ways r1 prev t)
  | Either r1 r2 => ways r1 prev t ++ ways r2 prev t
  | Group n r => map (λ w : text * groups, (w.1, (n, w.1) :: w.2)) (ways r prev t)
  | WordEdge => if at_edge prev t then [([], [])] else []
  end.

(** The leftmost match: the text before it, the match, its groups and the text after it. *)
Record found := mkFound { found_before : text; found_match : text; found_groups : groups; found_after : text }.

Fixpoint search (r : regex) (prev : option Z) (t : text) : option found :=
  match ways r prev t with
  | (m, gs) :: _ => Some (mkFound [] m gs (drop (length m) t))
  | [] =>
      match t with
      | [] => None
      | c :: t' =>
          match search r (Some c.1) t' with
          | Some f => Some (mkFound (c :: found_before f) (found_match f) (found_groups f) (found_after f))
          | None => None
          end
      end
  end.

Definition MatchString (r : regex) (s : string) : bool :=
  match search r None (text_of s) with Some _ => true | None => false end.

(** A template: literal text and [$n]. *)
Inductive piece := Literal (s : string) | Dollar (n : nat).
Definition group_text (gs : groups) (n : nat) : text := default [] (snd <$> List.find (λ g : nat * text, g.1 =? n)%nat gs).
Definition expand (template : list piece) (gs : groups) : text :=
  flat_map (λ p, match p with Literal s => text_of s | Dollar n => group_text gs n end) template.

(** Matches are replaced from left to right; after a match the search goes on where it ended. The patterns
    match no empty text, so that there are no more matches than runes. *)
Fixpoint replace_from (fuel : nat) (r : regex) (template : list piece) (prev : option Z) (t : text) : text :=
  match fuel with
  | O => t
  | S fuel' =>
      match search r prev t with
      | None => t
      | Some f =>
          found_before f ++ expand template (found_groups f) ++
          replace_from fuel' r template (last_rune prev (found_before f ++ found_match f)) (found_after f)
      end
  end.
Definition ReplaceAllString (r : regex) (s : string) (template : list piece) : string :=
  let t := text_of s in text_string (replace_from (length t) r template None t).

(** * Writing patterns *)

(** A class of ASCII runes by its ranges, and [(?i)] of it; two letters have a further case outside ASCII. *)
Definition ranges (rs : list (Z * Z)) (r : Z) : bool := existsb (λ lh : Z * Z, (lh.1 <=? r) && (r <=? lh.2)) rs.
Definition any_of (s : string) (r : Z) : bool := existsb (λ c, byte_code c =? r) (String.list_ascii_of_string s).
Definition either (p q : Z → bool) (r : Z) : bool := p r || q r.
Definition none_of (p : Z → bool) (r : Z) : bool := negb (p r).
Definition fold_case (p : Z → bool) (r : Z) : bool :=
  p r || ((65 <=? r) && (r <=? 90) && p (r + 32)) || ((97 <=? r) && (r <=? 122) && p (r - 32)) ||
  ((r =? 8490) && (p 75 || p 107)) || ((r =? 383) && (p 83 || p 115)).
(** [\s] *)
Definition space_rune : Z → bool := either (ranges [(9, 10)]) (any_of (String (byte_of_code 12) (String (byte_of_code 13) " "))).

Definition sequence (rs : list regex) : regex := foldr Then Eps rs.
Fixpoint one_of (rs : list regex) : regex :=
  match rs with [] => Chars (λ _, false) | [r] => r | r :: rs' => Either r (one_of rs') end.
Definition exactly (n : nat) (p : Z → bool) : regex := sequence (repeat (Chars p) n).
Definition optional (r : regex) : regex := Either r Eps.
Definition verbatim (s : string) : regex := sequence (map (λ c, Chars (λ r, r =? byte_code c)) (String.list_ascii_of_string s)).
Definition any_case (s : string) : regex :=
  sequence (map (λ c, Chars (fold_case (λ r, r =? byte_code c))) (String.list_ascii_of_string s)).

(** * The two agree *)

Lemma runs_spec p t m : In m (runs p t) ↔ ∃ after, t = m ++ after ∧ Forall (λ c, p c.1 = true) m.
Proof.
  revert m. induction t as [|c t IH]; intros m; cbn [runs].
  - split; [intros [<-|[]]; by exists [] | intros (after & [-> _]%symmetry%app_nil & _); by left].
  - assert (m = [] → ∃ after, c :: t = m ++ after ∧ Forall (λ c, p c.1 = true) m) as Hnil by (intros ->; by exists (c :: t)).
    destruct (p c.1) eqn:Hc.
    + rewrite in_app_iff, in_map_iff. split.
      * intros [(m' & <- & (after & -> & Hm)%IH)|[<-|[]]]; [exists after | by apply Hnil]. split; [done | by constructor].
      * intros (after & Heq & Hm). destruct m as [|c' m]; [right; by left | left]. injection Heq as <- ->.
        exists m. split; [done|]. apply IH. exists after. split; [done|]. by apply Forall_cons in Hm as [_ Hm].
    + split; [intros [<-|[]]; by apply Hnil|]. intros (after & Heq & Hm). destruct m as [|c' m]; [by left|].
      injection Heq as <- ->. apply Forall_cons in Hm as [Hc' _]. cbn in Hc'. congruence.
Qed.

Definition way (r : regex) prev t m : Prop := ∃ gs, In (m, gs) (ways r prev t).

Lemma way_many lazy min p prev t m :
  way (Many lazy min p) prev t m ↔ ∃ after, t = m ++ after ∧ (min ≤ length m)%nat ∧ Forall (λ c, p c.1 = true) m.
Proof.
  unfold way. cbn [ways]. set (ms := List.filter _ _).
  assert (In m (if lazy then rev ms else ms) ↔ ∃ after, t = m ++ after ∧ (min ≤ length m)%nat ∧ Forall (λ c, p c.1 = true) m) as <-.
  { transitivity (In m ms); [destruct lazy; [by rewrite <- in_rev | done]|]. unfold ms. rewrite filter_In, runs_spec.
    rewrite Nat.leb_le. naive_solver. }
  split; [intros (gs & (m' & [= <- <-] & Hin)%in_map_iff); done|]. intros Hin. exists []. apply in_map_iff. by exists m.
Qed.

Lemma way_then r1 r2 prev t m :
  way (Then r1 r2) prev t m ↔
  ∃ m1 m2, m = m1 ++ m2 ∧ way r1 prev t m1 ∧ way r2 (last_rune prev m1) (drop (length m1) t) m2.
Proof.
  unfold way. cbn [ways]. split.
  - intros (gs & ([m1 g1] & H1 & ([m2 g2] & [= <- <-] & H2)%in_map_iff)%in_flat_map). exists m1, m2. eauto.
  - intros (m1 & m2 & -> & [g1 H1] & g2 & H2). exists (g2 ++ g1). apply in_flat_map. exists (m1, g1). split; [done|].
    apply in_map_iff. by exists (m2, g2).
Qed.

Lemma ways_matches r prev t m : way r prev t m ↔ ∃ after, t = m ++ after ∧ matches r prev m after.
Proof.
  revert prev t m. induction r as [|p|lazy min p|r1 IH1 r2 IH2|r1 IH1 r2 IH2|n r IH|]; intros prev t m; cbn [matches].
  - split; [intros (gs & [[= <- <-]|[]]); by exists t | intros (after & -> & ->); exists []; by left].
  - unfold way. cbn [ways]. split.
    + intros [gs Hin]. destruct t as [|c t]; [done|]. destruct (p c.1) eqn:Hc; [|done]. destruct Hin as [[= <- <-]|[]].
      exists t. split; [done|]. by exists c.
    + intros (after & -> & c & -> & Hc). exists []. cbn. rewrite Hc. by left.
  - by rewrite way_many.
  - rewrite way_then. setoid_rewrite IH1. setoid_rewrite IH2. split.
    + intros (m1 & m2 & -> & (t1 & -> & H1) & after & Ht1 & H2). rewrite drop_app_length in Ht1. subst t1.
      exists after. split; [by rewrite app_assoc|]. by exists m1, m2.
    + intros (after & -> & m1 & m2 & -> & H1 & H2). exists m1, m2. split; [done|]. rewrite <- app_assoc. split; [by eexists|].
      exists after. by rewrite drop_app_length.
  - transitivity (way r1 prev t m ∨ way r2 prev t m).
    + unfold way. cbn [ways]. setoid_rewrite in_app_iff. naive_solver.
    + rewrite IH1, IH2. naive_solver.
  - rewrite <- IH. unfold way. cbn [ways]. setoid_rewrite in_map_iff. split.
    + intros (gs & [m' gs'] & [= -> <-] & Hin). eauto.
    + intros [gs Hin]. exists ((n, m) :: gs), (m, gs). done.
  - unfold way. cbn [ways]. split.
    + intros [gs Hin]. destruct (at_edge prev t) eqn:Hedge; [|done]. destruct Hin as [[= <- <-]|[]]. by exists t.
    + intros (after & -> & -> & Hedge). exists []. cbn. rewrite Hedge. by left.
Qed.

(** There is a match somewhere. *)
Definition occurs (r : regex) (prev : option Z) (t : text) : Prop :=
  ∃ before m after, t = before ++ m ++ after ∧ matches r (last_rune prev before) m after.

Lemma first_way r prev t m gs ws :
  ways r prev t = (m, gs) :: ws → t = m ++ drop (length m) t ∧ matches r prev m (drop (length m) t).
Proof.
  intros Hways. assert (way r prev t m) as (after & -> & Hm)%ways_matches by (exists gs; rewrite Hways; by left).
  by rewrite drop_app_length.
Qed.

Lemma no_way r prev m after : matches r prev m after → ways r prev (m ++ after) ≠ [].
Proof.
  intros Hm Hways. assert (way r prev (m ++ after) m) as [gs Hin] by (apply ways_matches; eauto). by rewrite Hways in Hin.
Qed.

(** The search ends at the first place where the pattern matches. *)
Lemma search_found r prev t f :
  search r prev t = Some f →
  t = found_before f ++ found_match f ++ found_after f ∧
  matches r (last_rune prev (found_before f)) (found_match f) (found_after f) ∧
  ∀ before m after, t = before ++ m ++ after → matches r (last_rune prev before) m after →
    (length (found_before f) ≤ length before)%nat.
Proof.
  revert prev f. induction t as [|c t IH]; intros prev f; cbn [search].
  all: destruct (ways r prev _) as [|[m gs] ws] eqn:Hways;
    [|intros [= <-]; destruct (first_way _ _ _ _ _ _ Hways) as [Ht Hm]; cbn [found_before found_match found_after];
      split_and!; [exact Ht | exact Hm | cbn; lia]].
  - done.
  - destruct (search r (Some c.1) t) as [f'|] eqn:Hs; [|done]. intros [= <-]. destruct (IH _ _ Hs) as (Ht & Hm & Hfirst).
    cbn [found_before found_match found_after length]. split_and!; [by rewrite Ht at 1 | by destruct c |].
    intros before m after Hbefore Hmatch. destruct before as [|c' before].
    + destruct (no_way _ _ _ _ Hmatch). cbn in Hbefore. by rewrite <- Hbefore.
    + injection Hbefore as <- Hbefore. cbn. apply le_n_S. eapply Hfirst; [exact Hbefore | by destruct c].
Qed.

Lemma search_none r prev t : search r prev t = None → ¬ occurs r prev t.
Proof.
  revert prev. induction t as [|c t IH]; intros prev; cbn [search]; destruct (ways r prev _) as [|[m gs] ws] eqn:Hways; try done.
  all: intros Hs (before & m & after & Ht & Hm).
  - symmetry in Ht. apply app_nil in Ht as [-> Ht]. destruct (no_way _ _ _ _ Hm). by rewrite Ht.
  - destruct before as [|c' before].
    + destruct (no_way _ _ _ _ Hm). cbn in Ht. by rewrite <- Ht.
    + injection Ht as <- Ht. destruct (search r (Some c.1) t) eqn:Hs'; [done|]. eapply IH; [exact Hs'|].
      exists before, m, after. split; [exact Ht | by destruct c].
Qed.

Lemma MatchString_spec r s : MatchString r s = true ↔ occurs r None (text_of s).
Proof.
  unfold MatchString. destruct (search r None (text_of s)) as [f|] eqn:Hs.
  - split; [intros _|done]. destruct (search_found _ _ _ _ Hs) as (Ht & Hm & _).
    by exists (found_before f), (found_match f), (found_after f).
  - split; [done|]. intros Ho. by destruct (search_none _ _ _ Hs).
Qed.
