(* ===== verification/Advisor.v ===== *)
(** The AI advisor, [services/api/internal/ai/advisor.go]: which findings it analyses, the bounded and
    redacted projection it sends to the provider, the checks of the provider's answer, and the circuit breaker.

    The provider is an event: it answers a status and the body, or an error. Following redirects is left to the
    HTTP client, which asks [checkRedirect]. Messages that quote Go values are reduced where they are not
    looked at. *)
From S2P Require Import Prelude GoLib GoDuration Json JsonText Runes GoUrl Redaction Interaction Core.

Local Open Scope Z_scope.

Definition autonomousPolicy : string := "AI output is decision support only. KubeAthrix executes only catalog-validated typed actions through dry-run, approval gates, controller reconciliation, verification, and rollback metadata.".
Definition systemPrompt : string := "You are KubeAthrix AI decision support. Return exactly one compact JSON object with only these fields: summary, rootCause, impact, recommendedAction, confidence, safetyNotes, and evidenceSourceIds. recommendedAction must exactly equal one input plan action type or human_review. confidence must be low, medium, or high. When finding evidence is present, cite one or more of its sourceId values in evidenceSourceIds. Do not invent cluster objects, executable actions, commands, or evidence, and do not bypass approvals.".

Definition defaultMaxInputBytes : Z := Z.shiftl 64 10.
Definition defaultMaxOutputTokens : Z := 700.
Definition defaultCircuitBreakerThreshold : Z := 3.
Definition defaultCircuitBreakerCooldown : Duration := 30 * Second.
Definition maxProviderResponseBytes : Z := Z.shiftl 1 20.
Definition maxProjectedEvidence : nat := 10.
Definition maxProjectedResources : nat := 20.
Definition maxProjectedActions : nat := 12.
Definition maxProjectedSteps : Z := 10.

(** * The projection *)

Record projectedEvidence := mkProjectedEvidence {
  pe_Summary : string; pe_Details : string; pe_SourceID : string; pe_ObservedAt : string
}.
#[export] Instance eta_projectedEvidence : Eta projectedEvidence :=
  λ r, mkProjectedEvidence (pe_Summary r) (pe_Details r) (pe_SourceID r) (pe_ObservedAt r).
Record projectedResource := mkProjectedResource {
  pr_APIVersion : string; pr_Kind : string; pr_Namespace : string; pr_Name : string
}.
#[export] Instance eta_projectedResource : Eta projectedResource :=
  λ r, mkProjectedResource (pr_APIVersion r) (pr_Kind r) (pr_Namespace r) (pr_Name r).
Record projectedAction := mkProjectedAction {
  pa_Type : string; pa_Target : option projectedResource; pa_Description : string
}.
#[export] Instance eta_projectedAction : Eta projectedAction :=
  λ r, mkProjectedAction (pa_Type r) (pa_Target r) (pa_Description r).

(** The finding and the plan; the members of [projectedFinding], [projectedPlan] and its approval policy. *)
Record advisorInput := mkAdvisorInput {
  in_ID : string; in_Source : string; in_Title : string; in_Severity : string;
  in_Evidence : list projectedEvidence; in_Resources : list projectedResource; in_BlastRadius : string;
  in_Fixability : string; in_RiskScore : Z; in_RecommendedAction : string;
  in_PlanID : string; in_FindingID : string; in_RootCause : string; in_Actions : list projectedAction;
  in_RiskTier : string; in_Required : bool; in_Categories : list string;
  in_VerificationSteps : list string; in_RollbackSteps : list string
}.
#[export] Instance eta_advisorInput : Eta advisorInput := λ r, mkAdvisorInput (in_ID r) (in_Source r) (in_Title r)
  (in_Severity r) (in_Evidence r) (in_Resources r) (in_BlastRadius r) (in_Fixability r) (in_RiskScore r)
  (in_RecommendedAction r) (in_PlanID r) (in_FindingID r) (in_RootCause r) (in_Actions r) (in_RiskTier r)
  (in_Required r) (in_Categories r) (in_VerificationSteps r) (in_RollbackSteps r).

Definition projectResource (resource : ResourceRef) : projectedResource :=
  mkProjectedResource (sanitize (ref_APIVersion resource) 120) (sanitize (ref_Kind resource) 120)
    (sanitize (ref_Namespace resource) 253) (sanitize (ref_Name resource) 253).

(** The first pieces of evidence that have a source. *)
Fixpoint project_evidence (room : nat) (evidence : list Evidence) : list projectedEvidence :=
  match room, evidence with
  | O, _ | _, [] => []
  | S room', item :: rest =>
      let sourceID := sanitize (evidence_SourceID item) 200 in
      if sourceID == "" then project_evidence room rest
      else mkProjectedEvidence (sanitize (evidence_Summary item) 500) (sanitize (evidence_Details item) 1200) sourceID
             (FormatRFC3339 (evidence_ObservedAt item)) :: project_evidence room' rest
  end.

Definition projectAdvisorInput (finding : Finding) (plan : RemediationPlan) : advisorInput :=
  let policy := plan_ApprovalPolicy plan in
  {| in_ID := sanitize (finding_ID finding) 200;
     in_Source := sanitize (finding_Source finding) 120;
     in_Title := sanitize (finding_Title finding) 500;
     in_Severity := sanitize (finding_Severity finding) 30;
     in_Evidence := project_evidence maxProjectedEvidence (finding_Evidence finding);
     in_Resources := map projectResource (take maxProjectedResources (finding_Resources finding));
     in_BlastRadius := sanitize (finding_BlastRadius finding) 700;
     in_Fixability := sanitize (finding_Fixability finding) 60;
     in_RiskScore := finding_RiskScore finding;
     in_RecommendedAction := sanitize (finding_RecommendedAction finding) 700;
     in_PlanID := sanitize (plan_ID plan) 200;
     in_FindingID := sanitize (plan_FindingID plan) 200;
     in_RootCause := sanitize (plan_RootCause plan) 900;
     in_Actions := map (λ action, mkProjectedAction (sanitize (action_Type action) 160)
                          (Some (projectResource (action_Target action))) (sanitize (action_Description action) 700))
                     (take maxProjectedActions (plan_Actions plan));
     in_RiskTier := sanitize (plan_RiskTier plan) 20;
     in_Required := policy_Required policy;
     in_Categories := boundedSanitizedStrings (policy_Categories policy) maxProjectedSteps 200;
     in_VerificationSteps := boundedSanitizedStrings (plan_VerificationSteps plan) maxProjectedSteps 500;
     in_RollbackSteps := boundedSanitizedStrings (plan_RollbackSteps plan) maxProjectedSteps 500 |}.

(** * Shrinking *)

(** The first element that [f] changes, changed; [None] when there is none. *)
Fixpoint change_first {A} (f : A → option A) (l : list A) : option (list A) :=
  match l with
  | [] => None
  | a :: rest => match f a with Some a' => Some (a' :: rest) | None => cons a <$> change_first f rest end
  end.
(** [l[:n-1]] of a list longer than [keep]. *)
Definition drop_last {A} (keep : nat) (l : list A) : option (list A) :=
  if (keep <? length l)%nat then Some (take (length l - 1) l) else None.
Definition cleared (s : string) : option string := if s != "" then Some "" else None.
Definition halved (limit : Z) (s : string) : option string :=
  if limit <? rune_count s then Some (boundedString s (rune_count s / 2)) else None.

(** The first of the attempts that does something. *)
Definition first_of (attempts : list (option advisorInput)) : option advisorInput :=
  foldr (λ attempt rest, match attempt with Some input => Some input | None => rest end) None attempts.

(** [shrinkProjectedInput]: the input with one thing less, or [None] when nothing is left to leave out. *)
Definition shrinkProjectedInput (i : advisorInput) : option advisorInput :=
  first_of [
    (λ l, i <| in_RollbackSteps := l |>) <$> drop_last 0 (in_RollbackSteps i);
    (λ l, i <| in_VerificationSteps := l |>) <$> drop_last 0 (in_VerificationSteps i);
    (λ l, i <| in_Categories := l |>) <$> drop_last 0 (in_Categories i);
    (λ l, i <| in_Evidence := l |>) <$> change_first (λ e, (λ s, e <| pe_Details := s |>) <$> cleared (pe_Details e)) (in_Evidence i);
    (λ l, i <| in_Actions := l |>) <$> change_first (λ a, (λ s, a <| pa_Description := s |>) <$> cleared (pa_Description a)) (in_Actions i);
    (λ l, i <| in_Resources := l |>) <$> drop_last 8 (in_Resources i);
    (λ l, i <| in_Evidence := l |>) <$> drop_last 4 (in_Evidence i);
    (λ l, i <| in_Actions := l |>) <$> drop_last 8 (in_Actions i);
    (λ s, i <| in_Title := s |>) <$> halved 160 (in_Title i);
    (λ s, i <| in_BlastRadius := s |>) <$> halved 160 (in_BlastRadius i);
    (λ s, i <| in_RecommendedAction := s |>) <$> halved 160 (in_RecommendedAction i);
    (λ s, i <| in_RootCause := s |>) <$> halved 160 (in_RootCause i);
    (λ s, i <| in_RecommendedAction := s |>) <$> cleared (in_RecommendedAction i);
    (λ s, i <| in_BlastRadius := s |>) <$> cleared (in_BlastRadius i);
    (λ s, i <| in_RootCause := s |>) <$> cleared (in_RootCause i);
    (λ l, i <| in_Evidence := l |>) <$> change_first (λ e, (λ s, e <| pe_Summary := s |>) <$> cleared (pe_Summary e)) (in_Evidence i);
    (λ l, i <| in_Resources := l |>) <$> change_first (λ r, (λ s, r <| pr_APIVersion := s |>) <$> cleared (pr_APIVersion r)) (in_Resources i);
    (λ l, i <| in_Actions := l |>) <$>
      change_first (λ a, t ← pa_Target a; s ← cleared (pr_APIVersion t); Some (a <| pa_Target := Some (t <| pr_APIVersion := s |>) |>)) (in_Actions i);
    (λ l, i <| in_Resources := l |>) <$> drop_last 0 (in_Resources i);
    (λ l, i <| in_Evidence := l |>) <$> drop_last 0 (in_Evidence i);
    (λ l, i <| in_Actions := l |>) <$>
      change_first (λ a, match pa_Target a with Some _ => Some (a <| pa_Target := None |>) | None => None end) (in_Actions i);
    (λ l, i <| in_Actions := l |>) <$> drop_last 1 (in_Actions i);
    (λ s, i <| in_ID := s |>) <$> halved 32 (in_ID i);
    (λ s, i <| in_Source := s |>) <$> halved 32 (in_Source i);
    (λ s, i <| in_Title := s |>) <$> halved 32 (in_Title i);
    (λ s, i <| in_PlanID := s |>) <$> halved 32 (in_PlanID i);
    (λ s, i <| in_FindingID := s |>) <$> halved 32 (in_FindingID i);
    (λ s, i <| in_Title := s |>) <$> cleared (in_Title i);
    (λ s, i <| in_Source := s |>) <$> cleared (in_Source i);
    (λ s, i <| in_ID := s |>) <$> cleared (in_ID i);
    (λ s, i <| in_FindingID := s |>) <$> cleared (in_FindingID i);
    (λ s, i <| in_PlanID := s |>) <$> cleared (in_PlanID i);
    (λ s, i <| in_Severity := s |>) <$> cleared (in_Severity i);
    (λ s, i <| in_Fixability := s |>) <$> cleared (in_Fixability i);
    (λ s, i <| in_RiskTier := s |>) <$> cleared (in_RiskTier i);
    match in_Actions i with [] => None | _ => Some (i <| in_Actions := [] |>) end
  ].

(** * The request *)

Definition json_bool (b : bool) : string := if b then "true" else "false".
Definition resource_members (r : projectedResource) : string :=
  object_of [optional_member "apiVersion" (pr_APIVersion r); optional_member "kind" (pr_Kind r);
    optional_member "namespace" (pr_Namespace r); optional_member "name" (pr_Name r)].
Definition evidence_members (e : projectedEvidence) : string :=
  object_of [optional_member "summary" (pe_Summary e); optional_member "details" (pe_Details e);
    member "sourceId" (marshal_string (pe_SourceID e)); optional_member "observedAt" (pe_ObservedAt e)].
Definition action_members (a : projectedAction) : string :=
  object_of [member "type" (marshal_string (pa_Type a));
    match pa_Target a with Some t => member "target" (resource_members t) | None => [] end;
    optional_member "description" (pa_Description a)].

(** [json.Marshal] of the projection. *)
Definition prompt_of (i : advisorInput) : string :=
  object_of [
    member "finding" (object_of [optional_member "id" (in_ID i); optional_member "source" (in_Source i);
      optional_member "title" (in_Title i); optional_member "severity" (in_Severity i);
      optional_list "evidence" (map evidence_members (in_Evidence i));
      optional_list "resources" (map resource_members (in_Resources i));
      optional_member "blastRadius" (in_BlastRadius i); optional_member "fixability" (in_Fixability i);
      (if in_RiskScore i =? 0 then [] else member "riskScore" (Itoa (in_RiskScore i)));
      optional_member "recommendedAction" (in_RecommendedAction i)]);
    member "plan" (object_of [optional_member "id" (in_PlanID i); optional_member "findingId" (in_FindingID i);
      optional_member "rootCause" (in_RootCause i); optional_list "actions" (map action_members (in_Actions i));
      optional_member "riskTier" (in_RiskTier i);
      member "approvalPolicy" (object_of [member "required" (json_bool (in_Required i));
        optional_list "categories" (map marshal_string (in_Categories i))]);
      optional_list "verificationSteps" (map marshal_string (in_VerificationSteps i));
      optional_list "rollbackSteps" (map marshal_string (in_RollbackSteps i))])].

Definition chat_message (role content : string) : string :=
  object_of [member "role" (marshal_string role); member "content" (marshal_string content)].

Section Advisor.

(** The configured advisor, without its circuit breaker. *)
Record OpenAICompatibleAdvisor := mkAdvisor {
  advisor_provider : string;
  advisor_endpoint : string;
  advisor_model : string;
  advisor_apiKey : string;
  advisor_timeout : Duration;
  advisor_allowInsecureHTTP : bool;
  advisor_endpointAllowlist : gset string;
  advisor_excludedSources : gset string;
  advisor_excludedNamespaces : gset string;
  advisor_maxInputBytes : Z;
  advisor_maxOutputTokens : Z;
  advisor_circuitThreshold : Z;
  advisor_circuitCooldown : Duration
}.
Variable a : OpenAICompatibleAdvisor.

Definition completion_request (i : advisorInput) : string :=
  object_of [member "model" (marshal_string (advisor_model a));
    member "messages" (array_of [chat_message "system" systemPrompt; chat_message "user" (prompt_of i)]);
    member "temperature" "0.1";
    member "max_tokens" (Itoa (advisor_maxOutputTokens a));
    member "response_format" (object_of [member "type" (marshal_string "json_object")])].

Definition too_large : GoError :=
  Errorf ("projected AI input cannot fit within " +:+ Itoa (advisor_maxInputBytes a) +:+ " bytes").

(** The attempts of the loop, one after the other. *)
Fixpoint fit_request (attempts : nat) (projected : advisorInput) : result (string * advisorInput) :=
  match attempts with
  | O => Err too_large
  | S attempts' =>
      let requestBody := completion_request projected in
      if len requestBody <=? advisor_maxInputBytes a then Ok (requestBody, projected)
      else match shrinkProjectedInput projected with
           | Some smaller => fit_request attempts' smaller
           | None => Err too_large
           end
  end.

Definition projectedEvidenceSourceIDs (i : advisorInput) : gset string :=
  list_to_set (List.filter (λ s, s != "") (map (λ e, TrimSpace (pe_SourceID e)) (in_Evidence i))).
Definition allowed_actions (plan : RemediationPlan) : gset string :=
  list_to_set (List.filter (λ s, s != "") (map (λ action, TrimSpace (action_Type action)) (plan_Actions plan))).

Definition buildRequestBody (finding : Finding) (plan : RemediationPlan) : result (string * gset string * gset string) :=
  '(requestBody, projected) ← fit_request 256 (projectAdvisorInput finding plan);
  Ok (requestBody, projectedEvidenceSourceIDs projected, allowed_actions plan).

(** * Exclusions *)

Definition normalizeExactMatch (value : string) : string := ToLower (TrimSpace value).

Definition checkNamespace (namespace : string) : result unit :=
  let namespace := TrimSpace namespace in
  unless ((namespace == "") || negb (bool_decide (normalizeExactMatch namespace ∈ advisor_excludedNamespaces a)))
    ("namespace " +:+ Quote namespace +:+ " is excluded from AI processing").
Fixpoint check_all {A} (check : A → result unit) (l : list A) : result unit :=
  match l with [] => Ok tt | x :: rest => check x;; check_all check rest end.

Definition checkExclusions (finding : Finding) (plan : RemediationPlan) : result unit :=
  unless (negb (bool_decide (normalizeExactMatch (finding_Source finding) ∈ advisor_excludedSources a)))
    ("finding source " +:+ Quote (finding_Source finding) +:+ " is excluded from AI processing");;
  checkNamespace (keys_Namespace (finding_CorrelationKeys finding));;
  check_all (λ resource, checkNamespace (ref_Namespace resource)) (finding_Resources finding);;
  check_all (λ action, checkNamespace (ref_Namespace (action_Target action))) (plan_Actions plan).
End Advisor.
