(* ===== verification/AdvisorBounds.v ===== *)
(** How far the input of the AI advisor is shrunk: every attempt leaves something out, so the attempts of
    [buildRequestBody] are enough to try every size, down to an input without anything. *)
From S2P Require Import Prelude GoLib Json Runes Redaction Core Advisor.

Local Open Scope Z_scope.

(** * Bounded texts *)

Lemma boundedString_bound s n : 0 < n → rune_count (boundedString s n) ≤ n.
Proof.
  intros Hn. unfold boundedString. cbv zeta. destruct ((n <=? 0) || _) eqn:Hc.
  - apply orb_true_iff in Hc as [Hc|Hc]; apply Z.leb_le in Hc; lia.
  - etrans; [apply rune_count_TrimSpace|]. unfold rune_count.
    rewrite runes_string_of_runes by apply Forall_take, runes_encodable. rewrite length_take. lia.
Qed.
Lemma sanitize_bound s n : 0 < n → rune_count (sanitize s n) ≤ n.
Proof. apply boundedString_bound. Qed.

Lemma Forall_bounded_strings l limit n : 0 < n → Forall (λ s, rune_count s ≤ n) (boundedSanitizedStrings l limit n).
Proof.
  intros Hn. apply List.Forall_forall. intros s [Hs _]%filter_In. apply in_map_iff in Hs as (v & <- & _). by apply sanitize_bound.
Qed.
Lemma length_filter_le {A} (p : A → bool) l : (length (List.filter p l) ≤ length l)%nat.
Proof. induction l as [|x l IH]; cbn; [lia|]. destruct (p x); cbn; lia. Qed.
Lemma boundedSanitizedStrings_length l limit n : (length (boundedSanitizedStrings l limit n) ≤ Z.to_nat limit)%nat.
Proof. unfold boundedSanitizedStrings. etrans; [apply length_filter_le|]. rewrite length_map, length_take. lia. Qed.

(** * The weight of an input *)

(** One for a text that is there, one for each halving it has left. *)
Definition string_weight (s : string) : nat :=
  if s == "" then 0 else S (Z.to_nat (Z.log2 (2 * ((rune_count s - 1) / 32)))).
Definition present (s : string) : nat := if s == "" then 0 else 1.

Definition evidence_weight (e : projectedEvidence) : nat := 1 + present (pe_Summary e) + present (pe_Details e).
Definition resource_weight (r : projectedResource) : nat := 1 + present (pr_APIVersion r).
Definition action_weight (a : projectedAction) : nat :=
  1 + present (pa_Description a) + match pa_Target a with Some t => resource_weight t | None => 0 end.

Definition weight (i : advisorInput) : nat :=
  length (in_RollbackSteps i) + length (in_VerificationSteps i) + length (in_Categories i) +
  sum_list_with evidence_weight (in_Evidence i) + sum_list_with action_weight (in_Actions i) +
  sum_list_with resource_weight (in_Resources i) +
  sum_list_with string_weight [in_Title i; in_BlastRadius i; in_RecommendedAction i; in_RootCause i; in_ID i; in_Source i;
    in_PlanID i; in_FindingID i; in_Severity i; in_Fixability i; in_RiskTier i].

Section Lists.
Context {A : Type} (w : A → nat).

Lemma sum_drop_last keep l l' : (∀ x, 0 < w x)%nat → drop_last keep l = Some l' → (sum_list_with w l' < sum_list_with w l)%nat.
Proof.
  intros Hw. unfold drop_last. destruct (keep <? length l)%nat eqn:Hk; [|done]. apply Nat.ltb_lt in Hk. intros [= <-].
  assert (sum_list_with w l = sum_list_with w (take (length l - 1) l) + sum_list_with w (drop (length l - 1) l))%nat as ->.
  { by rewrite <- sum_list_with_app, take_drop. }
  destruct (drop (length l - 1) l) as [|x r] eqn:Hd; cbn; [|specialize (Hw x); lia].
  apply (f_equal length) in Hd. rewrite length_drop in Hd. cbn in Hd. lia.
Qed.
Lemma length_drop_last keep (l l' : list A) : drop_last keep l = Some l' → (length l' < length l)%nat.
Proof.
  unfold drop_last. destruct (keep <? length l)%nat eqn:Hk; [|done]. apply Nat.ltb_lt in Hk. intros [= <-]. rewrite length_take. lia.
Qed.
Lemma sum_change_first f l l' :
  (∀ x x', f x = Some x' → (w x' < w x)%nat) → change_first f l = Some l' → (sum_list_with w l' < sum_list_with w l)%nat.
Proof.
  intros Hf. revert l'. induction l as [|x l IH]; intros l'; cbn [change_first]; [done|]. destruct (f x) eqn:Hx.
  - intros [= <-]. cbn. apply Hf in Hx. lia.
  - intros (r & Hr & ->)%fmap_Some. cbn. specialize (IH _ Hr). lia.
Qed.
Lemma sum_bound n l : (∀ x, x ∈ l → w x ≤ n)%nat → (sum_list_with w l ≤ n * length l)%nat.
Proof.
  induction l as [|x l IH]; intros Hl; cbn; [lia|]. pose proof (Hl x ltac:(left)).
  assert (sum_list_with w l ≤ n * length l)%nat by (apply IH; intros; apply Hl; by right). lia.
Qed.
End Lists.

Lemma present_cleared s t : cleared s = Some t → (present t < present s)%nat.
Proof. unfold cleared, present. destruct (String.eqb_spec s ""); [done|]. intros [= <-]. cbn. lia. Qed.
Lemma weight_cleared s t : cleared s = Some t → (string_weight t < string_weight s)%nat.
Proof. unfold cleared, string_weight. destruct (String.eqb_spec s ""); [done|]. intros [= <-]. cbn [String.eqb]. lia. Qed.

Lemma string_weight_count s n : rune_count s ≤ n → (string_weight s ≤ S (Z.to_nat (Z.log2 (2 * ((n - 1) / 32)))))%nat.
Proof.
  intros Hn. unfold string_weight. destruct (s == ""); [lia|]. apply le_n_S, Z2Nat.inj_le; [apply Z.log2_nonneg..|].
  apply Z.log2_le_mono, Z.mul_le_mono_nonneg_l; [lia|]. apply Z.div_le_mono; lia.
Qed.
Lemma weight_halved limit s t : 32 ≤ limit → halved limit s = Some t → (string_weight t < string_weight s)%nat.
Proof.
  intros Hl. unfold halved. destruct (Z.ltb_spec limit (rune_count s)) as [Hs|]; [|done]. intros [= <-].
  pose proof (boundedString_bound s (rune_count s / 2) ltac:(apply Z.div_str_pos; lia)) as Hb. apply string_weight_count in Hb.
  unfold string_weight at 2. destruct (String.eqb_spec s "") as [->|_]; [change (rune_count "") with 0 in Hs; lia|].
  set (n := rune_count s) in *. set (q := (n - 1) / 32). assert (1 ≤ q) by (apply Z.div_le_lower_bound; lia).
  assert ((n / 2 - 1) / 32 ≤ q / 2) as Hq.
  { unfold q. rewrite Z.div_div by lia. apply Z.div_le_lower_bound; [lia|]. pose proof (Z.mul_div_le (n / 2 - 1) 32 ltac:(lia)). pose proof (Z.mul_div_le n 2 ltac:(lia)). lia. }
  eapply Nat.le_lt_trans; [exact Hb|]. apply le_n_S. rewrite <- Z2Nat.inj_succ by apply Z.log2_nonneg.
  apply Z2Nat.inj_le; [pose proof (Z.log2_nonneg (2 * ((n / 2 - 1) / 32))); lia | apply Z.log2_nonneg |].
  rewrite (Z.log2_double q) by lia. apply -> Z.succ_le_mono. apply Z.log2_le_mono. pose proof (Z.mul_div_le q 2 ltac:(lia)). lia.
Qed.

(** * Shrinking makes progress *)

Lemma first_of_Some attempts j : first_of attempts = Some j → Some j ∈ attempts.
Proof.
  induction attempts as [|attempt rest IH]; cbn; [done|]. destruct attempt as [i|]; [intros [= ->]; left | intros Hr; right; auto].
Qed.

Lemma evidence_details e e' : ((λ s, e <| pe_Details := s |>) <$> cleared (pe_Details e)) = Some e' →
  (evidence_weight e' < evidence_weight e)%nat.
Proof. intros (t & Ht%present_cleared & ->)%fmap_Some. unfold evidence_weight. cbn. lia. Qed.
Lemma evidence_summary e e' : ((λ s, e <| pe_Summary := s |>) <$> cleared (pe_Summary e)) = Some e' →
  (evidence_weight e' < evidence_weight e)%nat.
Proof. intros (t & Ht%present_cleared & ->)%fmap_Some. unfold evidence_weight. cbn. lia. Qed.
Lemma resource_version r r' : ((λ s, r <| pr_APIVersion := s |>) <$> cleared (pr_APIVersion r)) = Some r' →
  (resource_weight r' < resource_weight r)%nat.
Proof. intros (t & Ht%present_cleared & ->)%fmap_Some. unfold resource_weight. cbn. lia. Qed.
Lemma action_description a a' : ((λ s, a <| pa_Description := s |>) <$> cleared (pa_Description a)) = Some a' →
  (action_weight a' < action_weight a)%nat.
Proof. intros (t & Ht%present_cleared & ->)%fmap_Some. unfold action_weight. cbn. lia. Qed.
Lemma action_version a a' :
  (t ← pa_Target a; s ← cleared (pr_APIVersion t); Some (a <| pa_Target := Some (t <| pr_APIVersion := s |>) |>)) = Some a' →
  (action_weight a' < action_weight a)%nat.
Proof.
  intros (t & Ha & (s & Hs%present_cleared & [= <-])%bind_Some)%bind_Some. unfold action_weight. rewrite Ha.
  unfold resource_weight. cbn. lia.
Qed.
Lemma action_target a a' : match pa_Target a with Some _ => Some (a <| pa_Target := None |>) | None => None end = Some a' →
  (action_weight a' < action_weight a)%nat.
Proof. destruct (pa_Target a) eqn:Ha; [|done]. intros [= <-]. unfold action_weight, resource_weight. rewrite Ha. cbn. lia. Qed.

Lemma evidence_positive e : (0 < evidence_weight e)%nat.
Proof. unfold evidence_weight. lia. Qed.
Lemma resource_positive r : (0 < resource_weight r)%nat.
Proof. unfold resource_weight. lia. Qed.
Lemma action_positive a : (0 < action_weight a)%nat.
Proof. unfold action_weight. lia. Qed.

Lemma shrink_weight i j : shrinkProjectedInput i = Some j → (weight j < weight i)%nat.
Proof.
  intros Hj%first_of_Some. rewrite !elem_of_cons, elem_of_nil in Hj.
  repeat match type of Hj with _ ∨ _ => destruct Hj as [Hj|Hj] | False => done end.
  all: try (symmetry in Hj; apply fmap_Some in Hj as (x & Hx & ->)).
  all: try match type of Hx with
    | drop_last _ _ = Some _ =>
        first [apply (sum_drop_last _ _ _ _ evidence_positive) in Hx | apply (sum_drop_last _ _ _ _ resource_positive) in Hx
              | apply (sum_drop_last _ _ _ _ action_positive) in Hx | apply length_drop_last in Hx]
    | cleared _ = Some _ => apply weight_cleared in Hx
    | halved _ _ = Some _ => apply weight_halved in Hx; [|lia]
    | change_first _ _ = Some _ =>
        first [apply (sum_change_first evidence_weight) in Hx; [|intros ??; apply evidence_details || apply evidence_summary]
              | apply (sum_change_first resource_weight) in Hx; [|intros ??; apply resource_version]
              | apply (sum_change_first action_weight) in Hx;
                [|intros ??; first [apply action_description | apply action_version | apply action_target]]]
    end.
  all: try (unfold weight; cbn -[string_weight]; lia).
  destruct (in_Actions i) eqn:Ha; [done|]. injection Hj as ->. unfold weight. rewrite Ha. cbn -[string_weight]. lia.
Qed.

(** * The projection is small *)

Lemma length_project_evidence room l : (length (project_evidence room l) ≤ room)%nat.
Proof.
  revert room. induction l as [|e l IH]; intros [|room]; cbn -[sanitize String.eqb]; [lia..|].
  destruct (sanitize _ _ == ""); [apply IH|]. cbn [length]. specialize (IH room). lia.
Qed.

Lemma weight_sanitized s n k :
  0 < n → S (Z.to_nat (Z.log2 (2 * ((n - 1) / 32)))) = k → (string_weight (sanitize s n) ≤ k)%nat.
Proof. intros Hn <-. by apply string_weight_count, sanitize_bound. Qed.

Lemma present_one s : (present s ≤ 1)%nat.
Proof. unfold present. destruct (s == ""); lia. Qed.
Lemma weights_bounded e r a : (evidence_weight e ≤ 3 ∧ resource_weight r ≤ 2 ∧ action_weight a ≤ 4)%nat.
Proof.
  unfold evidence_weight, action_weight, resource_weight.
  pose proof (present_one (pe_Summary e)). pose proof (present_one (pe_Details e)). pose proof (present_one (pr_APIVersion r)).
  pose proof (present_one (pa_Description a)). destruct (pa_Target a) as [t|]; [pose proof (present_one (pr_APIVersion t))|]; lia.
Qed.

Lemma sum_limited {A B} (w : B → nat) (f : A → B) n limit l :
  (∀ x, w x ≤ n)%nat → (sum_list_with w (map f (take limit l)) ≤ n * limit)%nat.
Proof.
  intros Hw. etrans; [apply (sum_bound w n); auto|]. rewrite length_map, length_take. apply Nat.mul_le_mono_l. lia.
Qed.
Lemma evidence_limited l : (sum_list_with evidence_weight (project_evidence maxProjectedEvidence l) ≤ 30)%nat.
Proof.
  etrans; [apply (sum_bound evidence_weight 3)|].
  - intros e _. apply (weights_bounded e (mkProjectedResource "" "" "" "") (mkProjectedAction "" None "")).
  - pose proof (length_project_evidence maxProjectedEvidence l). unfold maxProjectedEvidence in *. lia.
Qed.

(** At most this many steps are left before nothing can be left out any more. *)
Lemma projection_weight finding plan : (weight (projectAdvisorInput finding plan) ≤ 190)%nat.
Proof.
  unfold weight, projectAdvisorInput. cbn -[string_weight sanitize boundedSanitizedStrings project_evidence take maxProjectedSteps].
  pose proof (boundedSanitizedStrings_length (plan_RollbackSteps plan) maxProjectedSteps 500) as H1.
  pose proof (boundedSanitizedStrings_length (plan_VerificationSteps plan) maxProjectedSteps 500) as H2.
  pose proof (boundedSanitizedStrings_length (policy_Categories (plan_ApprovalPolicy plan)) maxProjectedSteps 200) as H3.
  change (Z.to_nat maxProjectedSteps) with 10%nat in *.
  pose proof (evidence_limited (finding_Evidence finding)) as H4.
  match goal with |- context [sum_list_with action_weight (map ?f (take ?n ?l))] =>
    pose proof (sum_limited action_weight f 4 n l (λ x, proj2 (proj2 (weights_bounded (mkProjectedEvidence "" "" "" "") (mkProjectedResource "" "" "" "") x)))) as H5 end.
  pose proof (sum_limited resource_weight projectResource 2 maxProjectedResources (finding_Resources finding)
    (λ x, proj1 (proj2 (weights_bounded (mkProjectedEvidence "" "" "" "") x (mkProjectedAction "" None ""))))) as H6.
  unfold maxProjectedActions, maxProjectedResources in *.
  repeat match goal with |- context [string_weight (sanitize ?s ?n)] =>
    pose proof (weight_sanitized s n _ ltac:(reflexivity) eq_refl); generalize dependent (string_weight (sanitize s n)); intros end.
  repeat match goal with H : context [Z.log2 ?x] |- _ => let v := eval vm_compute in (Z.log2 x) in change (Z.log2 x) with v in H end.
  lia.
Qed.

(** * The request that is sent *)

Definition shrinks (i j : advisorInput) : Prop := shrinkProjectedInput i = Some j.

Section Request.
Variable a : OpenAICompatibleAdvisor.
Definition fits (i : advisorInput) : Prop := len (completion_request a i) ≤ advisor_maxInputBytes a.

Lemma fit_request_spec attempts i : (weight i < attempts)%nat →
  match fit_request a attempts i with
  | Ok (body, j) => rtc shrinks i j ∧ body = completion_request a j ∧ fits j ∧ ∀ k, rtc shrinks i k → tc shrinks k j → ¬ fits k
  | Err _ => ∀ j, rtc shrinks i j → ¬ fits j
  end.
Proof.
  revert i. induction attempts as [|n IH]; intros i Hi; [lia|]. cbn [fit_request].
  destruct (Z.leb_spec (len (completion_request a i)) (advisor_maxInputBytes a)) as [Hf|Hf].
  { split_and!; [done | done | done |]. intros k Hk Hki. exfalso.
    assert (∀ x y, tc shrinks x y → (weight y < weight x)%nat) as Ht.
    { induction 1 as [x y H|x y z H _ IHt]; apply shrink_weight in H; lia. }
    apply Ht in Hki. assert (∀ x y, rtc shrinks x y → (weight y ≤ weight x)%nat) as Hr.
    { induction 1 as [|x y z H _ IHr]; [lia|]. apply shrink_weight in H. lia. }
    apply Hr in Hk. lia. }
  assert (¬ fits i) as Hn by (unfold fits; lia). destruct (shrinkProjectedInput i) as [j|] eqn:Hj.
  - pose proof (shrink_weight _ _ Hj). specialize (IH j ltac:(lia)). destruct (fit_request a n j) as [[body k]|e].
    + destruct IH as (Hr & -> & Hk & Hf'). split_and!; [by eapply rtc_l | done | done |].
      intros x Hx Hxk. inversion Hx as [|? y ? Hy Hyx]; simplify_eq; [done|].
      unfold shrinks in Hy. rewrite Hj in Hy. injection Hy as <-. by apply Hf'.
    + intros k Hk. inversion Hk as [|? y ? Hy Hyk]; simplify_eq; [done|].
      unfold shrinks in Hy. rewrite Hj in Hy. injection Hy as <-. by apply IH.
  - intros k Hk. inversion Hk as [|? y ? Hy Hyk]; simplify_eq; [done|]. unfold shrinks in Hy. by rewrite Hj in Hy.
Qed.

Lemma fit_projection finding plan :
  let i := projectAdvisorInput finding plan in
  match fit_request a 256 i with
  | Ok (body, j) => rtc shrinks i j ∧ body = completion_request a j ∧ fits j ∧ ∀ k, rtc shrinks i k → tc shrinks k j → ¬ fits k
  | Err _ => ∀ j, rtc shrinks i j → ¬ fits j
  end.
Proof. apply fit_request_spec. pose proof (projection_weight finding plan). lia. Qed.
Lemma buildRequestBody_bound finding plan :
  match buildRequestBody a finding plan with Ok (body, _, _) => len body ≤ advisor_maxInputBytes a | Err _ => True end.
Proof.
  unfold buildRequestBody. pose proof (fit_projection finding plan) as Hs. cbv zeta in Hs.
  destruct (fit_request a 256 (projectAdvisorInput finding plan)) as [[body j]|e]; cbn; [|done].
  by destruct Hs as (_ & -> & Hf & _).
Qed.

(** C30. The body sent to the provider is that of the first of the ever smaller inputs that fits the configured
    size, with its evidence and the plan's actions as what may be cited and recommended; and the attempts are
    enough: there is an error only when none of the smaller inputs fits. *)
Theorem buildRequestBody_spec finding plan :
  match buildRequestBody a finding plan with
  | Ok (body, sources, actions) =>
      ∃ j, rtc shrinks (projectAdvisorInput finding plan) j ∧ body = completion_request a j ∧
        len body ≤ advisor_maxInputBytes a ∧ sources = projectedEvidenceSourceIDs j ∧ actions = allowed_actions plan ∧
        ∀ k, rtc shrinks (projectAdvisorInput finding plan) k → tc shrinks k j → ¬ fits k
  | Err _ => ∀ j, rtc shrinks (projectAdvisorInput finding plan) j → ¬ fits j
  end.
Proof.
  unfold buildRequestBody. pose proof (fit_projection finding plan) as Hs. cbv zeta in Hs.
  destruct (fit_request a 256 (projectAdvisorInput finding plan)) as [[body j]|e]; cbn; [|done].
  destruct Hs as (Hr & -> & Hf & Hk). by exists j.
Qed.
End Request.
