(* ===== verification/AdvisorCall.v ===== *)
(** The call of the AI advisor, [services/api/internal/ai/advisor.go]: its configuration, the endpoints it may
    call, the decoding and the checks of the provider's answer, the circuit breaker and [Analyze].

    A list that an object gives twice is decoded afresh. *)
From S2P Require Import Prelude GoLib GoDuration Json JsonText Runes GoUrl Redaction Interaction Core Advisor.

Local Open Scope Z_scope.

(** * Endpoints and configuration *)

Record Config := mkConfig {
  config_Enabled : bool;
  config_Provider : string;
  config_Endpoint : string;
  config_Model : string;
  config_APIKey : string;
  config_Timeout : Duration;
  config_AllowInsecureHTTP : bool;
  config_EndpointHostAllowlist : list string;
  config_ExcludedSources : list string;
  config_ExcludedNamespaces : list string;
  config_MaxInputBytes : Z;
  config_MaxOutputTokens : Z;
  config_CircuitBreakerThreshold : Z;
  config_CircuitBreakerCooldown : Duration
}.

Fixpoint exactMatchSet_loop (values : list string) (rejectWildcard : bool) (found : gset string) : result (gset string) :=
  match values with
  | [] => Ok found
  | value :: rest =>
      let value := TrimSpace value in
      unless (value != "") "empty values are not allowed";;
      unless (negb (rejectWildcard && Contains value "*")) ("wildcard value " +:+ Quote value +:+ " is not allowed");;
      exactMatchSet_loop rest rejectWildcard ({[normalizeExactMatch (Trim value "[]")]} ∪ found)
  end.
Definition exactMatchSet (values : list string) (rejectWildcard : bool) : result (gset string) :=
  exactMatchSet_loop values rejectWildcard ∅.

Definition validateEndpoint (rawEndpoint : string) (allowInsecureHTTP : bool) (allowlist : gset string) : result string :=
  parsed ← with_context "invalid ai endpoint" (ParseURL rawEndpoint);
  unless (IsAbs parsed && (url_Host parsed != "") && (Hostname parsed != "")) "ai endpoint must be an absolute URL with a host";;
  unless (match url_User parsed with None => true | Some _ => false end) "ai endpoint must not contain userinfo";;
  unless (url_Fragment parsed == "") "ai endpoint must not contain a fragment";;
  let scheme := ToLower (url_Scheme parsed) in
  unless ((scheme == "https") || ((scheme == "http") && allowInsecureHTTP)) "ai endpoint must use HTTPS";;
  unless (bool_decide (allowlist = ∅) || bool_decide (normalizeExactMatch (Hostname parsed) ∈ allowlist))
    ("ai endpoint hostname " +:+ Quote (Hostname parsed) +:+ " is not allowlisted");;
  Ok (URLString parsed).

(** What the HTTP client asks before it follows a redirect to [target] after [via] requests;
    [original] is the policy of the client that was configured. *)
Definition checkRedirect (a : OpenAICompatibleAdvisor) (original : option (string → Z → result unit)) (target : string)
    (via : Z) : result unit :=
  with_context "ai provider redirect rejected"
    (validateEndpoint target (advisor_allowInsecureHTTP a) (advisor_endpointAllowlist a));;
  match original with
  | Some policy => policy target via
  | None => unless (via <? 10) "stopped after 10 redirects"
  end.

Definition or_default (value default : Z) : Z := if value <=? 0 then default else value.
Definition or_text (value default : string) : string := let value := TrimSpace value in if value == "" then default else value.

Definition default_endpoint : string := "https://api.openai.com/v1/chat/completions".

(** The hosts that may be called: those configured, else the host of the endpoint. *)
Definition endpoint_hosts (config : Config) (endpoint : string) : result (gset string) :=
  hosts ← with_context "invalid ai endpoint host allowlist" (exactMatchSet (config_EndpointHostAllowlist config) true);
  if bool_decide (hosts = ∅) then
    let no_host := Errorf "ai endpoint must be an absolute URL with a host" in
    match ParseURL endpoint with
    | Ok parsed => if Hostname parsed == "" then Err no_host else Ok {[normalizeExactMatch (Hostname parsed)]}
    | Err _ => Err no_host
    end
  else Ok hosts.

Definition NewOpenAICompatibleAdvisor (config : Config) : result OpenAICompatibleAdvisor :=
  unless (config_Enabled config) "ai advisor is disabled";;
  let endpoint := or_text (config_Endpoint config) default_endpoint in
  let model := TrimSpace (config_Model config) in
  unless (model != "") "ai model is required";;
  let apiKey := TrimSpace (config_APIKey config) in
  unless (apiKey != "") "ai api key is required";;
  endpointAllowlist ← endpoint_hosts config endpoint;
  validatedEndpoint ← validateEndpoint endpoint (config_AllowInsecureHTTP config) endpointAllowlist;
  excludedSources ← with_context "invalid excluded AI source" (exactMatchSet (config_ExcludedSources config) false);
  excludedNamespaces ← with_context "invalid excluded AI namespace" (exactMatchSet (config_ExcludedNamespaces config) false);
  Ok {| advisor_provider := or_text (config_Provider config) "openai-compatible";
        advisor_endpoint := validatedEndpoint;
        advisor_model := model;
        advisor_apiKey := apiKey;
        advisor_timeout := or_default (config_Timeout config) (20 * Second);
        advisor_allowInsecureHTTP := config_AllowInsecureHTTP config;
        advisor_endpointAllowlist := endpointAllowlist;
        advisor_excludedSources := excludedSources;
        advisor_excludedNamespaces := excludedNamespaces;
        advisor_maxInputBytes := or_default (config_MaxInputBytes config) defaultMaxInputBytes;
        advisor_maxOutputTokens := or_default (config_MaxOutputTokens config) defaultMaxOutputTokens;
        advisor_circuitThreshold := or_default (config_CircuitBreakerThreshold config) defaultCircuitBreakerThreshold;
        advisor_circuitCooldown := or_default (config_CircuitBreakerCooldown config) defaultCircuitBreakerCooldown |}.

(** * The provider's answer *)

Record aiProviderOutput := mkOutput {
  out_Summary : string; out_RootCause : string; out_Impact : string; out_RecommendedAction : string;
  out_Confidence : string; out_SafetyNotes : list string; out_EvidenceSourceIDs : list string
}.
#[export] Instance eta_aiProviderOutput : Eta aiProviderOutput := λ r, mkOutput (out_Summary r) (out_RootCause r)
  (out_Impact r) (out_RecommendedAction r) (out_Confidence r) (out_SafetyNotes r) (out_EvidenceSourceIDs r).
Definition zero_output : aiProviderOutput := mkOutput "" "" "" "" "" [] [].

Definition decode_strings (v : json) : result (list string) :=
  match v with JNull => Ok [] | JArray items => decode_all (decode_string "") items | _ => Err json_error end.

Definition set_output (name : string) (v : json) (r : aiProviderOutput) : result aiProviderOutput :=
  if EqualFold name "summary" then s ← decode_string (out_Summary r) v; Ok (r <| out_Summary := s |>)
  else if EqualFold name "rootCause" then s ← decode_string (out_RootCause r) v; Ok (r <| out_RootCause := s |>)
  else if EqualFold name "impact" then s ← decode_string (out_Impact r) v; Ok (r <| out_Impact := s |>)
  else if EqualFold name "recommendedAction" then
    s ← decode_string (out_RecommendedAction r) v; Ok (r <| out_RecommendedAction := s |>)
  else if EqualFold name "confidence" then s ← decode_string (out_Confidence r) v; Ok (r <| out_Confidence := s |>)
  else if EqualFold name "safetyNotes" then l ← decode_strings v; Ok (r <| out_SafetyNotes := l |>)
  else if EqualFold name "evidenceSourceIds" then l ← decode_strings v; Ok (r <| out_EvidenceSourceIDs := l |>)
  else Err json_error.

(** The envelope, unknown fields allowed: the contents of the messages of its choices. *)
Definition set_message (name : string) (v : json) (content : string) : result string :=
  if EqualFold name "content" then decode_string content v
  else if EqualFold name "role" then decode_string "" v;; Ok content
  else Ok content.
Definition set_choice (name : string) (v : json) (content : string) : result string :=
  if EqualFold name "message" then decode_struct set_message content v else Ok content.
Definition set_completion (name : string) (v : json) (choices : list string) : result (list string) :=
  if EqualFold name "choices" then
    match v with
    | JNull => Ok []
    | JArray items => decode_all (decode_struct set_choice "") items
    | _ => Err json_error
    end
  else Ok choices.

(** [decodeSingleJSON] into a struct: exactly one value. *)
Definition decodeSingleJSON {A} (set : string → json → A → result A) (zero : A) (data : string) : result A :=
  v ← parse_json data; decode_struct set zero v.

Definition fence : string := "```".
Definition stripJSONFence (value : string) : string :=
  let trimmed := TrimSpace value in
  if negb (HasPrefix trimmed fence) then trimmed
  else TrimSpace (TrimSuffix (TrimPrefix (TrimPrefix trimmed "```json") fence) fence).

Section Answer.
Context `{RangeOrder}.

Definition required (output : aiProviderOutput) : gmap string string :=
  {["summary" := out_Summary output; "rootCause" := out_RootCause output; "impact" := out_Impact output;
    "recommendedAction" := out_RecommendedAction output; "confidence" := out_Confidence output]}.

(** The cited sources in order, each once; [cited] were cited before. *)
Fixpoint collect_citations (evidenceSourceIDs cited : gset string) (sources : list string) : result (list string) :=
  match sources with
  | [] => Ok []
  | sourceID :: rest =>
      let sourceID := TrimSpace sourceID in
      unless (sourceID != "") "evidenceSourceIds cannot contain an empty value";;
      unless (bool_decide (sourceID ∈ evidenceSourceIDs))
        ("evidence source " +:+ Quote sourceID +:+ " was not present in the input");;
      if bool_decide (sourceID ∈ cited) then collect_citations evidenceSourceIDs cited rest
      else more ← collect_citations evidenceSourceIDs ({[sourceID]} ∪ cited) rest; Ok (sourceID :: more)
  end.

Definition validateProviderOutput (output : aiProviderOutput) (allowedActions evidenceSourceIDs : gset string)
    : result (string * list string) :=
  check_all (λ kv, unless (TrimSpace kv.2 != "") (kv.1 +:+ " is required")) (range (required output));;
  let recommendedAction := TrimSpace (out_RecommendedAction output) in
  unless ((recommendedAction == "human_review") || bool_decide (recommendedAction ∈ allowedActions))
    ("recommendedAction " +:+ Quote recommendedAction +:+ " is not a plan action");;
  let confidence := ToLower (TrimSpace (out_Confidence output)) in
  unless (bool_decide (confidence ∈ ["low"; "medium"; "high"]))
    ("confidence " +:+ Quote (out_Confidence output) +:+ " is not low, medium, or high");;
  citations ← collect_citations evidenceSourceIDs ∅ (out_EvidenceSourceIDs output);
  unless (bool_decide (evidenceSourceIDs = ∅) || bool_decide (citations ≠ []))
    "evidenceSourceIds must cite at least one input evidence source";;
  unless (negb (bool_decide (evidenceSourceIDs = ∅)) || bool_decide (out_EvidenceSourceIDs output = []))
    "evidenceSourceIds were returned without input evidence";;
  Ok (confidence, sort_slice String.ltb citations).

(** What [Analyze] makes of a response: the analysis without its time. *)
Definition read_answer (a : OpenAICompatibleAdvisor) (allowedActions evidenceSourceIDs : gset string) (status : Z)
    (body : string) : result (Time → AIAnalysis) :=
  unless (len body <=? maxProviderResponseBytes) "ai provider response exceeded size limit";;
  unless ((200 <=? status) && (status <=? 299)) ("ai provider returned " +:+ Itoa status);;
  choices ← with_context "ai provider returned invalid completion envelope" (decodeSingleJSON set_completion [] body);
  match choices with
  | [] => Err (Errorf "ai provider returned no choices")
  | first :: _ =>
      let invalid := "ai provider returned invalid structured output" in
      decoded ← with_context invalid (decodeSingleJSON set_output zero_output (TrimSpace (stripJSONFence first)));
      '(confidence, citations) ← with_context invalid (validateProviderOutput decoded allowedActions evidenceSourceIDs);
      let cited := negb (bool_decide (citations = [])) in
      let safetyNotes := boundedSanitizedStrings (out_SafetyNotes decoded) (if cited then 4 else 5) 300 in
      Ok (λ now, {|
        ai_Provider := advisor_provider a;
        ai_Model := advisor_model a;
        ai_Mode := "assistive";
        ai_Summary := sanitize (out_Summary decoded) 700;
        ai_RootCause := sanitize (out_RootCause decoded) 900;
        ai_Impact := sanitize (out_Impact decoded) 900;
        ai_RecommendedAction := TrimSpace (out_RecommendedAction decoded);
        ai_Confidence := confidence;
        ai_SafetyNotes :=
          safetyNotes ++ if cited then [boundedString ("Evidence sources: " +:+ Join citations ", ") 300] else [];
        ai_AutonomousPolicy := autonomousPolicy;
        ai_GeneratedAt := now
      |})
  end.
End Answer.

(** * The circuit breaker *)

Record circuit := mkCircuit { consecutiveFailures : Z; circuitOpenUntil : Time }.
Definition zero_circuit : circuit := mkCircuit 0 0.

Section Circuit.
Variable a : OpenAICompatibleAdvisor.

Definition checkCircuit (now : Time) (c : circuit) : result unit * circuit :=
  if IsZero (circuitOpenUntil c) then (Ok tt, c)
  else if Before now (circuitOpenUntil c) then
    (Err (Errorf ("ai provider circuit breaker is open until " +:+ FormatRFC3339 (circuitOpenUntil c))), c)
  else (Ok tt, zero_circuit).

(** [now] is the clock's reading under the lock, taken when the threshold is reached. *)
Definition recordFailure (now : Time) (c : circuit) : circuit :=
  let failures := wrap64 (consecutiveFailures c + 1) in
  mkCircuit failures
    (if advisor_circuitThreshold a <=? failures then Add now (advisor_circuitCooldown a) else circuitOpenUntil c).

Definition recordSuccess : circuit := zero_circuit.
End Circuit.

(** * Analyze *)

(** The clock, the operations of the circuit breaker, each under its lock, and the request to the provider: the
    status and the body of the response, or an error. [RecordFailure] answers the time it was recorded. *)
Inductive AdvisorE : Type → Type :=
| AdvisorNow : AdvisorE Time
| CheckCircuit (now : Time) : AdvisorE (result unit)
| RecordFailure : AdvisorE Time
| RecordSuccess : AdvisorE unit
| Post (endpoint apiKey body : string) : AdvisorE (result (Z * string)).

Section Analyze.
Context `{RangeOrder}.
Variable a : OpenAICompatibleAdvisor.

Definition provider_call (requestBody : string) (evidenceSourceIDs allowedActions : gset string) : P AdvisorE AIAnalysis :=
  '(status, body) ← call (Post (advisor_endpoint a) (advisor_apiKey a) requestBody);
  analysis ← pure_result (read_answer a allowedActions evidenceSourceIDs status body);
  now ← ask AdvisorNow;
  mret (analysis now).

(** The deferred function records the outcome, whatever it is: nothing panics on the way. *)
Definition Analyze (finding : Finding) (plan : RemediationPlan) : P AdvisorE AIAnalysis :=
  pure_result (checkExclusions a finding plan);;
  '(requestBody, evidenceSourceIDs, allowedActions) ← pure_result (buildRequestBody a finding plan);
  now ← ask AdvisorNow;
  call (CheckCircuit now);;
  pure_result (ParseURL (advisor_endpoint a));;
  answer ← prog_bind (λ r, Ret (Ok r)) (provider_call requestBody evidenceSourceIDs allowedActions);
  match answer with
  | Ok analysis => ask RecordSuccess;; mret analysis
  | Err err => ask RecordFailure;; raise err
  end.

(** How the advisor's shared circuit breaker serves the operations; the clock reads a time after year 1. *)
Definition advisor_handles X (c : circuit) (e : AdvisorE X) : X → circuit → Prop :=
  match e in AdvisorE X return X → circuit → Prop with
  | AdvisorNow => λ now c', 0 < now ∧ c' = c
  | CheckCircuit now => λ answer c', (answer, c') = checkCircuit now c
  | RecordFailure => λ now c', 0 < now ∧ c' = recordFailure a now c
  | RecordSuccess => λ _ c', c' = recordSuccess
  | Post _ _ _ => λ _ c', c' = c
  end.
End Analyze.
