(* ===== verification/AdvisorProps.v ===== *)
(** What the AI advisor promises of its calls: where it sends them, what may be sent, and what an answer that is returned is worth. *)
From S2P Require Import Prelude GoLib Json JsonText Runes GoUrl Redaction Interaction Core Advisor AdvisorBounds AdvisorCall.
Local Open Scope Z_scope.

(** * Where requests go *)

(** An absolute URL without credentials or fragment, over HTTPS unless configured otherwise, to a listed host. *)
Definition acceptable (insecure : bool) (hosts : gset string) (u : URL) : Prop :=
  IsAbs u = true ∧ url_Host u ≠ "" ∧ url_User u = None ∧ url_Fragment u = "" ∧
  (ToLower (url_Scheme u) = "https" ∨ ToLower (url_Scheme u) = "http" ∧ insecure = true) ∧
  (hosts ≠ ∅ → normalizeExactMatch (Hostname u) ∈ hosts).

Lemma validateEndpoint_ok raw insecure hosts text :
  validateEndpoint raw insecure hosts = Ok text ↔
  ∃ u, ParseURL raw = Ok u ∧ Hostname u ≠ "" ∧ acceptable insecure hosts u ∧ text = URLString u.
Proof.
  unfold validateEndpoint, acceptable. split.
  - intros (u & Hu%with_context_ok & Ho)%bind_ok. cbv zeta in Ho.
    apply unless_ok in Ho as [[[Habs Hhost]%andb_true_iff Hname]%andb_true_iff Ho]. apply unless_ok in Ho as [Huser Ho].
    apply unless_ok in Ho as [Hfrag%String.eqb_eq Ho]. apply unless_ok in Ho as [Hscheme Ho]. apply unless_ok in Ho as [Hlist [= <-]].
    apply negb_true_iff, String.eqb_neq in Hhost, Hname. exists u. split_and!; try done.
    + by destruct (url_User u).
    + apply orb_true_iff in Hscheme as [Hs%String.eqb_eq|[Hs%String.eqb_eq Hi]%andb_true_iff]; auto.
    + intros Hne. apply orb_true_iff in Hlist as [Hl%bool_decide_eq_true|Hl%bool_decide_eq_true]; done.
  - intros (u & Hu & Hname & (Habs & Hhost & Huser & Hfrag & Hscheme & Hlist) & ->). rewrite Hu. cbn [with_context].
    apply bind_ok. exists u. split; [done|]. cbv zeta. rewrite !unless_ok.
    rewrite Habs, Huser, Hfrag. apply String.eqb_neq in Hhost, Hname. rewrite Hhost, Hname. split_and!; try done.
    + destruct Hscheme as [->|[-> ->]]; done.
    + case_bool_decide; [done|]. by rewrite bool_decide_true by auto.
Qed.

(** C32. A configured advisor posts to the endpoint it was given, which is an absolute URL over HTTPS (or HTTP if that
    was allowed) without credentials or fragment, on a listed host, and follows redirects to such URLs only; its
    limits are positive. *)
Theorem advisor_endpoints config a :
  NewOpenAICompatibleAdvisor config = Ok a →
  (∃ u, ParseURL (or_text (config_Endpoint config) default_endpoint) = Ok u ∧ advisor_endpoint a = URLString u ∧
     acceptable (config_AllowInsecureHTTP config) (advisor_endpointAllowlist a) u) ∧
  (∀ original target via, checkRedirect a original target via = Ok tt →
     ∃ u, ParseURL target = Ok u ∧ acceptable (config_AllowInsecureHTTP config) (advisor_endpointAllowlist a) u) ∧
  advisor_endpointAllowlist a ≠ ∅ ∧ advisor_model a ≠ "" ∧ advisor_apiKey a ≠ "" ∧
  0 < advisor_timeout a ∧ 0 < advisor_maxInputBytes a ∧ 0 < advisor_circuitThreshold a ∧ 0 < advisor_circuitCooldown a.
Proof.
  unfold NewOpenAICompatibleAdvisor. intros [_ Ho]%unless_ok. cbv zeta in Ho.
  apply unless_ok in Ho as [Hmodel%negb_true_iff%String.eqb_neq Ho]. apply unless_ok in Ho as [Hkey%negb_true_iff%String.eqb_neq Ho].
  apply bind_ok in Ho as (hosts & Hhosts & Ho). apply bind_ok in Ho as (endpoint & Hend & Ho).
  apply bind_ok in Ho as (sources & _ & Ho). apply bind_ok in Ho as (namespaces & _ & [= <-]).
  cbn -[or_default TrimSpace default_endpoint defaultMaxInputBytes defaultCircuitBreakerThreshold defaultCircuitBreakerCooldown Second].
  assert (∀ x d, 0 < d → 0 < or_default x d) as Hd by (intros x d Hd; unfold or_default; destruct (Z.leb_spec x 0); lia).
  split_and!; try done; try (by apply Hd).
  - apply validateEndpoint_ok in Hend as (u & Hu & _ & Ha & ->). eauto.
  - intros original target via Hc. unfold checkRedirect in Hc.
    apply bind_ok in Hc as (text & Ht%with_context_ok & _). apply validateEndpoint_ok in Ht as (u & Hu & _ & Ha & _). eauto.
  - unfold endpoint_hosts in Hhosts. apply bind_ok in Hhosts as (set & _ & Hset). case_bool_decide; [|congruence].
    destruct (ParseURL _) as [u|]; [|done]. destruct (Hostname u == ""); [done|]. injection Hset as <-. set_solver.
Qed.

(** * What is analysed *)

Lemma check_all_ok {A} (check : A → result unit) l : check_all check l = Ok tt ↔ Forall (λ x, check x = Ok tt) l.
Proof.
  induction l as [|x l IH]; cbn [check_all]; [split; [constructor | done]|].
  rewrite Forall_cons, <- IH. destruct (check x) as [[]|e]; cbn; intuition congruence.
Qed.

(** The source or the namespace is not on the list of exclusions. *)
Definition namespace_allowed (a : OpenAICompatibleAdvisor) (namespace : string) : Prop :=
  TrimSpace namespace = "" ∨ normalizeExactMatch (TrimSpace namespace) ∉ advisor_excludedNamespaces a.
Definition analysable (a : OpenAICompatibleAdvisor) (finding : Finding) (plan : RemediationPlan) : Prop :=
  normalizeExactMatch (finding_Source finding) ∉ advisor_excludedSources a ∧
  namespace_allowed a (keys_Namespace (finding_CorrelationKeys finding)) ∧
  Forall (λ resource, namespace_allowed a (ref_Namespace resource)) (finding_Resources finding) ∧
  Forall (λ action, namespace_allowed a (ref_Namespace (action_Target action))) (plan_Actions plan).

Lemma checkNamespace_ok a namespace : checkNamespace a namespace = Ok tt ↔ namespace_allowed a namespace.
Proof.
  unfold checkNamespace, namespace_allowed, unless. cbv zeta.
  destruct (String.eqb_spec (TrimSpace namespace) ""); cbn [orb]; [intuition|].
  case_bool_decide; cbn [negb]; [|tauto]. split; [done | intros [?|?]; done].
Qed.
Lemma checkExclusions_ok a finding plan : checkExclusions a finding plan = Ok tt ↔ analysable a finding plan.
Proof.
  unfold checkExclusions, analysable, unless. case_bool_decide as Hs; cbn [negb]; [cbn; split; [done | intros [? _]; done]|].
  cbn [mbind]. rewrite <- checkNamespace_ok.
  assert (∀ l : list ResourceRef, Forall (λ resource, namespace_allowed a (ref_Namespace resource)) l ↔
    check_all (λ resource, checkNamespace a (ref_Namespace resource)) l = Ok tt) as ->.
  { intros l. rewrite check_all_ok. apply Forall_proper; [|done]. intros x. by rewrite checkNamespace_ok. }
  assert (∀ l : list TypedAction, Forall (λ action, namespace_allowed a (ref_Namespace (action_Target action))) l ↔
    check_all (λ action, checkNamespace a (ref_Namespace (action_Target action))) l = Ok tt) as ->.
  { intros l. rewrite check_all_ok. apply Forall_proper; [|done]. intros x. by rewrite checkNamespace_ok. }
  cbn. destruct (checkNamespace a _) as [[]|e]; cbn; [|intuition congruence].
  destruct (check_all _ (finding_Resources finding)) as [[]|e]; cbn; intuition congruence.
Qed.

(** * What an answer is worth *)

Definition trusted (a : OpenAICompatibleAdvisor) (allowedActions evidenceSourceIDs : gset string) (analysis : AIAnalysis) : Prop :=
  ai_Provider analysis = advisor_provider a ∧ ai_Model analysis = advisor_model a ∧ ai_Mode analysis = "assistive" ∧
  ai_AutonomousPolicy analysis = autonomousPolicy ∧
  (ai_RecommendedAction analysis = "human_review" ∨ ai_RecommendedAction analysis ∈ allowedActions) ∧
  ai_Confidence analysis ∈ ["low"; "medium"; "high"] ∧
  rune_count (ai_Summary analysis) ≤ 700 ∧ rune_count (ai_RootCause analysis) ≤ 900 ∧ rune_count (ai_Impact analysis) ≤ 900 ∧
  (length (ai_SafetyNotes analysis) ≤ 5)%nat ∧ Forall (λ note, rune_count note ≤ 300) (ai_SafetyNotes analysis) ∧
  ∃ notes citations, NoDup citations ∧ StronglySorted (λ x y, String.ltb y x = false) citations ∧
    (∀ source, source ∈ citations → source ∈ evidenceSourceIDs) ∧ (evidenceSourceIDs = ∅ ↔ citations = []) ∧
    ai_SafetyNotes analysis =
      notes ++ if bool_decide (citations = []) then [] else [boundedString ("Evidence sources: " +:+ Join citations ", ") 300].

Lemma collect_citations_ok sources : ∀ evidence cited citations,
  collect_citations evidence cited sources = Ok citations →
  NoDup citations ∧ ∀ x, x ∈ citations → x ∈ evidence ∧ x ∉ cited.
Proof.
  induction sources as [|x sources IH]; intros evidence cited citations; cbn -[TrimSpace String.eqb].
  { intros [= <-]. split; [constructor | by intros y ?%elem_of_nil]. }
  intros [_ H]%unless_ok. apply unless_ok in H as [Hin%bool_decide_eq_true H]. case_bool_decide as Hc; [by eapply IH|].
  apply bind_ok in H as (more & Hmore & [= <-]). destruct (IH _ _ _ Hmore) as [Hnd Hall]. split.
  - constructor; [|done]. intros Hx. apply Hall in Hx as [_ Hx]. set_solver.
  - intros y [->|Hy]%elem_of_cons; [done|]. apply Hall in Hy. set_solver.
Qed.

Section Answer.
Context `{RangeOrder}.

Lemma validateProviderOutput_ok output actions evidence confidence citations :
  validateProviderOutput output actions evidence = Ok (confidence, citations) →
  let action := TrimSpace (out_RecommendedAction output) in
  (action = "human_review" ∨ action ∈ actions) ∧ confidence ∈ ["low"; "medium"; "high"] ∧
  NoDup citations ∧ StronglySorted (λ x y, String.ltb y x = false) citations ∧
  (∀ source, source ∈ citations → source ∈ evidence) ∧ (evidence = ∅ ↔ citations = []).
Proof.
  unfold validateProviderOutput. intros (u & _ & Ho)%bind_ok. cbv zeta in Ho |- *.
  apply unless_ok in Ho as [Ha Ho]. apply unless_ok in Ho as [Hc%bool_decide_eq_true Ho].
  apply bind_ok in Ho as (found & Hf & Ho). apply unless_ok in Ho as [Hsome Ho]. apply unless_ok in Ho as [_ [= <- <-]].
  apply collect_citations_ok in Hf as [Hnd Hin]. pose proof (sort_slice_perm String.ltb found) as Hp.
  split_and!; [|done | by rewrite Hp | | intros s; rewrite elem_of_sort_slice; intros Hs; by apply Hin |].
  - apply orb_true_iff in Ha as [Ha%String.eqb_eq|Ha%bool_decide_eq_true]; auto.
  - refine (sort_slice_sorted String.ltb (H := strict_weak_by_string id) found).
  - split.
    + intros ->. destruct found as [|x found]; [done|]. destruct (Hin x ltac:(left)) as [? _]. set_solver.
    + intros He. rewrite He in Hp. apply Permutation_nil_l in Hp as <-. 
      apply orb_true_iff in Hsome as [Hs%bool_decide_eq_true|Hs%bool_decide_eq_true]; [done|]. done.
Qed.

Lemma boundedSanitizedStrings_notes l cited : 
  (length (boundedSanitizedStrings l (if cited : bool then 4 else 5) 300) ≤ if cited then 4 else 5)%nat.
Proof. etrans; [apply boundedSanitizedStrings_length|]. by destruct cited. Qed.

Lemma read_answer_ok a actions evidence status body analysis :
  read_answer a actions evidence status body = Ok analysis →
  len body ≤ maxProviderResponseBytes ∧ 200 ≤ status ≤ 299 ∧
  ∀ now, trusted a actions evidence (analysis now) ∧ ai_GeneratedAt (analysis now) = now.
Proof.
  unfold read_answer. intros [Hl%Z.leb_le Ho]%unless_ok. apply unless_ok in Ho as [[H1%Z.leb_le H2%Z.leb_le]%andb_true_iff Ho].
  split; [exact Hl|]. split; [lia|]. apply bind_ok in Ho as (choices & _ & Ho). destruct choices as [|first rest]; [done|].
  apply bind_ok in Ho as (decoded & _ & Ho). apply bind_ok in Ho as ([confidence citations] & Hv%with_context_ok & Ho).
  apply validateProviderOutput_ok in Hv as (Ha & Hc & Hnd & Hs & Hin & He). injection Ho as <-. intros now. split; [|done].
  assert (∀ c : bool, Forall (λ note, rune_count note ≤ 300) (boundedSanitizedStrings (out_SafetyNotes decoded) (if c then 4 else 5) 300))
    as Hb by (intros c; by apply Forall_bounded_strings).
  pose proof (boundedSanitizedStrings_notes (out_SafetyNotes decoded)) as Hn.
  unfold trusted. cbn -[sanitize boundedSanitizedStrings rune_count boundedString TrimSpace autonomousPolicy].
  split_and!; try done; try by apply sanitize_bound.
  - specialize (Hn (negb (bool_decide (citations = [])))). rewrite length_app. destruct (bool_decide _); cbn -[boundedSanitizedStrings] in *; lia.
  - apply Forall_app. split; [apply Hb|]. destruct (bool_decide _); constructor; [by apply boundedString_bound | constructor].
  - exists (boundedSanitizedStrings (out_SafetyNotes decoded) (if negb (bool_decide (citations = [])) then 4 else 5) 300), citations. split_and!; try done. by case_bool_decide.
Qed.
End Answer.

(** * The calls of Analyze *)

Section Calls.
Context `{RangeOrder}.
Variables (a : OpenAICompatibleAdvisor) (finding : Finding) (plan : RemediationPlan).
Implicit Types (h : history AdvisorE).
Abbreviation occurred e x h := (Occ (E := AdvisorE) _ e x ∈ h) (only parsing).

(** Only the finding and plan that may be analysed are sent, as the request built for them, after the circuit
    breaker let the call through; only outcomes of requests are recorded. *)
Definition call_permitted X h (e : AdvisorE X) : Prop :=
  match e with
  | Post endpoint apiKey body =>
      endpoint = advisor_endpoint a ∧ apiKey = advisor_apiKey a ∧ analysable a finding plan ∧
      len body ≤ advisor_maxInputBytes a ∧
      (∃ sources actions, buildRequestBody a finding plan = Ok (body, sources, actions)) ∧
      ∃ now, occurred AdvisorNow now h ∧ occurred (CheckCircuit now) (Ok tt) h
  | RecordFailure | RecordSuccess =>
      ∃ endpoint apiKey body answer, occurred (Post endpoint apiKey body) answer h
  | AdvisorNow | CheckCircuit _ => True
  end.

(** An analysis is made of a good answer to the request, which was recorded as a success; an error has a reason
    that precedes the request, or was recorded as a failure. *)
Definition concluded h (r : result AIAnalysis) : Prop :=
  match r with
  | Ok analysis =>
      ∃ body sources actions status text,
        buildRequestBody a finding plan = Ok (body, sources, actions) ∧
        occurred (Post (advisor_endpoint a) (advisor_apiKey a) body) (Ok (status, text)) h ∧
        len text ≤ maxProviderResponseBytes ∧ 200 ≤ status ≤ 299 ∧ trusted a actions sources analysis ∧
        occurred AdvisorNow (ai_GeneratedAt analysis) h ∧ occurred RecordSuccess tt h
  | Err err =>
      ¬ analysable a finding plan ∨ (∃ e, buildRequestBody a finding plan = Err e) ∨
      (∃ now, occurred (CheckCircuit now) (Err err) h) ∨ (∃ e, ParseURL (advisor_endpoint a) = Err e) ∨
      ∃ now, occurred RecordFailure now h
  end.

Definition any_reply X h (e : AdvisorE X) (x : X) : Prop := True.
Abbreviation csafe := (safe call_permitted any_reply) (only parsing).

Definition requested h body (answer : result (Z * string)) : Prop :=
  occurred (Post (advisor_endpoint a) (advisor_apiKey a) body) answer h.

Lemma provider_call_safe h body sources actions now :
  analysable a finding plan → buildRequestBody a finding plan = Ok (body, sources, actions) →
  occurred AdvisorNow now h → occurred (CheckCircuit now) (Ok tt) h →
  csafe h (provider_call a body sources actions) (λ h' r, (∃ answer, requested h' body answer) ∧
    ∀ analysis, r = Ok analysis → ∃ status text, requested h' body (Ok (status, text)) ∧
      len text ≤ maxProviderResponseBytes ∧ 200 ≤ status ≤ 299 ∧ trusted a actions sources analysis ∧
      occurred AdvisorNow (ai_GeneratedAt analysis) h').
Proof.
  intros Hok Hbody Hnow Hcheck h1 Hh1. split.
  { pose proof (buildRequestBody_bound a finding plan) as Hb. rewrite Hbody in Hb.
    split_and!; try done; [by eauto|]. exists now. split; by eapply in_later. }
  intros [[status text]|e] _; cbn.
  2: { intros h2 Hh2. split; [|done]. exists (Err e). eapply in_later; [exact Hh2 | left]. }
  destruct (read_answer a actions sources status text) as [analysis|e] eqn:Hr.
  2: { cbn. intros h2 Hh2. split; [|done]. eexists. eapply in_later; [exact Hh2 | left]. }
  apply read_answer_ok in Hr as (Hl & Hs & Ht). cbn. intros h2 Hh2. split; [done|]. intros t _ h3 Hh3.
  assert (requested h3 body (Ok (status, text))) as Hreq.
  { eapply in_later; [exact Hh3|]. right. eapply in_later; [exact Hh2 | left]. }
  split; [by eauto|]. intros x [= <-]. exists status, text. destruct (Ht t) as [Htr ->]. split_and!; try done; [lia..|].
  eapply in_later; [exact Hh3 | left].
Qed.

Lemma post_permits h body answer : requested h body answer → call_permitted unit h RecordSuccess ∧ call_permitted Time h RecordFailure.
Proof. intros Hr. split; cbn; eauto. Qed.

Lemma Analyze_concluded : csafe [] (Analyze a finding plan) concluded.
Proof.
  unfold Analyze. destruct (checkExclusions a finding plan) as [[]|e] eqn:Hex; cbn -[buildRequestBody provider_call concluded trusted].
  2: { intros h _. left. intros Ha%checkExclusions_ok. congruence. }
  apply checkExclusions_ok in Hex. destruct (buildRequestBody a finding plan) as [[[body sources] actions]|e] eqn:Hbody.
  2: { cbn -[buildRequestBody concluded trusted]. intros h _. right. left. eauto. }
  cbn -[buildRequestBody provider_call ParseURL concluded trusted]. intros h1 _. split; [done|]. intros now _ h2 Hh2. split; [done|].
  intros [[]|e] _; cbn -[buildRequestBody provider_call ParseURL concluded trusted].
  2: { intros h3 Hh3. right. right. left. exists now. eapply in_later; [exact Hh3 | left]. }
  destruct (ParseURL (advisor_endpoint a)) as [u|e] eqn:Hurl; cbn -[buildRequestBody provider_call ParseURL concluded trusted].
  2: { intros h3 Hh3. right. right. right. left. eauto. }
  apply safe_bind, safe_bind. eapply safe_weaken; [|apply safe_persists, (provider_call_safe _ body sources actions now)]; try done.
  - intros h3 r Hr h4 Hh4. cbn -[buildRequestBody provider_call ParseURL concluded trusted]. destruct r as [analysis|e].
    + intros h5 Hh5. assert (suffix h3 h5) as Hh by (by etrans). destruct (Hr h5 Hh) as [[answer Hreq] Hok].
      split; [by apply post_permits in Hreq as [Hp _]|]. intros [] _ h6 Hh6.
      destruct (Hok _ eq_refl) as (status & text & _ & Hl & Hs & Ht & _).
      assert (suffix h3 h6) as Hh' by (etrans; [exact Hh|]; etrans; [|exact Hh6]; by eexists [_]).
      destruct (Hr h6 Hh') as [_ Hok']. destruct (Hok' _ eq_refl) as (status' & text' & Hreq' & Hl' & Hs' & Ht' & Hnow').
      exists body, sources, actions, status', text'. exact (conj Hbody (conj Hreq' (conj Hl' (conj Hs' (conj Ht' (conj Hnow' (in_later _ _ _ Hh6 (list_elem_of_here _ _)))))))).
    + intros h5 Hh5. destruct (Hr h5 ltac:(by etrans)) as [[answer Hreq] _].
      split; [by apply post_permits in Hreq as [_ Hp]|]. intros t _ h6 Hh6. do 4 right. exists t. eapply in_later; [exact Hh6 | left].
  - eapply in_later; [|left]. etrans; [exact Hh2|]. by eexists [_].
  - left.
Qed.

(** C5. A call of the advisor sends a request only for a finding and a plan that name no excluded source or namespace,
    within the configured size, after the circuit breaker let it through. What it returns was read from an answer
    with a success status within the size limit: it recommends an action of the plan or a human review, cites only
    evidence that was sent and some if there was any, and is bounded; it was recorded as a success. Every
    error of the request or of its answer is recorded as a failure. *)
Theorem Analyze_safe h p :
  performs (Analyze a finding plan) h p → obeys call_permitted h ∧ ∀ r, p = Ret r → concluded h r.
Proof.
  intros Hp. destruct (performs_safe call_permitted any_reply _ _ _ _ ltac:(done) Analyze_concluded Hp) as [Ho Hs].
  split; [exact Ho|]. intros r ->. by apply Hs.
Qed.
End Calls.
