(* ===== verification/AdvisorCircuit.v ===== *)
(** The circuit breaker of the AI advisor under concurrent calls: when it lets a call through; and the advisor at work. *)
From S2P Require Import Prelude GoLib Interaction Core Advisor AdvisorBounds AdvisorCall.
From S2P Require Import GoDuration Json JsonText Redaction AdvisorProps.

Local Open Scope Z_scope.

Section Breaker.
Context `{RangeOrder}.
Variable a : OpenAICompatibleAdvisor.
Implicit Types (h : history AdvisorE).

(** The concurrent executions of calls of one advisor, whose breaker starts closed. *)
Definition advisor_execution : history AdvisorE → circuit → list (prog AdvisorE unit) → Prop :=
  execution (λ c, c = zero_circuit) (λ p, ∃ finding plan, p = prog_bind (λ _, Ret tt) (Analyze a finding plan))
    (λ X c, advisor_handles a X c) (λ _ _, False).

Definition tripped (failures : list Time) : bool := advisor_circuitThreshold a <=? Z.of_nat (length failures).

(** The failures that count, the latest first: those since the last success, and since the breaker last closed
    again after its cooldown. *)
Fixpoint failures h : list Time :=
  match h with
  | [] => []
  | Occ _ e x :: before =>
      match e in AdvisorE X return X → list Time with
      | RecordFailure => λ t, t :: failures before
      | RecordSuccess => λ _, []
      | CheckCircuit _ => λ answer, if is_ok answer && tripped (failures before) then [] else failures before
      | _ => λ _, failures before
      end x
  end.

Definition breaker_state (failures : list Time) : circuit :=
  mkCircuit (Z.of_nat (length failures))
    (if tripped failures then Add (hd 0 failures) (advisor_circuitCooldown a) else 0).

Hypotheses (threshold_positive : 0 < advisor_circuitThreshold a) (cooldown_positive : 0 < advisor_circuitCooldown a).

Lemma not_tripped_nil : tripped [] = false.
Proof. apply Z.leb_gt. cbn. lia. Qed.

Lemma tripped_opens fs : Forall (λ t, 0 < t) fs → tripped fs = true → 0 < Add (hd 0 fs) (advisor_circuitCooldown a).
Proof.
  intros Hfs Ht. destruct fs as [|t fs]; [by rewrite not_tripped_nil in Ht|]. apply Forall_cons in Hfs as [Hpos _].
  unfold Add. cbn. lia.
Qed.

(** The check in a state described by its failures. *)
Lemma check_breaker fs now : Forall (λ t, 0 < t) fs →
  checkCircuit now (breaker_state fs) =
    if tripped fs then
      if now <? hd 0 fs + advisor_circuitCooldown a
      then ((checkCircuit now (breaker_state fs)).1, breaker_state fs) else (Ok tt, zero_circuit)
    else (Ok tt, breaker_state fs).
Proof.
  intros Hfs. unfold checkCircuit, IsZero, Before. cbn [circuitOpenUntil breaker_state].
  destruct (tripped fs) eqn:Ht; [|done]. pose proof (tripped_opens _ Hfs Ht).
  destruct (Z.eqb_spec (Add (hd 0 fs) (advisor_circuitCooldown a)) 0) as [|_]; [lia|]. unfold Add in *.
  by destruct (now <? hd 0 fs + advisor_circuitCooldown a).
Qed.
Lemma check_admits fs now : Forall (λ t, 0 < t) fs →
  is_ok (checkCircuit now (breaker_state fs)).1 = negb (tripped fs && (now <? hd 0 fs + advisor_circuitCooldown a)).
Proof.
  intros Hfs. unfold checkCircuit, IsZero, Before. cbn [circuitOpenUntil breaker_state].
  destruct (tripped fs) eqn:Ht; [|done]. pose proof (tripped_opens _ Hfs Ht).
  destruct (Z.eqb_spec (Add (hd 0 fs) (advisor_circuitCooldown a)) 0) as [|_]; [lia|]. unfold Add in *.
  by destruct (now <? hd 0 fs + advisor_circuitCooldown a).
Qed.

Lemma recordFailure_breaker fs now : Z.of_nat (length fs) < MaxInt64 →
  recordFailure a now (breaker_state fs) = breaker_state (now :: fs).
Proof.
  intros Hl. unfold recordFailure, breaker_state. cbn [consecutiveFailures circuitOpenUntil hd].
  rewrite wrap64_small by (unfold MinInt64, MaxInt64 in *; lia).
  assert (Z.of_nat (length fs) + 1 = Z.of_nat (length (now :: fs))) as -> by (cbn [length]; lia).
  unfold tripped at 2. destruct (Z.leb_spec (advisor_circuitThreshold a) (Z.of_nat (length (now :: fs)))); [done|].
  unfold tripped. destruct (Z.leb_spec (advisor_circuitThreshold a) (Z.of_nat (length fs))); [cbn [length] in *; lia | done].
Qed.

Lemma failures_length h : (length (failures h) ≤ length h)%nat.
Proof.
  induction h as [|[X e x] h IH]; [done|]. destruct e; cbn [failures length]; try lia. 
  destruct (is_ok x && _); cbn; lia.
Qed.

Lemma breaker_event X h (e : AdvisorE X) x c' :
  Z.of_nat (length h) < MaxInt64 → Forall (λ t, 0 < t) (failures h) →
  advisor_handles a X (breaker_state (failures h)) e x c' →
  c' = breaker_state (failures (Occ X e x :: h)) ∧ Forall (λ t, 0 < t) (failures (Occ X e x :: h)).
Proof.
  intros Hl Hfs. pose proof (failures_length h). destruct e; cbn [advisor_handles failures].
  - by intros [_ ->].
  - intros Hc. rewrite check_breaker in Hc by done.
    destruct (tripped (failures h)) eqn:Ht; [|injection Hc as -> ->; by rewrite andb_false_r].
    destruct (now <? _) eqn:Hn.
    + injection Hc as -> ->. rewrite check_admits, Ht, Hn by done. done.
    + injection Hc as -> ->. cbn. split; [|constructor]. unfold breaker_state. by rewrite not_tripped_nil.
  - intros [Hx ->]. rewrite recordFailure_breaker by lia. split; [done | by constructor].
  - intros ->. split; [|constructor]. unfold breaker_state. by rewrite not_tripped_nil.
  - by intros ->.
Qed.

Lemma execution_breaker h c ts : advisor_execution h c ts → Z.of_nat (length h) ≤ MaxInt64 →
  c = breaker_state (failures h) ∧ Forall (λ t, 0 < t) (failures h).
Proof.
  induction 1 as [c ->|h c ts p _ _ IH|h c c' ts [] |h c c' ts1 ts2 X e k x Hx _ IH]; intros Hl.
  - split; [|constructor]. unfold breaker_state. cbn. by rewrite not_tripped_nil.
  - by apply IH.
  - cbn [length] in Hl. destruct (IH ltac:(lia)) as [-> Hfs]. apply breaker_event; [lia | done | done].
Qed.

(** C31. However calls of the advisor are interleaved, the circuit breaker refuses a call exactly when at least the
    configured number of failures were recorded since the last success, or since the breaker last closed again, and
    the cooldown after the latest of them is not over. *)
Theorem circuit_breaker h c ts later now answer before :
  advisor_execution h c ts → Z.of_nat (length h) ≤ MaxInt64 → h = later ++ Occ _ (CheckCircuit now) answer :: before →
  is_ok answer = false ↔
  advisor_circuitThreshold a ≤ Z.of_nat (length (failures before)) ∧
  ∃ latest earlier, failures before = latest :: earlier ∧ now < latest + advisor_circuitCooldown a.
Proof.
  intros He Hl Heq. destruct (execution_at _ _ _ _ _ _ _ _ _ _ _ _ He Heq) as (c0 & ts0 & c1 & He0 & Hx).
  apply execution_breaker in He0 as [-> Hfs]. 2: { rewrite Heq, length_app in Hl. cbn in Hl. lia. }
  cbn in Hx. pose proof (check_admits _ now Hfs) as Hok. rewrite <- Hx in Hok. cbn [fst] in Hok. rewrite Hok.
  rewrite negb_false_iff, andb_true_iff, Z.ltb_lt. unfold tripped at 1. rewrite Z.leb_le.
  split; [|intros [Ht (latest & earlier & Hf & Hn)]; rewrite Hf in *; split; [exact Ht | exact Hn]].
  intros [Ht Hn]. split; [done|]. destruct (failures before) as [|latest earlier]; [cbn in Ht; lia|]. eauto.
Qed.
End Breaker.

(** * The AI advisor at work: an accepted analysis, and a provider that fails until the breaker opens *)

#[local] Existing Instance canonical_order.

Definition advisor_sample_config : Config := {|
  config_Enabled := true; config_Provider := " acme "; config_Endpoint := " https://AI.example.com/v1/chat?x=1 ";
  config_Model := "small-1"; config_APIKey := "k-1"; config_Timeout := 0; config_AllowInsecureHTTP := false;
  config_EndpointHostAllowlist := []; config_ExcludedSources := ["Audit"]; config_ExcludedNamespaces := ["kube-system"];
  config_MaxInputBytes := 0; config_MaxOutputTokens := 0; config_CircuitBreakerThreshold := 1;
  config_CircuitBreakerCooldown := 0
|}.

Definition zero_advisor : OpenAICompatibleAdvisor := mkAdvisor "" "" "" "" 0 false ∅ ∅ ∅ 0 0 0 0.
Definition sample_advisor : OpenAICompatibleAdvisor :=
  Eval vm_compute in match NewOpenAICompatibleAdvisor advisor_sample_config with Ok a => a | Err _ => zero_advisor end.

Example sample_advisor_ex :
  (advisor_provider sample_advisor, advisor_endpoint sample_advisor, advisor_maxInputBytes sample_advisor,
   elements (advisor_endpointAllowlist sample_advisor)) =
  ("acme", "https://AI.example.com/v1/chat?x=1", 65536, ["ai.example.com"]).
Proof. vm_compute. reflexivity. Qed.

Lemma advisor_endpoints_witness :
  ∃ u, GoUrl.ParseURL "https://AI.example.com/v1/chat?x=1" = Ok u ∧ advisor_endpoint sample_advisor = GoUrl.URLString u ∧
    acceptable false (advisor_endpointAllowlist sample_advisor) u.
Proof.
  refine (proj1 (advisor_endpoints advisor_sample_config sample_advisor _)). vm_compute. reflexivity.
Defined.

Definition analysed_finding : Finding :=
  zero_Finding <| finding_ID := "f-1" |> <| finding_Source := "posture" |> <| finding_Title := "Runs as root" |>
    <| finding_Evidence := [mkEvidence "uid 0" "token: hunter2" "scan-7" 0] |>.
Definition analysed_plan : RemediationPlan :=
  zero_RemediationPlan <| plan_ID := "p-1" |>
    <| plan_Actions := [zero_TypedAction <| action_Type := "patch_security_context" |>] |>.

(** What is sent: the secret is redacted. *)
Example sample_prompt :
  prompt_of (projectAdvisorInput analysed_finding analysed_plan) =
  requote ("{'finding':{'id':'f-1','source':'posture','title':'Runs as root','evidence':[{'summary':'uid 0'," +:+
    "'details':'token: [REDACTED]','sourceId':'scan-7','observedAt':'0001-01-01T00:00:00Z'}]},'plan':{'id':'p-1'," +:+
    "'actions':[{'type':'patch_security_context','target':{}}],'approvalPolicy':{'required':false}}}").
Proof. vm_compute. reflexivity. Qed.

(** The breaker, the clock, and the replies of the provider. *)
Definition AdvisorWorld : Type := circuit * Z * list (result (Z * string)).
Definition advisor_view (w : AdvisorWorld) : circuit := w.1.1.
Definition later_by (n : Z) (w : AdvisorWorld) : AdvisorWorld := (w.1.1, w.1.2 + n, w.2).

Definition advisor_handle X (e : AdvisorE X) (w : AdvisorWorld) : X * AdvisorWorld :=
  match e in AdvisorE X return X * AdvisorWorld with
  | AdvisorNow => (Z.max 1 w.1.2, w)
  | CheckCircuit now => let '(r, c) := checkCircuit now w.1.1 in (r, (c, w.1.2, w.2))
  | RecordFailure => let t := Z.max 1 w.1.2 in (t, (recordFailure sample_advisor t w.1.1, w.1.2, w.2))
  | RecordSuccess => (tt, (recordSuccess, w.1.2, w.2))
  | Post _ _ _ => match w.2 with
                  | reply :: replies => (reply, (w.1.1, w.1.2, replies))
                  | [] => (Err (Errorf "connection refused"), w)
                  end
  end.

Lemma advisor_handle_sound X (e : AdvisorE X) w :
  advisor_handles sample_advisor X (advisor_view w) e (advisor_handle X e w).1 (advisor_view (advisor_handle X e w).2).
Proof.
  destruct w as [[c t] replies], e; cbn; try done; try (split; [lia | done]).
  - by destruct (checkCircuit now c).
  - by destruct replies.
Qed.

(** The provider's answer: the fenced text of an output. *)
Definition good_output : string := fence +:+ "json" +:+ requote
  ("{'summary':'Runs as uid 0','rootCause':'no securityContext','impact':'escape','recommendedAction':'patch_security_context'," +:+
   "'confidence':' High ','safetyNotes':['restart'],'evidenceSourceIds':['scan-7','scan-7']}") +:+ fence.
Definition envelope (content : string) : string :=
  object_of [member "id" (marshal_string "x"); member "choices" (array_of [object_of [member "message" (chat_message "assistant" content)]])].

Definition sample_call := drive advisor_handle (Analyze sample_advisor analysed_finding analysed_plan)
  (zero_circuit, 10, [Ok (200, envelope good_output)]) [].
Definition sample_analysis : AIAnalysis :=
  Eval vm_compute in match sample_call.1.1 with Ok analysis => analysis | Err _ => zero_AIAnalysis end.

Example sample_analysis_ex :
  (ai_RecommendedAction sample_analysis, ai_Confidence sample_analysis, ai_SafetyNotes sample_analysis) =
  ("patch_security_context", "high", ["restart"; "Evidence sources: scan-7"]).
Proof. vm_compute. reflexivity. Qed.

Lemma sample_call_performed :
  performs (Analyze sample_advisor analysed_finding analysed_plan) sample_call.2 (Ret (Ok sample_analysis)).
Proof. apply drive_returns. vm_compute. reflexivity. Qed.

Lemma Analyze_safe_witness :
  obeys (call_permitted sample_advisor analysed_finding analysed_plan) sample_call.2 ∧
  concluded sample_advisor analysed_finding analysed_plan sample_call.2 (Ok sample_analysis).
Proof.
  destruct (Analyze_safe sample_advisor analysed_finding analysed_plan sample_call.2 _ sample_call_performed) as [Ho Hc].
  split; [exact Ho | by apply Hc].
Defined.

(** A call that is rejected because of its citation; the next one, within the cooldown, is refused. *)
Definition no_output (p : prog AdvisorE (result AIAnalysis)) : prog AdvisorE unit := prog_bind (λ _, Ret tt) p.
Definition one_call : prog AdvisorE unit := no_output (Analyze sample_advisor analysed_finding analysed_plan).
Definition failed_call := drive advisor_handle one_call (zero_circuit, 10, [Ok (200, envelope "{}")]) [].
Definition refused_call := drive advisor_handle one_call failed_call.1.2 failed_call.2.

Lemma one_call_execution d h ts :
  advisor_execution sample_advisor h (advisor_view d) ts →
  let '(_, d', h') := drive advisor_handle one_call d h in ∃ ts', advisor_execution sample_advisor h' (advisor_view d') ts'.
Proof.
  intros He.
  assert (advisor_execution sample_advisor h (advisor_view d) (one_call :: ts)) as Hs
    by (apply exec_start; [by exists analysed_finding, analysed_plan | exact He]).
  pose proof (drive_execution advisor_handle _ _ _ _ advisor_view advisor_handle_sound _ d _ _ Hs) as Hd.
  destruct (drive advisor_handle one_call d h) as [[u d'] h']. destruct Hd as [x Hd]. by eexists.
Qed.

Lemma refused_execution : ∃ ts, advisor_execution sample_advisor refused_call.2 (advisor_view refused_call.1.2) ts.
Proof.
  pose proof (one_call_execution (zero_circuit, 10, [Ok (200, envelope "{}")]) [] [] (exec_init _ _ _ _ _ eq_refl)) as H1.
  unfold refused_call, failed_call. destruct (drive _ _ _ []) as [[u d1] h1]. destruct H1 as [ts1 H1].
  pose proof (one_call_execution d1 h1 ts1 H1) as H2. cbn [fst snd]. by destruct (drive _ _ d1 h1) as [[v d2] h2].
Qed.

(** The refused call and what happened before. *)
Definition refused_answer : result unit := Eval vm_compute in (checkCircuit 10 (advisor_view failed_call.1.2)).1.
Definition refused_before : history AdvisorE := Eval vm_compute in tail refused_call.2.

Lemma refused_history : refused_call.2 = [] ++ Occ _ (CheckCircuit 10) refused_answer :: refused_before.
Proof. vm_compute. reflexivity. Qed.

Lemma circuit_breaker_witness :
  advisor_circuitThreshold sample_advisor ≤ Z.of_nat (length (failures sample_advisor refused_before)) ∧
  ∃ latest earlier, failures sample_advisor refused_before = latest :: earlier ∧
    10 < latest + advisor_circuitCooldown sample_advisor.
Proof.
  destruct refused_execution as [ts He].
  refine (proj1 (circuit_breaker sample_advisor _ _ refused_call.2 _ ts [] 10 refused_answer refused_before He _ refused_history) eq_refl).
  - reflexivity.
  - reflexivity.
  - vm_compute. discriminate.
Defined.
