(* ===== verification/ManagedConfig.v ===== *)
(** The allowlist of managed resources, [services/api/internal/managedresources/config.go]: parsing it from
    JSON or from its concise form, and bringing it into one normal form; what is accepted. *)
From S2P Require Import Prelude GoLib Json Runes Kube ManagedResources.
From S2P Require Import StrictSort.

Local Open Scope Z_scope.

#[export] Instance GroupVersionResource_countable : Countable GroupVersionResource.
Proof.
  apply (inj_countable' (λ g, (gvr_Group g, gvr_Version g, gvr_Resource g)) (λ '(g, v, r), mkGVR g v r)). by intros [].
Defined.

(** [schema.GroupVersionResource.String] *)
Class ResourceNames := { GVRString : GroupVersionResource → string }.

Record resourceRule := mkRule { rule_gvr : GroupVersionResource; rule_namespaced : bool }.
#[export] Instance resourceRule_eq_dec : EqDecision resourceRule.
Proof. solve_decision. Defined.

(** * Segments *)

(** A rune as [%q] prints it. *)
Definition QuoteRune (r : Z) : string :=
  "'" +:+ (if r =? 39 then backslash +:+ "'" else if r =? 34 then quote
           else if r <? 128 then quote_byte (byte_of_code r) else utf8_encode r) +:+ "'".

Definition segment_rune (r : Z) : bool :=
  ((97 <=? r) && (r <=? 122)) || ((48 <=? r) && (r <=? 57)) || (r =? 46) || (r =? 45).

Definition validateSegment (name value : string) (apiGroup : bool) : result unit :=
  unless (value != "") (name +:+ " must not be empty");;
  unless (negb (Contains value "*")) (name +:+ " must not contain wildcards");;
  unless (negb (apiGroup && EqualFold value "core")) "core API group is not allowed";;
  match List.find (λ r, negb (segment_rune r)) (runes value) with
  | Some r => Err (Errorf (name +:+ " " +:+ Quote value +:+ " contains unsupported character " +:+ QuoteRune r))
  | None => Ok tt
  end;;
  unless (negb (HasPrefix value "." || HasSuffix value "." || Contains value "..")) (name +:+ " " +:+ Quote value +:+ " is malformed").

(** * The normal form *)

(** A group, a version and a scope. *)
Abbreviation groupKey := (string * string * bool)%type (only parsing).

Section Normalize.
Context `{ResourceNames}.

(** What the loop over the entries collects: the resources of each key, and the scope of each resource. *)
Record collected := mkCollected {
  grouped : gmap groupKey (gset string);
  resourceScopes : gmap GroupVersionResource bool
}.

Definition entry_context {A} (index : nat) (r : result A) : result A :=
  with_context ("allowlist entry " +:+ Itoa (Z.of_nat index)) r.
Definition resource_context {A} (index resourceIndex : nat) (r : result A) : result A :=
  with_context ("allowlist entry " +:+ Itoa (Z.of_nat index) +:+ " resource " +:+ Itoa (Z.of_nat resourceIndex)) r.

Fixpoint collect_resources (index resourceIndex : nat) (apiGroup version : string) (namespaced : bool)
    (resources : list string) (c : collected) : result collected :=
  match resources with
  | [] => Ok c
  | rawResource :: rest =>
      let resource := TrimSpace rawResource in
      resource_context index resourceIndex (validateSegment "resource" resource false);;
      let gvr := mkGVR apiGroup version resource in
      unless (match resourceScopes c !! gvr with Some priorScope => Bool.eqb priorScope namespaced | None => true end)
        ("allowlist resource " +:+ GVRString gvr +:+ " has conflicting namespaced values");;
      let key := (apiGroup, version, namespaced) in
      collect_resources index (S resourceIndex) apiGroup version namespaced rest
        (mkCollected (<[key := {[ resource ]} ∪ default ∅ (grouped c !! key)]> (grouped c))
                     (<[gvr := namespaced]> (resourceScopes c)))
  end.

Fixpoint collect_entries (index : nat) (entries : list AllowlistEntry) (c : collected) : result collected :=
  match entries with
  | [] => Ok c
  | entry :: rest =>
      let apiGroup := TrimSpace (allow_APIGroup entry) in
      let version := TrimSpace (allow_Version entry) in
      entry_context index (validateSegment "apiGroup" apiGroup true);;
      entry_context index (validateSegment "version" version false);;
      entry_context index (unless (match allow_Resources entry with [] => false | _ => true end) "resources must not be empty");;
      let key := (apiGroup, version, allow_Namespaced entry) in
      c ← collect_resources index 0 apiGroup version (allow_Namespaced entry) (allow_Resources entry)
            (mkCollected (<[key := default ∅ (grouped c !! key)]> (grouped c)) (resourceScopes c));
      collect_entries (S index) rest c
  end.

Definition group_less (x y : groupKey) : bool :=
  let '(groupX, versionX, namespacedX) := x in
  let '(groupY, versionY, namespacedY) := y in
  if groupX != groupY then String.ltb groupX groupY
  else if versionX != versionY then String.ltb versionX versionY
  else negb namespacedX && namespacedY.

(** The keys and the resources are sorted, so the order the maps list them in does not show. *)
Definition entry_of (group : groupKey * gset string) : AllowlistEntry :=
  let '(apiGroup, version, namespaced, resources) := group in
  mkAllowlistEntry apiGroup version (sort_slice String.ltb (elements resources)) namespaced.
Definition normalized_entries (c : collected) : list AllowlistEntry :=
  map entry_of (sort_slice (λ x y : groupKey * gset string, group_less x.1 y.1) (map_to_list (grouped c))).

Definition normalizeConfig (config : ManagedConfig) : result ManagedConfig :=
  unless (negb (managed_Enabled config && match managed_Allowlist config with [] => true | _ => false end))
    "managed resource discovery is enabled but the allowlist is empty";;
  c ← collect_entries 0 (managed_Allowlist config) (mkCollected ∅ ∅);
  unless (Z.of_nat (size (resourceScopes c)) <=? 128) "managed resource allowlist exceeds the safety limit of 128 resources";;
  Ok (mkManagedConfig (managed_Enabled config) (normalized_entries c)).

Definition configRules (config : ManagedConfig) : list resourceRule :=
  flat_map (λ entry,
    map (λ resource, mkRule (mkGVR (allow_APIGroup entry) (allow_Version entry) resource) (allow_Namespaced entry))
      (allow_Resources entry)) (managed_Allowlist config).

(** * Parsing *)

(** The structs of the JSON contract; a list that is repeated starts afresh. *)
Record jsonAllowlistEntry := mkJsonEntry {
  jentry_APIGroup : string; jentry_Version : string; jentry_Resources : list string; jentry_Namespaced : option bool
}.
#[export] Instance eta_jsonAllowlistEntry : Eta jsonAllowlistEntry :=
  λ r, mkJsonEntry (jentry_APIGroup r) (jentry_Version r) (jentry_Resources r) (jentry_Namespaced r).
Record jsonConfig := mkJsonConfig { jconfig_Enabled : option bool; jconfig_Allowlist : list jsonAllowlistEntry }.
#[export] Instance eta_jsonConfig : Eta jsonConfig := λ r, mkJsonConfig (jconfig_Enabled r) (jconfig_Allowlist r).

Definition decode_bool_pointer (v : json) : result (option bool) :=
  match v with JNull => Ok None | JBool b => Ok (Some b) | _ => Err json_error end.
Definition decode_slice {A} (decode : json → result A) (v : json) : result (list A) :=
  match v with JNull => Ok [] | JArray items => decode_all decode items | _ => Err json_error end.

Definition set_entry (name : string) (v : json) (r : jsonAllowlistEntry) : result jsonAllowlistEntry :=
  if EqualFold name "apiGroup" then s ← decode_string (jentry_APIGroup r) v; Ok (r <| jentry_APIGroup := s |>)
  else if EqualFold name "version" then s ← decode_string (jentry_Version r) v; Ok (r <| jentry_Version := s |>)
  else if EqualFold name "resources" then l ← decode_slice (decode_string "") v; Ok (r <| jentry_Resources := l |>)
  else if EqualFold name "namespaced" then b ← decode_bool_pointer v; Ok (r <| jentry_Namespaced := b |>)
  else Err json_error.
Definition decode_entry : json → result jsonAllowlistEntry := decode_struct set_entry (mkJsonEntry "" "" [] None).
Definition set_config (name : string) (v : json) (r : jsonConfig) : result jsonConfig :=
  if EqualFold name "enabled" then b ← decode_bool_pointer v; Ok (r <| jconfig_Enabled := b |>)
  else if EqualFold name "allowlist" then l ← decode_slice decode_entry v; Ok (r <| jconfig_Allowlist := l |>)
  else Err json_error.

(** One value, and nothing after it. *)
Definition decodeStrictJSON {A} (decode : json → result A) (raw : string) : result A :=
  match scan_value (parse_fuel raw) 0 raw with
  | None => Err json_error
  | Some (v, rest) =>
      a ← decode v;
      if skip_space rest == "" then Ok a
      else match scan_value (parse_fuel rest) 0 rest with
           | Some (JObject [], _) | Some (JNull, _) => Err (Errorf "multiple JSON values are not allowed")
           | _ => Err json_error
           end
  end.

Fixpoint explicit_entries (index : nat) (rawEntries : list jsonAllowlistEntry) : result (list AllowlistEntry) :=
  match rawEntries with
  | [] => Ok []
  | entry :: rest =>
      match jentry_Namespaced entry with
      | None => Err (Errorf ("allowlist entry " +:+ Itoa (Z.of_nat index) +:+ ": namespaced must be explicitly true or false"))
      | Some namespaced =>
          entries ← explicit_entries (S index) rest;
          Ok (mkAllowlistEntry (jentry_APIGroup entry) (jentry_Version entry) (jentry_Resources entry) namespaced :: entries)
      end
  end.
Definition configFromJSONEntries (enabled : bool) (rawEntries : list jsonAllowlistEntry) : result ManagedConfig :=
  entries ← explicit_entries 0 rawEntries;
  normalizeConfig (mkManagedConfig enabled entries).

Definition parseJSONConfig (raw : string) : result ManagedConfig :=
  if HasPrefix (TrimSpace raw) "[" then
    entries ← with_context "parse managed resource allowlist" (decodeStrictJSON (decode_slice decode_entry) raw);
    configFromJSONEntries true entries
  else
    wrapper ← with_context "parse managed resource config"
                (decodeStrictJSON (decode_struct set_config (mkJsonConfig None [])) raw);
    configFromJSONEntries
      (default (match jconfig_Allowlist wrapper with [] => false | _ => true end) (jconfig_Enabled wrapper))
      (jconfig_Allowlist wrapper).

(** [strings.LastIndexAny(s, chars)], as what stands before and after that byte. *)
Fixpoint split_last_any (chars s : string) : option (string * string) :=
  match s with
  | EmptyString => None
  | String c rest =>
      match split_last_any chars rest with
      | Some (before, after) => Some (String c before, after)
      | None => if in_cutset chars c then Some (EmptyString, rest) else None
      end
  end.

Definition concise_scope (index : nat) (scope : string) : result bool :=
  if existsb (λ s, scope == s) ["namespaced"; "namespace"; "ns"] then Ok true
  else if existsb (λ s, scope == s) ["cluster"; "cluster-scoped"; "clusterscoped"] then Ok false
  else Err (Errorf ("allowlist entry " +:+ Itoa (Z.of_nat index) +:+ ": unsupported scope " +:+ Quote scope)).

Definition concise_entry (index : nat) (value : string) : result AllowlistEntry :=
  '(path, namespaced) ← match split_last_any ":@" value with
                        | None => Ok (value, true)
                        | Some (before, after) =>
                            namespaced ← concise_scope index (ToLower (TrimSpace after));
                            Ok (TrimSpace before, namespaced)
                        end;
  match split_on (byte_of_code 47) path with
  | [group; version; resource] =>
      Ok (mkAllowlistEntry (TrimSpace group) (TrimSpace version) [TrimSpace resource] namespaced)
  | _ => Err (Errorf ("allowlist entry " +:+ Itoa (Z.of_nat index) +:+ ": expected group/version/resource, got " +:+ Quote value))
  end.

Fixpoint concise_entries (index : nat) (parts : list string) : result (list AllowlistEntry) :=
  match parts with
  | [] => Ok []
  | part :: rest =>
      let value := TrimSpace part in
      if value == "" then concise_entries (S index) rest
      else
        entry ← concise_entry index value;
        entries ← concise_entries (S index) rest;
        Ok (entry :: entries)
  end.

Definition entry_separator (c : Ascii.ascii) : bool :=
  let n := byte_code c in (n =? 44) || (n =? 59) || (n =? 10) || (n =? 13).
Definition parseConciseConfig (raw : string) : result ManagedConfig :=
  entries ← concise_entries 0 (FieldsFunc raw entry_separator);
  normalizeConfig (mkManagedConfig (match entries with [] => false | _ => true end) entries).

Definition ParseConfig (raw : string) : result ManagedConfig :=
  let raw := TrimSpace raw in
  if raw == "" then Ok (mkManagedConfig false [])
  else if HasPrefix raw "[" || HasPrefix raw "{" then parseJSONConfig raw
  else parseConciseConfig raw.

End Normalize.

Definition sample_names : ResourceNames :=
  {| GVRString := λ g, gvr_Group g +:+ "/" +:+ gvr_Version g +:+ ", Resource=" +:+ gvr_Resource g |}.

#[local] Existing Instance sample_names.

Example concise_ex :
  ParseConfig "s3.aws.upbound.io/v1beta1/buckets, s3.aws.upbound.io/v1beta1/bucketpolicies@ns; a.io/v1/x:cluster" =
  Ok (mkManagedConfig true
        [mkAllowlistEntry "a.io" "v1" ["x"] false;
         mkAllowlistEntry "s3.aws.upbound.io" "v1beta1" ["bucketpolicies"; "buckets"] true]).
Proof. vm_compute. reflexivity. Qed.

Example json_ex :
  ParseConfig (requote "{'allowlist': [{'apiGroup': 'a.io', 'version': 'v1', 'resources': ['x'], 'namespaced': false}]}") =
  Ok (mkManagedConfig true [mkAllowlistEntry "a.io" "v1" ["x"] false]).
Proof. vm_compute. reflexivity. Qed.

Example refused_ex :
  map ParseConfig ["a.io/v1/*"; "core/v1/pods"; "a.io/v1/x,a.io/v1/x:cluster"] =
  [Err (Contextf "allowlist entry 0 resource 0" (Errorf "resource must not contain wildcards"));
   Err (Contextf "allowlist entry 0" (Errorf "core API group is not allowed"));
   Err (Errorf "allowlist resource a.io/v1, Resource=x has conflicting namespaced values")].
Proof. vm_compute. reflexivity. Qed.

(** * What is accepted, and the one normal form *)

(** * What an allowlist says *)

Definition valid_segment (apiGroup : bool) (s : string) : Prop := validateSegment "" s apiGroup = Ok tt.

(** The rules of entries, as [normalizeConfig] reads them. *)
Definition entry_rules (entry : AllowlistEntry) : list resourceRule :=
  map (λ resource, mkRule (mkGVR (TrimSpace (allow_APIGroup entry)) (TrimSpace (allow_Version entry)) (TrimSpace resource))
                     (allow_Namespaced entry)) (allow_Resources entry).
Definition allowed_rules (config : ManagedConfig) : list resourceRule := flat_map entry_rules (managed_Allowlist config).

Definition valid_entry (entry : AllowlistEntry) : Prop :=
  valid_segment true (TrimSpace (allow_APIGroup entry)) ∧ valid_segment false (TrimSpace (allow_Version entry)) ∧
  allow_Resources entry ≠ [] ∧ Forall (λ resource, valid_segment false (TrimSpace resource)) (allow_Resources entry).

(** No resource is both namespaced and not. *)
Definition one_scope (rules : list resourceRule) : Prop :=
  ∀ gvr n1 n2, mkRule gvr n1 ∈ rules → mkRule gvr n2 ∈ rules → n1 = n2.

Definition acceptable (config : ManagedConfig) : Prop :=
  (managed_Enabled config = true → managed_Allowlist config ≠ []) ∧
  Forall valid_entry (managed_Allowlist config) ∧
  one_scope (allowed_rules config) ∧
  (size (list_to_set (map rule_gvr (allowed_rules config)) : gset GroupVersionResource) ≤ 128)%nat.

(** The normal form: an entry per group, version and scope, in order, with its resources in order. *)
Definition entry_key (entry : AllowlistEntry) : groupKey := (allow_APIGroup entry, allow_Version entry, allow_Namespaced entry).
Definition normal (config : ManagedConfig) : Prop :=
  increasing entry_key group_less (managed_Allowlist config) ∧
  Forall (λ entry, allow_Resources entry ≠ [] ∧ increasing id String.ltb (allow_Resources entry)) (managed_Allowlist config).

(** * Keys *)

#[export] Instance key_total_order : StrictTotalOrder group_less.
Proof.
  split.
  - intros [[g v] n]. unfold group_less. rewrite !String.eqb_refl. by destruct n.
  - intros [[g1 v1] n1] [[g2 v2] n2] [[g3 v3] n3]. unfold group_less.
    destruct (String.eqb_spec g1 g2) as [<-|H12]; cbn.
    + destruct (String.eqb_spec g1 g3) as [<-|H13]; cbn; [|done].
      destruct (String.eqb_spec v1 v2) as [<-|]; cbn.
      * destruct (String.eqb_spec v1 v3) as [<-|]; cbn; [by destruct n1, n2, n3 | done].
      * destruct (String.eqb_spec v2 v3) as [<-|]; cbn.
        -- destruct (String.eqb_spec v1 v2); cbn; [done|]. done.
        -- intros H1 H2. pose proof (ltb_trans _ _ _ H1 H2) as Hlt.
           destruct (String.eqb_spec v1 v3) as [<-|]; cbn; [|done]. by rewrite ltb_irrefl in Hlt.
    + destruct (String.eqb_spec g2 g3) as [<-|H23]; cbn.
      * destruct (String.eqb_spec g1 g2); cbn; done.
      * intros H1 H2. pose proof (ltb_trans _ _ _ H1 H2) as Hlt.
        destruct (String.eqb_spec g1 g3) as [<-|]; cbn; [|done]. by rewrite ltb_irrefl in Hlt.
  - intros [[g1 v1] n1] [[g2 v2] n2]. unfold group_less. rewrite (String.eqb_sym g2 g1), (String.eqb_sym v2 v1).
    destruct (String.eqb_spec g1 g2) as [<-|Hg]; cbn; [|by intros; destruct Hg; apply less_total].
    destruct (String.eqb_spec v1 v2) as [<-|Hv]; cbn; [|by intros; destruct Hv; apply less_total].
    by destruct n1, n2.
Qed.

Section Normalize.
Context `{ResourceNames}.

(** * What the loop collects *)

Definition key_of (rule : resourceRule) : groupKey :=
  (gvr_Group (rule_gvr rule), gvr_Version (rule_gvr rule), rule_namespaced rule).

(** [c] holds exactly the rules of [l]. *)
Record holds (c : collected) (l : list resourceRule) : Prop := {
  holds_scope gvr n : resourceScopes c !! gvr = Some n ↔ mkRule gvr n ∈ l;
  holds_group g v n rs : grouped c !! (g, v, n) = Some rs → ∀ r, r ∈ rs ↔ mkRule (mkGVR g v r) n ∈ l;
  holds_key rule : rule ∈ l → is_Some (grouped c !! key_of rule)
}.

Lemma holds_one_scope c l : holds c l → one_scope l.
Proof. intros [Hs _ _] gvr n1 n2 H1%Hs H2%Hs. congruence. Qed.

Lemma holds_empty : holds (mkCollected ∅ ∅) [].
Proof.
  split; cbn.
  - intros gvr n. rewrite lookup_empty. split; [done | by intros ?%elem_of_nil].
  - intros g v n rs Hk. by rewrite lookup_empty in Hk.
  - by intros rule ?%elem_of_nil.
Qed.

(** A new group holds no rule yet. *)
Lemma holds_touch c l key :
  holds c l → holds (mkCollected (<[key := default ∅ (grouped c !! key)]> (grouped c)) (resourceScopes c)) l.
Proof.
  intros [Hs Hg Hk]. split; cbn; [done | |].
  - intros g v n rs [[-> <-]|[Hne Hk']]%lookup_insert_Some r; [|by apply Hg].
    destruct (grouped c !! (g, v, n)) as [rs|] eqn:Hlook; cbn; [by apply Hg|]. split; [by intros ?%elem_of_empty|].
    intros Hin. apply Hk in Hin as [? Hin]. unfold key_of in Hin. cbn in Hin. congruence.
  - intros rule Hin. destruct (decide (key = key_of rule)) as [->|Hne]; [by rewrite lookup_insert_eq|].
    rewrite lookup_insert_ne by done. by apply Hk.
Qed.

Lemma holds_add c l g v n r :
  holds c l → (∀ n', resourceScopes c !! mkGVR g v r = Some n' → n' = n) →
  holds (mkCollected (<[(g, v, n) := {[ r ]} ∪ default ∅ (grouped c !! (g, v, n))]> (grouped c))
           (<[mkGVR g v r := n]> (resourceScopes c)))
        (l ++ [mkRule (mkGVR g v r) n]).
Proof.
  intros Hh Hprior. pose proof Hh as [Hs Hg Hk]. split; cbn.
  - intros gvr n'. rewrite elem_of_app, list_elem_of_singleton. split.
    + intros [[-> ->]|[Hne Hin]]%lookup_insert_Some; [by right | left; by apply Hs].
    + intros [Hin|[= -> ->]]; [|by rewrite lookup_insert_eq]. apply Hs in Hin.
      destruct (decide (mkGVR g v r = gvr)) as [<-|]; [rewrite lookup_insert_eq; f_equal; symmetry; by apply Hprior |].
      by rewrite lookup_insert_ne.
  - intros g' v' n' rs [[[= -> -> ->] <-]|[Hne Hk']]%lookup_insert_Some r'; rewrite elem_of_app, list_elem_of_singleton.
    + rewrite elem_of_union, elem_of_singleton.
      pose proof (holds_group _ _ (holds_touch _ _ (g', v', n') Hh) g' v' n' (default ∅ (grouped c !! (g', v', n')))) as Hrs.
      cbn in Hrs. rewrite lookup_insert_eq in Hrs. rewrite (Hrs eq_refl). naive_solver.
    + rewrite (Hg _ _ _ _ Hk' r'). split; [by left|]. intros [Hin|Heq]; [done|]. destruct Hne. congruence.
  - intros rule [Hin|Hin]%elem_of_app; [|apply list_elem_of_singleton in Hin as ->; unfold key_of; cbn; by rewrite lookup_insert_eq].
    destruct (decide ((g, v, n) = key_of rule)) as [->|Hne]; [by rewrite lookup_insert_eq|].
    rewrite lookup_insert_ne by done. by apply Hk.
Qed.

(** Whether a segment is valid does not depend on what it is called. *)
Lemma validateSegment_name name s apiGroup : validateSegment name s apiGroup = Ok tt ↔ valid_segment apiGroup s.
Proof.
  unfold valid_segment, validateSegment. rewrite !unless_ok. destruct (List.find _ _); cbn; [naive_solver|].
  unfold unless. destruct (negb (_ || _)); naive_solver.
Qed.

Definition new_rules g v n (resources : list string) : list resourceRule :=
  map (λ r, mkRule (mkGVR g v (TrimSpace r)) n) resources.

Lemma one_scope_prefix l l' : one_scope (l ++ l') → one_scope l.
Proof. intros Ho gvr n1 n2 H1 H2. apply (Ho gvr); apply elem_of_app; by left. Qed.

Lemma collect_resources_spec index resourceIndex g v n resources c l :
  holds c l → grouped c !! (g, v, n) ≠ None →
  (∀ c', collect_resources index resourceIndex g v n resources c = Ok c' →
     Forall (λ r, valid_segment false (TrimSpace r)) resources ∧ holds c' (l ++ new_rules g v n resources)) ∧
  (Forall (λ r, valid_segment false (TrimSpace r)) resources → one_scope (l ++ new_rules g v n resources) →
   ∃ c', collect_resources index resourceIndex g v n resources c = Ok c').
Proof.
  revert resourceIndex c l. induction resources as [|raw resources IH]; intros i c l Hc Hgroup; cbn [collect_resources new_rules map].
  { rewrite app_nil_r. split; [intros c' [= <-]; by split | by eexists]. }
  set (gvr := mkGVR g v (TrimSpace raw)). set (c1 := mkCollected _ _).
  assert ((∀ n', resourceScopes c !! gvr = Some n' → n' = n) → holds c1 (l ++ [mkRule gvr n])) as Hc1 by (intros; by apply holds_add).
  assert (grouped c1 !! (g, v, n) ≠ None) as Hg1 by (unfold c1; cbn; by rewrite lookup_insert_eq).
  split.
  - intros c' Hrun. apply bind_ok in Hrun as ([] & Hvalid & Hrun). apply with_context_ok, validateSegment_name in Hvalid.
    apply unless_ok in Hrun as [Hscope Hrun].
    assert (∀ n', resourceScopes c !! gvr = Some n' → n' = n) as Hprior.
    { intros n' Hn. fold gvr in Hscope. rewrite Hn in Hscope. by apply eqb_prop. }
    destruct (IH (S i) c1 _ (Hc1 Hprior) Hg1) as [Hrest _]. destruct (Hrest c' Hrun) as [Hvalid' Hh].
    split; [by constructor|]. by rewrite <- app_assoc in Hh.
  - intros [Hvalid Hrest]%Forall_cons Hone. apply validateSegment_name with (name := "resource") in Hvalid.
    unfold resource_context. rewrite Hvalid. cbn [with_context mbind result_bind]. fold gvr.
    assert (∀ n', resourceScopes c !! gvr = Some n' → n' = n) as Hprior.
    { intros n' Hn%(holds_scope _ _ Hc). apply (Hone gvr); apply elem_of_app; [by left | right; left]. }
    destruct (IH (S i) c1 _ (Hc1 Hprior) Hg1) as [_ Htotal].
    destruct (Htotal Hrest) as [c' Hrun]; [by rewrite <- app_assoc|]. exists c'. apply unless_ok. split; [|exact Hrun].
    destruct (resourceScopes c !! gvr) as [n'|] eqn:Hn; [|done]. rewrite (Hprior n' eq_refl). apply eqb_reflx.
Qed.

(** Every group was made for a rule. *)
Definition used (c : collected) (l : list resourceRule) : Prop :=
  ∀ key, grouped c !! key ≠ None → ∃ rule, rule ∈ l ∧ key_of rule = key.

Lemma collect_resources_groups index resourceIndex g v n resources c c' key :
  collect_resources index resourceIndex g v n resources c = Ok c' → grouped c' !! key ≠ None →
  grouped c !! key ≠ None ∨ key = (g, v, n).
Proof.
  revert resourceIndex c. induction resources as [|raw resources IH]; intros i c; cbn [collect_resources].
  { intros [= <-]. by left. }
  intros Hrun Hkey. apply bind_ok in Hrun as ([] & _ & Hrun). apply unless_ok in Hrun as [_ Hrun].
  destruct (IH _ _ Hrun Hkey) as [Hold|]; [|by right]. cbn in Hold.
  destruct (decide (key = (g, v, n))) as [|Hne]; [by right|]. left. by rewrite lookup_insert_ne in Hold.
Qed.

Lemma used_entry c c' l index entry :
  let g := TrimSpace (allow_APIGroup entry) in let v := TrimSpace (allow_Version entry) in
  let key := (g, v, allow_Namespaced entry) in
  used c l → allow_Resources entry ≠ [] →
  collect_resources index 0 g v (allow_Namespaced entry) (allow_Resources entry)
    (mkCollected (<[key := default ∅ (grouped c !! key)]> (grouped c)) (resourceScopes c)) = Ok c' →
  used c' (l ++ entry_rules entry).
Proof.
  intros g v key Hused Hne Hrun key' Hkey'.
  destruct (decide (key' = key)) as [->|Hother].
  - destruct (allow_Resources entry) as [|r rest] eqn:Hr; [done|].
    exists (mkRule (mkGVR g v (TrimSpace r)) (allow_Namespaced entry)). split; [|done].
    apply elem_of_app. right. unfold entry_rules. rewrite Hr. left.
  - destruct (collect_resources_groups _ _ _ _ _ _ _ _ _ Hrun Hkey') as [Hold|]; [|done]. cbn in Hold.
    rewrite lookup_insert_ne in Hold by done. destruct (Hused _ Hold) as (rule & Hin & Hk). exists rule.
    split; [|done]. apply elem_of_app. by left.
Qed.

Lemma collect_entries_sound index entries c c' l :
  holds c l → used c l → collect_entries index entries c = Ok c' →
  Forall valid_entry entries ∧ holds c' (l ++ flat_map entry_rules entries) ∧ used c' (l ++ flat_map entry_rules entries).
Proof.
  revert index c l. induction entries as [|entry entries IH]; intros index c l Hc Hused; cbn [collect_entries flat_map].
  { intros [= <-]. by rewrite app_nil_r. }
  intros Hrun. repeat (apply bind_ok in Hrun as ([] & Hcheck & Hrun); apply with_context_ok in Hcheck;
    try apply validateSegment_name in Hcheck; revert Hcheck). intros Hg Hv Hne.
  assert (allow_Resources entry ≠ []) as Hne' by (by destruct (allow_Resources entry)).
  apply bind_ok in Hrun as (c1 & Hcollect & Hrun).
  edestruct collect_resources_spec as [Hsound _]; [apply holds_touch, Hc | | destruct (Hsound _ Hcollect) as [Hvalid Hc1]].
  { cbn. by rewrite lookup_insert_eq. }
  pose proof (used_entry _ _ _ _ _ Hused Hne' Hcollect) as Hused1.
  destruct (IH _ _ _ Hc1 Hused1 Hrun) as (Hentries & Hh & Hu). split; [by constructor; [split_and!|]|].
  by rewrite app_assoc.
Qed.

Lemma collect_entries_total index entries c l :
  holds c l → Forall valid_entry entries → one_scope (l ++ flat_map entry_rules entries) →
  ∃ c', collect_entries index entries c = Ok c'.
Proof.
  revert index c l. induction entries as [|entry entries IH]; intros index c l Hc; cbn [collect_entries flat_map]; [eauto|].
  intros [(Hg & Hv & Hne & Hvalid) Hentries]%Forall_cons Hone.
  apply validateSegment_name with (name := "apiGroup") in Hg. apply validateSegment_name with (name := "version") in Hv.
  unfold entry_context. rewrite Hg, Hv. destruct (allow_Resources entry) as [|r rest] eqn:Hr; [done|]. rewrite <- Hr in *.
  cbn [with_context mbind result_bind unless].
  rewrite app_assoc in Hone.
  edestruct collect_resources_spec as [Hsound Htotal]; [apply holds_touch, Hc | cbn; by rewrite lookup_insert_eq |].
  destruct (Htotal Hvalid (one_scope_prefix _ _ Hone)) as [c1 Hcollect]. rewrite Hcollect. cbn [mbind result_bind].
  destruct (Hsound _ Hcollect) as [_ Hc1]. by eapply IH.
Qed.

(** * The normal form *)

Lemma elem_of_entries c entry :
  entry ∈ normalized_entries c ↔ ∃ g v n rs, grouped c !! (g, v, n) = Some rs ∧ entry = entry_of (g, v, n, rs).
Proof.
  unfold normalized_entries. split.
  - intros ([[[g v] n] rs] & -> & Hin%elem_of_sort_slice%elem_of_map_to_list)%list_elem_of_fmap. by exists g, v, n, rs.
  - intros (g & v & n & rs & Hk & ->). apply list_elem_of_fmap. exists (g, v, n, rs). split; [done|].
    by apply elem_of_sort_slice, elem_of_map_to_list.
Qed.

Lemma elem_of_rules config rule :
  rule ∈ configRules config ↔
  ∃ entry, entry ∈ managed_Allowlist config ∧ key_of rule = entry_key entry ∧ gvr_Resource (rule_gvr rule) ∈ allow_Resources entry.
Proof.
  unfold configRules. rewrite list_elem_of_In, in_flat_map. split.
  - intros (entry & Hin & (r & <- & Hr)%in_map_iff). exists entry. by rewrite !list_elem_of_In.
  - intros (entry & Hin & Hkey & Hr). exists entry. rewrite <- list_elem_of_In. split; [done|]. apply in_map_iff.
    exists (gvr_Resource (rule_gvr rule)). rewrite <- list_elem_of_In. split; [|done].
    destruct rule as [[g v r] n]. unfold key_of, entry_key in Hkey. cbn in *. by injection Hkey as -> -> ->.
Qed.

Lemma normalized_normal enabled c l :
  holds c l → used c l → normal (mkManagedConfig enabled (normalized_entries c)).
Proof.
  intros Hc Hused. split; cbn [managed_Allowlist].
  - unfold normalized_entries.
    assert (increasing (λ x : groupKey * gset string, x.1) group_less
              (sort_slice (λ x y : groupKey * gset string, group_less x.1 y.1) (map_to_list (grouped c)))) as Hs.
    { apply (sort_increasing (λ x : groupKey * gset string, x.1) group_less). apply NoDup_fst_map_to_list. }
    unfold increasing in *. induction Hs as [|[[[g v] n] rs] groups Hs IH Hx]; cbn; [constructor|]. constructor; [done|].
    apply Forall_map. eapply Forall_impl; [exact Hx|]. by intros [[[g' v'] n'] rs'].
  - apply Forall_forall. intros entry (g & v & n & rs & Hk & ->)%elem_of_entries. cbn. split.
    + destruct (Hused (g, v, n)) as ([[g' v' r] n'] & Hin & [= -> -> ->]); [by rewrite Hk|].
      apply (holds_group _ _ Hc _ _ _ _ Hk) in Hin. intros Hnil. apply elem_of_elements in Hin.
      apply (elem_of_sort_slice String.ltb) in Hin. rewrite Hnil in Hin. by apply elem_of_nil in Hin.
    + apply (sort_increasing id String.ltb). rewrite list_fmap_id. apply NoDup_elements.
Qed.

Lemma normalized_rules enabled c l rule :
  holds c l → rule ∈ configRules (mkManagedConfig enabled (normalized_entries c)) ↔ rule ∈ l.
Proof.
  intros Hc. rewrite elem_of_rules. cbn [managed_Allowlist]. destruct rule as [[g v r] n]. cbn. split.
  - intros (entry & (g' & v' & n' & rs & Hk & ->)%elem_of_entries & [= <- <- <-] & Hr). cbn in Hr.
    by apply (holds_group _ _ Hc _ _ _ _ Hk), elem_of_elements, (elem_of_sort_slice String.ltb).
  - intros Hin. destruct (holds_key _ _ Hc _ Hin) as [rs Hk]. exists (entry_of (g, v, n, rs)).
    split; [apply elem_of_entries; by exists g, v, n, rs|]. split; [done|].
    by apply (elem_of_sort_slice String.ltb), elem_of_elements, (holds_group _ _ Hc _ _ _ _ Hk).
Qed.

(** An entry of one normal form is an entry of any other with the same rules. *)
Lemma normal_entry config1 config2 entry :
  normal config1 → normal config2 → (∀ rule, rule ∈ configRules config1 ↔ rule ∈ configRules config2) →
  entry ∈ managed_Allowlist config1 → entry ∈ managed_Allowlist config2.
Proof.
  intros [Hs1 Hr1] [Hs2 Hr2] Hrules Hin. rewrite Forall_forall in Hr1, Hr2.
  destruct (Hr1 _ Hin) as [Hne Hinc]. set (rule r := mkRule (mkGVR (allow_APIGroup entry) (allow_Version entry) r) (allow_Namespaced entry)).
  assert (∀ r, r ∈ allow_Resources entry → ∃ entry', entry' ∈ managed_Allowlist config2 ∧ entry_key entry = entry_key entry' ∧
    r ∈ allow_Resources entry') as Hother.
  { intros r Hr. assert (rule r ∈ configRules config1) as Hrule%Hrules by (apply elem_of_rules; by exists entry).
    by apply elem_of_rules in Hrule. }
  destruct (allow_Resources entry) as [|r0 rest] eqn:Hres; [done|]. rewrite <- Hres in *. clear Hne.
  destruct (Hother r0) as (entry2 & Hin2 & Hkey & Hr0); [rewrite Hres; left|].
  assert (∀ e1 e2 config, increasing entry_key group_less (managed_Allowlist config) → e1 ∈ managed_Allowlist config →
    e2 ∈ managed_Allowlist config → entry_key e1 = entry_key e2 → e1 = e2) as Hsame.
  { intros e1 e2 config Hs He1 He2 He. apply increasing_NoDup in Hs; [|apply _].
    apply list_elem_of_lookup in He1 as [i He1], He2 as [j He2].
    assert (i = j) as ->; [|congruence]. eapply (NoDup_lookup (entry_key <$> _) i j (entry_key e1)); [exact Hs | |].
    - by rewrite list_lookup_fmap, He1.
    - by rewrite list_lookup_fmap, He2, He. }
  assert (entry = entry2) as ->; [|done].
  assert (allow_Resources entry = allow_Resources entry2) as Hres2.
  { apply (increasing_unique id String.ltb); [exact Hinc | by destruct (Hr2 _ Hin2) |]. intros r. split.
    - intros Hr. destruct (Hother r Hr) as (entry3 & Hin3 & Hkey3 & Hr3).
      by rewrite (Hsame entry2 entry3 config2) by (done || congruence).
    - intros Hr. assert (rule r ∈ configRules config2) as Hrule%Hrules by (apply elem_of_rules; by exists entry2).
      apply elem_of_rules in Hrule as (entry3 & Hin3 & Hkey3 & Hr3).
      by rewrite (Hsame entry entry3 config1) by done. }
  destruct entry, entry2. unfold entry_key in Hkey. cbn in *. congruence.
Qed.

Lemma normal_unique config1 config2 :
  normal config1 → normal config2 → managed_Enabled config1 = managed_Enabled config2 →
  (∀ rule, rule ∈ configRules config1 ↔ rule ∈ configRules config2) → config1 = config2.
Proof.
  intros H1 H2 Henabled Hrules. destruct config1 as [enabled1 l1], config2 as [enabled2 l2]. cbn in Henabled. subst enabled2.
  f_equal. apply (increasing_unique entry_key group_less); [apply H1 | apply H2 |]. intros entry. split.
  - by apply (normal_entry (mkManagedConfig enabled1 l1) (mkManagedConfig enabled1 l2)).
  - apply (normal_entry (mkManagedConfig enabled1 l2) (mkManagedConfig enabled1 l1)); [done..|]. intros rule. symmetry. apply Hrules.
Qed.

Lemma holds_size c l : holds c l → size (resourceScopes c) = size (list_to_set (map rule_gvr l) : gset GroupVersionResource).
Proof.
  intros Hc. rewrite <- size_dom. f_equal. apply set_eq. intros gvr.
  rewrite elem_of_dom, elem_of_list_to_set, list_elem_of_fmap. split.
  - intros [n Hn%(holds_scope _ _ Hc)]. by exists (mkRule gvr n).
  - intros ([gvr' n] & -> & Hin). exists n. by apply (holds_scope _ _ Hc).
Qed.

(** [normalizeConfig] answers a configuration exactly when the allowlist is acceptable, neither enabled and
    empty nor with an invalid segment, two scopes of one resource or more than 128 resources, and the answer is
    the one configuration in normal form with the same rules. *)
Theorem normalizeConfig_spec config config' :
  normalizeConfig config = Ok config' ↔
  acceptable config ∧ normal config' ∧ managed_Enabled config' = managed_Enabled config ∧
  ∀ rule, rule ∈ configRules config' ↔ rule ∈ allowed_rules config.
Proof.
  assert (∀ c, collect_entries 0 (managed_Allowlist config) (mkCollected ∅ ∅) = Ok c →
    Forall valid_entry (managed_Allowlist config) ∧ holds c (allowed_rules config) ∧ used c (allowed_rules config)) as Hsound.
  { intros c Hrun. apply (collect_entries_sound 0 _ (mkCollected ∅ ∅) c []); [apply holds_empty | | exact Hrun].
    intros key Hkey. cbn in Hkey. by rewrite lookup_empty in Hkey. }
  unfold normalizeConfig. rewrite unless_ok. split.
  - intros (Hempty & (c & Hcollect & Hrun)%bind_ok). apply unless_ok in Hrun as [Hsize [= <-]].
    destruct (Hsound c Hcollect) as (Hvalid & Hc & Hused). split_and!; [| by eapply normalized_normal | done | intros; by apply normalized_rules].
    split_and!; [|exact Hvalid | by eapply holds_one_scope | rewrite <- (holds_size _ _ Hc); lia].
    intros Henabled Hnil. by rewrite Henabled, Hnil in Hempty.
  - intros ((Hempty & Hvalid & Hone & Hsize) & Hnormal & Henabled & Hrules). split.
    { destruct (managed_Enabled config), (managed_Allowlist config); try done. by destruct Hempty. }
    destruct (collect_entries_total 0 _ (mkCollected ∅ ∅) [] holds_empty Hvalid Hone) as [c Hcollect].
    destruct (Hsound c Hcollect) as (_ & Hc & Hused). rewrite Hcollect. cbn [mbind result_bind].
    apply unless_ok. split; [rewrite (holds_size _ _ Hc); lia|]. f_equal. apply normal_unique; [by eapply normalized_normal | done | done |].
    intros rule. rewrite Hrules. by apply normalized_rules.
Qed.

(** * Parsed configurations *)

(** A byte outside ASCII is part of a rune outside ASCII. *)
Lemma first_rune_high c s : 128 ≤ byte_code c → 128 ≤ (first_rune c s).1.
Proof.
  intros Hc. unfold first_rune, between, continuation, replacement_char. cbv zeta.
  replace (byte_code c <? 128) with false by lia.
  destruct ((194 <=? _) && _) eqn:H2; [|destruct ((224 <=? _) && _) eqn:H3; [|destruct ((240 <=? _) && _) eqn:H4; [|cbn; lia]]].
  - destruct s as [|c1 s]; [cbn; lia|]. destruct ((128 <=? _) && _) eqn:H1; cbn [fst]; lia.
  - destruct s as [|c1 [|c2 s]]; [cbn; lia..|]. destruct (((_ <=? byte_code c1) && _) && _) eqn:H1; cbn [fst]; [|lia].
    destruct (byte_code c =? 224) eqn:H224; lia.
  - destruct s as [|c1 [|c2 [|c3 s]]]; [cbn; lia..|]. destruct ((((_ <=? byte_code c1) && _) && _) && _) eqn:H1; cbn [fst]; [|lia].
    destruct (byte_code c =? 240) eqn:H240; lia.
Qed.

Lemma segment_bytes s :
  Forall (λ r, segment_rune r = true) (runes s) →
  Forall (λ c, segment_rune (byte_code c) = true) (String.list_ascii_of_string s).
Proof.
  unfold runes. induction s as [|c s IH]; [constructor|]. cbn [runes_from String.list_ascii_of_string].
  destruct (first_rune c s) as [r more] eqn:Hfirst. intros [Hr Hrest]%Forall_cons.
  assert (byte_code c < 128) as Hlow.
  { destruct (Z.le_gt_cases 128 (byte_code c)) as [Hc|]; [|done]. apply (first_rune_high c s) in Hc. rewrite Hfirst in Hc.
    cbn in Hc. unfold segment_rune in Hr. lia. }
  unfold first_rune in Hfirst. cbv zeta in Hfirst. replace (byte_code c <? 128) with true in Hfirst by lia.
  injection Hfirst as <- <-. constructor; [done | by apply IH].
Qed.

Lemma trim_left_same drop s : Forall (λ c, drop c = false) (String.list_ascii_of_string s) → trim_left drop s = s.
Proof. destruct s as [|c s]; [done|]. cbn. intros [-> _]%Forall_cons. done. Qed.

Lemma string_rev_rev s : string_rev (string_rev s) = s.
Proof.
  unfold string_rev. rewrite String.list_ascii_of_string_of_list_ascii, rev_involutive. apply String.string_of_list_ascii_of_string.
Qed.

Lemma trim_same drop s : Forall (λ c, drop c = false) (String.list_ascii_of_string s) → trim_both drop s = s.
Proof.
  intros Hs. unfold trim_both, trim_right. rewrite (trim_left_same drop s Hs), (trim_left_same drop (string_rev s)).
  - apply string_rev_rev.
  - unfold string_rev. rewrite String.list_ascii_of_string_of_list_ascii. by apply Forall_rev.
Qed.

Lemma valid_runes apiGroup s : valid_segment apiGroup s → Forall (λ r, segment_rune r = true) (runes s).
Proof.
  unfold valid_segment, validateSegment. rewrite !unless_ok. intros (_ & _ & _ & Hrun).
  destruct (List.find _ (runes s)) eqn:Hfind; [done|]. apply Forall_forall. intros r Hr.
  apply list_elem_of_In, (find_none _ _ Hfind) in Hr. by apply negb_false_iff in Hr.
Qed.

Lemma valid_trimmed apiGroup s : valid_segment apiGroup s → TrimSpace s = s.
Proof.
  intros Hs%valid_runes%segment_bytes. apply trim_same. eapply Forall_impl; [exact Hs|]. intros c Hc. cbn in Hc.
  unfold segment_rune in Hc. unfold is_space. lia.
Qed.

(** Rules with valid segments. *)
Definition valid_rule (rule : resourceRule) : Prop :=
  valid_segment true (gvr_Group (rule_gvr rule)) ∧ valid_segment false (gvr_Version (rule_gvr rule)) ∧
  valid_segment false (gvr_Resource (rule_gvr rule)).

Lemma valid_allowed config rule : Forall valid_entry (managed_Allowlist config) → rule ∈ allowed_rules config → valid_rule rule.
Proof.
  intros Hentries (entry & Hin & (r & <- & Hr)%in_map_iff)%list_elem_of_In%in_flat_map.
  rewrite Forall_forall in Hentries. apply list_elem_of_In in Hin, Hr. destruct (Hentries _ Hin) as (Hg & Hv & _ & Hres).
  rewrite Forall_forall in Hres. by split_and!; [| |apply Hres].
Qed.

Lemma normal_entries_valid config :
  normal config → (∀ rule, rule ∈ configRules config → valid_rule rule) →
  Forall valid_entry (managed_Allowlist config) ∧ allowed_rules config = configRules config.
Proof.
  intros [_ Hres] Hvalid. rewrite Forall_forall in Hres.
  assert (∀ entry, entry ∈ managed_Allowlist config → allow_Resources entry ≠ [] ∧
    valid_segment true (allow_APIGroup entry) ∧ valid_segment false (allow_Version entry) ∧
    ∀ r, r ∈ allow_Resources entry → valid_segment false r) as Hparts.
  { intros entry Hin. destruct (Hres _ Hin) as [Hne _].
    assert (∀ r, r ∈ allow_Resources entry →
      valid_rule (mkRule (mkGVR (allow_APIGroup entry) (allow_Version entry) r) (allow_Namespaced entry))) as Hrules.
    { intros r Hr. apply Hvalid, elem_of_rules. by exists entry. }
    split; [done|]. destruct (allow_Resources entry) as [|r0 rest]; [done|].
    destruct (Hrules r0) as (Hg & Hv & _); [left|]. split_and!; [done..|]. intros r Hr. by destruct (Hrules r Hr) as (_ & _ & ?). }
  split.
  - apply Forall_forall. intros entry Hin. destruct (Hparts entry Hin) as (Hne & Hg & Hv & Hr). unfold valid_entry.
    rewrite (valid_trimmed _ _ Hg), (valid_trimmed _ _ Hv). split_and!; [done..|]. apply Forall_forall. intros r Hin'.
    rewrite (valid_trimmed _ _ (Hr _ Hin')). by apply Hr.
  - unfold allowed_rules, configRules, entry_rules. rewrite !flat_map_concat_map. f_equal. apply map_ext_in. intros entry Hin.
    apply list_elem_of_In in Hin. destruct (Hparts entry Hin) as (_ & Hg & Hv & Hr).
    rewrite (valid_trimmed _ _ Hg), (valid_trimmed _ _ Hv). apply map_ext_in. intros r Hin'. apply list_elem_of_In in Hin'.
    by rewrite (valid_trimmed _ _ (Hr _ Hin')).
Qed.

Lemma normalizeConfig_idempotent config config' : normalizeConfig config = Ok config' → normalizeConfig config' = Ok config'.
Proof.
  intros ((Hempty & Hvalid & Hone & Hsize) & Hnormal & Henabled & Hrules)%normalizeConfig_spec.
  destruct (normal_entries_valid config' Hnormal) as [Hvalid' Hsame].
  { intros rule Hin%Hrules. by eapply valid_allowed. }
  apply normalizeConfig_spec. unfold acceptable. rewrite Hsame. split_and!; [| exact Hvalid' | | | done..].
  - rewrite Henabled. intros He Hnil. destruct (managed_Allowlist config) as [|entry l] eqn:Hl; [exact (Hempty He eq_refl)|].
    apply Forall_cons in Hvalid as [(_ & _ & Hne & _) _]. destruct (allow_Resources entry) as [|r rest] eqn:Hr; [done|].
    assert (mkRule (mkGVR (TrimSpace (allow_APIGroup entry)) (TrimSpace (allow_Version entry)) (TrimSpace r))
              (allow_Namespaced entry) ∈ configRules config') as Hin.
    { apply Hrules. unfold allowed_rules. rewrite Hl. cbn. unfold entry_rules. rewrite Hr. left. }
    unfold configRules in Hin. rewrite Hnil in Hin. by apply elem_of_nil in Hin.
  - intros gvr n1 n2 H1%Hrules H2%Hrules. by eapply Hone.
  - replace (list_to_set (map rule_gvr (configRules config')) : gset GroupVersionResource)
      with (list_to_set (map rule_gvr (allowed_rules config)) : gset GroupVersionResource); [done|].
    apply set_eq. intros gvr. rewrite !elem_of_list_to_set, !list_elem_of_fmap. naive_solver.
Qed.

Lemma valid_segment_plain apiGroup s :
  valid_segment apiGroup s → s ≠ "" ∧ Contains s "*" = false ∧ (apiGroup = true → EqualFold s "core" = false).
Proof.
  unfold valid_segment, validateSegment. rewrite !unless_ok. intros (Hne & Hstar & Hcore & _). split_guards.
  split_and!; [done | done |]. intros ->. cbn in Hcore. by destruct (EqualFold s "core").
Qed.

Lemma parsed_from raw config : ParseConfig raw = Ok config → ∃ config0, normalizeConfig config0 = Ok config.
Proof.
  unfold ParseConfig, parseJSONConfig, configFromJSONEntries, parseConciseConfig. cbv zeta.
  destruct (TrimSpace raw == ""); [intros [= <-]; exists (mkManagedConfig false []); by vm_compute|].
  destruct (_ || _); [destruct (HasPrefix _ _)|]; intros Hrun.
  - apply bind_ok in Hrun as (entries & _ & Hrun). apply bind_ok in Hrun as (l & _ & Hrun). eauto.
  - apply bind_ok in Hrun as (wrapper & _ & Hrun). apply bind_ok in Hrun as (l & _ & Hrun). eauto.
  - apply bind_ok in Hrun as (l & _ & Hrun). eauto.
Qed.

(** Whatever text the allowlist is parsed from: no rule names a wildcard, an empty segment or the core API
    group; no resource has two scopes; there are at most 128 resources; discovery is not enabled without a rule;
    and the configuration is in normal form, so that normalizing it again, as discovery does, changes nothing. *)
Theorem ParseConfig_safe raw config :
  ParseConfig raw = Ok config →
  (∀ g v r n, mkRule (mkGVR g v r) n ∈ configRules config →
     (∀ s, s ∈ [g; v; r] → s ≠ "" ∧ Contains s "*" = false) ∧ EqualFold g "core" = false ∧
     mkRule (mkGVR g v r) (negb n) ∉ configRules config) ∧
  (size (list_to_set (map rule_gvr (configRules config)) : gset GroupVersionResource) ≤ 128)%nat ∧
  (managed_Enabled config = true → managed_Allowlist config ≠ []) ∧
  normal config ∧ normalizeConfig config = Ok config.
Proof.
  intros (config0 & Hrun)%parsed_from. pose proof (normalizeConfig_idempotent _ _ Hrun) as Hid.
  assert (∀ rule, rule ∈ configRules config → valid_rule rule) as Hvalid.
  { apply normalizeConfig_spec in Hrun as ((_ & Hvalid & _) & _ & _ & Hrules). intros rule Hin%Hrules. by eapply valid_allowed. }
  pose proof Hid as ((Hempty & _ & Hone & Hsize) & Hnormal & _ & _)%normalizeConfig_spec.
  destruct (normal_entries_valid config Hnormal Hvalid) as [_ Hsame]. rewrite Hsame in Hone, Hsize.
  split_and!; [|done..]. intros g v r n Hin. destruct (Hvalid _ Hin) as (Hg & Hv & Hr). cbn in Hg, Hv, Hr.
  split_and!; [|by apply valid_segment_plain in Hg as (_ & _ & ->)|].
  - intros s [->|[->|[->|[]%elem_of_nil]%elem_of_cons]%elem_of_cons]%elem_of_cons;
      [apply valid_segment_plain in Hg | apply valid_segment_plain in Hv | apply valid_segment_plain in Hr]; naive_solver.
  - intros Hin'. specialize (Hone _ _ _ Hin Hin'). by destruct n.
Qed.
End Normalize.

Lemma ParseConfig_safe_witness :
  let config := mkManagedConfig true [mkAllowlistEntry "a.io" "v1" ["x"] false] in
  (∀ g v r n, mkRule (mkGVR g v r) n ∈ configRules config →
     (∀ s, s ∈ [g; v; r] → s ≠ "" ∧ Contains s "*" = false) ∧ EqualFold g "core" = false ∧
     mkRule (mkGVR g v r) (negb n) ∉ configRules config) ∧
  (size (list_to_set (map rule_gvr (configRules config)) : gset GroupVersionResource) ≤ 128)%nat ∧
  (managed_Enabled config = true → managed_Allowlist config ≠ []) ∧
  normal config ∧ @normalizeConfig sample_names config = Ok config.
Proof. apply (@ParseConfig_safe sample_names " a.io/v1/x:cluster; "). vm_compute. reflexivity. Defined.
