(* ===== verification/ManagedSecurity.v ===== *)
(** Secrets and flaws of managed resources, [services/api/internal/managedresources/security.go]: what of an
    object's values is redacted, and which findings its state and its policies give rise to.

    A Go map is visited in the order its entries are listed in, about which nothing is assumed. The category of
    runes outside ASCII is a parameter. *)
From S2P Require Import Prelude GoLib Sha256 Runes Regex GoUrl GoDuration Core Kube ManagedResources.

Local Open Scope Z_scope.

(** Whether a rune outside ASCII is a letter or a digit, from the tables of [unicode]. *)
Class UnicodeTables := { unicode_alphanumeric : Z → bool }.

(** * Patterns *)

Definition class_ci (p : Z → bool) : Z → bool := fold_case p.
Definition letters_digits : list (Z * Z) := [(97, 122); (48, 57)].
Definition dot : regex := verbatim ".".

(** [(?i)\beyJ[a-z0-9_-]{8,}\.[a-z0-9_-]{8,}\.[a-z0-9_-]{8,}\b] *)
Definition jwtPattern : regex :=
  let part := Many false 8 (class_ci (either (ranges letters_digits) (any_of "_-"))) in
  sequence [WordEdge; any_case "eyJ"; part; dot; part; dot; part; WordEdge].
(** [\b(?:AKIA|ASIA)[A-Z0-9]{16}\b] *)
Definition awsAccessKeyPattern : regex :=
  sequence [WordEdge; one_of [verbatim "AKIA"; verbatim "ASIA"]; exactly 16 (ranges [(65, 90); (48, 57)]); WordEdge].
(** [(?i)\bbearer\s+[a-z0-9._~+/=-]{8,}] *)
Definition bearerPattern : regex :=
  sequence [WordEdge; any_case "bearer"; Many false 1 space_rune;
            Many false 8 (class_ci (either (ranges letters_digits) (any_of "._~+/=-")))].
(** [(?i)\b(?:password|passwd|token|api[_-]?key|client[_-]?secret|secret[_-]?access[_-]?key)\s*[:=]\s*[^\s,;]+] *)
Definition assignedSecretPattern : regex :=
  let link := optional (Chars (any_of "_-")) in
  sequence [WordEdge;
    one_of [any_case "password"; any_case "passwd"; any_case "token"; sequence [any_case "api"; link; any_case "key"];
            sequence [any_case "client"; link; any_case "secret"];
            sequence [any_case "secret"; link; any_case "access"; link; any_case "key"]];
    Many false 0 space_rune; Chars (any_of ":="); Many false 0 space_rune;
    Many false 1 (none_of (either space_rune (any_of ",;")))].
(** [(?i)\b[a-z][a-z0-9+.-]*://[^\s/@:]+:[^\s/@]+@] *)
Definition credentialURLPattern : regex :=
  sequence [WordEdge; Chars (class_ci (ranges [(97, 122)]));
    Many false 0 (class_ci (either (ranges letters_digits) (any_of "+.-")));
    verbatim "://"; Many false 1 (none_of (either space_rune (any_of "/@:"))); verbatim ":";
    Many false 1 (none_of (either space_rune (any_of "/@"))); verbatim "@"].

Section Tables.
Context `{UnicodeTables}.

(** * Keys *)

Definition letter_or_digit (r : Z) : bool :=
  if r <? 128 then ((97 <=? r) && (r <=? 122)) || ((65 <=? r) && (r <=? 90)) || ((48 <=? r) && (r <=? 57))
  else unicode_alphanumeric r.
Definition normalizeKey (value : string) : string := string_of_runes (List.filter letter_or_digit (runes (ToLower value))).

Definition isSensitiveKey (key : string) : bool :=
  let normalized := normalizeKey key in
  if HasSuffix normalized "ref" || HasSuffix normalized "refs" || HasSuffix normalized "selector" then false
  else if existsb (String.eqb normalized)
            ["password"; "passwd"; "credential"; "credentials"; "token"; "accesstoken"; "refreshtoken";
             "bearertoken"; "apikey"; "privatekey"; "secretkey"; "secretaccesskey"; "clientsecret";
             "connectionstring"; "stringdata"; "binarydata"; "data"] then true
  else existsb (Contains normalized) ["password"; "privatekey"; "clientsecret"; "secretaccesskey"; "connectionstring"].

(** * Values *)

Definition private_key_block (lower : string) : bool := Contains lower "-----begin" && Contains lower "private key-----".

Definition sanitizeTextPatterns (value : string) : string * bool :=
  if MatchString jwtPattern value || MatchString awsAccessKeyPattern value || MatchString bearerPattern value ||
     MatchString assignedSecretPattern value || MatchString credentialURLPattern value ||
     private_key_block (ToLower value)
  then (RedactedValue, true) else (value, false).

Definition sanitizeText (value : string) (limit : Z) : string :=
  if value == "" then ""
  else
    let '(sanitized, redacted) := sanitizeTextPatterns value in
    if redacted then sanitized
    else if limit <? Z.of_nat (length (runes value)) then string_of_runes (take (Z.to_nat limit) (runes value)) +:+ "..."
    else value.

Definition url_with_password (s : string) : bool :=
  match ParseURL s with
  | Ok parsed => match url_User parsed with Some (_, Some _) => true | _ => false end
  | Err _ => false
  end.

Definition sanitizeString (value : string) : string * bool :=
  let trimmed := TrimSpace value in
  let lower := ToLower trimmed in
  if private_key_block lower then (RedactedValue, true)
  else if HasPrefix lower "bearer " || MatchString jwtPattern trimmed || MatchString awsAccessKeyPattern trimmed
  then (RedactedValue, true)
  else if url_with_password trimmed then (RedactedValue, true)
  else (sanitizeText value 4096, false).

Definition sanitizedScalar (value : string) (limit : Z) : string :=
  let '(sanitized, redacted) := sanitizeString value in
  if redacted then RedactedValue else sanitizeText sanitized limit.

Definition index_path (path : string) (index : nat) : string := path +:+ "[" +:+ Itoa (Z.of_nat index) +:+ "]".

(** The value without its secrets, and the paths of those that were found. *)
Fixpoint sanitizeValue (value : any) (path : string) : any * list string :=
  match value with
  | AMap entries =>
      let fix walk (entries : list (string * any)) : list (string * any) * list string :=
        match entries with
        | [] => ([], [])
        | (key, child) :: rest =>
            let childPath := path +:+ "." +:+ key in
            let '(sanitized, childPaths) :=
              if isSensitiveKey key then (AString RedactedValue, [childPath]) else sanitizeValue child childPath in
            let '(result, paths) := walk rest in
            ((key, sanitized) :: result, childPaths ++ paths)
        end in
      let '(result, paths) := walk entries in (AMap result, paths)
  | ASlice elements =>
      let fix walk (index : nat) (elements : list any) : list any * list string :=
        match elements with
        | [] => ([], [])
        | child :: rest =>
            let '(sanitized, childPaths) := sanitizeValue child (index_path path index) in
            let '(result, paths) := walk (S index) rest in
            (sanitized :: result, childPaths ++ paths)
        end in
      let '(result, paths) := walk O elements in (ASlice result, paths)
  | AString typed =>
      let '(sanitized, redacted) := sanitizeString typed in
      if redacted then (AString RedactedValue, [path]) else (AString sanitized, [])
  | typed => (typed, [])
  end.

Definition last_applied : string := "kubectl.kubernetes.io/last-applied-configuration".

(** One entry of labels or annotations. *)
Definition sanitize_entry (path key value : string) : string * list string :=
  let itemPath := path +:+ "." +:+ key in
  if isSensitiveKey key || (key == last_applied) then (RedactedValue, [itemPath])
  else
    let '(sanitized, redacted) := sanitizeString value in
    if redacted then (RedactedValue, [itemPath]) else (sanitized, []).
Definition sanitizeStringMap `{RangeOrder} (values : gmap string string) (path : string) : gmap string string * list string :=
  (map_imap (λ key value, Some (sanitize_entry path key value).1) values,
   flat_map (λ kv : string * string, (sanitize_entry path kv.1 kv.2).2) (range values)).

(** * Findings *)

Definition uniqueStrings (values : list string) : list string :=
  sort_slice String.ltb (elements (list_to_set (List.filter (λ value, value != "") values) : gset string)).

Definition conditionEvidence (conditions : list Condition) (wanted : string) : string :=
  match List.find (λ condition, EqualFold (condition_Type condition) wanted) conditions with
  | Some condition =>
      "Condition " +:+ condition_Type condition +:+ " is " +:+ condition_Status condition +:+
      (if condition_Reason condition != "" then " with reason " +:+ condition_Reason condition else "") +:+ "."
  | None => "The controller-reported condition is not healthy."
  end.

Definition sourceOfTruthEvidence (provenance : Provenance) : string :=
  let system := provenance_System provenance in
  if (system == ManagementArgoCD) || (system == ManagementFlux) then
    "Source of truth is an upstream GitOps repository; do not patch the live object."
  else if system == ManagementHelm then
    "Source of truth is the Helm release values or chart; do not patch generated live state."
  else if system == ManagementCrossplane then
    "Source of truth is the owning Crossplane claim or composite resource; do not patch a generated child."
  else if system == ManagementOperator then
    "Source of truth is the owning Kubernetes custom resource managed by its controller."
  else "Source of truth is unknown and must be established before any change is proposed.".

Definition newManagedFinding (resource : Resource) (now : Time) (rule title severity : string) (risk : Z)
    (details recommendation fixability : string) : Finding :=
  let identity := resource_ID resource +:+ (if resource_UID resource != "" then "|" +:+ resource_UID resource else "") in
  let id := "managed-resource-" +:+ rule +:+ "-" +:+ string_take 12 (sha256_hex (rule +:+ "|" +:+ identity)) in
  let target := mkResourceRef (resource_APIVersion resource) (resource_Kind resource) (resource_Namespace resource)
                  (resource_Name resource) in
  let state := if fixability == FixabilityInformational then "triage_required" else "approval_required" in
  mkFinding id "managed-resource" title severity
    [mkEvidence title (TrimSpace (details +:+ " " +:+ sourceOfTruthEvidence (resource_Provenance resource)))
       "kubeathrix/managed-resource" now]
    [target]
    "The Kubernetes-managed external resource may affect provider-side access, availability, or reconciliation."
    fixability FindingOpen ("managed-resource:" +:+ resource_ID resource)
    (mkCorrelationKeys "" (resource_Namespace resource)
       ("managed-resource:" +:+ provenance_System (resource_Provenance resource)) "" "")
    risk (mkRiskExplanation "managed-resource/v1" risk [] risk) state recommendation now now.

(** ** Policies *)

Definition stringAtKey (values : fields) (wanted : string) : string :=
  match List.find (λ kv : string * any, EqualFold kv.1 wanted) values with Some (_, value) => as_string value | None => "" end.

Fixpoint scalarStrings (value : any) : list string :=
  match value with
  | AString typed => [typed]
  | ASlice elements => flat_map scalarStrings elements
  | AMap entries => flat_map (λ kv : string * any, scalarStrings kv.2) entries
  | _ => []
  end.

Definition containsWildcardPermission (value : any) : bool :=
  existsb (λ item, let item := TrimSpace item in (item == "*") || HasSuffix item ":*") (scalarStrings value).
Definition containsPublicPrincipal (value : any) : bool :=
  existsb (λ item, existsb (String.eqb (ToLower (TrimSpace item)))
             ["*"; "allusers"; "allauthenticatedusers"; "anonymous"; "system:anonymous"]) (scalarStrings value).

Definition names_action (key : string) : bool := existsb (String.eqb (normalizeKey key)) ["action"; "actions"].
Definition names_principal (key : string) : bool :=
  existsb (String.eqb (normalizeKey key)) ["principal"; "principals"; "member"; "members"].

(** The paths of one statement whose keys satisfy [named] and whose values satisfy [flagged]. *)
Definition flagged_paths (named : string → bool) (flagged : any → bool) (path : string) (entries : fields) : list string :=
  map (λ kv : string * any, path +:+ "." +:+ kv.1) (List.filter (λ kv : string * any, named kv.1 && flagged kv.2) entries).

(** The paths of wildcard actions and of public principals. *)
Fixpoint walkPolicyMaps (value : any) (path : string) : list string * list string :=
  match value with
  | AMap entries =>
      let effect := ToLower (stringAtKey entries "effect") in
      let wildcards := if effect == "allow" then flagged_paths names_action containsWildcardPermission path entries else [] in
      let publics := if effect != "deny" then flagged_paths names_principal containsPublicPrincipal path entries else [] in
      let below := map (λ kv : string * any, walkPolicyMaps kv.2 (path +:+ "." +:+ kv.1)) entries in
      (wildcards ++ flat_map fst below, publics ++ flat_map snd below)
  | ASlice elements =>
      let fix walk (index : nat) (elements : list any) : list string * list string :=
        match elements with
        | [] => ([], [])
        | child :: rest =>
            let '(w, p) := walkPolicyMaps child (index_path path index) in
            let '(ws, ps) := walk (S index) rest in (w ++ ws, p ++ ps)
        end in
      walk O elements
  | _ => ([], [])
  end.

Definition finding_if (cond : bool) (finding : Finding) : list Finding := if cond then [finding] else [].

Definition iamFindings (resource : Resource) (now : Time) : list Finding :=
  let '(wildcardPaths, publicPaths) := walkPolicyMaps (AMap (resource_Spec resource)) "spec" in
  finding_if (negb (bool_decide (wildcardPaths = [])))
    (newManagedFinding resource now "iam-wildcard-action" "Managed IAM policy allows wildcard actions" SeverityCritical 94
       ("Allow statements contain wildcard actions at: " +:+ Join (uniqueStrings wildcardPaths) ", " +:+ ".")
       "Replace wildcard actions with the least-privilege action set through the owning Kubernetes or GitOps source, with approval."
       FixabilityHumanOnly) ++
  finding_if (negb (bool_decide (publicPaths = [])))
    (newManagedFinding resource now "iam-public-principal" "Managed IAM policy grants access to a public principal" SeverityCritical 97
       ("Public principals appear in non-deny statements at: " +:+ Join (uniqueStrings publicPaths) ", " +:+ ".")
       "Remove the public principal or add an explicitly reviewed restriction through the owning source." FixabilityHumanOnly).

Definition is_false (b : option bool) : bool := match b with Some b => negb b | None => false end.
Definition is_true (b : option bool) : bool := match b with Some b => b | None => false end.

Definition stale_generation (resource : Resource) : bool :=
  let observed := rstatus_ObservedGeneration (resource_Status resource) in
  (0 <? resource_Generation resource) && (0 <? observed) && (observed <? resource_Generation resource).
Definition deletion_stuck (resource : Resource) (now : Time) : bool :=
  match resource_DeletionTimestamp resource, resource_Finalizers resource with
  | Some deletion, _ :: _ => 15 * Minute <=? Sub now deletion
  | _, _ => false
  end.

Definition findingsForResource (resource : Resource) (sensitivePaths : list string) (now : Time) : list Finding :=
  let status := resource_Status resource in
  let finding := newManagedFinding resource now in
  finding_if (match sensitivePaths with [] => false | _ => true end)
    (finding "inline-sensitive-value" "Managed external resource contains inline sensitive data" SeverityHigh 88
       ("Sensitive values were redacted at: " +:+ Join (uniqueStrings sensitivePaths) ", " +:+ ".")
       "Move credential material to an approved secret reference and rotate the exposed value before updating the owning source."
       FixabilityHumanOnly) ++
  finding_if (provenance_System (resource_Provenance resource) == ManagementUnknown)
    (finding "unknown-provenance" "Managed external resource has unknown ownership" SeverityMedium 55
       "No Argo CD, Flux, Helm, Crossplane, or operator ownership signal was found."
       "Establish the owning controller or source repository before proposing a change." FixabilityInformational) ++
  finding_if (is_false (rstatus_Ready status))
    (finding "not-ready" "Managed external resource is not ready" SeverityHigh 78
       (conditionEvidence (rstatus_Conditions status) "ready")
       "Review the owning controller, provider events, and current source specification before preparing a human-approved correction."
       FixabilityHumanOnly) ++
  finding_if (is_false (rstatus_Synced status))
    (finding "reconcile-failed" "Managed external resource is not synchronized" SeverityHigh 82
       (conditionEvidence (rstatus_Conditions status) "synced")
       "Resolve the reported reconciliation failure at the owning source and verify controller convergence." FixabilityHumanOnly) ++
  finding_if (is_true (rstatus_Stalled status))
    (finding "stalled" "Managed external resource reconciliation is stalled" SeverityHigh 84
       (conditionEvidence (rstatus_Conditions status) "stalled")
       "Inspect controller events and dependencies, then prepare a reviewed change at the owning source." FixabilityHumanOnly) ++
  finding_if (stale_generation resource)
    (finding "stale-generation" "Managed external resource status is stale" SeverityMedium 62
       ("Controller observed generation " +:+ Itoa (rstatus_ObservedGeneration status) +:+ " while the resource is at generation " +:+
        Itoa (resource_Generation resource) +:+ ".")
       "Wait for or troubleshoot controller reconciliation before using this resource as remediation evidence."
       FixabilityInformational) ++
  finding_if (deletion_stuck resource now)
    (finding "deletion-stuck" "Managed external resource deletion may be stuck" SeverityMedium 65
       ("Deletion has remained pending with " +:+ Itoa (Z.of_nat (length (resource_Finalizers resource))) +:+
        " finalizer(s) for at least 15 minutes.")
       "Inspect controller and provider state; do not remove finalizers without confirming external cleanup." FixabilityHumanOnly) ++
  iamFindings resource now.

End Tables.
