(* ===== verification/ManagedProvenance.v ===== *)
(** Who owns a managed resource, [services/api/internal/managedresources/provenance.go]: the controller and
    the source its metadata points to, and its references to other objects. *)
From S2P Require Import Prelude GoLib GoDuration Json Runes Core Kube ManagedResources ManagedSecurity.

Local Open Scope Z_scope.

Record OwnerReference := mkOwnerReference {
  owner_APIVersion : string; owner_Kind : string; owner_Name : string; owner_UID : string; owner_Controller : option bool
}.

(** Further accessors of [unstructured.Unstructured]: the annotations, the managers of the managed fields, and
    the rest of the metadata. *)
Class KubernetesMeta (K : Kubernetes) := {
  GetAnnotations : object → gmap string string;
  GetFieldManagers : object → list string;
  GetOwnerReferences : object → list OwnerReference;
  GetUID : object → string;
  GetGeneration : object → Z;
  GetCreationTimestamp : object → Time;
  GetFinalizers : object → list string
}.

(** [m[key]] of a [map[string]string]. *)
Definition value_at (m : gmap string string) (key : string) : string := default "" (m !! key).

Definition firstNonEmpty (values : list string) : string := default "" (List.find (λ value, TrimSpace value != "") values).

Definition isKnownOperatorGroup (apiGroup : string) : bool :=
  HasSuffix apiGroup ".services.k8s.aws" || HasSuffix apiGroup ".cnrm.cloud.google.com" || Contains apiGroup "azure.com".

Definition ignored_managers : list string :=
  ["kubectl"; "kubectl-client-side-apply"; "kubectl-edit"; "helm"; "kube-controller-manager"].
Definition managedControllers (managers : list string) : list string :=
  uniqueStrings (List.filter (λ manager, negb ((manager == "") || existsb (String.eqb (ToLower manager)) ignored_managers))
                   (map TrimSpace managers)).

Definition hasControllerOwner (owners : list OwnerReference) : bool := existsb (λ owner, is_true (owner_Controller owner)) owners.

Definition presentSignals (pairs : list (string * bool)) : list string :=
  sort_slice String.ltb (map fst (List.filter snd pairs)).

Section Tables.
Context `{UnicodeTables}.

Definition firstController (controllers : list string) : string :=
  match controllers with [] => "" | controller :: _ => sanitizedScalar controller 253 end.

Definition safeProvenanceString (value : string) : string :=
  let '(value, redacted) := sanitizeString value in if redacted then RedactedValue else value.

Section Objects.
Context `{Kubernetes} `{!KubernetesMeta _}.

Definition isCrossplaneResource (o : object) (apiGroup : string) (controllers : list string) : bool :=
  Contains apiGroup "crossplane.io" || HasSuffix apiGroup ".upbound.io" ||
  ((value_at (GetLabels o) "crossplane.io/claim-name" != "") ||
   (value_at (GetAnnotations o) "crossplane.io/external-name" != "")) ||
  existsb (λ controller, let lower := ToLower controller in Contains lower "crossplane" || HasPrefix lower "provider-") controllers.

Definition extractProvenance (o : object) (apiGroup : string) : Provenance :=
  let labels := GetLabels o in
  let annotations := GetAnnotations o in
  let managedBy := ToLower (value_at labels "app.kubernetes.io/managed-by") in
  let controllers := managedControllers (GetFieldManagers o) in
  let controller := safeProvenanceString (firstController controllers) in
  let argo := firstNonEmpty [value_at annotations "argocd.argoproj.io/tracking-id"; value_at labels "argocd.argoproj.io/instance"] in
  let flux := firstNonEmpty [value_at labels "kustomize.toolkit.fluxcd.io/name"; value_at labels "helm.toolkit.fluxcd.io/name";
                             value_at annotations "kustomize.toolkit.fluxcd.io/name"] in
  let helm := value_at annotations "meta.helm.sh/release-name" in
  let operator := value_at labels "app.kubernetes.io/managed-by" in
  if (argo != "") || Contains managedBy "argocd" || Contains managedBy "argo cd" then
    let source := sanitizedScalar argo 512 in
    mkProvenance ManagementArgoCD controller (safeProvenanceString source) true
      (presentSignals [("argocd tracking/instance metadata", source != ""); ("app.kubernetes.io/managed-by", Contains managedBy "argo")])
  else if (flux != "") || Contains managedBy "flux" then
    let source := sanitizedScalar flux 512 in
    mkProvenance ManagementFlux controller (safeProvenanceString source) true
      (presentSignals [("Flux toolkit metadata", source != ""); ("app.kubernetes.io/managed-by", Contains managedBy "flux")])
  else if isCrossplaneResource o apiGroup controllers then
    let source := sanitizedScalar (firstNonEmpty [value_at labels "crossplane.io/claim-name";
                                                  value_at annotations "crossplane.io/external-name"]) 512 in
    mkProvenance ManagementCrossplane controller (safeProvenanceString source) false
      ["Crossplane API group or controller metadata"]
  else if (helm != "") || (managedBy == "helm") then
    let namespace := value_at annotations "meta.helm.sh/release-namespace" in
    let source := if (helm != "") && (namespace != "") then namespace +:+ "/" +:+ helm else helm in
    let source := sanitizedScalar source 512 in
    mkProvenance ManagementHelm controller (safeProvenanceString source) false ["Helm release metadata"]
  else if (operator != "") || isKnownOperatorGroup apiGroup || match controllers with [] => false | _ => true end ||
          hasControllerOwner (GetOwnerReferences o) then
    let source := sanitizedScalar operator 512 in
    mkProvenance ManagementOperator controller (safeProvenanceString source) false ["operator/controller ownership metadata"]
  else mkProvenance ManagementUnknown "" "" false [].

(** * References *)

Definition inferredReferenceKind (key : string) : string :=
  let base := foldl TrimSuffix key ["Reference"; "Refs"; "Ref"] in
  let named := normalizeKey base in
  if existsb (String.eqb named) ["writeconnectionsecretto"; "secret"; "connectionsecret"] then "Secret"
  else if named == "configmap" then "ConfigMap"
  else if named == "serviceaccount" then "ServiceAccount"
  else if named == "providerconfig" then "ProviderConfig"
  else match base with
       | EmptyString => ""
       | String c rest => ToUpper (String c "") +:+ rest
       end.

Definition referenceFromValue (value : any) (key defaultNamespace : string) : option ResourceReference :=
  match value with
  | AMap object =>
      let name := as_string (field "name" object) in
      if name == "" then None
      else
        let kind := as_string (field "kind" object) in
        let namespace := as_string (field "namespace" object) in
        Some (mkResourceReference (as_string (field "apiVersion" object)) (if kind == "" then inferredReferenceKind key else kind)
                (if namespace == "" then defaultNamespace else namespace) name "")
  | _ => None
  end.

(** The references of one entry: [ref] and [refs] by the end of its key. *)
Definition entry_references (from : ResourceReference) (defaultNamespace key childPath : string) (child : any) : list Relationship :=
  let normalized := normalizeKey key in
  let reference value key path :=
    match referenceFromValue value key defaultNamespace with
    | Some to => [mkRelationship from to RelationshipReference path]
    | None => []
    end in
  if HasSuffix normalized "ref" then reference child key childPath
  else if HasSuffix normalized "refs" then
    match child with
    | ASlice items => concat (imap (λ index item, reference item (TrimSuffix key "s") (index_path childPath index)) items)
    | _ => []
    end
  else [].

Fixpoint walkReferences (value : any) (path : string) (from : ResourceReference) (defaultNamespace : string) : list Relationship :=
  match value with
  | AMap entries =>
      flat_map (λ kv : string * any,
        let childPath := path +:+ "." +:+ kv.1 in
        entry_references from defaultNamespace kv.1 childPath kv.2 ++ walkReferences kv.2 childPath from defaultNamespace) entries
  | ASlice elements =>
      let fix walk (index : nat) (elements : list any) : list Relationship :=
        match elements with
        | [] => []
        | child :: rest => walkReferences child (index_path path index) from defaultNamespace ++ walk (S index) rest
        end in
      walk O elements
  | _ => []
  end.

Definition relationshipKey (value : Relationship) : string :=
  let from := relationship_From value in
  let to := relationship_To value in
  relationship_Type value +:+ "|" +:+ reference_APIVersion from +:+ "|" +:+ reference_Namespace from +:+ "|" +:+
  reference_Kind from +:+ "|" +:+ reference_Name from +:+ "|" +:+ reference_APIVersion to +:+ "|" +:+
  reference_Namespace to +:+ "|" +:+ reference_Kind to +:+ "|" +:+ reference_Name to +:+ "|" +:+ relationship_Path value.

(** The first relationship of each key. *)
Fixpoint first_of_each (seen : gset string) (relationships : list Relationship) : list Relationship :=
  match relationships with
  | [] => []
  | relationship :: rest =>
      let key := relationshipKey relationship in
      if bool_decide (key ∈ seen) then first_of_each seen rest else relationship :: first_of_each ({[ key ]} ∪ seen) rest
  end.

(** [unstructured.NestedMap]: the nested value, when it is a map. *)
Definition NestedMap (path : list string) (m : fields) : option fields :=
  match NestedFieldNoCopy path m with Ok (Some (AMap entries)) => Some entries | _ => None end.

Definition relationshipsFromObject (resource : Resource) (o : object) : list Relationship :=
  let from := Reference resource in
  let labels := GetLabels o in
  let claimName := value_at labels "crossplane.io/claim-name" in
  first_of_each ∅
    (map (λ owner, mkRelationship from
            (mkResourceReference (owner_APIVersion owner) (owner_Kind owner) (resource_Namespace resource) (owner_Name owner)
               (owner_UID owner)) RelationshipOwner "metadata.ownerReferences") (GetOwnerReferences o) ++
     (if claimName != "" then
        [mkRelationship from
           (mkResourceReference (value_at labels "crossplane.io/claim-api-version") (value_at labels "crossplane.io/claim-kind")
              (firstNonEmpty [value_at labels "crossplane.io/claim-namespace"; resource_Namespace resource]) claimName "")
           RelationshipClaim "metadata.labels.crossplane.io/claim-name"]
      else []) ++
     match NestedMap ["spec"] (Object o) with
     | Some spec => walkReferences (AMap spec) "spec" from (resource_Namespace resource)
     | None => []
     end).

End Objects.
End Tables.
