(* ===== verification/ManagedDiscovery.v ===== *)
(** Discovery of managed resources, [services/api/internal/managedresources/discovery.go]: listing the objects
    of the allowlist page by page within limits of time, number and size, and what is kept of each of them.

    The clients' calls and the contexts are events. The requests for the pages of one resource share a deadline;
    at most [pages] of them are answered before it, and one made after it reports it.

    [time.Parse] takes hours of one digit and fractions after a comma as well, which the model refuses. *)
From Stdlib Require Import SpecFloat.
From S2P Require Import Prelude GoLib GoDuration Json Runes Interaction RequestBody Core Kube ManagedResources.
From S2P Require Import ManagedConfig ManagedSecurity ManagedProvenance.

Local Open Scope Z_scope.

(** [apierrors.IsMethodNotSupported], [IsForbidden] and [IsUnauthorized] *)
Class ListErrors := {
  IsMethodNotSupported : GoError → bool; IsForbidden : GoError → bool; IsUnauthorized : GoError → bool
}.

(** * Status *)

(** [int64Value] *)
Definition int64Value (value : any) : Z :=
  match value with
  | AInt64 z => z
  | AFloat64 f =>
      match f with S754_finite true m e => - truncate (S754_finite false m e) | _ => truncate f end
  | _ => 0
  end.

Definition conditionBool (value : string) : option bool :=
  let text := ToLower (TrimSpace value) in
  if text == "true" then Some true else if text == "false" then Some false else None.

Definition setConditionState (status : ResourceStatus) (condition : Condition) : ResourceStatus :=
  match conditionBool (condition_Status condition) with
  | None => status
  | Some value =>
      let type := ToLower (condition_Type condition) in
      if existsb (String.eqb type) ["ready"; "healthy"; "available"] then status <| rstatus_Ready := Some value |>
      else if existsb (String.eqb type) ["synced"; "reconciled"] then status <| rstatus_Synced := Some value |>
      else if type == "stalled" then status <| rstatus_Stalled := Some value |>
      else status
  end.

Section Tables.
Context `{UnicodeTables}.

Definition conditionFromValue (item : fields) : Condition :=
  mkCondition (sanitizedScalar (as_string (field "type" item)) 128) (sanitizedScalar (as_string (field "status" item)) 32)
    (sanitizedScalar (as_string (field "reason" item)) 256) "" (int64Value (field "observedGeneration" item))
    (ParseRFC3339 (as_string (field "lastTransitionTime" item))).

Definition add_condition (status : ResourceStatus) (raw : any) : ResourceStatus :=
  match raw with
  | AMap item =>
      let condition := conditionFromValue item in
      let status := if rstatus_ObservedGeneration status <? condition_ObservedGeneration condition
                    then status <| rstatus_ObservedGeneration := condition_ObservedGeneration condition |> else status in
      let status := setConditionState status condition in
      status <| rstatus_Conditions := rstatus_Conditions status ++ [condition] |>
  | _ => status
  end.

Section Objects.
Context `{Kubernetes} `{!KubernetesMeta _} `{RangeOrder}.

Definition first_string (o : object) (paths : list (list string)) : string :=
  default "" (List.find (λ value, value != "") (map (λ path, found_or "" (NestedString path (Object o))) paths)).

Definition extractStatus (o : object) : ResourceStatus :=
  let state := first_string o [["status"; "state"]; ["status"; "phase"]; ["status"; "provisioningState"];
                               ["status"; "atProvider"; "state"]; ["status"; "atProvider"; "status"]] in
  let status := mkResourceStatus None None None (if state == "" then "" else sanitizedScalar state 256)
                  (found_or 0 (NestedInt64 ["status"; "observedGeneration"] (Object o))) [] in
  match NestedSlice ["status"; "conditions"] (Object o) with
  | Ok (Some rawConditions) =>
      let status := foldl add_condition status rawConditions in
      status <| rstatus_Conditions := sort_slice (λ x y, String.ltb (condition_Type x) (condition_Type y)) (rstatus_Conditions status) |>
  | _ => status
  end.

Definition extractExternalID (o : object) : string :=
  let named := value_at (GetAnnotations o) "crossplane.io/external-name" in
  if named != "" then named
  else first_string o [["status"; "atProvider"; "arn"]; ["status"; "atProvider"; "selfLink"]; ["status"; "atProvider"; "id"];
                       ["status"; "atProvider"; "resourceId"]; ["status"; "resourceID"]; ["status"; "resourceId"]; ["status"; "id"]].

(** * Resources *)

Definition capitalize (s : string) : string := match s with EmptyString => "" | String c rest => ToUpper (String c "") +:+ rest end.
Definition inferredKind (resource : string) : string :=
  let value := if HasSuffix resource "ies" then TrimSuffix resource "ies" +:+ "y" else TrimSuffix resource "s" in
  Join (map capitalize (FieldsFunc value (in_cutset "-_."))) "".

Definition resourceID (resource : Resource) : string :=
  Join ([resource_APIGroup resource; resource_Version resource; resource_Plural resource] ++
        (if resource_Namespace resource != "" then [resource_Namespace resource] else []) ++ [resource_Name resource]) "/".

Definition resourceFromObject (o : object) (rule : resourceRule) : Resource * list string :=
  let gvr := rule_gvr rule in
  let apiVersion := if GetAPIVersion o == "" then gvr_Group gvr +:+ "/" +:+ gvr_Version gvr else GetAPIVersion o in
  let kind := if GetKind o == "" then inferredKind (gvr_Resource gvr) else GetKind o in
  let '(sanitizedSpec, specSensitive) := sanitizeValue (AMap (default [] (NestedMap ["spec"] (Object o)))) "spec" in
  let '(labels, labelSensitive) := sanitizeStringMap (GetLabels o) "metadata.labels" in
  let '(annotations, annotationSensitive) := sanitizeStringMap (GetAnnotations o) "metadata.annotations" in
  let externalID := let '(sanitized, redacted) := sanitizeString (extractExternalID o) in
                    if redacted then RedactedValue else sanitized in
  let resource :=
    mkResource "" (gvr_Group gvr) (gvr_Version gvr) (gvr_Resource gvr) apiVersion kind (GetNamespace o) (GetName o) (GetUID o)
      (GetGeneration o) (GetCreationTimestamp o) (GetDeletionTimestamp o) (GetFinalizers o) labels annotations
      (default [] (as_map sanitizedSpec)) externalID (extractStatus o) (extractProvenance o (gvr_Group gvr)) in
  (resource <| resource_ID := resourceID resource |>, uniqueStrings (specSensitive ++ labelSensitive ++ annotationSensitive)).

(** * Discovery *)

Record Discovery := mkDiscovery {
  discovery_config : ManagedConfig;
  discovery_totalTimeout : Duration;
  discovery_requestTimeout : Duration;
  discovery_pageSize : Z;
  discovery_maxObjects : Z;
  discovery_maxBytes : Z
}.
Definition defaultRequestTimeout : Duration := 10 * Second.
Definition defaultTotalTimeout : Duration := 30 * Second.
Definition defaultPageSize : Z := 250.
Definition defaultMaxObjects : Z := 10000.
Definition defaultMaxBytes : Z := Z.shiftl 32 20.

Definition NewDiscovery `{ResourceNames} (client : bool) (config : ManagedConfig) : result Discovery :=
  normalized ← normalizeConfig config;
  unless (negb (managed_Enabled normalized && negb client))
    "dynamic Kubernetes client is required when managed resource discovery is enabled";;
  Ok (mkDiscovery normalized defaultTotalTimeout defaultRequestTimeout defaultPageSize defaultMaxObjects defaultMaxBytes).

Record ResourceList := mkResourceList { list_Items : list object; list_Continue : string }.

(** The clock; the error of the caller's context and of the one with the total deadline; a page of a list. *)
Inductive DiscoveryE : Type → Type :=
| DiscoveryNow : DiscoveryE Time
| CallerErr : DiscoveryE (option GoError)
| DeadlineErr : DiscoveryE (option GoError)
| ListPage (rule : resourceRule) (limit : Z) (continueToken : string) : DiscoveryE (result ResourceList).

(** The snapshot so far with the numbers of objects and bytes in it. *)
Record Progress := mkProgress { progress_snapshot : Snapshot; totalObjects : Z; totalBytes : Z }.
#[export] Instance eta_Progress : Eta Progress := λ r, mkProgress (progress_snapshot r) (totalObjects r) (totalBytes r).

Definition warn (warning : Warning) (p : Progress) : Progress :=
  let s := progress_snapshot p in
  let s := s <| managed_Warnings := managed_Warnings s ++ [warning] |> in
  p <| progress_snapshot := s |>.
Definition rule_warning (rule : resourceRule) (code message : string) : Warning :=
  mkWarning (gvr_Group (rule_gvr rule)) (gvr_Version (rule_gvr rule)) (gvr_Resource (rule_gvr rule)) code message.

Definition warningFor `{ListErrors} (rule : resourceRule) (err : GoError) : Warning :=
  let code :=
    if errors_Is err ErrDeadlineExceeded then "request_timeout"
    else if IsNotFound err || IsMethodNotSupported err then "resource_unavailable"
    else if IsForbidden err || IsUnauthorized err then "access_denied"
    else "list_failed" in
  rule_warning rule code (sanitizedScalar (error_text err) 512).

(** What leaves the discovery of a resource. *)
Definition without_inputs (resource : Resource) : Resource :=
  resource <| resource_Spec := [] |> <| resource_Labels := ∅ |> <| resource_Annotations := ∅ |>.

Definition add_object (now : Time) (rule : resourceRule) (o : object) (p : Progress) : Progress :=
  let '(resource, sensitivePaths) := resourceFromObject o rule in
  let s := progress_snapshot p in
  let s := s <| managed_Relationships := managed_Relationships s ++ relationshipsFromObject resource o |>
             <| managed_Findings := managed_Findings s ++ findingsForResource resource sensitivePaths now |>
             <| managed_Resources := managed_Resources s ++ [without_inputs resource] |> in
  p <| progress_snapshot := s |>.

Section Discover.
Context `{ListErrors}.
Variable d : Discovery.

Definition limit_warning (rule : resourceRule) : Warning :=
  rule_warning rule "snapshot_limit_reached"
    ("Discovery stopped at the safety limit of " +:+ Itoa (discovery_maxObjects d) +:+ " objects or " +:+
     Itoa (discovery_maxBytes d) +:+ " bytes.").

(** The objects of a page; [true] once a limit is reached. *)
Fixpoint add_objects (now : Time) (rule : resourceRule) (items : list object) (p : Progress) : Progress * bool :=
  match items with
  | [] => (p, false)
  | o :: rest =>
      match marshal_any (AMap (Object o)) with
      | None => add_objects now rule rest (warn (rule_warning rule "object_invalid" "A managed resource could not be bounded for analysis.") p)
      | Some objectBytes =>
          if (discovery_maxObjects d <=? totalObjects p) || (discovery_maxBytes d <? totalBytes p + len objectBytes)
          then (warn (limit_warning rule) p, true)
          else add_objects now rule rest
                 (add_object now rule o (p <| totalObjects := totalObjects p + 1 |> <| totalBytes := totalBytes p + len objectBytes |>))
      end
  end.

(** How the pages of a rule end: go on with the next rule, stop, or give up with the caller's error. *)
Inductive outcome := NextRule (p : Progress) | StopRules (p : Progress) | GiveUp (p : Progress) (err : GoError).

Definition list_failed (rule : resourceRule) (err : GoError) (p : Progress) : P DiscoveryE outcome :=
  caller ← ask CallerErr;
  match caller with
  | Some cause => mret (GiveUp p cause)
  | None =>
      let p := warn (warningFor rule err) p in
      deadline ← ask DeadlineErr;
      mret (match deadline with Some _ => StopRules p | None => NextRule p end)
  end.

Fixpoint list_pages (pages : nat) (now : Time) (rule : resourceRule) (continueToken : string) (p : Progress) : P DiscoveryE outcome :=
  match pages with
  | O => list_failed rule ErrDeadlineExceeded p
  | S pages' =>
      listed ← attempt (call (ListPage rule (discovery_pageSize d) continueToken));
      match listed with
      | Err err => list_failed rule err p
      | Ok page =>
          let '(p, stopped) := add_objects now rule (list_Items page) p in
          if stopped then mret (StopRules p)
          else if list_Continue page == "" then mret (NextRule p)
          else list_pages pages' now rule (list_Continue page) p
      end
  end.

Definition timeout_warning : Warning :=
  mkWarning "kubeathrix.io" "v1" "managedresources" "discovery_timeout"
    ("Discovery stopped at the total " +:+ Itoa (discovery_totalTimeout d / Second) +:+ "s safety deadline.").

Fixpoint list_rules (pages : nat) (now : Time) (rules : list resourceRule) (p : Progress) : P DiscoveryE (Progress * option GoError) :=
  match rules with
  | [] => mret (p, None)
  | rule :: rest =>
      deadline ← ask DeadlineErr;
      match deadline with
      | Some _ =>
          caller ← ask CallerErr;
          match caller with
          | Some cause => mret (p, Some cause)
          | None => mret (warn timeout_warning p, None)
          end
      | None =>
          result ← list_pages pages now rule "" p;
          match result with
          | NextRule p => list_rules pages now rest p
          | StopRules p => mret (p, None)
          | GiveUp p cause => mret (p, Some cause)
          end
      end
  end.

Definition warning_key (w : Warning) : string :=
  warning_APIGroup w +:+ "/" +:+ warning_Version w +:+ "/" +:+ warning_Resource w.
Definition sort_snapshot (s : Snapshot) : Snapshot :=
  s <| managed_Resources := sort_slice (λ x y, String.ltb (resource_ID x) (resource_ID y)) (managed_Resources s) |>
    <| managed_Relationships := sort_slice (λ x y, String.ltb (relationshipKey x) (relationshipKey y)) (managed_Relationships s) |>
    <| managed_Findings := sort_slice (λ x y, String.ltb (finding_ID x) (finding_ID y)) (managed_Findings s) |>
    <| managed_Warnings := sort_slice (λ x y, String.ltb (warning_key x) (warning_key y)) (managed_Warnings s) |>.

(** The snapshot, partial and unsorted with the error of the caller's context. *)
Definition Discover (pages : nat) : P DiscoveryE (Snapshot * option GoError) :=
  now ← ask DiscoveryNow;
  let snapshot := mkSnapshot now [] [] [] [] in
  if negb (managed_Enabled (discovery_config d)) then mret (snapshot, None)
  else
    '(p, err) ← list_rules pages now (configRules (discovery_config d)) (mkProgress snapshot 0 0);
    match err with
    | Some cause => mret (progress_snapshot p, Some cause)
    | None => mret (sort_snapshot (progress_snapshot p), None)
    end.
End Discover.
End Objects.
End Tables.
