(* ===== verification/ClusterObjects.v ===== *)
(** The Kubernetes objects the cluster inspector reads, [services/api/internal/cluster/inspector.go], with the
    fields it looks at; and its questions about a pod template, an image, a role, a binding and a node.

    Quantities and label selectors belong to the Kubernetes libraries. Names are taken to be ASCII. *)
From S2P Require Import Prelude GoLib Core.

Local Open Scope Z_scope.

(** What is used of [resource.Quantity] and [metav1.LabelSelector]; a selector that cannot be converted has no answer. *)
Class ClusterLibrary := {
  Quantity : Type;
  QuantityIsZero : Quantity → bool;
  LabelSelector : Type;
  SelectorMatches : LabelSelector → gmap string string → option bool
}.

Record KubeMeta := mkKubeMeta { km_Name : string; km_Namespace : string; km_Labels : gmap string string }.

Section Objects.
Context {L : ClusterLibrary}.

Record NodeCondition := mkNodeCondition { condition_Type : string; condition_Status : string }.
Record Node := mkNode { node_Meta : KubeMeta; node_Conditions : list NodeCondition }.

Record Capabilities := mkCapabilities { capabilities_Add : list string; capabilities_Drop : list string }.
Record SecurityContext := mkSecurityContext {
  security_Privileged : option bool;
  security_AllowPrivilegeEscalation : option bool;
  security_RunAsNonRoot : option bool;
  security_SeccompProfile : option string;
  security_Capabilities : option Capabilities
}.
(** A probe counts as there or not. *)
Record Container := mkContainer {
  container_Image : string;
  container_Requests : gmap string Quantity;
  container_Limits : gmap string Quantity;
  container_ReadinessProbe : bool;
  container_LivenessProbe : bool;
  container_SecurityContext : option SecurityContext
}.
Record PodSecurityContext := mkPodSecurityContext {
  podSecurity_RunAsNonRoot : option bool;
  podSecurity_SeccompProfile : option string
}.
(** A volume counts as a [hostPath] or not. *)
Record PodSpec := mkPodSpec {
  spec_InitContainers : list Container;
  spec_Containers : list Container;
  spec_HostNetwork : bool;
  spec_HostPID : bool;
  spec_HostIPC : bool;
  spec_HostPathVolumes : list bool;
  spec_SecurityContext : option PodSecurityContext;
  spec_ServiceAccountName : string;
  spec_AutomountServiceAccountToken : option bool
}.

Record Pod := mkPod {
  pod_Meta : KubeMeta;
  pod_Spec : PodSpec;
  pod_Phase : string;
  pod_InitRestartCounts : list Z;
  pod_RestartCounts : list Z
}.
(** A Deployment or a StatefulSet, and a DaemonSet. *)
Record ReplicatedWorkload := mkReplicatedWorkload {
  rw_Meta : KubeMeta;
  rw_Replicas : option Z;
  rw_TemplateLabels : gmap string string;
  rw_PodSpec : PodSpec
}.
Record DaemonSet := mkDaemonSet {
  ds_Meta : KubeMeta;
  ds_TemplateLabels : gmap string string;
  ds_PodSpec : PodSpec
}.

Record Service := mkService { service_Meta : KubeMeta; service_Type : string; service_ExternalIPs : list string }.
(** The hosts of the TLS blocks and of the rules. *)
Record Ingress := mkIngress { ingress_Meta : KubeMeta; ingress_TLS : list (list string); ingress_Hosts : list string }.
Record PersistentVolumeClaim := mkPersistentVolumeClaim {
  pvc_Meta : KubeMeta;
  pvc_Phase : string;
  pvc_StorageClassName : option string
}.
Record DisruptionBudget := mkDisruptionBudget { budget_Meta : KubeMeta; budget_Selector : option LabelSelector }.
(** For every rule how many peers it names. *)
Record NetworkPolicy := mkNetworkPolicy { policy_Meta : KubeMeta; policy_Ingress : list nat; policy_Egress : list nat }.

Record PolicyRule := mkPolicyRule { rule_Verbs : list string; rule_APIGroups : list string; rule_Resources : list string }.
Record Role := mkRole { role_Meta : KubeMeta; role_Rules : list PolicyRule }.
Record RoleRef := mkRoleRef { roleRef_Kind : string; roleRef_Name : string }.
Record Subject := mkSubject { subject_Kind : string; subject_Name : string }.
Record RoleBinding := mkRoleBinding { binding_Meta : KubeMeta; binding_RoleRef : RoleRef; binding_Subjects : list Subject }.

(** * Pod templates *)

Definition allContainers (podSpec : PodSpec) : list Container := spec_InitContainers podSpec ++ spec_Containers podSpec.

Definition is_true (b : option bool) : bool := default false b.
Definition in_security (p : SecurityContext → bool) (container : Container) : bool :=
  match container_SecurityContext container with Some security => p security | None => false end.

Definition hasResource (resources : gmap string Quantity) (name : string) : bool :=
  match resources !! name with Some quantity => negb (QuantityIsZero quantity) | None => false end.
Definition bounded_container (container : Container) : bool :=
  hasResource (container_Requests container) "cpu" && hasResource (container_Requests container) "memory" &&
  hasResource (container_Limits container) "cpu" && hasResource (container_Limits container) "memory".
Definition podSpecMissingResources (podSpec : PodSpec) : bool :=
  existsb (λ container, negb (bounded_container container)) (allContainers podSpec).
Definition podSpecMissingReadiness (podSpec : PodSpec) : bool :=
  existsb (λ container, negb (container_ReadinessProbe container)) (spec_Containers podSpec).
Definition podSpecMissingLiveness (podSpec : PodSpec) : bool :=
  existsb (λ container, negb (container_LivenessProbe container)) (spec_Containers podSpec).

(** [s[strings.LastIndex(s, sep)+1:]] for a one-byte separator: the whole of [s] without one. *)
Definition after_last (sep : Ascii.ascii) (s : string) : string := default s (last (split_on sep s)).
Definition imageIsMutable (image : string) : bool :=
  if Contains image "@sha256:" then false
  else
    let repositoryPart := after_last (byte_of_code 47) image in
    if negb (Contains repositoryPart ":") then true
    else let tag := after_last (byte_of_code 58) repositoryPart in (tag == "") || (tag == "latest").
Definition podSpecUsesMutableImages (podSpec : PodSpec) : bool :=
  existsb (λ container, imageIsMutable (container_Image container)) (allContainers podSpec).

Definition seccompIsRestricted (profile : option string) : bool :=
  match profile with Some type => (type == "RuntimeDefault") || (type == "Localhost") | None => false end.
Definition of_pod_security (p : PodSecurityContext → bool) (podSpec : PodSpec) : bool :=
  match spec_SecurityContext podSpec with Some security => p security | None => false end.
(** Every container, and there is one. *)
Definition every_container (p : Container → bool) (podSpec : PodSpec) : bool :=
  forallb p (allContainers podSpec) && (0 <? Z.of_nat (length (allContainers podSpec))).
Definition podSpecRunsAsNonRoot (podSpec : PodSpec) : bool :=
  of_pod_security (λ security, is_true (podSecurity_RunAsNonRoot security)) podSpec ||
  every_container (in_security (λ security, is_true (security_RunAsNonRoot security))) podSpec.
Definition podSpecHasSeccomp (podSpec : PodSpec) : bool :=
  of_pod_security (λ security, seccompIsRestricted (podSecurity_SeccompProfile security)) podSpec ||
  every_container (in_security (λ security, seccompIsRestricted (security_SeccompProfile security))) podSpec.

Definition capabilityListContains (capabilities : list string) (value : string) : bool :=
  existsb (λ capability, EqualFold capability value) capabilities.
Definition podSpecDropsAllCapabilities (podSpec : PodSpec) : bool :=
  every_container (in_security (λ security,
    match security_Capabilities security with
    | Some capabilities => capabilityListContains (capabilities_Drop capabilities) "ALL"
    | None => false
    end)) podSpec.
Definition podSpecMissingRuntimeHardening (podSpec : PodSpec) : bool :=
  negb (podSpecRunsAsNonRoot podSpec) || negb (podSpecHasSeccomp podSpec) || negb (podSpecDropsAllCapabilities podSpec).

Definition podSpecAllowsHostAccess (podSpec : PodSpec) : bool :=
  spec_HostNetwork podSpec || spec_HostPID podSpec || spec_HostIPC podSpec || existsb id (spec_HostPathVolumes podSpec).
Definition privileged (security : SecurityContext) : bool :=
  is_true (security_Privileged security) || is_true (security_AllowPrivilegeEscalation security).
Definition adds_capabilities (security : SecurityContext) : bool :=
  match security_Capabilities security with
  | Some capabilities => negb (bool_decide (capabilities_Add capabilities = []))
  | None => false
  end.
Definition podSpecHasElevatedCapabilities (podSpec : PodSpec) : bool :=
  existsb (in_security (λ security, privileged security || adds_capabilities security)) (allContainers podSpec).
Definition podHasPrivilegedContainer (pod : Pod) : bool :=
  existsb (in_security privileged) (spec_Containers (pod_Spec pod)).
Definition podSpecUsesDefaultServiceAccount (podSpec : PodSpec) : bool :=
  (spec_ServiceAccountName podSpec == "") || (spec_ServiceAccountName podSpec == "default").
Definition podSpecAutomountsServiceAccountToken (podSpec : PodSpec) : bool :=
  default true (spec_AutomountServiceAccountToken podSpec).

(** * Workloads *)

Record workloadTarget := mkWorkloadTarget {
  workload_APIVersion : string;
  workload_Kind : string;
  workload_Namespace : string;
  workload_Name : string;
  workload_Labels : gmap string string;
  workload_Replicas : Z;
  workload_PodSpec : PodSpec
}.
Definition workload_Ref (w : workloadTarget) : ResourceRef :=
  mkResourceRef (workload_APIVersion w) (workload_Kind w) (workload_Namespace w) (workload_Name w).

Definition deploymentReplicas (deployment : ReplicatedWorkload) : Z := default 1 (rw_Replicas deployment).
Definition replicated_target (kind : string) (w : ReplicatedWorkload) : workloadTarget :=
  mkWorkloadTarget "apps/v1" kind (km_Namespace (rw_Meta w)) (km_Name (rw_Meta w)) (rw_TemplateLabels w)
    (deploymentReplicas w) (rw_PodSpec w).
Definition daemon_target (d : DaemonSet) : workloadTarget :=
  mkWorkloadTarget "apps/v1" "DaemonSet" (km_Namespace (ds_Meta d)) (km_Name (ds_Meta d)) (ds_TemplateLabels d) 2 (ds_PodSpec d).
Definition workloadTargets (deployments statefulSets : list ReplicatedWorkload) (daemonSets : list DaemonSet) : list workloadTarget :=
  map (replicated_target "Deployment") deployments ++ map (replicated_target "StatefulSet") statefulSets ++
  map daemon_target daemonSets.

Definition workloadHasPDB (workload : workloadTarget) (pdbs : list DisruptionBudget) : bool :=
  existsb (λ pdb, (km_Namespace (budget_Meta pdb) == workload_Namespace workload) &&
                  match budget_Selector pdb with
                  | Some selector => default false (SelectorMatches selector (workload_Labels workload))
                  | None => false
                  end) pdbs.

(** * The other objects *)

Definition podRestarting (pod : Pod) : bool := existsb (λ count, 3 <=? count) (pod_InitRestartCounts pod ++ pod_RestartCounts pod).

(** A missing label reads as the empty text. *)
Definition enforce_label (namespace : KubeMeta) : string :=
  default "" (km_Labels namespace !! "pod-security.kubernetes.io/enforce").
Definition missingPodSecurityLabel (namespace : KubeMeta) : bool :=
  (enforce_label namespace != "baseline") && (enforce_label namespace != "restricted").
Definition privilegedPodSecurityLabel (namespace : KubeMeta) : bool := enforce_label namespace == "privileged".

Definition ingressHasWildcardHost (ingress : Ingress) : bool := existsb (λ host, Contains host "*") (ingress_Hosts ingress).
Definition networkPolicyHasBroadIngress (policy : NetworkPolicy) : bool := existsb (λ peers, (peers =? 0)%nat) (policy_Ingress policy).
Definition networkPolicyHasBroadEgress (policy : NetworkPolicy) : bool := existsb (λ peers, (peers =? 0)%nat) (policy_Egress policy).

(** [ruleResourceMatches] and [ruleVerbMatches] *)
Definition rule_matches (values targets : list string) : bool :=
  existsb (λ value, (value == "*") || existsb (String.eqb value) targets) values.
Definition roleAllowsSecretRead (rules : list PolicyRule) : bool :=
  existsb (λ rule, rule_matches (rule_Resources rule) ["secrets"] && rule_matches (rule_Verbs rule) ["get"; "list"; "watch"]) rules.
Definition roleAllowsPrivilegeEscalation (rules : list PolicyRule) : bool :=
  existsb (λ rule, rule_matches (rule_Verbs rule) ["bind"; "escalate"; "impersonate"] ||
                   (rule_matches (rule_Resources rule) ["pods/exec"] && rule_matches (rule_Verbs rule) ["create"])) rules.
Definition containsWildcard (values : list string) : bool := existsb (String.eqb "*") values.
Definition hasWildcardRule (rules : list PolicyRule) : bool :=
  existsb (λ rule, containsWildcard (rule_Verbs rule) || containsWildcard (rule_APIGroups rule) || containsWildcard (rule_Resources rule)) rules.

Definition bindingHasUnauthenticatedSubject (binding : RoleBinding) : bool :=
  existsb (λ subject,
    ((subject_Kind subject == "Group") &&
       ((subject_Name subject == "system:unauthenticated") || (subject_Name subject == "system:authenticated"))) ||
    ((subject_Kind subject == "User") && (subject_Name subject == "system:anonymous"))) (binding_Subjects binding).

(** The first condition of that type decides. *)
Definition nodeReady (node : Node) : bool :=
  match List.find (λ condition, condition_Type condition == "Ready") (node_Conditions node) with
  | Some condition => condition_Status condition == "True"
  | None => false
  end.
Definition nodeUnderPressure (node : Node) : bool :=
  existsb (λ condition, bool_decide (condition_Type condition ∈ ["MemoryPressure"; "DiskPressure"; "PIDPressure"]) &&
                        (condition_Status condition == "True")) (node_Conditions node).
End Objects.

Definition isSystemNamespace (namespace : string) : bool :=
  bool_decide (namespace ∈ [""; "kube-system"; "kube-public"; "kube-node-lease"; "local-path-storage"]).
Definition isBuiltinClusterRoleBinding (name : string) : bool :=
  HasPrefix name "system:" || HasPrefix name "eks:" || HasPrefix name "kubeadm:".
Definition isBuiltinClusterRole (name : string) : bool :=
  isBuiltinClusterRoleBinding name || bool_decide (name ∈ ["admin"; "cluster-admin"; "edit"; "view"]).

(** * Identifiers *)

Definition id_byte (c : Ascii.ascii) : bool := is_digit c || ((97 <=? byte_code c) && (byte_code c <=? 122)).
(** The letters and digits; runs of other characters become one dash. [lastDash]: the last one written. *)
Fixpoint dashed (lastDash : bool) (s : string) : string :=
  match s with
  | EmptyString => EmptyString
  | String c rest =>
      if id_byte c then String c (dashed false rest)
      else if lastDash then dashed true rest else String (byte_of_code 45) (dashed true rest)
  end.
Definition safeID (parts : list string) : string := Trim (dashed false (ToLower (Join parts "-"))) "-".

Example safeID_ex : (safeID ["Shop"; "web.v1_"], safeID ["a-b"; "c"] == safeID ["a"; "b-c"]) = ("shop-web-v1", true).
Proof. vm_compute. reflexivity. Qed.
Example mutable_ex : map imageIsMutable
    ["nginx"; "nginx:latest"; "nginx:1.27"; "reg:5000/nginx"; "reg:5000/a:b"; "x@sha256:00"; "nginx:"] =
  [true; true; false; true; false; false; true].
Proof. vm_compute. reflexivity. Qed.
