(* ===== verification/Inspector.v ===== *)
(** The posture scan of the cluster inspector, [services/api/internal/cluster/inspector.go]: what is found in the
    objects of a cluster, the compliance controls, and [Snapshot] over the list calls.

    The limit of twelve seconds for all list calls shows as an error of one of them. *)
From S2P Require Import Prelude GoLib Interaction Core ClusterObjects.

Local Open Scope Z_scope.

Section Inspector.
Context {L : ClusterLibrary}.

(** What the list calls answer, of [ServiceAccounts], [ConfigMaps], [Jobs], [HorizontalPodAutoscalers] and [Events]
    only how many there are. *)
Record Cluster := mkCluster {
  cluster_Nodes : list Node;
  cluster_Namespaces : list KubeMeta;
  cluster_Pods : list Pod;
  cluster_Services : list Service;
  cluster_ServiceAccounts : Z;
  cluster_ConfigMaps : Z;
  cluster_ResourceQuotas : list KubeMeta;
  cluster_LimitRanges : list KubeMeta;
  cluster_PVCs : list PersistentVolumeClaim;
  cluster_Events : Z;
  cluster_Deployments : list ReplicatedWorkload;
  cluster_StatefulSets : list ReplicatedWorkload;
  cluster_DaemonSets : list DaemonSet;
  cluster_Jobs : Z;
  cluster_Ingresses : list Ingress;
  cluster_NetworkPolicies : list NetworkPolicy;
  cluster_PDBs : list DisruptionBudget;
  cluster_HPAs : Z;
  cluster_Roles : list Role;
  cluster_RoleBindings : list RoleBinding;
  cluster_ClusterRoles : list Role;
  cluster_ClusterRoleBindings : list RoleBinding
}.

(** * Findings *)

Definition resource_keys (resource : ResourceRef) : CorrelationKeys :=
  let kind := ref_Kind resource in
  zero_CorrelationKeys
    <| keys_Namespace := if kind == "Namespace" then ref_Name resource else ref_Namespace resource |>
    <| keys_Workload := if bool_decide (kind ∈ ["Deployment"; "StatefulSet"; "DaemonSet"; "ReplicaSet"; "Pod"])
                        then ref_Namespace resource +:+ "/" +:+ kind +:+ "/" +:+ ref_Name resource else "" |>
    <| keys_Identity := if bool_decide (kind ∈ ["Role"; "RoleBinding"; "ClusterRole"; "ClusterRoleBinding"; "ServiceAccount"])
                        then ref_String resource else "" |>
    <| keys_NetworkExposure := if bool_decide (kind ∈ ["Service"; "Ingress"; "NetworkPolicy"]) then ref_String resource else "" |>.

Definition newClusterFinding (now : Time) (id source title severity : string) (resource : ResourceRef)
    (evidence fixability remediationState : string) (riskScore : Z) (recommendation : string) : Finding :=
  zero_Finding
    <| finding_ID := id |> <| finding_Source := source |> <| finding_Title := title |> <| finding_Severity := severity |>
    <| finding_Evidence := [mkEvidence title evidence "kubeathrix/live-scan" now] |>
    <| finding_Resources := [resource] |> <| finding_BlastRadius := evidence |> <| finding_Fixability := fixability |>
    <| finding_Status := FindingOpen |>
    <| finding_CorrelationGroup := Trim (safeID [ref_Namespace resource; ref_Kind resource; ref_Name resource]) "-" |>
    <| finding_CorrelationKeys := resource_keys resource |> <| finding_RiskScore := riskScore |>
    <| finding_RemediationState := remediationState |> <| finding_RecommendedAction := recommendation |>
    <| finding_CreatedAt := now |> <| finding_UpdatedAt := now |>.

Definition when (cond : bool) (finding : Finding) : list Finding := if cond then [finding] else [].

Definition binds_cluster_admin (binding : RoleBinding) : bool :=
  (roleRef_Kind (binding_RoleRef binding) == "ClusterRole") && (roleRef_Name (binding_RoleRef binding) == "cluster-admin").

(** [quotaNamespaceSet], [limitRangeNamespaceSet] and [networkPolicyNamespaceSet]: one of the objects is in the namespace. *)
Definition guarded (namespace : KubeMeta) (objects : list KubeMeta) : bool :=
  bool_decide (km_Name namespace ∈ map km_Namespace objects).

Definition node_findings (now : Time) (node : Node) : list Finding :=
  when (negb (nodeReady node))
    (newClusterFinding now ("scan-node-not-ready-" +:+ safeID [km_Name (node_Meta node)]) "kubeathrix-scan" "Node is not Ready"
       SeverityHigh (mkResourceRef "v1" "Node" "" (km_Name (node_Meta node)))
       "The node is not reporting Ready and may reduce scheduling capacity or availability."
       FixabilityInformational "triage_required" 78
       "Inspect node conditions, kubelet health, and cloud provider events.") ++
  when (nodeUnderPressure node)
    (newClusterFinding now ("scan-node-pressure-" +:+ safeID [km_Name (node_Meta node)]) "kubeathrix-scan" "Node reports resource pressure"
       SeverityMedium (mkResourceRef "v1" "Node" "" (km_Name (node_Meta node)))
       "The node reports memory, disk, or PID pressure."
       FixabilityInformational "triage_required" 68
       "Review noisy workloads, eviction events, and node capacity before scheduling more pods.").

Definition namespace_findings (now : Time) (c : Cluster) (namespace : KubeMeta) : list Finding :=
  if isSystemNamespace (km_Name namespace) then [] else
  when (negb (guarded namespace (cluster_ResourceQuotas c)) || negb (guarded namespace (cluster_LimitRanges c)))
    (newClusterFinding now ("scan-namespace-governance-" +:+ safeID [km_Name namespace]) "kubeathrix-scan" "Namespace lacks resource governance"
       SeverityMedium (mkResourceRef "v1" "Namespace" "" (km_Name namespace))
       "No ResourceQuota or LimitRange fully bounds workload requests in this namespace."
       FixabilityDeterministic "autofix_available" 58
       "Apply a namespace-scoped ResourceQuota and default LimitRange.") ++
  when (negb (guarded namespace (map policy_Meta (cluster_NetworkPolicies c))))
    (newClusterFinding now ("scan-networkpolicy-" +:+ safeID [km_Name namespace]) "kubeathrix-scan" "Namespace has no NetworkPolicy guardrail"
       SeverityMedium (mkResourceRef "v1" "Namespace" "" (km_Name namespace))
       "Pods in this namespace have no namespace-local NetworkPolicy object to constrain traffic."
       FixabilityGated "dry_run_ready" 64
       "Create a default-deny baseline and explicit allow policies after review.") ++
  when (missingPodSecurityLabel namespace)
    (newClusterFinding now ("scan-namespace-pod-security-" +:+ safeID [km_Name namespace]) "kubeathrix-scan" "Namespace lacks Pod Security enforcement label"
       SeverityMedium (mkResourceRef "v1" "Namespace" "" (km_Name namespace))
       "The namespace does not set pod-security.kubernetes.io/enforce to baseline or restricted."
       FixabilityDeterministic "autofix_available" 57
       "Set Pod Security admission labels that match the namespace risk tier.") ++
  when (privilegedPodSecurityLabel namespace)
    (newClusterFinding now ("scan-namespace-pod-security-privileged-" +:+ safeID [km_Name namespace]) "kubeathrix-scan" "Namespace allows privileged Pod Security level"
       SeverityHigh (mkResourceRef "v1" "Namespace" "" (km_Name namespace))
       "The namespace explicitly enforces the privileged Pod Security level."
       FixabilityHumanOnly "approval_required" 84
       "Review workloads and move the namespace to baseline or restricted where possible.").

Definition service_findings (now : Time) (service : Service) : list Finding :=
  if isSystemNamespace (km_Namespace (service_Meta service)) then [] else
  when (service_Type service == "LoadBalancer")
    (newClusterFinding now ("scan-public-service-" +:+ safeID [km_Namespace (service_Meta service); km_Name (service_Meta service)]) "kubeathrix-scan" "Service is exposed through a LoadBalancer"
       SeverityHigh (mkResourceRef "v1" "Service" (km_Namespace (service_Meta service)) (km_Name (service_Meta service)))
       "The service creates a cloud-facing load balancer and should be reviewed against ingress policy."
       FixabilityHumanOnly "approval_required" 86
       "Validate intended exposure, source restrictions, and ownership before changing service type or ingress policy.") ++
  when (service_Type service == "NodePort")
    (newClusterFinding now ("scan-nodeport-service-" +:+ safeID [km_Namespace (service_Meta service); km_Name (service_Meta service)]) "kubeathrix-scan" "Service exposes a NodePort"
       SeverityMedium (mkResourceRef "v1" "Service" (km_Namespace (service_Meta service)) (km_Name (service_Meta service)))
       "NodePort opens a port on every node and can broaden the reachable surface."
       FixabilityGated "dry_run_ready" 66
       "Confirm the exposure is required or migrate behind controlled ingress.") ++
  when (negb (bool_decide (service_ExternalIPs service = [])))
    (newClusterFinding now ("scan-externalip-service-" +:+ safeID [km_Namespace (service_Meta service); km_Name (service_Meta service)]) "kubeathrix-scan" "Service uses externalIPs"
       SeverityHigh (mkResourceRef "v1" "Service" (km_Namespace (service_Meta service)) (km_Name (service_Meta service)))
       "Service externalIPs can route traffic outside normal load balancer and ingress controls."
       FixabilityHumanOnly "approval_required" 81
       "Validate ownership of external IPs and remove the field if not explicitly required.").

Definition ingress_findings (now : Time) (ingress : Ingress) : list Finding :=
  if isSystemNamespace (km_Namespace (ingress_Meta ingress)) then [] else
  let target := mkResourceRef "networking.k8s.io/v1" "Ingress" (km_Namespace (ingress_Meta ingress)) (km_Name (ingress_Meta ingress)) in
  when (bool_decide (ingress_TLS ingress = []))
    (newClusterFinding now ("scan-ingress-tls-" +:+ safeID [km_Namespace (ingress_Meta ingress); km_Name (ingress_Meta ingress)]) "kubeathrix-scan" "Ingress has no TLS configuration"
       SeverityMedium target
       "The Ingress does not declare TLS blocks for its hosts."
       FixabilityGated "dry_run_ready" 63
       "Attach a TLS secret and verify certificate ownership before exposing traffic.") ++
  when (ingressHasWildcardHost ingress)
    (newClusterFinding now ("scan-ingress-wildcard-" +:+ safeID [km_Namespace (ingress_Meta ingress); km_Name (ingress_Meta ingress)]) "kubeathrix-scan" "Ingress uses wildcard host routing"
       SeverityMedium target
       "Wildcard host rules can accidentally expose additional hostnames."
       FixabilityHumanOnly "approval_required" 69
       "Replace wildcard hosts with explicit hostnames unless ownership is proven.").

Definition pvc_findings (now : Time) (pvc : PersistentVolumeClaim) : list Finding :=
  if isSystemNamespace (km_Namespace (pvc_Meta pvc)) then [] else
  let target := mkResourceRef "v1" "PersistentVolumeClaim" (km_Namespace (pvc_Meta pvc)) (km_Name (pvc_Meta pvc)) in
  when (pvc_Phase pvc != "Bound")
    (newClusterFinding now ("scan-pvc-not-bound-" +:+ safeID [km_Namespace (pvc_Meta pvc); km_Name (pvc_Meta pvc)]) "kubeathrix-scan" "PersistentVolumeClaim is not bound"
       SeverityMedium target
       "A PVC is not Bound and can block workload scheduling or recovery."
       FixabilityInformational "triage_required" 60
       "Inspect storage class, events, capacity, and access mode compatibility.") ++
  when (default "" (pvc_StorageClassName pvc) == "")
    (newClusterFinding now ("scan-pvc-storageclass-" +:+ safeID [km_Namespace (pvc_Meta pvc); km_Name (pvc_Meta pvc)]) "kubeathrix-scan" "PersistentVolumeClaim has no StorageClass"
       SeverityLow target
       "PVC provisioning is not explicitly tied to a StorageClass."
       FixabilityGated "dry_run_ready" 42
       "Set an approved StorageClass or document the static provisioning path.").

Definition workload_findings (now : Time) (pdbs : list DisruptionBudget) (workload : workloadTarget) : list Finding :=
  if isSystemNamespace (workload_Namespace workload) then [] else
  let target := workload_Ref workload in
  let podSpec := workload_PodSpec workload in
  when (podSpecMissingResources podSpec)
    (newClusterFinding now ("scan-workload-resources-" +:+ safeID [workload_Namespace workload; workload_Name workload]) "kubeathrix-scan" (workload_Kind workload +:+ " containers miss resource requests or limits")
       SeverityMedium target
       "One or more containers do not specify CPU and memory requests and limits."
       FixabilityDeterministic "autofix_available" 62
       "Patch workload resources with bounded defaults after dry-run validation.") ++
  when (podSpecMissingReadiness podSpec)
    (newClusterFinding now ("scan-workload-readiness-" +:+ safeID [workload_Namespace workload; workload_Name workload]) "kubeathrix-scan" (workload_Kind workload +:+ " lacks readiness probes")
       SeverityMedium target
       "One or more containers cannot prove request-serving readiness during rollouts."
       FixabilityGated "dry_run_ready" 67
       "Add readiness probes and verify rollout health.") ++
  when (podSpecMissingLiveness podSpec)
    (newClusterFinding now ("scan-workload-liveness-" +:+ safeID [workload_Namespace workload; workload_Name workload]) "kubeathrix-scan" (workload_Kind workload +:+ " lacks liveness probes")
       SeverityLow target
       "One or more containers do not declare a liveness probe."
       FixabilityGated "dry_run_ready" 48
       "Add liveness probes only where restart behavior is well understood.") ++
  when ((1 <? workload_Replicas workload) && negb (workloadHasPDB workload pdbs))
    (newClusterFinding now ("scan-workload-pdb-" +:+ safeID [workload_Namespace workload; workload_Name workload]) "kubeathrix-scan" ("Replicated " +:+ workload_Kind workload +:+ " lacks disruption protection")
       SeverityLow target
       "Voluntary disruptions may evict too many replicas because no matching PodDisruptionBudget was found."
       FixabilityGated "dry_run_ready" 46
       "Create a scoped PodDisruptionBudget and verify it matches the workload labels.") ++
  when (podSpecUsesMutableImages podSpec)
    (newClusterFinding now ("scan-workload-image-mutability-" +:+ safeID [workload_Namespace workload; workload_Name workload]) "kubeathrix-scan" (workload_Kind workload +:+ " uses mutable image tags")
       SeverityMedium target
       "One or more containers use the latest tag or omit an immutable digest."
       FixabilityGated "dry_run_ready" 65
       "Pin workload images to reviewed version tags or immutable digests.") ++
  when (podSpecMissingRuntimeHardening podSpec)
    (newClusterFinding now ("scan-workload-runtime-hardening-" +:+ safeID [workload_Namespace workload; workload_Name workload]) "kubeathrix-scan" (workload_Kind workload +:+ " misses restricted runtime settings")
       SeverityMedium target
       "The pod template does not consistently set runAsNonRoot, seccomp, and dropped capabilities."
       FixabilityGated "dry_run_ready" 70
       "Apply restricted securityContext settings after validating workload compatibility.") ++
  when (podSpecAllowsHostAccess podSpec)
    (newClusterFinding now ("scan-workload-host-access-" +:+ safeID [workload_Namespace workload; workload_Name workload]) "kubeathrix-scan" (workload_Kind workload +:+ " requests host-level access")
       SeverityHigh target
       "The pod template uses host namespaces, host networking, or hostPath volumes."
       FixabilityHumanOnly "approval_required" 87
       "Validate host access requirements and replace with scoped Kubernetes APIs where possible.") ++
  when (podSpecHasElevatedCapabilities podSpec)
    (newClusterFinding now ("scan-workload-capabilities-" +:+ safeID [workload_Namespace workload; workload_Name workload]) "kubeathrix-scan" (workload_Kind workload +:+ " grants elevated Linux capabilities")
       SeverityHigh target
       "One or more containers add Linux capabilities or allow privilege escalation."
       FixabilityHumanOnly "approval_required" 82
       "Remove added capabilities and privilege escalation unless explicitly approved.") ++
  when (podSpecUsesDefaultServiceAccount podSpec)
    (newClusterFinding now ("scan-workload-default-serviceaccount-" +:+ safeID [workload_Namespace workload; workload_Name workload]) "kubeathrix-scan" (workload_Kind workload +:+ " uses the default ServiceAccount")
       SeverityLow target
       "The pod template uses the namespace default ServiceAccount instead of a workload-scoped identity."
       FixabilityDeterministic "autofix_available" 44
       "Create a workload-specific ServiceAccount with least-privilege RBAC.") ++
  when (podSpecAutomountsServiceAccountToken podSpec)
    (newClusterFinding now ("scan-workload-serviceaccount-token-" +:+ safeID [workload_Namespace workload; workload_Name workload]) "kubeathrix-scan" (workload_Kind workload +:+ " automounts a ServiceAccount token")
       SeverityLow target
       "The pod template does not disable ServiceAccount token automounting."
       FixabilityGated "dry_run_ready" 40
       "Disable automountServiceAccountToken for workloads that do not call the Kubernetes API.").

Definition pod_findings (now : Time) (pod : Pod) : list Finding :=
  if isSystemNamespace (km_Namespace (pod_Meta pod)) then [] else
  when (pod_Phase pod == "Failed")
    (newClusterFinding now ("scan-pod-failed-" +:+ safeID [km_Namespace (pod_Meta pod); km_Name (pod_Meta pod)]) "kubeathrix-scan" "Pod is Failed"
       SeverityMedium (mkResourceRef "v1" "Pod" (km_Namespace (pod_Meta pod)) (km_Name (pod_Meta pod)))
       "A pod is in Failed phase and may represent a failed workload or job."
       FixabilityInformational "triage_required" 58
       "Inspect pod status, events, and owning controller.") ++
  when (pod_Phase pod == "Pending")
    (newClusterFinding now ("scan-pod-pending-" +:+ safeID [km_Namespace (pod_Meta pod); km_Name (pod_Meta pod)]) "kubeathrix-scan" "Pod is Pending"
       SeverityLow (mkResourceRef "v1" "Pod" (km_Namespace (pod_Meta pod)) (km_Name (pod_Meta pod)))
       "A pod is Pending and may be blocked by scheduling, image pull, or storage."
       FixabilityInformational "triage_required" 49
       "Inspect scheduling events, image pull state, and PVC binding.") ++
  when (podRestarting pod)
    (newClusterFinding now ("scan-pod-restarts-" +:+ safeID [km_Namespace (pod_Meta pod); km_Name (pod_Meta pod)]) "kubeathrix-scan" "Pod has repeated restarts"
       SeverityMedium (mkResourceRef "v1" "Pod" (km_Namespace (pod_Meta pod)) (km_Name (pod_Meta pod)))
       "One or more containers have restarted repeatedly."
       FixabilityInformational "triage_required" 61
       "Review logs, probes, resource limits, and recent deployments.") ++
  when (podHasPrivilegedContainer pod)
    (newClusterFinding now ("scan-privileged-pod-" +:+ safeID [km_Namespace (pod_Meta pod); km_Name (pod_Meta pod)]) "kubeathrix-scan" "Pod permits privileged container behavior"
       SeverityHigh (mkResourceRef "v1" "Pod" (km_Namespace (pod_Meta pod)) (km_Name (pod_Meta pod)))
       "A container is privileged or allows privilege escalation."
       FixabilityHumanOnly "approval_required" 88
       "Review workload requirements and enforce restricted security context.").

Definition policy_findings (now : Time) (policy : NetworkPolicy) : list Finding :=
  if isSystemNamespace (km_Namespace (policy_Meta policy)) then [] else
  when (networkPolicyHasBroadIngress policy)
    (newClusterFinding now ("scan-networkpolicy-broad-ingress-" +:+ safeID [km_Namespace (policy_Meta policy); km_Name (policy_Meta policy)]) "kubeathrix-scan" "NetworkPolicy allows broad ingress"
       SeverityMedium (mkResourceRef "networking.k8s.io/v1" "NetworkPolicy" (km_Namespace (policy_Meta policy)) (km_Name (policy_Meta policy)))
       "A NetworkPolicy ingress rule has no source restrictions."
       FixabilityGated "dry_run_ready" 59
       "Constrain ingress peers and ports to the required callers.") ++
  when (networkPolicyHasBroadEgress policy)
    (newClusterFinding now ("scan-networkpolicy-broad-egress-" +:+ safeID [km_Namespace (policy_Meta policy); km_Name (policy_Meta policy)]) "kubeathrix-scan" "NetworkPolicy allows broad egress"
       SeverityMedium (mkResourceRef "networking.k8s.io/v1" "NetworkPolicy" (km_Namespace (policy_Meta policy)) (km_Name (policy_Meta policy)))
       "A NetworkPolicy egress rule has no destination restrictions."
       FixabilityGated "dry_run_ready" 58
       "Constrain egress peers and ports to known dependencies.").

Definition role_findings (now : Time) (role : Role) : list Finding :=
  if isSystemNamespace (km_Namespace (role_Meta role)) then [] else
  let target := mkResourceRef "rbac.authorization.k8s.io/v1" "Role" (km_Namespace (role_Meta role)) (km_Name (role_Meta role)) in
  when (hasWildcardRule (role_Rules role))
    (newClusterFinding now ("scan-role-wildcard-" +:+ safeID [km_Namespace (role_Meta role); km_Name (role_Meta role)]) "kubeathrix-scan" "Namespace Role grants wildcard permissions"
       SeverityHigh target
       "The role contains wildcard verbs, API groups, or resources."
       FixabilityHumanOnly "approval_required" 82
       "Replace broad RBAC with explicit resources and verbs.") ++
  when (roleAllowsSecretRead (role_Rules role))
    (newClusterFinding now ("scan-role-secret-read-" +:+ safeID [km_Namespace (role_Meta role); km_Name (role_Meta role)]) "kubeathrix-scan" "Namespace Role can read Secrets"
       SeverityHigh target
       "The role can get, list, or watch Secret resources."
       FixabilityHumanOnly "approval_required" 80
       "Narrow Secret access to exact workloads and rotate credentials if access is unexpected.") ++
  when (roleAllowsPrivilegeEscalation (role_Rules role))
    (newClusterFinding now ("scan-role-rbac-escalation-" +:+ safeID [km_Namespace (role_Meta role); km_Name (role_Meta role)]) "kubeathrix-scan" "Namespace Role can escalate RBAC privilege"
       SeverityHigh target
       "The role grants bind, escalate, impersonate, or pod exec privileges."
       FixabilityHumanOnly "approval_required" 83
       "Remove escalation verbs and require explicit break-glass approval.").

Definition roleBinding_findings (now : Time) (binding : RoleBinding) : list Finding :=
  if isSystemNamespace (km_Namespace (binding_Meta binding)) then [] else
  when (binds_cluster_admin binding)
    (newClusterFinding now ("scan-rolebinding-clusteradmin-" +:+ safeID [km_Namespace (binding_Meta binding); km_Name (binding_Meta binding)]) "kubeathrix-scan" "RoleBinding grants cluster-admin in namespace"
       SeverityHigh (mkResourceRef "rbac.authorization.k8s.io/v1" "RoleBinding" (km_Namespace (binding_Meta binding)) (km_Name (binding_Meta binding)))
       "A namespace RoleBinding references the cluster-admin ClusterRole."
       FixabilityHumanOnly "approval_required" 85
       "Replace cluster-admin with a namespace-scoped least-privilege role.").

Definition clusterRole_findings (now : Time) (clusterRole : Role) : list Finding :=
  if isBuiltinClusterRole (km_Name (role_Meta clusterRole)) then [] else
  let target := mkResourceRef "rbac.authorization.k8s.io/v1" "ClusterRole" "" (km_Name (role_Meta clusterRole)) in
  when (hasWildcardRule (role_Rules clusterRole))
    (newClusterFinding now ("scan-clusterrole-wildcard-" +:+ safeID [km_Name (role_Meta clusterRole)]) "kubeathrix-scan" "ClusterRole grants wildcard permissions"
       SeverityHigh target
       "The cluster role contains wildcard verbs, API groups, or resources."
       FixabilityHumanOnly "approval_required" 84
       "Constrain the role to explicit least-privilege rules.") ++
  when (roleAllowsSecretRead (role_Rules clusterRole))
    (newClusterFinding now ("scan-clusterrole-secret-read-" +:+ safeID [km_Name (role_Meta clusterRole)]) "kubeathrix-scan" "ClusterRole can read Secrets"
       SeverityHigh target
       "The cluster role can get, list, or watch Secret resources across namespaces."
       FixabilityHumanOnly "approval_required" 86
       "Narrow Secret access or bind it only to explicitly approved controllers.") ++
  when (roleAllowsPrivilegeEscalation (role_Rules clusterRole))
    (newClusterFinding now ("scan-clusterrole-rbac-escalation-" +:+ safeID [km_Name (role_Meta clusterRole)]) "kubeathrix-scan" "ClusterRole can escalate RBAC privilege"
       SeverityHigh target
       "The cluster role grants bind, escalate, impersonate, or pod exec privileges."
       FixabilityHumanOnly "approval_required" 88
       "Remove escalation paths or move them behind break-glass controls.").

Definition clusterRoleBinding_findings (now : Time) (binding : RoleBinding) : list Finding :=
  when (binds_cluster_admin binding && negb (isBuiltinClusterRoleBinding (km_Name (binding_Meta binding))))
    (newClusterFinding now ("scan-clusteradmin-binding-" +:+ safeID [km_Name (binding_Meta binding)]) "kubeathrix-scan" "ClusterRoleBinding grants cluster-admin"
       SeverityCritical (mkResourceRef "rbac.authorization.k8s.io/v1" "ClusterRoleBinding" "" (km_Name (binding_Meta binding)))
       "A subject is bound to cluster-admin outside the expected Kubernetes system bindings."
       FixabilityHumanOnly "approval_required" 95
       "Verify owner, expiry, and remove or narrow cluster-admin access.") ++
  when (bindingHasUnauthenticatedSubject binding)
    (newClusterFinding now ("scan-clusterrolebinding-public-subject-" +:+ safeID [km_Name (binding_Meta binding)]) "kubeathrix-scan" "ClusterRoleBinding targets unauthenticated subjects"
       SeverityCritical (mkResourceRef "rbac.authorization.k8s.io/v1" "ClusterRoleBinding" "" (km_Name (binding_Meta binding)))
       "The binding includes system:unauthenticated, system:anonymous, or system:authenticated as a subject."
       FixabilityHumanOnly "approval_required" 92
       "Remove broad public subjects and bind explicit service accounts or groups only.").


(** By risk, the highest first, then by identifier. *)
Definition finding_before (x y : Finding) : bool :=
  if finding_RiskScore x =? finding_RiskScore y then String.ltb (finding_ID x) (finding_ID y)
  else finding_RiskScore y <? finding_RiskScore x.

Definition workloads (c : Cluster) : list workloadTarget :=
  workloadTargets (cluster_Deployments c) (cluster_StatefulSets c) (cluster_DaemonSets c).

Definition unsorted_findings (now : Time) (c : Cluster) : list Finding :=
  flat_map (node_findings now) (cluster_Nodes c) ++
  flat_map (namespace_findings now c) (cluster_Namespaces c) ++
  flat_map (service_findings now) (cluster_Services c) ++
  flat_map (ingress_findings now) (cluster_Ingresses c) ++
  flat_map (pvc_findings now) (cluster_PVCs c) ++
  flat_map (workload_findings now (cluster_PDBs c)) (workloads c) ++
  flat_map (pod_findings now) (cluster_Pods c) ++
  flat_map (policy_findings now) (cluster_NetworkPolicies c) ++
  flat_map (role_findings now) (cluster_Roles c) ++
  flat_map (roleBinding_findings now) (cluster_RoleBindings c) ++
  flat_map (clusterRole_findings now) (cluster_ClusterRoles c) ++
  flat_map (clusterRoleBinding_findings now) (cluster_ClusterRoleBindings c).
Definition scanFindings (now : Time) (c : Cluster) : list Finding := sort_slice finding_before (unsorted_findings now c).

(** * The inventory and the controls *)

Definition count {A} (l : list A) : Z := Z.of_nat (length l).
Definition count_if {A} (p : A → bool) (l : list A) : Z := count (List.filter p l).

Definition readyNodeCount (nodes : list Node) : Z :=
  count_if (λ node, existsb (λ condition, (condition_Type condition == "Ready") && (condition_Status condition == "True"))
                      (node_Conditions node)) nodes.
Definition podPhaseCount (pods : list Pod) (phase : string) : Z := count_if (λ pod, pod_Phase pod == phase) pods.

Definition inventory_of (c : Cluster) : ClusterInventory := {|
  inventory_Nodes := count (cluster_Nodes c);
  inventory_ReadyNodes := readyNodeCount (cluster_Nodes c);
  inventory_Namespaces := count (cluster_Namespaces c);
  inventory_Pods := count (cluster_Pods c);
  inventory_RunningPods := podPhaseCount (cluster_Pods c) "Running";
  inventory_PendingPods := podPhaseCount (cluster_Pods c) "Pending";
  inventory_Deployments := count (cluster_Deployments c);
  inventory_StatefulSets := count (cluster_StatefulSets c);
  inventory_DaemonSets := count (cluster_DaemonSets c);
  inventory_Services := count (cluster_Services c);
  inventory_Ingresses := count (cluster_Ingresses c);
  inventory_Jobs := cluster_Jobs c;
  inventory_ConfigMaps := cluster_ConfigMaps c;
  inventory_Secrets := 0;
  inventory_ServiceAccounts := cluster_ServiceAccounts c;
  inventory_Roles := count (cluster_Roles c);
  inventory_RoleBindings := count (cluster_RoleBindings c);
  inventory_ClusterRoles := count (cluster_ClusterRoles c);
  inventory_ClusterRoleBindings := count (cluster_ClusterRoleBindings c);
  inventory_NetworkPolicies := count (cluster_NetworkPolicies c);
  inventory_ResourceQuotas := count (cluster_ResourceQuotas c);
  inventory_LimitRanges := count (cluster_LimitRanges c);
  inventory_PersistentVolumeClaims := count (cluster_PVCs c);
  inventory_PodDisruptionBudgets := count (cluster_PDBs c);
  inventory_HorizontalPodAutoscalers := cluster_HPAs c;
  inventory_Events := cluster_Events c
|}.

Definition control (id framework title severity : string) (failed : bool) (evidence : string) : ComplianceControl :=
  mkComplianceControl id framework title (if failed then "fail" else "pass") severity evidence.

Definition has_finding (findings : list Finding) (prefix : string) : bool :=
  existsb (λ finding, HasPrefix (finding_ID finding) prefix) findings.
Definition complianceControls (inventory : ClusterInventory) (findings : list Finding) : list ComplianceControl :=
  let hasFinding := has_finding findings in
  [control "KA-K8S-001" "Kubernetes baseline" "Workloads define CPU and memory requests and limits" SeverityMedium
     (hasFinding "scan-workload-resources-")
     "Resource requirements bound scheduler and noisy-neighbor risk.";
   control "KA-K8S-002" "Kubernetes baseline" "Namespaces use ResourceQuota and LimitRange guardrails" SeverityMedium
     (hasFinding "scan-namespace-governance-")
     (Itoa (inventory_ResourceQuotas inventory) +:+ " quotas and " +:+ Itoa (inventory_LimitRanges inventory) +:+ " limit ranges observed.");
   control "KA-K8S-003" "NSA/CISA Kubernetes" "Namespaces use NetworkPolicy isolation" SeverityMedium
     (hasFinding "scan-networkpolicy-")
     (Itoa (inventory_NetworkPolicies inventory) +:+ " network policies observed.");
   control "KA-K8S-004" "Pod Security Standards" "Privileged container behavior is absent" SeverityHigh
     (hasFinding "scan-privileged-pod-")
     "Privileged and privilege-escalating containers should be removed or explicitly approved.";
   control "KA-K8S-005" "RBAC least privilege" "RBAC avoids wildcard, secret-read, escalation, and cluster-admin grants" SeverityHigh
     (hasFinding "scan-role-wildcard-" || hasFinding "scan-clusterrole-wildcard-" || hasFinding "scan-role-secret-read-" || hasFinding "scan-clusterrole-secret-read-" || hasFinding "scan-role-rbac-escalation-" || hasFinding "scan-clusterrole-rbac-escalation-" || hasFinding "scan-clusteradmin-binding-" || hasFinding "scan-rolebinding-clusteradmin-")
     "Broad permissions increase blast radius after compromise.";
   control "KA-K8S-006" "Reliability baseline" "Replicated workloads have disruption protection" SeverityLow
     (hasFinding "scan-workload-pdb-")
     (Itoa (inventory_PodDisruptionBudgets inventory) +:+ " PodDisruptionBudgets observed.");
   control "KA-K8S-007" "Pod Security Standards" "Namespaces enforce baseline or restricted Pod Security" SeverityMedium
     (hasFinding "scan-namespace-pod-security-")
     "Pod Security labels define namespace-level admission posture.";
   control "KA-K8S-008" "Workload hardening" "Workloads avoid host access and elevated capabilities" SeverityHigh
     (hasFinding "scan-workload-host-access-" || hasFinding "scan-workload-capabilities-" || hasFinding "scan-workload-runtime-hardening-")
     "Restricted runtime settings reduce container breakout blast radius.";
   control "KA-K8S-009" "Supply chain baseline" "Workloads avoid mutable image tags" SeverityMedium
     (hasFinding "scan-workload-image-mutability-")
     "Mutable image references make deployed code harder to prove and reproduce.";
   control "KA-K8S-010" "Traffic exposure" "Ingress and Service exposure are explicitly controlled" SeverityHigh
     (hasFinding "scan-public-service-" || hasFinding "scan-nodeport-service-" || hasFinding "scan-externalip-service-" || hasFinding "scan-ingress-tls-" || hasFinding "scan-ingress-wildcard-")
     "External traffic paths should be reviewed and encrypted.";
   control "KA-K8S-011" "Cluster health" "Nodes, pods, and PVCs are ready" SeverityMedium
     (hasFinding "scan-node-not-ready-" || hasFinding "scan-node-pressure-" || hasFinding "scan-pod-failed-" || hasFinding "scan-pod-pending-" || hasFinding "scan-pvc-not-bound-")
     "Readiness and binding failures reduce resilience."].

Definition countControls (controls : list ComplianceControl) (status : string) : Z :=
  count_if (λ c, control_Status c == status) controls.
Definition resourcesScanned (i : ClusterInventory) : Z :=
  inventory_Nodes i + inventory_Namespaces i + inventory_Pods i + inventory_Deployments i + inventory_StatefulSets i +
  inventory_DaemonSets i + inventory_Services i + inventory_Ingresses i + inventory_Jobs i + inventory_ConfigMaps i +
  inventory_ServiceAccounts i + inventory_Roles i + inventory_RoleBindings i + inventory_ClusterRoles i +
  inventory_ClusterRoleBindings i + inventory_NetworkPolicies i + inventory_ResourceQuotas i + inventory_LimitRanges i +
  inventory_PersistentVolumeClaims i + inventory_PodDisruptionBudgets i + inventory_HorizontalPodAutoscalers i.

Definition scan_summary (now : Time) (i : ClusterInventory) (compliance : list ComplianceControl) : ScanSummary := {|
  scan_LastRunAt := now;
  scan_ResourcesScanned := resourcesScanned i;
  scan_PolicyChecks := inventory_Namespaces i + inventory_NetworkPolicies i + inventory_ResourceQuotas i +
    inventory_LimitRanges i + inventory_PodDisruptionBudgets i + inventory_Ingresses i;
  scan_PermissionChecks := inventory_Roles i + inventory_RoleBindings i + inventory_ClusterRoles i + inventory_ClusterRoleBindings i;
  scan_ConfigurationChecks := inventory_Nodes i + inventory_Pods i + inventory_Deployments i + inventory_StatefulSets i +
    inventory_DaemonSets i + inventory_Services i + inventory_PersistentVolumeClaims i;
  scan_ComplianceControls := count compliance;
  scan_PassedControls := countControls compliance "pass";
  scan_FailedControls := countControls compliance "fail"
|}.

Definition snapshot_of (now : Time) (c : Cluster) : ClusterSnapshot :=
  let inventory := inventory_of c in
  let findings := scanFindings now c in
  let compliance := complianceControls inventory findings in
  mkClusterSnapshot inventory findings (scan_summary now inventory compliance) compliance DefaultChaosExperiments.

(** * The list calls *)

Inductive InspectorE : Type → Type :=
| ListNodes : InspectorE (result (list Node))
| ListNamespaces : InspectorE (result (list KubeMeta))
| ListPods : InspectorE (result (list Pod))
| ListServices : InspectorE (result (list Service))
| CountServiceAccounts : InspectorE (result Z)
| CountConfigMaps : InspectorE (result Z)
| ListResourceQuotas : InspectorE (result (list KubeMeta))
| ListLimitRanges : InspectorE (result (list KubeMeta))
| ListPVCs : InspectorE (result (list PersistentVolumeClaim))
| CountEvents : InspectorE (result Z)
| ListDeployments : InspectorE (result (list ReplicatedWorkload))
| ListStatefulSets : InspectorE (result (list ReplicatedWorkload))
| ListDaemonSets : InspectorE (result (list DaemonSet))
| CountJobs : InspectorE (result Z)
| ListIngresses : InspectorE (result (list Ingress))
| ListNetworkPolicies : InspectorE (result (list NetworkPolicy))
| ListPDBs : InspectorE (result (list DisruptionBudget))
| CountHPAs : InspectorE (result Z)
| ListRoles : InspectorE (result (list Role))
| ListRoleBindings : InspectorE (result (list RoleBinding))
| ListClusterRoles : InspectorE (result (list Role))
| ListClusterRoleBindings : InspectorE (result (list RoleBinding))
| InspectorNow : InspectorE Time.

(** [items, err := ...List(...)], the error with its context. *)
Definition listed {A} (what : string) (e : InspectorE (result A)) : P InspectorE A :=
  prog_bind (λ r, Ret (with_context ("list " +:+ what) r)) (call e).

Definition list_cluster : P InspectorE Cluster :=
  nodes ← listed "nodes" ListNodes;
  namespaces ← listed "namespaces" ListNamespaces;
  pods ← listed "pods" ListPods;
  services ← listed "services" ListServices;
  serviceAccounts ← listed "serviceaccounts" CountServiceAccounts;
  configMaps ← listed "configmaps" CountConfigMaps;
  resourceQuotas ← listed "resourcequotas" ListResourceQuotas;
  limitRanges ← listed "limitranges" ListLimitRanges;
  pvcs ← listed "persistentvolumeclaims" ListPVCs;
  events ← listed "events" CountEvents;
  deployments ← listed "deployments" ListDeployments;
  statefulSets ← listed "statefulsets" ListStatefulSets;
  daemonSets ← listed "daemonsets" ListDaemonSets;
  jobs ← listed "jobs" CountJobs;
  ingresses ← listed "ingresses" ListIngresses;
  networkPolicies ← listed "networkpolicies" ListNetworkPolicies;
  pdbs ← listed "poddisruptionbudgets" ListPDBs;
  hpas ← listed "horizontalpodautoscalers" CountHPAs;
  roles ← listed "roles" ListRoles;
  roleBindings ← listed "rolebindings" ListRoleBindings;
  clusterRoles ← listed "clusterroles" ListClusterRoles;
  clusterRoleBindings ← listed "clusterrolebindings" ListClusterRoleBindings;
  mret (mkCluster nodes namespaces pods services serviceAccounts configMaps resourceQuotas limitRanges pvcs events
          deployments statefulSets daemonSets jobs ingresses networkPolicies pdbs hpas roles roleBindings clusterRoles
          clusterRoleBindings).

Definition Snapshot : P InspectorE ClusterSnapshot :=
  c ← list_cluster;
  now ← ask InspectorNow;
  mret (snapshot_of now c).
End Inspector.
