(* ===== verification/InspectorProps.v ===== *)
(** What the posture scan promises: the compliance controls of a snapshot in terms of the questions asked of the
    objects of the cluster; the shape of the findings; and what the planner makes of a finding the scan marks as a matter for people. *)
From S2P Require Import Prelude GoLib JsonProps Core ActionCatalog Planner ClusterObjects Inspector.

Local Open Scope Z_scope.

(** * Identifiers and their prefixes *)

(** How the identifiers of the rules start. *)
Definition rule_ids : list string :=
  ["scan-node-not-ready-"; "scan-node-pressure-"; "scan-namespace-governance-"; "scan-networkpolicy-"; "scan-namespace-pod-security-";
   "scan-namespace-pod-security-privileged-"; "scan-public-service-"; "scan-nodeport-service-"; "scan-externalip-service-";
   "scan-ingress-tls-"; "scan-ingress-wildcard-"; "scan-pvc-not-bound-"; "scan-pvc-storageclass-"; "scan-workload-resources-";
   "scan-workload-readiness-"; "scan-workload-liveness-"; "scan-workload-pdb-"; "scan-workload-image-mutability-";
   "scan-workload-runtime-hardening-"; "scan-workload-host-access-"; "scan-workload-capabilities-";
   "scan-workload-default-serviceaccount-"; "scan-workload-serviceaccount-token-"; "scan-pod-failed-"; "scan-pod-pending-";
   "scan-pod-restarts-"; "scan-privileged-pod-"; "scan-networkpolicy-broad-ingress-"; "scan-networkpolicy-broad-egress-";
   "scan-role-wildcard-"; "scan-role-secret-read-"; "scan-role-rbac-escalation-"; "scan-rolebinding-clusteradmin-";
   "scan-clusterrole-wildcard-"; "scan-clusterrole-secret-read-"; "scan-clusterrole-rbac-escalation-"; "scan-clusteradmin-binding-";
   "scan-clusterrolebinding-public-subject-"].

(** The prefix says nothing about the names that follow. *)
Definition decisive (prefix : string) : bool :=
  forallb (λ id, (String.length prefix <=? String.length id)%nat || negb (String.prefix id prefix)) rule_ids.

Lemma prefix_app_short p s x : (String.length p ≤ String.length s)%nat → String.prefix p (s +:+ x) = String.prefix p s.
Proof.
  revert s. induction p as [|d p IH]; intros [|c s]; cbn [String.length]; [by rewrite !prefix_nil.. | lia |].
  intros Hl. rewrite string_app_cons. cbn [String.prefix]. destruct (Ascii.ascii_dec d c); [|done]. apply IH. lia.
Qed.
Lemma prefix_app_clash p s x : String.prefix s p = false → String.prefix p (s +:+ x) = String.prefix p s.
Proof.
  revert p. induction s as [|c s IH]; intros [|d p]; [done.. | by rewrite !prefix_nil |]. rewrite string_app_cons.
  cbn [String.prefix]. destruct (Ascii.ascii_dec c d) as [<-|Hn]; [|by destruct (Ascii.ascii_dec d c); [congruence|]].
  destruct (Ascii.ascii_dec c c); [apply IH | done].
Qed.
Lemma id_prefix prefix id x : decisive prefix = true → bool_decide (id ∈ rule_ids) = true →
  HasPrefix (id +:+ x) prefix = HasPrefix id prefix.
Proof.
  unfold decisive, HasPrefix. rewrite forallb_forall. intros Hd Hid%bool_decide_eq_true%list_elem_of_In. apply Hd in Hid.
  apply orb_true_iff in Hid as [Hl%Nat.leb_le|Hc%negb_true_iff]; [by apply prefix_app_short | by apply prefix_app_clash].
Qed.

(** * What a finding with a prefix means *)

Section Scan.
Context {L : ClusterLibrary}.

Lemma has_finding_app l k p : has_finding (l ++ k) p = has_finding l p || has_finding k p.
Proof. apply existsb_app. Qed.
Lemma has_finding_flat_map {A} (g : A → list Finding) l p : has_finding (flat_map g l) p = existsb (λ x, has_finding (g x) p) l.
Proof. induction l as [|x l IH]; [done|]. cbn [flat_map existsb]. by rewrite has_finding_app, IH. Qed.
Lemma has_finding_sorted now c p : has_finding (scanFindings now c) p = has_finding (unsorted_findings now c) p.
Proof.
  apply eq_bool_prop_intro. unfold has_finding. rewrite !Is_true_true, !existsb_exists. 
  split; intros (x & Hx & Hp); exists x; (split; [|done]); apply list_elem_of_In; apply list_elem_of_In in Hx;
    by apply elem_of_sort_slice in Hx || apply elem_of_sort_slice.
Qed.
Lemma has_finding_when cond now id x source title severity resource evidence fixability state score recommendation p :
  decisive p = true → bool_decide (id ∈ rule_ids) = true →
  has_finding (when cond (newClusterFinding now (id +:+ x) source title severity resource evidence fixability state score recommendation)) p =
  cond && HasPrefix id p.
Proof. intros Hp Hid. destruct cond; [|done]. cbn -[HasPrefix]. by rewrite orb_false_r, id_prefix. Qed.

Ltac has_rules Hp := cbv zeta; rewrite ?has_finding_app; repeat (rewrite has_finding_when by first [exact Hp | vm_compute; reflexivity]).

Section Prefix.
Variables (now : Time) (p : string).
Hypothesis Hp : decisive p = true.
Abbreviation P id := (HasPrefix id p) (only parsing).

Lemma node_has (node : Node) : has_finding (node_findings now node) p =
  (((negb (nodeReady node)) && P "scan-node-not-ready-") ||
   ((nodeUnderPressure node) && P "scan-node-pressure-")).
Proof. unfold node_findings. has_rules Hp. by rewrite ?orb_assoc. Qed.
Lemma namespace_has (c : Cluster) (namespace : KubeMeta) : has_finding (namespace_findings now c namespace) p =

  negb (isSystemNamespace (km_Name namespace)) &&
  (((negb (guarded namespace (cluster_ResourceQuotas c)) || negb (guarded namespace (cluster_LimitRanges c))) && P "scan-namespace-governance-") ||
   ((negb (guarded namespace (map policy_Meta (cluster_NetworkPolicies c)))) && P "scan-networkpolicy-") ||
   ((missingPodSecurityLabel namespace) && P "scan-namespace-pod-security-") ||
   ((privilegedPodSecurityLabel namespace) && P "scan-namespace-pod-security-privileged-")).
Proof. unfold namespace_findings. destruct (isSystemNamespace _); [done|]. has_rules Hp. by rewrite ?orb_assoc. Qed.
Lemma service_has (service : Service) : has_finding (service_findings now service) p =
  negb (isSystemNamespace (km_Namespace (service_Meta service))) &&
  (((service_Type service == "LoadBalancer") && P "scan-public-service-") ||
   ((service_Type service == "NodePort") && P "scan-nodeport-service-") ||
   ((negb (bool_decide (service_ExternalIPs service = []))) && P "scan-externalip-service-")).
Proof. unfold service_findings. destruct (isSystemNamespace _); [done|]. has_rules Hp. by rewrite ?orb_assoc. Qed.
Lemma ingress_has (ingress : Ingress) : has_finding (ingress_findings now ingress) p =
  negb (isSystemNamespace (km_Namespace (ingress_Meta ingress))) &&
  (((bool_decide (ingress_TLS ingress = [])) && P "scan-ingress-tls-") ||
   ((ingressHasWildcardHost ingress) && P "scan-ingress-wildcard-")).
Proof. unfold ingress_findings. destruct (isSystemNamespace _); [done|]. has_rules Hp. by rewrite ?orb_assoc. Qed.
Lemma pvc_has (pvc : PersistentVolumeClaim) : has_finding (pvc_findings now pvc) p =
  negb (isSystemNamespace (km_Namespace (pvc_Meta pvc))) &&
  (((pvc_Phase pvc != "Bound") && P "scan-pvc-not-bound-") ||
   ((default "" (pvc_StorageClassName pvc) == "") && P "scan-pvc-storageclass-")).
Proof. unfold pvc_findings. destruct (isSystemNamespace _); [done|]. has_rules Hp. by rewrite ?orb_assoc. Qed.
Lemma workload_has (pdbs : list DisruptionBudget) (workload : workloadTarget) : has_finding (workload_findings now pdbs workload) p =
  let podSpec := workload_PodSpec workload in
  negb (isSystemNamespace (workload_Namespace workload)) &&
  (((podSpecMissingResources podSpec) && P "scan-workload-resources-") ||
   ((podSpecMissingReadiness podSpec) && P "scan-workload-readiness-") ||
   ((podSpecMissingLiveness podSpec) && P "scan-workload-liveness-") ||
   (((1 <? workload_Replicas workload) && negb (workloadHasPDB workload pdbs)) && P "scan-workload-pdb-") ||
   ((podSpecUsesMutableImages podSpec) && P "scan-workload-image-mutability-") ||
   ((podSpecMissingRuntimeHardening podSpec) && P "scan-workload-runtime-hardening-") ||
   ((podSpecAllowsHostAccess podSpec) && P "scan-workload-host-access-") ||
   ((podSpecHasElevatedCapabilities podSpec) && P "scan-workload-capabilities-") ||
   ((podSpecUsesDefaultServiceAccount podSpec) && P "scan-workload-default-serviceaccount-") ||
   ((podSpecAutomountsServiceAccountToken podSpec) && P "scan-workload-serviceaccount-token-")).
Proof. unfold workload_findings. destruct (isSystemNamespace _); [done|]. has_rules Hp. by rewrite ?orb_assoc. Qed.
Lemma pod_has (pod : Pod) : has_finding (pod_findings now pod) p =
  negb (isSystemNamespace (km_Namespace (pod_Meta pod))) &&
  (((pod_Phase pod == "Failed") && P "scan-pod-failed-") ||
   ((pod_Phase pod == "Pending") && P "scan-pod-pending-") ||
   ((podRestarting pod) && P "scan-pod-restarts-") ||
   ((podHasPrivilegedContainer pod) && P "scan-privileged-pod-")).
Proof. unfold pod_findings. destruct (isSystemNamespace _); [done|]. has_rules Hp. by rewrite ?orb_assoc. Qed.
Lemma policy_has (policy : NetworkPolicy) : has_finding (policy_findings now policy) p =
  negb (isSystemNamespace (km_Namespace (policy_Meta policy))) &&
  (((networkPolicyHasBroadIngress policy) && P "scan-networkpolicy-broad-ingress-") ||
   ((networkPolicyHasBroadEgress policy) && P "scan-networkpolicy-broad-egress-")).
Proof. unfold policy_findings. destruct (isSystemNamespace _); [done|]. has_rules Hp. by rewrite ?orb_assoc. Qed.
Lemma role_has (role : Role) : has_finding (role_findings now role) p =
  negb (isSystemNamespace (km_Namespace (role_Meta role))) &&
  (((hasWildcardRule (role_Rules role)) && P "scan-role-wildcard-") ||
   ((roleAllowsSecretRead (role_Rules role)) && P "scan-role-secret-read-") ||
   ((roleAllowsPrivilegeEscalation (role_Rules role)) && P "scan-role-rbac-escalation-")).
Proof. unfold role_findings. destruct (isSystemNamespace _); [done|]. has_rules Hp. by rewrite ?orb_assoc. Qed.
Lemma roleBinding_has (binding : RoleBinding) : has_finding (roleBinding_findings now binding) p =
  negb (isSystemNamespace (km_Namespace (binding_Meta binding))) &&
  (((binds_cluster_admin binding) && P "scan-rolebinding-clusteradmin-")).
Proof. unfold roleBinding_findings. destruct (isSystemNamespace _); [done|]. has_rules Hp. by rewrite ?orb_assoc. Qed.
Lemma clusterRole_has (clusterRole : Role) : has_finding (clusterRole_findings now clusterRole) p =
  negb (isBuiltinClusterRole (km_Name (role_Meta clusterRole))) &&
  (((hasWildcardRule (role_Rules clusterRole)) && P "scan-clusterrole-wildcard-") ||
   ((roleAllowsSecretRead (role_Rules clusterRole)) && P "scan-clusterrole-secret-read-") ||
   ((roleAllowsPrivilegeEscalation (role_Rules clusterRole)) && P "scan-clusterrole-rbac-escalation-")).
Proof. unfold clusterRole_findings. destruct (isBuiltinClusterRole _); [done|]. has_rules Hp. by rewrite ?orb_assoc. Qed.
Lemma clusterRoleBinding_has (binding : RoleBinding) : has_finding (clusterRoleBinding_findings now binding) p =
  (((binds_cluster_admin binding && negb (isBuiltinClusterRoleBinding (km_Name (binding_Meta binding)))) && P "scan-clusteradmin-binding-") ||
   ((bindingHasUnauthenticatedSubject binding) && P "scan-clusterrolebinding-public-subject-")).
Proof. unfold clusterRoleBinding_findings. has_rules Hp. by rewrite ?orb_assoc. Qed.
End Prefix.

(** The objects outside the system namespaces with a property. *)
Definition outside {A} (namespace : A → string) (p : A → bool) (l : list A) : bool :=
  existsb (λ x, negb (isSystemNamespace (namespace x)) && p x) l.

Lemma existsb_same {A} (f g : A → bool) : (∀ x, f x = g x) → ∀ l, existsb f l = existsb g l.
Proof. intros Hfg l. induction l as [|x l IH]; cbn; [done | by rewrite Hfg, IH]. Qed.
Lemma existsb_nothing {A} (f : A → bool) l : (∀ x, f x = false) → existsb f l = false.
Proof. intros Hf. induction l as [|x l IH]; cbn; [done | by rewrite Hf, IH]. Qed.

Lemma orb_same a b c d : a = b → c = d → a || c = b || d.
Proof. by intros -> ->. Qed.

Ltac bools := cbv beta zeta; rewrite ?andb_false_r, ?andb_true_r; cbn [orb]; rewrite ?orb_false_r, ?andb_false_r; reflexivity.
Lemma scan_has now c p : decisive p = true → has_finding (scanFindings now c) p = (existsb (λ node, (((negb (nodeReady node)) && HasPrefix "scan-node-not-ready-" p) ||
   ((nodeUnderPressure node) && HasPrefix "scan-node-pressure-" p))) (cluster_Nodes c)) ||
  ((existsb (λ namespace, negb (isSystemNamespace (km_Name namespace)) &&
  (((negb (guarded namespace (cluster_ResourceQuotas c)) || negb (guarded namespace (cluster_LimitRanges c))) && HasPrefix "scan-namespace-governance-" p) ||
   ((negb (guarded namespace (map policy_Meta (cluster_NetworkPolicies c)))) && HasPrefix "scan-networkpolicy-" p) ||
   ((missingPodSecurityLabel namespace) && HasPrefix "scan-namespace-pod-security-" p) ||
   ((privilegedPodSecurityLabel namespace) && HasPrefix "scan-namespace-pod-security-privileged-" p))) (cluster_Namespaces c)) ||
  ((existsb (λ service, negb (isSystemNamespace (km_Namespace (service_Meta service))) &&
  (((service_Type service == "LoadBalancer") && HasPrefix "scan-public-service-" p) ||
   ((service_Type service == "NodePort") && HasPrefix "scan-nodeport-service-" p) ||
   ((negb (bool_decide (service_ExternalIPs service = []))) && HasPrefix "scan-externalip-service-" p))) (cluster_Services c)) ||
  ((existsb (λ ingress, negb (isSystemNamespace (km_Namespace (ingress_Meta ingress))) &&
  (((bool_decide (ingress_TLS ingress = [])) && HasPrefix "scan-ingress-tls-" p) ||
   ((ingressHasWildcardHost ingress) && HasPrefix "scan-ingress-wildcard-" p))) (cluster_Ingresses c)) ||
  ((existsb (λ pvc, negb (isSystemNamespace (km_Namespace (pvc_Meta pvc))) &&
  (((pvc_Phase pvc != "Bound") && HasPrefix "scan-pvc-not-bound-" p) ||
   ((default "" (pvc_StorageClassName pvc) == "") && HasPrefix "scan-pvc-storageclass-" p))) (cluster_PVCs c)) ||
  ((existsb (λ workload, let podSpec := workload_PodSpec workload in
  negb (isSystemNamespace (workload_Namespace workload)) &&
  (((podSpecMissingResources podSpec) && HasPrefix "scan-workload-resources-" p) ||
   ((podSpecMissingReadiness podSpec) && HasPrefix "scan-workload-readiness-" p) ||
   ((podSpecMissingLiveness podSpec) && HasPrefix "scan-workload-liveness-" p) ||
   (((1 <? workload_Replicas workload) && negb (workloadHasPDB workload (cluster_PDBs c))) && HasPrefix "scan-workload-pdb-" p) ||
   ((podSpecUsesMutableImages podSpec) && HasPrefix "scan-workload-image-mutability-" p) ||
   ((podSpecMissingRuntimeHardening podSpec) && HasPrefix "scan-workload-runtime-hardening-" p) ||
   ((podSpecAllowsHostAccess podSpec) && HasPrefix "scan-workload-host-access-" p) ||
   ((podSpecHasElevatedCapabilities podSpec) && HasPrefix "scan-workload-capabilities-" p) ||
   ((podSpecUsesDefaultServiceAccount podSpec) && HasPrefix "scan-workload-default-serviceaccount-" p) ||
   ((podSpecAutomountsServiceAccountToken podSpec) && HasPrefix "scan-workload-serviceaccount-token-" p))) (workloads c)) ||
  ((existsb (λ pod, negb (isSystemNamespace (km_Namespace (pod_Meta pod))) &&
  (((pod_Phase pod == "Failed") && HasPrefix "scan-pod-failed-" p) ||
   ((pod_Phase pod == "Pending") && HasPrefix "scan-pod-pending-" p) ||
   ((podRestarting pod) && HasPrefix "scan-pod-restarts-" p) ||
   ((podHasPrivilegedContainer pod) && HasPrefix "scan-privileged-pod-" p))) (cluster_Pods c)) ||
  ((existsb (λ policy, negb (isSystemNamespace (km_Namespace (policy_Meta policy))) &&
  (((networkPolicyHasBroadIngress policy) && HasPrefix "scan-networkpolicy-broad-ingress-" p) ||
   ((networkPolicyHasBroadEgress policy) && HasPrefix "scan-networkpolicy-broad-egress-" p))) (cluster_NetworkPolicies c)) ||
  ((existsb (λ role, negb (isSystemNamespace (km_Namespace (role_Meta role))) &&
  (((hasWildcardRule (role_Rules role)) && HasPrefix "scan-role-wildcard-" p) ||
   ((roleAllowsSecretRead (role_Rules role)) && HasPrefix "scan-role-secret-read-" p) ||
   ((roleAllowsPrivilegeEscalation (role_Rules role)) && HasPrefix "scan-role-rbac-escalation-" p))) (cluster_Roles c)) ||
  ((existsb (λ binding, negb (isSystemNamespace (km_Namespace (binding_Meta binding))) &&
  (((binds_cluster_admin binding) && HasPrefix "scan-rolebinding-clusteradmin-" p))) (cluster_RoleBindings c)) ||
  ((existsb (λ clusterRole, negb (isBuiltinClusterRole (km_Name (role_Meta clusterRole))) &&
  (((hasWildcardRule (role_Rules clusterRole)) && HasPrefix "scan-clusterrole-wildcard-" p) ||
   ((roleAllowsSecretRead (role_Rules clusterRole)) && HasPrefix "scan-clusterrole-secret-read-" p) ||
   ((roleAllowsPrivilegeEscalation (role_Rules clusterRole)) && HasPrefix "scan-clusterrole-rbac-escalation-" p))) (cluster_ClusterRoles c)) ||
  (existsb (λ binding, (((binds_cluster_admin binding && negb (isBuiltinClusterRoleBinding (km_Name (binding_Meta binding)))) && HasPrefix "scan-clusteradmin-binding-" p) ||
   ((bindingHasUnauthenticatedSubject binding) && HasPrefix "scan-clusterrolebinding-public-subject-" p))) (cluster_ClusterRoleBindings c)))))))))))).
Proof.
  intros Hp. rewrite has_finding_sorted. unfold unsorted_findings. rewrite !has_finding_app, !has_finding_flat_map.
  repeat apply orb_same; apply existsb_same; intros ?.
  - by apply node_has.
  - by apply namespace_has.
  - by apply service_has.
  - by apply ingress_has.
  - by apply pvc_has.
  - by apply workload_has.
  - by apply pod_has.
  - by apply policy_has.
  - by apply role_has.
  - by apply roleBinding_has.
  - by apply clusterRole_has.
  - by apply clusterRoleBinding_has.
Qed.

Ltac scan_rule now :=
  rewrite scan_has by (vm_compute; reflexivity); cbv zeta;
  repeat match goal with |- context [HasPrefix ?a ?b] => let v := eval vm_compute in (HasPrefix a b) in change (HasPrefix a b) with v end;
  repeat match goal with |- context [existsb ?f ?l] => rewrite (existsb_nothing f l) by (intros ?; bools) end;
  rewrite ?orb_false_r; cbn [orb]; unfold outside; try apply orb_same; apply existsb_same; intros ?; bools.

Lemma has_workload_resources now c : has_finding (scanFindings now c) "scan-workload-resources-" =
  outside workload_Namespace (λ workload, podSpecMissingResources (workload_PodSpec workload)) (workloads c).
Proof. scan_rule now. Qed.
Lemma has_namespace_governance now c : has_finding (scanFindings now c) "scan-namespace-governance-" =
  outside km_Name (λ namespace, negb (guarded namespace (cluster_ResourceQuotas c)) || negb (guarded namespace (cluster_LimitRanges c))) (cluster_Namespaces c).
Proof. scan_rule now. Qed.
Lemma has_networkpolicy now c : has_finding (scanFindings now c) "scan-networkpolicy-" =
  outside km_Name (λ namespace, negb (guarded namespace (map policy_Meta (cluster_NetworkPolicies c)))) (cluster_Namespaces c) ||
  outside (λ policy, km_Namespace (policy_Meta policy)) (λ policy, (networkPolicyHasBroadIngress policy) || (networkPolicyHasBroadEgress policy)) (cluster_NetworkPolicies c).
Proof. scan_rule now. Qed.
Lemma has_privileged_pod now c : has_finding (scanFindings now c) "scan-privileged-pod-" =
  outside (λ pod, km_Namespace (pod_Meta pod)) (λ pod, podHasPrivilegedContainer pod) (cluster_Pods c).
Proof. scan_rule now. Qed.
Lemma has_role_wildcard now c : has_finding (scanFindings now c) "scan-role-wildcard-" =
  outside (λ role, km_Namespace (role_Meta role)) (λ role, hasWildcardRule (role_Rules role)) (cluster_Roles c).
Proof. scan_rule now. Qed.
Lemma has_clusterrole_wildcard now c : has_finding (scanFindings now c) "scan-clusterrole-wildcard-" =
  existsb (λ clusterRole, negb (isBuiltinClusterRole (km_Name (role_Meta clusterRole))) && hasWildcardRule (role_Rules clusterRole)) (cluster_ClusterRoles c).
Proof. scan_rule now. Qed.
Lemma has_role_secret_read now c : has_finding (scanFindings now c) "scan-role-secret-read-" =
  outside (λ role, km_Namespace (role_Meta role)) (λ role, roleAllowsSecretRead (role_Rules role)) (cluster_Roles c).
Proof. scan_rule now. Qed.
Lemma has_clusterrole_secret_read now c : has_finding (scanFindings now c) "scan-clusterrole-secret-read-" =
  existsb (λ clusterRole, negb (isBuiltinClusterRole (km_Name (role_Meta clusterRole))) && roleAllowsSecretRead (role_Rules clusterRole)) (cluster_ClusterRoles c).
Proof. scan_rule now. Qed.
Lemma has_role_rbac_escalation now c : has_finding (scanFindings now c) "scan-role-rbac-escalation-" =
  outside (λ role, km_Namespace (role_Meta role)) (λ role, roleAllowsPrivilegeEscalation (role_Rules role)) (cluster_Roles c).
Proof. scan_rule now. Qed.
Lemma has_clusterrole_rbac_escalation now c : has_finding (scanFindings now c) "scan-clusterrole-rbac-escalation-" =
  existsb (λ clusterRole, negb (isBuiltinClusterRole (km_Name (role_Meta clusterRole))) && roleAllowsPrivilegeEscalation (role_Rules clusterRole)) (cluster_ClusterRoles c).
Proof. scan_rule now. Qed.
Lemma has_clusteradmin_binding now c : has_finding (scanFindings now c) "scan-clusteradmin-binding-" =
  existsb (λ binding, binds_cluster_admin binding && negb (isBuiltinClusterRoleBinding (km_Name (binding_Meta binding)))) (cluster_ClusterRoleBindings c).
Proof. scan_rule now. Qed.
Lemma has_rolebinding_clusteradmin now c : has_finding (scanFindings now c) "scan-rolebinding-clusteradmin-" =
  outside (λ binding, km_Namespace (binding_Meta binding)) (λ binding, binds_cluster_admin binding) (cluster_RoleBindings c).
Proof. scan_rule now. Qed.
Lemma has_workload_pdb now c : has_finding (scanFindings now c) "scan-workload-pdb-" =
  outside workload_Namespace (λ workload, (1 <? workload_Replicas workload) && negb (workloadHasPDB workload (cluster_PDBs c))) (workloads c).
Proof. scan_rule now. Qed.
Lemma has_namespace_pod_security now c : has_finding (scanFindings now c) "scan-namespace-pod-security-" =
  outside km_Name (λ namespace, (missingPodSecurityLabel namespace) || (privilegedPodSecurityLabel namespace)) (cluster_Namespaces c).
Proof. scan_rule now. Qed.
Lemma has_workload_host_access now c : has_finding (scanFindings now c) "scan-workload-host-access-" =
  outside workload_Namespace (λ workload, podSpecAllowsHostAccess (workload_PodSpec workload)) (workloads c).
Proof. scan_rule now. Qed.
Lemma has_workload_capabilities now c : has_finding (scanFindings now c) "scan-workload-capabilities-" =
  outside workload_Namespace (λ workload, podSpecHasElevatedCapabilities (workload_PodSpec workload)) (workloads c).
Proof. scan_rule now. Qed.
Lemma has_workload_runtime_hardening now c : has_finding (scanFindings now c) "scan-workload-runtime-hardening-" =
  outside workload_Namespace (λ workload, podSpecMissingRuntimeHardening (workload_PodSpec workload)) (workloads c).
Proof. scan_rule now. Qed.
Lemma has_workload_image_mutability now c : has_finding (scanFindings now c) "scan-workload-image-mutability-" =
  outside workload_Namespace (λ workload, podSpecUsesMutableImages (workload_PodSpec workload)) (workloads c).
Proof. scan_rule now. Qed.
Lemma has_public_service now c : has_finding (scanFindings now c) "scan-public-service-" =
  outside (λ service, km_Namespace (service_Meta service)) (λ service, service_Type service == "LoadBalancer") (cluster_Services c).
Proof. scan_rule now. Qed.
Lemma has_nodeport_service now c : has_finding (scanFindings now c) "scan-nodeport-service-" =
  outside (λ service, km_Namespace (service_Meta service)) (λ service, service_Type service == "NodePort") (cluster_Services c).
Proof. scan_rule now. Qed.
Lemma has_externalip_service now c : has_finding (scanFindings now c) "scan-externalip-service-" =
  outside (λ service, km_Namespace (service_Meta service)) (λ service, negb (bool_decide (service_ExternalIPs service = []))) (cluster_Services c).
Proof. scan_rule now. Qed.
Lemma has_ingress_tls now c : has_finding (scanFindings now c) "scan-ingress-tls-" =
  outside (λ ingress, km_Namespace (ingress_Meta ingress)) (λ ingress, bool_decide (ingress_TLS ingress = [])) (cluster_Ingresses c).
Proof. scan_rule now. Qed.
Lemma has_ingress_wildcard now c : has_finding (scanFindings now c) "scan-ingress-wildcard-" =
  outside (λ ingress, km_Namespace (ingress_Meta ingress)) (λ ingress, ingressHasWildcardHost ingress) (cluster_Ingresses c).
Proof. scan_rule now. Qed.
Lemma has_node_not_ready now c : has_finding (scanFindings now c) "scan-node-not-ready-" =
  existsb (λ node, negb (nodeReady node)) (cluster_Nodes c).
Proof. scan_rule now. Qed.
Lemma has_node_pressure now c : has_finding (scanFindings now c) "scan-node-pressure-" =
  existsb (λ node, nodeUnderPressure node) (cluster_Nodes c).
Proof. scan_rule now. Qed.
Lemma has_pod_failed now c : has_finding (scanFindings now c) "scan-pod-failed-" =
  outside (λ pod, km_Namespace (pod_Meta pod)) (λ pod, pod_Phase pod == "Failed") (cluster_Pods c).
Proof. scan_rule now. Qed.
Lemma has_pod_pending now c : has_finding (scanFindings now c) "scan-pod-pending-" =
  outside (λ pod, km_Namespace (pod_Meta pod)) (λ pod, pod_Phase pod == "Pending") (cluster_Pods c).
Proof. scan_rule now. Qed.
Lemma has_pvc_not_bound now c : has_finding (scanFindings now c) "scan-pvc-not-bound-" =
  outside (λ pvc, km_Namespace (pvc_Meta pvc)) (λ pvc, pvc_Phase pvc != "Bound") (cluster_PVCs c).
Proof. scan_rule now. Qed.

(** * Compliance *)

Definition role_outside (p : list PolicyRule → bool) (c : Cluster) : bool :=
  outside (λ role, km_Namespace (role_Meta role)) (λ role, p (role_Rules role)) (cluster_Roles c).
Definition custom_cluster_role (p : list PolicyRule → bool) (c : Cluster) : bool :=
  existsb (λ role, negb (isBuiltinClusterRole (km_Name (role_Meta role))) && p (role_Rules role)) (cluster_ClusterRoles c).
Definition workload_outside (p : workloadTarget → bool) (c : Cluster) : bool := outside workload_Namespace p (workloads c).
Definition pod_outside (p : Pod → bool) (c : Cluster) : bool := outside (λ pod, km_Namespace (pod_Meta pod)) p (cluster_Pods c).
Definition service_outside (p : Service → bool) (c : Cluster) : bool :=
  outside (λ service, km_Namespace (service_Meta service)) p (cluster_Services c).
Definition ingress_outside (p : Ingress → bool) (c : Cluster) : bool :=
  outside (λ ingress, km_Namespace (ingress_Meta ingress)) p (cluster_Ingresses c).

(** What the scan asks of the objects for each control. *)
Definition control_checks (c : Cluster) : list (string * bool) := [
  ("KA-K8S-001", workload_outside (λ w, podSpecMissingResources (workload_PodSpec w)) c);
  ("KA-K8S-002", outside km_Name (λ ns, negb (guarded ns (cluster_ResourceQuotas c)) || negb (guarded ns (cluster_LimitRanges c)))
                   (cluster_Namespaces c));
  ("KA-K8S-003", outside km_Name (λ ns, negb (guarded ns (map policy_Meta (cluster_NetworkPolicies c)))) (cluster_Namespaces c) ||
                 outside (λ policy, km_Namespace (policy_Meta policy))
                   (λ policy, networkPolicyHasBroadIngress policy || networkPolicyHasBroadEgress policy) (cluster_NetworkPolicies c));
  ("KA-K8S-004", pod_outside podHasPrivilegedContainer c);
  ("KA-K8S-005", role_outside hasWildcardRule c || custom_cluster_role hasWildcardRule c ||
                 role_outside roleAllowsSecretRead c || custom_cluster_role roleAllowsSecretRead c ||
                 role_outside roleAllowsPrivilegeEscalation c || custom_cluster_role roleAllowsPrivilegeEscalation c ||
                 existsb (λ b, binds_cluster_admin b && negb (isBuiltinClusterRoleBinding (km_Name (binding_Meta b))))
                   (cluster_ClusterRoleBindings c) ||
                 outside (λ b, km_Namespace (binding_Meta b)) binds_cluster_admin (cluster_RoleBindings c));
  ("KA-K8S-006", workload_outside (λ w, (1 <? workload_Replicas w) && negb (workloadHasPDB w (cluster_PDBs c))) c);
  ("KA-K8S-007", outside km_Name (λ ns, missingPodSecurityLabel ns || privilegedPodSecurityLabel ns) (cluster_Namespaces c));
  ("KA-K8S-008", workload_outside (λ w, podSpecAllowsHostAccess (workload_PodSpec w)) c ||
                 workload_outside (λ w, podSpecHasElevatedCapabilities (workload_PodSpec w)) c ||
                 workload_outside (λ w, podSpecMissingRuntimeHardening (workload_PodSpec w)) c);
  ("KA-K8S-009", workload_outside (λ w, podSpecUsesMutableImages (workload_PodSpec w)) c);
  ("KA-K8S-010", service_outside (λ s, service_Type s == "LoadBalancer") c || service_outside (λ s, service_Type s == "NodePort") c ||
                 service_outside (λ s, negb (bool_decide (service_ExternalIPs s = []))) c ||
                 ingress_outside (λ i, bool_decide (ingress_TLS i = [])) c || ingress_outside ingressHasWildcardHost c);
  ("KA-K8S-011", existsb (λ node, negb (nodeReady node)) (cluster_Nodes c) || existsb nodeUnderPressure (cluster_Nodes c) ||
                 pod_outside (λ pod, pod_Phase pod == "Failed") c || pod_outside (λ pod, pod_Phase pod == "Pending") c ||
                 outside (λ pvc, km_Namespace (pvc_Meta pvc)) (λ pvc, pvc_Phase pvc != "Bound") (cluster_PVCs c))
].
Definition verdict (violated : bool) : string := if violated then "fail" else "pass".

Lemma controls_verdicts now c :
  map (λ k, (control_ID k, control_Status k)) (complianceControls (inventory_of c) (scanFindings now c)) =
  map (λ v, (v.1, verdict v.2)) (control_checks c).
Proof.
  unfold complianceControls. cbv zeta.
  rewrite has_workload_resources, has_namespace_governance, has_networkpolicy, has_privileged_pod, has_role_wildcard,
    has_clusterrole_wildcard, has_role_secret_read, has_clusterrole_secret_read, has_role_rbac_escalation,
    has_clusterrole_rbac_escalation, has_clusteradmin_binding, has_rolebinding_clusteradmin, has_workload_pdb,
    has_namespace_pod_security, has_workload_host_access, has_workload_capabilities, has_workload_runtime_hardening,
    has_workload_image_mutability, has_public_service, has_nodeport_service, has_externalip_service, has_ingress_tls,
    has_ingress_wildcard, has_node_not_ready, has_node_pressure, has_pod_failed, has_pod_pending, has_pvc_not_bound.
  reflexivity.
Qed.

Lemma verdict_counts (l : list ComplianceControl) (vs : list (string * bool)) :
  map (λ k, (control_ID k, control_Status k)) l = map (λ v, (v.1, verdict v.2)) vs →
  countControls l "fail" = count_if snd vs ∧ countControls l "pass" = count vs - count_if snd vs.
Proof.
  unfold countControls, count_if, count. revert vs. induction l as [|k l IH]; intros [|[id b] vs]; cbn -[String.eqb Z.of_nat]; try done.
  intros [= Hid Hk Hl]. destruct (IH _ Hl) as [IH1 IH2]. rewrite Hk. destruct b; cbn -[Z.of_nat]; lia.
Qed.

(** * The shape of the findings *)

(** What the remediation state says of each fixability. *)
Definition states : list (string * string) := [
  (FixabilityInformational, "triage_required"); (FixabilityGated, "dry_run_ready");
  (FixabilityDeterministic, "autofix_available"); (FixabilityHumanOnly, "approval_required")].

Record well_formed (now : Time) (finding : Finding) : Prop := {
  wf_Source : finding_Source finding = "kubeathrix-scan";
  wf_Severity : finding_Severity finding ∈ [SeverityCritical; SeverityHigh; SeverityMedium; SeverityLow];
  wf_State : (finding_Fixability finding, finding_RemediationState finding) ∈ states;
  wf_Score : 40 ≤ finding_RiskScore finding ≤ 95;
  wf_Status : finding_Status finding = FindingOpen;
  wf_Rule : ∃ id name, id ∈ rule_ids ∧ finding_ID finding = id +:+ name;
  wf_Evidence : finding_Evidence finding = [mkEvidence (finding_Title finding) (finding_BlastRadius finding) "kubeathrix/live-scan" now];
  wf_Resource : ∃ resource, finding_Resources finding = [resource] ∧
    finding_CorrelationKeys finding = resource_keys resource ∧
    (ref_Namespace resource = "" ∨ isSystemNamespace (ref_Namespace resource) = false);
  wf_Times : finding_CreatedAt finding = now ∧ finding_UpdatedAt finding = now
}.

Lemma well_formed_when cond now id x title severity resource evidence fixability state score recommendation :
  bool_decide (severity ∈ [SeverityCritical; SeverityHigh; SeverityMedium; SeverityLow]) = true →
  bool_decide ((fixability, state) ∈ states) = true → bool_decide (40 ≤ score ≤ 95) = true →
  bool_decide (id ∈ rule_ids) = true → ref_Namespace resource = "" ∨ isSystemNamespace (ref_Namespace resource) = false →
  Forall (well_formed now)
    (when cond (newClusterFinding now (id +:+ x) "kubeathrix-scan" title severity resource evidence fixability state score recommendation)).
Proof.
  rewrite !bool_decide_eq_true. intros. destruct cond; [|constructor]. constructor; [|constructor].
  split; try done; [by exists id, x | by exists resource].
Qed.

Ltac shaped := cbv zeta; repeat (apply Forall_app; split);
  (apply well_formed_when; [vm_compute; reflexivity.. | first [by left | by right]]).

Lemma well_formed_unsorted now c : Forall (well_formed now) (unsorted_findings now c).
Proof.
  unfold unsorted_findings. repeat (apply Forall_app; split); apply Forall_flat_map, Forall_true; intros x.
  - unfold node_findings. shaped.
  - unfold namespace_findings. destruct (isSystemNamespace _) eqn:?; [constructor|]. shaped.
  - unfold service_findings. destruct (isSystemNamespace _) eqn:?; [constructor|]. shaped.
  - unfold ingress_findings. destruct (isSystemNamespace _) eqn:?; [constructor|]. shaped.
  - unfold pvc_findings. destruct (isSystemNamespace _) eqn:?; [constructor|]. shaped.
  - unfold workload_findings. destruct (isSystemNamespace _) eqn:?; [constructor|]. shaped.
  - unfold pod_findings. destruct (isSystemNamespace _) eqn:?; [constructor|]. shaped.
  - unfold policy_findings. destruct (isSystemNamespace _) eqn:?; [constructor|]. shaped.
  - unfold role_findings. destruct (isSystemNamespace _) eqn:?; [constructor|]. shaped.
  - unfold roleBinding_findings. destruct (isSystemNamespace _) eqn:?; [constructor|]. shaped.
  - unfold clusterRole_findings. destruct (isBuiltinClusterRole _) eqn:?; [constructor|]. shaped.
  - unfold clusterRoleBinding_findings. shaped.
Qed.

#[export] Instance finding_before_order : StrictWeakOrder finding_before.
Proof.
  split; unfold finding_before; intros x y.
  - destruct (Z.eqb_spec (finding_RiskScore x) (finding_RiskScore y)) as [->|Hn].
    + rewrite Z.eqb_refl. intros Hlt. apply ltb_ge. by right.
    + destruct (Z.eqb_spec (finding_RiskScore y) (finding_RiskScore x)); [by congruence|]. rewrite Z.ltb_lt, Z.ltb_ge. lia.
  - intros z. destruct (Z.eqb_spec (finding_RiskScore y) (finding_RiskScore x)), (Z.eqb_spec (finding_RiskScore z) (finding_RiskScore y)),
      (Z.eqb_spec (finding_RiskScore z) (finding_RiskScore x)); try lia; try (rewrite ?Z.ltb_ge; lia).
    rewrite !ltb_ge. intros [Hxy|Hxy] [Hyz|Hyz]; rewrite ?Hxy, ?Hyz in *; auto. right. by eapply ltb_trans.
Qed.

(** [x] may stand before [y]. *)
Definition ranked (x y : Finding) : Prop :=
  finding_RiskScore y < finding_RiskScore x ∨
  (finding_RiskScore x = finding_RiskScore y ∧ (finding_ID x = finding_ID y ∨ String.ltb (finding_ID x) (finding_ID y) = true)).

Lemma sort_ranked l : StronglySorted ranked (sort_slice finding_before l).
Proof.
  eapply StronglySorted_weaken; [|apply sort_slice_sorted, _]. intros x y. unfold not_after, ranked, finding_before.
  destruct (Z.eqb_spec (finding_RiskScore y) (finding_RiskScore x)) as [He|]; [|rewrite Z.ltb_ge; lia].
  rewrite ltb_ge. intros [Hid|Hid]; auto.
Qed.

(** C19. Every finding of a scan is well formed: it is open, its severity is one of the four above info, its remediation
    state is the one its fixability asks for, its score lies between 40 and 95, its identifier starts like a rule, and it
    names one resource, in no system namespace, from which its correlation keys come; and the findings of a snapshot
    are listed by score, the highest first, then by identifier. *)
Theorem scan_well_formed now c :
  Forall (well_formed now) (snapshot_Findings (snapshot_of now c)) ∧
  StronglySorted ranked (snapshot_Findings (snapshot_of now c)).
Proof.
  change (snapshot_Findings (snapshot_of now c)) with (scanFindings now c). unfold scanFindings. split.
  - rewrite Forall_forall. intros finding Hin%elem_of_sort_slice. revert finding Hin. apply Forall_forall, well_formed_unsorted.
  - apply sort_ranked.
Qed.
End Scan.

(** * What the planner makes of a finding the scan marks as a matter for people *)

(** The words, next to "resources", that add an action for an object that is not a workload. *)
Definition other_words : list string :=
  ["pod security"; "privileged pod security"; "networkpolicy"; "loadbalancer"; "nodeport"; "externalip"; "ingress";
   "kubernetes-managed external resource"].
Definition mentions_nothing_else (finding : Finding) : bool :=
  forallb (λ word, negb (Contains (finding_text finding) word)) other_words.

Lemma mentions_none finding word : mentions_nothing_else finding = true → bool_decide (word ∈ other_words) = true →
  Contains (finding_text finding) word = false.
Proof.
  unfold mentions_nothing_else. rewrite forallb_forall. intros Hall Hw%bool_decide_eq_true%list_elem_of_In.
  by apply Hall, negb_true_iff in Hw.
Qed.

Lemma plain_actions finding : mentions_nothing_else finding = true → finding_Source finding = "kubeathrix-scan" →
  isWorkloadTarget (finding_target finding) = false → Contains (finding_text finding) "resources" = true →
  typedActionsForFinding finding = [governance_action (finding_target finding)].
Proof.
  intros Hq Hs Hw Hr. pose proof (λ word, mentions_none finding word Hq) as none.
  unfold typedActionsForFinding, is_managed_resource_finding, matched_actions. rewrite Hs, Hw, Hr.
  rewrite !orb_true_r, (none "pod security"), (none "privileged pod security"), (none "networkpolicy"),
    (none "loadbalancer"), (none "nodeport"), (none "externalip"), (none "ingress"),
    (none "kubernetes-managed external resource") by reflexivity.
  reflexivity.
Qed.

Lemma governance_free `{RangeOrder} (namespace : string) :
  needs_approval (governance_action (mkResourceRef "v1" "Namespace" "" namespace)) = false.
Proof. vm_compute. reflexivity. Qed.

Section Plans.
Context {L : ClusterLibrary}.

(** What the rules say about a role in a namespace, where they see a wildcard or a reader of secrets. *)
Record role_alarm (role : Role) (finding : Finding) : Prop := {
  alarm_Fixability : finding_Fixability finding = FixabilityHumanOnly;
  alarm_State : finding_RemediationState finding = "approval_required";
  alarm_Source : finding_Source finding = "kubeathrix-scan";
  alarm_Target : finding_target finding =
    mkResourceRef "rbac.authorization.k8s.io/v1" "Role" (km_Namespace (role_Meta role)) (km_Name (role_Meta role));
  alarm_Text : Contains (finding_text finding) "resources" = true
}.

Lemma finding_text_says finding word :
  Contains (ToLower (" " +:+ finding_Title finding +:+ " " +:+ finding_BlastRadius finding +:+ " " +:+
                     finding_RecommendedAction finding)) word = true →
  Contains (finding_text finding) word = true.
Proof. intros Hw. unfold finding_text, ToLower. rewrite string_map_app. by apply Contains_app_r. Qed.

Lemma role_alarmed now role : isSystemNamespace (km_Namespace (role_Meta role)) = false →
  hasWildcardRule (role_Rules role) || roleAllowsSecretRead (role_Rules role) = true →
  ∃ finding, finding ∈ role_findings now role ∧ role_alarm role finding.
Proof.
  intros Hns Hp. unfold role_findings. rewrite Hns. cbv zeta.
  destruct (hasWildcardRule _); [|cbn [orb] in Hp; rewrite Hp]; (eexists; split; [left|]);
    (split; try reflexivity; apply finding_text_says; lazy; reflexivity).
Qed.

Lemma role_findings_scanned now c role finding : role ∈ cluster_Roles c → finding ∈ role_findings now role →
  finding ∈ scanFindings now c.
Proof.
  intros Hrole Hin. apply elem_of_sort_slice. unfold unsorted_findings. rewrite !elem_of_app.
  do 8 right. left. apply list_elem_of_In, in_flat_map. exists role. by rewrite <- !list_elem_of_In.
Qed.

Lemma governance_namespace role : isSystemNamespace (km_Namespace (role_Meta role)) = false →
  governance_action (mkResourceRef "rbac.authorization.k8s.io/v1" "Role" (km_Namespace (role_Meta role)) (km_Name (role_Meta role))) =
  governance_action (mkResourceRef "v1" "Namespace" "" (km_Namespace (role_Meta role))).
Proof.
  intros Hns. unfold governance_action, namespaceTarget. cbn [ref_Kind ref_Namespace ref_Name].
  assert (km_Namespace (role_Meta role) != "" = true) as ->; [|reflexivity].
  rewrite negb_true_iff, String.eqb_neq. intros Hn. by rewrite Hn in Hns.
Qed.

(** C20. A namespaced role with a wildcard or with read access to secrets gets a finding that only people may resolve
    and that says an approval is required; but its wording talks of "resources", so unless the names of the objects add
    another action, the plan for it is resource governance of the namespace, in tier A, approved without anybody. *)
Theorem human_only_autoapproved `{RangeOrder} (now : Time) (c : Cluster) (role : Role) :
  role ∈ cluster_Roles c → isSystemNamespace (km_Namespace (role_Meta role)) = false →
  hasWildcardRule (role_Rules role) || roleAllowsSecretRead (role_Rules role) = true →
  ∃ finding, finding ∈ scanFindings now c ∧
    finding_Fixability finding = FixabilityHumanOnly ∧ finding_RemediationState finding = "approval_required" ∧
    (mentions_nothing_else finding = true → ∀ requester planned seq,
       let plan := buildRemediationPlan finding requester planned seq in
       plan_Actions plan = [governance_action (mkResourceRef "v1" "Namespace" "" (km_Namespace (role_Meta role)))] ∧
       plan_RiskTier plan = RiskTierA ∧
       policy_Required (plan_ApprovalPolicy plan) = false ∧
       policy_Decision (plan_ApprovalPolicy plan) = ApprovalApproved).
Proof.
  intros Hrole Hns Hp. destruct (role_alarmed now role Hns Hp) as (finding & Hin & Ha). exists finding.
  split; [by eapply role_findings_scanned|]. split; [apply Ha|]. split; [apply Ha|].
  intros Hq requester planned seq. cbv zeta.
  pose proof (plain_actions finding Hq (alarm_Source _ _ Ha)) as Hactions. rewrite (alarm_Target _ _ Ha) in Hactions.
  specialize (Hactions eq_refl (alarm_Text _ _ Ha)). rewrite governance_namespace in Hactions by done.
  assert (existsb needs_approval (typedActionsForFinding finding) = false) as Hfree.
  { rewrite Hactions. cbn [existsb]. by rewrite governance_free. }
  change (plan_Actions (buildRemediationPlan finding requester planned seq)) with (typedActionsForFinding finding).
  change (plan_RiskTier (buildRemediationPlan finding requester planned seq))
    with (riskTierForActions (typedActionsForFinding finding)).
  change (plan_ApprovalPolicy (buildRemediationPlan finding requester planned seq))
    with (approvalPolicyForActions (typedActionsForFinding finding)).
  unfold approvalPolicyForActions.
  destruct (approval_foldl (typedActionsForFinding finding) (zero_ApprovalPolicy <| policy_Decision := ApprovalApproved |>))
    as (-> & -> & _). rewrite Hfree.
  split; [done|]. split; [|done]. apply risk_tier_A. by apply existsb_false.
Qed.
End Plans.

(** * A role in a shop *)

Definition sample_library : ClusterLibrary := {|
  Quantity := Z;
  QuantityIsZero := Z.eqb 0;
  LabelSelector := gmap string string;
  SelectorMatches selector labels := Some (bool_decide (selector ⊆ labels))
|}.
Definition deployer : Role := mkRole (mkKubeMeta "deployer" "shop" ∅) [mkPolicyRule ["get"; "*"] ["apps"] ["deployments"]].
Definition deployer_cluster : @Cluster sample_library :=
  @mkCluster sample_library [] [] [] [] 0 0 [] [] [] 0 [] [] [] 0 [] [] [] 0 [deployer] [] [] [].

Lemma human_only_autoapproved_witness :
  ∃ finding, finding ∈ @scanFindings sample_library 0 deployer_cluster ∧ finding_Fixability finding = FixabilityHumanOnly ∧
    let plan := @buildRemediationPlan canonical_order finding "ana" 60 1 in
    plan_Actions plan = [governance_action (mkResourceRef "v1" "Namespace" "" "shop")] ∧
    policy_Required (plan_ApprovalPolicy plan) = false.
Proof.
  destruct (@human_only_autoapproved sample_library canonical_order 0 deployer_cluster deployer) as (finding & Hin & Hf & _ & Hplan).
  - by apply list_elem_of_here.
  - vm_compute. reflexivity.
  - vm_compute. reflexivity.
  - exists finding. split; [exact Hin|]. split; [exact Hf|].
    assert (forallb mentions_nothing_else (@scanFindings sample_library 0 deployer_cluster) = true) as Hall by (vm_compute; reflexivity).
    rewrite forallb_forall in Hall.
    destruct (Hplan (Hall finding (proj1 (list_elem_of_In _ _) Hin)) "ana" 60 1) as (Ha & _ & Hr & _).
    exact (conj Ha Hr).
Defined.
