(* ===== verification/Compliance.v ===== *)
(** What the compliance controls of the cluster inspector mean, said of the objects themselves: for every
    control the ways in which an object violates it, stated without the questions the scan asks, and the
    proof that the controls of a snapshot find exactly those. *)
From S2P Require Import Prelude GoLib JsonProps Core ClusterObjects Inspector InspectorProps.

Local Open Scope Z_scope.

(** * Texts *)

Definition starts_with (prefix s : string) : Prop := ∃ rest, s = prefix +:+ rest.
Definition holds_text (sub s : string) : Prop := ∃ before after, s = before +:+ sub +:+ after.
(** [s] has a last occurrence of the byte, and [t] is what follows it. *)
Definition after_last_of (sep : Ascii.ascii) (s t : string) : Prop :=
  ¬ holds_text (String sep "") t ∧ ∃ before, s = before +:+ String sep t.

Lemma existsb_elem {A} (f : A → bool) l : existsb f l = true ↔ ∃ x, x ∈ l ∧ f x = true.
Proof. rewrite existsb_exists. by setoid_rewrite list_elem_of_In. Qed.
Lemma forallb_elem {A} (f : A → bool) l : forallb f l = true ↔ ∀ x, x ∈ l → f x = true.
Proof. rewrite forallb_forall. by setoid_rewrite list_elem_of_In. Qed.

Lemma prefix_spec p s : String.prefix p s = true ↔ starts_with p s.
Proof.
  split; [|intros [rest ->]; apply prefix_app]. revert s. induction p as [|d p IH]; intros [|c s]; cbn [String.prefix].
  - intros _. by exists "".
  - intros _. by exists (String c s).
  - done.
  - destruct (Ascii.ascii_dec d c) as [<-|]; [|done]. intros [rest ->]%IH. by exists rest.
Qed.
Lemma HasPrefix_spec s p : HasPrefix s p = true ↔ starts_with p s.
Proof. apply prefix_spec. Qed.

Lemma Contains_spec s sub : Contains s sub = true ↔ holds_text sub s.
Proof.
  split; [|intros (a & b & ->); apply Contains_infix]. induction s as [|c s IH]; cbn [Contains].
  - rewrite orb_false_r, prefix_spec. intros [rest ->]. by exists "", rest.
  - rewrite orb_true_iff, prefix_spec. intros [[rest ->]|(a & b & ->)%IH]; [by exists "", rest | by exists (String c a), b].
Qed.
Lemma lacks_text s sub : Contains s sub = false ↔ ¬ holds_text sub s.
Proof. by rewrite <- Contains_spec, not_true_iff_false. Qed.

Lemma holds_later sub c s : holds_text sub s → holds_text sub (String c s).
Proof. intros (a & b & ->). by exists (String c a), b. Qed.

Lemma split_on_later sep s : ∃ piece rest, split_on sep s = piece :: rest.
Proof.
  induction s as [|c s (piece & rest & IH)]; cbn; [by eexists _, _|]. rewrite IH.
  destruct (Ascii.eqb c sep); by eexists _, _.
Qed.

(** What follows the last separator, or the whole. *)
Lemma after_last_cases sep s :
  (¬ holds_text (String sep "") s ∧ split_on sep s = [s]) ∨
  ((∃ piece next rest, split_on sep s = piece :: next :: rest) ∧ after_last_of sep s (after_last sep s)).
Proof.
  unfold after_last. induction s as [|c s IH].
  { left. split; [|done]. by intros ([|] & b & [=]). }
  destruct (split_on_later sep s) as (piece & rest & Hs). cbn [split_on]. rewrite Hs in *.
  destruct (Ascii.eqb_spec c sep) as [->|Hne].
  - right. split; [by eexists _, _, _|].
    destruct IH as [(Hno & [= -> ->])|((p & next & r & [= -> ->]) & Hno & a & Ha)].
    + split; [done|]. by exists "".
    + assert (is_Some (last (p :: next :: r))) as [z Hz] by by apply last_is_Some.
      change (last ("" :: p :: next :: r)) with (last (p :: next :: r)). rewrite Hz in *.
      cbn [default from_option] in *. split; [done|]. exists (String sep a). by rewrite string_app_cons, <- Ha.
  - destruct IH as [(Hno & [= -> ->])|((p & next & r & [= -> ->]) & Hno & a & Ha)].
    + left. split; [|done]. intros ([|d a] & b & Heq); injection Heq as Hc Heq; [done|].
      apply Hno. by exists a, b.
    + assert (is_Some (last (next :: r))) as [z Hz] by by apply last_is_Some.
      change (last (p :: next :: r)) with (last (next :: r)) in *. rewrite Hz in *.
      right. split; [by eexists _, _, _|]. change (last (String c p :: next :: r)) with (last (next :: r)). rewrite Hz.
      cbn [default from_option] in *. split; [done|]. exists (String c a). by rewrite string_app_cons, <- Ha.
Qed.

Lemma after_last_whole sep s : ¬ holds_text (String sep "") s → after_last sep s = s.
Proof.
  intros Hno. unfold after_last. destruct (after_last_cases sep s) as [[_ ->]|[_ (_ & a & Ha)]]; [done|].
  destruct Hno. exists a, (after_last sep s). exact Ha.
Qed.

Lemma after_last_of_unique sep s t t' : after_last_of sep s t → after_last_of sep s t' → t = t'.
Proof.
  intros [Ht (a & ->)] [Ht' (a' & Heq)]. revert a' Heq. induction a as [|c a IH]; intros [|c' a'] Heq.
  - by injection Heq.
  - injection Heq as -> Heq. destruct Ht. rewrite Heq. by exists a', t'.
  - injection Heq as -> Heq. destruct Ht'. rewrite <- Heq. by exists a, t.
  - injection Heq as _ Heq. by apply (IH a').
Qed.

Lemma after_last_eq sep s t : after_last_of sep s t → after_last sep s = t.
Proof.
  intros Ht. destruct (after_last_cases sep s) as [[Hno _]|[_ Hs]]; [|by eapply after_last_of_unique].
  destruct Ht as [_ (a & ->)]. destruct Hno. by exists a, t.
Qed.

(** * The specification *)

Section Specification.
Context {L : ClusterLibrary}.

(** Objects in these namespaces, and objects without one, are not looked at. *)
Definition user_namespace (namespace : string) : Prop :=
  namespace ∉ [""; "kube-system"; "kube-public"; "kube-node-lease"; "local-path-storage"].
Definition builtin_binding (name : string) : Prop :=
  starts_with "system:" name ∨ starts_with "eks:" name ∨ starts_with "kubeadm:" name.
Definition builtin_role (name : string) : Prop := builtin_binding name ∨ name ∈ ["admin"; "cluster-admin"; "edit"; "view"].

(** A pod template with its namespace, labels and number of pods: one where a Deployment or StatefulSet gives
    none, and more than one for a DaemonSet. *)
Inductive template (c : Cluster) : string → gmap string string → Z → PodSpec → Prop :=
| replicated_template w : w ∈ cluster_Deployments c ∨ w ∈ cluster_StatefulSets c →
    template c (km_Namespace (rw_Meta w)) (rw_TemplateLabels w) (default 1 (rw_Replicas w)) (rw_PodSpec w)
| daemon_template d : d ∈ cluster_DaemonSets c →
    template c (km_Namespace (ds_Meta d)) (ds_TemplateLabels d) 2 (ds_PodSpec d).

(** Containers, those that initialize included. *)
Definition container_of (spec : PodSpec) (container : Container) : Prop :=
  container ∈ spec_InitContainers spec ∨ container ∈ spec_Containers spec.
(** The container has a security context, and that says so. *)
Definition container_says (p : SecurityContext → Prop) (container : Container) : Prop :=
  ∃ security, container_SecurityContext container = Some security ∧ p security.

Definition states_amount (amounts : gmap string Quantity) (name : string) : Prop :=
  ∃ quantity, amounts !! name = Some quantity ∧ QuantityIsZero quantity = false.

(** The name of the repository, [base], is what follows the last slash, and the tag what follows its last colon. *)
Definition base_of (image base : string) : Prop :=
  after_last_of (byte_of_code 47) image base ∨ (¬ holds_text "/" image ∧ base = image).
Definition mutable_image (image : string) : Prop :=
  ¬ holds_text "@sha256:" image ∧ ∃ base, base_of image base ∧
    (¬ holds_text ":" base ∨ ∃ tag, after_last_of (byte_of_code 58) base tag ∧ tag ∈ [""; "latest"]).

(** The pod says so, or every container, of which there is one. *)
Definition settled (pod : PodSecurityContext → Prop) (p : SecurityContext → Prop) (spec : PodSpec) : Prop :=
  (∃ security, spec_SecurityContext spec = Some security ∧ pod security) ∨
  ((∃ container, container_of spec container) ∧ ∀ container, container_of spec container → container_says p container).
Definition restricted_seccomp (profile : option string) : Prop := profile ∈ [Some "RuntimeDefault"; Some "Localhost"].
Definition hardened (spec : PodSpec) : Prop :=
  settled (λ s, podSecurity_RunAsNonRoot s = Some true) (λ s, security_RunAsNonRoot s = Some true) spec ∧
  settled (λ s, restricted_seccomp (podSecurity_SeccompProfile s)) (λ s, restricted_seccomp (security_SeccompProfile s)) spec ∧
  settled (λ _, False) (λ s, ∃ capabilities name, security_Capabilities s = Some capabilities ∧
                             name ∈ capabilities_Drop capabilities ∧ ToLower name = "all") spec.
Definition escalates (security : SecurityContext) : Prop :=
  security_Privileged security = Some true ∨ security_AllowPrivilegeEscalation security = Some true.
Definition host_access (spec : PodSpec) : Prop :=
  spec_HostNetwork spec = true ∨ spec_HostPID spec = true ∨ spec_HostIPC spec = true ∨ true ∈ spec_HostPathVolumes spec.

(** A budget in that namespace selects those labels. *)
Definition budgeted (c : Cluster) (namespace : string) (labels : gmap string string) : Prop :=
  ∃ budget selector, budget ∈ cluster_PDBs c ∧ km_Namespace (budget_Meta budget) = namespace ∧
    budget_Selector budget = Some selector ∧ SelectorMatches selector labels = Some true.

(** A rule that grants everything of some kind, to read secrets, or to gain privileges. *)
Definition broad_rule (rule : PolicyRule) : Prop :=
  "*" ∈ rule_Verbs rule ∨ "*" ∈ rule_APIGroups rule ∨ "*" ∈ rule_Resources rule ∨
  ("secrets" ∈ rule_Resources rule ∧ ∃ verb, verb ∈ rule_Verbs rule ∧ verb ∈ ["get"; "list"; "watch"]) ∨
  (∃ verb, verb ∈ rule_Verbs rule ∧ verb ∈ ["bind"; "escalate"; "impersonate"]) ∨
  ("pods/exec" ∈ rule_Resources rule ∧ "create" ∈ rule_Verbs rule).
Definition binds_admin (binding : RoleBinding) : Prop := binding_RoleRef binding = mkRoleRef "ClusterRole" "cluster-admin".

(** The first condition of type Ready says so. *)
Definition ready (node : Node) : Prop :=
  ∃ before after, node_Conditions node = before ++ mkNodeCondition "Ready" "True" :: after ∧
    ∀ condition, condition ∈ before → condition_Type condition ≠ "Ready".

(** [violation c id]: some object violates the control [id]. *)
Inductive violation (c : Cluster) : string → Prop :=
| unbounded_container namespace labels pods spec container name :
    template c namespace labels pods spec → user_namespace namespace → container_of spec container →
    name ∈ ["cpu"; "memory"] →
    ¬ states_amount (container_Requests container) name ∨ ¬ states_amount (container_Limits container) name →
    violation c "KA-K8S-001"
| ungoverned_namespace namespace :
    namespace ∈ cluster_Namespaces c → user_namespace (km_Name namespace) →
    (¬ ∃ quota, quota ∈ cluster_ResourceQuotas c ∧ km_Namespace quota = km_Name namespace) ∨
    (¬ ∃ limits, limits ∈ cluster_LimitRanges c ∧ km_Namespace limits = km_Name namespace) →
    violation c "KA-K8S-002"
| open_namespace namespace :
    namespace ∈ cluster_Namespaces c → user_namespace (km_Name namespace) →
    (¬ ∃ policy, policy ∈ cluster_NetworkPolicies c ∧ km_Namespace (policy_Meta policy) = km_Name namespace) →
    violation c "KA-K8S-003"
| broad_policy policy :
    policy ∈ cluster_NetworkPolicies c → user_namespace (km_Namespace (policy_Meta policy)) →
    0%nat ∈ policy_Ingress policy ∨ 0%nat ∈ policy_Egress policy → violation c "KA-K8S-003"
| privileged_container pod container :
    pod ∈ cluster_Pods c → user_namespace (km_Namespace (pod_Meta pod)) →
    container ∈ spec_Containers (pod_Spec pod) → container_says escalates container → violation c "KA-K8S-004"
| broad_role role rule :
    role ∈ cluster_Roles c → user_namespace (km_Namespace (role_Meta role)) → rule ∈ role_Rules role → broad_rule rule →
    violation c "KA-K8S-005"
| broad_cluster_role role rule :
    role ∈ cluster_ClusterRoles c → ¬ builtin_role (km_Name (role_Meta role)) → rule ∈ role_Rules role → broad_rule rule →
    violation c "KA-K8S-005"
| cluster_admin binding :
    binding ∈ cluster_ClusterRoleBindings c → ¬ builtin_binding (km_Name (binding_Meta binding)) → binds_admin binding →
    violation c "KA-K8S-005"
| namespace_admin binding :
    binding ∈ cluster_RoleBindings c → user_namespace (km_Namespace (binding_Meta binding)) → binds_admin binding →
    violation c "KA-K8S-005"
| unbudgeted_workload namespace labels pods spec :
    template c namespace labels pods spec → user_namespace namespace → 1 < pods → ¬ budgeted c namespace labels →
    violation c "KA-K8S-006"
| unlabelled_namespace namespace :
    namespace ∈ cluster_Namespaces c → user_namespace (km_Name namespace) →
    km_Labels namespace !! "pod-security.kubernetes.io/enforce" ∉ [Some "baseline"; Some "restricted"] →
    violation c "KA-K8S-007"
| host_workload namespace labels pods spec :
    template c namespace labels pods spec → user_namespace namespace → host_access spec → violation c "KA-K8S-008"
| elevated_workload namespace labels pods spec container :
    template c namespace labels pods spec → user_namespace namespace → container_of spec container →
    container_says (λ s, escalates s ∨ ∃ capabilities, security_Capabilities s = Some capabilities ∧
                                      capabilities_Add capabilities ≠ []) container →
    violation c "KA-K8S-008"
| soft_workload namespace labels pods spec :
    template c namespace labels pods spec → user_namespace namespace → ¬ hardened spec → violation c "KA-K8S-008"
| mutable_workload namespace labels pods spec container :
    template c namespace labels pods spec → user_namespace namespace → container_of spec container →
    mutable_image (container_Image container) → violation c "KA-K8S-009"
| exposed_service service :
    service ∈ cluster_Services c → user_namespace (km_Namespace (service_Meta service)) →
    service_Type service ∈ ["LoadBalancer"; "NodePort"] ∨ service_ExternalIPs service ≠ [] → violation c "KA-K8S-010"
| exposed_ingress ingress :
    ingress ∈ cluster_Ingresses c → user_namespace (km_Namespace (ingress_Meta ingress)) →
    ingress_TLS ingress = [] ∨ (∃ host, host ∈ ingress_Hosts ingress ∧ holds_text "*" host) → violation c "KA-K8S-010"
| unready_node node : node ∈ cluster_Nodes c → ¬ ready node → violation c "KA-K8S-011"
| pressed_node node condition :
    node ∈ cluster_Nodes c → condition ∈ node_Conditions node →
    condition_Type condition ∈ ["MemoryPressure"; "DiskPressure"; "PIDPressure"] → condition_Status condition = "True" →
    violation c "KA-K8S-011"
| stuck_pod pod :
    pod ∈ cluster_Pods c → user_namespace (km_Namespace (pod_Meta pod)) → pod_Phase pod ∈ ["Failed"; "Pending"] →
    violation c "KA-K8S-011"
| unbound_claim claim :
    claim ∈ cluster_PVCs c → user_namespace (km_Namespace (pvc_Meta claim)) → pvc_Phase claim ≠ "Bound" →
    violation c "KA-K8S-011".

(** * The questions of the scan, answered *)

Lemma user_spec namespace : isSystemNamespace namespace = false ↔ user_namespace namespace.
Proof. unfold isSystemNamespace. by rewrite bool_decide_eq_false. Qed.
Lemma builtin_binding_spec name : isBuiltinClusterRoleBinding name = true ↔ builtin_binding name.
Proof. unfold isBuiltinClusterRoleBinding, builtin_binding. rewrite !orb_true_iff, !HasPrefix_spec. tauto. Qed.
Lemma builtin_role_spec name : isBuiltinClusterRole name = true ↔ builtin_role name.
Proof. unfold isBuiltinClusterRole. by rewrite orb_true_iff, builtin_binding_spec, bool_decide_eq_true. Qed.

Lemma outside_spec {A} (namespace : A → string) p l :
  outside namespace p l = true ↔ ∃ x, x ∈ l ∧ user_namespace (namespace x) ∧ p x = true.
Proof.
  unfold outside. rewrite existsb_elem. by setoid_rewrite andb_true_iff; setoid_rewrite negb_true_iff; setoid_rewrite user_spec.
Qed.

Lemma workload_template c w :
  w ∈ workloads c → template c (workload_Namespace w) (workload_Labels w) (workload_Replicas w) (workload_PodSpec w).
Proof.
  unfold workloads, workloadTargets. rewrite !elem_of_app, !list_elem_of_fmap.
  intros [(x & -> & Hx)|[(x & -> & Hx)|(x & -> & Hx)]];
    [apply replicated_template; by left | apply replicated_template; by right | by apply daemon_template].
Qed.
Lemma template_workload c namespace labels pods spec : template c namespace labels pods spec →
  ∃ w, w ∈ workloads c ∧ workload_Namespace w = namespace ∧ workload_Labels w = labels ∧
       workload_Replicas w = pods ∧ workload_PodSpec w = spec.
Proof.
  unfold workloads, workloadTargets. setoid_rewrite elem_of_app. setoid_rewrite elem_of_app.
  intros [w [Hw|Hw]|d Hd].
  - exists (replicated_target "Deployment" w). split; [left; by apply list_elem_of_fmap_2 | done].
  - exists (replicated_target "StatefulSet" w). split; [right; left; by apply list_elem_of_fmap_2 | done].
  - exists (daemon_target d). split; [right; right; by apply list_elem_of_fmap_2 | done].
Qed.
Lemma workload_outside_spec p (P : string → gmap string string → Z → PodSpec → Prop) c :
  (∀ w, p w = true ↔ P (workload_Namespace w) (workload_Labels w) (workload_Replicas w) (workload_PodSpec w)) →
  workload_outside p c = true ↔
  ∃ namespace labels pods spec, template c namespace labels pods spec ∧ user_namespace namespace ∧ P namespace labels pods spec.
Proof.
  intros Hp. unfold workload_outside. rewrite outside_spec. split.
  - intros (w & Hw & Hns & Hq%Hp). do 4 eexists. split; [by apply workload_template | done].
  - intros (? & ? & ? & ? & (w & Hw & <- & <- & <- & <-)%template_workload & Hns & HP). exists w.
    split_and!; [done..|]. by apply Hp.
Qed.

(** ** Containers *)

Lemma in_containers f spec : existsb f (allContainers spec) = true ↔ ∃ x, container_of spec x ∧ f x = true.
Proof. unfold allContainers, container_of. rewrite existsb_elem. by setoid_rewrite elem_of_app. Qed.
Lemma in_security_spec p (P : SecurityContext → Prop) x :
  (∀ s, p s = true ↔ P s) → in_security p x = true ↔ container_says P x.
Proof.
  intros Hp. unfold in_security, container_says. destruct (container_SecurityContext x) as [s|].
  - rewrite Hp. split; [by exists s | by intros (? & [= <-] & ?)].
  - by split; [|intros (? & ? & ?)].
Qed.
Lemma is_true_spec b : is_true b = true ↔ b = Some true.
Proof. by destruct b as [[]|]. Qed.
Lemma escalates_spec s : privileged s = true ↔ escalates s.
Proof. unfold privileged. by rewrite orb_true_iff, !is_true_spec. Qed.

Lemma hasResource_spec amounts name : hasResource amounts name = true ↔ states_amount amounts name.
Proof.
  unfold hasResource, states_amount. destruct (amounts !! name) as [q|].
  - rewrite negb_true_iff. split; [by exists q | by intros (? & [= <-] & ?)].
  - by split; [|intros (? & ? & ?)].
Qed.
Lemma unbounded_spec x : bounded_container x = false ↔ ∃ name, name ∈ ["cpu"; "memory"] ∧
  (¬ states_amount (container_Requests x) name ∨ ¬ states_amount (container_Limits x) name).
Proof.
  unfold bounded_container. rewrite !andb_false_iff, <- !not_true_iff_false, !hasResource_spec. split.
  - intros [[[?|?]|?]|?]; [exists "cpu" | exists "memory" | exists "cpu" | exists "memory"]; set_solver.
  - intros (name & Hname & Hmiss). rewrite !elem_of_cons in Hname. destruct Hname as [->|[->|[]%elem_of_nil]]; tauto.
Qed.
Lemma missing_resources_spec spec : podSpecMissingResources spec = true ↔
  ∃ container name, container_of spec container ∧ name ∈ ["cpu"; "memory"] ∧
    (¬ states_amount (container_Requests container) name ∨ ¬ states_amount (container_Limits container) name).
Proof.
  unfold podSpecMissingResources. rewrite in_containers. setoid_rewrite negb_true_iff. setoid_rewrite unbounded_spec. naive_solver.
Qed.

Lemma last_base image : base_of image (after_last (byte_of_code 47) image).
Proof.
  destruct (after_last_cases (byte_of_code 47) image) as [[Hno _]|[_ Hs]]; [right | by left].
  by rewrite (after_last_whole _ _ Hno).
Qed.
Lemma base_unique image base : base_of image base → after_last (byte_of_code 47) image = base.
Proof. intros [Hb|[Hno ->]]; [by apply after_last_eq | by apply after_last_whole]. Qed.

Lemma tag_spec base : (if negb (Contains base ":") then true
    else let tag := after_last (byte_of_code 58) base in (tag == "") || (tag == "latest")) = true ↔
  ¬ holds_text ":" base ∨ ∃ tag, after_last_of (byte_of_code 58) base tag ∧ tag ∈ [""; "latest"].
Proof.
  destruct (Contains base ":") eqn:Hc; cbn [negb]; [|apply lacks_text in Hc; by split; [left|]].
  apply Contains_spec in Hc. destruct (after_last_cases (byte_of_code 58) base) as [[[] _]|[_ Hs]]; [exact Hc|].
  cbv zeta. rewrite orb_true_iff, !String.eqb_eq. split.
  - intros Ht. right. exists (after_last (byte_of_code 58) base). split; [exact Hs | set_solver].
  - intros [[]|(tag & Ht & Hin)]; [exact Hc|]. rewrite (after_last_eq _ _ _ Ht). set_solver.
Qed.
Lemma mutable_spec image : imageIsMutable image = true ↔ mutable_image image.
Proof.
  unfold imageIsMutable, mutable_image. destruct (Contains image "@sha256:") eqn:Hd.
  { apply Contains_spec in Hd. by split; [|intros [[] _]]. }
  apply lacks_text in Hd. cbv zeta. rewrite tag_spec. split.
  - intros Ht. split; [done|]. exists (after_last (byte_of_code 47) image). split; [apply last_base | done].
  - intros (_ & base & Hb & Ht). by rewrite (base_unique _ _ Hb).
Qed.

(** ** Hardening *)

Lemma every_container_spec p (P : SecurityContext → Prop) spec : (∀ s, p s = true ↔ P s) →
  every_container (in_security p) spec = true ↔
  (∃ container, container_of spec container) ∧ ∀ container, container_of spec container → container_says P container.
Proof.
  intros Hp. unfold every_container. rewrite andb_true_iff, forallb_elem, Z.ltb_lt.
  assert (∀ x, x ∈ allContainers spec ↔ container_of spec x) as Hin by (intros; unfold allContainers; by rewrite elem_of_app).
  setoid_rewrite Hin. setoid_rewrite (in_security_spec p P); [|done]. split.
  - intros [Hall Hsome]. split; [|done]. setoid_rewrite <- Hin.
    destruct (allContainers spec) as [|x l]; [cbn in Hsome; lia|]. exists x. by left.
  - intros [[x Hx%Hin] Hall]. split; [done|]. destruct (allContainers spec); [by apply elem_of_nil in Hx | cbn; lia].
Qed.
Lemma settled_spec p q (P : PodSecurityContext → Prop) (Q : SecurityContext → Prop) spec :
  (∀ s, p s = true ↔ P s) → (∀ s, q s = true ↔ Q s) →
  of_pod_security p spec || every_container (in_security q) spec = true ↔ settled P Q spec.
Proof.
  intros Hp Hq. unfold settled. rewrite orb_true_iff, (every_container_spec q Q) by done. unfold of_pod_security.
  destruct (spec_SecurityContext spec) as [s|].
  - rewrite Hp. split; (intros [Hs|Hs]; [left | by right]); [by exists s | by destruct Hs as (? & [= <-] & ?)].
  - split; (intros [Hs|Hs]; [|by right]); [done | by destruct Hs as (? & ? & ?)].
Qed.
Lemma seccomp_spec profile : seccompIsRestricted profile = true ↔ restricted_seccomp profile.
Proof.
  unfold seccompIsRestricted, restricted_seccomp. destruct profile as [type|]; [|set_solver].
  rewrite orb_true_iff, !String.eqb_eq. set_solver.
Qed.
Lemma drops_spec s : match security_Capabilities s with
    | Some capabilities => capabilityListContains (capabilities_Drop capabilities) "ALL" | None => false end = true ↔
  ∃ capabilities name, security_Capabilities s = Some capabilities ∧ name ∈ capabilities_Drop capabilities ∧ ToLower name = "all".
Proof.
  destruct (security_Capabilities s) as [caps|]; [|by split; [|intros (? & ? & ? & ?)]].
  unfold capabilityListContains. rewrite existsb_elem. unfold EqualFold. setoid_rewrite String.eqb_eq.
  split; [intros (name & ? & ?); by exists caps, name | intros (? & name & [= <-] & ? & ?); by exists name].
Qed.
Lemma hardened_spec spec : podSpecMissingRuntimeHardening spec = true ↔ ¬ hardened spec.
Proof.
  assert (podSpecRunsAsNonRoot spec && podSpecHasSeccomp spec && podSpecDropsAllCapabilities spec = true ↔ hardened spec) as Hh.
  { rewrite !andb_true_iff. unfold hardened. rewrite <- (and_assoc (_ = true)). f_equiv; [|f_equiv].
    - apply settled_spec; intros; apply is_true_spec.
    - apply settled_spec; intros; apply seccomp_spec.
    - unfold podSpecDropsAllCapabilities, settled. rewrite (every_container_spec _ _ _ drops_spec).
      split; [by right | by intros [(? & ? & [])|?]]. }
  rewrite <- Hh. unfold podSpecMissingRuntimeHardening. rewrite <- !negb_andb, negb_true_iff, not_true_iff_false. done.
Qed.
Lemma elevated_spec spec : podSpecHasElevatedCapabilities spec = true ↔ ∃ container, container_of spec container ∧
  container_says (λ s, escalates s ∨ ∃ capabilities, security_Capabilities s = Some capabilities ∧
                                    capabilities_Add capabilities ≠ []) container.
Proof.
  unfold podSpecHasElevatedCapabilities. rewrite in_containers. apply exist_proper. intros x. f_equiv.
  apply in_security_spec. intros s. rewrite orb_true_iff, escalates_spec. f_equiv. unfold adds_capabilities.
  destruct (security_Capabilities s) as [caps|]; [|by split; [|intros (? & ? & ?)]].
  rewrite negb_true_iff, bool_decide_eq_false. split; [by exists caps | by intros (? & [= <-] & ?)].
Qed.
Lemma host_access_spec spec : podSpecAllowsHostAccess spec = true ↔ host_access spec.
Proof.
  unfold podSpecAllowsHostAccess, host_access. rewrite !orb_true_iff, existsb_elem. unfold id. naive_solver.
Qed.

(** ** Workloads, roles and nodes *)

Lemma budgeted_spec c w : workloadHasPDB w (cluster_PDBs c) = true ↔ budgeted c (workload_Namespace w) (workload_Labels w).
Proof.
  unfold workloadHasPDB, budgeted. rewrite existsb_elem. apply exist_proper. intros b.
  rewrite andb_true_iff, String.eqb_eq. destruct (budget_Selector b) as [selector|].
  - split.
    + intros (Hb & Hns & Hm). exists selector. destruct (SelectorMatches selector _) as [[]|]; done.
    + intros (s & Hb & Hns & [= <-] & Hm). by rewrite Hm.
  - by split; [intros (? & ? & ?)|intros (? & ? & ? & ? & ?)].
Qed.

Lemma rule_matches_spec values targets :
  rule_matches values targets = true ↔ "*" ∈ values ∨ ∃ value, value ∈ values ∧ value ∈ targets.
Proof.
  unfold rule_matches. rewrite existsb_elem. setoid_rewrite orb_true_iff. setoid_rewrite existsb_elem.
  setoid_rewrite String.eqb_eq. naive_solver.
Qed.
Lemma wildcard_spec values : containsWildcard values = true ↔ "*" ∈ values.
Proof. unfold containsWildcard. rewrite existsb_elem. setoid_rewrite String.eqb_eq. naive_solver. Qed.

Definition broad (rules : list PolicyRule) : bool :=
  hasWildcardRule rules || roleAllowsSecretRead rules || roleAllowsPrivilegeEscalation rules.
Lemma broad_spec rules : broad rules = true ↔ ∃ rule, rule ∈ rules ∧ broad_rule rule.
Proof.
  unfold broad, hasWildcardRule, roleAllowsSecretRead, roleAllowsPrivilegeEscalation. rewrite !orb_true_iff, !existsb_elem.
  setoid_rewrite orb_true_iff. setoid_rewrite andb_true_iff. setoid_rewrite orb_true_iff.
  setoid_rewrite rule_matches_spec. setoid_rewrite wildcard_spec. setoid_rewrite list_elem_of_singleton.
  unfold broad_rule. split.
  - intros [[(r & Hr & Hw)|(r & Hr & Hs)]|(r & Hr & He)]; exists r; (split; [done|]); naive_solver.
  - intros (r & Hr & Hb). destruct (base.decide ("*" ∈ rule_Verbs r ∨ "*" ∈ rule_APIGroups r ∨ "*" ∈ rule_Resources r)).
    + left. left. exists r. tauto.
    + destruct Hb as [|[|[|[Hs|[He|He]]]]]; [tauto..| | |].
      * left. right. exists r. naive_solver.
      * right. exists r. naive_solver.
      * right. exists r. naive_solver.
Qed.
Lemma binds_spec binding : binds_cluster_admin binding = true ↔ binds_admin binding.
Proof.
  unfold binds_cluster_admin, binds_admin. rewrite andb_true_iff, !String.eqb_eq.
  destruct (binding_RoleRef binding); cbn. split; [by intros [-> ->] | by intros [= -> ->]].
Qed.

Lemma ready_spec node : nodeReady node = true ↔ ready node.
Proof.
  unfold nodeReady, ready. induction (node_Conditions node) as [|[t s] l IH]; cbn [List.find].
  { split; [done|]. by intros ([|] & ? & [=] & _). }
  cbn [condition_Type condition_Status]. destruct (String.eqb_spec t "Ready") as [->|Hne].
  - cbn. rewrite String.eqb_eq. split.
    + intros ->. exists [], l. split; [done|]. by intros c []%not_elem_of_nil.
    + intros ([|x before] & after & Heq & Hno); [by injection Heq|]. injection Heq as <- _. by destruct (Hno (mkNodeCondition "Ready" s)); [left|].
  - rewrite IH. split.
    + intros (before & after & -> & Hno). exists (mkNodeCondition t s :: before), after. split; [done|].
      intros c [->|Hc]%elem_of_cons; [done | by apply Hno].
    + intros ([|x before] & after & Heq & Hno); [by injection Heq|]. injection Heq as <- ->. exists before, after.
      split; [done|]. intros c Hc. apply Hno. by right.
Qed.
Lemma pressure_spec node : nodeUnderPressure node = true ↔ ∃ condition, condition ∈ node_Conditions node ∧
  condition_Type condition ∈ ["MemoryPressure"; "DiskPressure"; "PIDPressure"] ∧ condition_Status condition = "True".
Proof.
  unfold nodeUnderPressure. rewrite existsb_elem. setoid_rewrite andb_true_iff.
  by setoid_rewrite bool_decide_eq_true; setoid_rewrite String.eqb_eq.
Qed.

Lemma guarded_spec namespace objects : guarded namespace objects = true ↔
  ∃ o, o ∈ objects ∧ km_Namespace o = km_Name namespace.
Proof. unfold guarded. rewrite bool_decide_eq_true, list_elem_of_fmap. naive_solver. Qed.
Lemma policies_spec namespace c : guarded namespace (map policy_Meta (cluster_NetworkPolicies c)) = true ↔
  ∃ policy, policy ∈ cluster_NetworkPolicies c ∧ km_Namespace (policy_Meta policy) = km_Name namespace.
Proof. rewrite guarded_spec. setoid_rewrite list_elem_of_fmap. naive_solver. Qed.
Lemma peerless_spec l : existsb (λ peers, (peers =? 0)%nat) l = true ↔ 0%nat ∈ l.
Proof. rewrite existsb_elem. setoid_rewrite Nat.eqb_eq. naive_solver. Qed.
Lemma label_spec namespace : missingPodSecurityLabel namespace || privilegedPodSecurityLabel namespace = true ↔
  km_Labels namespace !! "pod-security.kubernetes.io/enforce" ∉ [Some "baseline"; Some "restricted"].
Proof.
  unfold missingPodSecurityLabel, privilegedPodSecurityLabel, enforce_label.
  rewrite orb_true_iff, andb_true_iff, !negb_true_iff, !String.eqb_neq, String.eqb_eq.
  destruct (km_Labels namespace !! _) as [v|]; cbn [default from_option id]; [|split; [set_solver | by left]].
  rewrite !not_elem_of_cons. split; [|].
  - intros [[]| ->]; split_and!; try congruence; apply not_elem_of_nil.
  - intros (H1 & H2 & _). left. split; congruence.
Qed.

(** * Control by control *)

Lemma control_001 c : workload_outside (λ w, podSpecMissingResources (workload_PodSpec w)) c = true ↔ violation c "KA-K8S-001".
Proof.
  rewrite (workload_outside_spec _ (λ _ _ _ spec, podSpecMissingResources spec = true)) by done.
  setoid_rewrite missing_resources_spec. split.
  - intros (? & ? & ? & ? & Ht & Hns & x & name & Hx & Hname & Hmiss). by eapply unbounded_container.
  - inversion 1. do 4 eexists. split; [done|]. split; [done|]. by do 2 eexists.
Qed.

Lemma control_002 c :
  outside km_Name (λ ns, negb (guarded ns (cluster_ResourceQuotas c)) || negb (guarded ns (cluster_LimitRanges c)))
    (cluster_Namespaces c) = true ↔ violation c "KA-K8S-002".
Proof.
  rewrite outside_spec. setoid_rewrite orb_true_iff. setoid_rewrite negb_true_iff. setoid_rewrite <- not_true_iff_false.
  setoid_rewrite guarded_spec. split.
  - intros (ns & Hns & Hu & Hmiss). by eapply ungoverned_namespace.
  - inversion 1. by eexists.
Qed.

Lemma control_003 c :
  outside km_Name (λ ns, negb (guarded ns (map policy_Meta (cluster_NetworkPolicies c)))) (cluster_Namespaces c) ||
  outside (λ policy, km_Namespace (policy_Meta policy))
    (λ policy, networkPolicyHasBroadIngress policy || networkPolicyHasBroadEgress policy) (cluster_NetworkPolicies c) = true ↔
  violation c "KA-K8S-003".
Proof.
  unfold networkPolicyHasBroadIngress, networkPolicyHasBroadEgress. rewrite orb_true_iff, !outside_spec.
  setoid_rewrite orb_true_iff. setoid_rewrite negb_true_iff. setoid_rewrite <- not_true_iff_false.
  setoid_rewrite policies_spec. setoid_rewrite peerless_spec. split.
  - intros [(ns & Hns & Hu & Hmiss)|(policy & Hp & Hu & Hb)]; [by eapply open_namespace | by eapply broad_policy].
  - inversion 1; [left | right]; by eexists.
Qed.

Lemma control_004 c : pod_outside podHasPrivilegedContainer c = true ↔ violation c "KA-K8S-004".
Proof.
  unfold pod_outside, podHasPrivilegedContainer. rewrite outside_spec. setoid_rewrite existsb_elem.
  setoid_rewrite (in_security_spec privileged escalates); [|apply escalates_spec]. split.
  - intros (pod & Hpod & Hu & x & Hx & Hs). by eapply privileged_container.
  - inversion 1. eexists. split; [eassumption|]. split; [done|]. by eexists.
Qed.

Lemma role_outside_spec p c : role_outside p c = true ↔
  ∃ role, role ∈ cluster_Roles c ∧ user_namespace (km_Namespace (role_Meta role)) ∧ p (role_Rules role) = true.
Proof. apply outside_spec. Qed.
Lemma custom_cluster_role_spec p c : custom_cluster_role p c = true ↔
  ∃ role, role ∈ cluster_ClusterRoles c ∧ ¬ builtin_role (km_Name (role_Meta role)) ∧ p (role_Rules role) = true.
Proof.
  unfold custom_cluster_role. rewrite existsb_elem. setoid_rewrite andb_true_iff. setoid_rewrite negb_true_iff.
  setoid_rewrite <- not_true_iff_false. by setoid_rewrite builtin_role_spec.
Qed.

(** The three questions about the rules of a role as one. *)
Lemma roles_broad (f : (list PolicyRule → bool) → bool) (P : Role → Prop) :
  (∀ p, f p = true ↔ ∃ role : Role, P role ∧ p (role_Rules role) = true) →
  f hasWildcardRule = true ∨ f roleAllowsSecretRead = true ∨ f roleAllowsPrivilegeEscalation = true ↔
  ∃ role rule, P role ∧ rule ∈ role_Rules role ∧ broad_rule rule.
Proof.
  intros Hf. rewrite !Hf. split.
  - assert (∀ role : Role, P role → broad (role_Rules role) = true →
      ∃ role rule, P role ∧ rule ∈ role_Rules role ∧ broad_rule rule) as Hone
      by (intros role HP (rule & Hr & Hb)%broad_spec; by exists role, rule).
    unfold broad in Hone. intros [(r & HP & Hr)|[(r & HP & Hr)|(r & HP & Hr)]]; apply (Hone r HP); rewrite Hr;
      by rewrite ?orb_true_r.
  - intros (role & rule & HP & Hr & Hb). assert (broad (role_Rules role) = true) as Hbroad by (apply broad_spec; by exists rule).
    unfold broad in Hbroad. rewrite !orb_true_iff in Hbroad. naive_solver.
Qed.

#[local] Opaque binds_cluster_admin.

Lemma control_005 c :
  role_outside hasWildcardRule c || custom_cluster_role hasWildcardRule c ||
  role_outside roleAllowsSecretRead c || custom_cluster_role roleAllowsSecretRead c ||
  role_outside roleAllowsPrivilegeEscalation c || custom_cluster_role roleAllowsPrivilegeEscalation c ||
  existsb (λ b, binds_cluster_admin b && negb (isBuiltinClusterRoleBinding (km_Name (binding_Meta b))))
    (cluster_ClusterRoleBindings c) ||
  outside (λ b, km_Namespace (binding_Meta b)) binds_cluster_admin (cluster_RoleBindings c) = true ↔
  violation c "KA-K8S-005".
Proof.
  rewrite !orb_true_iff, existsb_elem, outside_spec. setoid_rewrite andb_true_iff. setoid_rewrite negb_true_iff.
  setoid_rewrite <- not_true_iff_false. setoid_rewrite builtin_binding_spec. setoid_rewrite binds_spec.
  pose proof (roles_broad (λ p, role_outside p c)
    (λ role, role ∈ cluster_Roles c ∧ user_namespace (km_Namespace (role_Meta role)))) as Hroles.
  pose proof (roles_broad (λ p, custom_cluster_role p c)
    (λ role, role ∈ cluster_ClusterRoles c ∧ ¬ builtin_role (km_Name (role_Meta role)))) as Hcustom.
  cbv beta in Hroles, Hcustom. specialize (Hroles ltac:(intros p; rewrite role_outside_spec; naive_solver)).
  specialize (Hcustom ltac:(intros p; rewrite custom_cluster_role_spec; naive_solver)). split.
  - intros Hany. assert (
      (∃ role rule, (role ∈ cluster_Roles c ∧ user_namespace (km_Namespace (role_Meta role))) ∧ rule ∈ role_Rules role ∧ broad_rule rule) ∨
      (∃ role rule, (role ∈ cluster_ClusterRoles c ∧ ¬ builtin_role (km_Name (role_Meta role))) ∧ rule ∈ role_Rules role ∧ broad_rule rule) ∨
      (∃ b, b ∈ cluster_ClusterRoleBindings c ∧ binds_admin b ∧ ¬ builtin_binding (km_Name (binding_Meta b))) ∨
      (∃ b, b ∈ cluster_RoleBindings c ∧ user_namespace (km_Namespace (binding_Meta b)) ∧ binds_admin b)) as Hcases
      by (rewrite <- Hroles, <- Hcustom; tauto).
    destruct Hcases as [(role & rule & [? ?] & ? & ?)|[(role & rule & [? ?] & ? & ?)|[(b & ? & ? & ?)|(b & ? & ? & ?)]]];
      [by eapply broad_role | by eapply broad_cluster_role | by eapply cluster_admin | by eapply namespace_admin].
  - inversion 1; subst.
    + assert (∃ role rule, (role ∈ cluster_Roles c ∧ user_namespace (km_Namespace (role_Meta role))) ∧
        rule ∈ role_Rules role ∧ broad_rule rule) as Hr%Hroles by by do 2 eexists. tauto.
    + assert (∃ role rule, (role ∈ cluster_ClusterRoles c ∧ ¬ builtin_role (km_Name (role_Meta role))) ∧
        rule ∈ role_Rules role ∧ broad_rule rule) as Hr%Hcustom by by do 2 eexists. tauto.
    + left. right. by eexists.
    + right. by eexists.
Qed.

Lemma control_006 c : workload_outside (λ w, (1 <? workload_Replicas w) && negb (workloadHasPDB w (cluster_PDBs c))) c = true ↔
  violation c "KA-K8S-006".
Proof.
  rewrite (workload_outside_spec _ (λ ns labels pods _, 1 < pods ∧ ¬ budgeted c ns labels)).
  - split; [intros (? & ? & ? & ? & ? & ? & ? & ?); by eapply unbudgeted_workload | inversion 1; by do 4 eexists].
  - intros w. by rewrite andb_true_iff, Z.ltb_lt, negb_true_iff, <- not_true_iff_false, budgeted_spec.
Qed.

Lemma control_007 c : outside km_Name (λ ns, missingPodSecurityLabel ns || privilegedPodSecurityLabel ns) (cluster_Namespaces c) = true ↔
  violation c "KA-K8S-007".
Proof.
  rewrite outside_spec. setoid_rewrite label_spec.
  split; [intros (? & ? & ? & ?); by eapply unlabelled_namespace | inversion 1; by eexists].
Qed.

Lemma control_008 c :
  workload_outside (λ w, podSpecAllowsHostAccess (workload_PodSpec w)) c ||
  workload_outside (λ w, podSpecHasElevatedCapabilities (workload_PodSpec w)) c ||
  workload_outside (λ w, podSpecMissingRuntimeHardening (workload_PodSpec w)) c = true ↔ violation c "KA-K8S-008".
Proof.
  rewrite !orb_true_iff.
  rewrite (workload_outside_spec _ (λ _ _ _ spec, host_access spec)) by (intros; apply host_access_spec).
  rewrite (workload_outside_spec _ (λ _ _ _ spec, podSpecHasElevatedCapabilities spec = true)) by done.
  rewrite (workload_outside_spec _ (λ _ _ _ spec, ¬ hardened spec)) by (intros; apply hardened_spec).
  setoid_rewrite elevated_spec. split.
  - intros [[(? & ? & ? & ? & ? & ? & ?)|(? & ? & ? & ? & ? & ? & x & ? & ?)]|(? & ? & ? & ? & ? & ? & ?)];
      [by eapply host_workload | by eapply elevated_workload | by eapply soft_workload].
  - inversion 1; [left; left | left; right | right]; do 4 eexists; (split; [eassumption|]); (split; [done|]); try done. by eexists.
Qed.

Lemma control_009 c : workload_outside (λ w, podSpecUsesMutableImages (workload_PodSpec w)) c = true ↔ violation c "KA-K8S-009".
Proof.
  rewrite (workload_outside_spec _ (λ _ _ _ spec, podSpecUsesMutableImages spec = true)) by done.
  unfold podSpecUsesMutableImages. setoid_rewrite in_containers. setoid_rewrite mutable_spec. split.
  - intros (? & ? & ? & ? & ? & ? & ? & ? & ?). by eapply mutable_workload.
  - inversion 1. do 4 eexists. split; [eassumption|]. split; [done|]. by eexists.
Qed.

Lemma exposed_service_spec c :
  service_outside (λ s, service_Type s == "LoadBalancer") c || service_outside (λ s, service_Type s == "NodePort") c ||
  service_outside (λ s, negb (bool_decide (service_ExternalIPs s = []))) c = true ↔
  ∃ s, s ∈ cluster_Services c ∧ user_namespace (km_Namespace (service_Meta s)) ∧
    (service_Type s ∈ ["LoadBalancer"; "NodePort"] ∨ service_ExternalIPs s ≠ []).
Proof.
  unfold service_outside. rewrite !orb_true_iff, !outside_spec. setoid_rewrite negb_true_iff.
  setoid_rewrite bool_decide_eq_false. setoid_rewrite String.eqb_eq. setoid_rewrite elem_of_cons. setoid_rewrite list_elem_of_singleton.
  naive_solver.
Qed.
Lemma exposed_ingress_spec c :
  ingress_outside (λ i, bool_decide (ingress_TLS i = [])) c || ingress_outside ingressHasWildcardHost c = true ↔
  ∃ i, i ∈ cluster_Ingresses c ∧ user_namespace (km_Namespace (ingress_Meta i)) ∧
    (ingress_TLS i = [] ∨ ∃ host, host ∈ ingress_Hosts i ∧ holds_text "*" host).
Proof.
  unfold ingress_outside, ingressHasWildcardHost. rewrite !orb_true_iff, !outside_spec. setoid_rewrite existsb_elem.
  setoid_rewrite bool_decide_eq_true. setoid_rewrite Contains_spec. naive_solver.
Qed.
Lemma control_010 c :
  service_outside (λ s, service_Type s == "LoadBalancer") c || service_outside (λ s, service_Type s == "NodePort") c ||
  service_outside (λ s, negb (bool_decide (service_ExternalIPs s = []))) c ||
  ingress_outside (λ i, bool_decide (ingress_TLS i = [])) c || ingress_outside ingressHasWildcardHost c = true ↔
  violation c "KA-K8S-010".
Proof.
  rewrite <- (orb_assoc (_ || _ || _)), orb_true_iff, exposed_service_spec, exposed_ingress_spec. split.
  - intros [(? & ? & ? & ?)|(? & ? & ? & ?)]; [by eapply exposed_service | by eapply exposed_ingress].
  - inversion 1; [left | right]; by eexists.
Qed.

Lemma control_011 c :
  existsb (λ node, negb (nodeReady node)) (cluster_Nodes c) || existsb nodeUnderPressure (cluster_Nodes c) ||
  pod_outside (λ pod, pod_Phase pod == "Failed") c || pod_outside (λ pod, pod_Phase pod == "Pending") c ||
  outside (λ pvc, km_Namespace (pvc_Meta pvc)) (λ pvc, pvc_Phase pvc != "Bound") (cluster_PVCs c) = true ↔
  violation c "KA-K8S-011".
Proof.
  unfold pod_outside. rewrite !orb_true_iff, !outside_spec, !existsb_elem. setoid_rewrite negb_true_iff.
  setoid_rewrite String.eqb_neq. setoid_rewrite String.eqb_eq. setoid_rewrite <- not_true_iff_false.
  setoid_rewrite ready_spec. setoid_rewrite pressure_spec. split.
  - intros [[[[(? & ? & ?)|(? & ? & ? & ? & ? & ?)]|(? & ? & ? & Hp)]|(? & ? & ? & Hp)]|(? & ? & ? & ?)];
      [by eapply unready_node | by eapply pressed_node | | | by eapply unbound_claim].
    + eapply stuck_pod; [done..|]. rewrite Hp. left.
    + eapply stuck_pod; [done..|]. rewrite Hp. right. left.
  - inversion 1 as [| | | | | | | | | | | | | | | | |node|node|pod ? ? Hp|claim].
    + do 4 left. by eexists.
    + do 3 left. right. eexists. split; [eassumption|]. by eexists.
    + rewrite !elem_of_cons in Hp. destruct Hp as [Hp|[Hp|[]%elem_of_nil]]; [left; left; right | left; right]; by eexists.
    + right. by eexists.
Qed.

(** * The controls of a snapshot *)

Lemma checks_violation c : Forall (λ v, v.2 = true ↔ violation c v.1) (control_checks c).
Proof.
  unfold control_checks. repeat constructor; cbn [fst snd];
    first [apply control_001 | apply control_002 | apply control_003 | apply control_004 | apply control_005 | apply control_006
          | apply control_007 | apply control_008 | apply control_009 | apply control_010 | apply control_011].
Qed.

Definition control_ids : list string :=
  ["KA-K8S-001"; "KA-K8S-002"; "KA-K8S-003"; "KA-K8S-004"; "KA-K8S-005"; "KA-K8S-006"; "KA-K8S-007"; "KA-K8S-008";
   "KA-K8S-009"; "KA-K8S-010"; "KA-K8S-011"].

(** The controls a list of checks finds violated. *)
Definition found (checks : list (string * bool)) : list string := map fst (List.filter snd checks).

Lemma found_exact (P : string → Prop) checks : Forall (λ v, v.2 = true ↔ P v.1) checks →
  found checks `sublist_of` map fst checks ∧ Forall P (found checks) ∧
  Forall (λ id, id ∈ found checks ∨ ¬ P id) (map fst checks).
Proof.
  unfold found. induction 1 as [|[id b] checks Hb _ (IHsub & IHall & IHrest)]; [done|]. cbn in Hb |- *. destruct b; cbn.
  - split_and!; [by apply sublist_skip | by constructor; [apply Hb|] |]. constructor; [left; left|].
    eapply Forall_impl; [exact IHrest|]. intros x [Hx|Hx]; [left; by right | by right].
  - split_and!; [by apply sublist_cons | done |]. constructor; [right; by rewrite <- Hb | exact IHrest].
Qed.

(** C15. The compliance controls of a snapshot are these eleven, each either failed, and then some object of the
    cluster violates it, or passed, and then none does; the summary counts the failed and the passed ones. What
    violates a control is said by [violation] of the objects themselves, as far as the scan goes: privileged
    containers are sought in the containers of pods, those that initialize excepted, and everything else about
    containers in the templates of Deployments, StatefulSets and DaemonSets, those that initialize included. *)
Theorem compliance_exact now c :
  let s := snapshot_of now c in
  map control_ID (snapshot_Compliance s) = control_ids ∧
  Forall (λ k, (control_Status k = "fail" ∧ violation c (control_ID k)) ∨
               (control_Status k = "pass" ∧ ¬ violation c (control_ID k))) (snapshot_Compliance s) ∧
  scan_ComplianceControls (snapshot_Scan s) = 11 ∧
  ∃ failed, failed `sublist_of` control_ids ∧ Forall (violation c) failed ∧
    Forall (λ id, id ∈ failed ∨ ¬ violation c id) control_ids ∧
    scan_FailedControls (snapshot_Scan s) = count failed ∧ scan_PassedControls (snapshot_Scan s) = 11 - count failed.
Proof.
  cbv zeta. pose proof (controls_verdicts now c) as Hv. destruct (verdict_counts _ _ Hv) as [Hf Hp].
  pose proof (checks_violation c) as Hc.
  assert (map fst (control_checks c) = control_ids) as Hids by reflexivity.
  change (snapshot_Compliance (snapshot_of now c)) with (complianceControls (inventory_of c) (scanFindings now c)).
  split; [|split; [|split; [reflexivity|]]].
  - rewrite <- Hids. apply (f_equal (map fst)) in Hv. by rewrite !map_map in Hv.
  - revert Hv Hc. generalize (control_checks c), (complianceControls (inventory_of c) (scanFindings now c)). clear.
    induction l as [|[id b] l IH]; intros [|k ks]; try done; intros [= Hid Hk Hks] [Hb Hl]%Forall_cons.
    constructor; [|by apply IH]. rewrite Hk, Hid. cbn in Hb. destruct b; [left | right]; (split; [done|]); [by apply Hb|].
    by rewrite <- Hb.
  - exists (found (control_checks c)). destruct (found_exact (violation c) _ Hc) as (Hsub & Hall & Hrest).
    rewrite <- Hids. assert (count (found (control_checks c)) = count_if snd (control_checks c)) as ->
      by (unfold found, count_if, count; by rewrite length_map).
    split_and!; done.
Qed.
End Specification.
