(* ===== verification/WorkflowObjects.v ===== *)
(** The custom resources of the workflow, [services/api/internal/cluster/workflow.go]: what more is used of the dynamic
    Kubernetes client, the names of the objects, what the structs of [core] look like as JSON values, and what is read
    back of an object.

    Names and identifiers are taken to be ASCII. A nil list and an empty one are the same value. *)
From Stdlib Require Import SpecFloat.
From S2P Require Import Prelude GoLib GoDuration Sha256 Json Runes RequestBody Core Kube ManagedProvenance AdvisorCall.

Local Open Scope Z_scope.

(** Building and changing unstructured objects: [&unstructured.Unstructured{Object: m}], [SetNestedField] and
    [object.Object[key] = value] on [object.Object], [SetAnnotations]; the resource version; [NestedBool]; the
    classification of conflicts; and how often [retry.DefaultRetry] tries again after the first time. *)
Class DynamicKubernetes (K : Kubernetes) := {
  NewObject : fields → object;
  SetNestedField : any → list string → object → result object;
  SetObjectField : string → any → object → object;
  SetAnnotations : gmap string string → object → object;
  GetResourceVersion : object → string;
  NestedBool : list string → fields → result (option bool);
  IsConflict : GoError → bool;
  DefaultRetry : nat
}.

(** Two paths of which neither leads through the other. *)
Definition apart (p q : list string) : Prop := ¬ p `prefix_of` q ∧ ¬ q `prefix_of` p.

(** What the proofs rely on. The accessors find what a literal object holds, and what was set; setting a field leaves
    alone what lies elsewhere, and under [spec] also the metadata. *)
Class DynamicLaws (K : Kubernetes) `{!KubernetesMeta K} (D : DynamicKubernetes K) : Prop := {
  Object_new m : Object (NewObject m) = m;
  NestedString_literal path m s : nested path (AMap m) = Some (AString s) → NestedString path m = Ok (Some s);
  NestedBool_literal path m b : nested path (AMap m) = Some (ABool b) → NestedBool path m = Ok (Some b);
  GetName_literal m name : nested ["metadata"; "name"] (AMap m) = Some (AString name) → GetName (NewObject m) = name;
  NestedString_set s path o o' : SetNestedField (AString s) path o = Ok o' → NestedString path (Object o') = Ok (Some s);
  NestedBool_set b path o o' : SetNestedField (ABool b) path o = Ok o' → NestedBool path (Object o') = Ok (Some b);
  NestedString_elsewhere v path q o o' : SetNestedField v path o = Ok o' → apart path q →
    NestedString q (Object o') = NestedString q (Object o);
  NestedBool_elsewhere v path q o o' : SetNestedField v path o = Ok o' → apart path q →
    NestedBool q (Object o') = NestedBool q (Object o);
  GetName_spec v path o o' : SetNestedField v ("spec" :: path) o = Ok o' → GetName o' = GetName o;
  GetResourceVersion_spec v path o o' : SetNestedField v ("spec" :: path) o = Ok o' →
    GetResourceVersion o' = GetResourceVersion o
}.

(** * Names *)

Definition name_byte (c : Ascii.ascii) : bool := is_digit c || ((97 <=? byte_code c) && (byte_code c <=? 122)).
(** [written]: the builder is not empty; [previousDash]: the last it got was a dash. *)
Fixpoint name_bytes (written previousDash : bool) (s : string) : string :=
  match s with
  | EmptyString => EmptyString
  | String c rest =>
      if name_byte c then String c (name_bytes true false rest)
      else if negb previousDash && written then String (byte_of_code 45) (name_bytes true true rest)
      else name_bytes written previousDash rest
  end.
Definition ObjectName (value : string) : string :=
  let normalized := Trim (name_bytes false false (ToLower (TrimSpace value))) "-" in
  let normalized := if normalized == "" then "workflow" else normalized in
  if len normalized <=? 63 then normalized
  else Trim (string_take 50 normalized) "-" +:+ "-" +:+ string_take 12 (sha256_hex value).

Example ObjectName_ex : map ObjectName ["Plan-f/1 -002"; "  "; "approval-plan_x."] = ["plan-f-1-002"; "workflow"; "approval-plan-x"].
Proof. vm_compute. reflexivity. Qed.

(** * JSON values *)

(** A string after [json.Marshal] and [json.Unmarshal]: what is not UTF-8 becomes the replacement character. *)
Definition any_text (s : string) : any := AString (string_of_runes (runes s)).
Definition any_texts (l : list string) : any := ASlice (map any_text l).
Definition json_int (z : Z) : any := AFloat64 (float64_of_int z).
Definition omitempty (key value : string) : fields := if value == "" then [] else [(key, any_text value)].

(** [time.Time.MarshalJSON] *)
Definition fraction (ns : Z) : string := if ns =? 0 then "" else "." +:+ trim_right (in_cutset "0") (Itoa_padded 9 ns).
Definition FormatRFC3339Nano (t : Time) : string := TrimSuffix (FormatRFC3339 t) "Z" +:+ fraction (t mod Second) +:+ "Z".
Definition json_time (t : Time) : result any :=
  let '(y, _, _) := civil_of_days (t / Second / 86400) in
  unless ((0 <=? y) && (y <=? 9999)) "Time.MarshalJSON: year outside of range [0,9999]";;
  Ok (AString (FormatRFC3339Nano t)).

Definition json_ref (r : ResourceRef) : any :=
  AMap ([("apiVersion", any_text (ref_APIVersion r)); ("kind", any_text (ref_Kind r))] ++
        omitempty "namespace" (ref_Namespace r) ++ [("name", any_text (ref_Name r))]).
Definition json_evidence (e : Evidence) : result any :=
  observedAt ← json_time (evidence_ObservedAt e);
  Ok (AMap [("summary", any_text (evidence_Summary e)); ("details", any_text (evidence_Details e));
            ("sourceId", any_text (evidence_SourceID e)); ("observedAt", observedAt)]).
Definition json_keys (k : CorrelationKeys) : any :=
  AMap (omitempty "workload" (keys_Workload k) ++ omitempty "namespace" (keys_Namespace k) ++
        omitempty "identity" (keys_Identity k) ++ omitempty "networkExposure" (keys_NetworkExposure k) ++
        omitempty "image" (keys_Image k)).
Definition json_factor (f : RiskFactor) : any :=
  AMap [("name", any_text (factor_Name f)); ("points", json_int (factor_Points f)); ("reason", any_text (factor_Reason f))].
Definition json_risk (r : RiskExplanation) : any :=
  AMap [("version", any_text (risk_Version r)); ("baseScore", json_int (risk_BaseScore r));
        ("factors", ASlice (map json_factor (risk_Factors r))); ("finalScore", json_int (risk_FinalScore r))].
(** The members of a map come sorted. *)
Definition json_string_map (m : gmap string string) : any :=
  AMap (map (λ kv, (string_of_runes (runes kv.1), any_text kv.2)) (sort_slice object_less (map_to_list m))).
Definition json_action (a : TypedAction) : any :=
  AMap ([("type", any_text (action_Type a)); ("target", json_ref (action_Target a));
         ("description", any_text (action_Description a))] ++
        if bool_decide (action_Params a = ∅) then [] else [("params", json_string_map (action_Params a))]).
Definition json_policy (p : ApprovalPolicy) : any :=
  AMap ([("required", ABool (policy_Required p))] ++ omitempty "decision" (policy_Decision p) ++
        match policy_Categories p with [] => [] | l => [("categories", any_texts l)] end).
Definition json_dryRun (d : DryRunResult) : any :=
  AMap [("passed", ABool (dryRun_Passed d)); ("message", any_text (dryRun_Message d))].
Definition json_analysis (a : AIAnalysis) : result any :=
  generatedAt ← json_time (ai_GeneratedAt a);
  Ok (AMap [("provider", any_text (ai_Provider a)); ("model", any_text (ai_Model a)); ("mode", any_text (ai_Mode a));
            ("summary", any_text (ai_Summary a)); ("rootCause", any_text (ai_RootCause a));
            ("impact", any_text (ai_Impact a)); ("recommendedAction", any_text (ai_RecommendedAction a));
            ("confidence", any_text (ai_Confidence a)); ("safetyNotes", any_texts (ai_SafetyNotes a));
            ("autonomousPolicy", any_text (ai_AutonomousPolicy a)); ("generatedAt", generatedAt)]).

(** * Reading an object back *)

(** [json.Unmarshal] into a struct: a name matches a field whatever its case, members of other names are skipped. *)
Definition decode_int (old : Z) (v : json) : result Z :=
  match v with
  | JNull => Ok old
  | JNumber lit => match ParseInt lit with Some z => Ok z | None => Err json_error end
  | _ => Err json_error
  end.
Definition decode_list {A} (set : string → json → A → result A) (zero : A) (v : json) : result (list A) :=
  match v with JNull => Ok [] | JArray items => decode_all (decode_struct set zero) items | _ => Err json_error end.

Definition set_evidence (name : string) (v : json) (e : Evidence) : result Evidence :=
  if EqualFold name "summary" then s ← decode_string (evidence_Summary e) v; Ok (e <| evidence_Summary := s |>)
  else if EqualFold name "details" then s ← decode_string (evidence_Details e) v; Ok (e <| evidence_Details := s |>)
  else if EqualFold name "sourceId" then s ← decode_string (evidence_SourceID e) v; Ok (e <| evidence_SourceID := s |>)
  else if EqualFold name "observedAt" then t ← decode_time (evidence_ObservedAt e) v; Ok (e <| evidence_ObservedAt := t |>)
  else Ok e.
Definition set_ref (name : string) (v : json) (r : ResourceRef) : result ResourceRef :=
  if EqualFold name "apiVersion" then s ← decode_string (ref_APIVersion r) v; Ok (r <| ref_APIVersion := s |>)
  else if EqualFold name "kind" then s ← decode_string (ref_Kind r) v; Ok (r <| ref_Kind := s |>)
  else if EqualFold name "namespace" then s ← decode_string (ref_Namespace r) v; Ok (r <| ref_Namespace := s |>)
  else if EqualFold name "name" then s ← decode_string (ref_Name r) v; Ok (r <| ref_Name := s |>)
  else Ok r.
Definition set_keys (name : string) (v : json) (k : CorrelationKeys) : result CorrelationKeys :=
  if EqualFold name "workload" then s ← decode_string (keys_Workload k) v; Ok (k <| keys_Workload := s |>)
  else if EqualFold name "namespace" then s ← decode_string (keys_Namespace k) v; Ok (k <| keys_Namespace := s |>)
  else if EqualFold name "identity" then s ← decode_string (keys_Identity k) v; Ok (k <| keys_Identity := s |>)
  else if EqualFold name "networkExposure" then
    s ← decode_string (keys_NetworkExposure k) v; Ok (k <| keys_NetworkExposure := s |>)
  else if EqualFold name "image" then s ← decode_string (keys_Image k) v; Ok (k <| keys_Image := s |>)
  else Ok k.
Definition set_factor (name : string) (v : json) (f : RiskFactor) : result RiskFactor :=
  if EqualFold name "name" then s ← decode_string (factor_Name f) v; Ok (f <| factor_Name := s |>)
  else if EqualFold name "points" then z ← decode_int (factor_Points f) v; Ok (f <| factor_Points := z |>)
  else if EqualFold name "reason" then s ← decode_string (factor_Reason f) v; Ok (f <| factor_Reason := s |>)
  else Ok f.
Definition set_risk (name : string) (v : json) (r : RiskExplanation) : result RiskExplanation :=
  if EqualFold name "version" then s ← decode_string (risk_Version r) v; Ok (r <| risk_Version := s |>)
  else if EqualFold name "baseScore" then z ← decode_int (risk_BaseScore r) v; Ok (r <| risk_BaseScore := z |>)
  else if EqualFold name "factors" then l ← decode_list set_factor (mkRiskFactor "" 0 "") v; Ok (r <| risk_Factors := l |>)
  else if EqualFold name "finalScore" then z ← decode_int (risk_FinalScore r) v; Ok (r <| risk_FinalScore := z |>)
  else Ok r.
(** [wire], as a finding whose status is [findingStatus]. *)
Definition set_wire (name : string) (v : json) (f : Finding) : result Finding :=
  if EqualFold name "source" then s ← decode_string (finding_Source f) v; Ok (f <| finding_Source := s |>)
  else if EqualFold name "title" then s ← decode_string (finding_Title f) v; Ok (f <| finding_Title := s |>)
  else if EqualFold name "severity" then s ← decode_string (finding_Severity f) v; Ok (f <| finding_Severity := s |>)
  else if EqualFold name "evidence" then l ← decode_list set_evidence (mkEvidence "" "" "" 0) v; Ok (f <| finding_Evidence := l |>)
  else if EqualFold name "resources" then l ← decode_list set_ref (mkResourceRef "" "" "" "") v; Ok (f <| finding_Resources := l |>)
  else if EqualFold name "blastRadius" then s ← decode_string (finding_BlastRadius f) v; Ok (f <| finding_BlastRadius := s |>)
  else if EqualFold name "fixability" then s ← decode_string (finding_Fixability f) v; Ok (f <| finding_Fixability := s |>)
  else if EqualFold name "findingStatus" then s ← decode_string (finding_Status f) v; Ok (f <| finding_Status := s |>)
  else if EqualFold name "correlationGroup" then
    s ← decode_string (finding_CorrelationGroup f) v; Ok (f <| finding_CorrelationGroup := s |>)
  else if EqualFold name "riskScore" then z ← decode_int (finding_RiskScore f) v; Ok (f <| finding_RiskScore := z |>)
  else if EqualFold name "correlationKeys" then
    k ← decode_struct set_keys (finding_CorrelationKeys f) v; Ok (f <| finding_CorrelationKeys := k |>)
  else if EqualFold name "riskExplanation" then
    r ← decode_struct set_risk (finding_RiskExplanation f) v; Ok (f <| finding_RiskExplanation := r |>)
  else if EqualFold name "remediationState" then
    s ← decode_string (finding_RemediationState f) v; Ok (f <| finding_RemediationState := s |>)
  else if EqualFold name "recommendedAction" then
    s ← decode_string (finding_RecommendedAction f) v; Ok (f <| finding_RecommendedAction := s |>)
  else Ok f.

Definition apiIDAnnotation : string := "security.kubeathrix.io/api-id".
Definition findingIDAnnotation : string := "security.kubeathrix.io/finding-id".
Definition actorAnnotation : string := "security.kubeathrix.io/actor".

Section Objects.
Context `{Kubernetes} `{!KubernetesMeta _}.

(** [value, _, _ := unstructured.NestedString(object.Object, ...)] *)
Definition text_at (path : list string) (o : object) : string := found_or "" (NestedString path (Object o)).

Definition annotationOr (o : object) (name fallback : string) : string :=
  let value := value_at (GetAnnotations o) name in if value != "" then value else fallback.
Definition transitionTime (o : object) : Time :=
  default (GetCreationTimestamp o) (ParseRFC3339 (text_at ["status"; "lastTransitionTime"] o)).

Definition approvalFromObject (o : object) : ApprovalRequest :=
  let decidedAt := text_at ["spec"; "decidedAt"] o in
  {| approval_ID := annotationOr o apiIDAnnotation (GetName o);
     approval_SubjectRef := text_at ["spec"; "subjectRef"] o;
     approval_RequestedAction := text_at ["spec"; "requestedAction"] o;
     approval_Requester := text_at ["spec"; "requester"] o;
     approval_Approver := text_at ["spec"; "decidedBy"] o;
     approval_Status := text_at ["spec"; "decision"] o;
     approval_ExpiresAt := default 0 (ParseRFC3339 (text_at ["spec"; "expiresAt"] o));
     approval_CreatedAt := GetCreationTimestamp o;
     approval_UpdatedAt := if decidedAt != "" then default 0 (ParseRFC3339 decidedAt) else GetCreationTimestamp o;
     approval_DecisionReason := text_at ["spec"; "decisionReason"] o |}.

Definition phase_status (phase fallback : string) : string :=
  if phase == "Resolved" then FindingResolved
  else if phase == "Remediating" then FindingRemediating
  else if phase == "InReview" then FindingInReview
  else if phase == "Open" then FindingOpen
  else fallback.
Definition findingFromObject (o : object) : result Finding :=
  match NestedMap ["spec"] (Object o) with
  | None => Err (Errorf ("Finding CRD " +:+ GetName o +:+ " has no spec"))
  | Some spec =>
      match marshal_any (AMap spec) with
      | None => Err (Errorf "json: unsupported value")
      | Some payload =>
          v ← parse_json payload;
          wire ← decode_struct set_wire zero_Finding v;
          let state := text_at ["status"; "remediationState"] o in
          Ok (wire
            <| finding_ID := annotationOr o apiIDAnnotation (GetName o) |>
            <| finding_Status := phase_status (text_at ["status"; "phase"] o) (finding_Status wire) |>
            <| finding_RemediationState := if state != "" then state else finding_RemediationState wire |>
            <| finding_CreatedAt := GetCreationTimestamp o |>
            <| finding_UpdatedAt := transitionTime o |>)
      end
  end.

Definition action_status (raw : any) : option ActionStatus :=
  match raw with
  | AMap item =>
      let text key := found_or "" (NestedString [key] item) in
      Some (mkActionStatus (text "actionType") (text "state") (text "message"))
  | _ => None
  end.
End Objects.
