(* ===== verification/Workflow.v ===== *)
(** The workflow client, [services/api/internal/cluster/workflow.go]: findings, plans, approval requests, runs and
    exceptions as custom resources, as programs over calls of the Kubernetes API. *)
From S2P Require Import Prelude GoLib GoDuration Json Interaction Core Kube ManagedProvenance WorkflowObjects.

Local Open Scope Z_scope.

Definition security_resource (resource : string) : GroupVersionResource := mkGVR "security.kubeathrix.io" "v1alpha1" resource.
Definition findingResource : GroupVersionResource := security_resource "findings".
Definition planResource : GroupVersionResource := security_resource "remediationplans".
Definition approvalResource : GroupVersionResource := security_resource "approvalrequests".
Definition runResource : GroupVersionResource := security_resource "remediationruns".
Definition exceptionResource : GroupVersionResource := security_resource "exceptions".

Definition ErrWorkflowNotFound : GoError := Errorf "workflow object not found".
Definition ErrWorkflowConflict : GoError := Errorf "workflow object conflict".

Section Workflow.
Context `{Kubernetes} `{!KubernetesMeta _} `{!DynamicKubernetes _}.

(** The calls of the dynamic client; the field manager and the contexts are left out. *)
Inductive WorkflowE : Type → Type :=
| ApiGet (resource : GroupVersionResource) (namespace name : string) : WorkflowE (result object)
| ApiList (resource : GroupVersionResource) (namespace : string) (limit : Z) : WorkflowE (result (list object))
| ApiCreate (resource : GroupVersionResource) (namespace : string) (o : object) : WorkflowE (result object)
| ApiUpdate (resource : GroupVersionResource) (namespace : string) (o : object) : WorkflowE (result object)
| ApiDelete (resource : GroupVersionResource) (namespace name : string) : WorkflowE (result unit)
| WorkflowNow : WorkflowE Time.

Record WorkflowClient := mkWorkflowClient { workflow_namespace : string }.
Definition NewWorkflowClientFromDynamic (namespace : string) : WorkflowClient :=
  mkWorkflowClient (if namespace == "" then "kubeathrix" else namespace).

Notation W := (P WorkflowE).

(** [retry.RetryOnConflict(retry.DefaultRetry, fn)]: again, after a pause, while it answers a conflict. *)
Fixpoint retry_on_conflict {A} (again : nat) (fn : W A) : W A :=
  prog_bind (λ r,
    match r, again with
    | Err err, S again' => if IsConflict err then retry_on_conflict again' fn else Ret r
    | _, _ => Ret r
    end) fn.
Definition RetryOnConflict {A} (fn : W A) : W A := retry_on_conflict DefaultRetry fn.

Definition workflowError (err : GoError) : GoError :=
  if IsNotFound err then Wrapf ErrWorkflowNotFound (error_text err)
  else if IsConflict err then Wrapf ErrWorkflowConflict (error_text err)
  else err.
(** [if err != nil { return zero, workflowError(err) }] *)
Definition or_workflow {A} (p : W A) : W A :=
  prog_bind (λ r, Ret (match r with Ok a => Ok a | Err err => Err (workflowError err) end)) p.
(** [if err != nil { return zero, fmt.Errorf("what: %w", err) }] *)
Definition within {A} (what : string) (p : W A) : W A := prog_bind (λ r, Ret (with_context what r)) p.

Variable c : WorkflowClient.
Abbreviation namespace := (workflow_namespace c) (only parsing).

Definition nested_set (v : any) (path : list string) (o : object) : W object := pure_result (SetNestedField v path o).
Definition set_now (path : list string) (o : object) : W object :=
  now ← ask WorkflowNow; nested_set (AString (FormatRFC3339 now)) path o.

(** * Objects *)

Definition new_object (kind name : string) (annotations spec : fields) : object :=
  NewObject [("apiVersion", AString "security.kubeathrix.io/v1alpha1"); ("kind", AString kind);
    ("metadata", AMap [("name", AString name); ("namespace", AString namespace); ("annotations", AMap annotations)]);
    ("spec", AMap spec)].

Definition createIdempotent (resource : GroupVersionResource) (o : object) (apiID : string) : W unit :=
  created ← attempt (call (ApiCreate resource namespace o));
  match created with
  | Ok _ => mret tt
  | Err err =>
      if negb (IsAlreadyExists err) then raise err
      else
        existing ← call (ApiGet resource namespace (GetName o));
        raise_if (annotationOr existing apiIDAnnotation "" != apiID) ErrWorkflowConflict
  end.

(** * Findings *)

Definition finding_spec (finding : Finding) : result fields :=
  evidence ← mapM json_evidence (finding_Evidence finding);
  Ok [("source", AString (finding_Source finding)); ("title", AString (finding_Title finding));
      ("severity", AString (finding_Severity finding)); ("evidence", ASlice evidence);
      ("resources", ASlice (map json_ref (finding_Resources finding))); ("blastRadius", AString (finding_BlastRadius finding));
      ("fixability", AString (finding_Fixability finding)); ("findingStatus", AString (finding_Status finding));
      ("correlationGroup", AString (finding_CorrelationGroup finding)); ("riskScore", AInt64 (finding_RiskScore finding));
      ("correlationKeys", json_keys (finding_CorrelationKeys finding)); ("riskExplanation", json_risk (finding_RiskExplanation finding));
      ("remediationState", AString (finding_RemediationState finding));
      ("recommendedAction", AString (finding_RecommendedAction finding))].

Definition upsertFinding (finding : Finding) : W unit :=
  spec ← pure_result (finding_spec finding);
  let name := ObjectName (finding_ID finding) in
  RetryOnConflict (
    current ← attempt (call (ApiGet findingResource namespace name));
    match current with
    | Err err =>
        if IsNotFound err then
          call (ApiCreate findingResource namespace
                  (new_object "Finding" name [(apiIDAnnotation, AString (finding_ID finding))] spec));;
          mret tt
        else raise err
    | Ok current =>
        raise_if (annotationOr current apiIDAnnotation "" != finding_ID finding) ErrWorkflowConflict;;
        call (ApiUpdate findingResource namespace (SetObjectField "spec" (AMap spec) current));;
        mret tt
    end).

Definition SetFindingStatus (finding : Finding) (status actor reason : string) : W unit :=
  now ← ask WorkflowNow;
  let finding := finding <| finding_Status := status |> <| finding_UpdatedAt := now |> in
  upsertFinding finding;;
  let name := ObjectName (finding_ID finding) in
  RetryOnConflict (
    o ← or_workflow (call (ApiGet findingResource namespace name));
    let annotations := <["security.kubeathrix.io/status-reason" := reason]> (<[actorAnnotation := actor]> (GetAnnotations o)) in
    o ← nested_set (AString status) ["spec"; "findingStatus"] (SetAnnotations annotations o);
    call (ApiUpdate findingResource namespace o);;
    mret tt).

Definition ListFindings : W (list Finding) :=
  items ← or_workflow (call (ApiList findingResource namespace 0));
  pure_result (mapM findingFromObject items).
Definition GetFinding (findingID : string) : W Finding :=
  o ← or_workflow (call (ApiGet findingResource namespace (ObjectName findingID)));
  pure_result (findingFromObject o).

(** * Exceptions *)

Definition CreateException (exception : Exception) : W unit :=
  let o := new_object "Exception" (ObjectName (exception_ID exception)) [(apiIDAnnotation, AString (exception_ID exception))]
    [("scope", AString (exception_Scope exception)); ("owner", AString (exception_Owner exception));
     ("reason", AString (exception_Reason exception)); ("expiresAt", AString (FormatRFC3339 (exception_ExpiresAt exception)));
     ("auditMetadata", AString (exception_AuditMetadata exception))] in
  created ← attempt (call (ApiCreate exceptionResource namespace o));
  match created with
  | Ok _ => mret tt
  | Err err =>
      if IsAlreadyExists err then
        current ← or_workflow (call (ApiGet exceptionResource namespace (GetName o)));
        raise_if (annotationOr current apiIDAnnotation "" != exception_ID exception) (workflowError err)
      else raise (workflowError err)
  end.

Definition DeleteException (id : string) : W unit :=
  deleted ← attempt (call (ApiDelete exceptionResource namespace (ObjectName id)));
  match deleted with
  | Ok _ => mret tt
  | Err err => raise_if (negb (IsNotFound err)) (workflowError err)
  end.

Definition Health : W unit := call (ApiList planResource namespace 1);; mret tt.

(** * Plans and approvals *)

Definition primaryActionDescription (plan : RemediationPlan) : string :=
  match plan_Actions plan with a :: _ => action_Description a | [] => "Review remediation plan" end.

Definition plan_spec (finding : Finding) (plan : RemediationPlan) : result fields :=
  ai ← match plan_AI plan with
       | Some analysis => v ← json_analysis analysis; Ok [("ai", v)]
       | None => Ok []
       end;
  Ok ([("findingRef", AMap [("name", AString (ObjectName (finding_ID finding))); ("namespace", AString namespace)]);
       ("rootCause", AString (plan_RootCause plan)); ("actions", ASlice (map json_action (plan_Actions plan)));
       ("riskTier", AString (plan_RiskTier plan)); ("catalogVersion", AString (plan_CatalogVersion plan));
       ("dryRunResult", json_dryRun (plan_DryRunResult plan)); ("verificationSteps", any_texts (plan_VerificationSteps plan));
       ("rollbackSteps", any_texts (plan_RollbackSteps plan)); ("approvalPolicy", json_policy (plan_ApprovalPolicy plan));
       ("executionRequested", ABool false); ("runName", AString (ObjectName ("run-" +:+ plan_ID plan)))] ++ ai).
Definition plan_object (finding : Finding) (plan : RemediationPlan) (actor : string) (spec : fields) : object :=
  new_object "RemediationPlan" (ObjectName (plan_ID plan))
    [(apiIDAnnotation, AString (plan_ID plan)); (findingIDAnnotation, AString (finding_ID finding)); (actorAnnotation, AString actor)]
    spec.
Definition approval_object (plan : RemediationPlan) (actor : string) (now : Time) : object :=
  new_object "ApprovalRequest" (ObjectName ("approval-" +:+ plan_ID plan))
    [(apiIDAnnotation, AString ("approval-" +:+ plan_ID plan)); (actorAnnotation, AString actor)]
    [("subjectRef", AString (ObjectName (plan_ID plan))); ("requestedAction", AString (primaryActionDescription plan));
     ("requester", AString actor); ("expiresAt", AString (FormatRFC3339 (now + 24 * Hour))); ("decision", AString "pending")].

Definition CreatePlan (finding : Finding) (plan : RemediationPlan) (actor : string) : W unit :=
  raise_if ((finding_ID finding == "") || (plan_ID plan == "") || (plan_FindingID plan != finding_ID finding))
    (Errorf "invalid finding or remediation plan identity");;
  within "persist Finding CRD" (upsertFinding finding);;
  spec ← pure_result (plan_spec finding plan);
  within "persist RemediationPlan CRD" (createIdempotent planResource (plan_object finding plan actor spec) (plan_ID plan));;
  if policy_Required (plan_ApprovalPolicy plan) then
    now ← ask WorkflowNow;
    within "persist ApprovalRequest CRD"
      (createIdempotent approvalResource (approval_object plan actor now) ("approval-" +:+ plan_ID plan))
  else mret tt.

Definition setPlanApprovalDecision (planName decision : string) : W unit :=
  RetryOnConflict (
    o ← call (ApiGet planResource namespace planName);
    o ← nested_set (AString decision) ["spec"; "approvalPolicy"; "decision"] o;
    call (ApiUpdate planResource namespace o);;
    mret tt).

Definition DecideApproval (approvalID decision actor reason : string) : W ApprovalRequest :=
  raise_if ((decision != ApprovalApproved) && (decision != ApprovalRejected))
    (Errorf ("unsupported approval decision " +:+ Quote decision));;
  let name := ObjectName approvalID in
  updated ← or_workflow (RetryOnConflict (
    o ← call (ApiGet approvalResource namespace name);
    let current := text_at ["spec"; "decision"] o in
    raise_if ((current != "") && (current != "pending") && (current != decision))
      (Wrapf ErrWorkflowConflict ("approval is already " +:+ current));;
    o ← nested_set (AString decision) ["spec"; "decision"] o;
    o ← nested_set (AString actor) ["spec"; "decidedBy"] o;
    o ← nested_set (AString reason) ["spec"; "decisionReason"] o;
    o ← set_now ["spec"; "decidedAt"] o;
    call (ApiUpdate approvalResource namespace o)));
  let planName := text_at ["spec"; "subjectRef"] updated in
  (if planName != "" then setPlanApprovalDecision planName decision else mret tt);;
  mret (approvalFromObject updated).

(** * Runs *)

Definition RequestExecution (planID actor : string) : W RemediationRun :=
  let name := ObjectName planID in
  or_workflow (RetryOnConflict (
    o ← call (ApiGet planResource namespace name);
    let required := found_or false (NestedBool ["spec"; "approvalPolicy"; "required"] (Object o)) in
    raise_if (required && (text_at ["spec"; "approvalPolicy"; "decision"] o != ApprovalApproved))
      (Wrapf ErrWorkflowConflict "approval is still required");;
    o ← nested_set (ABool true) ["spec"; "executionRequested"] o;
    o ← nested_set (AString actor) ["spec"; "executionRequestedBy"] o;
    o ← set_now ["spec"; "executionRequestedAt"] o;
    call (ApiUpdate planResource namespace o)));;
  now ← ask WorkflowNow;
  mret (mkRemediationRun ("run-" +:+ planID) planID RunExecutionRequested []
          "execution request is persisted in the RemediationPlan CRD; controller status is pending"
          "no snapshot exists until the controller begins a mutating action" now now).

Definition GetRun (runID : string) : W RemediationRun :=
  o ← or_workflow (call (ApiGet runResource namespace (ObjectName runID)));
  let planName := text_at ["spec"; "planRef"; "name"] o in
  let planID := value_at (GetAnnotations o) "security.kubeathrix.io/plan-id" in
  let planID := if planID == "" then planName else planID in
  planID ← (if planName != "" then
              plan ← attempt (call (ApiGet planResource namespace planName));
              mret (match plan with Ok plan => annotationOr plan apiIDAnnotation planID | Err _ => planID end)
            else mret planID);
  mret (mkRemediationRun (annotationOr o apiIDAnnotation runID) planID (text_at ["status"; "state"] o)
          (omap action_status (found_or [] (NestedSlice ["status"; "actionStatuses"] (Object o))))
          (text_at ["status"; "validationResult"] o) (text_at ["status"; "rollbackMetadata"] o)
          (GetCreationTimestamp o) (transitionTime o)).

Definition RequestRollback (runID actor : string) : W RemediationRun :=
  run ← GetRun runID;
  raise_if ((run_State run != RunSucceeded) && (run_State run != RunFailed) && (run_State run != RunVerifying))
    (Wrapf ErrWorkflowConflict ("run state " +:+ run_State run +:+ " is not eligible for rollback"));;
  let planName := ObjectName (run_PlanID run) in
  or_workflow (RetryOnConflict (
    o ← call (ApiGet planResource namespace planName);
    o ← nested_set (ABool true) ["spec"; "rollbackRequested"] o;
    o ← nested_set (AString actor) ["spec"; "rollbackRequestedBy"] o;
    o ← set_now ["spec"; "rollbackRequestedAt"] o;
    call (ApiUpdate planResource namespace o)));;
  now ← ask WorkflowNow;
  mret (run <| run_State := RunRollbackRequested |> <| run_UpdatedAt := now |>
            <| run_ValidationResult := "rollback request is persisted in the RemediationPlan CRD; controller restoration is pending" |>).

Definition ListApprovals : W (list ApprovalRequest) :=
  items ← or_workflow (call (ApiList approvalResource namespace 0));
  mret (map approvalFromObject items).

Fixpoint runs_of (items : list object) : W (list RemediationRun) :=
  match items with
  | [] => mret []
  | o :: rest =>
      run ← GetRun (annotationOr o apiIDAnnotation (GetName o));
      runs ← runs_of rest;
      mret (run :: runs)
  end.
Definition ListRuns : W (list RemediationRun) :=
  items ← or_workflow (call (ApiList runResource namespace 0));
  runs_of items.
End Workflow.
