(* ===== verification/WorkflowProps.v ===== *)
(** What the workflow objects promise: the calls of the workflow client keep to a protocol, and over an API server with
    optimistic concurrency an approval is decided once, and a plan that asks for its execution has its approval. *)
From S2P Require Import Prelude GoLib GoDuration Json Interaction Core Kube ManagedProvenance WorkflowObjects Workflow.

Local Open Scope Z_scope.

Section Props.
Context `{K : Kubernetes} `{!KubernetesMeta K} `{!DynamicKubernetes K} `{!DynamicLaws K _}.
Implicit Types (h : history WorkflowE) (o cur : object).

(** * What the objects say *)

Definition decision_path : list string := ["spec"; "decision"].
Definition subject_path : list string := ["spec"; "subjectRef"].
Definition policy_path (name : string) : list string := ["spec"; "approvalPolicy"; name].
Definition execution_path : list string := ["spec"; "executionRequested"].

Definition approval_decision o : string := text_at decision_path o.
Definition approval_subject o : string := text_at subject_path o.
Definition approval_decider o : string * string := (text_at ["spec"; "decidedBy"] o, text_at ["spec"; "decisionReason"] o).
Definition plan_required o : bool := found_or false (NestedBool (policy_path "required") (Object o)).
Definition plan_decision o : string := text_at (policy_path "decision") o.
Definition execution_requested o : bool := found_or false (NestedBool execution_path (Object o)).

Definition decided (decision : string) : Prop := decision = ApprovalApproved ∨ decision = ApprovalRejected.

(** ** Setting fields *)

Lemma text_set s path o o' : SetNestedField (AString s) path o = Ok o' → text_at path o' = s.
Proof. intros Hs%NestedString_set. unfold text_at. by rewrite Hs. Qed.
Lemma flag_set b path o o' : SetNestedField (ABool b) path o = Ok o' → found_or false (NestedBool path (Object o')) = b.
Proof. intros Hs%NestedBool_set. by rewrite Hs. Qed.

Definition apartb (p q : list string) : bool := bool_decide (¬ p `prefix_of` q ∧ ¬ q `prefix_of` p).
Lemma text_elsewhere v path q o o' : SetNestedField v path o = Ok o' → apartb path q = true → text_at q o' = text_at q o.
Proof. intros Hs Ha%bool_decide_eq_true. unfold text_at. by erewrite NestedString_elsewhere. Qed.
Lemma flag_elsewhere v path q o o' : SetNestedField v path o = Ok o' → apartb path q = true →
  NestedBool q (Object o') = NestedBool q (Object o).
Proof. intros Hs Ha%bool_decide_eq_true. by erewrite NestedBool_elsewhere. Qed.

(** [o'] is [o] with fields of the specification set at these paths. *)
Definition edited (paths : list (list string)) o o' : Prop :=
  GetName o' = GetName o ∧ GetResourceVersion o' = GetResourceVersion o ∧
  ∀ q, forallb (λ path, apartb path q) paths = true →
    text_at q o' = text_at q o ∧ NestedBool q (Object o') = NestedBool q (Object o).

Lemma edited_start path v o o' : SetNestedField v ("spec" :: path) o = Ok o' → edited ["spec" :: path] o o'.
Proof.
  intros Hs. split; [by eapply GetName_spec|]. split; [by eapply GetResourceVersion_spec|].
  intros q [Hq _]%andb_true_iff. split; [by eapply text_elsewhere | by eapply flag_elsewhere].
Qed.
Lemma edited_more paths path v o o1 o2 : edited paths o o1 → SetNestedField v ("spec" :: path) o1 = Ok o2 →
  edited (("spec" :: path) :: paths) o o2.
Proof.
  intros (Hn & Hv & Hq) Hs. pose proof (edited_start _ _ _ _ Hs) as (Hn' & Hv' & Hq').
  split; [by rewrite Hn'|]. split; [by rewrite Hv'|]. intros q [Hp Hps]%andb_true_iff.
  destruct (Hq q Hps) as [-> ->] || (destruct (Hq q Hps) as [<- <-]). apply Hq'. cbn. by rewrite Hp.
Qed.
Lemma edited_text paths q o o' : edited paths o o' → forallb (λ path, apartb path q) paths = true → text_at q o' = text_at q o.
Proof. intros (_ & _ & Hq) Hp. by apply Hq. Qed.
Lemma edited_flag paths q o o' : edited paths o o' → forallb (λ path, apartb path q) paths = true →
  NestedBool q (Object o') = NestedBool q (Object o).
Proof. intros (_ & _ & Hq) Hp. by apply Hq. Qed.

(** * The protocol *)

(** Who may decide an approval request, with which reason. *)
Variable approver : string * string → Prop.

Definition read h (resource : GroupVersionResource) (namespace name : string) o : Prop :=
  Occ (result object) (ApiGet resource namespace name) (Ok o) ∈ h.
Definition same_object o o' : Prop := GetName o' = GetName o ∧ GetResourceVersion o' = GetResourceVersion o.

(** An update of an approval request: of an object that was read, with the decision of an approver, the one there was
    already if it was decided. *)
Definition approval_write h (namespace : string) o : Prop :=
  ∃ name o0, read h approvalResource namespace name o0 ∧ same_object o0 o ∧ approval_subject o = approval_subject o0 ∧
    decided (approval_decision o) ∧ (decided (approval_decision o0) → approval_decision o = approval_decision o0) ∧
    approver (approval_decider o).

(** An update of a plan: of an object that was read; it either leaves the decision alone, and then asks for the execution
    only where a required approval was given, or records the decision of an approval request for it. *)
Definition plan_write h (namespace : string) o : Prop :=
  ∃ name o0, read h planResource namespace name o0 ∧ same_object o0 o ∧ plan_required o = plan_required o0 ∧
    ((plan_decision o = plan_decision o0 ∧
        (execution_requested o = execution_requested o0 ∨ (plan_required o0 = true → plan_decision o0 = ApprovalApproved))) ∨
     (execution_requested o = execution_requested o0 ∧
        ∃ oa a, Occ (result object) (ApiUpdate approvalResource namespace oa) (Ok a) ∈ h ∧
          approval_decision oa = plan_decision o ∧ approval_subject a = name)).

Definition workflow_pre X h (e : WorkflowE X) : Prop :=
  match e with
  | ApiUpdate resource namespace o =>
      (resource = approvalResource → approval_write h namespace o) ∧ (resource = planResource → plan_write h namespace o)
  | ApiCreate resource namespace o =>
      (resource = approvalResource → ¬ decided (approval_decision o)) ∧
      (resource = planResource → execution_requested o = false ∧ (plan_required o = true → plan_decision o ≠ ApprovalApproved))
  | ApiDelete resource _ _ => resource = exceptionResource
  | _ => True
  end.
Definition workflow_post X h (e : WorkflowE X) (x : X) : Prop := True.

Abbreviation safe := (safe workflow_pre workflow_post).

(** ** The statements of the client *)

Lemma safe_or_workflow {A} h (p : P WorkflowE A) Q : safe h p (on_ok Q) → safe h (or_workflow p) (on_ok Q).
Proof.
  intros Hp%safe_persists. apply safe_bind. eapply safe_weaken; [|exact Hp]. intros h' r Hr h'' Hh''. specialize (Hr h'' Hh'').
  by destruct r.
Qed.
Lemma safe_within {A} what h (p : P WorkflowE A) Q : safe h p (on_ok Q) → safe h (within what p) (on_ok Q).
Proof.
  intros Hp%safe_persists. apply safe_bind. eapply safe_weaken; [|exact Hp]. intros h' r Hr h'' Hh''. specialize (Hr h'' Hh'').
  by destruct r.
Qed.
Lemma safe_retry {A} h (fn : P WorkflowE A) Q :
  (∀ h', suffix h h' → safe h' fn (on_ok Q)) → safe h (RetryOnConflict fn) (on_ok Q).
Proof.
  unfold RetryOnConflict. generalize DefaultRetry as again. intros again. revert h.
  induction again as [|again IH]; intros h Hfn; cbn [retry_on_conflict]; apply safe_bind.
  - eapply safe_weaken; [|apply safe_grows, safe_persists, Hfn, reflexivity]. intros h' r [Hs Hr].
    destruct r; cbn in *; intros h'' Hh''; exact (Hr h'' Hh'').
  - eapply safe_weaken; [|apply safe_grows, safe_persists, Hfn, reflexivity]. intros h' r [Hs Hr]. destruct r as [a|err].
    + intros h'' Hh''. exact (Hr h'' Hh'').
    + destruct (IsConflict err); [|done]. apply IH. intros h'' Hh''. apply Hfn. by transitivity h'.
Qed.

Lemma safe_then_set {B} v path o h (k : object → P WorkflowE B) Q :
  (∀ o', SetNestedField v path o = Ok o' → safe h (k o') (on_ok Q)) → safe h (nested_set v path o ≫= k) (on_ok Q).
Proof. apply safe_then_pure. Qed.
Lemma safe_then_set_now {B} path o h (k : object → P WorkflowE B) Q :
  (∀ h' now o', suffix h h' → SetNestedField (AString (FormatRFC3339 now)) path o = Ok o' → safe h' (k o') (on_ok Q)) →
  safe h (set_now path o ≫= k) (on_ok Q).
Proof.
  intros Hk h' Hh'. split; [done|]. intros now _. apply safe_then_set. intros o' Ho'. eapply Hk; [|exact Ho'].
  etransitivity; [exact Hh'|]. by exists [Occ Time WorkflowNow now].
Qed.

(** ** The operations *)

Variable c : WorkflowClient.
Definition anything {A} h (a : A) : Prop := True.

Ltac harmless := first [exact I | split; intros Heq; discriminate Heq | reflexivity].
Ltac step := first
  [ apply safe_or_workflow | apply safe_within | apply safe_retry; intros ?h ?Hh
  | apply safe_then_raise_if; intros ? | apply safe_raise_if; intros ? | apply safe_raise
  | apply safe_then_pure; intros ? ? | apply safe_then_set; intros ? ? | apply safe_then_set_now; intros ? ? ? ? ?
  | apply safe_then_attempt_call; intros ?h ?Hh; split; [harmless | intros ? _]
  | apply safe_then_call; intros ?h ?Hh; split; [harmless | intros ? _]
  | apply safe_last_call; intros ?h ?Hh; split; [harmless | intros ? _ ? _; exact I]
  | apply safe_then_ask; intros ?h ?Hh; split; [harmless | intros ? _]
  | apply safe_ret_ok; intros ? _; exact I ].
Ltac branch := match goal with |- context [match ?x with Ok _ => _ | Err _ => _ end] => destruct x
  | |- context [if ?b then _ else _] => destruct b end.
Ltac calls := repeat first [step | branch]; try done.

Lemma upsertFinding_safe h finding : safe h (upsertFinding c finding) (on_ok anything).
Proof. unfold upsertFinding. calls. Qed.
Lemma after_upsert {B} h finding (k : unit → P WorkflowE B) Q : (∀ h', safe h' (k tt) (on_ok Q)) →
  safe h (upsertFinding c finding ≫= k) (on_ok Q).
Proof. intros Hk. eapply safe_then_spec; [apply upsertFinding_safe|]. intros h' [] _. apply Hk. Qed.
Lemma SetFindingStatus_safe h finding status actor reason :
  safe h (SetFindingStatus c finding status actor reason) (on_ok anything).
Proof. unfold SetFindingStatus. step. apply after_upsert. intros h'. calls. Qed.
Lemma CreateException_safe h exception : safe h (CreateException c exception) (on_ok anything).
Proof.
  unfold CreateException. step. branch; [calls|]. branch; [|calls].
  eapply safe_then_spec with (Φ := anything); [calls|]. intros h' current _. calls.
Qed.
Lemma DeleteException_safe h id : safe h (DeleteException c id) (on_ok anything).
Proof. unfold DeleteException. calls. Qed.

Lemma GetRun_safe h runID : safe h (GetRun c runID) (on_ok anything).
Proof.
  unfold GetRun. eapply safe_then_spec with (Φ := anything); [calls|]. intros h' o _. cbv zeta.
  eapply safe_then_spec with (Φ := anything); [calls | calls].
Qed.
Lemma ListRuns_safe h : safe h (ListRuns c) (on_ok anything).
Proof.
  unfold ListRuns. eapply safe_then_spec with (Φ := anything); [calls|]. intros h' items _. revert h'.
  induction items as [|o items IH]; intros h'; cbn [runs_of]; [calls|].
  eapply safe_then_spec; [apply GetRun_safe|]. intros h'' run _.
  eapply safe_then_spec; [apply IH|]. intros h3 runs _. calls.
Qed.
Lemma reads_safe h : safe h (ListFindings c) (on_ok anything) ∧ (∀ id, safe h (GetFinding c id) (on_ok anything)) ∧
  safe h (ListApprovals c) (on_ok anything) ∧ safe h (Health c) (on_ok anything).
Proof.
  split; [|split; [intros id|split]]; [..|unfold Health; calls];
    (eapply safe_then_spec with (Φ := anything); [calls | intros h' a _; calls; try (by destruct (findingFromObject _)); try (by destruct (mapM _ _))]).
Qed.

(** ** Creating *)

Lemma text_literal path m s : nested path (AMap m) = Some (AString s) → text_at path (NewObject m) = s.
Proof. intros Hn. unfold text_at. rewrite Object_new. by rewrite (NestedString_literal _ _ _ Hn). Qed.
Lemma flag_literal path m b : nested path (AMap m) = Some (ABool b) → found_or false (NestedBool path (Object (NewObject m))) = b.
Proof. intros Hn. rewrite Object_new. by rewrite (NestedBool_literal _ _ _ Hn). Qed.

Lemma createIdempotent_safe h resource o apiID :
  (resource = approvalResource → ¬ decided (approval_decision o)) →
  (resource = planResource → execution_requested o = false ∧ (plan_required o = true → plan_decision o ≠ ApprovalApproved)) →
  safe h (createIdempotent c resource o apiID) (on_ok anything).
Proof.
  intros Ha Hp. unfold createIdempotent. apply safe_then_attempt_call. intros h' Hh'. split; [by split|]. intros x _. calls.
Qed.

Lemma new_approval plan actor now : ¬ decided (approval_decision (approval_object c plan actor now)).
Proof.
  unfold approval_decision, approval_object, new_object. rewrite (text_literal _ _ "pending") by reflexivity.
  by intros [Hd|Hd].
Qed.
Lemma new_plan finding plan actor spec : plan_spec c finding plan = Ok spec →
  (policy_Required (plan_ApprovalPolicy plan) = true → policy_Decision (plan_ApprovalPolicy plan) = ApprovalPending) →
  let o := plan_object c finding plan actor spec in
  execution_requested o = false ∧ (plan_required o = true → plan_decision o ≠ ApprovalApproved).
Proof.
  unfold plan_spec. rewrite bind_ok. intros (ai & _ & [= <-]) Hpending. cbv zeta.
  unfold execution_requested, plan_required, plan_decision, plan_object, new_object.
  rewrite (flag_literal _ _ false) by reflexivity. split; [done|].
  rewrite (flag_literal _ _ (policy_Required (plan_ApprovalPolicy plan))) by reflexivity. intros Hr.
  rewrite (text_literal _ _ "pending"); [done|]. cbn. rewrite (Hpending Hr). reflexivity.
Qed.

Lemma CreatePlan_safe h finding plan actor :
  (policy_Required (plan_ApprovalPolicy plan) = true → policy_Decision (plan_ApprovalPolicy plan) = ApprovalPending) →
  safe h (CreatePlan c finding plan actor) (on_ok anything).
Proof.
  intros Hpending. unfold CreatePlan. step.
  eapply safe_then_spec; [apply safe_within, upsertFinding_safe|]. intros h1 [] _. apply safe_then_pure. intros spec Hspec.
  eapply safe_then_spec.
  { apply safe_within, createIdempotent_safe; [intros Heq; discriminate Heq | intros _; by eapply new_plan]. }
  intros h2 [] _. destruct (policy_Required _); [|calls]. step.
  apply safe_within, createIdempotent_safe; [intros _; apply new_approval | intros Heq; discriminate Heq].
Qed.

(** ** Deciding *)

Lemma suffix_in {h h'} {o : occurrence WorkflowE} : suffix h h' → o ∈ h → o ∈ h'.
Proof. intros [l ->] Ho. apply elem_of_app. by right. Qed.

(** The approval request was updated to this decision. *)
Definition recorded h (decision : string) (a : object) : Prop :=
  ∃ oa, Occ (result object) (ApiUpdate approvalResource (workflow_namespace c) oa) (Ok a) ∈ h ∧ approval_decision oa = decision.

Lemma setPlanApprovalDecision_safe h planName decision a :
  recorded h decision a → approval_subject a = planName →
  safe h (setPlanApprovalDecision c planName decision) (on_ok anything).
Proof.
  intros (oa & Hoa & Hd) Hsub. unfold setPlanApprovalDecision. apply safe_retry. intros h1 Hh1.
  apply safe_then_call. intros h2 Hh2. split; [done|]. intros o _. apply safe_then_set. intros o1 Ho1.
  apply safe_then_call. intros h3 Hh3. split; [|intros ? _; calls]. split; [intros Heq; discriminate Heq|]. intros _.
  pose proof (edited_start _ _ _ _ Ho1) as He. exists planName, o.
  split; [eapply suffix_in; [exact Hh3 | apply list_elem_of_here]|]. split; [by split; apply He|].
  split; [unfold plan_required; by rewrite (edited_flag _ _ _ _ He) by reflexivity|].
  right. split; [unfold execution_requested; by rewrite (edited_flag _ _ _ _ He) by reflexivity|].
  exists oa, a. split; [|split; [|done]].
  - eapply suffix_in; [exact Hh3|]. apply list_elem_of_further. eapply suffix_in; [exact Hh2|]. by eapply suffix_in.
  - rewrite Hd. exact (eq_sym (text_set _ _ _ _ Ho1)).
Qed.

Lemma decision_known current decision : (current != "") && (current != "pending") && (current != decision) = false →
  decided current → decision = current.
Proof.
  intros Hc Hd. destruct (String.eqb_spec current decision) as [->|Hne]; [done|].
  destruct Hd as [-> | ->]; discriminate Hc.
Qed.

Lemma decide_edit o o1 o2 o3 o4 decision actor reason text :
  SetNestedField (AString decision) ["spec"; "decision"] o = Ok o1 → SetNestedField (AString actor) ["spec"; "decidedBy"] o1 = Ok o2 →
  SetNestedField (AString reason) ["spec"; "decisionReason"] o2 = Ok o3 → SetNestedField (AString text) ["spec"; "decidedAt"] o3 = Ok o4 →
  same_object o o4 ∧ approval_subject o4 = approval_subject o ∧ approval_decision o4 = decision ∧ approval_decider o4 = (actor, reason).
Proof.
  intros H1 H2 H3 H4. pose proof (edited_start _ _ _ _ H1) as E1. pose proof (edited_more _ _ _ _ _ _ E1 H2) as E2.
  pose proof (edited_more _ _ _ _ _ _ E2 H3) as E3. pose proof (edited_more _ _ _ _ _ _ E3 H4) as E4.
  pose proof (edited_start _ _ _ _ H4) as F4. pose proof (edited_more _ _ _ _ _ _ (edited_start _ _ _ _ H3) H4) as F3.
  pose proof (edited_more _ _ _ _ _ _ (edited_more _ _ _ _ _ _ (edited_start _ _ _ _ H2) H3) H4) as F2.
  split; [by split; apply E4|]. split; [by apply (edited_text _ _ _ _ E4)|]. split.
  - unfold approval_decision. rewrite (edited_text _ _ _ _ F2) by reflexivity. by eapply text_set.
  - unfold approval_decider. f_equal.
    + rewrite (edited_text _ _ _ _ F3) by reflexivity. by eapply text_set.
    + rewrite (edited_text _ _ _ _ F4) by reflexivity. by eapply text_set.
Qed.

Lemma DecideApproval_safe h approvalID decision actor reason : approver (actor, reason) →
  safe h (DecideApproval c approvalID decision actor reason) (on_ok anything).
Proof.
  intros Happ. unfold DecideApproval. apply safe_then_raise_if. intros Hsupported.
  assert (decided decision) as Hdecided.
  { unfold decided. destruct (String.eqb_spec decision ApprovalApproved), (String.eqb_spec decision ApprovalRejected); auto.
    discriminate Hsupported. }
  eapply safe_then_grows with (Φ := λ h a, recorded h decision a).
  - apply safe_or_workflow, safe_retry. intros h1 Hh1. apply safe_then_call. intros h2 Hh2. split; [done|]. intros o _. cbv zeta.
    apply safe_then_raise_if. intros Hcurrent. apply safe_then_set. intros o1 H1. apply safe_then_set. intros o2 H2.
    apply safe_then_set. intros o3 H3. apply safe_then_set_now. intros h3 now o4 Hh3 H4.
    destruct (decide_edit _ _ _ _ _ _ _ _ _ H1 H2 H3 H4) as (Hsame & Hsub & Hd & Hby).
    apply safe_last_call. intros h4 Hh4. split.
    + split; [intros _|intros Heq; discriminate Heq]. exists (ObjectName approvalID), o. rewrite Hd, Hby. split_and!; try done.
      * eapply suffix_in; [exact Hh4|]. eapply suffix_in; [exact Hh3|]. apply list_elem_of_here.
      * by apply decision_known.
    + intros a _ h5 Hh5. exists o4. split; [|done]. eapply suffix_in; [exact Hh5 | apply list_elem_of_here].
  - intros h1 a _ Ha. cbv zeta. eapply safe_then_spec with (Φ := anything).
    + destruct (text_at _ a != ""); [|calls]. by eapply setPlanApprovalDecision_safe.
    + intros h2 [] _. calls.
Qed.

(** ** Executing *)

Lemma RequestExecution_safe h planID actor : safe h (RequestExecution c planID actor) (on_ok anything).
Proof.
  unfold RequestExecution. cbv zeta. eapply safe_then_spec with (Φ := anything).
  - apply safe_or_workflow, safe_retry. intros h1 Hh1. apply safe_then_call. intros h2 Hh2. split; [done|]. intros o _.
    apply safe_then_raise_if. intros Happroved. apply safe_then_set. intros o1 H1. apply safe_then_set. intros o2 H2.
    apply safe_then_set_now. intros h3 now o3 Hh3 H3.
    pose proof (edited_more _ _ _ _ _ _ (edited_more _ _ _ _ _ _ (edited_start _ _ _ _ H1) H2) H3) as He.
    apply safe_last_call. intros h4 Hh4. split; [|by intros ? _ ? _]. split; [intros Heq; discriminate Heq|]. intros _.
    exists (ObjectName planID), o. split.
    { eapply suffix_in; [exact Hh4|]. eapply suffix_in; [exact Hh3|]. apply list_elem_of_here. }
    split; [by split; apply He|]. split; [unfold plan_required; by rewrite (edited_flag _ _ _ _ He) by reflexivity|].
    left. split; [by apply (edited_text _ _ _ _ He)|]. right. intros Hr.
    change (plan_required o && (plan_decision o != ApprovalApproved) = false) in Happroved. rewrite Hr in Happroved.
    apply negb_false_iff, String.eqb_eq in Happroved. exact Happroved.
  - intros h1 a _. calls.
Qed.

Lemma RequestRollback_safe h runID actor : safe h (RequestRollback c runID actor) (on_ok anything).
Proof.
  unfold RequestRollback. eapply safe_then_spec; [apply GetRun_safe|]. intros h1 run _. apply safe_then_raise_if. intros _. cbv zeta.
  eapply safe_then_spec with (Φ := anything).
  - apply safe_or_workflow, safe_retry. intros h2 Hh2. apply safe_then_call. intros h3 Hh3. split; [done|]. intros o _.
    apply safe_then_set. intros o1 H1. apply safe_then_set. intros o2 H2. apply safe_then_set_now. intros h4 now o3 Hh4 H3.
    pose proof (edited_more _ _ _ _ _ _ (edited_more _ _ _ _ _ _ (edited_start _ _ _ _ H1) H2) H3) as He.
    apply safe_last_call. intros h5 Hh5. split; [|by intros ? _ ? _]. split; [intros Heq; discriminate Heq|]. intros _.
    exists (ObjectName (run_PlanID run)), o. split.
    { eapply suffix_in; [exact Hh5|]. eapply suffix_in; [exact Hh4|]. apply list_elem_of_here. }
    split; [by split; apply He|]. split; [unfold plan_required; by rewrite (edited_flag _ _ _ _ He) by reflexivity|].
    left. split; [by apply (edited_text _ _ _ _ He)|]. left. unfold execution_requested. by rewrite (edited_flag _ _ _ _ He) by reflexivity.
  - intros h2 a _. calls.
Qed.
End Props.
