(* ===== verification/WorkflowTrace.v ===== *)
(** The workflow client over an API server with optimistic concurrency: the histories of any number of concurrent calls,
    and what holds of the stored objects whenever they are looked at; and a plan that is created, approved
    and executed over objects as JSON values. *)
From S2P Require Import Prelude GoLib Json Interaction Core Kube ManagedProvenance WorkflowObjects Workflow WorkflowProps.
From S2P Require Import GoDuration.

#[export] Instance resource_countable : Countable GroupVersionResource.
Proof.
  refine (inj_countable' (λ r, (gvr_Group r, gvr_Version r, gvr_Resource r)) (λ '(g, v, r), mkGVR g v r) _). by intros [].
Defined.

(** Resource, namespace and name. *)
Definition key : Type := GroupVersionResource * string * string.
Definition key_of (resource : GroupVersionResource) (namespace name : string) : key := (resource, namespace, name).

Section Trace.
Context `{K : Kubernetes} `{!KubernetesMeta K} `{!DynamicKubernetes K} `{!DynamicLaws K _}.
Implicit Types (h : history WorkflowE) (o cur : object) (k : key).

(** The objects there are, and every version there was. *)
Record ApiServer := mkApi { api_objects : gmap key object; api_past : list (key * object) }.
Implicit Types σ : ApiServer.

Definition put σ k o : ApiServer := mkApi (<[k := o]> (api_objects σ)) ((k, o) :: api_past σ).
Definition remove σ k : ApiServer := mkApi (delete k (api_objects σ)) (api_past σ).

(** A write is stored under a resource version the object never had; its name and specification are those submitted. *)
Definition fresh σ k o : Prop := ∀ o', (k, o') ∈ api_past σ → GetResourceVersion o' ≠ GetResourceVersion o.
Definition stored_as o o' : Prop :=
  GetName o' = GetName o ∧ ∀ path,
    NestedString ("spec" :: path) (Object o') = NestedString ("spec" :: path) (Object o) ∧
    NestedBool ("spec" :: path) (Object o') = NestedBool ("spec" :: path) (Object o).

(** [σ'] is [σ] after a write of [o] that was stored, its answer [x] perhaps lost. *)
Definition written σ k o (x : result object) σ' : Prop :=
  ∃ o', stored_as o o' ∧ fresh σ k o' ∧ σ' = put σ k o' ∧ match x with Ok a => a = o' | Err _ => True end.

(** An update is stored only if it is of the current version; any call may fail. *)
Definition api_handles X σ (e : WorkflowE X) : X → ApiServer → Prop :=
  match e in WorkflowE X return X → ApiServer → Prop with
  | ApiGet resource namespace name => λ x σ', σ' = σ ∧
      match x with Ok o => api_objects σ !! key_of resource namespace name = Some o | Err _ => True end
  | ApiList _ _ _ => λ _ σ', σ' = σ
  | ApiCreate resource namespace o => λ x σ',
      let k := key_of resource namespace (GetName o) in
      (σ' = σ ∧ is_ok x = false) ∨ (api_objects σ !! k = None ∧ written σ k o x σ')
  | ApiUpdate resource namespace o => λ x σ',
      let k := key_of resource namespace (GetName o) in
      (σ' = σ ∧ is_ok x = false) ∨
      (∃ cur, api_objects σ !! k = Some cur ∧ GetResourceVersion cur = GetResourceVersion o ∧ written σ k o x σ')
  | ApiDelete resource namespace name => λ _ σ', σ' = σ ∨ σ' = remove σ (key_of resource namespace name)
  | WorkflowNow => λ _ σ', σ' = σ
  end.

Definition approval_key k : Prop := k.1.1 = approvalResource.
Definition plan_key k : Prop := k.1.1 = planResource.

(** Other clients, the operator among them: they leave the specifications of plans and approval requests alone and do not
    remove approval requests; they do anything to other objects. *)
Inductive api_env σ : ApiServer → Prop :=
| env_status k o o' : api_objects σ !! k = Some o → stored_as o o' → fresh σ k o' → api_env σ (put σ k o')
| env_write k o' : ¬ approval_key k → ¬ plan_key k → GetName o' = k.2 → fresh σ k o' → api_env σ (put σ k o')
| env_remove k : ¬ approval_key k → api_env σ (remove σ k).

Variables (c : WorkflowClient) (approver : string * string → Prop).

Definition discard {A} (p : P WorkflowE A) : prog WorkflowE unit := prog_bind (λ _, Ret tt) p.
(** The calls: plans that need an approval are pending, decisions are made by approvers. *)
Inductive workflow_entry : prog WorkflowE unit → Prop :=
| enter_CreatePlan finding plan actor :
    (policy_Required (plan_ApprovalPolicy plan) = true → policy_Decision (plan_ApprovalPolicy plan) = ApprovalPending) →
    workflow_entry (discard (CreatePlan c finding plan actor))
| enter_DecideApproval id decision actor reason : approver (actor, reason) →
    workflow_entry (discard (DecideApproval c id decision actor reason))
| enter_RequestExecution id actor : workflow_entry (discard (RequestExecution c id actor))
| enter_RequestRollback id actor : workflow_entry (discard (RequestRollback c id actor))
| enter_SetFindingStatus finding status actor reason : workflow_entry (discard (SetFindingStatus c finding status actor reason))
| enter_CreateException exception : workflow_entry (discard (CreateException c exception))
| enter_DeleteException id : workflow_entry (discard (DeleteException c id))
| enter_ListFindings : workflow_entry (discard (ListFindings c))
| enter_GetFinding id : workflow_entry (discard (GetFinding c id))
| enter_ListApprovals : workflow_entry (discard (ListApprovals c))
| enter_GetRun id : workflow_entry (discard (GetRun c id))
| enter_ListRuns : workflow_entry (discard (ListRuns c))
| enter_Health : workflow_entry (discard (Health c)).

Definition empty_server σ : Prop := σ = mkApi ∅ [].
(** The concurrent executions of calls of the client. *)
Definition workflow_execution : history WorkflowE → ApiServer → list (prog WorkflowE unit) → Prop :=
  execution empty_server workflow_entry api_handles api_env.

Lemma entry_safe p h : workflow_entry p → safe (workflow_pre approver) workflow_post h p (λ _ _, True).
Proof.
  intros He. assert (∀ A (q : P WorkflowE A), safe (workflow_pre approver) workflow_post h q (on_ok anything) →
    safe (workflow_pre approver) workflow_post h (discard q) (λ _ _, True)) as Hd.
  { intros A q Hq. apply safe_bind. eapply safe_weaken; [|exact Hq]. done. }
  destruct He; apply Hd; eauto using CreatePlan_safe, DecideApproval_safe, RequestExecution_safe, RequestRollback_safe,
    SetFindingStatus_safe, CreateException_safe, DeleteException_safe, GetRun_safe, ListRuns_safe;
    eapply reads_safe.
Qed.

(** * The invariant *)

Lemma stored_text o o' path : stored_as o o' → text_at ("spec" :: path) o' = text_at ("spec" :: path) o.
Proof. intros [_ Hs]. unfold text_at. by rewrite (proj1 (Hs path)). Qed.
Lemma stored_flag o o' path : stored_as o o' →
  NestedBool ("spec" :: path) (Object o') = NestedBool ("spec" :: path) (Object o).
Proof. intros [_ Hs]. apply Hs. Qed.

(** What the objects say is in their specifications. *)
Lemma stored_says o o' : stored_as o o' →
  GetName o' = GetName o ∧ approval_decision o' = approval_decision o ∧ approval_subject o' = approval_subject o ∧
  approval_decider o' = approval_decider o ∧ plan_required o' = plan_required o ∧ plan_decision o' = plan_decision o ∧
  execution_requested o' = execution_requested o.
Proof.
  intros Hs. split; [apply Hs|]. split_and!; try by apply stored_text.
  - unfold approval_decider. f_equal; by apply stored_text.
  - unfold plan_required. f_equal. by apply stored_flag.
  - unfold execution_requested. f_equal. by apply stored_flag.
Qed.

(** A plan in the past that needs an approval says it was given; an approval request for it says so. *)
Definition once_approved σ k : Prop := ∃ o, (k, o) ∈ api_past σ ∧ plan_required o = true ∧ plan_decision o = ApprovalApproved.
Definition approval_given σ k : Prop :=
  ∃ k' a, (k', a) ∈ api_past σ ∧ approval_key k' ∧ k'.1.2 = k.1.2 ∧ approval_decision a = ApprovalApproved ∧ approval_subject a = k.2.

Record objects_inv σ : Prop := {
  inv_past k o : api_objects σ !! k = Some o → (k, o) ∈ api_past σ;
  inv_name k o : (k, o) ∈ api_past σ → GetName o = k.2;
  inv_version k o o' : (k, o) ∈ api_past σ → (k, o') ∈ api_past σ → GetResourceVersion o = GetResourceVersion o' → o = o';
  inv_approval k o : (k, o) ∈ api_past σ → approval_key k →
    ∃ cur, api_objects σ !! k = Some cur ∧ approval_subject cur = approval_subject o ∧
           (decided (approval_decision o) → approval_decision cur = approval_decision o);
  inv_decider k o : (k, o) ∈ api_past σ → approval_key k → decided (approval_decision o) → approver (approval_decider o);
  inv_requested k o : (k, o) ∈ api_past σ → plan_key k → execution_requested o = true → plan_required o = true → once_approved σ k;
  inv_approved k o : (k, o) ∈ api_past σ → plan_key k → plan_required o = true → plan_decision o = ApprovalApproved →
    approval_given σ k
}.
(** What the answers say is in the past. *)
Record answers_inv h σ : Prop := {
  inv_read resource namespace name o : read h resource namespace name o → (key_of resource namespace name, o) ∈ api_past σ;
  inv_recorded namespace oa a : Occ (result object) (ApiUpdate approvalResource namespace oa) (Ok a) ∈ h →
    (key_of approvalResource namespace (GetName oa), a) ∈ api_past σ ∧ approval_decision a = approval_decision oa
}.

Lemma past_put σ k o x : x ∈ api_past (put σ k o) ↔ x = (k, o) ∨ x ∈ api_past σ.
Proof. apply elem_of_cons. Qed.
Lemma once_approved_put σ k o k' : once_approved σ k' → once_approved (put σ k o) k'.
Proof. intros (o' & Ho' & Hs). exists o'. rewrite past_put. auto. Qed.
Lemma approval_given_put σ k o k' : approval_given σ k' → approval_given (put σ k o) k'.
Proof. intros (k2 & a & Ha & Hs). exists k2, a. rewrite past_put. auto. Qed.

(** Storing a version keeps the invariant, if it continues what there was. *)
Lemma put_inv σ k o : objects_inv σ → GetName o = k.2 → fresh σ k o →
  (approval_key k → (∀ cur, api_objects σ !! k = Some cur → approval_subject o = approval_subject cur ∧
                       (decided (approval_decision cur) → approval_decision o = approval_decision cur)) ∧
                    (decided (approval_decision o) → approver (approval_decider o))) →
  (plan_key k → execution_requested o = true → plan_required o = true → once_approved (put σ k o) k) →
  (plan_key k → plan_required o = true → plan_decision o = ApprovalApproved → approval_given σ k) →
  objects_inv (put σ k o).
Proof.
  intros Hinv Hname Hfresh Happ Hreq Hplan. destruct Hinv as [I1 I2 I3 I4 I5 I6 I7]. split.
  - intros k' o'. rewrite past_put. cbn. destruct (decide (k' = k)) as [->|Hne].
    + rewrite lookup_insert_eq. intros [= <-]. by left.
    + rewrite lookup_insert_ne by done. right. by apply I1.
  - intros k' o' [[= -> ->]|Hin]%past_put; [done | by apply I2].
  - intros k' o1 o2 [[= -> ->]|H1]%past_put [Heq|H2]%past_put Hv; simplify_eq; [done| | |by eapply I3].
    + by destruct (Hfresh o2 H2).
    + by destruct (Hfresh o1 H1).
  - intros k' o' [[= -> ->]|Hin]%past_put Hk'; cbn; [exists o; by rewrite lookup_insert_eq|].
    destruct (I4 _ _ Hin Hk') as (cur & Hcur & Hsub & Hdec). destruct (decide (k' = k)) as [->|Hne].
    + exists o. rewrite lookup_insert_eq. split; [done|]. destruct (proj1 (Happ Hk') cur Hcur) as [Hs Hd].
      rewrite Hs. split; [done|]. intros Ho'. rewrite <- (Hdec Ho'). apply Hd. by rewrite (Hdec Ho').
    + exists cur. by rewrite lookup_insert_ne.
  - intros k' o' [[= -> ->]|Hin]%past_put Hk'; [by apply Happ | by eapply I5].
  - intros k' o' [[= -> ->]|Hin]%past_put Hk' He Hr; [by apply Hreq | by eapply once_approved_put, I6].
  - intros k' o' [[= -> ->]|Hin]%past_put Hk' Hr Hd; apply approval_given_put; [by apply Hplan | by eapply I7].
Qed.

Lemma remove_inv σ k : objects_inv σ → ¬ approval_key k → objects_inv (remove σ k).
Proof.
  intros [I1 I2 I3 I4 I5 I6 I7] Hk. split; try done.
  - intros k' o'. cbn. rewrite lookup_delete_Some. intros [_ Ho']. by apply I1.
  - intros k' o' Hin Hk'. destruct (I4 _ _ Hin Hk') as (cur & Hcur & Hs). exists cur. cbn. rewrite lookup_delete_ne; [done|].
    by intros ->.
Qed.

(** ** Steps *)

Lemma status_inv σ k o o' : objects_inv σ → api_objects σ !! k = Some o → stored_as o o' → fresh σ k o' → objects_inv (put σ k o').
Proof.
  intros Hinv Hk Hs Hf. pose proof (inv_past _ Hinv _ _ Hk) as Hin.
  destruct (stored_says _ _ Hs) as (Hn & Hd & Hsub & Hby & Hreq & Hpd & Hx). apply put_inv; try done.
  - rewrite Hn. by apply (inv_name _ Hinv).
  - intros Ha. rewrite Hd, Hsub, Hby. split; [|by eapply inv_decider]. intros cur Hcur. assert (cur = o) as -> by congruence. done.
  - intros Hp. rewrite Hx, Hreq. intros He Hr. apply once_approved_put. by eapply inv_requested.
  - intros Hp. rewrite Hreq, Hpd. by eapply inv_approved.
Qed.

Lemma create_inv h σ resource namespace o x σ' : objects_inv σ →
  workflow_pre approver _ h (ApiCreate resource namespace o) → api_objects σ !! key_of resource namespace (GetName o) = None →
  written σ (key_of resource namespace (GetName o)) o x σ' → objects_inv σ'.
Proof.
  intros Hinv [Ha Hp] Hnone (o' & Hs & Hf & -> & _). destruct (stored_says _ _ Hs) as (Hn & Hd & _ & _ & Hreq & Hpd & Hx).
  apply put_inv; try done.
  - intros Hk. specialize (Ha Hk). rewrite Hd. split; [|done]. intros cur Hcur. by rewrite Hnone in Hcur.
  - intros Hk. rewrite Hx, (proj1 (Hp Hk)). discriminate.
  - intros Hk. rewrite Hreq, Hpd. intros Hr Hdec. by destruct (proj2 (Hp Hk) Hr).
Qed.

(** The object written was read, and it is still the current one. *)
Lemma read_current h σ resource namespace name o0 o cur : objects_inv σ → answers_inv h σ →
  read h resource namespace name o0 → same_object o0 o → api_objects σ !! key_of resource namespace (GetName o) = Some cur →
  GetResourceVersion cur = GetResourceVersion o → cur = o0 ∧ name = GetName o.
Proof.
  intros Hinv Hans Hread [Hn Hv] Hcur Hver. pose proof (inv_read _ _ Hans _ _ _ _ Hread) as Hin.
  pose proof (inv_name _ Hinv _ _ Hin) as Hname. cbn in Hname. subst name. rewrite <- Hn in Hin |- *.
  split; [|done]. eapply (inv_version _ Hinv); [by apply (inv_past _ Hinv) | exact Hin | by rewrite Hver].
Qed.

Lemma update_inv h σ resource namespace o cur x σ' : objects_inv σ → answers_inv h σ →
  workflow_pre approver _ h (ApiUpdate resource namespace o) → api_objects σ !! key_of resource namespace (GetName o) = Some cur →
  GetResourceVersion cur = GetResourceVersion o → written σ (key_of resource namespace (GetName o)) o x σ' → objects_inv σ'.
Proof.
  intros Hinv Hans [Ha Hp] Hcur Hver (o' & Hs & Hf & -> & _). pose proof (inv_past _ Hinv _ _ Hcur) as Hin.
  destruct (stored_says _ _ Hs) as (Hn & Hd & Hsub & Hby & Hreq & Hpd & Hx). apply put_inv; try done.
  - intros Hk. destruct (Ha Hk) as (name & o0 & Hread & Hsame & Hsub0 & Hdec & Honce & Happ).
    change (resource = approvalResource) in Hk. subst resource. destruct (read_current _ _ _ _ _ _ _ _ Hinv Hans Hread Hsame Hcur Hver) as [-> _].
    rewrite Hsub, Hd, Hby. split; [|done]. intros cur' Hcur'. assert (cur' = o0) as -> by congruence. by split.
  - intros Hk. destruct (Hp Hk) as (name & o0 & Hread & Hsame & Hr0 & Hwrite). rewrite Hx, Hreq. intros He Hr.
    pose proof Hk as Hk'. change (resource = planResource) in Hk'. subst resource.
    destruct (read_current _ _ _ _ _ _ _ _ Hinv Hans Hread Hsame Hcur Hver) as [-> _]. rewrite Hr0 in Hr.
    destruct Hwrite as [[_ [He0|Hgiven]]|[He0 _]]; [| |];
      [apply once_approved_put; eapply inv_requested; eauto; congruence | | apply once_approved_put; eapply inv_requested; eauto; congruence].
    exists o0. rewrite past_put. auto.
  - intros Hk. destruct (Hp Hk) as (name & o0 & Hread & Hsame & Hr0 & Hwrite). rewrite Hreq, Hpd. intros Hr Hgiven.
    pose proof Hk as Hk'. change (resource = planResource) in Hk'. subst resource.
    destruct (read_current _ _ _ _ _ _ _ _ Hinv Hans Hread Hsame Hcur Hver) as [-> Hname]. rewrite Hr0 in Hr.
    destruct Hwrite as [[Hd0 _]|[_ (oa & a & Hocc & Hda & Hsa)]]; [eapply inv_approved; eauto; congruence|].
    destruct (inv_recorded _ _ Hans _ _ _ Hocc) as [Hina Hdeca].
    exists (key_of approvalResource namespace (GetName oa)), a. split_and!; try done; cbn; congruence.
Qed.

(** ** Histories *)

(** What a history says: the object an answer hands out, and the version an update was stored as. *)
Definition says_read (occ : occurrence WorkflowE) : option (key * object) :=
  match occ with
  | Occ _ e x =>
      match e in WorkflowE X return X → option (key * object) with
      | ApiGet resource namespace name => λ x, match x with Ok o => Some (key_of resource namespace name, o) | Err _ => None end
      | _ => λ _, None
      end x
  end.
Definition says_recorded (occ : occurrence WorkflowE) : option (key * object * object) :=
  match occ with
  | Occ _ e x =>
      match e in WorkflowE X return X → option (key * object * object) with
      | ApiUpdate resource namespace o =>
          λ x, match x with Ok a => Some (key_of resource namespace (GetName o), o, a) | Err _ => None end
      | _ => λ _, None
      end x
  end.

Lemma answers_occ h σ σ' occ : answers_inv h σ → (∀ x, x ∈ api_past σ → x ∈ api_past σ') →
  (∀ k o, says_read occ = Some (k, o) → (k, o) ∈ api_past σ') →
  (∀ k o a, says_recorded occ = Some (k, o, a) → (k, a) ∈ api_past σ' ∧ approval_decision a = approval_decision o) →
  answers_inv (occ :: h) σ'.
Proof.
  intros [H1 H2] Hgrow Hread Hrec. split.
  - intros resource namespace name o [Heq|Hin]%elem_of_cons; [|by apply Hgrow, H1]. apply Hread. by rewrite <- Heq.
  - intros namespace oa a [Heq|Hin]%elem_of_cons; [apply Hrec; by rewrite <- Heq|].
    destruct (H2 _ _ _ Hin). split; [by apply Hgrow | done].
Qed.

Definition trace_inv h σ : Prop := objects_inv σ ∧ answers_inv h σ.

Lemma env_trace_inv h σ σ' : api_env σ σ' → trace_inv h σ → trace_inv h σ'.
Proof.
  intros Henv [Hinv [H1 H2]]. split.
  - destruct Henv as [k o o' Hk Hs Hf|k o' Ha Hp Hn Hf|k Hk]; [by eapply status_inv | | by apply remove_inv].
    by apply put_inv.
  - assert (∀ x, x ∈ api_past σ → x ∈ api_past σ') as Hgrow by (destruct Henv; intros x Hx; [apply past_put; auto..|done]).
    split; [eauto|]. intros namespace oa a Hin. destruct (H2 _ _ _ Hin). auto.
Qed.

Lemma event_trace_inv X h σ σ' (e : WorkflowE X) x : api_handles X σ e x σ' → trace_inv h σ →
  workflow_pre approver X h e → trace_inv (Occ X e x :: h) σ'.
Proof.
  intros Hh [Hinv Hans] Hpre.
  assert (∀ occ, says_read occ = None → says_recorded occ = None → answers_inv (occ :: h) σ) as Hsilent.
  { intros occ Hr Hw. apply answers_occ with σ; [done | done | by rewrite Hr | by rewrite Hw]. }
  destruct e as [resource namespace name|resource namespace limit|resource namespace o|resource namespace o|resource namespace name|].
  - destruct Hh as [-> Hx]. split; [done|]. apply answers_occ with σ; try done.
    intros k o. cbn. destruct x as [o'|]; [|done]. intros [= <- <-]. by apply (inv_past _ Hinv).
  - cbn in Hh. subst σ'. split; [done | by apply Hsilent].
  - destruct Hh as [[-> Hx]|[Hnone Hw]]; [split; [done | by apply Hsilent]|].
    split; [by eapply create_inv|]. destruct Hw as (o' & _ & _ & -> & _).
    apply answers_occ with σ; try done. intros y Hy. apply past_put. auto.
  - destruct Hh as [[-> Hx]|(cur & Hcur & Hver & Hw)]; [split; [done | apply Hsilent; [done | by destruct x]]|].
    split; [by eapply update_inv|]. destruct Hw as (o' & Hs & _ & -> & Ha).
    apply answers_occ with σ; try done; [intros y Hy; apply past_put; auto|].
    intros k o1 a. cbn. destruct x as [a'|]; [|done]. intros [= <- <- <-]. subst a'.
    split; [left | by apply stored_says].
  - cbn in Hpre. split; [|destruct Hh as [-> | ->]; [by apply Hsilent|]].
    + destruct Hh as [-> | ->]; [done|]. apply remove_inv; [done|]. intros Hk. change (resource = approvalResource) in Hk. by rewrite Hk in Hpre.
    + apply answers_occ with σ; done.
  - cbn in Hh. subst σ'. split; [done | by apply Hsilent].
Qed.

Lemma executions_inv h σ ts : workflow_execution h σ ts → trace_inv h σ.
Proof.
  intros He. eapply (executions_obey (workflow_pre approver) workflow_post _ _ _ _ trace_inv); [| | | |exact He].
  - intros σ0 ->. split; split; cbn; try (intros * Hin; by apply not_elem_of_nil in Hin); by intros * Hin%lookup_empty_Some.
  - apply env_trace_inv.
  - intros X h0 σ0 σ1 e x Hh Hi _ Hp. split; [done | by eapply event_trace_inv].
  - intros p h0 Hp. by apply entry_safe.
Qed.

(** An approval request that was decided keeps its decision. *)
Lemma decision_stays h σ ts k o : workflow_execution h σ ts → (k, o) ∈ api_past σ → approval_key k → decided (approval_decision o) →
  ∃ cur, api_objects σ !! k = Some cur ∧ approval_decision cur = approval_decision o ∧ approval_subject cur = approval_subject o ∧
         approver (approval_decider cur).
Proof.
  intros [Hinv _]%executions_inv Hin Hk Hd. destruct (inv_approval _ Hinv _ _ Hin Hk) as (cur & Hcur & Hsub & Hdec).
  exists cur. split_and!; [done | by apply Hdec | done |].
  eapply (inv_decider _ Hinv); [by apply (inv_past _ Hinv) | done | by rewrite (Hdec Hd)].
Qed.

(** C9. However many calls of the workflow client run concurrently, among each other and with other clients that leave the
    specifications alone, a stored plan that asks for its execution and needs an approval has an approval request in its
    namespace that an approver approved with the actor and reason it records; and an approval request once decided, at any
    time before, still has that decision. *)
Theorem crd_execution_approved h σ ts : workflow_execution h σ ts →
  (∀ k plan, api_objects σ !! k = Some plan → plan_key k → execution_requested plan = true → plan_required plan = true →
     ∃ k' approval, api_objects σ !! k' = Some approval ∧ approval_key k' ∧ k'.1.2 = k.1.2 ∧ approval_subject approval = k.2 ∧
       approval_decision approval = ApprovalApproved ∧ approver (approval_decider approval)) ∧
  (∀ k approval cur, (k, approval) ∈ api_past σ → approval_key k → decided (approval_decision approval) →
     api_objects σ !! k = Some cur → approval_decision cur = approval_decision approval).
Proof.
  intros He. pose proof (executions_inv _ _ _ He) as [Hinv _]. split.
  - intros k plan Hplan Hk Hx Hr. destruct (inv_requested _ Hinv _ _ (inv_past _ Hinv _ _ Hplan) Hk Hx Hr) as (o & Ho & Hor & Hod).
    destruct (inv_approved _ Hinv _ _ Ho Hk Hor Hod) as (k' & a & Ha & Hk' & Hns & Hd & Hs).
    destruct (decision_stays _ _ _ _ _ He Ha Hk') as (cur & Hcur & Hdec & Hsub & Hby); [left; exact Hd|].
    exists k', cur. split_and!; try done; congruence.
  - intros k approval cur Hin Hk Hd Hcur. destruct (decision_stays _ _ _ _ _ He Hin Hk Hd) as (cur' & Hcur' & Hdec & _). congruence.
Qed.
End Trace.

(** * The workflow at work: a plan that is created, approved and executed *)

Local Open Scope Z_scope.

(** * Objects as JSON values *)

Definition set_member (name : string) (v : any) (m : fields) : fields := (name, v) :: List.filter (λ kv, kv.1 != name) m.
Fixpoint set_nested (path : list string) (v x : any) : option any :=
  match path, x with
  | [], _ => Some v
  | name :: rest, AMap m =>
      let inner := match List.find (λ kv, kv.1 == name) m with Some kv => kv.2 | None => AMap [] end in
      y ← set_nested rest v inner; Some (AMap (set_member name y m))
  | _, _ => None
  end.

Lemma find_set_same name v m : List.find (λ kv : string * any, kv.1 == name) (set_member name v m) = Some (name, v).
Proof. cbn. by rewrite String.eqb_refl. Qed.
Lemma find_set_other name other v m : other ≠ name →
  List.find (λ kv : string * any, kv.1 == other) (set_member name v m) = List.find (λ kv, kv.1 == other) m.
Proof.
  intros Hne. cbn. rewrite (proj2 (String.eqb_neq name other)) by congruence. induction m as [|[k x] m IH]; [done|]. cbn.
  destruct (String.eqb_spec k name) as [->|Hk]; cbn; [by rewrite (proj2 (String.eqb_neq name other)) by congruence|].
  by rewrite IH.
Qed.

Lemma nested_set_same path v x y : set_nested path v x = Some y → nested path y = Some v.
Proof.
  revert x y. induction path as [|name path IH]; intros x y; [by intros [= ->]|]. destruct x as [| | | | | |m]; try done.
  intros Hs. apply bind_Some in Hs as (z & Hz & [= <-]). cbn [nested]. rewrite find_set_same. by eapply IH.
Qed.
Lemma nested_set_apart path v x y q : set_nested path v x = Some y → apart path q → nested q y = nested q x.
Proof.
  revert x y q. induction path as [|name path IH]; intros x y q Hs [Hpq Hqp]; [by destruct Hpq; eexists|].
  destruct q as [|other q]; [by destruct Hqp; eexists|]. destruct x as [| | | | | |m]; try done.
  apply bind_Some in Hs as (z & Hz & [= <-]). cbn [nested]. destruct (decide (other = name)) as [->|Hne].
  - assert (apart path q) as Ha by (split; [intros Hp; by apply Hpq, prefix_cons | intros Hp; by apply Hqp, prefix_cons]).
    rewrite find_set_same. cbn. rewrite (IH _ _ _ Hz Ha). destruct (List.find _ m) as [kv|]; [done|].
    destruct q; [by destruct (proj2 Ha); eexists | done].
  - by rewrite find_set_other.
Qed.

Definition set_json (path : list string) (v : any) (o : json_object) : result json_object :=
  match set_nested path v (AMap (jo_fields o)) with
  | Some (AMap m) => Ok (mkJsonObject m (jo_labels o))
  | _ => Err (Errorf "value cannot be set")
  end.
Lemma set_json_Ok path v o o' : set_json path v o = Ok o' → set_nested path v (AMap (jo_fields o)) = Some (AMap (jo_fields o')).
Proof. unfold set_json. destruct (set_nested _ _ _) as [[]|]; try done. by intros [= <-]. Qed.

Definition json_bool (v : any) : option bool := match v with ABool b => Some b | _ => None end.
Definition annotations_any (m : gmap string string) : any := AMap (map (λ kv, (kv.1, AString kv.2)) (map_to_list m)).
Definition or_same (o : json_object) (r : result json_object) : json_object := match r with Ok o' => o' | Err _ => o end.

#[local] Instance json_meta : KubernetesMeta json_kubernetes := {|
  GetAnnotations := λ o, found_or ∅ (nested_as labels_of_any ["metadata"; "annotations"] (jo_fields o));
  GetFieldManagers := λ o, [];
  GetOwnerReferences := λ o, [];
  GetUID := json_string ["metadata"; "uid"];
  GetGeneration := λ o, 1;
  GetCreationTimestamp := λ o, 0;
  GetFinalizers := λ o, []
|}.
#[local] Instance json_dynamic : DynamicKubernetes json_kubernetes := {|
  NewObject := λ m, mkJsonObject m ∅;
  SetNestedField := λ v path o, set_json path v o;
  SetObjectField := λ name v o, mkJsonObject (set_member name v (jo_fields o)) (jo_labels o);
  SetAnnotations := λ m o, or_same o (set_json ["metadata"; "annotations"] (annotations_any m) o);
  GetResourceVersion := json_string ["metadata"; "resourceVersion"];
  NestedBool := nested_as json_bool;
  IsConflict := λ e, bool_decide (e = Errorf "Conflict");
  DefaultRetry := 4
|}.

Lemma nested_as_apart {A} (f : any → option A) v path q o o' : set_json path v o = Ok o' → apart path q →
  nested_as f q (jo_fields o') = nested_as f q (jo_fields o).
Proof. intros Hs%set_json_Ok Ha. unfold nested_as. by rewrite (nested_set_apart _ _ _ _ _ Hs Ha). Qed.
Lemma apart_spec path q name : "spec" ≠ name → apart ("spec" :: path) (name :: q).
Proof. intros Hne. split; intros [l Hl]; cbn in Hl; congruence. Qed.

#[local] Instance json_dynamic_laws : DynamicLaws json_kubernetes json_dynamic.
Proof.
  split; try done.
  - intros path m s Hn. cbn. unfold nested_as. by rewrite Hn.
  - intros path m b Hn. cbn. unfold nested_as. by rewrite Hn.
  - intros m name Hn. cbn. unfold json_string, nested_as. cbn [jo_fields]. by rewrite Hn.
  - intros s path o o' Hs%set_json_Ok. cbn. unfold nested_as. by rewrite (nested_set_same _ _ _ _ Hs).
  - intros b path o o' Hs%set_json_Ok. cbn. unfold nested_as. by rewrite (nested_set_same _ _ _ _ Hs).
  - intros v path q o o' Hs Ha. exact (nested_as_apart _ _ _ _ _ _ Hs Ha).
  - intros v path q o o' Hs Ha. exact (nested_as_apart _ _ _ _ _ _ Hs Ha).
  - intros v path o o' Hs. cbn. unfold json_string. erewrite nested_as_apart; [done | exact Hs | by apply apart_spec].
  - intros v path o o' Hs. cbn. unfold json_string. erewrite nested_as_apart; [done | exact Hs | by apply apart_spec].
Qed.

(** * The server *)

Definition versioned (n : nat) (o : json_object) : result json_object :=
  set_json ["metadata"; "resourceVersion"] (AString (Itoa (Z.of_nat n))) o.
(** Stores [o] under the next version, which must be new. *)
Definition serve_write (σ : ApiServer) (k : key) (o : json_object) : result json_object * ApiServer :=
  match versioned (length (api_past σ)) o with
  | Ok o' =>
      if forallb (λ p, json_string ["metadata"; "resourceVersion"] p.2 != json_string ["metadata"; "resourceVersion"] o') (api_past σ)
      then (Ok o', put σ k o') else (Err (Errorf "Internal"), σ)
  | Err e => (Err e, σ)
  end.
Definition serve X (e : WorkflowE X) (σ : ApiServer) : X * ApiServer :=
  match e in WorkflowE X return X * ApiServer with
  | ApiGet resource namespace name =>
      (match api_objects σ !! key_of resource namespace name with Some o => Ok o | None => Err (Errorf "NotFound") end, σ)
  | ApiList _ _ _ => (Ok [], σ)
  | ApiCreate resource namespace o =>
      let k := key_of resource namespace (json_string ["metadata"; "name"] o) in
      match api_objects σ !! k with Some _ => (Err (Errorf "AlreadyExists"), σ) | None => serve_write σ k o end
  | ApiUpdate resource namespace o =>
      let k := key_of resource namespace (json_string ["metadata"; "name"] o) in
      match api_objects σ !! k with
      | Some cur =>
          if json_string ["metadata"; "resourceVersion"] cur == json_string ["metadata"; "resourceVersion"] o
          then serve_write σ k o else (Err (Errorf "Conflict"), σ)
      | None => (Err (Errorf "NotFound"), σ)
      end
  | ApiDelete resource namespace name => (Ok tt, remove σ (key_of resource namespace name))
  | WorkflowNow => (63892281600 * Second, σ)
  end.

Lemma serve_write_sound σ k o x σ' : serve_write σ k o = (x, σ') →
  (σ' = σ ∧ is_ok x = false) ∨ written σ k o x σ'.
Proof.
  unfold serve_write. destruct (versioned _ o) as [o'|e] eqn:Hv; [|by intros [= <- <-]; left].
  destruct (forallb _ _) eqn:Hf; [|by intros [= <- <-]; left]. intros [= <- <-]. right. exists o'. split_and!; try done.
  - split; [|split]; cbn; unfold json_string; (erewrite nested_as_apart; [done | exact Hv |]);
      (split; intros [l Hl]; cbn in Hl; congruence).
  - rewrite forallb_forall in Hf. intros o2 Ho2 Heq. specialize (Hf (k, o2) (proj1 (list_elem_of_In _ _) Ho2)).
    apply negb_true_iff, String.eqb_neq in Hf. by apply Hf.
Qed.

Lemma serve_sound X (e : WorkflowE X) σ : api_handles X σ e (serve X e σ).1 (serve X e σ).2.
Proof.
  destruct e as [resource namespace name|resource namespace limit|resource namespace o|resource namespace o|resource namespace name|];
    cbn [serve api_handles]; try done.
  - split; [done|]. cbn [fst]. destruct (api_objects σ !! key_of resource namespace name) ; done.
  - cbv zeta. cbn [GetName json_kubernetes]. destruct (api_objects σ !! key_of resource namespace (json_string ["metadata"; "name"] o)) eqn:Hk; [by left|].
    destruct (serve_write σ _ o) as [x σ'] eqn:Hw. destruct (serve_write_sound _ _ _ _ _ Hw); [by left | by right].
  - cbv zeta. cbn [GetName json_kubernetes]. destruct (api_objects σ !! key_of resource namespace (json_string ["metadata"; "name"] o)) as [cur|] eqn:Hk; [|by left].
    destruct (String.eqb_spec (json_string ["metadata"; "resourceVersion"] cur) (json_string ["metadata"; "resourceVersion"] o)); [|by left].
    destruct (serve_write σ _ o) as [x σ'] eqn:Hw. destruct (serve_write_sound _ _ _ _ _ Hw); [by left|]. right. by exists cur.
  - by right.
Qed.

(** * A plan, approved and executed *)

Definition client : WorkflowClient := NewWorkflowClientFromDynamic "".
Definition approver (who : string * string) : Prop := who = ("olga", "fits the budget").

Definition finding : Finding := zero_Finding <| finding_ID := "f-1" |> <| finding_Title := "Namespace lacks a ResourceQuota" |>
  <| finding_Resources := [mkResourceRef "v1" "Namespace" "" "shop"] |>.
Definition plan : RemediationPlan := zero_RemediationPlan <| plan_ID := "plan-f-1-001" |> <| plan_FindingID := "f-1" |>
  <| plan_Actions := [mkTypedAction "patch_pod_security_labels" (mkResourceRef "v1" "Namespace" "" "shop") "Patch labels" ∅] |>
  <| plan_ApprovalPolicy := mkApprovalPolicy true ApprovalPending [] |>.

Definition steps : list (prog WorkflowE unit) := [
  discard (CreatePlan client finding plan "ana");
  discard (RequestExecution client "plan-f-1-001" "ana");
  discard (DecideApproval client "approval-plan-f-1-001" ApprovalApproved "olga" "fits the budget");
  discard (DecideApproval client "approval-plan-f-1-001" ApprovalRejected "olga" "fits the budget");
  discard (RequestExecution client "plan-f-1-001" "ana")].

Lemma workflow_steps_entries : Forall (workflow_entry client approver) steps.
Proof.
  apply Forall_cons; split; [by apply enter_CreatePlan|]. apply Forall_cons; split; [apply enter_RequestExecution|].
  apply Forall_cons; split; [by apply enter_DecideApproval|]. apply Forall_cons; split; [by apply enter_DecideApproval|].
  apply Forall_cons; split; [apply enter_RequestExecution | apply Forall_nil_2].
Qed.

(** The programs one after the other: the server and the history reached. *)
Definition play (ps : list (prog WorkflowE unit)) : ApiServer * history WorkflowE :=
  drive_all serve (mkApi ∅ []) ps.

Lemma workflow_play_execution ps : Forall (workflow_entry client approver) ps →
  ∃ ts, workflow_execution client approver (play ps).2 (play ps).1 ts.
Proof. by apply (drive_all_execution serve _ _ _ _ id serve_sound). Qed.

Definition plan_at : key := key_of planResource "kubeathrix" "plan-f-1-001".

(** The first request for the execution is refused, the second one granted; the rejection comes too late. *)
Example executed : 
  (execution_requested <$> api_objects (play (take 2 steps)).1 !! plan_at, execution_requested <$> api_objects (play steps).1 !! plan_at,
   approval_decision <$> api_objects (play steps).1 !! key_of approvalResource "kubeathrix" "approval-plan-f-1-001") =
  (Some false, Some true, Some "approved").
Proof. vm_compute. reflexivity. Qed.

Lemma crd_execution_approved_witness : ∃ k approval, api_objects (play steps).1 !! k = Some approval ∧ approval_key k ∧
  approval_subject approval = "plan-f-1-001" ∧ approval_decision approval = "approved" ∧
  approval_decider approval = ("olga", "fits the budget").
Proof.
  destruct (workflow_play_execution steps workflow_steps_entries) as [ts Hts].
  destruct (crd_execution_approved client approver _ _ _ Hts) as [Hexec _].
  assert (match api_objects (play steps).1 !! plan_at with Some p => execution_requested p && plan_required p | None => false end = true)
    as Hp by (vm_compute; reflexivity).
  destruct (api_objects (play steps).1 !! plan_at) as [p|] eqn:Hplan; [|discriminate Hp]. apply andb_true_iff in Hp as [Hx Hr].
  destruct (Hexec plan_at p Hplan eq_refl Hx Hr) as (k & a & Ha & Hk & _ & Hs & Hd & Hby).
  exists k, a. exact (conj Ha (conj Hk (conj Hs (conj Hd Hby)))).
Defined.
