(* ===== verification/Repository.v ===== *)
(** The repository as the HTTP API uses it: its interface as events, one per method, and the in-memory
    store behind it. What the store guarantees over histories of calls carries over to the API. *)
From S2P Require Import Prelude GoLib Core Planner Store StoreProps StoreTrace.

Local Open Scope Z_scope.

(** The methods of [store.Repository] the handlers call; contexts are left out, a cancelled request shows as
    an error answered. *)
Inductive RepositoryE : Type → Type :=
| RepoHealth : RepositoryE (result unit)
| RepoDashboard : RepositoryE (result Dashboard)
| RepoListFindings (filter : FindingFilter) : RepositoryE (result (list Finding))
| RepoGetFinding (id : string) : RepositoryE (result Finding)
| RepoPreviewRemediationPlan (findingID requester : string) : RepositoryE (result RemediationPreview)
| RepoCreateRemediationPlanFromFinding (finding : Finding) (requester idempotencyKey : string) :
    RepositoryE (result RemediationPlan)
| RepoGetRemediationPlan (id : string) : RepositoryE (result RemediationPlan)
| RepoGetRemediationPlanDiff (id : string) : RepositoryE (result RemediationDiff)
| RepoSyncRemediationPlan (plan : RemediationPlan) : RepositoryE (result unit)
| RepoExecuteRemediationPlan (id actor : string) : RepositoryE (result RemediationRun)
| RepoGetRemediationRun (id : string) : RepositoryE (result RemediationRun)
| RepoRequestRollback (runID actor : string) : RepositoryE (result RemediationRun)
| RepoSyncFinding (finding : Finding) : RepositoryE (result unit)
| RepoExpireFindings (observedBefore : Time) : RepositoryE (result unit)
| RepoSyncRemediationRun (run : RemediationRun) : RepositoryE (result unit)
| RepoUpdateFindingStatus (id status actor reason : string) : RepositoryE (result Finding)
| RepoListExceptions : RepositoryE (result (list Exception))
| RepoCreateException (exception : Exception) (actor : string) : RepositoryE (result Exception)
| RepoDeleteException (id actor : string) : RepositoryE (result unit)
| RepoApprove (approvalID actor reason : string) : RepositoryE (result ApprovalRequest)
| RepoReject (approvalID actor reason : string) : RepositoryE (result ApprovalRequest)
| RepoListAuditEvents : RepositoryE (result (list AuditEvent))
| RepoRecordAuditEvent (event : AuditEvent) : RepositoryE (result unit)
| RepoListChaosRuns : RepositoryE (result (list ChaosExperimentRun))
| RepoEvidenceBundle (scope : string) : RepositoryE (result EvidenceBundle)
| RepoListIntegrations : RepositoryE (result (list Integration))
| RepoIntegrationHealth (name : string) : RepositoryE (result IntegrationHealth)
| RepoGetModelProviders : RepositoryE (result ModelProviderSettings)
| RepoSaveModelProviders (settings : ModelProviderSettings) : RepositoryE (result ModelProviderSettings).

Section MemoryRepository.
Context `{RangeOrder} (ctx : Context) (now : Time).

(** A method of the in-memory store. *)
Definition memory_repository X (e : RepositoryE X) : MemoryStore → X * MemoryStore :=
  match e in RepositoryE X return MemoryStore → X * MemoryStore with
  | RepoHealth => Health ctx
  | RepoDashboard => GetDashboard ctx now
  | RepoListFindings filter => ListFindings ctx now filter
  | RepoGetFinding id => GetFinding ctx id
  | RepoPreviewRemediationPlan findingID requester => PreviewRemediationPlan ctx now findingID requester
  | RepoCreateRemediationPlanFromFinding finding requester key =>
      CreateRemediationPlanFromFinding ctx now finding requester [key]
  | RepoGetRemediationPlan id => GetRemediationPlan ctx id
  | RepoGetRemediationPlanDiff id => GetRemediationPlanDiff ctx id
  | RepoSyncRemediationPlan plan => SyncRemediationPlan ctx plan
  | RepoExecuteRemediationPlan id actor => ExecuteRemediationPlan ctx now id actor
  | RepoGetRemediationRun id => GetRemediationRun ctx id
  | RepoRequestRollback runID actor => RequestRollback ctx now runID actor
  | RepoSyncFinding finding => SyncFinding ctx now finding
  | RepoExpireFindings observedBefore => ExpireFindings ctx now observedBefore
  | RepoSyncRemediationRun run => SyncRemediationRun ctx run
  | RepoUpdateFindingStatus id status actor reason => UpdateFindingStatus ctx now id status actor reason
  | RepoListExceptions => ListExceptions ctx now
  | RepoCreateException exception actor => CreateException ctx now exception actor
  | RepoDeleteException id actor => DeleteException ctx now id actor
  | RepoApprove approvalID actor reason => Approve ctx now approvalID actor reason
  | RepoReject approvalID actor reason => Reject ctx now approvalID actor reason
  | RepoListAuditEvents => ListAuditEvents ctx
  | RepoRecordAuditEvent event => RecordAuditEvent ctx now event
  | RepoListChaosRuns => ListChaosRuns ctx
  | RepoEvidenceBundle scope => EvidenceBundle_op ctx now scope
  | RepoListIntegrations => ListIntegrations ctx
  | RepoIntegrationHealth name => IntegrationHealth_op ctx now name
  | RepoGetModelProviders => GetModelProviders ctx
  | RepoSaveModelProviders settings => SaveModelProviders ctx settings
  end.
End MemoryRepository.
