(* ===== verification/AgentData.v ===== *)
(** The data of the AI agent, [services/api/internal/agent/agent.go]: its configuration, its reports and
    events, which findings it takes up, and the keys it gives its requests. *)
From S2P Require Import Prelude GoLib Sha256 Json JsonText Runes Core.

Local Open Scope Z_scope.

Definition DefaultActor : string := "kubeathrix-ai-agent".

Record AgentConfig := mkAgentConfig {
  agent_Enabled : bool;
  agent_Actor : string;
  agent_Interval : Duration;
  agent_MinRiskScore : Z;
  agent_MaxFindingsPerCycle : Z;
  agent_AutoPlan : bool;
  agent_AutoExecuteTierA : bool;
  agent_NotificationTimeout : Duration;
  agent_NotificationWebhook : string
}.
#[export] Instance eta_AgentConfig : Eta AgentConfig := λ r, mkAgentConfig (agent_Enabled r) (agent_Actor r)
  (agent_Interval r) (agent_MinRiskScore r) (agent_MaxFindingsPerCycle r) (agent_AutoPlan r)
  (agent_AutoExecuteTierA r) (agent_NotificationTimeout r) (agent_NotificationWebhook r).

Record CycleReport := mkCycleReport {
  report_ObservedFindings : Z;
  report_Processed : Z;
  report_PlansCreated : Z;
  report_Executions : Z;
  report_Notifications : Z;
  report_Errors : list string
}.
#[export] Instance eta_CycleReport : Eta CycleReport := λ r, mkCycleReport (report_ObservedFindings r)
  (report_Processed r) (report_PlansCreated r) (report_Executions r) (report_Notifications r) (report_Errors r).
Definition zero_CycleReport : CycleReport := mkCycleReport 0 0 0 0 0 [].

Record AgentEvent := mkAgentEvent {
  event_Type : string;
  event_Message : string;
  event_Finding : option Finding;
  event_Plan : option RemediationPlan;
  event_Run : option RemediationRun;
  event_GeneratedAt : Time
}.

(** What [New] is given: which of the components are there, and the notifier. *)
Record Dependencies := mkDependencies {
  dep_Repository : bool; dep_Advisor : bool; dep_WorkflowClient : bool; dep_SnapshotSource : bool;
  dep_AdapterManager : bool; dep_Notifier : bool
}.
#[export] Instance eta_Dependencies : Eta Dependencies := λ r, mkDependencies (dep_Repository r) (dep_Advisor r)
  (dep_WorkflowClient r) (dep_SnapshotSource r) (dep_AdapterManager r) (dep_Notifier r).

Record Agent := mkAgent { agent_config : AgentConfig; agent_dependencies : Dependencies }.

(** A repository and an advisor are required; a webhook makes a notifier. *)
Definition New (config : AgentConfig) (deps : Dependencies) : result Agent :=
  unless (agent_Enabled config) "agent is disabled";;
  unless (dep_Repository deps) "agent repository is required";;
  unless (dep_Advisor deps) "agent requires an enabled AI advisor";;
  let config := if TrimSpace (agent_Actor config) == "" then config <| agent_Actor := DefaultActor |> else config in
  let config := if agent_Interval config <=? 0 then config <| agent_Interval := Minute |> else config in
  let config := if agent_MaxFindingsPerCycle config <=? 0 then config <| agent_MaxFindingsPerCycle := 10 |> else config in
  let config := if negb (agent_AutoPlan config) then config <| agent_AutoExecuteTierA := false |> else config in
  let config := if agent_NotificationTimeout config <=? 0 then config <| agent_NotificationTimeout := 5 * Second |> else config in
  let deps := if negb (dep_Notifier deps) && (TrimSpace (agent_NotificationWebhook config) != "")
              then deps <| dep_Notifier := true |> else deps in
  Ok (mkAgent config deps).

(** * Which findings *)

Definition active (minRisk : Z) (finding : Finding) : bool :=
  if (finding_RiskScore finding <? minRisk) || (finding_Fixability finding == FixabilityInformational) then false
  else if (finding_Status finding != FindingOpen) && (finding_Status finding != FindingInReview) then false
  else true.
Definition activeFindings (findings : list Finding) (minRisk : Z) : list Finding := List.filter (active minRisk) findings.

(** * Keys *)

Definition stable_evidence (item : Evidence) : string :=
  object_of [member "summary" (marshal_string (evidence_Summary item));
    member "details" (marshal_string (evidence_Details item));
    member "sourceId" (marshal_string (evidence_SourceID item))].
Definition resource_json (resource : ResourceRef) : string :=
  object_of [member "apiVersion" (marshal_string (ref_APIVersion resource));
    member "kind" (marshal_string (ref_Kind resource));
    optional_member "namespace" (ref_Namespace resource);
    member "name" (marshal_string (ref_Name resource))].
Definition correlation_keys_json (keys : CorrelationKeys) : string :=
  object_of [optional_member "workload" (keys_Workload keys); optional_member "namespace" (keys_Namespace keys);
    optional_member "identity" (keys_Identity keys); optional_member "networkExposure" (keys_NetworkExposure keys);
    optional_member "image" (keys_Image keys)].

(** The payload; a finding without resources has the nil slice. *)
Definition fingerprint_payload (finding : Finding) : string :=
  object_of [member "id" (marshal_string (finding_ID finding));
    member "source" (marshal_string (finding_Source finding));
    member "title" (marshal_string (finding_Title finding));
    member "severity" (marshal_string (finding_Severity finding));
    member "evidence" (array_of (map stable_evidence (finding_Evidence finding)));
    member "resources" (match finding_Resources finding with [] => "null" | l => array_of (map resource_json l) end);
    member "blastRadius" (marshal_string (finding_BlastRadius finding));
    member "fixability" (marshal_string (finding_Fixability finding));
    member "correlationGroup" (marshal_string (finding_CorrelationGroup finding));
    member "correlationKeys" (correlation_keys_json (finding_CorrelationKeys finding));
    member "riskScore" (Itoa (finding_RiskScore finding));
    member "recommendedAction" (marshal_string (finding_RecommendedAction finding))].

(** Twelve bytes of the digest, in hexadecimal. *)
Definition findingFingerprint (finding : Finding) : string :=
  string_take 24 (sha256_hex (fingerprint_payload finding)).

Definition findingEventKey (finding : Finding) : string := finding_ID finding +:+ "|" +:+ findingFingerprint finding.

Definition key_rune (r : Z) : bool :=
  ((97 <=? r) && (r <=? 122)) || ((48 <=? r) && (r <=? 57)) || (r =? 45) || (r =? 95) || (r =? 46).

(** The builder receives one byte per rune, up to 96 of them. *)
Definition key_bytes (l : list Z) : string :=
  String.string_of_list_ascii (map (λ r, byte_of_code (if key_rune r then r else 45)) (take 96 l)).
Definition safeKey (value : string) : string :=
  let key := Trim (key_bytes (runes (ToLower value))) "-_." in
  if len key <? 8 then "ai-agent-event" else key.

Definition idempotencyKey (finding : Finding) : string :=
  "ai-agent-" +:+ safeKey (finding_ID finding +:+ "-" +:+ findingFingerprint finding).

Example safeKey_ex : map safeKey ["Kyverno/Pod Security"; "x"; "..abcdefgh.."] = ["kyverno-pod-security"; "ai-agent-event"; "abcdefgh"].
Proof. vm_compute. reflexivity. Qed.
