(* ===== verification/Http.v ===== *)
(** HTTP requests and responses as the API server, [services/api/internal/httpapi], sees them, the
    components its handlers call, and handlers: programs that change the headers of the response they are
    about to write, call components, and may end with a response at any point.

    The response body is the value that is encoded, not its text. Logging and tracing are left out. *)
From S2P Require Import Prelude GoLib GoDuration Base64 Json Core ActionCatalog Planner Store Correlation.
From S2P Require Import Interaction Kube Principal ManagedResources Limiter Listing RequestBody.
From S2P Require Import Repository AgentData.

Local Open Scope Z_scope.

(** * Requests, responses and events *)

(** The segments of a clean path, unescaped; query parameters and headers by name, header names in
    canonical form. *)
Record Request := mkRequest {
  req_Method : string;
  req_Segments : list string;
  req_Query : gmap string string;
  req_Headers : gmap string string;
  req_Body : string;
  req_RemoteAddr : string
}.

Abbreviation Headers := (gmap string string) (only parsing).

Record managedResourceListResponse := mkManagedList {
  mlist_Enabled : bool; mlist_ObservedAt : option Time; mlist_Resources : list Resource;
  mlist_Relationships : list Relationship; mlist_Findings : list Finding; mlist_Warnings : list Warning
}.
#[export] Instance eta_managedResourceListResponse : Eta managedResourceListResponse :=
  λ r, mkManagedList (mlist_Enabled r) (mlist_ObservedAt r) (mlist_Resources r) (mlist_Relationships r)
         (mlist_Findings r) (mlist_Warnings r).

Inductive Payload :=
| PNothing
| PError (code message requestId : string)
| PStrings (members : list (string * string))
| PHealth (insecureDevAuth oidcConfigured : bool) (clusterId : string)
| PCatalog (version : string) (actions : list ActionDefinition)
| PDashboard (d : Dashboard)
| PFindings (r : FindingListResponse)
| PFinding (f : Finding)
| PManaged (r : managedResourceListResponse)
| PExceptions (items : list Exception)
| PException (e : Exception)
| PPreview (p : RemediationPreview)
| PPlan (p : RemediationPlan)
| PDiff (d : RemediationDiff)
| PRun (r : RemediationRun)
| PApproval (a : ApprovalRequest)
| PAudit (items : list AuditEvent)
| PBundle (b : EvidenceBundle)
| PIntegrations (items : list Integration)
| PIntegrationHealth (h : IntegrationHealth)
| PExperiments (items : list ChaosExperiment)
| PChaosRun (r : ChaosExperimentRun)
| PChaosRuns (items : list ChaosExperimentRun)
| PProviders (s : ModelProviderSettings)
| PSecretStored (provider namespace : string) (ref : SecretRef)
| PMetrics (requests : list (Z * Z)) (chaosRuns : option (gmap string Z))
| PText (text : string).

(** [r.URL.Path] *)
Definition req_Path (r : Request) : string := "/" +:+ Join (req_Segments r) "/".

Record Response := mkResponse { resp_Status : Z; resp_Headers : Headers; resp_Payload : Payload }.
#[export] Instance eta_Response : Eta Response := λ r, mkResponse (resp_Status r) (resp_Headers r) (resp_Payload r).

(** How a handler ends: it has written the status and the body, or it panicked. *)
Inductive Outcome := Responded (status : Z) (payload : Payload) | Panicked (text : string).

(** What the adapters collect; see [internal/adapters]. *)
Record Collection := mkCollection {
  collection_Integrations : list Integration; collection_Health : list IntegrationHealth; collection_Findings : list Finding
}.

(** The components a handler calls. The repository, and by kind: reads and writes of the Kubernetes workflow
    objects, calls of the chaos manager, observations, the AI advisor, provider secrets, the authenticator,
    the clock, random identifiers, the limiter, the request counters; and, for the AI agent that shares the
    process and its repository, the notifier and the keys of the findings it is done with. *)
Inductive ServerE : Type → Type :=
| Repo {X : Type} (e : RepositoryE X) : ServerE X
| WorkflowHealth : ServerE (result unit)
| WorkflowListFindings : ServerE (result (list Finding))
| WorkflowGetFinding (id : string) : ServerE (result Finding)
| WorkflowListRuns : ServerE (result (list RemediationRun))
| WorkflowListApprovals : ServerE (result (list ApprovalRequest))
| WorkflowGetRun (runID : string) : ServerE (result RemediationRun)
| WorkflowRenderDiff (plan : RemediationPlan) : ServerE (result RemediationDiff)
| WorkflowCreatePlan (finding : Finding) (plan : RemediationPlan) (actor : string) : ServerE (result unit)
| WorkflowDecideApproval (approvalID decision actor reason : string) : ServerE (result ApprovalRequest)
| WorkflowRequestExecution (planID actor : string) : ServerE (result RemediationRun)
| WorkflowRequestRollback (runID actor : string) : ServerE (result RemediationRun)
| WorkflowCreateException (exception : Exception) : ServerE (result unit)
| WorkflowDeleteException (id : string) : ServerE (result unit)
| WorkflowSetFindingStatus (finding : Finding) (status actor reason : string) : ServerE (result unit)
| ChaosHealth : ServerE (result unit)
| ChaosTargetNamespace (manifest : string) : ServerE (result string)
| ChaosRequest (experimentID manifest actor : string) : ServerE (result ChaosExperimentRun)
| ChaosApprove (id actor reason : string) : ServerE (result ChaosExperimentRun)
| ChaosReject (id actor reason : string) : ServerE (result ChaosExperimentRun)
| ChaosExecute (id actor : string) : ServerE (result ChaosExperimentRun)
| ChaosAbort (id actor reason : string) : ServerE (result ChaosExperimentRun)
| ChaosGet (id : string) : ServerE (result ChaosExperimentRun)
| ChaosList : ServerE (result (list ChaosExperimentRun))
| InspectorSnapshot : ServerE (result ClusterSnapshot)
| CollectAdapters : ServerE Collection
| DiscoverManaged : ServerE (result Snapshot)
| Analyze (finding : Finding) (plan : RemediationPlan) : ServerE (result AIAnalysis)
| UpsertSecret (namespace name key value : string) : ServerE (result unit)
| VerifyToken (rawToken : string) : ServerE (result Principal)
| ServerNow : ServerE Time
| NewRequestID : ServerE string
| LimiterAllow (key : string) : ServerE (bool * Duration)
| MetricsStarted : ServerE Time
| MetricsRequests : ServerE (gmap Z Z)
| MetricsCount (status : Z) : ServerE unit
| Notify (event : AgentEvent) : ServerE (result unit)
| AlreadyProcessed (key : string) : ServerE bool
| MarkProcessed (key : string) : ServerE unit.

(** Which components are configured, and the settings of the server. *)
Record ServerConfig := mkServerConfig {
  cfg_InsecureDevAuth : bool; cfg_OIDCIssuerURL : string; cfg_OIDCClientID : string;
  cfg_Authenticator : bool; cfg_ClusterID : string; cfg_MaxRequestBytes : Z; cfg_AllowMemoryWorkflows : bool;
  cfg_ClusterInspector : bool; cfg_ChaosManager : bool; cfg_WorkflowClient : bool; cfg_AdapterManager : bool;
  cfg_ManagedResources : bool; cfg_AIAdvisor : bool; cfg_ProviderSecrets : bool;
  cfg_ProviderSecretNS : string; cfg_AutonomyMode : string; cfg_RuntimeIdentity : string;
  cfg_RiskConfig : Correlation.Config; cfg_FindingExpiry : Duration;
  (** the optional interfaces the workflow client implements *)
  cfg_ApprovalWorkflow : bool; cfg_ExceptionWorkflow : bool; cfg_LifecycleWorkflow : bool
}.

(** * Handlers

    A handler changes the headers of the response it is about to write, calls components, and may end at
    any point. *)

Definition H (A : Type) : Type := Headers → prog ServerE (Headers * (Outcome + A)).

#[export] Instance H_ret : MRet H := λ A a w, Ret (w, inr a).
#[export] Instance H_bind : MBind H := λ A B k p w,
  prog_bind (λ wr, match wr.2 with inr a => k a wr.1 | inl o => Ret (wr.1, inl o) end) (p w).

Definition perform_event {A} (e : ServerE A) : H A := λ w, Vis e (λ a, Ret (w, inr a)).
(** [x, err := call()]: the handler looks at the error; a panic unwinds to the recovery middleware. *)
Definition try_call {A} (e : ServerE (result A)) : H (result A) :=
  λ w, Vis e (λ r, match r with Err (Panic text) => Ret (w, inl (Panicked text)) | _ => Ret (w, inr r) end).
Definition set_header (name value : string) : H unit := λ w, Ret (<[name := value]> w, inr tt).
Definition writeJSON {A} (status : Z) (payload : Payload) : H A := λ w, Ret (w, inl (Responded status payload)).

Definition errorCode (status : Z) : string :=
  if status =? 400 then "bad_request" else if status =? 401 then "unauthenticated"
  else if status =? 403 then "permission_denied" else if status =? 404 then "not_found"
  else if status =? 409 then "conflict" else if status =? 413 then "request_too_large"
  else if status =? 415 then "unsupported_media_type" else if status =? 429 then "rate_limited"
  else if status =? 503 then "unavailable" else "internal_error".

Definition error_payload (w : Headers) (status : Z) (err : GoError) : Payload :=
  let message := if (500 <=? status) && negb (status =? 503) then "internal server error" else error_text err in
  PError (errorCode status) message (default "" (w !! "X-Request-ID")).

Definition writeError {A} (status : Z) (err : GoError) : H A :=
  λ w, Ret (w, inl (Responded status (error_payload w status err))).
(** [if cond { writeError(w, status, err); return }] *)
Definition error_if (cond : bool) (status : Z) (err : GoError) : H unit :=
  if cond then writeError status err else mret tt.

(** The status a handler gives an error: 500 but for the sentinels it looks for. *)
Definition status_of (known : list (GoError * Z)) (err : GoError) : Z :=
  foldr (λ ks rest, if errors_Is err ks.1 then ks.2 else rest) 500 known.
Definition not_found_only : list (GoError * Z) := [(ErrNotFound, 404)].
Definition store_errors : list (GoError * Z) := [(ErrNotFound, 404); (ErrInvalid, 400); (ErrConflict, 409)].
Definition writeStoreError {A} (err : GoError) : H A := writeError (status_of store_errors err) err.

(** [if err != nil { writeError(w, status(err), err); return }] *)
Definition or_error {A} (known : list (GoError * Z)) (r : result A) : H A :=
  match r with Ok a => mret a | Err err => writeError (status_of known err) err end.
(** The same with a status and an error of its own. *)
Definition or_fail {A} (status : Z) (failure : GoError) (r : result A) : H A :=
  match r with Ok a => mret a | Err _ => writeError status failure end.

(** [if err != nil { writeError(w, http.StatusBadRequest, err); return }] *)
Definition bad_request {A} (r : result A) : H A := match r with Ok a => mret a | Err err => writeError 400 err end.

Definition header_of (r : Request) (name : string) : string := default "" (req_Headers r !! name).
Definition query_of (r : Request) (name : string) : string := default "" (req_Query r !! name).

(** [validation] of the Kubernetes API machinery. *)
Class NameValidation := { IsDNS1123Subdomain : string → bool; IsConfigMapKey : string → bool }.
