(* ===== verification/Server.v ===== *)
(** The handlers of the HTTP API, [services/api/internal/httpapi/server.go]: each a program over the calls
    to the repository, the Kubernetes workflow client, the chaos manager and the other components. *)
From S2P Require Import Prelude GoLib GoDuration Base64 Json Core ActionCatalog Planner Store Correlation.
From S2P Require Import Interaction Kube Principal ManagedResources Limiter Listing RequestBody.
From S2P Require Import Repository Http.

Local Open Scope Z_scope.

(** * What a page needs beyond the request *)

(** The loop over resources in [managedReferenceInResources]. *)
Definition refers_to (reference : ResourceReference) (resource : Resource) : bool :=
  if (reference_UID reference != "") && (resource_UID resource != "") && (reference_UID reference == resource_UID resource) then true
  else if (reference_Name reference != resource_Name resource) || (reference_Namespace reference != resource_Namespace resource) then false
  else if (reference_APIVersion reference != "") && (reference_APIVersion reference != resource_APIVersion resource) then false
  else if (reference_Kind reference != "") && (reference_Kind reference != resource_Kind resource) then false
  else true.
Definition managedReferenceInResources (reference : ResourceReference) (resources : list Resource) : bool :=
  existsb (refers_to reference) resources.

Section Server.
Context `{RangeOrder} `{NameValidation}.
Variable c : ServerConfig.

(** * Request bodies *)

Definition max_request_bytes : Z := if cfg_MaxRequestBytes c <=? 0 then 2 ^ 20 else cfg_MaxRequestBytes c.

(** [decodeStrict]: exactly one JSON document of the expected shape; a body over the limit is cut off. *)
Definition decodeStrict {A} (r : Request) (decode : json → result A) : H A :=
  let contentType := ToLower (TrimSpace (hd "" (split_on (byte_of_code 59) (header_of r "Content-Type")))) in
  error_if (((req_Method r == "POST") || (req_Method r == "PUT") || (req_Method r == "PATCH")) &&
            (contentType != "application/json")) 415 (Errorf "Content-Type must be application/json");;
  let cut := max_request_bytes <? len (req_Body r) in
  let body := if cut then string_take (Z.to_nat max_request_bytes) (req_Body r) else req_Body r in
  let invalid_body := Errorf "request body must be valid JSON matching the documented schema" in
  error_if (cut && asks_for_more BeginValue [] body) 413 (Errorf "request body is too large");;
  match scan_value (parse_fuel body) 0 body with
  | None => writeError 400 invalid_body
  | Some (v, rest) =>
      decoded ← or_fail 400 invalid_body (decode v);
      error_if (cut || (skip_space rest != "")) 400 (Errorf "request body must contain exactly one JSON document");;
      mret decoded
  end.

(** * Access *)

Section Request.
(** The principal of the request's context, and the request. *)
Variables (p : option Principal) (r : Request).

Definition principal_or_zero : Principal := default zero_Principal p.
Definition actorFromRequest : string := match p with Some principal => Actor principal | None => "unknown" end.

Definition requireClusterAccess : H unit :=
  match p with
  | None => writeError 401 ErrUnauthenticated
  | Some principal => error_if (negb (CanAccessCluster principal (cfg_ClusterID c))) 403 ErrUnauthorized
  end.

Definition requireFindingAccess (finding : Finding) : H unit :=
  match p with
  | None => writeError 401 ErrUnauthenticated
  | Some principal => error_if (negb (findingAllowed principal (cfg_ClusterID c) finding)) 403 ErrUnauthorized
  end.

(** * Observations *)

Definition snapshot : H (option ClusterSnapshot) :=
  if cfg_ClusterInspector c then
    observed ← try_call InspectorSnapshot;
    mret (match observed with Ok s => Some s | Err _ => None end)
  else mret None.

Definition findLiveFinding (id : string) : H (option Finding) :=
  observed ← snapshot;
  mret (match observed with
        | Some s => List.find (λ finding, finding_ID finding == id) (snapshot_Findings s)
        | None => None
        end).

Definition adapterFindings : H (list Finding) :=
  if cfg_AdapterManager c then collection ← perform_event CollectAdapters; mret (collection_Findings collection)
  else mret [].

Definition getFindingByID (id : string) : H (result Finding) :=
  mirrored ← (if cfg_WorkflowClient c then found ← try_call (WorkflowGetFinding id); mret (Some found) else mret None);
  match mirrored with
  | Some (Ok finding) => mret (Ok finding)
  | _ =>
      stored ← try_call (Repo (RepoGetFinding id));
      match stored with
      | Ok finding => mret (Ok finding)
      | Err err =>
          if negb (errors_Is err ErrNotFound) then mret (Err err)
          else
            live ← findLiveFinding id;
            match live with
            | Some finding => mret (Ok finding)
            | None =>
                adapted ← adapterFindings;
                mret (match List.find (λ finding, finding_ID finding == id) adapted with
                      | Some finding => Ok finding
                      | None => Err ErrNotFound
                      end)
            end
      end
  end.

Definition requirePlanAccess (planID : string) : H unit :=
  stored ← try_call (Repo (RepoGetRemediationPlan planID));
  plan ← or_error not_found_only stored;
  found ← getFindingByID (plan_FindingID plan);
  finding ← or_error not_found_only found;
  requireFindingAccess finding.

(** Findings are mirrored into the repository; a failure is only logged. *)
Fixpoint sync_findings (findings : list Finding) : H unit :=
  match findings with
  | [] => mret tt
  | finding :: rest => synced ← try_call (Repo (RepoSyncFinding finding)); sync_findings rest
  end.

Fixpoint sync_runs (runs : list RemediationRun) : H unit :=
  match runs with
  | [] => mret tt
  | run :: rest => synced ← try_call (Repo (RepoSyncRemediationRun run)); sync_runs rest
  end.

Definition syncWorkflowState : H unit :=
  if cfg_WorkflowClient c then
    findings ← try_call WorkflowListFindings;
    match findings with Ok l => sync_findings l | Err _ => mret tt end;;
    runs ← try_call WorkflowListRuns;
    match runs with Ok l => sync_runs l | Err _ => mret tt end
  else mret tt.

Definition expireStaleFindings : H unit :=
  if cfg_FindingExpiry c <=? 0 then mret tt
  else
    now ← perform_event ServerNow;
    expired ← try_call (Repo (RepoExpireFindings (Add now (- cfg_FindingExpiry c))));
    mret tt.

(** * Health and configuration *)

Definition liveness : H unit := writeJSON 200 (PStrings [("status", "alive")]).

Definition authConfig : H unit :=
  writeJSON 200 (PStrings [("mode", if cfg_InsecureDevAuth c then "development" else "oidc");
    ("issuerURL", cfg_OIDCIssuerURL c); ("clientID", cfg_OIDCClientID c)]).

Definition readiness : H unit :=
  repository ← try_call (Repo RepoHealth);
  or_fail 503 (Errorf "repository is not ready") repository;;
  error_if (negb (cfg_InsecureDevAuth c) && negb (cfg_Authenticator c)) 503 (Errorf "authentication is not configured");;
  error_if (negb (cfg_WorkflowClient c) && negb (cfg_AllowMemoryWorkflows c)) 503
    (Errorf "Kubernetes workflow client is not configured");;
  (if cfg_ChaosManager c then
     chaos ← try_call ChaosHealth; or_fail 503 (Errorf "chaos execution dependency is not ready") chaos
   else mret tt);;
  (if cfg_WorkflowClient c then
     workflow ← try_call WorkflowHealth; or_fail 503 (Errorf "Kubernetes workflow API is not ready") workflow
   else mret tt);;
  writeJSON 200 (PStrings [("status", "ready")]).

Definition health : H unit :=
  repository ← try_call (Repo RepoHealth);
  match repository with
  | Err err => writeError 503 err
  | Ok _ => writeJSON 200 (PHealth (cfg_InsecureDevAuth c)
              ((cfg_OIDCIssuerURL c != "") && (cfg_OIDCClientID c != "")) (cfg_ClusterID c))
  end.

Definition actionCatalog : H unit := writeJSON 200 (PCatalog Version All).

Definition agentStatus : H AgentStatus :=
  let mode := TrimSpace (cfg_AutonomyMode c) in
  let mode := if mode == "" then "recommend" else mode in
  let identity := TrimSpace (cfg_RuntimeIdentity c) in
  let identity := if identity == "" then "api/" +:+ cfg_ClusterID c else identity in
  listed ← try_call (Repo RepoListAuditEvents);
  actions ← match listed with
            | Ok events =>
                now ← perform_event ServerNow;
                mret (Z.of_nat (length (List.filter
                  (λ event, negb (Before (audit_CreatedAt event) (Add now (- (24 * Hour))))) events)))
            | Err _ => mret 0
            end;
  started ← perform_event MetricsStarted;
  now ← perform_event ServerNow;
  mret (mkAgentStatus mode (Z.max 0 (whole_seconds (Sub now started))) actions identity).

(** * Dashboard and findings *)

Definition enrichDashboard (dashboard : Dashboard) : H Dashboard :=
  let dashboard := dashboard <| dashboard_Experiments := DefaultChaosExperiments |> in
  persisted ← try_call (Repo (RepoListFindings zero_FindingFilter));
  let seen : gset string := match persisted with Ok l => list_to_set (map finding_ID l) | Err _ => ∅ end in
  observed ← snapshot;
  acc ← match observed with
        | Some s =>
            now ← perform_event ServerNow;
            let d := dashboard
              <| dashboard_Cluster := snapshot_Inventory s |>
              <| dashboard_Scan := snapshot_Scan s |>
              <| dashboard_Compliance := snapshot_Compliance s |>
              <| dashboard_Experiments := match snapshot_Experiments s with
                                          | [] => dashboard_Experiments dashboard | l => l end |>
              <| dashboard_ProtectedNamespaces :=
                   if dashboard_ProtectedNamespaces dashboard <? inventory_Namespaces (snapshot_Inventory s)
                   then inventory_Namespaces (snapshot_Inventory s) else dashboard_ProtectedNamespaces dashboard |>
              <| dashboard_EvidenceFreshness := freshnessLabel (scan_LastRunAt (snapshot_Scan s)) now |> in
            mret (foldl add_unseen (d, seen) (snapshot_Findings s))
        | None => mret (dashboard, seen)
        end;
  acc ← (if cfg_AdapterManager c then
           collection ← perform_event CollectAdapters;
           let d := acc.1 <| dashboard_BundledEnginesOnline :=
             count_matching (λ h, health_Health h == "healthy") (collection_Health collection) |> in
           mret (foldl add_unseen (d, acc.2) (collection_Findings collection))
         else mret acc);
  if cfg_WorkflowClient c && cfg_ApprovalWorkflow c then
    listed ← try_call WorkflowListApprovals;
    match listed with
    | Ok approvals =>
        now ← perform_event ServerNow;
        mret (acc.1 <| dashboard_PendingApprovals :=
          count_matching (λ a, (approval_Status a == ApprovalPending) && After (approval_ExpiresAt a) now) approvals |>)
    | Err _ => mret acc.1
    end
  else mret acc.1.

Definition dashboard : H unit :=
  requireClusterAccess;;
  syncWorkflowState;;
  expireStaleFindings;;
  computed ← try_call (Repo RepoDashboard);
  dashboard ← or_error [] computed;
  dashboard ← enrichDashboard dashboard;
  status ← agentStatus;
  writeJSON 200 (PDashboard (dashboard <| dashboard_Agent := status |>)).

Definition mergeLiveFindings (findings : list Finding) (filter : FindingFilter) : H (list Finding) :=
  observed ← snapshot;
  match observed with
  | None => mret findings
  | Some s =>
      sync_findings (snapshot_Findings s);;
      mret (sort_slice riskier (foldl (λ l finding, mergeObservedFinding l finding filter) findings (snapshot_Findings s)))
  end.

Definition mergeAdapterFindings (findings : list Finding) (filter : FindingFilter) : H (list Finding) :=
  if cfg_AdapterManager c then
    collection ← perform_event CollectAdapters;
    sync_findings (collection_Findings collection);;
    mret (sort_slice riskier
      (foldl (λ l finding, mergeObservedFinding l finding filter) findings (collection_Findings collection)))
  else mret findings.

Definition mergeWorkflowFindings (findings : list Finding) (filter : FindingFilter) : H (list Finding) :=
  if cfg_WorkflowClient c then
    listed ← try_call WorkflowListFindings;
    match listed with
    | Err _ => mret findings
    | Ok workflowFindings =>
        sync_findings workflowFindings;;
        mret (sort_slice riskier (range (merge_by_id findings workflowFindings filter)).*2)
    end
  else mret findings.

Definition filterAuthorizedFindings (findings : list Finding) : list Finding :=
  match p with
  | None => []
  | Some principal =>
      if CanAccessCluster principal (cfg_ClusterID c) then findings
      else List.filter (findingAllowed principal (cfg_ClusterID c)) findings
  end.

Definition listing_filter (minRisk : Z) : FindingFilter :=
  mkFindingFilter (query_of r "severity") (query_of r "status") (query_of r "source") (query_of r "q")
    (query_of r "namespace") (query_of r "kind") (query_of r "fixability") minRisk.

Definition risk_config : Config :=
  if cfg_CriticalBase (cfg_RiskConfig c) =? 0 then DefaultConfig else cfg_RiskConfig c.

Definition listFindings : H unit :=
  expireStaleFindings;;
  minRisk ← bad_request (queryInt (query_of r "minRisk") "minRisk" 0 0 100);
  let filter := listing_filter minRisk in
  listed ← try_call (Repo (RepoListFindings filter));
  findings ← or_error [] listed;
  findings ← mergeLiveFindings findings filter;
  findings ← mergeAdapterFindings findings filter;
  findings ← mergeWorkflowFindings findings filter;
  let findings := CorrelateWithConfig (filterAuthorizedFindings findings) risk_config in
  sync_findings findings;;
  findings ← bad_request (sortFindings findings (query_of r "sort") (query_of r "order"));
  groups ← (if query_of r "groupBy" != "" then bad_request (groupFindings findings (query_of r "groupBy")) else mret []);
  limit ← bad_request (queryInt (query_of r "limit") "limit" 50 1 200);
  start ← bad_request (cursorStart findings (query_of r "cursor"));
  let '(items, next) := page_of findings start (Z.to_nat limit) in
  writeJSON 200 (PFindings (mkFindingListResponse items groups (Z.of_nat (length findings)) next)).

Definition getFinding (id : string) : H unit :=
  found ← getFindingByID id;
  finding ← or_error not_found_only found;
  requireFindingAccess finding;;
  writeJSON 200 (PFinding finding).

Definition listManagedResources : H unit :=
  let response := mkManagedList (cfg_ManagedResources c) None [] [] [] [] in
  if negb (cfg_ManagedResources c) then writeJSON 200 (PManaged response)
  else
    discovered ← try_call DiscoverManaged;
    snapshot ← or_fail 503 (Errorf "managed resource discovery is unavailable") discovered;
    let response := if IsZero (managed_ObservedAt snapshot) then response
                    else response <| mlist_ObservedAt := Some (managed_ObservedAt snapshot) |> in
    match p with
    | None => writeError 401 ErrUnauthenticated
    | Some principal =>
        if CanAccessCluster principal (cfg_ClusterID c) then
          writeJSON 200 (PManaged (response <| mlist_Resources := managed_Resources snapshot |>
            <| mlist_Relationships := managed_Relationships snapshot |> <| mlist_Findings := managed_Findings snapshot |>
            <| mlist_Warnings := managed_Warnings snapshot |>))
        else
          let resources := List.filter (λ resource, (resource_Namespace resource != "") &&
            CanAccessNamespace principal (cfg_ClusterID c) (resource_Namespace resource)) (managed_Resources snapshot) in
          writeJSON 200 (PManaged (response <| mlist_Resources := resources |>
            <| mlist_Relationships := List.filter (λ relationship,
                 managedReferenceInResources (relationship_From relationship) resources &&
                 managedReferenceInResources (relationship_To relationship) resources) (managed_Relationships snapshot) |>
            <| mlist_Findings := List.filter (findingAllowed principal (cfg_ClusterID c)) (managed_Findings snapshot) |>))
    end.

Definition updateFindingStatus (id : string) : H unit :=
  request ← decodeStrict r decode_statusRequest;
  found ← getFindingByID id;
  finding ← or_fail 404 ErrNotFound found;
  requireFindingAccess finding;;
  let actor := actorFromRequest in
  let reason := TrimSpace (request_Reason request) in
  (if cfg_WorkflowClient c && cfg_LifecycleWorkflow c then
     recorded ← try_call (WorkflowSetFindingStatus finding (request_Status request) actor reason);
     or_fail 503 (Errorf "finding lifecycle state could not be persisted to Kubernetes") recorded
   else mret tt);;
  updated ← try_call (Repo (RepoUpdateFindingStatus (finding_ID finding) (request_Status request) actor reason));
  finding ← or_error [(ErrInvalid, 400); (ErrConflict, 409)] updated;
  writeJSON 200 (PFinding finding).

(** * Exceptions *)

Fixpoint visible_exceptions (items : list Exception) : H (list Exception) :=
  match items with
  | [] => mret []
  | exception :: rest =>
      found ← getFindingByID (exception_Scope exception);
      visible ← visible_exceptions rest;
      mret (match found with
            | Ok finding => if findingAllowed principal_or_zero (cfg_ClusterID c) finding then exception :: visible else visible
            | Err _ => visible
            end)
  end.

Definition listExceptions : H unit :=
  listed ← try_call (Repo RepoListExceptions);
  items ← or_error [] listed;
  items ← (if CanAccessCluster principal_or_zero (cfg_ClusterID c) then mret items else visible_exceptions items);
  writeJSON 200 (PExceptions items).

(** Access to the scope of an exception: a finding, or else the cluster. *)
Definition requireScopeAccess (scope : string) : H unit :=
  found ← getFindingByID scope;
  match found with Ok finding => requireFindingAccess finding | Err _ => requireClusterAccess end.

Definition createException : H unit :=
  request ← decodeStrict r decode_exceptionRequest;
  let scope := TrimSpace (request_Scope request) in
  let reason := TrimSpace (request_Why request) in
  requireScopeAccess scope;;
  created ← try_call (Repo (RepoCreateException
    (zero_Exception <| exception_Scope := scope |> <| exception_Reason := reason |>
       <| exception_ExpiresAt := request_ExpiresAt request |>) actorFromRequest));
  exception ← or_error [(ErrInvalid, 400)] created;
  (if cfg_WorkflowClient c && cfg_ExceptionWorkflow c then
     mirrored ← try_call (WorkflowCreateException exception);
     match mirrored with
     | Ok _ => mret tt
     | Err _ =>
         removed ← try_call (Repo (RepoDeleteException (exception_ID exception) actorFromRequest));
         writeError 503 (Errorf "exception could not be persisted to Kubernetes workflow state")
     end
   else mret tt);;
  writeJSON 201 (PException exception).

Definition deleteException (id : string) : H unit :=
  listed ← try_call (Repo RepoListExceptions);
  items ← or_error [] listed;
  match List.find (λ exception, exception_ID exception == id) items with
  | None => writeError 404 ErrNotFound
  | Some target =>
      requireScopeAccess (exception_Scope target);;
      (if cfg_WorkflowClient c && cfg_ExceptionWorkflow c then
         removed ← try_call (WorkflowDeleteException (exception_ID target));
         or_fail 503 (Errorf "exception could not be deleted from Kubernetes workflow state") removed
       else mret tt);;
      deleted ← try_call (Repo (RepoDeleteException (exception_ID target) actorFromRequest));
      or_error [] deleted;;
      writeJSON 204 PNothing
  end.

(** * Remediation plans and runs *)

Definition enrichPlanWithAI (finding : Finding) (plan : RemediationPlan) : H RemediationPlan :=
  match cfg_AIAdvisor c, plan_AI plan with
  | true, None =>
      analyzed ← try_call (Analyze finding plan);
      mret (match analyzed with Ok analysis => plan <| plan_AI := Some analysis |> | Err _ => plan end)
  | _, _ => mret plan
  end.

Definition previewRemediationPlan : H unit :=
  findingID ← decodeStrict r (decode_single "findingId");
  error_if (findingID == "") 400 (Errorf "findingId is required");;
  found ← getFindingByID findingID;
  finding ← or_error not_found_only found;
  requireFindingAccess finding;;
  let requester := actorFromRequest in
  previewed ← try_call (Repo (RepoPreviewRemediationPlan findingID requester));
  previewed ← match previewed with
              | Err err =>
                  if errors_Is err ErrNotFound then
                    now ← perform_event ServerNow;
                    let plan := buildRemediationPlan finding requester now 0 in
                    let plan := plan <| plan_ID := "preview-" +:+ finding_ID finding |> in
                    mret (Ok (buildRemediationPreview finding plan now))
                  else mret previewed
              | Ok _ => mret previewed
              end;
  preview ← or_error not_found_only previewed;
  candidate ← enrichPlanWithAI finding (preview_Candidate preview);
  writeJSON 200 (PPreview (preview <| preview_Candidate := candidate |> <| preview_AI := plan_AI candidate |>)).

Definition request_id_byte (character : Ascii.ascii) : bool :=
  let n := byte_code character in
  (n =? 45) || (n =? 95) || (n =? 46) || ((48 <=? n) && (n <=? 57)) || ((97 <=? n) && (n <=? 122)) ||
  ((65 <=? n) && (n <=? 90)).
Definition validRequestID (value : string) : bool :=
  negb ((len value <? 8) || (128 <? len value)) && forallb request_id_byte (String.list_ascii_of_string value).

Definition workflow_required : H unit :=
  error_if (negb (cfg_WorkflowClient c) && negb (cfg_AllowMemoryWorkflows c)) 503
    (Errorf "Kubernetes workflow persistence is required").

Definition createRemediationPlan : H unit :=
  findingID ← decodeStrict r (decode_single "findingId");
  error_if (findingID == "") 400 (Errorf "findingId is required");;
  let idempotencyKey := TrimSpace (header_of r "Idempotency-Key") in
  error_if (negb (validRequestID idempotencyKey)) 400
    (Errorf "Idempotency-Key is required and must contain 8 to 128 URL-safe characters");;
  set_header "Idempotency-Key" idempotencyKey;;
  found ← getFindingByID findingID;
  finding ← or_error not_found_only found;
  requireFindingAccess finding;;
  created ← try_call (Repo (RepoCreateRemediationPlanFromFinding finding actorFromRequest idempotencyKey));
  plan ← or_error [(ErrNotFound, 404); (ErrConflict, 409)] created;
  plan ← enrichPlanWithAI finding plan;
  match plan_AI plan with
  | Some _ => synced ← try_call (Repo (RepoSyncRemediationPlan plan)); or_error [] synced
  | None => mret tt
  end;;
  workflow_required;;
  (if cfg_WorkflowClient c then
     persisted ← try_call (WorkflowCreatePlan finding plan actorFromRequest);
     or_fail 503 (Errorf "Kubernetes workflow persistence failed") persisted
   else mret tt);;
  writeJSON 201 (PPlan plan).

Definition getRemediationPlanDiff (id : string) : H unit :=
  requirePlanAccess id;;
  stored ← try_call (Repo (RepoGetRemediationPlan id));
  plan ← or_fail 404 ErrNotFound stored;
  rendered ← (if cfg_WorkflowClient c then try_call (WorkflowRenderDiff plan)
              else try_call (Repo (RepoGetRemediationPlanDiff id)));
  diff ← or_error not_found_only rendered;
  writeJSON 200 (PDiff diff).

Definition executeRemediationPlan (id : string) : H unit :=
  decodeStrict r decode_empty;;
  requirePlanAccess id;;
  workflow_required;;
  clusterRun ← (if cfg_WorkflowClient c then
                  requested ← try_call (WorkflowRequestExecution id actorFromRequest);
                  run ← or_fail 409 (Errorf "execution request was rejected by Kubernetes workflow state") requested;
                  mret (Some run)
                else mret None);
  executed ← try_call (Repo (RepoExecuteRemediationPlan id actorFromRequest));
  run ← or_error [(ErrNotFound, 404); (ErrInvalid, 400)] executed;
  writeJSON 202 (PRun (default run clusterRun)).

Definition getRemediationRun (id : string) : H unit :=
  mirrored ← (if cfg_WorkflowClient c then found ← try_call (WorkflowGetRun id); mret (Some found) else mret None);
  match mirrored with
  | Some (Ok run) =>
      requirePlanAccess (run_PlanID run);;
      synced ← try_call (Repo (RepoSyncRemediationRun run));
      writeJSON 200 (PRun run)
  | _ =>
      stored ← try_call (Repo (RepoGetRemediationRun id));
      run ← or_error not_found_only stored;
      requirePlanAccess (run_PlanID run);;
      writeJSON 200 (PRun run)
  end.

Definition rollbackRemediationRun (id : string) : H unit :=
  decodeStrict r decode_empty;;
  error_if (negb (cfg_WorkflowClient c)) 503 (Errorf "rollback requires Kubernetes workflow state");;
  found ← try_call (WorkflowGetRun id);
  current ← or_fail 404 ErrNotFound found;
  requirePlanAccess (run_PlanID current);;
  requested ← try_call (WorkflowRequestRollback id actorFromRequest);
  run ← or_fail 409 (Errorf "run is not eligible for rollback or has no controller snapshot") requested;
  mirrored ← try_call (Repo (RepoRequestRollback id actorFromRequest));
  or_error [] mirrored;;
  writeJSON 202 (PRun run).

Definition decideApproval (id : string) (approve : bool) : H unit :=
  reason ← decodeStrict r (decode_single "reason");
  let reason := TrimSpace reason in
  error_if ((reason == "") || (2048 <? len reason)) 400
    (Errorf "a decision reason between 1 and 2048 characters is required");;
  let planID := TrimPrefix id "approval-" in
  error_if (planID == id) 400 (Errorf "invalid approval id");;
  requirePlanAccess planID;;
  let actor := actorFromRequest in
  let decision := if approve then ApprovalApproved else ApprovalRejected in
  workflow_required;;
  (if cfg_WorkflowClient c then
     decided ← try_call (WorkflowDecideApproval id decision actor reason);
     or_fail 409 (Errorf "approval decision was rejected by Kubernetes workflow state") decided;;
     mret tt
   else mret tt);;
  decided ← (if approve then try_call (Repo (RepoApprove id actor reason)) else try_call (Repo (RepoReject id actor reason)));
  approval ← or_error [(ErrNotFound, 404); (ErrInvalid, 400)] decided;
  writeJSON 200 (PApproval approval).

(** * Audit, evidence and integrations *)

Definition auditEvents : H unit :=
  requireClusterAccess;;
  listed ← try_call (Repo RepoListAuditEvents);
  events ← or_error [] listed;
  writeJSON 200 (PAudit events).

Definition evidenceBundle (scope : string) : H unit :=
  requireClusterAccess;;
  bundled ← try_call (Repo (RepoEvidenceBundle (pathValue scope)));
  bundle ← or_error not_found_only bundled;
  writeJSON 200 (PBundle bundle).

Definition integrations : H unit :=
  requireClusterAccess;;
  if cfg_AdapterManager c then
    collection ← perform_event CollectAdapters;
    writeJSON 200 (PIntegrations (collection_Integrations collection))
  else
    listed ← try_call (Repo RepoListIntegrations);
    items ← or_error [] listed;
    writeJSON 200 (PIntegrations items).

Definition integrationHealth (name : string) : H unit :=
  requireClusterAccess;;
  if cfg_AdapterManager c then
    collection ← perform_event CollectAdapters;
    match List.find (λ h, normalizeName (health_Name h) == normalizeName (pathValue name)) (collection_Health collection) with
    | Some h => writeJSON 200 (PIntegrationHealth h)
    | None => writeError 404 ErrNotFound
    end
  else
    checked ← try_call (Repo (RepoIntegrationHealth (pathValue name)));
    h ← or_error not_found_only checked;
    writeJSON 200 (PIntegrationHealth h).

(** * Chaos experiments *)

Definition experiments : H unit :=
  requireClusterAccess;;
  observed ← snapshot;
  writeJSON 200 (PExperiments (match observed with
                               | Some s => match snapshot_Experiments s with [] => DefaultChaosExperiments | l => l end
                               | None => DefaultChaosExperiments
                               end)).

Definition chaos_unconfigured : H unit :=
  error_if (negb (cfg_ChaosManager c)) 503 (Errorf "chaos manager is not configured").

Definition startExperiment (experimentID : string) : H unit :=
  manifest ← decodeStrict r (decode_single "manifest");
  let experiment := findExperiment DefaultChaosExperiments experimentID in
  error_if (negb (bool_decide (is_Some experiment)) && (experimentID != "custom")) 404 ErrNotFound;;
  let manifest := match experiment with
                  | Some e => if manifest == "" then experiment_Manifest e else manifest
                  | None => manifest
                  end in
  error_if (manifest == "") 400 (Errorf "manifest is required");;
  chaos_unconfigured;;
  target ← try_call (ChaosTargetNamespace manifest);
  namespace ← bad_request target;
  error_if (negb (CanAccessNamespace principal_or_zero (cfg_ClusterID c) namespace)) 403 ErrUnauthorized;;
  requested ← try_call (ChaosRequest experimentID manifest actorFromRequest);
  run ← or_error store_errors requested;
  writeJSON 201 (PChaosRun run).

Definition listExperimentRuns : H unit :=
  chaos_unconfigured;;
  listed ← try_call ChaosList;
  runs ← or_error store_errors listed;
  writeJSON 200 (PChaosRuns (List.filter
    (λ run, CanAccessNamespace principal_or_zero (cfg_ClusterID c) (ref_Namespace (chaos_Resource run))) runs)).

Definition authorizedExperimentRun (id : string) : H ChaosExperimentRun :=
  chaos_unconfigured;;
  found ← try_call (ChaosGet id);
  run ← or_error store_errors found;
  error_if (negb (CanAccessNamespace principal_or_zero (cfg_ClusterID c) (ref_Namespace (chaos_Resource run)))) 403 ErrUnauthorized;;
  mret run.

Definition getExperimentRun (id : string) : H unit :=
  run ← authorizedExperimentRun id;
  writeJSON 200 (PChaosRun run).

Definition decideExperimentRun (id : string) (approve : bool) : H unit :=
  authorizedExperimentRun id;;
  reason ← decodeStrict r (decode_single "reason");
  decided ← (if approve then try_call (ChaosApprove id actorFromRequest reason)
             else try_call (ChaosReject id actorFromRequest reason));
  run ← or_error store_errors decided;
  writeJSON 200 (PChaosRun run).

Definition executeExperimentRun (id : string) : H unit :=
  authorizedExperimentRun id;;
  executed ← try_call (ChaosExecute id actorFromRequest);
  run ← or_error store_errors executed;
  writeJSON 202 (PChaosRun run).

Definition abortExperimentRun (id : string) : H unit :=
  authorizedExperimentRun id;;
  reason ← decodeStrict r (decode_single "reason");
  aborted ← try_call (ChaosAbort id actorFromRequest reason);
  run ← or_error store_errors aborted;
  writeJSON 200 (PChaosRun run).

(** * Model providers and metrics *)

Definition getModelProviders : H unit :=
  stored ← try_call (Repo RepoGetModelProviders);
  settings ← or_error [] stored;
  writeJSON 200 (PProviders settings).

Definition putModelProviders : H unit :=
  settings ← decodeStrict r decode_settings;
  saved ← try_call (Repo (RepoSaveModelProviders settings));
  updated ← or_error [(ErrInvalid, 400)] saved;
  now ← perform_event ServerNow;
  recorded ← try_call (Repo (RepoRecordAuditEvent (mkAuditEvent "" actorFromRequest "model-provider.settings.updated"
    "model-providers" ("Model provider references replaced (" +:+
      Itoa (Z.of_nat (length (settings_Providers updated))) +:+ " configured)") now)));
  or_fail 500 (Errorf "provider settings were saved but the audit event could not be recorded") recorded;;
  writeJSON 200 (PProviders updated).

Definition putModelProviderSecret (name : string) : H unit :=
  error_if (negb (cfg_ProviderSecrets c)) 503 (Errorf "provider secret management is not configured");;
  let providerName := TrimSpace name in
  request ← decodeStrict r decode_secretRequest;
  let secretName := TrimSpace (request_SecretName request) in
  let key := TrimSpace (request_Key request) in
  error_if ((providerName == "") || (secretName == "") || (key == "") || (request_Value request == "")) 400
    (Errorf "provider name, secretName, key, and value are required");;
  error_if (128 <? len providerName) 400 (Errorf "provider name must be at most 128 characters");;
  error_if (negb (IsDNS1123Subdomain secretName)) 400 (Errorf "secretName must be a valid Kubernetes Secret name");;
  error_if (negb (IsConfigMapKey key)) 400 (Errorf "key must be a valid Kubernetes Secret data key");;
  error_if (64 * 1024 <? len (request_Value request)) 413 (Errorf "provider secret value exceeds 64 KiB");;
  let namespace := TrimSpace (cfg_ProviderSecretNS c) in
  let namespace := if namespace == "" then "kubeathrix" else namespace in
  stored ← try_call (UpsertSecret namespace secretName key (request_Value request));
  or_fail 500 (Errorf "provider secret could not be stored") stored;;
  now ← perform_event ServerNow;
  recorded ← try_call (Repo (RepoRecordAuditEvent (mkAuditEvent "" actorFromRequest "model-provider.secret.rotated" providerName
    ("Kubernetes Secret " +:+ namespace +:+ "/" +:+ secretName +:+ " key " +:+ key +:+ " was created or rotated") now)));
  or_fail 500 (Errorf "provider secret was stored but the audit event could not be recorded") recorded;;
  writeJSON 200 (PSecretStored providerName namespace (mkSecretRef secretName key)).

Definition prometheusMetrics : H unit :=
  requests ← perform_event MetricsRequests;
  set_header "Content-Type" "text/plain; version=0.0.4; charset=utf-8";;
  started ← perform_event MetricsStarted;
  listed ← try_call (Repo RepoListChaosRuns);
  writeJSON 200 (PMetrics (sort_slice (λ x y, x.1 <? y.1) (map_to_list requests))
    (match listed with
     | Ok runs => Some (foldl (λ counts run, count_in (chaos_Status run) counts) ∅ runs)
     | Err _ => None
     end)).
End Request.
End Server.
