(* ===== verification/Routes.v ===== *)
(** Routing and middleware of the HTTP API: [Routes] of [services/api/internal/httpapi/server.go], with the
    role each route demands, and the chain of [middleware.go] around it: request identifiers, security
    headers, recovery from panics, counters, authentication and the rate limit. *)
From S2P Require Import Prelude GoLib GoDuration Json Core Store Interaction Kube Principal.
From S2P Require Import ManagedResources Limiter Listing RequestBody Repository Http Server.

Local Open Scope Z_scope.

(** [net.SplitHostPort], the host alone. *)
Fixpoint last_colon (s : string) : option (string * string) :=
  match s with
  | EmptyString => None
  | String ch rest =>
      match last_colon rest with
      | Some (before, after) => Some (String ch before, after)
      | None => if byte_code ch =? 58 then Some ("", rest) else None
      end
  end.
Fixpoint take_bracketed (s : string) : option (string * string) :=
  match s with
  | EmptyString => None
  | String ch rest =>
      if byte_code ch =? 93 then Some ("", rest) else prod_map (String ch) id <$> take_bracketed rest
  end.
Definition has_byte (code : Z) (s : string) : bool := existsb (λ ch, byte_code ch =? code) (String.list_ascii_of_string s).
Definition SplitHost (hostport : string) : option string :=
  '(before, port) ← last_colon hostport;
  match take_byte 91 hostport with
  | Some inside =>
      '(host, after) ← take_bracketed inside;
      if (after == ":" +:+ port) && negb (has_byte 91 inside) && negb (has_byte 93 after) then Some host else None
  | None =>
      if has_byte 58 before || has_byte 91 hostport || has_byte 93 hostport then None else Some before
  end.

Definition remoteAddress (address : string) : string :=
  match SplitHost address with
  | Some host => if host != "" then host else if address == "" then "unknown" else address
  | None => if address == "" then "unknown" else address
  end.

Example remote_ex : map remoteAddress ["10.0.0.7:4711"; "[::1]:80"; ":80"; "::1"; ""; "pipe"]
  = ["10.0.0.7"; "::1"; ":80"; "::1"; "unknown"; "pipe"].
Proof. vm_compute. reflexivity. Qed.

(** * Routes *)

Inductive Segment := Lit (text : string) | Wild.

(** The values of the wildcards, when the path matches; a wildcard matches one segment that is not empty. *)
Fixpoint match_segments (pattern : list Segment) (path : list string) : option (list string) :=
  match pattern, path with
  | [], [] => Some []
  | Lit text :: pattern', segment :: path' => if segment == text then match_segments pattern' path' else None
  | Wild :: pattern', segment :: path' => if segment == "" then None else cons segment <$> match_segments pattern' path'
  | _, _ => None
  end.

Section Routes.
Context `{RangeOrder} `{NameValidation}.
Variable c : ServerConfig.

(** A handler: the principal and the request, and the values of the path's wildcards, of which there is at
    most one. *)
Definition Handler : Type := option Principal → Request → string → H unit.

(** [mux.HandleFunc(pattern, requireRole(role, handler))]; [None] is a route without a role. *)
Record Route := mkRoute { route_Method : string; route_Pattern : list Segment; route_Role : option string; route_Handler : Handler }.

Definition plain (h : H unit) : Handler := λ _ _ _, h.
Definition by_principal (h : option Principal → H unit) : Handler := λ p _ _, h p.
Definition by_request (h : option Principal → Request → H unit) : Handler := λ p r _, h p r.
Definition by_id (h : option Principal → string → H unit) : Handler := λ p _ id, h p id.

Definition viewer : option string := Some RoleViewer.
Definition operator : option string := Some RoleOperator.
Definition approver : option string := Some RoleApprover.
Definition administrator : option string := Some RoleAdministrator.

Definition routes : list Route := [
  mkRoute "GET" [Lit "health"; Lit "live"] None (plain liveness);
  mkRoute "GET" [Lit "health"; Lit "ready"] None (plain (readiness c));
  mkRoute "GET" [Lit "auth"; Lit "config"] None (plain (authConfig c));
  mkRoute "GET" [Lit "api"; Lit "health"] viewer (plain (health c));
  mkRoute "GET" [Lit "api"; Lit "metrics"] viewer (plain prometheusMetrics);
  mkRoute "GET" [Lit "api"; Lit "action-catalog"] viewer (plain actionCatalog);
  mkRoute "GET" [Lit "api"; Lit "dashboard"] viewer (by_principal (dashboard c));
  mkRoute "GET" [Lit "api"; Lit "findings"] viewer (by_request (listFindings c));
  mkRoute "GET" [Lit "api"; Lit "findings"; Wild] viewer (by_id (getFinding c));
  mkRoute "GET" [Lit "api"; Lit "managed-resources"] viewer (by_principal (listManagedResources c));
  mkRoute "PATCH" [Lit "api"; Lit "findings"; Wild; Lit "status"] operator (updateFindingStatus c);
  mkRoute "GET" [Lit "api"; Lit "exceptions"] viewer (by_principal (listExceptions c));
  mkRoute "POST" [Lit "api"; Lit "exceptions"] operator (by_request (createException c));
  mkRoute "DELETE" [Lit "api"; Lit "exceptions"; Wild] operator (by_id (deleteException c));
  mkRoute "POST" [Lit "api"; Lit "remediation-plans"; Lit "preview"] operator (by_request (previewRemediationPlan c));
  mkRoute "POST" [Lit "api"; Lit "remediation-plans"] operator (by_request (createRemediationPlan c));
  mkRoute "GET" [Lit "api"; Lit "remediation-plans"; Wild; Lit "diff"] viewer (by_id (getRemediationPlanDiff c));
  mkRoute "POST" [Lit "api"; Lit "remediation-plans"; Wild; Lit "execute"] operator (executeRemediationPlan c);
  mkRoute "GET" [Lit "api"; Lit "remediation-runs"; Wild] viewer (by_id (getRemediationRun c));
  mkRoute "POST" [Lit "api"; Lit "remediation-runs"; Wild; Lit "rollback"] operator (rollbackRemediationRun c);
  mkRoute "POST" [Lit "api"; Lit "approvals"; Wild; Lit "approve"] approver (λ p r id, decideApproval c p r id true);
  mkRoute "POST" [Lit "api"; Lit "approvals"; Wild; Lit "reject"] approver (λ p r id, decideApproval c p r id false);
  mkRoute "GET" [Lit "api"; Lit "audit-events"] viewer (by_principal (auditEvents c));
  mkRoute "GET" [Lit "api"; Lit "evidence-bundles"; Wild] viewer (by_id (evidenceBundle c));
  mkRoute "GET" [Lit "api"; Lit "integrations"] viewer (by_principal (integrations c));
  mkRoute "GET" [Lit "api"; Lit "integrations"; Wild; Lit "health"] viewer (by_id (integrationHealth c));
  mkRoute "GET" [Lit "api"; Lit "experiments"] viewer (by_principal (experiments c));
  mkRoute "POST" [Lit "api"; Lit "experiments"; Wild; Lit "runs"] operator (startExperiment c);
  mkRoute "GET" [Lit "api"; Lit "experiment-runs"] viewer (by_principal (listExperimentRuns c));
  mkRoute "GET" [Lit "api"; Lit "experiment-runs"; Wild] viewer (by_id (getExperimentRun c));
  mkRoute "POST" [Lit "api"; Lit "experiment-runs"; Wild; Lit "approve"] approver (λ p r id, decideExperimentRun c p r id true);
  mkRoute "POST" [Lit "api"; Lit "experiment-runs"; Wild; Lit "reject"] approver (λ p r id, decideExperimentRun c p r id false);
  mkRoute "POST" [Lit "api"; Lit "experiment-runs"; Wild; Lit "execute"] operator (by_id (executeExperimentRun c));
  mkRoute "POST" [Lit "api"; Lit "experiment-runs"; Wild; Lit "abort"] operator (abortExperimentRun c);
  mkRoute "GET" [Lit "api"; Lit "settings"; Lit "model-providers"] administrator (plain getModelProviders);
  mkRoute "PUT" [Lit "api"; Lit "settings"; Lit "model-providers"] administrator (by_request (putModelProviders c));
  mkRoute "PUT" [Lit "api"; Lit "settings"; Lit "model-providers"; Wild; Lit "secret"] administrator (putModelProviderSecret c)
].

(** A pattern for GET also serves HEAD. *)
Definition method_matches (route : Route) (method : string) : bool :=
  (route_Method route == method) || ((route_Method route == "GET") && (method == "HEAD")).

Definition path_matches (r : Request) (route : Route) : bool :=
  bool_decide (is_Some (match_segments (route_Pattern route) (req_Segments r))).

Definition requireRole (role : option string) (p : option Principal) (next : H unit) : H unit :=
  match role with
  | None => next
  | Some role =>
      match p with
      | None => writeError 401 ErrUnauthenticated
      | Some principal => if HasRole principal role then next else writeError 403 ErrUnauthorized
      end
  end.

(** [http.Error] *)
Definition http_error (status : Z) (text : string) : H unit :=
  set_header "Content-Type" "text/plain; charset=utf-8";;
  set_header "X-Content-Type-Options" "nosniff";;
  writeJSON status (PText (text +:+ newline)).

(** The methods of the patterns that match the path, for the [Allow] header. *)
Definition allowed_methods (r : Request) : list string :=
  sort_slice String.ltb (remove_dups (flat_map
    (λ route, if path_matches r route then
                if route_Method route == "GET" then ["GET"; "HEAD"] else [route_Method route]
              else []) routes)).

Definition route_of (r : Request) : option Route :=
  List.find (λ route, path_matches r route && method_matches route (req_Method r)) routes.

Definition mux (p : option Principal) (r : Request) : H unit :=
  match route_of r with
  | Some route =>
      requireRole (route_Role route) p
        (route_Handler route p r (hd "" (default [] (match_segments (route_Pattern route) (req_Segments r)))))
  | None =>
      match allowed_methods r with
      | [] => http_error 404 "404 page not found"
      | methods => set_header "Allow" (Join methods ", ");; http_error 405 "Method Not Allowed"
      end
  end.

(** * Middleware *)

Definition withJSON (next : H unit) : H unit := set_header "Content-Type" "application/json";; next.

Definition withRateLimit (p : option Principal) (r : Request) (next : H unit) : H unit :=
  let key := match p with Some principal => "subject:" +:+ principal_Subject principal | None => remoteAddress (req_RemoteAddr r) end in
  '(allowed, retryAfter) ← perform_event (LimiterAllow key);
  if (allowed : bool) then next
  else
    set_header "Retry-After" (Itoa (retry_seconds retryAfter));;
    writeError 429 (Errorf "request rate limit exceeded").

Definition challenge (suffix : string) : string := requote ("Bearer realm='kubeathrix'" +:+ suffix).

Definition withAuthentication (r : Request) (next : option Principal → H unit) : H unit :=
  if negb (HasPrefix (req_Path r) "/api/") then next None
  else if cfg_InsecureDevAuth c then next (Some DevelopmentPrincipal)
  else if negb (cfg_Authenticator c) then writeError 503 (Errorf "authentication is not configured")
  else
    match Fields (TrimSpace (header_of r "Authorization")) with
    | [scheme; token] =>
        if negb (EqualFold scheme "Bearer") || (token == "") then
          set_header "WWW-Authenticate" (challenge "");; writeError 401 ErrUnauthenticated
        else
          verified ← try_call (VerifyToken token);
          match verified with
          | Ok principal => next (Some principal)
          | Err _ =>
              set_header "WWW-Authenticate" (challenge ", error='invalid_token'");; writeError 401 ErrUnauthenticated
          end
    | _ => set_header "WWW-Authenticate" (challenge "");; writeError 401 ErrUnauthenticated
    end.

(** The counters see how a request ended, unless it panicked. *)
Definition withRequestLogging (next : H unit) : H unit := λ w,
  prog_bind (λ wr,
    match wr.2 with
    | inl (Responded status payload) => Vis (MetricsCount status) (λ _, Ret (wr.1, inl (Responded status payload)))
    | _ => Ret wr
    end) (next w).

Definition withRecovery (next : H unit) : H unit := λ w,
  prog_bind (λ wr,
    match wr.2 with
    | inl (Panicked _) => Ret (wr.1, inl (Responded 500 (error_payload wr.1 500 (Errorf "internal server error"))))
    | _ => Ret wr
    end) (next w).

Definition security_headers : Headers := list_to_map [
  ("X-Content-Type-Options", "nosniff"); ("X-Frame-Options", "DENY"); ("Referrer-Policy", "no-referrer");
  ("Permissions-Policy", "camera=(), microphone=(), geolocation=()");
  ("Content-Security-Policy", "default-src 'none'; frame-ancestors 'none'");
  ("Strict-Transport-Security", "max-age=31536000; includeSubDomains"); ("Cache-Control", "no-store")].
Definition withSecurityHeaders (next : H unit) : H unit := λ w, next (security_headers ∪ w).

Definition withRequestID (r : Request) (next : H unit) : H unit :=
  let requestID := TrimSpace (header_of r "X-Request-Id") in
  requestID ← (if validRequestID requestID then mret requestID else perform_event NewRequestID);
  set_header "X-Request-ID" requestID;;
  next.

Definition handler (r : Request) : H unit :=
  withRequestID r (withSecurityHeaders (withRecovery (withRequestLogging
    (withAuthentication r (λ p, withRateLimit p r (withJSON (mux p r))))))).

(** Serving a request: every handler has written a response when it returns. *)
Definition ServeHTTP (r : Request) : prog ServerE Response :=
  prog_bind (λ wr,
    match wr.2 with
    | inl (Responded status payload) => Ret (mkResponse status wr.1 payload)
    | inl (Panicked _) => Ret (mkResponse 500 wr.1 PNothing)
    | inr _ => Ret (mkResponse 200 wr.1 PNothing)
    end) (handler r ∅).
End Routes.
