(* ===== verification/ServerPolicy.v ===== *)
(** The access policy of the HTTP API: what has to have happened before a handler makes a call, and before
    it shows something, in terms of what the request itself did so far; and the rules to check a handler
    against it. *)
From S2P Require Import Prelude GoLib GoDuration Core Planner Store Correlation Interaction Kube.
From S2P Require Import Principal ManagedResources Limiter Listing RequestBody Repository Http Server.
From S2P Require Import Routes.

Local Open Scope Z_scope.

Abbreviation happened_in e x h := (Occ (E := ServerE) _ e x ∈ h) (only parsing).

(** The token of the [Authorization] header. *)
Definition bearer_token (r : Request) : option string :=
  match Fields (TrimSpace (header_of r "Authorization")) with
  | [scheme; token] => if EqualFold scheme "Bearer" && (token != "") then Some token else None
  | _ => None
  end.

Section Policy.
Variables (c : ServerConfig) (r : Request).
Implicit Types (h : history ServerE) (p : Principal).

(** ** Who *)

(** The authenticator accepted the token of the request as [p]'s; without authentication everybody is the
    development principal. *)
Definition authenticated h p : Prop :=
  if cfg_InsecureDevAuth c then p = DevelopmentPrincipal
  else ∃ token, bearer_token r = Some token ∧ happened_in (VerifyToken token) (Ok p) h.

(** ** What *)

(** [finding] is what one of the sources of findings answers for [id]. *)
Definition obtained h id finding : Prop :=
  happened_in (WorkflowGetFinding id) (Ok finding) h ∨
  happened_in (Repo (RepoGetFinding id)) (Ok finding) h ∨
  (finding_ID finding = id ∧
   ((∃ s, happened_in InspectorSnapshot (Ok s) h ∧ finding ∈ snapshot_Findings s) ∨
    (∃ collection, happened_in CollectAdapters collection h ∧ finding ∈ collection_Findings collection))).

Definition finding_accessible h p id : Prop :=
  ∃ finding, obtained h id finding ∧ findingAllowed p (cfg_ClusterID c) finding = true.

(** The finding the stored plan is for. *)
Definition plan_accessible h p planID : Prop :=
  ∃ plan, happened_in (Repo (RepoGetRemediationPlan planID)) (Ok plan) h ∧ finding_accessible h p (plan_FindingID plan).

Definition cluster_accessible p : Prop := CanAccessCluster p (cfg_ClusterID c) = true.
Definition namespace_accessible p namespace : Prop := CanAccessNamespace p (cfg_ClusterID c) namespace = true.
Definition scope_accessible h p scope : Prop := finding_accessible h p scope ∨ cluster_accessible p.

(** A chaos run read by the request, in a namespace [p] may use. *)
Definition chaos_accessible h p id : Prop :=
  ∃ run, happened_in (ChaosGet id) (Ok run) h ∧ namespace_accessible p (ref_Namespace (chaos_Resource run)).

(** [plan] is what the repository answered to the request's creation, with or without an analysis added. *)
Definition plan_created h p finding plan : Prop :=
  ∃ key plan0, happened_in (Repo (RepoCreateRemediationPlanFromFinding finding (Actor p) key)) (Ok plan0) h ∧
    plan = plan0 <| plan_AI := plan_AI plan |> ∧ findingAllowed p (cfg_ClusterID c) finding = true.

(** A finding just observed, or labelled for a principal that may see it. *)
Definition mirrored_finding h p finding : Prop :=
  (∃ s, happened_in InspectorSnapshot (Ok s) h ∧ finding ∈ snapshot_Findings s) ∨
  (∃ collection, happened_in CollectAdapters collection h ∧ finding ∈ collection_Findings collection) ∨
  (∃ findings, happened_in WorkflowListFindings (Ok findings) h ∧ finding ∈ findings) ∨
  findingAllowed p (cfg_ClusterID c) finding = true.

Definition mirrored_run h p run : Prop :=
  (∃ runs, happened_in WorkflowListRuns (Ok runs) h ∧ run ∈ runs) ∨
  (∃ id, happened_in (WorkflowGetRun id) (Ok run) h ∧ plan_accessible h p (run_PlanID run)).

Definition listed_exception h p id : Prop :=
  ∃ items exception, happened_in (Repo RepoListExceptions) (Ok items) h ∧ exception ∈ items ∧
    exception_ID exception = id ∧ scope_accessible h p (exception_Scope exception).

Definition created_exception h p exception : Prop :=
  ∃ asked, happened_in (Repo (RepoCreateException asked (Actor p))) (Ok exception) h ∧
    scope_accessible h p (exception_Scope asked).

(** ** The duties of every call *)

Definition repo_role {X} (e : RepositoryE X) : option Role :=
  match e with
  | RepoHealth => None
  | RepoPreviewRemediationPlan _ _ | RepoCreateRemediationPlanFromFinding _ _ _ | RepoSyncRemediationPlan _
  | RepoExecuteRemediationPlan _ _ | RepoRequestRollback _ _ | RepoUpdateFindingStatus _ _ _ _
  | RepoCreateException _ _ | RepoDeleteException _ _ => Some RoleOperator
  | RepoApprove _ _ _ | RepoReject _ _ _ => Some RoleApprover
  | RepoGetModelProviders | RepoSaveModelProviders _ | RepoRecordAuditEvent _ => Some RoleAdministrator
  | _ => Some RoleViewer
  end.

(** The role a call needs; health checks, the clock and the server's own bookkeeping need none. *)
Definition call_role {X} (e : ServerE X) : option Role :=
  match e with
  | Repo e => repo_role e
  | WorkflowHealth | ChaosHealth | VerifyToken _ | ServerNow | NewRequestID | LimiterAllow _ | MetricsCount _ => None
  | Notify _ | AlreadyProcessed _ | MarkProcessed _ => None
  | WorkflowCreatePlan _ _ _ | WorkflowRequestExecution _ _ | WorkflowRequestRollback _ _ | WorkflowCreateException _
  | WorkflowDeleteException _ | WorkflowSetFindingStatus _ _ _ _ | Analyze _ _
  | ChaosTargetNamespace _ | ChaosRequest _ _ _ | ChaosExecute _ _ | ChaosAbort _ _ _ => Some RoleOperator
  | WorkflowDecideApproval _ _ _ _ | ChaosApprove _ _ _ | ChaosReject _ _ _ => Some RoleApprover
  | UpsertSecret _ _ _ _ => Some RoleAdministrator
  | _ => Some RoleViewer
  end.

Definition repo_scope {X} h p (e : RepositoryE X) : Prop :=
  match e with
  | RepoDashboard | RepoListAuditEvents | RepoEvidenceBundle _ | RepoListIntegrations | RepoIntegrationHealth _ =>
      cluster_accessible p
  | RepoPreviewRemediationPlan id actor => actor = Actor p ∧ finding_accessible h p id
  | RepoCreateRemediationPlanFromFinding finding actor _ =>
      actor = Actor p ∧ findingAllowed p (cfg_ClusterID c) finding = true
  | RepoGetRemediationPlanDiff id => plan_accessible h p id
  | RepoSyncRemediationPlan plan => ∃ finding, plan_created h p finding plan
  | RepoExecuteRemediationPlan id actor => actor = Actor p ∧ plan_accessible h p id
  | RepoRequestRollback id actor => actor = Actor p ∧
      ∃ run, happened_in (WorkflowGetRun id) (Ok run) h ∧ plan_accessible h p (run_PlanID run)
  | RepoSyncFinding finding => mirrored_finding h p finding
  | RepoSyncRemediationRun run => mirrored_run h p run
  | RepoUpdateFindingStatus id _ actor _ => actor = Actor p ∧
      ∃ asked finding, obtained h asked finding ∧ finding_ID finding = id ∧ findingAllowed p (cfg_ClusterID c) finding = true
  | RepoCreateException exception actor => actor = Actor p ∧ scope_accessible h p (exception_Scope exception)
  | RepoDeleteException id actor => actor = Actor p ∧
      (listed_exception h p id ∨ ∃ exception, created_exception h p exception ∧ exception_ID exception = id)
  | RepoApprove id actor reason | RepoReject id actor reason =>
      actor = Actor p ∧ reason ≠ "" ∧ ∃ planID, id = "approval-" +:+ planID ∧ plan_accessible h p planID
  | RepoRecordAuditEvent event => audit_Actor event = Actor p
  | _ => True
  end.

Definition call_scope {X} h p (e : ServerE X) : Prop :=
  match e with
  | Repo e => repo_scope h p e
  | WorkflowListRuns | WorkflowListApprovals => cluster_accessible p
  | WorkflowRenderDiff plan => ∃ id, happened_in (Repo (RepoGetRemediationPlan id)) (Ok plan) h ∧ plan_accessible h p id
  | WorkflowCreatePlan finding plan actor => actor = Actor p ∧ plan_created h p finding plan
  | WorkflowDecideApproval id _ actor reason =>
      actor = Actor p ∧ reason ≠ "" ∧ ∃ planID, id = "approval-" +:+ planID ∧ plan_accessible h p planID
  | WorkflowRequestExecution id actor => actor = Actor p ∧ plan_accessible h p id
  | WorkflowRequestRollback id actor => actor = Actor p ∧
      ∃ run, happened_in (WorkflowGetRun id) (Ok run) h ∧ plan_accessible h p (run_PlanID run)
  | WorkflowCreateException exception => created_exception h p exception
  | WorkflowDeleteException id => listed_exception h p id
  | WorkflowSetFindingStatus finding _ actor _ => actor = Actor p ∧ findingAllowed p (cfg_ClusterID c) finding = true
  | ChaosRequest _ manifest actor => actor = Actor p ∧
      ∃ namespace, happened_in (ChaosTargetNamespace manifest) (Ok namespace) h ∧ namespace_accessible p namespace
  | ChaosApprove id actor _ | ChaosReject id actor _ | ChaosExecute id actor | ChaosAbort id actor _ =>
      actor = Actor p ∧ chaos_accessible h p id
  | Analyze finding _ => findingAllowed p (cfg_ClusterID c) finding = true
  | _ => True
  end.

Definition permitted X h (e : ServerE X) : Prop :=
  match e with VerifyToken token => bearer_token r = Some token | _ => True end ∧
  match call_role e with
  | None => True
  | Some role => ∃ p, authenticated h p ∧ HasRole p role = true ∧ call_scope h p e
  end.

(** ** What a response shows *)

Definition findings_allowed p (findings : list Finding) : Prop :=
  Forall (λ finding, findingAllowed p (cfg_ClusterID c) finding = true) findings.

(** Where the run shown comes from: the plan it executes is accessible, or it answers a request for one. *)
Definition run_accessible h p run : Prop :=
  plan_accessible h p (run_PlanID run) ∨
  (∃ id, plan_accessible h p id ∧
     (happened_in (WorkflowRequestExecution id (Actor p)) (Ok run) h ∨
      happened_in (Repo (RepoExecuteRemediationPlan id (Actor p))) (Ok run) h)) ∨
  (∃ id current, happened_in (WorkflowGetRun id) (Ok current) h ∧ plan_accessible h p (run_PlanID current) ∧
     happened_in (WorkflowRequestRollback id (Actor p)) (Ok run) h).

Definition chaos_run_accessible h p run : Prop :=
  (∃ id, chaos_accessible h p id ∧
     (happened_in (ChaosGet id) (Ok run) h ∨ happened_in (ChaosExecute id (Actor p)) (Ok run) h ∨
      ∃ reason, happened_in (ChaosApprove id (Actor p) reason) (Ok run) h ∨
                happened_in (ChaosReject id (Actor p) reason) (Ok run) h ∨
                happened_in (ChaosAbort id (Actor p) reason) (Ok run) h)) ∨
  (∃ id manifest namespace, happened_in (ChaosTargetNamespace manifest) (Ok namespace) h ∧
     namespace_accessible p namespace ∧ happened_in (ChaosRequest id manifest (Actor p)) (Ok run) h).

Definition managed_visible p (m : managedResourceListResponse) : Prop :=
  cluster_accessible p ∨
  (Forall (λ resource, resource_Namespace resource ≠ "" ∧ namespace_accessible p (resource_Namespace resource))
     (mlist_Resources m) ∧
   Forall (λ relationship, ∃ from to, from ∈ mlist_Resources m ∧ to ∈ mlist_Resources m ∧
     refers_to (relationship_From relationship) from = true ∧ refers_to (relationship_To relationship) to = true)
     (mlist_Relationships m) ∧
   findings_allowed p (mlist_Findings m) ∧ mlist_Warnings m = []).

(** What only a principal that may see it is shown. *)
Definition visible h p (payload : Payload) : Prop :=
  match payload with
  | PDashboard _ | PAudit _ | PBundle _ | PIntegrations _ | PIntegrationHealth _ | PExperiments _ => cluster_accessible p
  | PFindings l => findings_allowed p (findingList_Items l) ∧ Forall (λ group, findings_allowed p (group_Findings group)) (findingList_Groups l)
  | PFinding finding =>
      findingAllowed p (cfg_ClusterID c) finding = true ∨
      ∃ f status reason, findingAllowed p (cfg_ClusterID c) f = true ∧
        happened_in (Repo (RepoUpdateFindingStatus (finding_ID f) status (Actor p) reason)) (Ok finding) h
  | PManaged m => managed_visible p m
  | PExceptions items => cluster_accessible p ∨ Forall (λ exception, finding_accessible h p (exception_Scope exception)) items
  | PException exception => created_exception h p exception
  | PPreview _ => ∃ id, finding_accessible h p id
  | PPlan plan => ∃ finding, plan_created h p finding plan
  | PDiff _ => ∃ id, plan_accessible h p id
  | PRun run => run_accessible h p run
  | PApproval _ => ∃ id, plan_accessible h p id
  | PChaosRun run => chaos_run_accessible h p run
  | PChaosRuns runs => Forall (λ run, namespace_accessible p (ref_Namespace (chaos_Resource run))) runs
  | PProviders _ | PSecretStored _ _ _ => HasRole p RoleAdministrator = true
  | _ => True
  end.

Definition public (payload : Payload) : bool :=
  match payload with PNothing | PError _ _ _ | PStrings _ | PText _ => true | _ => false end.

Definition disclosable h (payload : Payload) : Prop :=
  public payload = false → ∃ p, authenticated h p ∧ HasRole p RoleViewer = true ∧ visible h p payload.

(** ** Nothing of this is forgotten *)

Section Later.
Context {h h' : history ServerE} (Hh : suffix h h').

Lemma authenticated_later p : authenticated h p → authenticated h' p.
Proof. unfold authenticated. case_match; [done|]. intros (token & Ht & Hin). exists token. split; [done | by eapply in_later]. Qed.
Lemma obtained_later id finding : obtained h id finding → obtained h' id finding.
Proof.
  intros [Hin|[Hin|(Hid & [(s & Hin & Hf)|(s & Hin & Hf)])]];
    [left | right; left | right; right; split; [done|]; left; exists s | right; right; split; [done|]; right; exists s];
    try (split; [|done]); by eapply in_later.
Qed.
Lemma finding_accessible_later p id : finding_accessible h p id → finding_accessible h' p id.
Proof. intros (finding & Hf & Ha). exists finding. split; [by apply obtained_later | done]. Qed.
Lemma plan_accessible_later p id : plan_accessible h p id → plan_accessible h' p id.
Proof. intros (plan & Hp & Hf). exists plan. split; [by eapply in_later | by apply finding_accessible_later]. Qed.
Lemma scope_accessible_later p scope : scope_accessible h p scope → scope_accessible h' p scope.
Proof. intros [Hf|Hc]; [left; by apply finding_accessible_later | by right]. Qed.
Lemma chaos_accessible_later p id : chaos_accessible h p id → chaos_accessible h' p id.
Proof. intros (run & Hr & Hn). exists run. split; [by eapply in_later | done]. Qed.
Lemma plan_created_later p finding plan : plan_created h p finding plan → plan_created h' p finding plan.
Proof. intros (key & plan0 & Hin & Hp). exists key, plan0. split; [by eapply in_later | done]. Qed.
Lemma created_exception_later p exception : created_exception h p exception → created_exception h' p exception.
Proof. intros (asked & Hin & Hs). exists asked. split; [by eapply in_later | by apply scope_accessible_later]. Qed.
Lemma listed_exception_later p id : listed_exception h p id → listed_exception h' p id.
Proof. intros (items & e & Hin & He & Hid & Hs). exists items, e. split_and!; [by eapply in_later | done.. | by apply scope_accessible_later]. Qed.
End Later.

End Policy.

Create HintDb policy discriminated.
#[export] Hint Resolve authenticated_later finding_accessible_later plan_accessible_later scope_accessible_later
  chaos_accessible_later plan_created_later created_exception_later listed_exception_later obtained_later : policy.
