(* ===== verification/Agent.v ===== *)
(** The AI agent, [services/api/internal/agent/agent.go]: a cycle that looks at the riskiest findings, plans
    for them and, where it is configured to, requests the execution of plans without risk. The loop around
    the cycle, its ticker and logging are left out. *)
From S2P Require Import Prelude GoLib GoDuration Core Planner Store Interaction Listing Repository AgentData Http.

Local Open Scope Z_scope.

Section Agent.
Variable a : Agent.
Let config : AgentConfig := agent_config a.
Let deps : Dependencies := agent_dependencies a.
Abbreviation op := (P ServerE) (only parsing).

Definition notify (kind message : string) (finding : Finding) (plan : option RemediationPlan) (run : option RemediationRun)
    (report : CycleReport) : op CycleReport :=
  if negb (dep_Notifier deps) then mret report
  else
    now ← ask ServerNow;
    sent ← attempt (call (Notify (mkAgentEvent kind message (Some finding) plan run now)));
    mret (match sent with
          | Ok _ => report <| report_Notifications := report_Notifications report + 1 |>
          | Err _ => report
          end).

Definition failed (message : string) (err : GoError) (report : CycleReport) : CycleReport :=
  report <| report_Errors := report_Errors report ++ [message +:+ ": " +:+ error_text err] |>.

Definition shouldAutoExecute (plan : RemediationPlan) : bool :=
  agent_AutoExecuteTierA config && (plan_RiskTier plan == RiskTierA) && negb (policy_Required (plan_ApprovalPolicy plan)).

Definition requestExecution (planID : string) : op RemediationRun :=
  (if dep_WorkflowClient deps then call (WorkflowRequestExecution planID (agent_Actor config));; mret tt else mret tt);;
  call (Repo (RepoExecuteRemediationPlan planID (agent_Actor config))).

(** The analysis of a plan that has none, written back. *)
Definition analyse (finding : Finding) (plan : RemediationPlan) (report : CycleReport) :
    op (CycleReport + RemediationPlan) :=
  match plan_AI plan with
  | Some _ => mret (inr plan)
  | None =>
      analyzed ← attempt (call (Analyze finding plan));
      match analyzed with
      | Err err =>
          let report := failed ("analyze finding " +:+ finding_ID finding) err report in
          report ← notify "ai.analysis_failed" "OpenAI analysis failed; deterministic plan remains available" finding
                     (Some plan) None report;
          mret (inl report)
      | Ok analysis =>
          let plan := plan <| plan_AI := Some analysis |> in
          synced ← attempt (call (Repo (RepoSyncRemediationPlan plan)));
          match synced with
          | Err err => mret (inl (failed ("persist AI plan " +:+ plan_ID plan) err report))
          | Ok _ => mret (inr plan)
          end
      end
  end.

Definition persist_plan (finding : Finding) (plan : RemediationPlan) (report : CycleReport) : op (CycleReport + unit) :=
  if dep_WorkflowClient deps then
    persisted ← attempt (call (WorkflowCreatePlan finding plan (agent_Actor config)));
    match persisted with
    | Ok _ => mret (inr tt)
    | Err err =>
        let report := failed ("persist workflow plan " +:+ plan_ID plan) err report in
        report ← notify "agent.error" "AI agent could not persist the workflow plan" finding (Some plan) None report;
        mret (inl report)
    end
  else mret (inr tt).

(** The execution of a plan that may run by itself, and the news about the others. *)
Definition follow_up (finding : Finding) (plan : RemediationPlan) (report : CycleReport) : op CycleReport :=
  if shouldAutoExecute plan then
    requested ← attempt (requestExecution (plan_ID plan));
    match requested with
    | Err err =>
        let report := failed ("request execution " +:+ plan_ID plan) err report in
        notify "agent.error" "AI agent could not request safe Tier A execution" finding (Some plan) None report
    | Ok run =>
        let report := report <| report_Executions := report_Executions report + 1 |> in
        notify "remediation.execution_requested" "AI agent requested safe Tier A execution" finding (Some plan) (Some run) report
    end
  else if policy_Required (plan_ApprovalPolicy plan) then
    notify "approval.required" "AI agent prepared a plan that requires human approval" finding (Some plan) None report
  else mret report.

Definition processFinding (finding : Finding) : op CycleReport :=
  report ← notify "finding.detected" "AI agent detected an actionable finding" finding None None zero_CycleReport;
  if negb (agent_AutoPlan config) then mret report
  else
    created ← attempt (call (Repo (RepoCreateRemediationPlanFromFinding finding (agent_Actor config) (idempotencyKey finding))));
    match created with
    | Err err =>
        let report := failed ("create plan for " +:+ finding_ID finding) err report in
        notify "agent.error" "AI agent could not create a typed plan" finding None None report
    | Ok plan =>
        let report := report <| report_PlansCreated := report_PlansCreated report + 1 |> in
        analysed ← analyse finding plan report;
        match analysed with
        | inl report => mret report
        | inr plan =>
            persisted ← persist_plan finding plan report;
            match persisted with
            | inl report => mret report
            | inr _ =>
                report ← notify "remediation.plan.created" "AI agent created a typed remediation plan" finding (Some plan) None report;
                follow_up finding plan report
            end
        end
    end.

(** Mirroring the observations; the errors are collected. *)
Fixpoint sync_all (label : string) (findings : list Finding) : op (list GoError) :=
  match findings with
  | [] => mret []
  | finding :: rest =>
      synced ← attempt (call (Repo (RepoSyncFinding finding)));
      errors ← sync_all label rest;
      mret (match synced with
            | Ok _ => errors
            | Err err => Contextf (label +:+ " " +:+ finding_ID finding) err :: errors
            end)
  end.

Definition syncObservedFindings : op (list GoError) :=
  native ← (if dep_SnapshotSource deps then
              observed ← attempt (call InspectorSnapshot);
              match observed with
              | Err err => mret [Contextf "snapshot" err]
              | Ok s => sync_all "sync native finding" (snapshot_Findings s)
              end
            else mret []);
  adapted ← (if dep_AdapterManager deps then
               collection ← ask CollectAdapters;
               sync_all "sync adapter finding" (collection_Findings collection)
             else mret []);
  mret (native ++ adapted).

Definition add_report (report result : CycleReport) : CycleReport :=
  mkCycleReport (report_ObservedFindings report) (report_Processed report + 1)
    (report_PlansCreated report + report_PlansCreated result) (report_Executions report + report_Executions result)
    (report_Notifications report + report_Notifications result) (report_Errors report ++ report_Errors result).

Fixpoint process_all (findings : list Finding) (report : CycleReport) : op CycleReport :=
  match findings with
  | [] => mret report
  | finding :: rest =>
      let key := findingEventKey finding in
      processed ← ask (AlreadyProcessed key);
      if (processed : bool) then process_all rest report
      else
        result ← processFinding finding;
        match report_Errors result with [] => ask (MarkProcessed key) | _ => mret tt end;;
        process_all rest (add_report report result)
  end.

(** The riskiest findings, as many as a cycle takes up. *)
Definition cycle_findings (findings : list Finding) : list Finding :=
  take (Z.to_nat (agent_MaxFindingsPerCycle config)) (sort_slice riskier findings).

Definition runCycle : op CycleReport :=
  errors ← syncObservedFindings;
  let report := match errors with
                | [] => zero_CycleReport
                | _ => zero_CycleReport <| report_Errors := [Join (map error_text errors) newline] |>
                end in
  listed ← attempt (call (Repo (RepoListFindings (zero_FindingFilter <| filter_MinRisk := agent_MinRiskScore config |>))));
  match listed with
  | Err err => mret (report <| report_Errors := report_Errors report ++ [error_text err] |>)
  | Ok findings =>
      let findings := activeFindings findings (agent_MinRiskScore config) in
      process_all (cycle_findings findings) (report <| report_ObservedFindings := Z.of_nat (length findings) |>)
  end.

End Agent.
