(* ===== verification/AgentProps.v ===== *)
(** What the AI agent may do by itself: which calls a cycle makes, on which findings and plans, in whose name,
    and how many findings it takes up. *)
From S2P Require Import Prelude GoLib GoDuration Core Planner Store Interaction Listing Repository AgentData Http ServerPolicy.
From S2P Require Import Runes Server Agent.

Local Open Scope Z_scope.

Section Autonomy.
Variable a : Agent.
Implicit Types (h : history ServerE).
Let config : AgentConfig := agent_config a.

(** [finding] was listed and is one the agent takes up. *)
Definition taken_up h finding : Prop :=
  active (agent_MinRiskScore config) finding = true ∧
  ∃ filter findings, happened_in (Repo (RepoListFindings filter)) (Ok findings) h ∧ finding ∈ findings.

(** [plan] is the repository's answer to the agent's request for [finding]. *)
Definition planned_for h finding plan : Prop :=
  happened_in (Repo (RepoCreateRemediationPlanFromFinding finding (agent_Actor config) (idempotencyKey finding))) (Ok plan) h.

(** The same, up to the analysis. *)
Definition agent_plan h finding plan : Prop :=
  ∃ plan0, planned_for h finding plan0 ∧ plan = plan0 <| plan_AI := plan_AI plan |>.

Definition without_risk h id : Prop :=
  agent_AutoExecuteTierA config = true ∧
  ∃ finding plan, agent_plan h finding plan ∧ plan_ID plan = id ∧ plan_RiskTier plan = RiskTierA ∧
    policy_Required (plan_ApprovalPolicy plan) = false.

(** ... and not one it is done with. *)
Definition unprocessed h finding : Prop := happened_in (AlreadyProcessed (findingEventKey finding)) false h.

Definition agent_repo_permitted {X} h (e : RepositoryE X) : Prop :=
  match e with
  | RepoListFindings filter => filter = zero_FindingFilter <| filter_MinRisk := agent_MinRiskScore config |>
  | RepoSyncFinding finding =>
      (∃ s, happened_in InspectorSnapshot (Ok s) h ∧ finding ∈ snapshot_Findings s) ∨
      (∃ collection, happened_in CollectAdapters collection h ∧ finding ∈ collection_Findings collection)
  | RepoCreateRemediationPlanFromFinding finding actor key =>
      agent_AutoPlan config = true ∧ actor = agent_Actor config ∧ key = idempotencyKey finding ∧ taken_up h finding ∧
      unprocessed h finding
  | RepoSyncRemediationPlan plan => ∃ finding, agent_plan h finding plan
  | RepoExecuteRemediationPlan id actor => actor = agent_Actor config ∧ without_risk h id
  | _ => False
  end.

Definition agent_permitted X h (e : ServerE X) : Prop :=
  match e with
  | Repo e => agent_repo_permitted h e
  | InspectorSnapshot | CollectAdapters | ServerNow | Notify _ | AlreadyProcessed _ => True
  | MarkProcessed key => ∃ finding, key = findingEventKey finding ∧ taken_up h finding ∧ unprocessed h finding
  | Analyze finding plan => planned_for h finding plan
  | WorkflowCreatePlan finding plan actor => actor = agent_Actor config ∧ agent_plan h finding plan
  | WorkflowRequestExecution id actor => actor = agent_Actor config ∧ without_risk h id
  | _ => False
  end.

Definition any_answer' X (h : history ServerE) (e : ServerE X) (x : X) : Prop := True.
Abbreviation asafe := (safe agent_permitted any_answer') (only parsing).

Lemma planned_for_later h h' finding plan : suffix h h' → planned_for h finding plan → planned_for h' finding plan.
Proof. intros Hh. by apply in_later. Qed.
Lemma agent_plan_later h h' finding plan : suffix h h' → agent_plan h finding plan → agent_plan h' finding plan.
Proof. intros Hh (plan0 & Hp & Heq). exists plan0. split; [by eapply planned_for_later | done]. Qed.
Lemma without_risk_later h h' id : suffix h h' → without_risk h id → without_risk h' id.
Proof. intros Hh (Ha & finding & plan & Hp & Hrest). split; [done|]. exists finding, plan. split; [by eapply agent_plan_later | done]. Qed.
Lemma taken_up_later h h' finding : suffix h h' → taken_up h finding → taken_up h' finding.
Proof. intros Hh (Ha & filter & findings & Hp & Hin). split; [done|]. exists filter, findings. split; [by eapply in_later | done]. Qed.
Lemma unprocessed_later h h' finding : suffix h h' → unprocessed h finding → unprocessed h' finding.
Proof. intros Hh. by apply in_later. Qed.

Ltac astep := first [safe_pure_step
  | lazymatch goal with
    | |- safe _ _ _ (mbind _ (ask _)) _ => apply safe_then_ask; intros ??; split; [|intros ??]
    | |- safe _ _ _ (mbind _ (call _)) _ => apply safe_then_call; intros ??; split; [|intros ??]
    | |- safe _ _ _ (mbind _ (attempt (call _))) _ => apply safe_then_attempt_call; intros ??; split; [|intros ??]
    | |- safe _ _ _ (call _) _ => apply safe_last_call; intros ??; split; [|intros ??]
    | |- safe _ _ _ (mret _) _ => apply safe_ret_ok; intros ??
    end].

(** ** The parts of a cycle *)

(** The counters stay in order. *)
Definition counted (plans executions : Z) (report : CycleReport) : Prop :=
  report_PlansCreated report = plans ∧ 0 ≤ report_Executions report ≤ executions.

Lemma notify_safe h kind message finding plan run report plans executions :
  counted plans executions report →
  asafe h (notify a kind message finding plan run report) (on_ok (λ _, counted plans executions)).
Proof.
  intros Hc. unfold notify. repeat astep; try exact I; try exact Hc. destruct x0; exact Hc.
Qed.

Lemma counted_more plans plans' executions executions' report :
  plans = plans' → executions ≤ executions' → counted plans executions report → counted plans' executions' report.
Proof. unfold counted. intros -> ? ?. lia. Qed.

Lemma agent_plan_same h finding plan : planned_for h finding plan → agent_plan h finding plan.
Proof. intros Hp. exists plan. split; [done | by destruct plan]. Qed.

Lemma analyse_safe h finding plan report :
  planned_for h finding plan → counted 1 0 report →
  asafe h (analyse a finding plan report)
    (on_ok (λ h' r, match r with inl report => counted 1 0 report | inr plan' => agent_plan h' finding plan' end)).
Proof.
  intros Hp Hc. unfold analyse. destruct (plan_AI plan) as [analysis|] eqn:Hai.
  { astep. eapply agent_plan_later; [eassumption|]. by apply agent_plan_same. }
  astep; [by eapply planned_for_later|]. destruct x as [analysis|err].
  - astep.
    + exists finding, plan. split; [eapply planned_for_later; [|exact Hp]; later | done].
    + destruct x; astep; [|exact Hc]. exists plan. split; [eapply planned_for_later; [|exact Hp]; later | done].
  - eapply safe_then_spec; [by apply notify_safe|]. intros hn r Hr. cbn beta in Hr. by astep.
Qed.

Lemma persist_plan_safe h finding plan report :
  agent_plan h finding plan → counted 1 0 report →
  asafe h (persist_plan a finding plan report)
    (on_ok (λ _ r, match r with inl report => counted 1 0 report | inr _ => True end)).
Proof.
  intros Hp Hc. unfold persist_plan. astep; [|by astep]. astep; [split; [done | by eapply agent_plan_later]|].
  destruct x; [by astep|]. eapply safe_then_spec; [by apply notify_safe|]. intros hn r Hr. by astep.
Qed.

Lemma requestExecution_safe h id : without_risk h id → asafe h (requestExecution a id) (on_ok (λ _ _, True)).
Proof.
  intros Hr. unfold requestExecution. apply safe_then_spec with (Φ := λ h' _, without_risk h' id).
  - astep; [|astep; by eapply without_risk_later]. astep; [split; [done | by eapply without_risk_later]|].
    astep. eapply without_risk_later; [|exact Hr]. later.
  - intros hn [] Hr'. astep; [split; [done | by eapply without_risk_later] | by intros].
Qed.

Lemma follow_up_safe h finding plan report :
  agent_plan h finding plan → counted 1 0 report → asafe h (follow_up a finding plan report) (on_ok (λ _, counted 1 1)).
Proof.
  intros Hp Hc. unfold follow_up. destruct (shouldAutoExecute a plan) eqn:Hauto.
  - apply andb_true_iff in Hauto as [Hauto Hreq]. apply andb_true_iff in Hauto as [Hauto Htier]. split_guards.
    apply safe_then_attempt with (Φ := λ _ _, True).
    { eapply safe_weaken; [|apply requestExecution_safe]; [by intros|]. split; [done|]. exists finding, plan. by split_and!. }
    intros hn r _. destruct r; apply notify_safe; unfold counted in *; cbn; lia.
  - destruct (policy_Required _); [apply notify_safe | astep]; eapply counted_more; [done | | exact Hc | done | | exact Hc]; lia.
Qed.

Lemma processFinding_safe h finding :
  taken_up h finding → unprocessed h finding → asafe h (processFinding a finding)
    (on_ok (λ _ report, 0 ≤ report_PlansCreated report ≤ 1 ∧ 0 ≤ report_Executions report ≤ report_PlansCreated report)).
Proof.
  intros Ht Hu. assert (∀ n report, 0 ≤ n ≤ 1 → counted n n report →
    0 ≤ report_PlansCreated report ≤ 1 ∧ 0 ≤ report_Executions report ≤ report_PlansCreated report) as Hend.
  { unfold counted. intros n report Hn [-> ?]. lia. }
  assert (∀ report, counted 1 0 report → counted 1 1 report) as H1 by (intros; by eapply counted_more; [done | | ]; last done; lia).
  unfold processFinding.
  eapply safe_then_grows; [by apply (notify_safe _ _ _ _ _ _ zero_CycleReport 0 0); repeat split|].
  intros h1 report Hh1 Hc. astep; [astep; by apply (Hend 0)|]. split_guards. astep.
  { split_and!; [done | done | done | eapply taken_up_later; [|exact Ht]; later | eapply unprocessed_later; [|exact Hu]; later]. }
  destruct x as [plan|err].
  2: { eapply safe_weaken; [|apply notify_safe, Hc]. intros hn [r|]; [|done]. by apply (Hend 0). }
  set (report1 := _ <| report_PlansCreated := _ |>).
  assert (counted 1 0 report1) as Hc1 by (unfold counted in *; cbn; lia).
  eapply safe_then_spec; [apply analyse_safe; [by left | exact Hc1]|].
  intros h2 [report2|plan'] Hr; [astep; by apply (Hend 1); auto|].
  eapply safe_then_grows; [apply persist_plan_safe; [exact Hr | exact Hc1]|].
  intros h3 [report3|[]] Hh3 Hr3; [astep; by apply (Hend 1); auto|].
  eapply safe_then_grows; [apply notify_safe, Hc1|]. intros h4 report4 Hh4 Hr4.
  eapply safe_weaken; [|apply follow_up_safe; [eapply agent_plan_later; [|exact Hr]; later | exact Hr4]].
  intros hn [r|]; [|done]. by apply (Hend 1).
Qed.

(** ** The cycle *)

Definition observed h finding : Prop := agent_repo_permitted h (RepoSyncFinding finding).

Lemma observed_later h h' finding : suffix h h' → observed h finding → observed h' finding.
Proof.
  intros Hh [(s & Hs & Hin)|(collection & Hs & Hin)]; [left; exists s | right; exists collection]; split; [|done| |done];
    by eapply in_later.
Qed.

Lemma sync_all_safe h label findings :
  (∀ finding, finding ∈ findings → observed h finding) → asafe h (sync_all label findings) (on_ok (λ _ _, True)).
Proof.
  revert h. induction findings as [|finding findings IH]; intros h Hobs; cbn [sync_all]; [by astep|].
  astep; [eapply observed_later; [eassumption|]; apply Hobs; left|].
  eapply safe_then_spec with (Φ := λ _ _, True); [|intros hn errors _; destruct x; by astep].
  apply IH. intros finding' Hin. eapply observed_later; [|apply Hobs; by right]. later.
Qed.

Lemma syncObservedFindings_safe h : asafe h (syncObservedFindings a) (on_ok (λ _ _, True)).
Proof.
  unfold syncObservedFindings. eapply safe_then_spec with (Φ := λ _ _, True).
  - destruct (dep_SnapshotSource _); [|by astep]. astep; [done|]. destruct x as [s|err]; [|by astep].
    apply sync_all_safe. intros finding Hin. left. exists s. split; [by left | done].
  - intros h1 native _. eapply safe_then_spec with (Φ := λ _ _, True); [|intros; by astep].
    destruct (dep_AdapterManager _); [|by astep]. astep; [done|].
    apply sync_all_safe. intros finding Hin. right. exists x. split; [by left | done].
Qed.

(** [report] counts at most [most] findings. *)
Definition report_within (observed most : Z) (report : CycleReport) : Prop :=
  report_ObservedFindings report = observed ∧
  0 ≤ report_Executions report ≤ report_PlansCreated report ∧
  report_PlansCreated report ≤ report_Processed report ≤ most.

Lemma report_within_add observed most report result :
  report_within observed most report → 0 ≤ report_PlansCreated result ≤ 1 →
  0 ≤ report_Executions result ≤ report_PlansCreated result → report_within observed (most + 1) (add_report report result).
Proof. unfold report_within, add_report. cbn. lia. Qed.

Lemma report_within_more observed most most' report : most ≤ most' → report_within observed most report → report_within observed most' report.
Proof. unfold report_within. lia. Qed.

Lemma process_all_safe h findings report observed most :
  (∀ finding, finding ∈ findings → taken_up h finding) → report_within observed most report →
  asafe h (process_all a findings report) (on_ok (λ _, report_within observed (most + Z.of_nat (length findings)))).
Proof.
  revert h report most. induction findings as [|finding findings IH]; intros h report most Hup Hr; cbn [process_all].
  { astep. by rewrite Z.add_0_r. }
  assert (∀ h', suffix h h' → ∀ finding', finding' ∈ findings → taken_up h' finding') as Hup'.
  { intros h' Hh finding' Hin. eapply taken_up_later; [exact Hh|]. apply Hup. by right. }
  astep; [exact I|]. destruct x.
  - eapply safe_weaken; [|apply IH; [apply Hup'; later | exact Hr]].
    intros hn [r|]; [|done]. cbn. apply report_within_more. lia.
  - eapply safe_then_grows; [apply processFinding_safe; [eapply taken_up_later; [|apply Hup; left]; later | by left]|].
    intros h1 result Hh1 [Hplans Hexec].
    eapply safe_then_grows with (Φ := λ _ _, True).
    { destruct (report_Errors result); [|by astep]. intros hn Hn. split; [|done]. exists finding. split_and!; [done | |].
      - eapply taken_up_later; [|apply Hup; left]. later.
      - eapply unprocessed_later; [|by left]. later. }
    intros h2 [] Hh2 _. eapply safe_weaken; [|apply IH; [apply Hup'; later | by apply report_within_add]].
    intros hn [r|]; [|done]. cbn. apply report_within_more. lia.
Qed.

(** What a cycle reports. *)
Definition report_bounded (report : CycleReport) : Prop :=
  report_within (report_ObservedFindings report)
    (report_ObservedFindings report `min` agent_MaxFindingsPerCycle config) report.

Lemma cycle_findings_taken_up h filter listed finding :
  happened_in (Repo (RepoListFindings filter)) (Ok listed) h →
  finding ∈ cycle_findings a (activeFindings listed (agent_MinRiskScore config)) → taken_up h finding.
Proof.
  intros Hl Hin. unfold cycle_findings in Hin. apply elem_of_take in Hin as (i & Hin & _).
  apply list_elem_of_lookup_2, elem_of_sort_slice in Hin. unfold activeFindings in Hin.
  apply list_elem_of_In, filter_In in Hin as [Hin Ha]. split; [done|]. exists filter, listed.
  split; [done | by apply list_elem_of_In].
Qed.

Lemma runCycle_safe h : 0 < agent_MaxFindingsPerCycle config → asafe h (runCycle a) (on_ok (λ _, report_bounded)).
Proof.
  intros Hmax. unfold runCycle. eapply safe_then_spec; [apply syncObservedFindings_safe|]. intros h1 errors _.
  set (report := match errors with [] => _ | _ => _ end).
  assert (∀ observed, 0 ≤ observed → report_within observed 0 (report <| report_ObservedFindings := observed |>)) as Hz.
  { intros observed Ho. unfold report, report_within. destruct errors; cbn; lia. }
  astep; [done|]. destruct x as [listed|err].
  - eapply safe_weaken; [|apply process_all_safe with (most := 0); [|apply Hz; lia]].
    + intros hn [r|]; [|done]. cbn. intros Hr. assert (Hr' := Hr). destruct Hr' as [Ho _].
      unfold report_bounded. rewrite Ho. eapply report_within_more; [|exact Hr].
      unfold cycle_findings. rewrite length_take, sort_slice_perm. unfold config in *. lia.
    + intros finding Hin. eapply cycle_findings_taken_up; [by left | exact Hin].
  - astep. unfold report_bounded, report_within, report. destruct errors; cbn; lia.
Qed.
End Autonomy.

(** * Configured agents *)

(** What [New] makes of its configuration. *)
Lemma New_config config deps a :
  New config deps = Ok a →
  0 < agent_MaxFindingsPerCycle (agent_config a) ∧ agent_AutoPlan (agent_config a) = agent_AutoPlan config ∧
  agent_AutoExecuteTierA (agent_config a) = agent_AutoPlan config && agent_AutoExecuteTierA config.
Proof.
  unfold New. intros Ha. destruct config as [enabled actor interval risk most plan execute timeout webhook].
  cbn [agent_Enabled] in Ha. destruct enabled, (dep_Repository deps), (dep_Advisor deps); try discriminate.
  assert (∀ x y : Agent, Ok x = Ok y → x = y) as Hinj by congruence. apply Hinj in Ha as <-.
  generalize (5 * Second) as five, Minute as minute. intros five minute. cbn -[TrimSpace].
  destruct (TrimSpace actor == ""); cbn -[TrimSpace]; destruct (interval <=? 0); cbn -[TrimSpace];
    destruct (most <=? 0) eqn:Hmost; cbn -[TrimSpace]; destruct plan; cbn -[TrimSpace];
    destruct (timeout <=? 0); cbn -[TrimSpace]; (split; [lia | split; reflexivity]).
Qed.

(** C4. In every cycle of a configured agent, whatever its components answer and whoever else is at work: a plan
    is requested only with automatic planning on, for a finding the repository listed that is open or in review,
    risky enough, not informational and not done with; only plans made for such findings are written back; an
    execution is requested only with automatic execution on, for a tier A plan that needs no approval, under the
    agent's own name; and nothing is ever approved, rejected or rolled back. *)
Theorem agent_autonomy config deps a h p :
  New config deps = Ok a → performs (runCycle a) h p →
  obeys (agent_permitted a) h ∧
  (agent_AutoPlan config && agent_AutoExecuteTierA config = false →
   ∀ id actor answer, ¬ happened_in (Repo (RepoExecuteRemediationPlan id actor)) answer h).
Proof.
  intros Ha Hp. destruct (New_config _ _ _ Ha) as (Hmax & _ & Hexec).
  destruct (performs_safe (agent_permitted a) any_answer' (runCycle a) (on_ok (λ _, report_bounded a)) h p) as [Ho _];
    [by intros | exact (runCycle_safe a [] Hmax) | exact Hp |].
  split; [exact Ho|]. intros Hoff id actor answer Hin. unfold happened_in in Hin.
  apply list_elem_of_split in Hin as (later & before & ->). apply obeys_at in Ho as [_ [Hauto _]]. congruence.
Qed.

(** A cycle that ends takes up no more findings than it is configured to and no more than it saw, makes at
    most one plan for each, and requests at most one execution per plan. *)
Theorem agent_report_bounds config deps a h report :
  New config deps = Ok a → performs (runCycle a) h (Ret (Ok report)) →
  0 ≤ report_Executions report ≤ report_PlansCreated report ∧
  report_PlansCreated report ≤ report_Processed report ∧
  report_Processed report ≤ report_ObservedFindings report ∧
  report_Processed report ≤ agent_MaxFindingsPerCycle (agent_config a).
Proof.
  intros Ha Hp. destruct (New_config _ _ _ Ha) as (Hmax & _).
  destruct (performs_safe (agent_permitted a) any_answer' (runCycle a) (on_ok (λ _, report_bounded a)) h (Ret (Ok report))) as [_ Hr];
    [by intros | exact (runCycle_safe a [] Hmax) | exact Hp |].
  specialize (Hr h (reflexivity h)). cbn in Hr. unfold report_bounded, report_within in Hr. lia.
Qed.

(** * Keys *)

(** Every byte of [s] may stand in a request identifier. *)
Definition id_bytes (s : string) : Prop := Forall (λ c, request_id_byte c = true) (String.list_ascii_of_string s).

Lemma id_bytes_rev s : id_bytes s → id_bytes (string_rev s).
Proof. unfold id_bytes, string_rev. rewrite String.list_ascii_of_string_of_list_ascii. apply Forall_rev. Qed.

Lemma id_bytes_trim_left cut s : id_bytes s → id_bytes (trim_left cut s).
Proof.
  unfold id_bytes. induction s as [|c s IH]; [done|]. cbn. intros [Hc Hs]%Forall_cons.
  destruct (cut c); [auto|]. by constructor.
Qed.
Lemma id_bytes_trim_both cut s : id_bytes s → id_bytes (trim_both cut s).
Proof. intros Hs. by apply id_bytes_rev, id_bytes_trim_left, id_bytes_rev, id_bytes_trim_left. Qed.

Lemma id_bytes_app s t : id_bytes s → id_bytes t → id_bytes (s +:+ t).
Proof. unfold id_bytes. intros Hs Ht. induction s as [|c s IH]; [done|]. apply Forall_cons in Hs as [Hc Hs]. constructor; auto. Qed.

Lemma byte_code_of_code n : 0 ≤ n < 256 → byte_code (byte_of_code n) = n.
Proof. intros Hn. unfold byte_code, byte_of_code. rewrite Ascii.N_ascii_embedding; lia. Qed.

Lemma key_rune_byte r : key_rune r = true → request_id_byte (byte_of_code r) = true.
Proof.
  unfold key_rune, request_id_byte. intros Hr. cbv zeta. rewrite byte_code_of_code by lia. lia.
Qed.

Lemma key_bytes_ids l : id_bytes (key_bytes l).
Proof.
  unfold id_bytes, key_bytes. rewrite String.list_ascii_of_string_of_list_ascii. apply Forall_map, Forall_forall.
  intros r _. cbn. destruct (key_rune r) eqn:Hr; [by apply key_rune_byte | reflexivity].
Qed.
Lemma key_bytes_length l : (String.length (key_bytes l) ≤ 96)%nat.
Proof.
  unfold key_bytes. rewrite <- length_list_ascii, String.list_ascii_of_string_of_list_ascii, length_map, length_take. lia.
Qed.

Lemma validRequestID_intro s : 8 ≤ len s ≤ 128 → id_bytes s → validRequestID s = true.
Proof.
  intros Hlen Hs. unfold validRequestID. replace ((len s <? 8) || (128 <? len s)) with false by lia. cbn.
  apply forallb_forall. intros c Hc. unfold id_bytes in Hs. rewrite Forall_forall in Hs. apply Hs. by apply list_elem_of_In.
Qed.

Lemma safeKey_ids value : 8 ≤ len (safeKey value) ≤ 96 ∧ id_bytes (safeKey value).
Proof.
  unfold safeKey. cbv zeta. destruct (len _ <? 8) eqn:Hlen; [split; [done | repeat constructor]|].
  split; [|apply id_bytes_trim_both, key_bytes_ids]. unfold len, Trim in *.
  pose proof (trim_both_length (in_cutset "-_.") (key_bytes (runes (ToLower value)))).
  pose proof (key_bytes_length (runes (ToLower value))). lia.
Qed.

(** Whatever the identifier of a finding, the key the agent requests a plan under passes the check the API
    makes of an idempotency key. *)
Theorem idempotencyKey_valid finding : validRequestID (idempotencyKey finding) = true.
Proof.
  destruct (safeKey_ids (finding_ID finding +:+ "-" +:+ findingFingerprint finding)) as [Hlen Hs].
  apply validRequestID_intro; unfold idempotencyKey.
  - unfold len in *. rewrite string_length_app. cbn [String.length]. lia.
  - apply id_bytes_app; [repeat constructor | exact Hs].
Qed.
