(* ===== verification/ServerLogic.v ===== *)
(** Rules to check a handler of the HTTP API statement by statement against the access policy. *)
From S2P Require Import Prelude GoLib GoDuration Core Planner Store Correlation Interaction Kube.
From S2P Require Import Principal ManagedResources Limiter Listing RequestBody Repository Http Server.
From S2P Require Import Routes ServerPolicy.

Local Open Scope Z_scope.

Section Logic.
Variables (c : ServerConfig) (r : Request).
Implicit Types (h : history ServerE).

(** Nothing is assumed of what the components answer. *)
Definition any_answer X (h : history ServerE) (e : ServerE X) (x : X) : Prop := True.

Definition shown h (o : Outcome) : Prop :=
  match o with Responded _ payload => disclosable c r h payload | Panicked _ => True end.

(** [p], started after [h], keeps to the policy; [Q] holds of its value, and what it may have responded
    instead may be shown. *)
Definition hsafe {A} h (p : H A) (Q : history ServerE → A → Prop) : Prop :=
  ∀ w, safe (permitted c r) any_answer h (p w)
    (λ h' wr, match wr.2 with inr a => Q h' a | inl o => shown h' o end).

Lemma hsafe_later {A} h h' (p : H A) Q : suffix h h' → hsafe h p Q → hsafe h' p Q.
Proof. intros Hh Hp w. by eapply safe_later. Qed.

Lemma hsafe_weaken {A} h (p : H A) (Q Q' : history ServerE → A → Prop) :
  (∀ h' a, Q h' a → Q' h' a) → hsafe h p Q → hsafe h p Q'.
Proof. intros HQ Hp w. eapply safe_weaken; [|apply Hp]. intros h' [w' [o|a]]; cbn; auto. Qed.

Lemma hsafe_grows {A} h (p : H A) (Q : history ServerE → A → Prop) :
  hsafe h p Q → hsafe h p (λ h' a, suffix h h' ∧ Q h' a).
Proof.
  intros Hp w. eapply safe_weaken; [|apply safe_grows, Hp]. intros h' [w' [o|a]]; cbn; [by intros [] | done].
Qed.

Section Statements.
Context {A B : Type}.
Implicit Types (k : A → H B) (Q : history ServerE → B → Prop).

Lemma hsafe_then h (p : H A) k Q : hsafe h p (λ h' a, hsafe h' (k a) Q) → hsafe h (p ≫= k) Q.
Proof.
  intros Hp w. apply safe_bind. eapply safe_weaken; [|apply safe_persists, Hp].
  intros h' [w' [o|a]]; cbn; intros Ha; [intros h'' Hh''; by apply Ha | by apply Ha].
Qed.

Lemma hsafe_then_spec h (p : H A) (Φ : history ServerE → A → Prop) k Q :
  hsafe h p Φ → (∀ h' a, suffix h h' → Φ h' a → hsafe h' (k a) Q) → hsafe h (p ≫= k) Q.
Proof.
  intros Hp Hk. apply hsafe_then. intros w. eapply safe_weaken; [|apply safe_grows, Hp].
  intros h' [w' [o|a]]; cbn; [by intros [] | intros [? ?]; auto].
Qed.

Lemma hsafe_then_ret h a k Q : hsafe h (k a) Q → hsafe h (mret a ≫= k) Q.
Proof. done. Qed.
Lemma hsafe_then_writeJSON h status payload k Q :
  (∀ h', suffix h h' → disclosable c r h' payload) → hsafe h (writeJSON status payload ≫= k) Q.
Proof. intros Hs w h' Hh'. by apply Hs. Qed.
Lemma hsafe_then_writeError h status err k Q : hsafe h (writeError status err ≫= k) Q.
Proof. by intros w h' Hh' ?. Qed.
Lemma hsafe_then_error_if h cond status err (k : unit → H B) Q :
  (cond = false → hsafe h (k tt) Q) → hsafe h (error_if cond status err ≫= k) Q.
Proof. intros Hk. destruct cond; [by intros w h' Hh' ? | by apply Hk]. Qed.
Lemma hsafe_then_header h name value (k : unit → H B) Q : hsafe h (k tt) Q → hsafe h (set_header name value ≫= k) Q.
Proof. intros Hk w. apply Hk. Qed.
Lemma hsafe_then_or_error h known (x : result A) k Q :
  (∀ a, x = Ok a → hsafe h (k a) Q) → hsafe h (or_error known x ≫= k) Q.
Proof. intros Hk. destruct x; [by apply Hk | by intros w h' Hh' ?]. Qed.
Lemma hsafe_then_or_fail h status err (x : result A) k Q :
  (∀ a, x = Ok a → hsafe h (k a) Q) → hsafe h (or_fail status err x ≫= k) Q.
Proof. intros Hk. destruct x; [by apply Hk | by intros w h' Hh' ?]. Qed.
Lemma hsafe_then_bad_request h (x : result A) k Q :
  (∀ a, x = Ok a → hsafe h (k a) Q) → hsafe h (bad_request x ≫= k) Q.
Proof. intros Hk. destruct x; [by apply Hk | by intros w h' Hh' ?]. Qed.

Lemma hsafe_then_event h (e : ServerE A) k Q :
  (∀ h', suffix h h' → permitted c r A h' e) → (∀ h' x, suffix h h' → hsafe (Occ A e x :: h') (k x) Q) →
  hsafe h (perform_event e ≫= k) Q.
Proof. intros He Hk w h' Hh'. split; [by apply He|]. intros x _. by apply Hk. Qed.

Lemma hsafe_then_call h (e : ServerE (result A)) (k : result A → H B) Q :
  (∀ h', suffix h h' → permitted c r _ h' e) → (∀ h' x, suffix h h' → hsafe (Occ _ e x :: h') (k x) Q) →
  hsafe h (try_call e ≫= k) Q.
Proof.
  intros He Hk w h' Hh'. split; [by apply He|]. intros x _. pose proof (λ w, Hk h' x Hh' w) as Hx.
  destruct x as [a|[]]; cbn; try apply Hx. by intros h'' _.
Qed.
Lemma hsafe_then_bind {D} h (p : H D) (f : D → H A) k Q :
  hsafe h (p ≫= λ d, f d ≫= k) Q → hsafe h ((p ≫= f) ≫= k) Q.
Proof.
  intros Hp w. specialize (Hp w). revert Hp. unfold mbind, H_bind. generalize h.
  induction (p w) as [[w' [o|d]]|X e g IH]; intros h0; cbn; [done | done |].
  intros Hp h' Hh'. destruct (Hp h' Hh') as [He Hx]. split; [done|]. intros x Hpost. by apply IH, Hx.
Qed.
End Statements.

Section Ends.
Context {A : Type}.
Implicit Types (Q : history ServerE → A → Prop).
Lemma hsafe_ret h a Q : (∀ h', suffix h h' → Q h' a) → hsafe h (mret a) Q.
Proof. intros HQ w h' Hh'. by apply HQ. Qed.
Lemma hsafe_writeJSON h status payload Q :
  (∀ h', suffix h h' → disclosable c r h' payload) → hsafe h (writeJSON status payload) Q.
Proof. intros Hs w h' Hh'. by apply Hs. Qed.
Lemma hsafe_writeError h status err Q : hsafe h (writeError status err) Q.
Proof. by intros w h' Hh' ?. Qed.
Lemma hsafe_or_error h known (x : result A) Q :
  (∀ a, x = Ok a → ∀ h', suffix h h' → Q h' a) → hsafe h (or_error known x) Q.
Proof. intros Hk. destruct x; [apply hsafe_ret; by apply Hk | by intros w h' Hh' ?]. Qed.
Lemma hsafe_or_fail h status err (x : result A) Q :
  (∀ a, x = Ok a → ∀ h', suffix h h' → Q h' a) → hsafe h (or_fail status err x) Q.
Proof. intros Hk. destruct x; [apply hsafe_ret; by apply Hk | by intros w h' Hh' ?]. Qed.
Lemma hsafe_event h (e : ServerE A) Q :
  (∀ h', suffix h h' → permitted c r A h' e) → (∀ h' x, suffix h h' → ∀ h'', suffix (Occ A e x :: h') h'' → Q h'' x) →
  hsafe h (perform_event e) Q.
Proof. intros He Hk w h' Hh'. split; [by apply He|]. intros x _ h'' Hh''. by eapply Hk. Qed.
End Ends.

Lemma hsafe_error_if h cond status err Q : (cond = false → ∀ h', suffix h h' → Q h' tt) → hsafe h (error_if cond status err) Q.
Proof. intros HQ. destruct cond; [by intros w h' Hh' ? | apply hsafe_ret; by apply HQ]. Qed.
Lemma hsafe_call {A} h (e : ServerE (result A)) Q :
  (∀ h', suffix h h' → permitted c r _ h' e) →
  (∀ h' x, suffix h h' → ∀ h'', suffix (Occ _ e x :: h') h'' → Q h'' x) → hsafe h (try_call e) Q.
Proof.
  intros He Hk w h' Hh'. split; [by apply He|]. intros x _. destruct x as [a|[]]; cbn; try by intros h'' ?.
  all: intros h'' Hh''; by eapply Hk.
Qed.

End Logic.

(** * By the form of the statement *)

Ltac handler_step :=
  cbv beta;
  lazymatch goal with
  | |- hsafe _ _ _ (mbind _ (mbind _ _)) _ => apply hsafe_then_bind
  | |- hsafe _ _ _ (mbind _ (mret _)) _ => apply hsafe_then_ret
  | |- hsafe _ _ _ (mbind _ (writeError _ _)) _ => apply hsafe_then_writeError
  | |- hsafe _ _ _ (mbind _ (writeStoreError _)) _ => apply hsafe_then_writeError
  | |- hsafe _ _ _ (mbind _ (writeJSON _ _)) _ => apply hsafe_then_writeJSON; intros ??
  | |- hsafe _ _ _ (mbind _ (error_if _ _ _)) _ => apply hsafe_then_error_if; intros ?
  | |- hsafe _ _ _ (mbind _ (set_header _ _)) _ => apply hsafe_then_header
  | |- hsafe _ _ _ (mbind _ (or_error _ _)) _ => apply hsafe_then_or_error; intros ??
  | |- hsafe _ _ _ (mbind _ (or_fail _ _ _)) _ => apply hsafe_then_or_fail; intros ??
  | |- hsafe _ _ _ (mbind _ (bad_request _)) _ => apply hsafe_then_bad_request; intros ??
  | |- hsafe _ _ _ (mbind _ (perform_event _)) _ => apply hsafe_then_event; [intros ?? | intros ???]
  | |- hsafe _ _ _ (mbind _ (try_call _)) _ => apply hsafe_then_call; [intros ?? | intros ???]
  | |- hsafe _ _ _ (mbind _ (match ?x with _ => _ end)) _ => destruct x eqn:?
  | |- hsafe _ _ _ (match ?x with _ => _ end) _ => destruct x eqn:?
  | |- hsafe _ _ _ (mret _) _ => apply hsafe_ret; intros ??
  | |- hsafe _ _ _ (writeJSON _ _) _ => apply hsafe_writeJSON; intros ??
  | |- hsafe _ _ _ (writeError _ _) _ => apply hsafe_writeError
  | |- hsafe _ _ _ (writeStoreError _) _ => apply hsafe_writeError
  | |- hsafe _ _ _ (error_if _ _ _) _ => apply hsafe_error_if; intros ???
  | |- hsafe _ _ _ (or_error _ _) _ => apply hsafe_or_error; intros ????
  | |- hsafe _ _ _ (or_fail _ _ _) _ => apply hsafe_or_fail; intros ????
  | |- hsafe _ _ _ (try_call _) _ => apply hsafe_call; [intros ?? | intros ?????]
  end.
