(* ===== verification/ServerProps.v ===== *)
(** Every handler of the HTTP API keeps to the access policy: no call without an authenticated principal of
    the role and scope the call needs, and no response that shows more than its principal may see. *)
From S2P Require Import Prelude GoLib GoDuration Json Core Planner Store Correlation CorrelationProps.
From S2P Require Import Interaction Kube Principal ManagedResources Limiter Listing.
From S2P Require Import RequestBody Repository Http Server Routes ServerPolicy ServerLogic.

Local Open Scope Z_scope.

Section Policy.
Variables (c : ServerConfig) (r : Request).
Implicit Types (h : history ServerE).

Lemma permit {X} h0 h p role role' (e : ServerE X) :
  authenticated c r h0 p → suffix h0 h → HasRole p role = true → call_role e = Some role' →
  (HasRole p role = true → HasRole p role' = true) → call_scope c h p e → permitted c r X h e.
Proof.
  intros Hauth Hh Hrole He Himp Hscope. split; [destruct e; done|]. rewrite He. exists p.
  split_and!; [by eapply authenticated_later | auto | done].
Qed.

Lemma mirrored_finding_later h h' p finding : suffix h h' → mirrored_finding c h p finding → mirrored_finding c h' p finding.
Proof.
  intros Hh [(s & Hin & Hf)|[(s & Hin & Hf)|[(s & Hin & Hf)|Hf]]];
    [left; exists s | right; left; exists s | right; right; left; exists s | by right; right; right];
    (split; [by eapply in_later | done]).
Qed.
Lemma mirrored_run_later h h' p run : suffix h h' → mirrored_run c h p run → mirrored_run c h' p run.
Proof.
  intros Hh [(s & Hin & Hf)|(id & Hin & Hf)]; [left; exists s | right; exists id]; (split; [by eapply in_later|]); [done|].
  by eapply plan_accessible_later.
Qed.
End Policy.
#[export] Hint Resolve mirrored_finding_later mirrored_run_later : policy.

(** A call of the principal: its role implies the one needed. *)
Ltac by_role := first [exact (λ H, H) | apply HasRole_viewer | apply HasRole_approver | apply HasRole_administrator].
Ltac permit :=
  match goal with
  | Hauth : authenticated _ _ ?h0 ?p, Hrole : HasRole ?p _ = true |- permitted _ _ _ _ _ =>
      eapply (permit _ _ h0 _ p); [exact Hauth | later | exact Hrole | reflexivity | by_role | cbn [call_scope repo_scope]]
  | |- permitted _ _ _ _ _ => split; exact I
  end; try exact I.
(** What held before still holds. *)
Ltac still :=
  match goal with
  | H : ?P _ ?h0 _ _ |- ?P _ ?h _ _ => revert H; first [apply finding_accessible_later | apply plan_accessible_later
      | apply scope_accessible_later | apply chaos_accessible_later | apply created_exception_later
      | apply listed_exception_later | apply mirrored_finding_later | apply mirrored_run_later]; later
  | H : plan_created _ ?h0 _ _ _ |- plan_created _ ?h _ _ _ => revert H; apply plan_created_later; later
  | H : obtained ?h0 _ _ |- obtained ?h _ _ => revert H; apply obtained_later; later
  end.

(** A subroutine by its specification. *)
Ltac authenticated := match goal with Hp : authenticated _ _ ?h0 ?p |- authenticated _ _ _ ?p => eapply authenticated_later; [|exact Hp]; later end.
Tactic Notation "use" uconstr(spec) "as" ident(a) :=
  eapply hsafe_then_spec; [eapply spec; try authenticated | let Ha := fresh "H" a in intros ? a ? Ha; cbv beta in Ha].
Tactic Notation "use" uconstr(spec) := let a := fresh "a" in use spec as a.

(** A response the principal may see. *)
Ltac disclose :=
  lazymatch goal with
  | |- disclosable _ _ _ _ =>
      first [ by intros ?
            | match goal with
              | Hauth : authenticated _ _ ?h0 ?p, Hrole : HasRole ?p _ = true |- _ =>
                  intros _; exists p; split; [eapply authenticated_later; [|exact Hauth]; later|];
                  split; [revert Hrole; by_role | cbn [visible]; try exact I]
              end ]
  end.

Section Handlers.
Context `{RangeOrder} `{NameValidation}.
Variables (c : ServerConfig) (r : Request) (p : Principal) (role : Role).
Implicit Types (h : history ServerE).
Hypothesis Hrole : HasRole p role = true.

Notation "'{{' h '}}' q '{{' Q '}}'" := (authenticated c r h p → hsafe c r h q Q) (at level 20, h at level 99, q at level 99, Q at level 99).

(** * Observations *)

(** * Observations *)

Lemma snapshot_safe h :
  {{ h }} snapshot c {{ λ h' a, ∀ s, a = Some s → happened_in InspectorSnapshot (Ok s) h' }}.
Proof.
  intros Hp. unfold snapshot. repeat handler_step; [permit | |]; intros s Hs; [destruct x|]; simplify_eq; happened.
Qed.

Lemma collect_safe h :
  {{ h }} adapterFindings c {{ λ h' l, ∀ finding, finding ∈ l →
    ∃ collection, happened_in CollectAdapters collection h' ∧ finding ∈ collection_Findings collection }}.
Proof.
  intros Hp. unfold adapterFindings. repeat handler_step; [permit | |]; intros finding Hf.
  - exists x. split; [happened | done].
  - by apply elem_of_nil in Hf.
Qed.

Lemma find_some {A} (f : A → bool) l x : List.find f l = Some x → x ∈ l ∧ f x = true.
Proof. intros [Hin Hf]%List.find_some. by rewrite list_elem_of_In. Qed.

Lemma findLiveFinding_safe h id :
  {{ h }} findLiveFinding c id {{ λ h' found, ∀ finding, found = Some finding →
    finding_ID finding = id ∧ ∃ s, happened_in InspectorSnapshot (Ok s) h' ∧ finding ∈ snapshot_Findings s }}.
Proof.
  intros Hp. unfold findLiveFinding. use snapshot_safe. handler_step. intros finding Hf. destruct a as [s|]; [|done].
  apply find_some in Hf as [Hin Hid]. split_guards. split; [done|]. exists s. split; [|done].
  eapply in_later; [later | by apply Ha].
Qed.

Lemma mirror_safe h id :
  {{ h }} (if cfg_WorkflowClient c then found ← try_call (WorkflowGetFinding id); mret (Some found) else mret None)
  {{ λ h' mirrored, ∀ finding, mirrored = Some (Ok finding) → happened_in (WorkflowGetFinding id) (Ok finding) h' }}.
Proof. intros Hp. repeat handler_step; [permit | |]; intros finding Hf; simplify_eq; happened. Qed.

Lemma getFindingByID_safe h id :
  {{ h }} getFindingByID c id {{ λ h' found, ∀ finding, found = Ok finding → obtained h' id finding }}.
Proof.
  intros Hp. unfold getFindingByID. use mirror_safe as mirrored.
  destruct mirrored as [[finding|]|]; [handler_step; intros ? [= <-]; left; by eapply in_later, Hmirrored | |].
  all: handler_step; [permit|]; handler_step; [handler_step; intros finding [= <-]; right; left; happened|].
  all: handler_step; [by handler_step|].
  all: use findLiveFinding_safe as live; destruct live as [f|]; [handler_step|]; [intros finding [= <-]|].
  all: try (destruct (Hlive f eq_refl) as (Hid & s & Hin & Hf); right; right; split; [done|]; left; exists s;
    split; [by eapply in_later | done]).
  all: use collect_safe as adapted; handler_step; intros finding Hf;
    destruct (List.find _ adapted) as [f|] eqn:Hfind; [injection Hf as ->|done];
    apply find_some in Hfind as [Hin Hid]; split_guards; destruct (Hadapted finding Hin) as (s & Hs & Hf);
    right; right; split; [done|]; right; exists s; (split; [by eapply in_later | done]).
Qed.
(** * Access *)

Lemma requireFindingAccess_safe h finding :
  hsafe c r h (requireFindingAccess c (Some p) finding) (λ _ _, findingAllowed p (cfg_ClusterID c) finding = true).
Proof. unfold requireFindingAccess. handler_step. by split_guards. Qed.

Lemma requireClusterAccess_safe h : hsafe c r h (requireClusterAccess c (Some p)) (λ _ _, cluster_accessible c p).
Proof. unfold requireClusterAccess. handler_step. by split_guards. Qed.

(** A finding looked up and checked. *)
Lemma lookup_safe h id known (k : Finding → H unit) Q :
  authenticated c r h p →
  (∀ h' finding, suffix h h' → obtained h' id finding → findingAllowed p (cfg_ClusterID c) finding = true →
     hsafe c r h' (k finding) Q) →
  hsafe c r h (found ← getFindingByID c id; finding ← or_error known found;
    requireFindingAccess c (Some p) finding;; k finding) Q.
Proof.
  intros Hp Hk. use getFindingByID_safe as found. handler_step.
  eapply hsafe_then_spec; [apply requireFindingAccess_safe|]. intros h'' [] Hh'' Hallowed.
  apply Hk; [later | | done]. eapply obtained_later; [exact Hh''|]. by apply Hfound.
Qed.

Lemma requirePlanAccess_safe h planID :
  {{ h }} requirePlanAccess c (Some p) planID {{ λ h' _, plan_accessible c h' p planID }}.
Proof.
  intros Hp. unfold requirePlanAccess. handler_step; [permit|]. handler_step. use getFindingByID_safe as found. handler_step.
  eapply hsafe_weaken; [|apply hsafe_grows, requireFindingAccess_safe]. intros h'' [] [Hh'' Hallowed].
  simplify_eq. eexists. split; [eapply in_later; [|apply elem_of_cons; by left]; later|].
  eexists. split; [eapply obtained_later; [exact Hh''|]; by apply Hfound | done].
Qed.

Lemma requireScopeAccess_safe h scope :
  {{ h }} requireScopeAccess c (Some p) scope {{ λ h' _, scope_accessible c h' p scope }}.
Proof.
  intros Hp. unfold requireScopeAccess. use getFindingByID_safe as found. destruct found as [finding|].
  - eapply hsafe_weaken; [|apply hsafe_grows, requireFindingAccess_safe]. intros h'' [] [Hh'' Hallowed].
    left. exists finding. split; [|done]. eapply obtained_later; [exact Hh''|]. by apply Hfound.
  - eapply hsafe_weaken; [|apply requireClusterAccess_safe]. intros h'' [] Hc. by right.
Qed.

Lemma decodeStrict_safe {A} h (decode : json → result A) : hsafe c r h (decodeStrict c r decode) (λ _ _, True).
Proof. unfold decodeStrict. repeat handler_step; try exact I. Qed.

(** * Mirroring *)

Lemma sync_findings_safe h findings :
  (∀ finding, finding ∈ findings → mirrored_finding c h p finding) → {{ h }} sync_findings findings {{ λ _ _, True }}.
Proof.
  revert h. induction findings as [|finding findings IH]; intros h Hf Hp; cbn [sync_findings]; [by handler_step|].
  handler_step; [permit|].
  - eapply mirrored_finding_later; [eassumption|]. apply Hf. left.
  - apply IH; [|authenticated]. intros f Hin. eapply mirrored_finding_later; [|apply Hf; by right]. later.
Qed.

Lemma sync_runs_safe h runs :
  (∀ run, run ∈ runs → mirrored_run c h p run) → {{ h }} sync_runs runs {{ λ _ _, True }}.
Proof.
  revert h. induction runs as [|run runs IH]; intros h Hf Hp; cbn [sync_runs]; [by handler_step|].
  handler_step; [permit|].
  - eapply mirrored_run_later; [eassumption|]. apply Hf. left.
  - apply IH; [|authenticated]. intros f Hin. eapply mirrored_run_later; [|apply Hf; by right]. later.
Qed.

Lemma syncWorkflowState_safe h : cluster_accessible c p → {{ h }} syncWorkflowState c {{ λ _ _, True }}.
Proof.
  intros Hc Hp. unfold syncWorkflowState. handler_step; [|by handler_step]. handler_step; [permit|].
  eapply hsafe_then_spec with (Φ := λ _ _, True).
  { destruct x as [findings|]; [|by handler_step]. apply sync_findings_safe; [|authenticated].
    intros finding Hf. right. right. left. exists findings. split; [by left | done]. }
  intros h'' [] Hh'' _. handler_step; [permit; exact Hc|]. destruct x0 as [runs|]; [|by handler_step].
  apply sync_runs_safe; [|authenticated]. intros run Hrun. left. exists runs. split; [by left | done].
Qed.

Lemma expireStaleFindings_safe h : {{ h }} expireStaleFindings c {{ λ _ _, True }}.
Proof. intros Hp. unfold expireStaleFindings. repeat handler_step; try permit; exact I. Qed.

(** * Lists *)

Lemma ensureKeys_same finding :
  finding_ID (ensureKeys finding) = finding_ID finding ∧ finding_Resources (ensureKeys finding) = finding_Resources finding.
Proof. unfold ensureKeys. case_match; [done|]. split; [done|]. cbn. congruence. Qed.

Lemma correlate_origin findings config finding :
  finding ∈ CorrelateWithConfig findings config →
  ∃ origin, origin ∈ findings ∧ finding_ID finding = finding_ID origin ∧ finding_Resources finding = finding_Resources origin.
Proof.
  intros [i Hi]%list_elem_of_lookup_1. assert (i < length findings)%nat as Hlt.
  { rewrite <- (correlate_length findings config). by eapply lookup_lt_Some. }
  rewrite correlate_lookup in Hi by done. injection Hi as <-.
  destruct (lookup_lt_is_Some_2 _ _ Hlt) as [origin Horigin]. exists origin. split; [by eapply list_elem_of_lookup_2|].
  unfold labelled, finding_at, relabel. cbn. rewrite !list_lookup_fmap, Horigin. apply ensureKeys_same.
Qed.

Lemma findingAllowed_resources q cluster f g :
  finding_Resources f = finding_Resources g → findingAllowed q cluster f = findingAllowed q cluster g.
Proof. unfold findingAllowed. by intros ->. Qed.

Lemma authorized_allowed findings : findings_allowed c p (filterAuthorizedFindings c (Some p) findings).
Proof.
  unfold findings_allowed, filterAuthorizedFindings. apply Forall_forall. intros finding Hin.
  destruct (CanAccessCluster p (cfg_ClusterID c)) eqn:Hc; [by unfold findingAllowed; rewrite Hc|].
  by apply list_elem_of_In, filter_In in Hin as [_ Hin].
Qed.

Lemma correlated_allowed findings config :
  findings_allowed c p findings → findings_allowed c p (CorrelateWithConfig findings config).
Proof.
  unfold findings_allowed. rewrite !Forall_forall. intros Hf finding (origin & Hin & _ & Hres)%correlate_origin.
  rewrite (findingAllowed_resources _ _ _ origin Hres). by apply Hf.
Qed.

Lemma sorted_allowed findings sorted field order :
  sortFindings findings field order = Ok sorted → findings_allowed c p findings → findings_allowed c p sorted.
Proof.
  unfold sortFindings, findings_allowed. intros Hs Hf. repeat case_match; simplify_eq; by rewrite sort_slice_perm.
Qed.

Lemma page_allowed findings start limit : findings_allowed c p findings → findings_allowed c p (page_of findings start limit).1.
Proof. intros Hf. unfold page_of. cbn. by apply Forall_take, Forall_drop. Qed.

Lemma add_to_group_allowed groupBy groups finding :
  (∀ k group, groups !! k = Some group → findings_allowed c p (group_Findings group)) →
  findingAllowed p (cfg_ClusterID c) finding = true →
  ∀ k group, add_to_group groupBy groups finding !! k = Some group → findings_allowed c p (group_Findings group).
Proof.
  intros Hg Hf k group Hk. unfold add_to_group in Hk. apply lookup_insert_Some in Hk as [[_ <-]|[_ Hk]]; [|by eapply Hg].
  assert (∀ b (g : FindingGroup) s, group_Findings (if b : bool then g <| group_HighestSeverity := s |> else g) = group_Findings g) as ->
    by (by intros []).
  cbn. apply Forall_app. split; [|by constructor]. destruct (groups !! groupKey finding groupBy) eqn:Hlook; [by eapply Hg | constructor].
Qed.

Lemma groups_allowed findings groupBy groups :
  groupFindings findings groupBy = Ok groups → findings_allowed c p findings →
  Forall (λ group, findings_allowed c p (group_Findings group)) groups.
Proof.
  unfold groupFindings. case_match; [done|]. intros [= <-] Hf. apply Forall_forall. intros group Hin.
  apply elem_of_sort_slice, list_elem_of_fmap in Hin as (g & -> & [k Hk]%elem_of_range_snd).
  assert (group_Findings (mean_of g) = group_Findings g) as -> by (unfold mean_of; by case_match).
  revert k g Hk. apply (foldl_invariant (λ m, ∀ k g, m !! k = Some g → findings_allowed c p (group_Findings g))).
  - intros k g Hk. by rewrite lookup_empty in Hk.
  - intros m f Hin Hm. apply add_to_group_allowed; [done|]. unfold findings_allowed in Hf. rewrite Forall_forall in Hf. by apply Hf.
Qed.

(** * Handlers for viewers *)

Lemma liveness_safe h : hsafe c r h liveness (λ _ _, True).
Proof. unfold liveness. repeat handler_step. disclose. Qed.

Lemma authConfig_safe h : hsafe c r h (authConfig c) (λ _ _, True).
Proof. unfold authConfig. repeat handler_step. disclose. Qed.

Lemma readiness_safe h : hsafe c r h (readiness c) (λ _ _, True).
Proof. unfold readiness. repeat handler_step; first [permit | disclose]. Qed.

Lemma health_safe h : {{ h }} health c {{ λ _ _, True }}.
Proof. intros Hp. unfold health. repeat handler_step; first [permit | disclose]. Qed.

Lemma actionCatalog_safe h : {{ h }} actionCatalog {{ λ _ _, True }}.
Proof. intros Hp. unfold actionCatalog. repeat handler_step. disclose. Qed.

Lemma prometheusMetrics_safe h : {{ h }} prometheusMetrics {{ λ _ _, True }}.
Proof. intros Hp. unfold prometheusMetrics. repeat handler_step; first [permit | disclose]. Qed.

Lemma agentStatus_safe h : cluster_accessible c p → {{ h }} agentStatus c {{ λ _ _, True }}.
Proof. intros Hc Hp. unfold agentStatus. repeat handler_step; try permit; done. Qed.

Lemma enrichDashboard_safe h dashboard : cluster_accessible c p → {{ h }} enrichDashboard c dashboard {{ λ _ _, True }}.
Proof.
  intros Hc Hp. unfold enrichDashboard. handler_step; [permit|]. use snapshot_safe. repeat handler_step; try permit; done.
Qed.

Lemma dashboard_safe h : {{ h }} dashboard c (Some p) {{ λ _ _, True }}.
Proof.
  intros Hp. unfold dashboard. use requireClusterAccess_safe as access. use (syncWorkflowState_safe _ Haccess).
  use expireStaleFindings_safe. handler_step; [permit; exact Haccess|]. handler_step.
  use (enrichDashboard_safe _ _ Haccess). use (agentStatus_safe _ Haccess). handler_step. disclose. exact Haccess.
Qed.

Lemma mergeLiveFindings_safe h findings filter : {{ h }} mergeLiveFindings c findings filter {{ λ _ _, True }}.
Proof.
  intros Hp. unfold mergeLiveFindings. use snapshot_safe as observed. destruct observed as [s|]; [|by handler_step].
  eapply hsafe_then_spec; [eapply sync_findings_safe; [|authenticated]|intros; by handler_step].
  intros finding Hf. left. exists s. split; [by apply Hobserved | done].
Qed.

Lemma mergeAdapterFindings_safe h findings filter : {{ h }} mergeAdapterFindings c findings filter {{ λ _ _, True }}.
Proof.
  intros Hp. unfold mergeAdapterFindings. handler_step; [|by handler_step]. handler_step; [permit|].
  eapply hsafe_then_spec; [eapply sync_findings_safe; [|authenticated]|intros; by handler_step].
  intros finding Hf. right. left. exists x. split; [by left | done].
Qed.

Lemma mergeWorkflowFindings_safe h findings filter : {{ h }} mergeWorkflowFindings c findings filter {{ λ _ _, True }}.
Proof.
  intros Hp. unfold mergeWorkflowFindings. handler_step; [|by handler_step]. handler_step; [permit|].
  destruct x as [l|]; [|by handler_step].
  eapply hsafe_then_spec; [eapply sync_findings_safe; [|authenticated]|intros; by handler_step].
  intros finding Hf. right. right. left. exists l. split; [by left | done].
Qed.

Lemma listFindings_safe h : {{ h }} listFindings c (Some p) r {{ λ _ _, True }}.
Proof.
  intros Hp. unfold listFindings. use expireStaleFindings_safe. handler_step. handler_step; [permit|]. handler_step.
  use mergeLiveFindings_safe. use mergeAdapterFindings_safe. use mergeWorkflowFindings_safe as findings. cbv zeta.
  set (labelled := CorrelateWithConfig _ _).
  assert (findings_allowed c p labelled) as Hlabelled by apply correlated_allowed, authorized_allowed.
  eapply hsafe_then_spec; [eapply sync_findings_safe; [|authenticated]|].
  { intros finding Hf. right. right. right. unfold findings_allowed in Hlabelled. rewrite Forall_forall in Hlabelled. by apply Hlabelled. }
  intros h1 [] Hh1 _. apply hsafe_then_bad_request. intros sorted Hsort.
  assert (findings_allowed c p sorted) as Hsorted by (by eapply sorted_allowed).
  eapply hsafe_then_spec with (Φ := λ _ groups, Forall (λ group, findings_allowed c p (group_Findings group)) groups).
  { handler_step; [|handler_step; constructor]. unfold bad_request. handler_step; [|apply hsafe_writeError].
    handler_step. by eapply groups_allowed. }
  intros h2 groups Hh2 Hgroups.
  apply hsafe_then_bad_request. intros limit _. apply hsafe_then_bad_request. intros start _.
  destruct (page_of _ _ _) as [items next] eqn:Hpage. handler_step. disclose. split; [|done]. cbn. pose proof (page_allowed sorted start (Z.to_nat limit) Hsorted) as Hi.
  by rewrite Hpage in Hi.
Qed.

Lemma getFinding_safe h id : {{ h }} getFinding c (Some p) id {{ λ _ _, True }}.
Proof.
  intros Hp. unfold getFinding. apply lookup_safe; [done|]. intros h' finding Hh' Hobt Hallowed. handler_step. disclose.
  by left.
Qed.

Lemma managed_in_resources reference resources :
  managedReferenceInResources reference resources = true → ∃ resource, resource ∈ resources ∧ refers_to reference resource = true.
Proof. intros (resource & Hin%list_elem_of_In & Hr)%existsb_exists. by exists resource. Qed.

Lemma listManagedResources_safe h : {{ h }} listManagedResources c (Some p) {{ λ _ _, True }}.
Proof.
  intros Hp. unfold listManagedResources. handler_step.
  { handler_step. disclose. right. by repeat split; constructor. }
  handler_step; [permit|]. apply hsafe_then_or_fail. intros s _. cbv zeta. set (response := if IsZero _ then _ else _).
  assert (mlist_Warnings response = []) as Hwarnings by (subst response; by case_match).
  destruct (CanAccessCluster p (cfg_ClusterID c)) eqn:Hc; handler_step; disclose; [by left | right].
  cbn. split_and!; [| | |done].
  - apply Forall_forall. intros resource [_ Hr]%list_elem_of_In%filter_In. apply andb_true_iff in Hr as [Hne Hns]. split; [by split_guards | done].
  - apply Forall_forall. intros relationship [_ Hr]%list_elem_of_In%filter_In.
    apply andb_true_iff in Hr as [(from & Hfrom & Hrf)%managed_in_resources (to & Hto & Hrt)%managed_in_resources]. by exists from, to.
  - apply Forall_forall. by intros finding [_ Hf]%list_elem_of_In%filter_In.
Qed.

(** * Exceptions *)

Lemma visible_exceptions_safe h items :
  {{ h }} visible_exceptions c (Some p) items
  {{ λ h' visible, Forall (λ exception, finding_accessible c h' p (exception_Scope exception)) visible }}.
Proof.
  revert h. induction items as [|exception items IH]; intros h Hp; cbn [visible_exceptions]; [handler_step; constructor|].
  use getFindingByID_safe as found. use IH as visible. handler_step.
  assert (Forall (λ exception, finding_accessible c h'1 p (exception_Scope exception)) visible) as Hlater.
  { eapply Forall_impl; [exact Hvisible|]. intros e. by apply finding_accessible_later. }
  destruct found as [finding|]; [|done]. destruct (findingAllowed _ _ _) eqn:Hallowed; [|done]. constructor; [|done].
  exists finding. split; [|done]. eapply obtained_later; [|by apply Hfound]. later.
Qed.

Lemma listExceptions_safe h : {{ h }} listExceptions c (Some p) {{ λ _ _, True }}.
Proof.
  intros Hp. unfold listExceptions. handler_step; [permit|]. handler_step.
  destruct (CanAccessCluster (principal_or_zero (Some p)) (cfg_ClusterID c)) eqn:Hc.
  { handler_step. handler_step. disclose. by left. }
  use visible_exceptions_safe as visible. handler_step. disclose. right. eapply Forall_impl; [exact Hvisible|].
  intros e. apply finding_accessible_later. later.
Qed.

Lemma authorizedExperimentRun_safe h id :
  {{ h }} authorizedExperimentRun c (Some p) id
  {{ λ h' run, happened_in (ChaosGet id) (Ok run) h' ∧ chaos_accessible c h' p id }}.
Proof.
  intros Hp. unfold authorizedExperimentRun, chaos_unconfigured. handler_step. handler_step; [permit|].
  apply hsafe_then_or_error. intros run ->. handler_step. handler_step. split; [happened|]. exists run.
  split; [happened | by split_guards].
Qed.

(** * Handlers for operators *)

Section Operators.
Hypothesis Hoperator : HasRole p RoleOperator = true.

Lemma updateFindingStatus_safe h id : {{ h }} updateFindingStatus c (Some p) r id {{ λ _ _, True }}.
Proof.
  intros Hp. unfold updateFindingStatus. eapply hsafe_then_spec; [apply decodeStrict_safe|]. intros h1 request Hh1 _.
  use getFindingByID_safe as found. apply hsafe_then_or_fail. intros finding ->.
  eapply hsafe_then_spec; [apply requireFindingAccess_safe|]. intros h2 [] Hh2 Hallowed. cbv zeta.
  specialize (Hfound finding eq_refl).
  eapply hsafe_then_spec with (Φ := λ _ _, True).
  { repeat handler_step; [permit; done | done | done]. }
  intros h3 [] Hh3 _. handler_step.
  { permit. split; [done|]. exists id, finding. split_and!; [eapply obtained_later; [|exact Hfound]; later | done..]. }
  apply hsafe_then_or_error. intros updated ->. handler_step. disclose. right. exists finding. do 2 eexists. split; [done | happened].
Qed.

Lemma createException_safe h : {{ h }} createException c (Some p) r {{ λ _ _, True }}.
Proof.
  intros Hp. unfold createException. eapply hsafe_then_spec; [apply decodeStrict_safe|]. intros h1 request Hh1 _. cbv zeta.
  use requireScopeAccess_safe as scope. handler_step.
  { permit. split; [done|]. cbn. still. }
  apply hsafe_then_or_error. intros exception ->.
  match goal with |- hsafe _ _ ?h2 _ _ => assert (created_exception c h2 p exception) as Hcreated end.
  { eexists. split; [by left|]. cbn. still. }
  eapply hsafe_then_spec with (Φ := λ _ _, True).
  { repeat handler_step; try done; permit; [still|]. split; [done|]. right. exists exception. split; [still | done]. }
  intros h3 [] Hh3 _. handler_step. disclose. still.
Qed.

Lemma deleteException_safe h id : {{ h }} deleteException c (Some p) id {{ λ _ _, True }}.
Proof.
  intros Hp. unfold deleteException. handler_step; [permit|]. apply hsafe_then_or_error. intros items ->.
  destruct (List.find _ items) as [target|] eqn:Hfind; [|handler_step]. apply find_some in Hfind as [Hin Hid].
  use requireScopeAccess_safe as scope.
  assert (listed_exception c h'0 p (exception_ID target)) as Hlisted.
  { exists items, target. split_and!; [happened | done..]. }
  eapply hsafe_then_spec with (Φ := λ _ _, True).
  { repeat handler_step; try done; permit. still. }
  intros h3 [] Hh3 _. handler_step; [permit; split; [done | left; still]|]. repeat handler_step. disclose.
Qed.

(** * Remediation plans and runs *)

Lemma enrichPlanWithAI_safe h finding plan :
  findingAllowed p (cfg_ClusterID c) finding = true →
  {{ h }} enrichPlanWithAI c finding plan {{ λ _ plan', plan' = plan <| plan_AI := plan_AI plan' |> }}.
Proof.
  intros Hf Hp. unfold enrichPlanWithAI. repeat handler_step; try (permit; exact Hf); intros; try case_match; by destruct plan.
Qed.

Lemma previewRemediationPlan_safe h : {{ h }} previewRemediationPlan c (Some p) r {{ λ _ _, True }}.
Proof.
  intros Hp. unfold previewRemediationPlan. eapply hsafe_then_spec; [apply decodeStrict_safe|]. intros h1 findingID Hh1 _.
  handler_step. apply lookup_safe; [authenticated|]. intros h2 finding Hh2 Hobt Hallowed. cbv zeta.
  assert (finding_accessible c h2 p findingID) as Haccess by (by exists finding).
  handler_step; [permit; split; [done | still]|].
  eapply hsafe_then_spec with (Φ := λ _ _, True); [repeat handler_step; try permit; done|].
  intros h3 previewed Hh3 _. handler_step. use enrichPlanWithAI_safe as candidate; [done|]. handler_step. disclose.
  exists findingID. still.
Qed.

Lemma createRemediationPlan_safe h : {{ h }} createRemediationPlan c (Some p) r {{ λ _ _, True }}.
Proof.
  intros Hp. unfold createRemediationPlan. eapply hsafe_then_spec; [apply decodeStrict_safe|]. intros h1 findingID Hh1 _.
  handler_step. cbv zeta. handler_step. handler_step. apply lookup_safe; [authenticated|]. intros h2 finding Hh2 Hobt Hallowed.
  handler_step; [permit; by split|]. apply hsafe_then_or_error. intros plan0 ->.
  use enrichPlanWithAI_safe as plan; [done|].
  assert (plan_created c h'0 p finding plan) as Hcreated.
  { eexists _, plan0. split_and!; [happened | done..]. }
  eapply hsafe_then_spec with (Φ := λ _ _, True).
  { repeat handler_step; try done. permit. exists finding. still. }
  intros h3 [] Hh3 _. unfold workflow_required. handler_step. eapply hsafe_then_spec with (Φ := λ _ _, True).
  { repeat handler_step; try done. permit. split; [done | still]. }
  intros h4 [] Hh4 _. handler_step. disclose. exists finding. still.
Qed.

Lemma executeRemediationPlan_safe h id : {{ h }} executeRemediationPlan c (Some p) r id {{ λ _ _, True }}.
Proof.
  intros Hp. unfold executeRemediationPlan. eapply hsafe_then_spec; [apply decodeStrict_safe|]. intros h1 [] Hh1 _.
  use requirePlanAccess_safe as access. unfold workflow_required. handler_step.
  eapply hsafe_then_spec with (Φ := λ h' clusterRun, ∀ run, clusterRun = Some run →
    happened_in (WorkflowRequestExecution id (Actor p)) (Ok run) h').
  { handler_step; [|by handler_step]. handler_step; [permit; split; [done | still]|].
    apply hsafe_then_or_fail. intros run ->. handler_step. intros ? [= <-]. happened. }
  intros h2 clusterRun Hh2 Hcluster. handler_step; [permit; split; [done | still]|].
  apply hsafe_then_or_error. intros run ->. handler_step. disclose. right. left. exists id. split; [still|].
  destruct clusterRun as [run'|]; cbn; [left | right; happened]. eapply in_later; [|by apply Hcluster]; later.
Qed.

Lemma rollbackRemediationRun_safe h id : {{ h }} rollbackRemediationRun c (Some p) r id {{ λ _ _, True }}.
Proof.
  intros Hp. unfold rollbackRemediationRun. eapply hsafe_then_spec; [apply decodeStrict_safe|]. intros h1 [] Hh1 _.
  handler_step. handler_step; [permit|]. apply hsafe_then_or_fail. intros current ->.
  use requirePlanAccess_safe as access. handler_step; [permit|].
  { split; [done|]. exists current. split; [happened | still]. }
  apply hsafe_then_or_fail. intros run ->. handler_step; [permit|].
  { split; [done|]. exists current. split; [happened | still]. }
  handler_step. handler_step. disclose. right. right. exists id, current. split_and!; [happened | still | happened].
Qed.

(** * Chaos experiments *)

Lemma startExperiment_safe h id : {{ h }} startExperiment c (Some p) r id {{ λ _ _, True }}.
Proof.
  intros Hp. unfold startExperiment. eapply hsafe_then_spec; [apply decodeStrict_safe|]. intros h1 asked Hh1 _. cbv zeta.
  handler_step. set (manifest := match findExperiment _ _ with Some _ => _ | None => _ end). handler_step.
  unfold chaos_unconfigured. handler_step. handler_step; [permit|]. apply hsafe_then_bad_request. intros namespace ->.
  handler_step. handler_step.
  { permit. split; [done|]. exists namespace. split; [happened | by split_guards]. }
  apply hsafe_then_or_error. intros run ->. handler_step. disclose. right. exists id, manifest, namespace.
  split_and!; [happened | by split_guards | happened].
Qed.

Lemma executeExperimentRun_safe h id : {{ h }} executeExperimentRun c (Some p) id {{ λ _ _, True }}.
Proof.
  intros Hp. unfold executeExperimentRun. use authorizedExperimentRun_safe as found. destruct Hfound as [Hget Haccess].
  handler_step; [permit; split; [done | still]|]. apply hsafe_then_or_error. intros run ->. handler_step. disclose.
  left. exists id. split; [still|]. right. left. happened.
Qed.

Lemma abortExperimentRun_safe h id : {{ h }} abortExperimentRun c (Some p) r id {{ λ _ _, True }}.
Proof.
  intros Hp. unfold abortExperimentRun. use authorizedExperimentRun_safe as found. destruct Hfound as [Hget Haccess].
  eapply hsafe_then_spec; [apply decodeStrict_safe|]. intros h1 reason Hh1 _.
  handler_step; [permit; split; [done | still]|]. apply hsafe_then_or_error. intros run ->. handler_step. disclose.
  left. exists id. split; [still|]. right. right. exists reason. right. right. happened.
Qed.

End Operators.

Lemma getRemediationPlanDiff_safe h id : {{ h }} getRemediationPlanDiff c (Some p) id {{ λ _ _, True }}.
Proof.
  intros Hp. unfold getRemediationPlanDiff. use requirePlanAccess_safe as access. handler_step; [permit|].
  apply hsafe_then_or_fail. intros plan ->. eapply hsafe_then_spec with (Φ := λ _ _, True).
  { repeat handler_step; try done; permit; [|still]. exists id. split; [happened | still]. }
  intros h1 rendered Hh1 _. handler_step. handler_step. disclose. exists id. still.
Qed.

Lemma getRemediationRun_safe h id : {{ h }} getRemediationRun c (Some p) id {{ λ _ _, True }}.
Proof.
  intros Hp. unfold getRemediationRun.
  eapply hsafe_then_spec with (Φ := λ h' mirrored, ∀ run, mirrored = Some (Ok run) → happened_in (WorkflowGetRun id) (Ok run) h').
  { repeat handler_step; [permit | |]; intros run Hr; simplify_eq; happened. }
  intros h1 mirrored Hh1 Hmirrored. destruct mirrored as [[run|]|].
  { use requirePlanAccess_safe as access. handler_step.
    - permit. right. exists id. split; [eapply in_later; [|by apply Hmirrored]; later | still].
    - handler_step. disclose. left. still. }
  all: handler_step; [permit|]; apply hsafe_then_or_error; intros run ->; use requirePlanAccess_safe as access.
  all: handler_step; disclose; left; still.
Qed.

Lemma listExperimentRuns_safe h : {{ h }} listExperimentRuns c (Some p) {{ λ _ _, True }}.
Proof.
  intros Hp. unfold listExperimentRuns, chaos_unconfigured. handler_step. handler_step; [permit|]. handler_step. handler_step. disclose.
  apply Forall_forall. by intros run [_ Hr]%list_elem_of_In%filter_In.
Qed.

Lemma getExperimentRun_safe h id : {{ h }} getExperimentRun c (Some p) id {{ λ _ _, True }}.
Proof.
  intros Hp. unfold getExperimentRun. use authorizedExperimentRun_safe as found. destruct Hfound as [Hget Haccess].
  handler_step. disclose. left. exists id. split; [still | left; by eapply in_later].
Qed.

Lemma auditEvents_safe h : {{ h }} auditEvents c (Some p) {{ λ _ _, True }}.
Proof.
  intros Hp. unfold auditEvents. use requireClusterAccess_safe as access. handler_step; [permit; exact Haccess|].
  repeat handler_step. disclose. exact Haccess.
Qed.

Lemma evidenceBundle_safe h scope : {{ h }} evidenceBundle c (Some p) scope {{ λ _ _, True }}.
Proof.
  intros Hp. unfold evidenceBundle. use requireClusterAccess_safe as access. handler_step; [permit; exact Haccess|].
  repeat handler_step. disclose. exact Haccess.
Qed.

Lemma integrations_safe h : {{ h }} integrations c (Some p) {{ λ _ _, True }}.
Proof.
  intros Hp. unfold integrations. use requireClusterAccess_safe as access.
  repeat handler_step; first [permit; exact Haccess | disclose; exact Haccess].
Qed.

Lemma integrationHealth_safe h name : {{ h }} integrationHealth c (Some p) name {{ λ _ _, True }}.
Proof.
  intros Hp. unfold integrationHealth. use requireClusterAccess_safe as access.
  repeat handler_step; first [permit; exact Haccess | disclose; exact Haccess].
Qed.

Lemma experiments_safe h : {{ h }} experiments c (Some p) {{ λ _ _, True }}.
Proof.
  intros Hp. unfold experiments. use requireClusterAccess_safe as access. use snapshot_safe. handler_step. disclose. exact Haccess.
Qed.

(** * Handlers for approvers *)

Section Approvers.
Hypothesis Happrover : HasRole p RoleApprover = true.

Lemma decideApproval_safe h id approve : {{ h }} decideApproval c (Some p) r id approve {{ λ _ _, True }}.
Proof.
  intros Hp. unfold decideApproval. eapply hsafe_then_spec; [apply decodeStrict_safe|]. intros h1 asked Hh1 _. cbv zeta.
  set (reason := TrimSpace asked). handler_step. handler_step. use requirePlanAccess_safe as access.
  assert (reason ≠ "" ∧ ∃ planID, id = "approval-" +:+ planID ∧ plan_accessible c h' p planID) as Hscope.
  { split; [by split_guards|]. exists (TrimPrefix id "approval-"). split; [|done]. apply TrimPrefix_changed. by split_guards. }
  assert (∀ h0, suffix h' h0 → reason ≠ "" ∧ ∃ planID, id = "approval-" +:+ planID ∧ plan_accessible c h0 p planID) as Hlater.
  { intros h0 Hh0. destruct Hscope as (Hne & planID & Hid & Hpl). split; [done|]. exists planID. split; [done | still]. }
  unfold workflow_required. handler_step. eapply hsafe_then_spec with (Φ := λ _ _, True).
  { repeat handler_step; try done. permit. split; [done | apply Hlater; later]. }
  intros h2 [] Hh2 _. eapply hsafe_then_spec with (Φ := λ _ _, True).
  { repeat handler_step; try done; permit; (split; [done | apply Hlater; later]). }
  intros h3 decided Hh3 _. handler_step. handler_step. disclose.
  destruct (Hlater h'0) as (_ & planID & _ & Hpl); [later|]. by exists planID.
Qed.

Lemma decideExperimentRun_safe h id approve : {{ h }} decideExperimentRun c (Some p) r id approve {{ λ _ _, True }}.
Proof.
  intros Hp. unfold decideExperimentRun. use authorizedExperimentRun_safe as found. destruct Hfound as [Hget Haccess].
  eapply hsafe_then_spec; [apply decodeStrict_safe|]. intros h1 reason Hh1 _.
  eapply hsafe_then_spec with (Φ := λ h' decided, ∀ run, decided = Ok run →
    happened_in (ChaosApprove id (Actor p) reason) (Ok run) h' ∨ happened_in (ChaosReject id (Actor p) reason) (Ok run) h').
  { repeat handler_step; try (permit; split; [done | still]); intros run ->; [left | right]; happened. }
  intros h2 decided Hh2 Hdecided. apply hsafe_then_or_error. intros run ->. handler_step. disclose.
  left. exists id. split; [still|]. right. right. exists reason.
  destruct (Hdecided run eq_refl) as [Hin|Hin]; [left | right; left]; by eapply in_later.
Qed.
End Approvers.

(** * Handlers for administrators *)

Section Administrators.
Hypothesis Hadministrator : HasRole p RoleAdministrator = true.

Lemma getModelProviders_safe h : {{ h }} getModelProviders {{ λ _ _, True }}.
Proof. intros Hp. unfold getModelProviders. repeat handler_step; first [permit | disclose; exact Hadministrator]. Qed.

Lemma putModelProviders_safe h : {{ h }} putModelProviders c (Some p) r {{ λ _ _, True }}.
Proof.
  intros Hp. unfold putModelProviders. eapply hsafe_then_spec; [apply decodeStrict_safe|]. intros h1 settings Hh1 _.
  repeat handler_step; first [permit; done | permit | disclose; exact Hadministrator].
Qed.

Lemma putModelProviderSecret_safe h name : {{ h }} putModelProviderSecret c (Some p) r name {{ λ _ _, True }}.
Proof.
  intros Hp. unfold putModelProviderSecret. handler_step. cbv zeta. eapply hsafe_then_spec; [apply decodeStrict_safe|].
  intros h1 asked Hh1 _. repeat handler_step; first [permit; done | permit | disclose; exact Hadministrator].
Qed.
End Administrators.
End Handlers.

(** * Routes *)

Section Routes.
Context `{RangeOrder} `{NameValidation}.
Variables (c : ServerConfig) (r : Request).
Implicit Types (h : history ServerE).

(** A handler keeps to the policy when the principal has the route's role. *)
Definition route_safe (route : Route) : Prop :=
  ∀ h p id, match route_Role route with
            | None => True
            | Some role => ∃ q, p = Some q ∧ authenticated c r h q ∧ HasRole q role = true
            end → hsafe c r h (route_Handler route p r id) (λ _ _, True).

Lemma routes_safe : Forall route_safe (routes c).
Proof.
  unfold routes.
  repeat (apply Forall_cons; split; [intros h p id; cbn; try (intros (q & -> & Hauth & Hrole)) | ]); [..| by constructor].
  all: unfold plain, by_principal, by_request, by_id.
  - intros _. apply liveness_safe.
  - intros _. apply readiness_safe.
  - intros _. apply authConfig_safe.
  - by eapply health_safe.
  - by eapply prometheusMetrics_safe.
  - by eapply actionCatalog_safe.
  - by eapply dashboard_safe.
  - by eapply listFindings_safe.
  - by eapply getFinding_safe.
  - by eapply listManagedResources_safe.
  - by eapply updateFindingStatus_safe.
  - by eapply listExceptions_safe.
  - by eapply createException_safe.
  - by eapply deleteException_safe.
  - by eapply previewRemediationPlan_safe.
  - by eapply createRemediationPlan_safe.
  - by eapply getRemediationPlanDiff_safe.
  - by eapply executeRemediationPlan_safe.
  - by eapply getRemediationRun_safe.
  - by eapply rollbackRemediationRun_safe.
  - by eapply decideApproval_safe.
  - by eapply decideApproval_safe.
  - by eapply auditEvents_safe.
  - by eapply evidenceBundle_safe.
  - by eapply integrations_safe.
  - by eapply integrationHealth_safe.
  - by eapply experiments_safe.
  - by eapply startExperiment_safe.
  - by eapply listExperimentRuns_safe.
  - by eapply getExperimentRun_safe.
  - by eapply decideExperimentRun_safe.
  - by eapply decideExperimentRun_safe.
  - by eapply executeExperimentRun_safe.
  - by eapply abortExperimentRun_safe.
  - by eapply getModelProviders_safe.
  - by eapply putModelProviders_safe.
  - by eapply putModelProviderSecret_safe.
Qed.

Lemma http_error_safe h status text : hsafe c r h (http_error status text) (λ _ _, True).
Proof. unfold http_error. repeat handler_step. by intros ?. Qed.

Lemma mux_safe h p : (∀ q, p = Some q → authenticated c r h q) → hsafe c r h (mux c p r) (λ _ _, True).
Proof.
  intros Hauth. unfold mux. destruct (route_of c r) as [route|] eqn:Hroute.
  - apply List.find_some in Hroute as [Hin _]. pose proof routes_safe as Hsafe. rewrite Forall_forall in Hsafe.
    specialize (Hsafe route (proj2 (list_elem_of_In _ _) Hin)). unfold requireRole.
    destruct (route_Role route) as [role|] eqn:Hrole; [|apply Hsafe; by rewrite Hrole].
    destruct p as [q|]; [|apply hsafe_writeError]. destruct (HasRole q role) eqn:Hq; [|apply hsafe_writeError].
    apply Hsafe. rewrite Hrole. exists q. auto.
  - destruct (allowed_methods c r); [apply http_error_safe|]. handler_step. apply http_error_safe.
Qed.

(** * Middleware *)

Lemma withRateLimit_safe h p next :
  (∀ h', suffix h h' → hsafe c r h' next (λ _ _, True)) → hsafe c r h (withRateLimit p r next) (λ _ _, True).
Proof.
  intros Hnext. unfold withRateLimit. cbv zeta. handler_step; [permit|]. destruct x as [allowed retryAfter].
  repeat handler_step. apply Hnext. later.
Qed.

Lemma withAuthentication_safe h next :
  (∀ h' p, suffix h h' → (∀ q, p = Some q → authenticated c r h' q) → hsafe c r h' (next p) (λ _ _, True)) →
  hsafe c r h (withAuthentication c r next) (λ _ _, True).
Proof.
  intros Hnext. unfold withAuthentication. destruct (negb _); [by apply Hnext|].
  destruct (cfg_InsecureDevAuth c) eqn:Hdev.
  { apply Hnext; [done|]. intros q [= <-]. unfold authenticated. by rewrite Hdev. }
  destruct (negb (cfg_Authenticator c)); [apply hsafe_writeError|].
  destruct (Fields _) as [|scheme [|token []]] eqn:Hfields; try by repeat handler_step.
  destruct (_ || _) eqn:Hbearer; [by repeat handler_step|].
  assert (bearer_token r = Some token) as Htoken.
  { unfold bearer_token. rewrite Hfields. apply orb_false_iff in Hbearer as [He Ht]. by rewrite (proj1 (negb_false_iff _) He), Ht. }
  handler_step; [by split|]. destruct x as [q|]; [|by repeat handler_step].
  apply Hnext; [later|]. intros ? [= <-]. unfold authenticated. rewrite Hdev. exists token. split; [done | by left].
Qed.

Lemma withRequestLogging_safe h next : hsafe c r h next (λ _ _, True) → hsafe c r h (withRequestLogging next) (λ _ _, True).
Proof.
  intros Hnext w. unfold withRequestLogging. apply safe_bind. eapply safe_weaken; [|apply safe_persists, Hnext].
  intros h' [w' [[status payload|text]|a]]; cbn; intros Hshown; [|by intros ??..].
  intros h2 Hh2. split; [split; exact I|]. intros [] _ h3 Hh3. apply Hshown. later.
Qed.

Lemma withRecovery_safe h next : hsafe c r h next (λ _ _, True) → hsafe c r h (withRecovery next) (λ _ _, True).
Proof.
  intros Hnext w. unfold withRecovery. apply safe_bind. eapply safe_weaken; [|apply safe_persists, Hnext].
  intros h' [w' [[status payload|text]|a]]; cbn; intros Hshown; [|by intros ?? ?|by intros ??].
  intros h2 Hh2. by apply Hshown.
Qed.

Lemma handler_safe h : hsafe c r h (handler c r) (λ _ _, True).
Proof.
  unfold handler, withRequestID. cbv zeta.
  assert (∀ h', hsafe c r h' (withSecurityHeaders (withRecovery (withRequestLogging
    (withAuthentication c r (λ p, withRateLimit p r (withJSON (mux c p r))))))) (λ _ _, True)) as Hinner.
  { intros h' w. unfold withSecurityHeaders. apply withRecovery_safe, withRequestLogging_safe, withAuthentication_safe.
    intros h1 p Hh1 Hp. apply withRateLimit_safe. intros h2 Hh2. unfold withJSON. handler_step. apply mux_safe.
    intros q Hq. eapply authenticated_later; [exact Hh2 | by apply Hp]. }
  repeat handler_step; try permit; apply Hinner.
Qed.

(** * Serving a request *)

Lemma ServeHTTP_safe h :
  safe (permitted c r) any_answer h (ServeHTTP c r) (λ h' response, disclosable c r h' (resp_Payload response)).
Proof.
  unfold ServeHTTP. apply safe_bind. eapply safe_weaken; [|apply safe_persists, handler_safe].
  intros h' [w [[status payload|text]|[]]]; cbn; intros Hshown h2 Hh2; [by apply Hshown | by intros ?..].
Qed.

(** C2. While a request is served, whatever the components answer, every call is made in the right of an
    authenticated principal: the development principal where authentication is off, else the one the
    authenticator answered for the request's bearer token. The principal has the role the call needs; a call
    that acts carries its name; and where the call concerns a finding, a plan, a run, an approval, an
    exception or a chaos run, the request read that object before and found it in the principal's clusters
    and namespaces. Only health checks and the server's own bookkeeping need no principal. *)
Theorem calls_authorised h p' later X (e : ServerE X) x before
    (Hrun : performs (ServeHTTP c r) h p') (Hcall : h = later ++ Occ X e x :: before) :
  permitted c r X before e.
Proof.
  subst h. apply (obeys_at _ later X e x). eapply (performs_safe _ any_answer); [done | apply ServeHTTP_safe | exact Hrun].
Qed.

(** C3. A response shows nothing but an error message, the health or the sign-in configuration of the server
    without an authenticated principal; and what it shows of findings, managed resources, plans, runs,
    exceptions and chaos runs its principal may see: everything in a list is in the principal's namespaces, a
    single object was looked up and checked, and what concerns the whole cluster is shown to those who may
    access it. *)
Theorem responses_confined h response (Hrun : performs (ServeHTTP c r) h (Ret response)) :
  disclosable c r h (resp_Payload response).
Proof.
  destruct (performs_safe (permitted c r) any_answer _ _ _ _ (λ _ _ _ _, I) (ServeHTTP_safe []) Hrun) as [_ Hsafe].
  by apply Hsafe.
Qed.

End Routes.
