(* ===== verification/ServerStore.v ===== *)
(** The HTTP API and the AI agent over the in-memory store: any number of requests served and cycles run
    concurrently, with other users of the same store in between. What the store promises over histories of
    calls and what the API and the agent demand before they make a call add up to a promise about the whole. *)
From S2P Require Import Prelude GoLib Core Planner Store StoreProps StoreTrace StoreOps Interaction.
From S2P Require Import Principal Repository AgentData Http Server Routes ServerPolicy Agent AgentProps ServerLogic ServerProps.

Local Open Scope Z_scope.

Section Api.
Context `{RangeOrder} `{NameValidation}.
Variable c : ServerConfig.
Implicit Types (h : history ServerE) (σ : MemoryStore).

(** * Executions of the API *)

(** The request handlers and the agents' cycles are the programs; the store answers the repository's methods,
    in the order its lock lets them in, and anything may answer the other calls. *)
Definition configured (a : Agent) : Prop := ∃ config deps, New config deps = Ok a.
Definition serves (q : prog ServerE unit) : Prop :=
  (∃ r, q = prog_bind (λ _, Ret tt) (ServeHTTP c r)) ∨
  (∃ a, configured a ∧ q = prog_bind (λ _, Ret tt) (runCycle a)).

Definition starts σ : Prop := ∃ integrations findings, σ = NewMemoryStore [WithIntegrations integrations; WithFindings findings].

Definition answers X σ (e : ServerE X) : X → MemoryStore → Prop :=
  match e in ServerE X return X → MemoryStore → Prop with
  | Repo e => λ x σ', ∃ ctx now, memory_repository ctx now _ e σ = (x, σ')
  | _ => λ _ σ', σ' = σ
  end.

(** The other users of the store decide no approval and write no plan: the chaos manager, the loops that
    collect findings. *)
Definition other_user (call : StoreCall) : bool :=
  match call with CallApprove _ _ _ | CallReject _ _ _ | CallSyncRemediationPlan _ => false | _ => true end.
Definition others σ σ' : Prop := ∃ ctx now call, other_user call = true ∧ σ' = (perform ctx now call σ).2.

Definition served := execution starts serves answers others.

(** Every call is permitted to the request, or the agent, that made it. *)
Definition permitted_to_some X h (e : ServerE X) : Prop :=
  (∃ r, permitted c r X h e) ∨ (∃ a, configured a ∧ agent_permitted a X h e).

Lemma serves_safe q h : serves q → safe permitted_to_some any_answer h q (λ _ _, True).
Proof.
  intros [[r ->]|(a & Ha & ->)].
  - eapply safe_pre_weaken; [by left; exists r|]. apply safe_bind.
    eapply safe_weaken; [|apply ServeHTTP_safe]. by intros h' response _ h'' _.
  - eapply safe_pre_weaken; [by right; exists a|]. apply safe_bind.
    destruct Ha as (config & deps & Ha). destruct (New_config _ _ _ Ha) as (Hmax & _).
    eapply safe_weaken; [|by apply runCycle_safe]. by intros h' report _ h'' _.
Qed.

(** * The methods of the repository are calls of the store *)

Definition store_call {X} (e : RepositoryE X) : StoreCall :=
  match e with
  | RepoHealth => CallHealth
  | RepoDashboard => CallDashboard
  | RepoListFindings filter => CallListFindings filter
  | RepoGetFinding id => CallGetFinding id
  | RepoPreviewRemediationPlan findingID requester => CallPreviewRemediationPlan findingID requester
  | RepoCreateRemediationPlanFromFinding finding requester key => CallCreateRemediationPlanFromFinding finding requester [key]
  | RepoGetRemediationPlan id => CallGetRemediationPlan id
  | RepoGetRemediationPlanDiff id => CallGetRemediationPlanDiff id
  | RepoSyncRemediationPlan plan => CallSyncRemediationPlan plan
  | RepoExecuteRemediationPlan id actor => CallExecuteRemediationPlan id actor
  | RepoGetRemediationRun id => CallGetRemediationRun id
  | RepoRequestRollback runID actor => CallRequestRollback runID actor
  | RepoSyncFinding finding => CallSyncFinding finding
  | RepoExpireFindings observedBefore => CallExpireFindings observedBefore
  | RepoSyncRemediationRun run => CallSyncRemediationRun run
  | RepoUpdateFindingStatus id status actor reason => CallUpdateFindingStatus id status actor reason
  | RepoListExceptions => CallListExceptions
  | RepoCreateException exception actor => CallCreateException exception actor
  | RepoDeleteException id actor => CallDeleteException id actor
  | RepoApprove approvalID actor reason => CallApprove approvalID actor reason
  | RepoReject approvalID actor reason => CallReject approvalID actor reason
  | RepoListAuditEvents => CallListAuditEvents
  | RepoRecordAuditEvent event => CallRecordAuditEvent event
  | RepoListChaosRuns => CallListChaosRuns
  | RepoEvidenceBundle scope => CallEvidenceBundle scope
  | RepoListIntegrations => CallListIntegrations
  | RepoIntegrationHealth name => CallIntegrationHealth name
  | RepoGetModelProviders => CallGetModelProviders
  | RepoSaveModelProviders settings => CallSaveModelProviders settings
  end.

Lemma then_state {A} (m : M MemoryStore A) σ : ((m;; mret tt) σ).2 = (m σ).2.
Proof. unfold mbind, M_bind. destruct (m σ) as [[a|e] σ']; reflexivity. Qed.

Lemma repository_perform ctx now X (e : RepositoryE X) σ :
  (memory_repository ctx now X e σ).2 = (perform ctx now (store_call e) σ).2.
Proof. destruct e; cbn [memory_repository store_call perform]; rewrite ?then_state; reflexivity. Qed.

(** * Approvals *)

(** Some request approved the plan. *)
Definition approved_in h id : Prop :=
  ∃ actor reason approval, happened_in (Repo (RepoApprove ("approval-" +:+ id) actor reason)) (Ok approval) h.

Lemma approved_in_later h h' id : suffix h h' → approved_in h id → approved_in h' id.
Proof. intros Hh (actor & reason & approval & Hin). exists actor, reason, approval. by eapply in_later. Qed.

Definition is_approved_plan (plan : RemediationPlan) : Prop :=
  policy_Required (plan_ApprovalPolicy plan) = true ∧ policy_Decision (plan_ApprovalPolicy plan) = ApprovalApproved.

(** The approvals that are stored, or that a handler holds in a plan it is about to write back, were given. *)
Definition approvals_given h σ : Prop :=
  store_inv σ ∧ (∀ id, approved_plan σ id → approved_in h id) ∧
  ∀ finding actor key plan,
    happened_in (Repo (RepoCreateRemediationPlanFromFinding finding actor key)) (Ok plan) h →
    is_approved_plan plan → approved_in h (plan_ID plan).

Lemma keeps_approved ctx now call σ :
  store_inv σ → other_user call = true →
  ∀ id, approved_plan (perform ctx now call σ).2 id → approved_plan σ id.
Proof.
  intros Hinv Hcall.
  apply (stable_perform (decisions := False) (reuse := True) (P := λ σ', ∀ id, approved_plan σ' id → approved_plan σ id)); [done | | done].
  destruct call; try done; by left.
Qed.

Lemma locked_stored now finding actor key σ plan σ' :
  store_inv σ' → createRemediationPlanLocked now finding actor key σ = (Ok plan, σ') → ms_plans σ' !! plan_ID plan = Some plan.
Proof.
  intros Hinv Hrun. unfold createRemediationPlanLocked in Hrun. run_hyp Hrun.
  - match goal with Hp : ms_plans σ !! ?k = Some ?p |- _ => by rewrite (inv_plans _ Hinv _ _ Hp) end.
  - match goal with |- context [store_new_plan ?n ?p ?f ?r ?s0] => destruct (store_new_plan_fields n p f r s0) as (-> & _ & _) end.
    apply lookup_insert_eq.
  - match goal with |- context [store_new_plan ?n ?p ?f ?r ?s0] => destruct (store_new_plan_fields n p f r s0) as (-> & _ & _) end.
    apply lookup_insert_eq.
Qed.

Lemma created_stored ctx now finding actor keys σ plan σ' :
  store_inv σ' → CreateRemediationPlanFromFinding ctx now finding actor keys σ = (Ok plan, σ') →
  ms_plans σ' !! plan_ID plan = Some plan.
Proof.
  intros Hinv Hrun. unfold CreateRemediationPlanFromFinding in Hrun. run_hyp Hrun; by eapply locked_stored.
Qed.

(** The plan a call created. *)
Definition created_plan (o : occurrence ServerE) : option RemediationPlan :=
  match o with
  | Occ X e x =>
      match e in ServerE X return X → option RemediationPlan with
      | Repo e =>
          match e in RepositoryE X return X → option RemediationPlan with
          | RepoCreateRemediationPlanFromFinding _ _ _ => λ x, match x with Ok plan => Some plan | Err _ => None end
          | _ => λ _, None
          end
      | _ => λ _, None
      end x
  end.

(** A call that approves nothing, and creates no plan that is approved already but for a reason. *)
Lemma given_kept h σ σ' X (e : ServerE X) x :
  approvals_given h σ → store_inv σ' → (∀ id, approved_plan σ' id → approved_plan σ id) →
  (∀ plan, created_plan (Occ X e x) = Some plan → is_approved_plan plan → approved_plan σ' (plan_ID plan)) →
  approvals_given (Occ X e x :: h) σ'.
Proof.
  intros (Hinv & Hstored & Hheld) Hinv' Hkept Hcreated.
  assert (suffix h (Occ X e x :: h)) as Hh by (by exists [Occ X e x]).
  split_and!; [done | |].
  - intros id Hid. by eapply approved_in_later, Hstored, Hkept.
  - intros finding actor key plan [Heq|Hin]%elem_of_cons Happ; [|by eapply approved_in_later, Hheld].
    eapply approved_in_later; [exact Hh|]. apply Hstored, Hkept, Hcreated; [by rewrite <- Heq | done].
Qed.

Lemma given_others h σ σ' : others σ σ' → approvals_given h σ → approvals_given h σ'.
Proof.
  intros (ctx & now & call & Hcall & ->) (Hinv & Hstored & Hheld). split_and!; [by apply inv_perform | | done].
  intros id Hid. apply Hstored. by eapply keeps_approved.
Qed.

Lemma given_starts σ : starts σ → approvals_given [] σ.
Proof.
  intros (integrations & findings & ->). split_and!; [apply inv_init | |].
  - intros id Hid. by destruct (approved_plan_init _ _ _ Hid).
  - by intros ???? ?%elem_of_nil.
Qed.

(** Only an approval approves. *)
Lemma given_approve h σ ctx now id actor reason r σ' :
  approvals_given h σ → Approve ctx now id actor reason σ = (r, σ') →
  approvals_given (Occ _ (Repo (RepoApprove id actor reason)) r :: h) σ'.
Proof.
  intros (Hinv & Hstored & Hheld) Hrun. set (o := Occ _ _ r). assert (suffix h (o :: h)) as Hh by (by exists [o]).
  split_and!.
  - eapply inv_after; [|exact Hrun | exact Hinv]. apply inv_decide. by left.
  - intros planID Hid. destruct (decide_approved_plan _ _ _ _ _ _ _ _ _ _ Hinv Hrun Hid) as [Hid'|(Hok & _ & -> & _)].
    + by eapply approved_in_later, Hstored.
    + destruct r as [approval|]; [|done]. exists actor, reason, approval. by left.
  - intros finding actor' key plan [Heq|Hin]%elem_of_cons Hplan; [|by eapply approved_in_later, Hheld].
    by apply (f_equal created_plan) in Heq.
Qed.

Lemma given_reject h σ ctx now id actor reason r σ' :
  approvals_given h σ → Reject ctx now id actor reason σ = (r, σ') →
  approvals_given (Occ _ (Repo (RepoReject id actor reason)) r :: h) σ'.
Proof.
  intros Hgiven Hrun. pose proof Hgiven as (Hinv & _). apply (given_kept h σ); [done | | |done].
  - eapply inv_after; [|exact Hrun | exact Hinv]. apply inv_decide. right. by left.
  - intros planID Hid. by destruct (decide_approved_plan _ _ _ _ _ _ _ _ _ _ Hinv Hrun Hid) as [Hid'|(_ & [=] & _)].
Qed.

(** A handler writes back no plan but the one it was answered. *)
Lemma given_sync h σ ctx plan r σ' :
  approvals_given h σ → permitted_to_some _ h (Repo (RepoSyncRemediationPlan plan)) →
  SyncRemediationPlan ctx plan σ = (r, σ') →
  approvals_given (Occ _ (Repo (RepoSyncRemediationPlan plan)) r :: h) σ'.
Proof.
  intros (Hinv & Hstored & Hheld) Hpre Hrun.
  assert (is_approved_plan plan → approved_in h (plan_ID plan)) as Hplan.
  { destruct Hpre as [(r0 & _ & p & _ & _ & finding & key & plan0 & Hin & -> & _)|(a & _ & finding & plan0 & Hin & ->)];
      intros Happ; [by eapply (Hheld finding (Actor p) key plan0) | by eapply (Hheld finding _ _ plan0)]. }
  set (o := Occ _ _ r). assert (suffix h (o :: h)) as Hh by (by exists [o]). split_and!.
  - eapply inv_after; [|exact Hrun | exact Hinv]. apply inv_SyncRemediationPlan.
  - intros planID Hid. eapply approved_in_later; [exact Hh|]. unfold SyncRemediationPlan in Hrun. run_hyp Hrun; auto.
    destruct Hid as (p' & Hk & Happ). change (<[plan_ID plan := plan]> (ms_plans σ) !! planID = Some p') in Hk.
    apply lookup_insert_Some in Hk as [[<- <-]|[_ Hk]]; [by apply Hplan | apply Hstored; by exists p'].
  - intros finding' actor' key' plan' [Heq|Hin']%elem_of_cons Hplan'; [|by eapply approved_in_later, Hheld].
    by apply (f_equal created_plan) in Heq.
Qed.

Lemma given_repo X h σ σ' ctx now (e : RepositoryE X) x :
  memory_repository ctx now X e σ = (x, σ') → approvals_given h σ → permitted_to_some X h (Repo e) →
  approvals_given (Occ X (Repo e) x :: h) σ'.
Proof.
  intros Hrun Hgiven Hpre. pose proof Hgiven as (Hinv & _).
  pose proof (repository_perform ctx now X e σ) as Hperform. rewrite Hrun in Hperform. cbn [snd] in Hperform.
  assert (store_inv σ') as Hinv' by (rewrite Hperform; by apply inv_perform).
  destruct (other_user (store_call e)) eqn:Hother.
  - apply (given_kept h σ); [done.. | rewrite Hperform; by apply keeps_approved |].
    intros plan Hplan Happ. destruct e; try discriminate Hplan. destruct x as [plan'|]; [|done]. injection Hplan as ->.
    exists plan. split; [|exact Happ]. by eapply created_stored.
  - destruct e; try discriminate Hother; [by eapply given_sync | by eapply given_approve | by eapply given_reject].
Qed.

Lemma given_event X h σ σ' (e : ServerE X) x :
  answers X σ e x σ' → approvals_given h σ → permitted_to_some X h e → approvals_given (Occ X e x :: h) σ'.
Proof.
  intros Hanswers Hgiven Hpre. pose proof Hgiven as (Hinv & _).
  destruct e; [destruct Hanswers as (ctx & now & Hrun); by eapply given_repo | cbn in Hanswers; subst σ'; by apply (given_kept h σ)..].
Qed.

Lemma served_given h σ ts :
  served h σ ts → approvals_given h σ ∧ obeys permitted_to_some h.
Proof.
  intros Hserved. destruct (executions_obey permitted_to_some any_answer starts serves answers others approvals_given
    given_starts given_others) with (h := h) (σ := σ) (ts := ts) as (Hgiven & Hobeys & _); [| |done|done].
  - intros X h' σ1 σ2 e x Hanswers Hgiven _ Hpre. split; [done|]. by eapply given_event.
  - intros q h' Hq. by apply serves_safe.
Qed.

(** * The promise of the whole *)

(** An operator who may access the finding the plan is for asked for the execution. *)
Definition asked_by_operator h id actor : Prop :=
  ∃ r p, authenticated c r h p ∧ HasRole p RoleOperator = true ∧ actor = Actor p ∧ plan_accessible c h p id.

(** An agent did, which is configured to, for a plan it made, of tier A and without required approval. *)
Definition asked_by_agent h id actor : Prop :=
  ∃ config deps a, New config deps = Ok a ∧ agent_AutoPlan config = true ∧ agent_AutoExecuteTierA config = true ∧
    actor = agent_Actor (agent_config a) ∧ without_risk a h id.

(** An approver who may access the finding approved the plan and said why. *)
Definition approved_by_approver h id : Prop :=
  ∃ r p reason approval,
    happened_in (Repo (RepoApprove ("approval-" +:+ id) (Actor p) reason)) (Ok approval) h ∧ reason ≠ "" ∧
    authenticated c r h p ∧ HasRole p RoleApprover = true ∧ plan_accessible c h p id.

Lemma approval_authorised h id : obeys permitted_to_some h → approved_in h id → approved_by_approver h id.
Proof.
  intros Hobeys (actor & reason & approval & Hin). pose proof Hin as (later & before & ->)%list_elem_of_split.
  destruct (obeys_at _ _ _ _ _ _ Hobeys) as [(r & _ & p & Hauth & Hrole & -> & Hne & planID & Hid & Hplan)|(a & _ & [])].
  apply (inj (String.append "approval-")) in Hid as <-.
  assert (suffix before (later ++ Occ _ (Repo (RepoApprove ("approval-" +:+ id) (Actor p) reason)) (Ok approval) :: before)) as Hb.
  { apply suffix_app_r. by eexists [_]. }
  exists r, p, reason, approval. split_and!; [exact Hin | done | by eapply authenticated_later | done | by eapply plan_accessible_later].
Qed.

Lemma execution_asked h id actor :
  permitted_to_some _ h (Repo (RepoExecuteRemediationPlan id actor)) → asked_by_operator h id actor ∨ asked_by_agent h id actor.
Proof.
  intros [(r & _ & p & Hauth & Hrole & -> & Hplan)|(a & (config & deps & Ha) & -> & Hrisk)]; [left; by exists r, p | right].
  destruct (New_config _ _ _ Ha) as (_ & _ & Hexec). pose proof Hrisk as [Hauto _]. rewrite Hexec in Hauto.
  apply andb_true_iff in Hauto as [Hplan Hauto]. exists config, deps, a. by split_and!.
Qed.

(** C1. When the API, over the in-memory store, serves any number of concurrent requests while AI agents run
    their cycles and other users of the store act in between, a remediation plan is executed only at the request
    of an authenticated operator who may access the finding the plan is for, or of an agent configured to
    execute by itself, for a tier A plan without required approval that it made; never while the plan is
    stored as rejected; and, when its actions need approval, only after an authenticated approver, who may access that
    finding, approved it and said why. *)
Theorem api_execution_approved h σ ts later before id actor run
    (Hserved : served h σ ts)
    (Hexecuted : h = later ++ Occ _ (Repo (RepoExecuteRemediationPlan id actor)) (Ok run) :: before) :
  (asked_by_operator before id actor ∨ asked_by_agent before id actor) ∧
  ∃ σ0 ts0 plan, served before σ0 ts0 ∧ ms_plans σ0 !! id = Some plan ∧ plan_Status plan ≠ "rejected" ∧
    (policy_Required (plan_ApprovalPolicy plan) = true → approved_by_approver before id).
Proof.
  destruct (execution_at _ _ _ _ _ _ _ later _ _ _ before Hserved Hexecuted) as (σ0 & ts0 & σ1 & Hbefore & ctx & now & Hrun).
  destruct (served_given _ _ _ Hbefore) as [(_ & Hstored & _) Hobeys].
  split.
  - destruct (served_given _ _ _ Hserved) as [_ Hall]. rewrite Hexecuted in Hall. apply execution_asked, (obeys_at _ _ _ _ _ _ Hall).
  - cbn [memory_repository] in Hrun. unfold ExecuteRemediationPlan in Hrun. run_hyp Hrun.
    all: match goal with Hp : _ = Some ?plan |- _ => eexists _, ts0, plan; split; [exact Hbefore|]; split; [exact Hp|] end.
    all: split; [done|]; intros Hreq; apply approval_authorised, Hstored; [done|]; eexists; split_and!; [eassumption | done |].
    all: match goal with Ht : _ && _ = false |- _ => rewrite Hreq in Ht; cbn [andb] in Ht; by split_guards end.
Qed.
End Api.
