(* ===== verification/ServerScenario.v ===== *)
(** The HTTP API at work: an operator plans and an approver approves over the in-memory store, and a viewer
    of one namespace lists findings; then two cycles of the AI agent over the same store. *)
From Stdlib Require Import SpecFloat.
From S2P Require Import Prelude GoLib GoDuration Json Core Planner Store StoreTrace Correlation.
From S2P Require Import Interaction Kube Principal ManagedResources Limiter RequestBody Repository Http.
From S2P Require Import Server Routes ServerPolicy ServerProps ServerStore.
From S2P Require Import Listing AgentData.
From S2P Require Import Agent AgentProps.

Local Open Scope Z_scope.

#[local] Instance sample_validation : NameValidation := {| IsDNS1123Subdomain := λ _, true; IsConfigMapKey := λ _, true |}.
#[local] Existing Instance canonical_order.

(** * Surroundings *)

(** Who the authenticator knows. *)
Definition sample_verify (token : string) : result Principal :=
  if token == "token-ops" then Ok (mkPrincipal "ops" "Olga" {[ RoleOperator ]} ∅ {[ "east" ]})
  else if token == "token-app" then Ok (mkPrincipal "app" "Arne" {[ RoleApprover ]} ∅ {[ "east" ]})
  else if token == "token-view" then Ok (mkPrincipal "view" "Vera" {[ RoleViewer ]} {[ "shop" ]} ∅)
  else Err ErrUnauthenticated.

Definition no_component {A} : result A := Err (Errorf "not configured").

(** The store answers for the repository; the other components are not configured. *)
Definition sample_handle X (e : ServerE X) (σ : MemoryStore) : X * MemoryStore :=
  match e in ServerE X return X * MemoryStore with
  | Repo e => memory_repository Background 400 _ e σ
  | VerifyToken token => (sample_verify token, σ)
  | ServerNow => (400, σ)
  | NewRequestID => ("0123456789abcdef", σ)
  | LimiterAllow _ => ((true, 0), σ)
  | MetricsStarted => (100, σ)
  | MetricsRequests => (∅, σ)
  | MetricsCount _ => (tt, σ)
  | Notify _ => (Ok tt, σ)
  | AlreadyProcessed _ => (false, σ)
  | MarkProcessed _ => (tt, σ)
  | CollectAdapters => (mkCollection [] [] [], σ)
  | WorkflowHealth | WorkflowListFindings | WorkflowGetFinding _ | WorkflowListRuns | WorkflowListApprovals
  | WorkflowGetRun _ | WorkflowRenderDiff _ | WorkflowCreatePlan _ _ _ | WorkflowDecideApproval _ _ _ _
  | WorkflowRequestExecution _ _ | WorkflowRequestRollback _ _ | WorkflowCreateException _
  | WorkflowDeleteException _ | WorkflowSetFindingStatus _ _ _ _ | ChaosHealth | ChaosTargetNamespace _
  | ChaosRequest _ _ _ | ChaosApprove _ _ _ | ChaosReject _ _ _ | ChaosExecute _ _ | ChaosAbort _ _ _
  | ChaosGet _ | ChaosList | InspectorSnapshot | DiscoverManaged | Analyze _ _ | UpsertSecret _ _ _ _ => (no_component, σ)
  end.

Definition sample_config : ServerConfig :=
  mkServerConfig false "https://issuer.example" "kubeathrix" true "east" 0 true
    false false false false false false false "" "" "" DefaultConfig 0 false false false.

(** * Requests *)

Definition sample_request (method : string) (segments : list string) (token body : string) : Request :=
  mkRequest method segments ∅
    (list_to_map [("Authorization", "Bearer " +:+ token); ("Content-Type", "application/json");
                  ("Idempotency-Key", "request-0001")]) (requote body) "10.0.0.7:4711".

Definition sample_plan : string := IdempotentPlanID "f-1" "Olga (ops)" "request-0001".
Definition plan_request : Request := sample_request "POST" ["api"; "remediation-plans"] "token-ops" "{'findingId': 'f-1'}".
Definition approve_request : Request :=
  sample_request "POST" ["api"; "approvals"; "approval-" +:+ sample_plan; "approve"] "token-app" "{'reason': 'reviewed'}".
Definition execute_request : Request :=
  sample_request "POST" ["api"; "remediation-plans"; sample_plan; "execute"] "token-ops" "{}".

Definition serve (r : Request) (σ : MemoryStore) (h : history ServerE) : Response * MemoryStore * history ServerE :=
  drive sample_handle (ServeHTTP sample_config r) σ h.

Definition planned := serve plan_request sample_start [].
Definition approved := serve approve_request planned.1.2 planned.2.
Definition executed := serve execute_request approved.1.2 approved.2.

Example statuses : (resp_Status planned.1.1, resp_Status approved.1.1, resp_Status executed.1.1) = (201, 200, 202).
Proof. vm_compute. reflexivity. Qed.

(** * Their executions *)

Lemma drive_forget {E : Type → Type} {D A} (handle : ∀ X, E X → D → X * D) (q : prog E A) d h :
  drive handle (prog_bind (λ _, Ret tt) q) d h = (tt, (drive handle q d h).1.2, (drive handle q d h).2).
Proof.
  revert d h. induction q as [a|X e k IH]; intros d h; cbn; [done|]. destruct (handle X e d) as [x d']. apply IH.
Qed.

Lemma sample_handle_sound X (e : ServerE X) σ : answers X σ e (sample_handle X e σ).1 (sample_handle X e σ).2.
Proof. destruct e; try reflexivity. exists Background, 400. apply surjective_pairing. Qed.

Lemma serve_served r h σ ts :
  served sample_config h σ ts → ∃ ts', served sample_config (serve r σ h).2 (serve r σ h).1.2 ts'.
Proof.
  intros Hserved. set (q := prog_bind (λ _, Ret tt) (ServeHTTP sample_config r)).
  assert (served sample_config h σ (q :: ts)) as Hstarted by (apply exec_start; [left; by exists r | done]).
  pose proof (drive_execution sample_handle starts (serves sample_config) answers others (λ σ, σ) sample_handle_sound q σ h ts Hstarted)
    as Hdone.
  unfold q in Hdone. rewrite drive_forget in Hdone. destruct Hdone as [a Hdone]. by eexists.
Qed.

Lemma executed_served : ∃ ts, served sample_config executed.2 executed.1.2 ts.
Proof.
  assert (served sample_config [] sample_start []) as Hstart by (apply exec_init; by exists [], [sample_finding]).
  destruct (serve_served plan_request _ _ _ Hstart) as [ts1 Hplanned].
  destruct (serve_served approve_request _ _ _ Hplanned) as [ts2 Happroved]. by eapply serve_served.
Qed.

Definition sample_run : RemediationRun :=
  match (ExecuteRemediationPlan Background 400 sample_plan "Olga (ops)" approved.1.2).1 with Ok run => run | Err _ => zero_RemediationRun end.

Lemma api_execution_approved_witness :
  let before := tail (tail executed.2) in
  (asked_by_operator sample_config before sample_plan "Olga (ops)" ∨ asked_by_agent before sample_plan "Olga (ops)") ∧
  ∃ σ0 ts0 plan, served sample_config before σ0 ts0 ∧ ms_plans σ0 !! sample_plan = Some plan ∧ plan_Status plan ≠ "rejected" ∧
    (policy_Required (plan_ApprovalPolicy plan) = true → approved_by_approver sample_config before sample_plan).
Proof.
  destruct executed_served as [ts Hserved].
  refine (api_execution_approved sample_config executed.2 executed.1.2 ts [Occ _ (MetricsCount 202) tt] (tail (tail executed.2))
    sample_plan "Olga (ops)" sample_run Hserved _).
  vm_compute. reflexivity.
Defined.

(** * A viewer of the namespace [shop] *)

Definition other_finding : Finding :=
  sample_finding <| finding_ID := "f-2" |> <| finding_Resources := [mkResourceRef "v1" "Namespace" "" "bank"] |>.
Definition list_request : Request := sample_request "GET" ["api"; "findings"] "token-view" "".
Definition listed := serve list_request (NewMemoryStore [WithIntegrations []; WithFindings [sample_finding; other_finding]]) [].

Example viewer_sees : match resp_Payload listed.1.1 with
                      | PFindings l => (map finding_ID (findingList_Items l), findingList_Total l)
                      | _ => ([], 0)
                      end = (["f-1"], 1).
Proof. vm_compute. reflexivity. Qed.

Lemma responses_confined_witness :
  resp_Status listed.1.1 = 200 ∧ disclosable sample_config list_request listed.2 (resp_Payload listed.1.1).
Proof.
  split; [vm_compute; reflexivity|]. apply (responses_confined sample_config list_request listed.2 listed.1.1).
  unfold listed, serve.
  pose proof (drive_performs sample_handle (ServeHTTP sample_config list_request) (ServeHTTP sample_config list_request)
    (NewMemoryStore [WithIntegrations []; WithFindings [sample_finding; other_finding]]) [] (performs_none _)) as Hrun.
  destruct (drive sample_handle _ _ _) as [[response σ] h]. exact Hrun.
Defined.

Lemma calls_authorised_witness :
  permitted sample_config plan_request _ (tail (tail planned.2))
    (Repo (RepoCreateRemediationPlanFromFinding sample_finding "Olga (ops)" "request-0001")).
Proof.
  apply (calls_authorised sample_config plan_request planned.2 (Ret planned.1.1) [Occ _ (MetricsCount 201) tt] _ _
    (memory_repository Background 400 _ (RepoCreateRemediationPlanFromFinding sample_finding "Olga (ops)" "request-0001") sample_start).1).
  - unfold planned, serve.
    pose proof (drive_performs sample_handle (ServeHTTP sample_config plan_request) (ServeHTTP sample_config plan_request)
      sample_start [] (performs_none _)) as Hrun.
    destruct (drive sample_handle _ _ _) as [[response σ] h]. exact Hrun.
  - vm_compute. reflexivity.
Defined.

(** * A lost approval

    Creating a plan writes it back with the advisor's analysis, outside the lock under which it was created
    or read: an approval given in between is overwritten. The plan is pending again, its approval is not,
    and neither execution nor another approval succeeds. *)
Section LostApproval.
Let step {X} (e : RepositoryE X) (σ : MemoryStore) : X * MemoryStore := memory_repository Background 400 X e σ.

Definition sample_analysis : AIAnalysis := zero_AIAnalysis.

Definition lost_approval : option (string * string * bool * bool) :=
  match step (RepoCreateRemediationPlanFromFinding sample_finding "Olga (ops)" "request-0001") sample_start with
  | (Ok plan, σ) =>
      let σ := (step (RepoApprove ("approval-" +:+ plan_ID plan) "Arne (app)" "reviewed") σ).2 in
      let σ := (step (RepoSyncRemediationPlan (plan <| plan_AI := Some sample_analysis |>)) σ).2 in
      decision ← (λ p, policy_Decision (plan_ApprovalPolicy p)) <$> ms_plans σ !! plan_ID plan;
      status ← approval_Status <$> ms_approvals σ !! ("approval-" +:+ plan_ID plan);
      Some (decision, status,
        is_ok (step (RepoExecuteRemediationPlan (plan_ID plan) "Olga (ops)") σ).1,
        is_ok (step (RepoApprove ("approval-" +:+ plan_ID plan) "Arne (app)" "again") σ).1)
  | (Err _, _) => None
  end.

Example lost_approval_ex : lost_approval = Some (ApprovalPending, ApprovalApproved, false, false).
Proof. vm_compute. reflexivity. Qed.
End LostApproval.

(** * The AI agent at work: two cycles over the in-memory store *)

#[local] Existing Instance canonical_order.
#[local] Existing Instance sample_validation.

(** The store, and the keys of the findings done with. *)
Definition AgentWorld : Type := MemoryStore * gset string.

Definition agent_handle X (e : ServerE X) (w : AgentWorld) : X * AgentWorld :=
  match e in ServerE X return X * AgentWorld with
  | AlreadyProcessed key => (bool_decide (key ∈ w.2), w)
  | MarkProcessed key => (tt, (w.1, {[ key ]} ∪ w.2))
  | Analyze _ _ => (Ok zero_AIAnalysis, w)
  | e => let '(x, σ) := sample_handle _ e w.1 in (x, (σ, w.2))
  end.

Definition agent_sample_config : AgentConfig := mkAgentConfig true " " 0 50 5 true true 0 "https://hooks.example".
Definition agent_sample_dependencies : Dependencies := mkDependencies true true false true true false.

Definition governance_finding : Finding :=
  sample_finding <| finding_ID := "f-3" |> <| finding_Title := "ResourceQuota missing" |> <| finding_RiskScore := 60 |>.
Definition minor_finding : Finding :=
  sample_finding <| finding_ID := "f-4" |> <| finding_RiskScore := 20 |>.

Definition agent_start : AgentWorld :=
  (NewMemoryStore [WithIntegrations []; WithFindings [minor_finding; governance_finding; sample_finding]], ∅).

Definition sample_agent : Agent :=
  match New agent_sample_config agent_sample_dependencies with
  | Ok a => a
  | Err _ => mkAgent agent_sample_config agent_sample_dependencies
  end.

Definition first_cycle := drive agent_handle (runCycle sample_agent) agent_start [].
Definition second_cycle := drive agent_handle (runCycle sample_agent) first_cycle.1.2 [].

Definition no_report (r : result CycleReport) : CycleReport := match r with Ok report => report | Err _ => zero_CycleReport end.
Definition first_report : CycleReport := Eval vm_compute in no_report first_cycle.1.1.

Example first_report_ex : first_report = mkCycleReport 2 2 2 1 6 ["snapshot: not configured"].
Proof. vm_compute. reflexivity. Qed.

Example second_report_ex : no_report second_cycle.1.1 = mkCycleReport 1 0 0 0 0 ["snapshot: not configured"].
Proof. vm_compute. reflexivity. Qed.

Lemma first_cycle_performed : performs (runCycle sample_agent) first_cycle.2 (Ret (Ok first_report)).
Proof.
  pose proof (drive_performs agent_handle (runCycle sample_agent) (runCycle sample_agent) agent_start [] (performs_none _)) as Hrun.
  assert (first_cycle.1.1 = Ok first_report) as Hreport by (vm_compute; reflexivity).
  unfold first_cycle in *. destruct (drive agent_handle _ _ _) as [[r w] h]. cbn in Hreport |- *. by subst r.
Qed.

Lemma agent_report_bounds_witness :
  0 ≤ report_Executions first_report ≤ report_PlansCreated first_report ∧
  report_PlansCreated first_report ≤ report_Processed first_report ∧
  report_Processed first_report ≤ report_ObservedFindings first_report ∧
  report_Processed first_report ≤ agent_MaxFindingsPerCycle (agent_config sample_agent).
Proof.
  refine (agent_report_bounds agent_sample_config agent_sample_dependencies sample_agent first_cycle.2 first_report _ first_cycle_performed).
  vm_compute. reflexivity.
Defined.

(** The execution of the first cycle was the agent's to request. *)
Definition governance_plan : string := IdempotentPlanID "f-3" DefaultActor (idempotencyKey governance_finding).

Lemma agent_autonomy_witness :
  obeys (agent_permitted sample_agent) first_cycle.2 ∧
  (agent_AutoPlan agent_sample_config && agent_AutoExecuteTierA agent_sample_config = false →
   ∀ id actor answer, ¬ happened_in (Repo (RepoExecuteRemediationPlan id actor)) answer first_cycle.2).
Proof.
  refine (agent_autonomy agent_sample_config agent_sample_dependencies sample_agent first_cycle.2 _ _ first_cycle_performed).
  vm_compute. reflexivity.
Defined.

Example governance_executed :
  match ms_plans first_cycle.1.2.1 !! governance_plan with
  | Some plan => (plan_RiskTier plan, plan_Status plan)
  | None => ("", "")
  end = (RiskTierA, "execution_requested").
Proof. vm_compute. reflexivity. Qed.
