(* ===== verification/OperatorApi.v ===== *)
(** The Kubernetes API as the remediation operator sees it through its typed client: the fields of the
    API objects it reads or writes, the rest of an object kept as it is, and one event per client call.
    Quantities, ports and the accessors of unstructured objects belong to the client libraries and are
    fields of a class. *)
From S2P Require Import Prelude GoLib Json Kube Interaction.

Local Open Scope Z_scope.

Class OperatorLib (K : Kubernetes) := {
  (** [resource.Quantity] *)
  Quantity : Type;
  ParseQuantity : string → result Quantity;
  MustParse : string → Quantity;
  quantity_Sign : Quantity → Z;
  quantity_Cmp : Quantity → Quantity → Z;
  (** [intstr.IntOrString] *)
  IntOrString : Type;
  intstr_Parse : string → IntOrString;
  intstr_String : IntOrString → string;
  intstr_eqb : IntOrString → IntOrString → bool;
  (** the fields of API objects the program never looks at *)
  rest : Type;
  no_rest : rest;
  (** further accessors of unstructured objects *)
  NestedBool : list string → fields → result (option bool);
  NestedMap : list string → fields → result (option fields);
  SetNestedMap : fields → list string → fields → result fields;
  OfFields : fields → object;
  NewObject : string → string → object;
  SetObjectKey : string → string → object → object;
  GetGeneration : object → Z;
  GetAnnotations : object → gmap string string;
  SetAnnotations : gmap string string → object → object;
  GetResourceVersion : object → string;
  SetResourceVersion : string → object → object;
  AddFinalizer : string → object → bool * object
}.

Section Objects.
Context `{K : Kubernetes} {L : OperatorLib K}.

Record ObjectMeta := mkObjectMeta {
  om_Namespace : string;
  om_Name : string;
  om_Labels : gmap string string;
  om_ResourceVersion : string;
  om_Generation : Z;
  om_Rest : rest
}.
#[export] Instance eta_ObjectMeta : Eta ObjectMeta := λ r, mkObjectMeta (om_Namespace r) (om_Name r)
    (om_Labels r) (om_ResourceVersion r) (om_Generation r) (om_Rest r).
Definition new_meta (namespace name : string) : ObjectMeta := mkObjectMeta namespace name ∅ "" 0 no_rest.

Record Namespace := mkNamespace { ns_Meta : ObjectMeta; ns_Rest : rest }.

Record ResourceQuota := mkResourceQuota { quota_Meta : ObjectMeta; quota_Hard : gmap string Quantity; quota_Rest : rest }.

Record LimitRangeItem := mkLimitRangeItem {
  limit_Type : string;
  limit_DefaultRequest : gmap string Quantity;
  limit_Default : gmap string Quantity
}.
Record LimitRange := mkLimitRange { lr_Meta : ObjectMeta; lr_Limits : list LimitRangeItem; lr_Rest : rest }.

Record Probe := mkProbe {
  probe_HTTPGet : option (string * IntOrString);
  probe_InitialDelaySeconds : Z;
  probe_PeriodSeconds : Z;
  probe_TimeoutSeconds : Z;
  probe_FailureThreshold : Z;
  probe_SuccessThreshold : Z
}.

Record Container := mkContainer {
  c_Name : string;
  c_Requests : gmap string Quantity;
  c_Limits : gmap string Quantity;
  c_ReadinessProbe : option Probe;
  c_LivenessProbe : option Probe;
  c_Rest : rest
}.
#[export] Instance eta_Container : Eta Container := λ r, mkContainer (c_Name r) (c_Requests r) (c_Limits r)
    (c_ReadinessProbe r) (c_LivenessProbe r) (c_Rest r).

Record PodSpec := mkPodSpec { ps_InitContainers : list Container; ps_Containers : list Container; ps_Rest : rest }.
#[export] Instance eta_PodSpec : Eta PodSpec := λ r, mkPodSpec (ps_InitContainers r) (ps_Containers r) (ps_Rest r).

(** A Deployment, StatefulSet or DaemonSet; a kind leaves the status fields it lacks at zero. *)
Record Workload := mkWorkload {
  wl_Meta : ObjectMeta;
  wl_Replicas : option Z;
  wl_Selector : option (gmap string string);
  wl_PodSpec : PodSpec;
  wl_ObservedGeneration : Z;
  wl_UpdatedReplicas : Z;
  wl_AvailableReplicas : Z;
  wl_ReadyReplicas : Z;
  wl_DesiredNumberScheduled : Z;
  wl_UpdatedNumberScheduled : Z;
  wl_NumberAvailable : Z;
  wl_Rest : rest
}.
#[export] Instance eta_Workload : Eta Workload := λ r, mkWorkload (wl_Meta r) (wl_Replicas r)
    (wl_Selector r) (wl_PodSpec r) (wl_ObservedGeneration r) (wl_UpdatedReplicas r) (wl_AvailableReplicas r)
    (wl_ReadyReplicas r) (wl_DesiredNumberScheduled r) (wl_UpdatedNumberScheduled r) (wl_NumberAvailable r)
    (wl_Rest r).

Record PodDisruptionBudget := mkPodDisruptionBudget {
  pdb_Meta : ObjectMeta;
  pdb_MinAvailable : option IntOrString;
  pdb_Selector : option (gmap string string);
  pdb_ExpectedPods : Z;
  pdb_Rest : rest
}.

Record ConfigMap := mkConfigMap { cm_Meta : ObjectMeta; cm_Data : gmap string string; cm_Rest : rest }.

Inductive WorkloadKind := Deployment | StatefulSet | DaemonSet.

(** The client calls. An update of an unstructured object answers the object as stored, which replaces
    the caller's. *)
Inductive OperatorE : Type → Type :=
| Clock : OperatorE Time
| GetNamespaceObj (name : string) : OperatorE (result Namespace)
| UpdateNamespace (o : Namespace) (dryRun : bool) : OperatorE (result unit)
| GetQuota (namespace name : string) : OperatorE (result ResourceQuota)
| CreateQuota (o : ResourceQuota) (dryRun : bool) : OperatorE (result unit)
| UpdateQuota (o : ResourceQuota) (dryRun : bool) : OperatorE (result unit)
| GetLimitRange (namespace name : string) : OperatorE (result LimitRange)
| CreateLimitRange (o : LimitRange) (dryRun : bool) : OperatorE (result unit)
| UpdateLimitRange (o : LimitRange) (dryRun : bool) : OperatorE (result unit)
| GetBudget (namespace name : string) : OperatorE (result PodDisruptionBudget)
| CreateBudget (o : PodDisruptionBudget) (dryRun : bool) : OperatorE (result unit)
| UpdateBudget (o : PodDisruptionBudget) (dryRun : bool) : OperatorE (result unit)
| GetWorkload (kind : WorkloadKind) (namespace name : string) : OperatorE (result Workload)
| UpdateWorkload (kind : WorkloadKind) (o : Workload) (dryRun : bool) : OperatorE (result unit)
| GetConfigMap (namespace name : string) : OperatorE (result ConfigMap)
| CreateConfigMap (o : ConfigMap) : OperatorE (result unit)
| UpdateConfigMap (o : ConfigMap) : OperatorE (result unit)
| GetUnstructured (apiVersion kind namespace name : string) : OperatorE (result object)
| CreateUnstructured (o : object) : OperatorE (result object)
| UpdateUnstructured (o : object) : OperatorE (result object)
| DeleteUnstructured (o : object) : OperatorE (result unit)
| UpdateStatus (o : object) : OperatorE (result object).

(** [client.Object]: what [upsertObject] needs of the types it is used at. *)
Class ClientObject (T : Type) := {
  object_Meta : T → ObjectMeta;
  with_Meta : ObjectMeta → T → T;
  object_Type : string;
  object_Get : string → string → OperatorE (result T);
  object_Create : T → bool → OperatorE (result unit);
  object_Update : T → bool → OperatorE (result unit)
}.

#[export] Instance ResourceQuota_object : ClientObject ResourceQuota := {
  object_Meta := quota_Meta;
  with_Meta m o := mkResourceQuota m (quota_Hard o) (quota_Rest o);
  object_Type := "*v1.ResourceQuota";
  object_Get := GetQuota; object_Create := CreateQuota; object_Update := UpdateQuota
}.
#[export] Instance LimitRange_object : ClientObject LimitRange := {
  object_Meta := lr_Meta;
  with_Meta m o := mkLimitRange m (lr_Limits o) (lr_Rest o);
  object_Type := "*v1.LimitRange";
  object_Get := GetLimitRange; object_Create := CreateLimitRange; object_Update := UpdateLimitRange
}.
#[export] Instance PodDisruptionBudget_object : ClientObject PodDisruptionBudget := {
  object_Meta := pdb_Meta;
  with_Meta m o := mkPodDisruptionBudget m (pdb_MinAvailable o) (pdb_Selector o) (pdb_ExpectedPods o) (pdb_Rest o);
  object_Type := "*v1.PodDisruptionBudget";
  object_Get := GetBudget; object_Create := CreateBudget; object_Update := UpdateBudget
}.

End Objects.
Arguments OperatorE K {L}.
