(* ===== verification/Operator.v ===== *)
(** The remediation operator, [operator/controllers/remediation_controller.go], and the finding
    controller, [operator/controllers/finding_controller.go]: a reconciliation reads a plan, executes its
    typed actions behind the approval gate, with a dry run and a snapshot before each write, or restores
    the snapshots on a rollback, and records the outcome on the plan, its run and its finding. *)
From Stdlib Require Import SpecFloat.
From S2P Require Import Prelude GoLib Sha256 Json ActionCatalog Kube Interaction OperatorApi.

Local Open Scope Z_scope.

Definition plan_apiVersion : string := "security.kubeathrix.io/v1alpha1".
Definition errVerificationPending : GoError := Errorf "verification is pending cluster reconciliation".
Definition managed_by : string := "app.kubernetes.io/managed-by".
Definition owner : string := "kubeathrix".
Definition governance_name : string := "kubeathrix-defaults".

(** * Pure helpers *)

Definition boundedInt (raw : string) (fallback minimum maximum : Z) : Z :=
  if raw == "" then fallback
  else match ParseInt raw with
       | Some value => if (value <? minimum) || (maximum <? value) then fallback else value
       | None => fallback
       end.

Definition protectedNamespace (namespace : string) : bool :=
  (namespace == "kube-system") || (namespace == "kube-public") || (namespace == "kube-node-lease") ||
  HasPrefix namespace "openshift-".

Definition valueOr (value fallback : string) : string := if TrimSpace value == "" then fallback else value.

Definition childName (prefix parent : string) : string :=
  let value := prefix +:+ parent in
  if len value <=? 63 then value
  else Trim (string_take 50 value) "-" +:+ "-" +:+ string_take 12 (sha256_hex value).

(** [json.Marshal] of a [map[string]any], the empty text where it fails. *)
Definition marshal_map (m : fields) : string := default "" (marshal_any (AMap m)).

(** [strings.ReplaceAll(s, _, -)] *)
Definition underscores_to_dashes : string → string :=
  string_map (λ c, if byte_code c =? 95 then byte_of_code 45 else c).

(** [m[key] = value] and [delete(m, key)] *)
Fixpoint set_key (key : string) (v : any) (m : fields) : fields :=
  match m with
  | [] => [(key, v)]
  | kv :: rest => if kv.1 == key then (key, v) :: rest else kv :: set_key key v rest
  end.
Definition delete_key (key : string) (m : fields) : fields := List.filter (λ kv, kv.1 != key) m.

(** The value [json.Unmarshal] stores in an [any]: numbers become [float64], of the members of a name
    the last counts. [None]: a number is out of range. *)
Fixpoint any_of_unmarshal (v : json) : option any :=
  match v with
  | JNull => Some ANil
  | JBool b => Some (ABool b)
  | JNumber text => AFloat64 <$> parse_float text
  | JString s => Some (AString s)
  | JArray vs => ASlice <$> mapM any_of_unmarshal vs
  | JObject ms =>
      members ← mapM (λ m, a ← any_of_unmarshal m.2; Some (m.1, a)) ms;
      Some (AMap (foldl (λ m kv, set_key kv.1 kv.2 m) [] members))
  end.

Record remediationTarget := mkTarget {
  target_APIVersion : string;
  target_Kind : string;
  target_Namespace : string;
  target_Name : string
}.

Record snapshotItem := mkSnapshotItem {
  item_APIVersion : string;
  item_Kind : string;
  item_Namespace : string;
  item_Name : string;
  item_Existed : bool;
  item_Object : fields
}.
#[export] Instance eta_snapshotItem : Eta snapshotItem := λ r, mkSnapshotItem (item_APIVersion r) (item_Kind r)
    (item_Namespace r) (item_Name r) (item_Existed r) (item_Object r).

(** [json.Marshal] of the items: struct fields in declaration order, those with [omitempty] left out
    when empty. *)
Definition item_members (item : snapshotItem) : list (string * any) :=
  [("apiVersion", AString (item_APIVersion item)); ("kind", AString (item_Kind item))] ++
  (if item_Namespace item == "" then [] else [("namespace", AString (item_Namespace item))]) ++
  [("name", AString (item_Name item)); ("existed", ABool (item_Existed item))] ++
  match item_Object item with [] => [] | o => [("object", AMap o)] end.
Definition marshal_item (item : snapshotItem) : option string :=
  members ← mapM (λ kv, text ← marshal_any kv.2; Some (kv.1, text)) (item_members item);
  Some (brackets "{" "}" (map member_text members)).
Definition marshal_items (items : list snapshotItem) : result string :=
  match mapM marshal_item items with
  | Some parts => Ok (brackets "[" "]" parts)
  | None => Err json_error
  end.

Definition decode_bool (old : bool) (v : json) : result bool :=
  match v with JBool b => Ok b | JNull => Ok old | _ => Err json_error end.

(** [json.Unmarshal] of one member; unknown names are ignored. *)
Definition set_item_field (name : string) (v : json) (item : snapshotItem) : result snapshotItem :=
  if EqualFold name "apiVersion" then s ← decode_string (item_APIVersion item) v; Ok (item <| item_APIVersion := s |>)
  else if EqualFold name "kind" then s ← decode_string (item_Kind item) v; Ok (item <| item_Kind := s |>)
  else if EqualFold name "namespace" then s ← decode_string (item_Namespace item) v; Ok (item <| item_Namespace := s |>)
  else if EqualFold name "name" then s ← decode_string (item_Name item) v; Ok (item <| item_Name := s |>)
  else if EqualFold name "existed" then b ← decode_bool (item_Existed item) v; Ok (item <| item_Existed := b |>)
  else if EqualFold name "object" then
    match v with
    | JNull => Ok (item <| item_Object := [] |>)
    | JObject _ => match any_of_unmarshal v with Some (AMap m) => Ok (item <| item_Object := m |>) | _ => Err json_error end
    | _ => Err json_error
    end
  else Ok item.

Definition unmarshal_items (text : string) : result (list snapshotItem) :=
  v ← parse_json text;
  match v with
  | JNull => Ok []
  | JArray vs => decode_all (decode_struct set_item_field (mkSnapshotItem "" "" "" "" false [])) vs
  | _ => Err json_error
  end.

Section Operator.
Context `{K : Kubernetes} {L : OperatorLib K} `{RangeOrder}.

Abbreviation op A := (P (OperatorE K) A).

Definition wrap_error {A} (msg : string) (p : op A) : op A := prog_bind (λ r, Ret (with_context msg r)) p.

Definition nested_string (path : list string) (m : fields) : string := found_or "" (NestedString path m).
Definition nested_bool (path : list string) (m : fields) : bool := found_or false (NestedBool path m).
Definition nested_int (path : list string) (m : fields) : Z := found_or 0 (NestedInt64 path m).
Definition nested_map (path : list string) (m : fields) : fields := found_or [] (NestedMap path m).
Definition params_of (action : fields) : gmap string string := found_or ∅ (NestedStringMap ["params"] action).
Definition param_of (action : fields) (name : string) : string := default "" (params_of action !! name).

Definition NewRemediationPlanObject (namespace name : string) : object :=
  SetObjectKey namespace name (NewObject plan_apiVersion "RemediationPlan").
Definition NewRemediationRunObject (namespace name : string) : object :=
  SetObjectKey namespace name (NewObject plan_apiVersion "RemediationRun").
Definition NewFindingObject (namespace name : string) : object :=
  SetObjectKey namespace name (NewObject plan_apiVersion "Finding").

(** [o.Object[key] = v] *)
Definition set_object_key (key : string) (v : any) (o : object) : object := OfFields (set_key key v (Object o)).

(** * Targets *)

Definition targetNamespace (action : fields) : result string :=
  match NestedMap ["target"] action with
  | Ok (Some target) =>
      let kind := nested_string ["kind"] target in
      let namespace := nested_string ["namespace"] target in
      if kind == "Namespace" then Ok (nested_string ["name"] target)
      else if namespace != "" then Ok namespace
      else Err (Errorf "namespace could not be derived from target")
  | _ => Err (Errorf "action target is required")
  end.

Definition actionTarget (action : fields) : result remediationTarget :=
  match NestedMap ["target"] action with
  | Ok (Some target) =>
      let t := mkTarget (nested_string ["apiVersion"] target) (nested_string ["kind"] target)
                 (nested_string ["namespace"] target) (nested_string ["name"] target) in
      unless (negb ((target_Name t == "") || (target_Kind t == "") || (target_APIVersion t == "")))
        "action target must include apiVersion, kind, and name";;
      unless (negb ((target_Kind t != "Namespace") && (target_Namespace t == "")))
        "namespaced action target requires namespace";;
      Ok t
  | _ => Err (Errorf "action target is required")
  end.

(** * Owned objects *)

Definition meta_key (m : ObjectMeta) : string := om_Namespace m +:+ "/" +:+ om_Name m.

Definition upsertObject {T} {C : ClientObject (K := K) T} (obj : T) (dryRun : bool) : op unit :=
  let obj := with_Meta ((object_Meta obj) <| om_Labels := <[managed_by := owner]> (om_Labels (object_Meta obj)) |>) obj in
  let m := object_Meta obj in
  current ← attempt (call (object_Get (om_Namespace m) (om_Name m)));
  match current with
  | Err err => if IsNotFound err then call (object_Create obj dryRun) else raise err
  | Ok current =>
      raise_if (default "" (om_Labels (object_Meta current) !! managed_by) != owner)
        (Errorf ("refusing to take ownership of existing " +:+ object_Type +:+ " " +:+ meta_key m));;
      let obj := with_Meta (m <| om_ResourceVersion := om_ResourceVersion (object_Meta current) |>) obj in
      call (object_Update obj dryRun)
  end.

Definition governance_quota (namespace : string) : ResourceQuota :=
  mkResourceQuota (new_meta namespace governance_name)
    (<["requests.cpu" := MustParse "4"]> {["requests.memory" := MustParse "8Gi"]}) no_rest.
Definition governance_limits (namespace : string) : LimitRange :=
  mkLimitRange (new_meta namespace governance_name)
    [mkLimitRangeItem "Container"
       (<["cpu" := MustParse "100m"]> {["memory" := MustParse "128Mi"]})
       (<["cpu" := MustParse "500m"]> {["memory" := MustParse "512Mi"]})] no_rest.

Definition applyResourceGovernance (namespace : string) (dryRun : bool) : op unit :=
  raise_if (namespace == "") (Errorf "namespace target is required for resource governance");;
  upsertObject (governance_quota namespace) dryRun;;
  upsertObject (governance_limits namespace) dryRun.

Definition verifyResourceGovernance (namespace : string) : op unit :=
  quota ← wrap_error "read ResourceQuota" (call (GetQuota namespace governance_name));
  raise_if (negb match quota_Hard quota !! "requests.cpu", quota_Hard quota !! "requests.memory" with
                 | Some cpu, Some memory => (quantity_Cmp cpu (MustParse "4") =? 0) &&
                                            (quantity_Cmp memory (MustParse "8Gi") =? 0)
                 | _, _ => false
                 end) (Errorf "ResourceQuota does not match the planned limits");;
  limitRange ← wrap_error "read LimitRange" (call (GetLimitRange namespace governance_name));
  raise_if (negb (Nat.eqb (length (lr_Limits limitRange)) 1))
    (Errorf "LimitRange does not contain the planned defaults").

Definition executeGovernance (action : fields) (dryRun : bool) : op string :=
  namespace ← pure_result (targetNamespace action);
  applyResourceGovernance namespace dryRun;;
  if dryRun then mret "Kubernetes server-side dry-run passed for ResourceQuota and LimitRange"
  else
    wrap_error "post-write verification failed" (verifyResourceGovernance namespace);;
    mret "ResourceQuota and LimitRange were read back and match the planned governance profile".

(** * Pod Security labels *)

Definition desired_labels (action : fields) : gmap string string :=
  list_to_map [("pod-security.kubernetes.io/enforce", valueOr (param_of action "enforce") "baseline");
               ("pod-security.kubernetes.io/audit", valueOr (param_of action "audit") "restricted");
               ("pod-security.kubernetes.io/warn", valueOr (param_of action "warn") "restricted")].

Definition executePodSecurityLabels (action : fields) (dryRun : bool) : op string :=
  namespace ← pure_result (targetNamespace action);
  raise_if (protectedNamespace namespace)
    (Errorf ("namespace " +:+ namespace +:+ " is protected from Pod Security label mutation"));;
  let desired := desired_labels action in
  o ← call (GetNamespaceObj namespace);
  let m := ns_Meta o in
  let o := mkNamespace (m <| om_Labels := desired ∪ om_Labels m |>) (ns_Rest o) in
  call (UpdateNamespace o dryRun);;
  if dryRun then mret "Kubernetes server-side dry-run passed for exact namespace label patch"
  else
    verified ← call (GetNamespaceObj namespace);
    match List.find (λ kv, negb (bool_decide (om_Labels (ns_Meta verified) !! kv.1 = Some kv.2))) (range desired) with
    | Some (key, _) => raise (Errorf ("namespace label " +:+ key +:+ " was not persisted"))
    | None => mret "Pod Security labels were read back from the Namespace and match the plan"
    end.

(** * Workloads *)

Definition workload_kind (kind : string) : option WorkloadKind :=
  if kind == "Deployment" then Some Deployment
  else if kind == "StatefulSet" then Some StatefulSet
  else if kind == "DaemonSet" then Some DaemonSet
  else None.

Definition updateWorkload (action : fields) (dryRun : bool) (mutate : PodSpec → result PodSpec) : op unit :=
  target ← pure_result (actionTarget action);
  match workload_kind (target_Kind target) with
  | None => raise (Errorf ("unsupported workload kind " +:+ target_Kind target))
  | Some kind =>
      workload ← call (GetWorkload kind (target_Namespace target) (target_Name target));
      spec ← pure_result (mutate (wl_PodSpec workload));
      call (UpdateWorkload kind (workload <| wl_PodSpec := spec |>) dryRun)
  end.

Definition verifyWorkload (action : fields) (verify : PodSpec → result unit) : op unit :=
  target ← pure_result (actionTarget action);
  match workload_kind (target_Kind target) with
  | None => raise (Errorf ("unsupported workload kind " +:+ target_Kind target))
  | Some kind =>
      workload ← call (GetWorkload kind (target_Namespace target) (target_Name target));
      pure_result (verify (wl_PodSpec workload))
  end.

Definition desired_replicas (w : Workload) : Z := default 1 (wl_Replicas w).
Definition pending (what : string) : GoError := Wrapf errVerificationPending what.

(** A kind without a rollout check passes. *)
Definition verifyWorkloadRollout (action : fields) : op unit :=
  target ← pure_result (actionTarget action);
  match workload_kind (target_Kind target) with
  | None => mret tt
  | Some kind =>
      w ← call (GetWorkload kind (target_Namespace target) (target_Name target));
      let stale := wl_ObservedGeneration w <? om_Generation (wl_Meta w) in
      let desired := desired_replicas w in
      match kind with
      | Deployment =>
          raise_if (stale || (wl_UpdatedReplicas w <? desired) || (wl_AvailableReplicas w <? desired))
            (pending "Deployment rollout is not yet available")
      | StatefulSet =>
          raise_if (stale || (wl_ReadyReplicas w <? desired) || (wl_UpdatedReplicas w <? desired))
            (pending "StatefulSet rollout is not yet ready")
      | DaemonSet =>
          raise_if (stale || (wl_DesiredNumberScheduled w =? 0) ||
                    (wl_UpdatedNumberScheduled w <? wl_DesiredNumberScheduled w) ||
                    (wl_NumberAvailable w <? wl_DesiredNumberScheduled w))
            (pending "DaemonSet rollout is not yet ready")
      end
  end.

Definition setIfMissing (name : string) (q : Quantity) (values : gmap string Quantity) : gmap string Quantity :=
  match values !! name with Some _ => values | None => <[name := q]> values end.

(** Parses the two quantities of a group, in the order the map is visited. *)
Fixpoint parse_quantities (what : string) (values : list (string * string)) (acc : gmap string Quantity) :
    result (gmap string Quantity) :=
  match values with
  | [] => Ok acc
  | (name, value) :: rest =>
      match ParseQuantity value with
      | Ok q => if quantity_Sign q <=? 0 then Err (Errorf ("invalid " +:+ what +:+ " quantity for " +:+ name))
                else parse_quantities what rest (<[name := q]> acc)
      | Err _ => Err (Errorf ("invalid " +:+ what +:+ " quantity for " +:+ name))
      end
  end.

Definition set_resources (requests limits : gmap string Quantity) (c : Container) : Container :=
  let fill values := λ m, foldl (λ m name, match values !! name with Some q => setIfMissing name q m | None => m end)
                            m ["cpu"; "memory"] in
  c <| c_Requests := fill requests (c_Requests c) |> <| c_Limits := fill limits (c_Limits c) |>.

Definition resources_missing (c : Container) (name : string) : option string :=
  match c_Requests c !! name, c_Limits c !! name with
  | None, _ => Some ("container " +:+ c_Name c +:+ " is still missing request " +:+ name)
  | _, None => Some ("container " +:+ c_Name c +:+ " is still missing limit " +:+ name)
  | _, _ => None
  end.

Definition verify_resources (spec : PodSpec) : result unit :=
  match omap (λ cn, resources_missing cn.1 cn.2)
          (flat_map (λ c, [(c, "cpu"); (c, "memory")]) (ps_InitContainers spec ++ ps_Containers spec)) with
  | problem :: _ => Err (Errorf problem)
  | [] => Ok tt
  end.

Definition executeWorkloadResources (action : fields) (dryRun : bool) : op string :=
  requests ← pure_result (parse_quantities "request"
    (range (<["cpu" := param_of action "cpuRequest"]> {["memory" := param_of action "memoryRequest"]})) ∅);
  limits ← pure_result (parse_quantities "limit"
    (range (<["cpu" := param_of action "cpuLimit"]> {["memory" := param_of action "memoryLimit"]})) ∅);
  let mutate (spec : PodSpec) : result PodSpec :=
    Ok (spec <| ps_InitContainers := map (set_resources requests limits) (ps_InitContainers spec) |>
             <| ps_Containers := map (set_resources requests limits) (ps_Containers spec) |>) in
  updateWorkload action dryRun mutate;;
  if dryRun then mret "Kubernetes server-side dry-run passed for named workload containers"
  else
    verifyWorkload action verify_resources;;
    verifyWorkloadRollout action;;
    mret "Workload resource requests and limits were read back for every container".

(** ** Probes *)

Definition safeHTTPProbe (path : string) (port : IntOrString) (action : fields) : Probe :=
  mkProbe (Some (path, port))
    (boundedInt (param_of action "initialDelaySeconds") 5 0 300)
    (boundedInt (param_of action "periodSeconds") 10 2 300)
    (boundedInt (param_of action "timeoutSeconds") 2 1 30)
    (boundedInt (param_of action "failureThreshold") 3 1 10) 1.

Definition probeMatches (probe : option Probe) (path : string) (port : IntOrString) : bool :=
  match probe with
  | Some p => match probe_HTTPGet p with
              | Some (path', port') => (path' == path) && intstr_eqb port' port
              | None => false
              end
  | None => false
  end.

Definition fill_probe (old : option Probe) (new : Probe) : option Probe :=
  match old with Some p => Some p | None => Some new end.

(** The first container of that name gets the probes it lacks. *)
Fixpoint set_probes (name : string) (readiness liveness : Probe) (containers : list Container) :
    option (list Container) :=
  match containers with
  | [] => None
  | c :: rest =>
      if c_Name c == name then
        Some (c <| c_ReadinessProbe := fill_probe (c_ReadinessProbe c) readiness |>
                <| c_LivenessProbe := fill_probe (c_LivenessProbe c) liveness |> :: rest)
      else cons c <$> set_probes name readiness liveness rest
  end.

Definition missing_container (name : string) : GoError :=
  Errorf ("configured container " +:+ name +:+ " does not exist").

Definition executeWorkloadProbes (action : fields) (dryRun : bool) : op string :=
  raise_if (param_of action "configured" != "true") (Errorf "probe execution requires configured=true");;
  let name := param_of action "container" in
  let port := intstr_Parse (param_of action "port") in
  let readinessPath := param_of action "readinessPath" in
  let livenessPath := param_of action "livenessPath" in
  let mutate (spec : PodSpec) : result PodSpec :=
    match set_probes name (safeHTTPProbe readinessPath port action) (safeHTTPProbe livenessPath port action)
            (ps_Containers spec) with
    | Some containers => Ok (spec <| ps_Containers := containers |>)
    | None => Err (missing_container name)
    end in
  let verify (spec : PodSpec) : result unit :=
    match List.find (λ c, c_Name c == name) (ps_Containers spec) with
    | Some c => if probeMatches (c_ReadinessProbe c) readinessPath port &&
                   probeMatches (c_LivenessProbe c) livenessPath port then Ok tt
                else Err (Errorf ("configured probes were not persisted for container " +:+ name))
    | None => Err (missing_container name)
    end in
  updateWorkload action dryRun mutate;;
  if dryRun then mret "Kubernetes server-side dry-run passed for explicit probe configuration"
  else
    verifyWorkload action verify;;
    verifyWorkloadRollout action;;
    mret "Explicit readiness and liveness probes were read back from the workload template".

(** ** Disruption budgets *)

Definition budget_name (target : remediationTarget) : string := target_Name target +:+ "-kubeathrix".

Definition budget_selector (target : remediationTarget) : op (gmap string string) :=
  match workload_kind (target_Kind target) with
  | Some Deployment | Some StatefulSet =>
      let kind := if target_Kind target == "Deployment" then Deployment else StatefulSet in
      w ← call (GetWorkload kind (target_Namespace target) (target_Name target));
      match wl_Selector w with
      | Some labels => mret labels
      | None => raise (Panic "nil pointer dereference")
      end
  | _ => raise (Errorf ("PDB action does not support " +:+ target_Kind target))
  end.

Definition executePDB (action : fields) (dryRun : bool) : op string :=
  target ← pure_result (actionTarget action);
  selector ← budget_selector target;
  raise_if (bool_decide (selector = ∅)) (Errorf "refusing to create a PDB with an empty workload selector");;
  let minimum := intstr_Parse (param_of action "minAvailable") in
  let name := budget_name target in
  upsertObject (mkPodDisruptionBudget (new_meta (target_Namespace target) name) (Some minimum) (Some selector) 0 no_rest)
    dryRun;;
  if dryRun then mret "Kubernetes server-side dry-run passed for a non-empty exact PDB selector"
  else
    verified ← call (GetBudget (target_Namespace target) name);
    raise_if (negb match pdb_Selector verified, pdb_MinAvailable verified with
                   | Some labels, Some n => negb (bool_decide (labels = ∅)) && (intstr_String n == intstr_String minimum)
                   | _, _ => false
                   end) (Errorf "PodDisruptionBudget does not match the planned selector and threshold");;
    raise_if (pdb_ExpectedPods verified =? 0) (pending "PodDisruptionBudget controller has not observed matching pods");;
    mret "PodDisruptionBudget was read back with the exact workload selector and threshold".

Definition executeTypedAction (action : fields) (dryRun : bool) : op string :=
  let actionType := nested_string ["type"] action in
  if actionType == "apply_resource_governance" then executeGovernance action dryRun
  else if actionType == "patch_pod_security_labels" then executePodSecurityLabels action dryRun
  else if actionType == "patch_workload_resources" then executeWorkloadResources action dryRun
  else if actionType == "create_pdb" then executePDB action dryRun
  else if actionType == "patch_workload_probes" then executeWorkloadProbes action dryRun
  else raise (Errorf ("no direct executor registered for action " +:+ actionType)).

(** * Snapshots *)

Definition snapshotKey (action : fields) : string :=
  underscores_to_dashes (nested_string ["type"] action) +:+ "-" +:+
  string_take 12 (sha256_hex (marshal_map action)) +:+ ".json".

Definition snapshot_refs (action : fields) : result (list remediationTarget) :=
  let actionType := nested_string ["type"] action in
  target ← actionTarget action;
  if actionType == "apply_resource_governance" then
    namespace ← targetNamespace action;
    Ok [mkTarget "v1" "ResourceQuota" namespace governance_name; mkTarget "v1" "LimitRange" namespace governance_name]
  else if actionType == "create_pdb" then
    Ok [mkTarget "policy/v1" "PodDisruptionBudget" (target_Namespace target) (budget_name target)]
  else if actionType == "patch_pod_security_labels" then
    Ok [mkTarget "v1" "Namespace" "" (target_Name target)]
  else if (actionType == "patch_workload_resources") || (actionType == "patch_workload_probes") then Ok [target]
  else Err (Errorf ("action " +:+ actionType +:+ " does not support snapshots")).

Definition sanitizeObject (o : object) : object :=
  let m := delete_key "status" (Object o) in
  let metadata := foldl (λ md key, delete_key key md) (nested_map ["metadata"] m)
    ["resourceVersion"; "uid"; "generation"; "creationTimestamp"; "managedFields"; "selfLink"] in
  match SetNestedMap m ["metadata"] metadata with Ok m => OfFields m | Err _ => OfFields m end.

Fixpoint snapshot_items (refs : list remediationTarget) (items : list snapshotItem) : op (list snapshotItem) :=
  match refs with
  | [] => mret items
  | ref :: rest =>
      let item := mkSnapshotItem (target_APIVersion ref) (target_Kind ref) (target_Namespace ref) (target_Name ref) in
      got ← attempt (call (GetUnstructured (target_APIVersion ref) (target_Kind ref) (target_Namespace ref) (target_Name ref)));
      match got with
      | Err err => if IsNotFound err then snapshot_items rest (items ++ [item false []]) else raise err
      | Ok o => snapshot_items rest (items ++ [item true (Object (sanitizeObject o))])
      end
  end.

Definition snapshotItemsForAction (action : fields) : op (list snapshotItem) :=
  refs ← pure_result (snapshot_refs action);
  snapshot_items refs [].

Definition snapshot_name (plan : object) : string := childName "snapshot-" (GetName plan).
Definition snapshot_limit : Z := 900 * 1024.
Definition new_snapshot_map (plan : object) : ConfigMap :=
  mkConfigMap ((new_meta (GetNamespace plan) (snapshot_name plan))
    <| om_Labels := <[managed_by := owner]> {["security.kubeathrix.io/plan" := GetName plan]} |>) ∅ no_rest.

Definition write_snapshot (configMap : ConfigMap) : op unit :=
  if om_ResourceVersion (cm_Meta configMap) == "" then call (CreateConfigMap configMap)
  else call (UpdateConfigMap configMap).

Definition ensureActionSnapshot (plan : object) (action : fields) : op string :=
  let name := snapshot_name plan in
  let key := snapshotKey action in
  let ref := "ConfigMap/" +:+ GetNamespace plan +:+ "/" +:+ name +:+ "#" +:+ key in
  got ← attempt (call (GetConfigMap (GetNamespace plan) name));
  let save (configMap : ConfigMap) : op string :=
    items ← snapshotItemsForAction action;
    payload ← pure_result (marshal_items items);
    raise_if (snapshot_limit <? len payload) (Errorf "snapshot exceeds the safe ConfigMap payload limit");;
    write_snapshot (mkConfigMap (cm_Meta configMap) (<[key := payload]> (cm_Data configMap)) (cm_Rest configMap));;
    mret ref in
  match got with
  | Ok configMap => match cm_Data configMap !! key with Some _ => mret ref | None => save configMap end
  | Err err => if IsNotFound err then save (new_snapshot_map plan) else raise err
  end.

(** * The actions of a plan *)

Record planResult := mkPlanResult {
  res_phase : string;
  res_runState : string;
  res_message : string;
  res_diffSummary : string;
  res_verificationResult : string;
  res_rollbackRef : string;
  res_lastError : string;
  res_actionStatuses : list any;
  res_dryRunPassed : bool;
  res_dryRunMessage : string;
  res_requeueAfter : Duration
}.
#[export] Instance eta_planResult : Eta planResult := λ r, mkPlanResult (res_phase r) (res_runState r)
    (res_message r) (res_diffSummary r) (res_verificationResult r) (res_rollbackRef r) (res_lastError r)
    (res_actionStatuses r) (res_dryRunPassed r) (res_dryRunMessage r) (res_requeueAfter r).

Definition action_status (actionType state message : string) : any :=
  AMap [("actionType", AString actionType); ("state", AString state); ("message", AString message)].
Definition add_status (status : any) (result : planResult) : planResult :=
  result <| res_actionStatuses := res_actionStatuses result ++ [status] |>.

Definition catalog_entry (action : fields) : CatalogAction :=
  let target := nested_map ["target"] action in
  mkCatalogAction (nested_string ["type"] action) (nested_string ["apiVersion"] target)
    (nested_string ["kind"] target) (params_of action).

(** The three gates before execution: approval, and the request to execute. *)
Record planGate := mkGate { gate_required : bool; gate_decision : string; gate_execution : bool }.
Definition plan_gate (plan : object) : planGate :=
  mkGate (nested_bool ["spec"; "approvalPolicy"; "required"] (Object plan))
    (nested_string ["spec"; "approvalPolicy"; "decision"] (Object plan))
    (nested_bool ["spec"; "executionRequested"] (Object plan)).
Definition plan_actions (plan : object) : list any := found_or [] (NestedSlice ["spec"; "actions"] (Object plan)).

Definition prepared (actions : list any) : planResult :=
  mkPlanResult "Prepared" "prepared" "typed actions prepared; execution has not been requested"
    (Itoa (Z.of_nat (length actions)) +:+ " typed action(s) inspected")
    "no verification performed because execution has not been requested"
    "pre-change snapshot required before mutating write" "" [] false
    "server-side dry-run has not been performed" 0.

(** The outcome when a gate stops the plan. *)
Definition gate_result (gate : planGate) (result : planResult) : option planResult :=
  if gate_required gate && (gate_decision gate == "rejected") then
    Some (result <| res_phase := "Rejected" |> <| res_runState := "failed" |>
      <| res_message := "approval was rejected; execution is blocked" |>
      <| res_verificationResult := "no cluster write attempted" |>)
  else if gate_required gate && (gate_decision gate != "approved") then
    Some (result <| res_phase := "PendingApproval" |> <| res_runState := "pending_approval" |>
      <| res_message := "approval gate is still required" |>
      <| res_verificationResult := "waiting for explicit approval" |>)
  else if gate_required gate && (gate_decision gate == "approved") && negb (gate_execution gate) then
    Some (result <| res_phase := "Approved" |> <| res_runState := "approved" |>
      <| res_message := "approval recorded; execution has not been requested" |>
      <| res_verificationResult := "no dry-run or cluster write performed" |>)
  else if negb (gate_execution gate) then Some result
  else None.

(** The counters of the loop with the result so far. *)
Record loopState := mkLoop { ls_applied : Z; ls_dryRuns : Z; ls_proposals : Z; ls_result : planResult }.
#[export] Instance eta_loopState : Eta loopState := λ r,
  mkLoop (ls_applied r) (ls_dryRuns r) (ls_proposals r) (ls_result r).

Definition dry_run_message (n : Z) : string :=
  "Kubernetes server-side dry-run passed for " +:+ Itoa n +:+ " action(s)".

Definition failed_result (phase actionType message : string) (result : planResult) : planResult :=
  add_status (action_status actionType "failed" message)
    (result <| res_phase := phase |> <| res_runState := "failed" |> <| res_lastError := message |>).

Definition proposal (actionType message : string) (ls : loopState) : loopState :=
  ls <| ls_proposals := ls_proposals ls + 1 |>
     <| ls_result := add_status (action_status actionType "proposal_only" message) (ls_result ls) |>.

Variable MutationEnabled : bool.

(** The write of an action that passed its dry run: snapshot, execution, verification. *)
Definition mutate_action (plan : object) (action : fields) (ls : loopState) : op (planResult + loopState) :=
  let actionType := nested_string ["type"] action in
  let result := ls_result ls in
  snapshot ← attempt (ensureActionSnapshot plan action);
  match snapshot with
  | Err err => mret (inl (failed_result "SnapshotFailed" actionType ("snapshot failed: " +:+ error_text err) result))
  | Ok snapshotRef =>
      let result := result <| res_rollbackRef := snapshotRef |> in
      executed ← attempt (executeTypedAction action false);
      match executed with
      | Err err =>
          if errors_Is err errVerificationPending then
            mret (inl (add_status (action_status actionType "verifying" (error_text err))
              (result <| res_phase := "Verifying" |> <| res_runState := "verifying" |>
                <| res_message := "cluster write completed; waiting for controller and health verification" |>
                <| res_verificationResult := error_text err |> <| res_dryRunPassed := true |>
                <| res_dryRunMessage := dry_run_message (ls_dryRuns ls) |>
                <| res_requeueAfter := 5 * Second |>)))
          else mret (inl (failed_result "VerificationFailed" actionType (error_text err) result))
      | Ok verification =>
          mret (inr (ls <| ls_applied := ls_applied ls + 1 |>
            <| ls_result := add_status (action_status actionType "succeeded" verification) result |>))
      end
  end.

Definition run_action (plan : object) (action : fields) (ls : loopState) : op (planResult + loopState) :=
  let actionType := nested_string ["type"] action in
  let entry := catalog_entry action in
  match ValidateProposal entry with
  | Err err => mret (inl (failed_result "Failed" actionType (error_text err) (ls_result ls)))
  | Ok _ =>
      if ExecutionModeFor entry != ModeDirect then
        mret (inr (proposal actionType "the action registry does not permit direct execution" ls))
      else match Validate entry with
      | Err err => mret (inr (proposal actionType (error_text err) ls))
      | Ok _ =>
          dryRun ← attempt (executeTypedAction action true);
          match dryRun with
          | Err err =>
              let message := "server-side dry-run failed: " +:+ error_text err in
              mret (inl ((failed_result "DryRunFailed" actionType message (ls_result ls))
                <| res_dryRunMessage := message |>))
          | Ok _ =>
              let ls := ls <| ls_dryRuns := ls_dryRuns ls + 1 |> in
              if negb MutationEnabled then
                mret (inr (ls <| ls_result := add_status
                  (action_status actionType "dry_run_passed" "Kubernetes server-side dry-run passed") (ls_result ls) |>))
              else mutate_action plan action ls
          end
      end
  end.

(** Elements that are not objects are skipped; a failure ends the loop. *)
Fixpoint run_actions (plan : object) (actions : list any) (ls : loopState) : op (planResult + loopState) :=
  match actions with
  | [] => mret (inr ls)
  | raw :: rest =>
      match as_map raw with
      | None => run_actions plan rest ls
      | Some action =>
          outcome ← run_action plan action ls;
          match outcome with
          | inl result => mret (inl result)
          | inr ls => run_actions plan rest ls
          end
      end
  end.

Definition conclude (ls : loopState) : planResult :=
  let result := ls_result ls in
  if 0 <? ls_applied ls then
    result <| res_phase := "Applied" |> <| res_runState := "succeeded" |>
      <| res_message := Itoa (ls_applied ls) +:+ " low-risk typed action(s) applied" |>
      <| res_verificationResult := "all mutated objects were read back from the Kubernetes API and matched the typed action; source re-scan is still required" |>
      <| res_dryRunPassed := true |> <| res_dryRunMessage := dry_run_message (ls_dryRuns ls) |>
  else if 0 <? ls_dryRuns ls then
    result <| res_phase := "DryRunPassed" |> <| res_runState := "dry_run_passed" |>
      <| res_message := "server-side dry-run passed; mutating remediation is disabled" |>
      <| res_verificationResult := "no cluster mutation was attempted" |>
      <| res_dryRunPassed := true |> <| res_dryRunMessage := dry_run_message (ls_dryRuns ls) |>
  else if 0 <? ls_proposals ls then
    result <| res_phase := "ProposalOnly" |> <| res_runState := "proposal_only" |>
      <| res_message := "all actions are proposal-only because no executor is registered" |>
      <| res_verificationResult := "no cluster mutation or verification was attempted" |>
  else result.

Definition reconcilePlanActions (plan : object) : op planResult :=
  let actions := plan_actions plan in
  match gate_result (plan_gate plan) (prepared actions) with
  | Some result => mret result
  | None =>
      outcome ← run_actions plan actions (mkLoop 0 0 0 (prepared actions));
      match outcome with
      | inl result => mret result
      | inr ls => mret (conclude ls)
      end
  end.

(** * Rollback *)

Definition objectState (o : object) : string :=
  let spec := match NestedFieldNoCopy ["spec"] (Object o) with Ok (Some v) => v | _ => ANil end in
  marshal_map [("spec", spec); ("labels", match map_to_list (GetLabels o) with
                                          | [] => ANil
                                          | ls => AMap (map (λ kv, (kv.1, AString kv.2)) ls)
                                          end)].

Definition item_text (item : snapshotItem) : string := item_Kind item +:+ "/" +:+ item_Name item.
Definition get_item (item : snapshotItem) : op object :=
  call (GetUnstructured (item_APIVersion item) (item_Kind item) (item_Namespace item) (item_Name item)).

(** An object created by the plan is deleted, if it is the operator's. *)
Definition restore_absent (item : snapshotItem) (got : result object) : op unit :=
  match got with
  | Err err => if IsNotFound err then mret tt else raise err
  | Ok current =>
      raise_if (default "" (GetLabels current !! managed_by) != owner)
        (Errorf ("refusing to delete non-KubeAthrix object " +:+ item_text item +:+ " during rollback"));;
      deleted ← attempt (call (DeleteUnstructured current));
      match deleted with
      | Err err => if IsNotFound err then mret tt else raise err
      | Ok _ => mret tt
      end;;
      check ← attempt (get_item item);
      match check with
      | Err err => if IsNotFound err then mret tt
                   else raise (Errorf ("rollback deletion was not observed for " +:+ item_text item))
      | Ok _ => raise (Errorf ("rollback deletion was not observed for " +:+ item_text item))
      end
  end.

(** An object that existed is written back as it was and read again. *)
Definition restore_present (item : snapshotItem) (got : result object) : op unit :=
  let expected := OfFields (item_Object item) in
  match got with
  | Err err => if IsNotFound err then call (CreateUnstructured expected);; mret tt else raise err
  | Ok current => call (UpdateUnstructured (SetResourceVersion (GetResourceVersion current) expected));; mret tt
  end;;
  verified ← get_item item;
  raise_if (objectState verified != objectState expected)
    (Errorf ("restored object " +:+ item_text item +:+ " does not match the snapshot")).

Definition restoreSnapshotItem (item : snapshotItem) : op unit :=
  got ← attempt (get_item item);
  if item_Existed item then restore_present item got else restore_absent item got.

Definition rollback_failed (message : string) (result : planResult) : planResult :=
  result <| res_phase := "RollbackFailed" |> <| res_runState := "failed" |> <| res_lastError := message |>
         <| res_message := message |>.

Fixpoint restore_items (items : list snapshotItem) (result : planResult) : op (planResult + planResult) :=
  match items with
  | [] => mret (inr result)
  | item :: rest =>
      restored ← attempt (restoreSnapshotItem item);
      match restored with
      | Err err => mret (inl (rollback_failed (error_text err) result))
      | Ok _ => restore_items rest (add_status (action_status "rollback" "rolled_back"
                  (item_text item +:+ " restored and verified")) result)
      end
  end.

(** The snapshot sets, in the order the map is visited. *)
Fixpoint restore_sets (sets : list (string * string)) (result : planResult) : op (planResult + planResult) :=
  match sets with
  | [] => mret (inr result)
  | (_, text) :: rest =>
      match unmarshal_items text with
      | Err err => mret (inl (rollback_failed ("decode rollback snapshot: " +:+ error_text err) result))
      | Ok items =>
          outcome ← restore_items items result;
          match outcome with
          | inl result => mret (inl result)
          | inr result => restore_sets rest result
          end
      end
  end.

Definition rolling_back : planResult :=
  mkPlanResult "RollingBack" "running" "restoring pre-change snapshots" "" "rollback verification is in progress"
    "" "" [] false "not applicable to rollback" 0.

Definition reconcileRollback (plan : object) : op planResult :=
  got ← attempt (call (GetConfigMap (GetNamespace plan) (snapshot_name plan)));
  match got with
  | Err err => mret (rollback_failed ("load rollback snapshot: " +:+ error_text err) rolling_back)
  | Ok configMap =>
      let sets := range (cm_Data configMap) in
      outcome ← restore_sets sets rolling_back;
      match outcome with
      | inl result => mret result
      | inr result =>
          mret (result <| res_phase := "RolledBack" |> <| res_runState := "rolled_back" |>
            <| res_message := "restored and verified " +:+ Itoa (Z.of_nat (length sets)) +:+ " snapshot set(s)" |>
            <| res_verificationResult := "restored objects were read back or created objects were confirmed deleted" |>
            <| res_rollbackRef := "ConfigMap/" +:+ GetNamespace plan +:+ "/" +:+ snapshot_name plan |>)
      end
  end.

(** * Recording the outcome *)

Definition run_name (plan : object) : string :=
  let runName := nested_string ["spec"; "runName"] (Object plan) in
  if runName == "" then "run-" +:+ GetName plan else runName.

Definition last_error_field (result : planResult) : fields :=
  if res_lastError result == "" then [] else [("lastError", AString (res_lastError result))].

Definition plan_status (plan : object) (result : planResult) (now : Time) : fields :=
  [("phase", AString (res_phase result));
   ("observedGeneration", AInt64 (GetGeneration plan));
   ("lastTransitionTime", AString (FormatRFC3339 now));
   ("message", AString (res_message result));
   ("diffSummary", AString (res_diffSummary result));
   ("approvalRef", AString ("approval-" +:+ GetName plan));
   ("runRef", AString (run_name plan));
   ("verificationResult", AString (res_verificationResult result));
   ("rollbackRef", AString (res_rollbackRef result))] ++ last_error_field result ++
  [("dryRunResult", AMap [("passed", ABool (res_dryRunPassed result));
                          ("message", AString (res_dryRunMessage result))])].

(** The plan as stored after the update replaces the caller's. *)
Definition writePlanStatus (plan : object) (result : planResult) (now : Time) : op object :=
  call (UpdateStatus (set_object_key "status" (AMap (plan_status plan result now)) plan)).

Definition new_run (plan run : object) : object :=
  let run := set_object_key "spec" (AMap [("planRef",
    AMap [("name", AString (GetName plan)); ("namespace", AString (GetNamespace plan))])]) run in
  let planID := default "" (GetAnnotations plan !! "security.kubeathrix.io/api-id") in
  if planID == "" then run
  else SetAnnotations (<["security.kubeathrix.io/api-id" := "run-" +:+ planID]>
                         {["security.kubeathrix.io/plan-id" := planID]}) run.

Definition run_status (run : object) (result : planResult) (now : Time) : fields :=
  [("state", AString (res_runState result));
   ("actionStatuses", ASlice (res_actionStatuses result));
   ("validationResult", AString (res_message result));
   ("rollbackMetadata", AString (res_rollbackRef result));
   ("observedGeneration", AInt64 (GetGeneration run));
   ("lastTransitionTime", AString (FormatRFC3339 now))].

Definition upsertRun (plan : object) (result : planResult) (now : Time) : op unit :=
  let run := NewRemediationRunObject (GetNamespace plan) (run_name plan) in
  got ← attempt (call (GetUnstructured plan_apiVersion "RemediationRun" (GetNamespace plan) (run_name plan)));
  run ← match got with
        | Ok run => mret run
        | Err err => if IsNotFound err then call (CreateUnstructured (new_run plan run)) else raise err
        end;
  call (UpdateStatus (set_object_key "status" (AMap (run_status run result now)) run));;
  mret tt.

(** The finding's phase and remediation state for the state of a run; [None] leaves the finding alone. *)
Definition finding_phase (runState : string) : option (string * string) :=
  if runState == "succeeded" then Some ("Resolved", "verified_resolved")
  else if (runState == "verifying") || (runState == "running") then Some ("Remediating", runState)
  else if runState == "rolled_back" then Some ("Open", "rolled_back")
  else if existsb (String.eqb runState) ["prepared"; "pending_approval"; "approved"; "proposal_only"; "dry_run_passed"]
  then None
  else Some ("InReview", runState).

Definition finding_status (finding : object) (phase remediationState : string) (result : planResult) (now : Time) :
    fields :=
  [("phase", AString phase); ("remediationState", AString remediationState);
   ("verificationResult", AString (res_verificationResult result));
   ("observedGeneration", AInt64 (GetGeneration finding));
   ("lastTransitionTime", AString (FormatRFC3339 now))] ++ last_error_field result.

Definition updateFindingStatus (plan : object) (result : planResult) (now : Time) : op unit :=
  let findingName := nested_string ["spec"; "findingRef"; "name"] (Object plan) in
  let findingNamespace := nested_string ["spec"; "findingRef"; "namespace"] (Object plan) in
  if findingName == "" then mret tt
  else
    let findingNamespace := if findingNamespace == "" then GetNamespace plan else findingNamespace in
    got ← attempt (call (GetUnstructured plan_apiVersion "Finding" findingNamespace findingName));
    match got with
    | Err err => if IsNotFound err then mret tt else raise err
    | Ok finding =>
        match finding_phase (res_runState result) with
        | None => mret tt
        | Some (phase, remediationState) =>
            call (UpdateStatus (set_object_key "status"
              (AMap (finding_status finding phase remediationState result now)) finding));;
            mret tt
        end
    end.

(** * Reconciliation of a plan *)

Definition plan_finalizer : string := "remediation.security.kubeathrix.io/audit".

(** The plan read, with the finalizer. [None]: there is no such plan. *)
Definition fetch_plan (namespace name : string) : op (option object) :=
  got ← attempt (call (GetUnstructured plan_apiVersion "RemediationPlan" namespace name));
  match got with
  | Err err => if IsNotFound err then mret None else raise err
  | Ok plan =>
      let '(added, plan) := AddFinalizer plan_finalizer plan in
      if added then plan ← call (UpdateUnstructured plan); mret (Some plan) else mret (Some plan)
  end.

Definition rolled_back_already (plan : object) : bool :=
  (nested_string ["status"; "phase"] (Object plan) == "RolledBack") &&
  (nested_int ["status"; "observedGeneration"] (Object plan) =? GetGeneration plan).

Definition record_outcome (plan : object) (result : planResult) (now : Time) : op Duration :=
  plan ← writePlanStatus plan result now;
  upsertRun plan result now;;
  updateFindingStatus plan result now;;
  mret (res_requeueAfter result).

(** [Reconcile]: the delay after which the plan is to be reconciled again, 0 for none. *)
Definition Reconcile (namespace name : string) : op Duration :=
  fetched ← fetch_plan namespace name;
  match fetched with
  | None => mret 0
  | Some plan =>
      now ← ask Clock;
      if nested_bool ["spec"; "rollbackRequested"] (Object plan) then
        if rolled_back_already plan then mret 0
        else result ← reconcileRollback plan; record_outcome plan result now
      else result ← reconcilePlanActions plan; record_outcome plan result now
  end.

(** * The finding controller *)

Definition finding_finalizer : string := "finding.security.kubeathrix.io/audit".

Definition observed_status (finding : object) (now : Time) : any :=
  let status := match as_map (field "status" (Object finding)) with Some m => m | None => [] end in
  AMap (set_key "lastTransitionTime" (AString (FormatRFC3339 now))
    (set_key "observedGeneration" (AInt64 (GetGeneration finding)) (set_key "phase" (AString "Observed") status))).

Definition ReconcileFinding (namespace name : string) : op unit :=
  got ← attempt (call (GetUnstructured plan_apiVersion "Finding" namespace name));
  match got with
  | Err err => if IsNotFound err then mret tt else raise err
  | Ok finding =>
      let '(added, finding) := AddFinalizer finding_finalizer finding in
      finding ← (if added then call (UpdateUnstructured finding) else mret finding);
      if (nested_string ["status"; "phase"] (Object finding) == "Observed") &&
         (nested_int ["status"; "observedGeneration"] (Object finding) =? GetGeneration finding) then mret tt
      else
        now ← ask Clock;
        call (UpdateStatus (set_object_key "status" (observed_status finding now) finding));;
        mret tt
  end.

End Operator.
