(* ===== verification/OperatorRoundTrip.v ===== *)
(** The round trip of a rollback snapshot: the items that [ensureActionSnapshot] encodes into a ConfigMap
    are the items that [reconcileRollback] decodes from it. *)
From S2P Require Import Prelude GoLib Json JsonProps ActionCatalog Kube Interaction OperatorApi Operator.

Local Open Scope Z_scope.

(** * Sorting and mapping *)

Section SortMap.
Context {A B : Type} (less : A → A → bool) (less' : B → B → bool) (f : A → B).
Hypothesis Hf : ∀ x y, less' (f x) (f y) = less x y.

Lemma list_merge_map l1 l2 :
  list_merge (not_after less') (map f l1) (map f l2) = map f (list_merge (not_after less) l1 l2).
Proof.
  revert l2. induction l1 as [|x l1 IH1]; intros l2; [by destruct l2|].
  induction l2 as [|y l2 IH2]; [done|]. cbn [map]. rewrite !list_merge_cons.
  pose proof (Hf y x) as Hyx. do 2 case_decide; unfold not_after in *; try congruence; cbn [map]; f_equal.
  - apply (IH1 (y :: l2)).
  - apply IH2.
Qed.

Lemma merge_list_to_stack_map st l :
  merge_list_to_stack (not_after less') (map (fmap (map f)) st) (map f l)
  = map (fmap (map f)) (merge_list_to_stack (not_after less) st l).
Proof.
  revert l. induction st as [|[l'|] st IH]; intros l; [done| |done]. cbn.
  rewrite list_merge_map. f_equal. apply IH.
Qed.

Lemma merge_stack_map st :
  merge_stack (not_after less') (map (fmap (map f)) st) = map f (merge_stack (not_after less) st).
Proof. induction st as [|[l|] st IH]; [done| |done]. cbn. by rewrite IH, list_merge_map. Qed.

(** Sorting commutes with a map that keeps the order. *)
Lemma sort_slice_map l : sort_slice less' (map f l) = map f (sort_slice less l).
Proof.
  unfold sort_slice, merge_sort. change [] with (map (fmap (map f)) (@nil (option (list A)))) at 1.
  generalize (@nil (option (list A))) as st. induction l as [|x l IH]; intros st; cbn [map merge_sort_aux].
  - apply merge_stack_map.
  - change [f x] with (map f [x]). rewrite merge_list_to_stack_map. apply IH.
Qed.
End SortMap.

(** * Scanning what was marshalled *)

(** The first byte of a value: no space and no closing bracket. *)
Definition opens (s : string) : bool :=
  match s with
  | String c _ => negb (is_json_space c) && negb ((byte_code c =? 93) || (byte_code c =? 125))
  | EmptyString => false
  end.

(** [text] scans as [v], nested at most [n] deep, whatever follows. *)
Definition scans (n : Z) (text : string) (v : json) : Prop :=
  opens text = true ∧
  ∀ fuel depth rest, (String.length text ≤ fuel)%nat → depth + n ≤ max_nesting → delimited rest = true →
    scan_value fuel depth (text +:+ rest) = Some (v, rest).

Lemma scans_more n n' text v : n ≤ n' → scans n text v → scans n' text v.
Proof. intros Hn [Ho Hs]. split; [done|]. intros. apply Hs; [done | lia | done]. Qed.

Lemma skip_opens s t : opens s = true → skip_space (s +:+ t) = s +:+ t.
Proof.
  intros Ho. destruct s as [|c s]; [done|]. rewrite string_app_cons. unfold skip_space. cbn [trim_left].
  cbn [opens] in Ho. by destruct (is_json_space c).
Qed.

Lemma opens_take s t n : opens s = true → n = 93 ∨ n = 125 → take_byte n (s +:+ t) = None.
Proof.
  intros Ho Hn. destruct s as [|c s]; [done|]. apply take_byte_app. cbn [opens] in Ho.
  intros Hc. rewrite Hc in Ho. destruct Hn as [-> | ->]; by rewrite andb_false_r in Ho.
Qed.

Lemma Join_cons2 t t' ts sep : Join (t :: t' :: ts) sep = t +:+ sep +:+ Join (t' :: ts) sep.
Proof. done. Qed.

Lemma scan_items_scans n (l : list (string * json)) : ∀ fuel depth rest,
  l ≠ [] → Forall (λ x, scans n x.1 x.2) l →
  (String.length (Join (map fst l) ",") < fuel)%nat → depth + n ≤ max_nesting →
  scan_items fuel depth (Join (map fst l) "," +:+ "]" +:+ rest) = Some (map snd l, rest).
Proof.
  induction l as [|[t v] l IH]; intros fuel depth rest Hne Hl Hfuel Hdepth; [done|].
  apply Forall_cons in Hl as [[Ho Hs] Hl]. cbn [fst snd] in Ho, Hs. destruct fuel as [|fuel]; [lia|].
  destruct l as [|[t' v'] l].
  - cbn [map fst snd] in *. change (Join [t] ",") with t in *. cbn [scan_items].
    rewrite Hs by (done || lia). cbn [mbind option_bind]. reflexivity.
  - cbn [map fst snd] in *. rewrite Join_cons2 in Hfuel |- *. rewrite !string_length_app in Hfuel. cbn [String.length] in Hfuel.
    rewrite !string_app_assoc. cbn [scan_items]. rewrite Hs by (done || lia). cbn [mbind option_bind].
    change (skip_space ("," +:+ Join (t' :: map fst l) "," +:+ "]" +:+ rest)) with
      ("," +:+ Join (t' :: map fst l) "," +:+ "]" +:+ rest).
    change (take_byte 44 ("," +:+ Join (t' :: map fst l) "," +:+ "]" +:+ rest)) with
      (Some (Join (t' :: map fst l) "," +:+ "]" +:+ rest)). cbn iota beta.
    rewrite (IH fuel depth rest) by (done || lia). reflexivity.
Qed.

(** A member of an object: its name, the text of its value, and the value. *)
Abbreviation member := (string * string * json)%type.
Definition member_pair (x : member) : string * string := x.1.
Definition member_json (x : member) : string * json := (x.1.1, x.2).

Lemma member_text_app (x : string * string) t :
  member_text x +:+ t = quote +:+ marshal_chars x.1 +:+ quote +:+ ":" +:+ x.2 +:+ t.
Proof. unfold member_text, marshal_string, quoted. by rewrite !string_app_assoc. Qed.

Lemma scan_members_scans n (l : list member) : ∀ fuel depth rest,
  l ≠ [] → Forall (λ x, scans n x.1.2 x.2) l →
  (String.length (Join (map (member_text ∘ member_pair) l) ",") < fuel)%nat → depth + n ≤ max_nesting →
  scan_members fuel depth (Join (map (member_text ∘ member_pair) l) "," +:+ "}" +:+ rest) = Some (map member_json l, rest).
Proof.
  induction l as [|[[k t] v] l IH]; intros fuel depth rest Hne Hl Hfuel Hdepth; [done|].
  apply Forall_cons in Hl as [[Ho Hs] Hl]. cbn [fst snd] in Ho, Hs. destruct fuel as [|fuel]; [lia|].
  assert (∀ u, delimited u = true → (String.length t ≤ fuel)%nat →
    scan_members (S fuel) depth (member_text (k, t) +:+ u) =
      match take_byte 44 (skip_space u), take_byte 125 (skip_space u) with
      | Some rest', _ => prod_map (cons (k, v)) id <$> scan_members fuel depth rest'
      | None, Some rest' => Some ([(k, v)], rest')
      | None, None => None
      end) as Hfirst.
  { intros u Hu Hlen. rewrite member_text_app. cbn [scan_members fst snd].
    change (skip_space (quote +:+ marshal_chars k +:+ quote +:+ ":" +:+ t +:+ u)) with
      (quote +:+ marshal_chars k +:+ quote +:+ ":" +:+ t +:+ u).
    change (take_byte 34 (quote +:+ marshal_chars k +:+ quote +:+ ":" +:+ t +:+ u)) with
      (Some (marshal_chars k +:+ quote +:+ ":" +:+ t +:+ u)). cbn [mbind option_bind].
    rewrite scan_marshal_string. cbn [mbind option_bind].
    change (take_byte 58 (skip_space (":" +:+ t +:+ u))) with (Some (t +:+ u)). cbn [mbind option_bind].
    rewrite Hs by (done || lia). reflexivity. }
  assert (String.length t ≤ String.length (member_text (k, t)))%nat as Hshort.
  { unfold member_text. rewrite !string_length_app. cbn. lia. }
  destruct l as [|x l].
  - cbn [map] in *. unfold compose in *. cbn [member_pair fst] in *.
    change (Join [member_text (k, t)] ",") with (member_text (k, t)) in *. rewrite Hfirst by (done || lia). reflexivity.
  - cbn [map] in *. unfold compose in * |-. unfold compose at 1. cbn [member_pair fst] in *.
    rewrite Join_cons2 in Hfuel |- *. rewrite !string_length_app in Hfuel. cbn [String.length] in Hfuel.
    rewrite !string_app_assoc. set (more := Join _ _) in *. rewrite Hfirst by (done || lia).
    change (take_byte 44 (skip_space ("," +:+ more +:+ "}" +:+ rest))) with (Some (more +:+ "}" +:+ rest)).
    cbn iota beta. rewrite (IH fuel depth rest) by (done || lia). reflexivity.
Qed.

Lemma array_scans n (l : list (string * json)) :
  0 ≤ n → Forall (λ x, scans n x.1 x.2) l → scans (1 + n) (brackets "[" "]" (map fst l)) (JArray (map snd l)).
Proof.
  intros Hn Hl. split; [done|]. intros fuel depth rest Hfuel Hdepth _. unfold brackets in *.
  rewrite !string_app_assoc. rewrite !string_length_app in Hfuel. cbn [String.length] in Hfuel.
  destruct fuel as [|fuel]; [lia|].
  change (scan_value (S fuel) depth ("[" +:+ Join (map fst l) "," +:+ "]" +:+ rest)) with
    (if max_nesting <=? depth then None
     else match take_byte 93 (skip_space (Join (map fst l) "," +:+ "]" +:+ rest)) with
          | Some rest' => Some (JArray [], rest')
          | None => prod_map JArray id <$> scan_items fuel (depth + 1) (Join (map fst l) "," +:+ "]" +:+ rest)
          end).
  destruct (Z.leb_spec max_nesting depth); [lia|]. destruct l as [|[t v] l]; [reflexivity|].
  assert (opens (Join (map fst ((t, v) :: l)) ",") = true) as Ho.
  { apply Forall_cons in Hl as [[Ho _] _]. cbn [map fst] in *. destruct l as [|x l]; [exact Ho|].
    cbn [map]. rewrite Join_cons2. by destruct t. }
  rewrite skip_opens, opens_take by auto. rewrite (scan_items_scans n) by (done || lia). reflexivity.
Qed.

Lemma object_scans n (l : list member) :
  0 ≤ n → Forall (λ x, scans n x.1.2 x.2) l →
  scans (1 + n) (brackets "{" "}" (map (member_text ∘ member_pair) l)) (JObject (map member_json l)).
Proof.
  intros Hn Hl. split; [done|]. intros fuel depth rest Hfuel Hdepth _. unfold brackets in *.
  rewrite !string_app_assoc. rewrite !string_length_app in Hfuel. cbn [String.length] in Hfuel.
  destruct fuel as [|fuel]; [lia|]. set (texts := Join _ _) in *.
  change (scan_value (S fuel) depth ("{" +:+ texts +:+ "}" +:+ rest)) with
    (if max_nesting <=? depth then None
     else match take_byte 125 (skip_space (texts +:+ "}" +:+ rest)) with
          | Some rest' => Some (JObject [], rest')
          | None => prod_map JObject id <$> scan_members fuel (depth + 1) (texts +:+ "}" +:+ rest)
          end).
  destruct (Z.leb_spec max_nesting depth); [lia|]. destruct l as [|x l]; [reflexivity|].
  assert (opens texts = true) as Ho by (subst texts; cbn [map]; destruct (map _ l); reflexivity).
  rewrite skip_opens, opens_take by auto. subst texts. rewrite (scan_members_scans n) by (done || lia). reflexivity.
Qed.

(** * Values *)

Section AnyInduction.
Variable P : any → Prop.
Hypotheses (Pnil : P ANil) (Pbool : ∀ b, P (ABool b)) (Pint : ∀ z, P (AInt64 z)) (Pfloat : ∀ f, P (AFloat64 f))
  (Pstring : ∀ s, P (AString s)) (Pslice : ∀ vs, Forall P vs → P (ASlice vs))
  (Pmap : ∀ m, Forall (λ kv, P kv.2) m → P (AMap m)).

Fixpoint any_induction (v : any) : P v :=
  match v with
  | ANil => Pnil
  | ABool b => Pbool b
  | AInt64 z => Pint z
  | AFloat64 f => Pfloat f
  | AString s => Pstring s
  | ASlice vs => Pslice vs ((fix go vs : Forall P vs :=
      match vs with [] => Forall_nil_2 P | v :: vs => Forall_cons_2 P v vs (any_induction v) (go vs) end) vs)
  | AMap m => Pmap m ((fix go m : Forall (λ kv, P kv.2) m :=
      match m with
      | [] => Forall_nil_2 _
      | kv :: m => Forall_cons_2 (λ kv, P kv.2) kv m (any_induction kv.2) (go m)
      end) m)
  end.
End AnyInduction.

(** What the API server stores for the operator: integers that read back as numbers, no other numbers,
    and maps, which have no order, with distinct keys. *)
Fixpoint storable (v : any) : bool :=
  match v with
  | AInt64 z => match parse_float (Itoa z) with Some _ => true | None => false end
  | AFloat64 _ => false
  | ASlice vs => forallb storable vs
  | AMap m => bool_decide (NoDup m.*1) && forallb (λ kv, storable kv.2) m
  | _ => true
  end.

Fixpoint nesting (v : any) : Z :=
  match v with
  | ASlice vs => 1 + foldr Z.max 0 (map nesting vs)
  | AMap m => 1 + foldr Z.max 0 (map (λ kv, nesting kv.2) m)
  | _ => 0
  end.

Definition key_less {A} (x y : string * A) : bool := String.ltb x.1 y.1.

(** The JSON value the text of [v] stands for. *)
Fixpoint tree (v : any) : json :=
  match v with
  | ANil => JNull
  | ABool b => JBool b
  | AInt64 z => JNumber (Itoa z)
  | AFloat64 f => JNumber (format_float f)
  | AString s => JString s
  | ASlice vs => JArray (map tree vs)
  | AMap m => JObject (sort_slice key_less (map (λ kv, (kv.1, tree kv.2)) m))
  end.

Lemma number_scans z : scans 0 (Itoa z) (JNumber (Itoa z)).
Proof.
  assert (∃ c s, Itoa z = String c s ∧ (45 = byte_code c ∨ 48 ≤ byte_code c ≤ 57)) as (c & s & Hz & Hc).
  { destruct (Itoa_digits z) as ([] & ds & -> & _ & Hds); [by eexists _, _; split; [done | left]|].
    destruct Hds as [->|(c & ds' & -> & Hd & _)]; [by eexists _, _; split; [done | right]|].
    exists c, ds'. split; [done|]. unfold is_digit in Hd. lia. }
  split.
  - rewrite Hz. unfold opens, is_json_space. lia.
  - intros fuel depth rest Hfuel Hdepth Hd. rewrite Hz in Hfuel. cbn in Hfuel. destruct fuel as [|fuel]; [lia|].
    assert (skip_space (Itoa z +:+ rest) = Itoa z +:+ rest) as Hskip.
    { apply skip_opens. rewrite Hz. unfold opens, is_json_space. lia. }
    cbn [scan_value]. rewrite Hskip.
    pose proof (scan_number_Itoa z rest Hd) as Hn. rewrite Hz in Hn |- *. rewrite string_app_cons in Hn |- *.
    repeat match goal with |- context [byte_code c =? ?n] => destruct (Z.eqb_spec (byte_code c) n); [lia|] end.
    by rewrite Hn.
Qed.

Lemma string_scans s : scans 0 (marshal_string s) (JString s).
Proof.
  split; [done|]. intros fuel depth rest Hfuel Hdepth Hd. unfold marshal_string, quoted in *.
  rewrite !string_app_assoc. rewrite string_length_app in Hfuel.
  change (String.length quote) with 1%nat in Hfuel. destruct fuel as [|fuel]; [lia|].
  change (scan_value (S fuel) depth (quote +:+ marshal_chars s +:+ quote +:+ rest)) with
    (prod_map JString id <$> scan_string (marshal_chars s +:+ quote +:+ rest)).
  by rewrite scan_marshal_string.
Qed.

Lemma scan_literal_app word rest : scan_literal word (word +:+ rest) = Some rest.
Proof.
  unfold scan_literal, HasPrefix. rewrite prefix_app. f_equal. induction word as [|c word IH]; [done|].
  rewrite string_app_cons. exact IH.
Qed.

Lemma word_scans text v :
  opens text = true → (∀ fuel depth rest, scan_value (S fuel) depth (text +:+ rest) = Some (v, rest)) →
  scans 0 text v.
Proof.
  intros Ho Hs. split; [done|]. intros [|fuel] depth rest Hf _ _; [|apply Hs].
  destruct text; [done|]. cbn in Hf. lia.
Qed.

(** Every element marshals to a text that scans as its tree; so do the elements together. *)
Definition readable (v : any) : Prop :=
  storable v = true → ∃ text, marshal_any v = Some text ∧ scans (nesting v) text (tree v).

Lemma slice_readable vs n :
  Forall readable vs → forallb storable vs = true → (∀ v, v ∈ vs → nesting v ≤ n) →
  ∃ l : list (string * json), mapM marshal_any vs = Some (map fst l) ∧ map tree vs = map snd l ∧
    Forall (λ x, scans n x.1 x.2) l.
Proof.
  induction 1 as [|v vs Hv _ IH]; intros Hst Hn; [by exists []|]. cbn [forallb] in Hst.
  apply andb_true_iff in Hst as [Hs Hst]. destruct (Hv Hs) as (text & Ht & Hscan).
  destruct (IH Hst) as (l & Hl & Htree & Hall); [intros; apply Hn; by right|].
  exists ((text, tree v) :: l). cbn [mapM map fst snd]. split_and!.
  - cbn. rewrite Ht. cbn. change (mapM marshal_any vs) with (mapM marshal_any vs). by rewrite Hl.
  - by rewrite Htree.
  - constructor; [|done]. eapply scans_more; [|exact Hscan]. apply Hn. by left.
Qed.

Lemma map_readable (m : fields) n :
  Forall (λ kv, readable kv.2) m → forallb (λ kv, storable kv.2) m = true → (∀ kv, kv ∈ m → nesting kv.2 ≤ n) →
  ∃ l : list member, mapM (λ kv, text ← marshal_any kv.2; Some (kv.1, text)) m = Some (map member_pair l) ∧
    map (λ kv, (kv.1, tree kv.2)) m = map member_json l ∧ Forall (λ x, scans n x.1.2 x.2) l.
Proof.
  induction 1 as [|[k v] m Hv _ IH]; intros Hst Hn; [by exists []|]. cbn [forallb] in Hst.
  apply andb_true_iff in Hst as [Hs Hst]. destruct (Hv Hs) as (text & Ht & Hscan).
  destruct (IH Hst) as (l & Hl & Htree & Hall); [intros; apply Hn; by right|].
  exists ((k, text, tree v) :: l). cbn [map]. split_and!.
  - cbn [mapM snd fst] in *. cbn. rewrite Ht. cbn. by rewrite Hl.
  - by rewrite Htree.
  - constructor; [|done]. eapply scans_more; [|exact Hscan]. apply (Hn (k, v)). by left.
Qed.

Lemma sorted_members (l : list member) :
  ∃ l', l' ≡ₚ l ∧ sort_slice object_less (map member_pair l) = map member_pair l' ∧
    sort_slice key_less (map member_json l) = map member_json l'.
Proof.
  exists (sort_slice (λ x y, key_less x.1 y.1) l). split_and!; [apply sort_slice_perm | |].
  - by apply (sort_slice_map _ object_less member_pair).
  - by apply (sort_slice_map _ key_less member_json).
Qed.

Lemma marshal_scans v : readable v.
Proof.
  induction v as [| | | | |vs IH|m IH] using any_induction; intros Hst; cbn [nesting tree marshal_any].
  - exists "null". split; [done|]. apply word_scans; [done|]. intros fuel depth rest.
    change (scan_value (S fuel) depth ("null" +:+ rest)) with
      ((λ r, (JNull, r)) <$> scan_literal "null" ("null" +:+ rest)). by rewrite scan_literal_app.
  - exists (if b then "true" else "false"). split; [done|].
    destruct b; (apply word_scans; [done|]; intros fuel depth rest).
    + change (scan_value (S fuel) depth ("true" +:+ rest)) with
        ((λ r, (JBool true, r)) <$> scan_literal "true" ("true" +:+ rest)). by rewrite scan_literal_app.
    + change (scan_value (S fuel) depth ("false" +:+ rest)) with
        ((λ r, (JBool false, r)) <$> scan_literal "false" ("false" +:+ rest)). by rewrite scan_literal_app.
  - eexists. split; [done|]. apply number_scans.
  - done.
  - eexists. split; [done|]. apply string_scans.
  - destruct (foldr_max_spec 0 (map nesting vs)) as (Hmax & H0 & _).
    destruct (slice_readable vs (foldr Z.max 0 (map nesting vs)) IH Hst) as (l & -> & -> & Hall).
    { intros v Hv. apply Hmax. by apply (list_elem_of_fmap_2 nesting). }
    eexists. split; [done|]. by apply array_scans.
  - destruct (foldr_max_spec 0 (map (λ kv, nesting kv.2) m)) as (Hmax & H0 & _).
    cbn [storable] in Hst. apply andb_true_iff in Hst as [_ Hst].
    destruct (map_readable m (foldr Z.max 0 (map (λ kv, nesting kv.2) m)) IH Hst) as (l & -> & -> & Hall).
    { intros kv Hv. apply Hmax. by apply (list_elem_of_fmap_2 (λ kv, nesting kv.2)). }
    destruct (sorted_members l) as (l' & Hperm & Hsort & Htree). cbn [mbind option_bind].
    rewrite Hsort, Htree. eexists. split; [done|]. rewrite map_map. apply object_scans; [done|]. by rewrite Hperm.
Qed.

(** * Reading the values back *)

(** The value as decoding leaves it: integers as the nearest floating-point numbers, the entries of a map
    in the order of the text. *)
Fixpoint normal (v : any) : any :=
  match v with
  | AInt64 z => match parse_float (Itoa z) with Some f => AFloat64 f | None => ANil end
  | ASlice vs => ASlice (map normal vs)
  | AMap m => AMap (sort_slice key_less (map (λ kv, (kv.1, normal kv.2)) m))
  | _ => v
  end.

Lemma set_key_new key v (m : fields) : key ∉ m.*1 → set_key key v m = m ++ [(key, v)].
Proof.
  induction m as [|[k w] m IH]; [done|]. cbn -[String.eqb]. rewrite not_elem_of_cons. intros [Hne Hm].
  destruct (String.eqb_spec k key); [congruence|]. by rewrite IH.
Qed.

Lemma foldl_set_key (l acc : fields) :
  NoDup (acc ++ l).*1 → foldl (λ m kv, set_key kv.1 kv.2 m) acc l = acc ++ l.
Proof.
  revert acc. induction l as [|[k v] l IH]; intros acc Hnd; cbn [foldl fst snd]; [by rewrite app_nil_r|].
  rewrite set_key_new, IH, <- app_assoc; [done| |].
  - by rewrite <- app_assoc.
  - rewrite fmap_app in Hnd. apply NoDup_app in Hnd as (_ & Hd & _). intros Hk. apply (Hd k Hk). by left.
Qed.

Lemma sort_map_values {A B} (f : A → B) (m : list (string * A)) :
  sort_slice key_less (map (λ kv, (kv.1, f kv.2)) m) = map (λ kv, (kv.1, f kv.2)) (sort_slice key_less m).
Proof. by apply sort_slice_map. Qed.

Lemma mapM_map {A B C} (f : A → B) (g : B → option C) (h : A → C) l :
  Forall (λ x, g (f x) = Some (h x)) l → mapM g (map f l) = Some (map h l).
Proof. induction 1 as [|x l Hx _ IH]; [done|]. cbn. rewrite Hx. cbn. change (mapM g (map f l)) with (mapM g (map f l)). by rewrite IH. Qed.

Lemma unmarshal_tree v : storable v = true → any_of_unmarshal (tree v) = Some (normal v).
Proof.
  induction v as [| | | | |vs IH|m IH] using any_induction; intros Hst; cbn [tree any_of_unmarshal normal]; try done.
  - cbn [storable] in Hst. by destruct (parse_float (Itoa z)).
  - rewrite (mapM_map _ _ normal); [done|]. cbn [storable] in Hst. rewrite forallb_forall in Hst.
    eapply Forall_impl; [apply Forall_and; split; [exact IH | apply Forall_forall; intros v Hv; apply Hst; by apply list_elem_of_In]|].
    intros v [Hv Hs]. by apply Hv.
  - cbn [storable] in Hst. apply andb_true_iff in Hst as [Hnd%bool_decide_eq_true Hst]. rewrite forallb_forall in Hst.
    rewrite !sort_map_values. rewrite (mapM_map _ _ (λ kv, (kv.1, normal kv.2))).
    + cbn [mbind option_bind]. rewrite foldl_set_key; [done|]. cbn [app]. rewrite <- list_fmap_compose.
      change (NoDup ((sort_slice key_less m).*1)). by rewrite (sort_slice_perm key_less m).
    + rewrite Forall_forall. intros kv Hkv%elem_of_sort_slice. cbn [fst snd].
      rewrite Forall_forall in IH. rewrite (IH kv Hkv); [done|]. by apply Hst, list_elem_of_In.
Qed.

(** * Snapshot items *)

Definition item_limit : Z := max_nesting - 2.
Definition storable_item (item : snapshotItem) : Prop :=
  storable (AMap (item_Object item)) = true ∧ nesting (AMap (item_Object item)) ≤ item_limit.
Definition normal_item (item : snapshotItem) : snapshotItem :=
  item <| item_Object := sort_slice key_less (map (λ kv, (kv.1, normal kv.2)) (item_Object item)) |>.

Definition item_tree (item : snapshotItem) : json :=
  JObject (map (λ kv, (kv.1, tree kv.2)) (item_members item)).

Lemma item_members_storable item kv :
  storable_item item → kv ∈ item_members item → storable kv.2 = true ∧ nesting kv.2 ≤ item_limit.
Proof.
  intros [Hst Hn] Hkv. assert (item_limit = 9998) as Hlim by done. unfold item_members in Hkv.
  rewrite !elem_of_app, !elem_of_cons in Hkv.
  destruct Hkv as [[->|[->|?%elem_of_nil]]|[Hkv|[[->|[->|?%elem_of_nil]]|Hkv]]]; try done; try (split; [done | cbn; lia]).
  - destruct (_ == _); [by apply elem_of_nil in Hkv|]. apply list_elem_of_singleton in Hkv as ->. split; [done | cbn; lia].
  - destruct (item_Object item); [by apply elem_of_nil in Hkv|]. by apply list_elem_of_singleton in Hkv as ->.
Qed.

Lemma marshal_item_scans item :
  storable_item item → ∃ text, marshal_item item = Some text ∧ scans (1 + item_limit) text (item_tree item).
Proof.
  intros Hi. destruct (map_readable (item_members item) item_limit) as (l & Hl & Htree & Hall).
  - apply Forall_true. intros kv. apply marshal_scans.
  - apply forallb_forall. intros kv Hkv. by apply (item_members_storable item kv Hi), list_elem_of_In.
  - intros kv Hkv. by apply (item_members_storable item kv Hi).
  - unfold marshal_item. rewrite Hl. cbn [mbind option_bind]. eexists. split; [done|].
    unfold item_tree. rewrite Htree, map_map. by apply object_scans.
Qed.

(** Each member of the item sets its field. *)
Lemma decode_item item :
  storable_item item →
  decode_struct set_item_field (mkSnapshotItem "" "" "" "" false []) (item_tree item) = Ok (normal_item item).
Proof.
  intros [Hst _]. unfold item_tree, item_members, normal_item. destruct item as [api kind ns name existed o].
  cbn [item_APIVersion item_Kind item_Namespace item_Name item_Existed item_Object] in *.
  apply unmarshal_tree in Hst. destruct (String.eqb_spec ns "") as [->|Hns]; destruct o as [|kv o]; try reflexivity.
  all: assert (∀ a, set_item_field "object" (tree (AMap (kv :: o))) a =
    Ok (a <| item_Object := sort_slice key_less (map (λ kv, (kv.1, normal kv.2)) (kv :: o)) |>)) as Hobject.
  1,3: intros a; cbn [normal] in Hst; change (set_item_field "object" (tree (AMap (kv :: o))) a) with
    (match any_of_unmarshal (tree (AMap (kv :: o))) with
     | Some (AMap m) => Ok (a <| item_Object := m |>) | _ => Err json_error end); by rewrite Hst.
  - exact (Hobject (mkSnapshotItem api kind "" name existed [])).
  - exact (Hobject (mkSnapshotItem api kind ns name existed [])).
Qed.

Lemma decode_items items :
  Forall storable_item items →
  decode_all (decode_struct set_item_field (mkSnapshotItem "" "" "" "" false [])) (map item_tree items)
  = Ok (map normal_item items).
Proof.
  induction 1 as [|item items Hi _ IH]; [done|]. cbn [map decode_all]. by rewrite decode_item, IH.
Qed.

Lemma marshal_items_scan items :
  Forall storable_item items → ∃ l : list (string * json),
    mapM marshal_item items = Some (map fst l) ∧ map item_tree items = map snd l ∧
    Forall (λ x, scans (1 + item_limit) x.1 x.2) l.
Proof.
  induction 1 as [|item items Hi _ (l & Hl & Htree & Hall)]; [by exists []|].
  destruct (marshal_item_scans item Hi) as (text & Ht & Hs). exists ((text, item_tree item) :: l). split_and!.
  - change (mapM marshal_item (item :: items)) with (y ← marshal_item item; k ← mapM marshal_item items; Some (y :: k)).
    by rewrite Ht, Hl.
  - cbn. by rewrite Htree.
  - by constructor.
Qed.

Lemma parse_scanned n text v : n ≤ max_nesting → scans n text v → parse_json text = Ok v.
Proof.
  intros Hn [_ Hs]. unfold parse_json. specialize (Hs (parse_fuel text) 0 ""). rewrite string_app_nil_r in Hs.
  rewrite Hs; [done | unfold parse_fuel; lia | lia | done].
Qed.

(** C40. A snapshot is read back as it was written: whatever the strings, maps and lists of the recorded
    objects, the items a rollback decodes from the payload are the items of the snapshot, with the
    entries of each map in the order of the text and integers as the numbers they read back as. *)
Theorem snapshot_roundtrip (items : list snapshotItem) (Hitems : Forall storable_item items) :
  ∃ payload, marshal_items items = Ok payload ∧ unmarshal_items payload = Ok (map normal_item items).
Proof.
  destruct (marshal_items_scan items Hitems) as (l & Hl & Htree & Hall).
  unfold marshal_items. rewrite Hl. eexists. split; [done|]. unfold unmarshal_items.
  rewrite (parse_scanned (1 + (1 + item_limit)) _ (JArray (map snd l))); [|done|by apply array_scans].
  cbn [mbind]. rewrite <- Htree. change (decode_all (decode_struct set_item_field (mkSnapshotItem "" "" "" "" false []))
    (map item_tree items) = Ok (map normal_item items)). by apply decode_items.
Qed.

(** A workload with a quoted annotation, and an object that was absent. *)
Definition sample_items : list snapshotItem := [
  mkSnapshotItem "apps/v1" "Deployment" "shop" "web" true
    [("spec", AMap [("replicas", AInt64 3); ("paused", ABool false)]);
     ("metadata", AMap [("name", AString "web"); ("note", AString (requote "it's <b> & more"))])];
  mkSnapshotItem "v1" "Namespace" "" "shop" false []].

Lemma snapshot_roundtrip_witness :
  ∃ payload, marshal_items sample_items = Ok payload ∧ unmarshal_items payload = Ok (map normal_item sample_items).
Proof.
  apply snapshot_roundtrip. apply Forall_cons. split; [split; [vm_compute; reflexivity | vm_compute; discriminate]|].
  apply Forall_cons. split; [split; [vm_compute; reflexivity | vm_compute; discriminate] | apply Forall_nil_2].
Defined.
