(* ===== verification/OperatorProps.v ===== *)
(** The protocol of the remediation operator, checked function by function: what has to hold when a
    reconciliation writes to the cluster, saves a snapshot, restores an object or deletes one, whatever
    the API server answers and whatever else runs meanwhile. *)
From S2P Require Import Prelude GoLib Sha256 Json ActionCatalog Kube Interaction OperatorApi Operator.

Local Open Scope Z_scope.

(** An object as a write names it: kind, namespace, name. *)
Abbreviation objectKey := (string * string * string)%type.

Section Protocol.
Context `{K : Kubernetes} {L : OperatorLib K} `{RangeOrder}.
Implicit Types h : history (OperatorE K).

Definition kind_name (kind : WorkloadKind) : string :=
  match kind with Deployment => "Deployment" | StatefulSet => "StatefulSet" | DaemonSet => "DaemonSet" end.
Definition key_of (kind : string) (m : ObjectMeta) : objectKey := (kind, om_Namespace m, om_Name m).
Definition ref_key (t : remediationTarget) : objectKey := (target_Kind t, target_Namespace t, target_Name t).

(** The cluster object a typed action writes, and whether it is a dry run. *)
Definition written_key {X} (e : OperatorE K X) : option (objectKey * bool) :=
  match e with
  | UpdateNamespace o dryRun => Some (("Namespace", "", om_Name (ns_Meta o)), dryRun)
  | CreateQuota o dryRun | UpdateQuota o dryRun => Some (key_of "ResourceQuota" (quota_Meta o), dryRun)
  | CreateLimitRange o dryRun | UpdateLimitRange o dryRun => Some (key_of "LimitRange" (lr_Meta o), dryRun)
  | CreateBudget o dryRun | UpdateBudget o dryRun => Some (key_of "PodDisruptionBudget" (pdb_Meta o), dryRun)
  | UpdateWorkload kind o dryRun => Some (key_of (kind_name kind) (wl_Meta o), dryRun)
  | _ => None
  end.

(** The objects the executors of an action write. *)
Definition written_keys (action : fields) : list objectKey :=
  let actionType := nested_string ["type"] action in
  if actionType == "apply_resource_governance" then
    match targetNamespace action with
    | Ok namespace => [("ResourceQuota", namespace, governance_name); ("LimitRange", namespace, governance_name)]
    | Err _ => []
    end
  else if actionType == "patch_pod_security_labels" then
    match targetNamespace action with Ok namespace => [("Namespace", "", namespace)] | Err _ => [] end
  else match actionTarget action with
       | Ok target =>
           if actionType == "create_pdb" then [("PodDisruptionBudget", target_Namespace target, budget_name target)]
           else [ref_key target]
       | Err _ => []
       end.

(** ** What a history shows *)

(** [plan] was read, or is what the update that added the finalizer answered. *)
Definition plan_read h (plan : object) : Prop :=
  ∃ namespace name o,
    Occ _ (GetUnstructured plan_apiVersion "RemediationPlan" namespace name) (Ok o) ∈ h ∧
    let '(added, p) := AddFinalizer plan_finalizer o in
    if (added : bool) then Occ _ (UpdateUnstructured p) (Ok plan) ∈ h else plan = p.

Definition rollback_requested (plan : object) : bool := nested_bool ["spec"; "rollbackRequested"] (Object plan).

(** The plan is to be executed: requested, and approved where it requires approval. *)
Definition released (plan : object) : Prop :=
  gate_execution (plan_gate plan) = true ∧
  (gate_required (plan_gate plan) = true → gate_decision (plan_gate plan) = "approved").

(** The action may be executed for the plan: it is one of its actions, valid and direct. *)
Record authorised h (plan : object) (action : fields) : Prop := mkAuthorised {
  auth_read : plan_read h plan;
  auth_rollback : rollback_requested plan = false;
  auth_released : released plan;
  auth_action : AMap action ∈ plan_actions plan;
  auth_valid : ∃ d, Validate (catalog_entry action) = Ok d;
  auth_direct : ExecutionModeFor (catalog_entry action) = ModeDirect
}.

Definition dry_run_passed h (key : objectKey) : Prop :=
  ∃ e : OperatorE K (result unit), Occ _ e (Ok tt) ∈ h ∧ written_key e = Some (key, true).

(** The snapshot of the action is in the plan's ConfigMap: it was read there or written there. *)
Definition snapshot_saved h (plan : object) (action : fields) : Prop :=
  ∃ cm, is_Some (cm_Data cm !! snapshotKey action) ∧
    om_Namespace (cm_Meta cm) = GetNamespace plan ∧ om_Name (cm_Meta cm) = snapshot_name plan ∧
    (Occ _ (GetConfigMap (GetNamespace plan) (snapshot_name plan)) (Ok cm) ∈ h ∨
     Occ _ (CreateConfigMap cm) (Ok tt) ∈ h ∨ Occ _ (UpdateConfigMap cm) (Ok tt) ∈ h).

(** The item pictures its object as a read showed it: absent, or present and sanitized. *)
Definition pictures h (ref : remediationTarget) (item : snapshotItem) : Prop :=
  item_APIVersion item = target_APIVersion ref ∧ item_Kind item = target_Kind ref ∧
  item_Namespace item = target_Namespace ref ∧ item_Name item = target_Name ref ∧
  ∃ r, Occ _ (GetUnstructured (target_APIVersion ref) (target_Kind ref) (target_Namespace ref) (target_Name ref)) r ∈ h ∧
    match r with
    | Ok o => item_Existed item = true ∧ item_Object item = Object (sanitizeObject o)
    | Err err => item_Existed item = false ∧ item_Object item = [] ∧ IsNotFound err = true
    end.

(** [item] is part of a snapshot of a plan whose rollback was requested. *)
Definition rollback_item h (item : snapshotItem) : Prop :=
  ∃ plan cm key text items, plan_read h plan ∧ rollback_requested plan = true ∧
    Occ _ (GetConfigMap (GetNamespace plan) (snapshot_name plan)) (Ok cm) ∈ h ∧
    cm_Data cm !! key = Some text ∧ unmarshal_items text = Ok items ∧ item ∈ items.

Definition item_read h (item : snapshotItem) (o : object) : Prop :=
  Occ _ (GetUnstructured (item_APIVersion item) (item_Kind item) (item_Namespace item) (item_Name item)) (Ok o) ∈ h.

(** [obj] updates an object read before that carries the operator's label, at the version read. *)
Definition owned_update {T} {C : ClientObject (K := K) T} h (obj : T) : Prop :=
  ∃ current, Occ _ (object_Get (om_Namespace (object_Meta obj)) (om_Name (object_Meta obj))) (Ok current) ∈ h ∧
    om_Labels (object_Meta current) !! managed_by = Some owner ∧
    om_ResourceVersion (object_Meta obj) = om_ResourceVersion (object_Meta current).

(** A read of an object of type [T] found none under the key of [obj]. *)
Definition absent_before {T} {C : ClientObject (K := K) T} h (obj : T) : Prop :=
  ∃ err, Occ _ (object_Get (T := T) (om_Namespace (object_Meta obj)) (om_Name (object_Meta obj))) (Err err) ∈ h ∧
    IsNotFound err = true.

(** The namespace as read, but for its labels; the workload as read, but for its pod template. *)
Definition relabels h (o : Namespace) : Prop :=
  ∃ current labels, Occ _ (GetNamespaceObj (om_Name (ns_Meta o))) (Ok current) ∈ h ∧
    o = mkNamespace ((ns_Meta current) <| om_Labels := labels |>) (ns_Rest current).
Definition respecifies h (kind : WorkloadKind) (o : Workload) : Prop :=
  ∃ current spec, Occ _ (GetWorkload kind (om_Namespace (wl_Meta o)) (om_Name (wl_Meta o))) (Ok current) ∈ h ∧
    o = current <| wl_PodSpec := spec |>.

(** *** The operator's own records: its plans, runs and findings *)

Definition own_kinds : list string := ["RemediationPlan"; "RemediationRun"; "Finding"].
Definition record_read h (kinds : list string) (o : object) : Prop :=
  ∃ kind namespace name, kind ∈ kinds ∧ Occ _ (GetUnstructured plan_apiVersion kind namespace name) (Ok o) ∈ h.

(** The run of a plan whose outcome was recorded. *)
Definition run_of_plan h (o : object) : Prop :=
  ∃ plan written, Occ _ (UpdateStatus written) (Ok plan) ∈ h ∧
    o = new_run plan (NewRemediationRunObject (GetNamespace plan) (run_name plan)).

(** A record as read, without or with the finalizer, as stored with the finalizer, or as created. *)
Inductive own_record h : object → Prop :=
| own_read o : record_read h own_kinds o → own_record h o
| own_finalized finalizer o : record_read h own_kinds o → own_record h (AddFinalizer finalizer o).2
| own_stored finalizer o stored :
    record_read h own_kinds o → Occ _ (UpdateUnstructured (AddFinalizer finalizer o).2) (Ok stored) ∈ h → own_record h stored
| own_created run stored :
    run_of_plan h run → Occ _ (CreateUnstructured run) (Ok stored) ∈ h → own_record h stored.

(** *** A completed rollback *)

(** The occurrence is among the events performed since [h0]. *)
Definition since h0 h (o : occurrence (OperatorE K)) : Prop := ∃ recent, h = recent ++ h0 ∧ o ∈ recent.

(** Since [h0] a read answered the item's object in the state the item records, or that there is none. *)
Definition seen_restored h0 h (item : snapshotItem) : Prop :=
  let get := GetUnstructured (item_APIVersion item) (item_Kind item) (item_Namespace item) (item_Name item) in
  if item_Existed item
  then ∃ o, since h0 h (Occ _ get (Ok o)) ∧ objectState o = objectState (OfFields (item_Object item))
  else ∃ err, since h0 h (Occ _ get (Err err)) ∧ IsNotFound err = true.

(** Every set of the plan's snapshot ConfigMap decodes, and after that ConfigMap was read all items of all
    sets were seen restored. *)
Definition rolled_back h (plan : object) : Prop :=
  ∃ h0 cm, suffix h0 h ∧ Occ _ (GetConfigMap (GetNamespace plan) (snapshot_name plan)) (Ok cm) ∈ h0 ∧
    ∀ key text, cm_Data cm !! key = Some text →
      ∃ items, unmarshal_items text = Ok items ∧ ∀ item, item ∈ items → seen_restored h0 h item.

(** The status written is the one of a record of the operator; the phase of a plan that is to be rolled
    back says so only once it was. *)
Definition records_status h (o : object) : Prop :=
  ∃ record status, own_record h record ∧ o = set_object_key "status" (AMap status) record ∧
    (field "phase" status = AString "RolledBack" → rollback_requested record = true → rolled_back h record).

(** *** Creating, replacing and deleting whole objects *)

Definition adds_finalizer h (o : object) : Prop :=
  ∃ finalizer o0, finalizer ∈ [plan_finalizer; finding_finalizer] ∧ record_read h ["RemediationPlan"; "Finding"] o0 ∧
    o = (AddFinalizer finalizer o0).2.
Definition recreates h (o : object) : Prop :=
  ∃ item err, rollback_item h item ∧ item_Existed item = true ∧
    Occ _ (GetUnstructured (item_APIVersion item) (item_Kind item) (item_Namespace item) (item_Name item)) (Err err) ∈ h ∧
    IsNotFound err = true ∧ o = OfFields (item_Object item).
Definition replaces h (o : object) : Prop :=
  ∃ item current, rollback_item h item ∧ item_Existed item = true ∧ item_read h item current ∧
    o = SetResourceVersion (GetResourceVersion current) (OfFields (item_Object item)).
Definition removes h (o : object) : Prop :=
  ∃ item, rollback_item h item ∧ item_Existed item = false ∧ item_read h item o ∧
    GetLabels o !! managed_by = Some owner.

(** ** The protocol *)

Variable MutationEnabled : bool.

Definition write_pre h (key : objectKey) (dryRun : bool) : Prop :=
  ∃ plan action, authorised h plan action ∧ key ∈ written_keys action ∧
    (dryRun = false → MutationEnabled = true ∧ dry_run_passed h key ∧ snapshot_saved h plan action).

Definition snapshot_pre h (cm : ConfigMap) : Prop :=
  MutationEnabled = true ∧ ∃ plan action refs items payload old,
    authorised h plan action ∧ om_Namespace (cm_Meta cm) = GetNamespace plan ∧ om_Name (cm_Meta cm) = snapshot_name plan ∧
    snapshot_refs action = Ok refs ∧ Forall2 (pictures h) refs items ∧ marshal_items items = Ok payload ∧
    len payload ≤ snapshot_limit ∧ old !! snapshotKey action = None ∧ cm_Data cm = <[snapshotKey action := payload]> old.

Definition operator_pre X h (e : OperatorE K X) : Prop :=
  match e with
  | UpdateNamespace o dryRun =>
      write_pre h ("Namespace", "", om_Name (ns_Meta o)) dryRun ∧
      protectedNamespace (om_Name (ns_Meta o)) = false ∧ relabels h o
  | CreateQuota o dryRun => write_pre h (key_of "ResourceQuota" (quota_Meta o)) dryRun ∧ absent_before h o
  | UpdateQuota o dryRun => write_pre h (key_of "ResourceQuota" (quota_Meta o)) dryRun ∧ owned_update h o
  | CreateLimitRange o dryRun => write_pre h (key_of "LimitRange" (lr_Meta o)) dryRun ∧ absent_before h o
  | UpdateLimitRange o dryRun => write_pre h (key_of "LimitRange" (lr_Meta o)) dryRun ∧ owned_update h o
  | CreateBudget o dryRun => write_pre h (key_of "PodDisruptionBudget" (pdb_Meta o)) dryRun ∧ absent_before h o
  | UpdateBudget o dryRun => write_pre h (key_of "PodDisruptionBudget" (pdb_Meta o)) dryRun ∧ owned_update h o
  | UpdateWorkload kind o dryRun =>
      write_pre h (key_of (kind_name kind) (wl_Meta o)) dryRun ∧ respecifies h kind o
  | CreateConfigMap cm | UpdateConfigMap cm => snapshot_pre h cm
  | CreateUnstructured o => run_of_plan h o ∨ recreates h o
  | UpdateUnstructured o => adds_finalizer h o ∨ replaces h o
  | DeleteUnstructured o => removes h o
  | UpdateStatus o => records_status h o
  | _ => True
  end.

(** The API server answers a read with the object asked for. *)
Definition operator_post X h (e : OperatorE K X) : X → Prop :=
  match e with
  | GetNamespaceObj name => λ r, ∀ o, r = Ok o → om_Name (ns_Meta o) = name
  | GetWorkload _ namespace name => λ r, ∀ o, r = Ok o → om_Namespace (wl_Meta o) = namespace ∧ om_Name (wl_Meta o) = name
  | GetConfigMap namespace name => λ r, ∀ o, r = Ok o → om_Namespace (cm_Meta o) = namespace ∧ om_Name (cm_Meta o) = name
  | _ => λ _, True
  end.

End Protocol.

(** Executes the next statement of a program under [safe]; [op_call] stops at a call. *)
Ltac op_read :=
  lazymatch goal with
  | |- safe _ _ _ (mbind _ (call _)) _ => apply safe_then_call; intros ? ?; split; [exact I|]; intros ? ?
  | |- safe _ _ _ (mbind _ (attempt (call _))) _ =>
      apply safe_then_attempt_call; intros ? ?; split; [exact I|]; intros ? ?
  end.

(** The specifications of the operator's functions, for the statements that call them. *)
Create HintDb operator discriminated.

Ltac op_step :=
  first [safe_pure_step |
  cbv beta;
  lazymatch goal with
  | |- safe _ _ _ (raise_if _ _) _ => apply safe_raise_if; intros ? ? ?
  | |- safe _ _ _ (mbind _ (ask _)) _ => apply safe_then_ask; intros ? ?; split; [exact I|]; intros ? _
  | |- safe _ _ _ (mbind _ _) _ => first [op_read | eapply safe_then_spec; [solve [eauto with operator nocore]|];
      cbv beta; let H := fresh in intros ? ? H; destruct_and? H]
  end].

(** * What persists *)

Section Persistence.
Context `{K : Kubernetes} {L : OperatorLib K} `{RangeOrder}.
Implicit Types h : history (OperatorE K).

Lemma plan_read_later h h' plan : suffix h h' → plan_read h plan → plan_read h' plan.
Proof.
  intros Hs (ns & n & o & Ho & Hp). exists ns, n, o. split; [by eapply in_later|].
  destruct (AddFinalizer plan_finalizer o) as [[] p]; [by eapply in_later | done].
Qed.

Lemma authorised_later h h' plan action : suffix h h' → authorised h plan action → authorised h' plan action.
Proof. intros Hs []. split; [by eapply plan_read_later|done..]. Qed.

Lemma dry_run_passed_later h h' key : suffix h h' → dry_run_passed h key → dry_run_passed h' key.
Proof. intros Hs (e & He & Hk). exists e. split; [by eapply in_later | done]. Qed.

Lemma snapshot_saved_later h h' plan action : suffix h h' → snapshot_saved h plan action → snapshot_saved h' plan action.
Proof.
  intros Hs (cm & Hk & Hns & Hn & Ho). exists cm. split_and!; [done..|].
  destruct Ho as [Ho|[Ho|Ho]]; [left | right; left | right; right]; by eapply in_later.
Qed.

Lemma pictures_later h h' ref item : suffix h h' → pictures h ref item → pictures h' ref item.
Proof.
  intros Hs (H1 & H2 & H3 & H4 & r & Hr & Ho). split_and!; [done..|]. exists r. split; [by eapply in_later | done].
Qed.

Lemma rollback_item_later h h' item : suffix h h' → rollback_item h item → rollback_item h' item.
Proof.
  intros Hs (plan & cm & key & text & items & Hp & Hr & Hcm & Hrest). exists plan, cm, key, text, items.
  split_and!; [by eapply plan_read_later | done | by eapply in_later | by destruct_and? Hrest..].
Qed.

Lemma since_now h0 h o : suffix h0 h → since h0 (o :: h) o.
Proof. intros [recent ->]. exists (o :: recent). split; [done | by left]. Qed.

Lemma happened_later h0 h h' o : suffix h h' → since h0 h o → since h0 h' o.
Proof.
  intros [more ->] (recent & -> & Ho). exists (more ++ recent). split; [by rewrite app_assoc|].
  apply elem_of_app. by right.
Qed.

Lemma since_in h0 h o : since h0 h o → o ∈ h.
Proof. intros (recent & -> & Ho). apply elem_of_app. by left. Qed.

Lemma seen_restored_later h0 h h' item : suffix h h' → seen_restored h0 h item → seen_restored h0 h' item.
Proof.
  unfold seen_restored. intros Hs. destruct (item_Existed item); intros (x & Hx & Hrest); exists x;
    (split; [by eapply happened_later | done]).
Qed.

Lemma rolled_back_later h h' plan : suffix h h' → rolled_back h plan → rolled_back h' plan.
Proof.
  intros Hs (h0 & cm & H0 & Hcm & Hall). exists h0, cm. split_and!; [by transitivity h | done |].
  intros key text Hk. destruct (Hall key text Hk) as (items & Hi & Hseen). exists items. split; [done|].
  intros item Hitem. by eapply seen_restored_later, Hseen.
Qed.

Lemma record_read_later h h' kinds o : suffix h h' → record_read h kinds o → record_read h' kinds o.
Proof. intros Hs (kind & ns & n & Hk & Ho). exists kind, ns, n. split; [done | by eapply in_later]. Qed.

Lemma run_of_plan_later h h' o : suffix h h' → run_of_plan h o → run_of_plan h' o.
Proof. intros Hs (plan & written & Hw & ->). exists plan, written. split; [by eapply in_later | done]. Qed.

Lemma own_record_later h h' o : suffix h h' → own_record h o → own_record h' o.
Proof.
  intros Hs []; econstructor; first [by eapply record_read_later | by eapply run_of_plan_later | by eapply in_later].
Qed.

Lemma plan_read_own h plan : plan_read h plan → own_record h plan.
Proof.
  intros (ns & n & o & Ho & Hp).
  assert (record_read h own_kinds o) as Hread by (exists "RemediationPlan", ns, n; split; [by left | done]).
  destruct (AddFinalizer plan_finalizer o) as [[] p] eqn:Hf.
  - apply (own_stored _ plan_finalizer o); [done | by rewrite Hf].
  - subst plan. replace p with (AddFinalizer plan_finalizer o).2 by (by rewrite Hf). by constructor.
Qed.

Lemma write_pre_later m h h' key dryRun : suffix h h' → write_pre m h key dryRun → write_pre m h' key dryRun.
Proof.
  intros Hs (plan & action & Ha & Hk & Hd). exists plan, action.
  split_and!; [by eapply authorised_later | done |]. intros Hdry. destruct (Hd Hdry) as (Hm & Hp & Hsnap).
  split_and!; [done | by eapply dry_run_passed_later | by eapply snapshot_saved_later].
Qed.
End Persistence.

Lemma field_set_key `{K : Kubernetes} key key' v (m : fields) : field key (set_key key' v m) = if key == key' then v else field key m.
Proof.
  unfold field. induction m as [|[k w] m IH]; cbn -[String.eqb].
  - rewrite String.eqb_sym. by destruct (key == key').
  - destruct (String.eqb_spec k key') as [->|Hne]; cbn -[String.eqb].
    + rewrite (String.eqb_sym key'). by destruct (String.eqb_spec key key').
    + destruct (String.eqb_spec k key) as [->|]; [by destruct (String.eqb_spec key key')|]. exact IH.
Qed.

(** * The executors *)

(** What the protocol says of a type that is upserted. *)
Class OwnedObject `{K : Kubernetes} {L : OperatorLib K} `{RangeOrder} (m : bool) (T : Type)
    {C : ClientObject (K := K) T} (kind : string) : Prop := {
  owned_meta (meta : ObjectMeta) (o : T) : object_Meta (with_Meta meta o) = meta;
  owned_get_pre h ns n : operator_pre m _ h (object_Get (T := T) ns n);
  owned_create_pre h (o : T) dryRun :
    write_pre m h (key_of kind (object_Meta o)) dryRun → absent_before h o → operator_pre m _ h (object_Create o dryRun);
  owned_update_pre h (o : T) dryRun :
    write_pre m h (key_of kind (object_Meta o)) dryRun → owned_update h o → operator_pre m _ h (object_Update o dryRun);
  owned_create_key (o : T) dryRun : written_key (object_Create o dryRun) = Some (key_of kind (object_Meta o), dryRun);
  owned_update_key (o : T) dryRun : written_key (object_Update o dryRun) = Some (key_of kind (object_Meta o), dryRun)
}.

Section Programs.
Context `{K : Kubernetes} {L : OperatorLib K} `{RangeOrder}.
Variable m : bool.
Implicit Types h : history (OperatorE K).

Abbreviation checked h p Φ := (safe (operator_pre m) operator_post h p (on_ok Φ)).

#[export] Instance quota_owned : OwnedObject m ResourceQuota "ResourceQuota".
Proof. by split. Qed.
#[export] Instance limits_owned : OwnedObject m LimitRange "LimitRange".
Proof. by split. Qed.
#[export] Instance budget_owned : OwnedObject m PodDisruptionBudget "PodDisruptionBudget".
Proof. by split. Qed.

Lemma labelled_owner (labels : gmap string string) :
  (default "" (labels !! managed_by) != owner) = false → labels !! managed_by = Some owner.
Proof. intros Hl%negb_false_iff%String.eqb_eq. destruct (labels !! managed_by); cbn in Hl; [by subst | done]. Qed.

Lemma upsertObject_checked h {T} {C : ClientObject (K := K) T} kind {O : OwnedObject m T kind} (obj : T) dryRun :
  write_pre m h (key_of kind (object_Meta obj)) dryRun →
  checked h (upsertObject obj dryRun) (λ h' _,
    suffix h h' ∧ (dryRun = true → dry_run_passed h' (key_of kind (object_Meta obj)))).
Proof.
  intros Hw. unfold upsertObject. cbv zeta. rewrite !owned_meta.
  apply safe_then_attempt_call. intros h1 Hh1. split; [apply owned_get_pre|]. intros got _.
  destruct got as [current|err].
  - op_step. apply safe_last_call. intros h2 Hh2. split.
    + apply owned_update_pre; [rewrite !owned_meta | unfold owned_update].
      * eapply write_pre_later; [|exact Hw]. later.
      * exists current. rewrite !owned_meta. cbn. split_and!; [happened | by apply labelled_owner | done].
    + intros [] _ h3 Hh3. split; [later|]. intros ->. eexists. split; [happened|].
      by rewrite owned_update_key, !owned_meta.
  - op_step; [|op_step]. apply safe_last_call. intros h2 Hh2. split.
    + apply owned_create_pre; [rewrite owned_meta; eapply write_pre_later; [|exact Hw]; later|].
      exists err. rewrite !owned_meta. split; [happened | done].
    + intros [] _ h3 Hh3. split; [later|]. intros ->. eexists. split; [happened|].
      by rewrite owned_create_key, owned_meta.
Qed.

(** Reads alone. *)
Definition passes {A} h h' (_ : A) : Prop := suffix h h'.

Lemma wrap_read_checked {A} h msg (e : OperatorE K (result A)) :
  (∀ h', operator_pre m _ h' e) → checked h (wrap_error msg (call e)) (passes h).
Proof.
  intros He. apply safe_bind. intros h1 Hh1. split; [apply He|]. intros [x|err] _ h2 Hh2 h3 Hh3; [|done].
  cbn. unfold passes. later.
Qed.

Lemma verifyResourceGovernance_checked h namespace : checked h (verifyResourceGovernance namespace) (passes h).
Proof.
  unfold verifyResourceGovernance.
  eapply safe_then_spec; [by apply wrap_read_checked|]. intros h1 quota Hq. cbv beta. op_step.
  eapply safe_then_spec; [by apply wrap_read_checked|]. intros h2 limits Hl. op_step. unfold passes in *. later.
Qed.

(** The objects an action may write, and those whose dry run passed. *)
Definition may_write h (action : fields) (dryRun : bool) : Prop :=
  ∀ key, key ∈ written_keys action → write_pre m h key dryRun.
Definition executed (action : fields) (dryRun : bool) h h' (_ : string) : Prop :=
  suffix h h' ∧ (dryRun = true → ∀ key, key ∈ written_keys action → dry_run_passed h' key).

Lemma may_write_later h h' action dryRun : suffix h h' → may_write h action dryRun → may_write h' action dryRun.
Proof. intros Hs Hw key Hk. eapply write_pre_later; [exact Hs | by apply Hw]. Qed.

Lemma verify_governance_checked h msg namespace :
  checked h (wrap_error msg (verifyResourceGovernance namespace)) (passes h).
Proof.
  apply safe_bind. eapply safe_weaken; [|apply safe_persists, verifyResourceGovernance_checked].
  intros h' [a|e] Ha h'' Hh''; [by apply Ha | done].
Qed.

Lemma executeGovernance_checked h action dryRun :
  nested_string ["type"] action = "apply_resource_governance" → may_write h action dryRun →
  checked h (executeGovernance action dryRun) (executed action dryRun h).
Proof.
  intros Ht Hw. unfold executeGovernance, applyResourceGovernance. op_step.
  assert (written_keys action =
    [("ResourceQuota", a, governance_name); ("LimitRange", a, governance_name)]) as Hkeys.
  { unfold written_keys. by rewrite Ht, H0. }
  do 2 op_step. op_step.
  eapply safe_then_spec; [apply (upsertObject_checked _ "ResourceQuota"), Hw; rewrite Hkeys; by left|].
  intros h1 [] [Hh1 Hq]. eapply safe_then_spec.
  { apply (upsertObject_checked _ "LimitRange"). eapply may_write_later; [exact Hh1 | exact Hw |].
    rewrite Hkeys. right. by left. }
  intros h2 [] [Hh2 Hl].
  assert (∀ h3, suffix h2 h3 → executed action dryRun h h3 "") as Hdone.
  { intros h3 Hh3. split; [later|]. intros -> key. rewrite Hkeys. intros Hk.
    eapply dry_run_passed_later; [exact Hh3|]. set_unfold. destruct Hk as [->|[->|[]]]; [|by apply Hl].
    eapply dry_run_passed_later; [exact Hh2 | by apply Hq]. }
  destruct dryRun; [apply safe_ret_ok; exact Hdone|].
  eapply safe_then_spec; [apply verify_governance_checked|]. intros h3 [] Hh3.
  apply safe_ret_ok. intros h4 Hh4. apply Hdone. unfold passes in *. later.
Qed.

Lemma executePodSecurityLabels_checked h action dryRun :
  nested_string ["type"] action = "patch_pod_security_labels" → may_write h action dryRun →
  checked h (executePodSecurityLabels action dryRun) (executed action dryRun h).
Proof.
  intros Ht Hw. unfold executePodSecurityLabels. op_step.
  assert (written_keys action = [("Namespace", "", a)]) as Hkeys.
  { unfold written_keys. by rewrite Ht, H0. }
  op_step. apply safe_then_call. intros h1 Hh1. split; [exact I|]. intros o Ho.
  specialize (Ho o eq_refl). apply safe_then_call. intros h2 Hh2. split.
  { cbn. rewrite Ho. split_and!; [eapply write_pre_later; [|apply Hw; rewrite Hkeys; by left]; later | done |].
    exists o; eexists. cbn. rewrite Ho. split; [happened | done]. }
  intros [] _.
  assert (∀ h3 t, suffix (Occ _ (UpdateNamespace (mkNamespace ((ns_Meta o) <| om_Labels :=
    desired_labels action ∪ om_Labels (ns_Meta o) |>) (ns_Rest o)) dryRun) (Ok tt) :: h2) h3 →
    executed action dryRun h h3 t) as Hdone.
  { intros h3 t Hh3. split; [later|]. intros -> key. rewrite Hkeys. intros ->%list_elem_of_singleton.
    eexists. split; [happened|]. cbn. by rewrite Ho. }
  destruct dryRun; [apply safe_ret_ok; intros; by apply Hdone|].
  op_read. op_step; [destruct p; apply safe_raise|]. apply safe_ret_ok. intros h4 Hh4. apply Hdone. later.
Qed.

Lemma workload_kind_name s kind : workload_kind s = Some kind → s = kind_name kind.
Proof.
  unfold workload_kind. intros Hk.
  repeat match type of Hk with context [if ?x == ?y then _ else _] => destruct (String.eqb_spec x y) end; by simplify_eq.
Qed.

Lemma updateWorkload_checked h action dryRun mutate :
  (∀ target, actionTarget action = Ok target → written_keys action = [ref_key target]) →
  may_write h action dryRun →
  checked h (updateWorkload action dryRun mutate) (λ h' _, executed action dryRun h h' "").
Proof.
  intros Hkeys Hw. unfold updateWorkload. op_step. op_step; [|op_step].
  specialize (Hkeys _ H0). apply workload_kind_name in Heqo as Hkind.
  apply safe_then_call. intros h1 Hh1. split; [exact I|]. intros o Ho.
  destruct (Ho o eq_refl) as [Hns Hn]. op_step.
  apply safe_last_call. intros h2 Hh2. split.
  { cbn. unfold key_of, respecifies. cbn. rewrite Hns, Hn, <- Hkind.
    split; [eapply write_pre_later; [|apply Hw; rewrite Hkeys; by left]; later|].
    exists o; eexists. split; [happened | done]. }
  intros [] _ h3 Hh3. split; [later|]. intros -> key. rewrite Hkeys.
  intros ->%list_elem_of_singleton. eexists. split; [happened|]. unfold written_key, key_of, ref_key. cbn.
  by rewrite Hns, Hn, <- Hkind.
Qed.

Lemma verifyWorkload_checked h action verify : checked h (verifyWorkload action verify) (passes h).
Proof.
  unfold verifyWorkload. op_step. op_step; [|op_step]. op_read. intros h1 Hh1.
  unfold on_ok. case_match; [|done]. unfold passes. later.
Qed.

Lemma verifyWorkloadRollout_checked h action : checked h (verifyWorkloadRollout action) (passes h).
Proof.
  unfold verifyWorkloadRollout. op_step. op_step; [|apply safe_ret_ok; auto]. op_read.
  op_step; op_step; unfold passes; later.
Qed.

(** The two executors that change a workload, with what they verify afterwards. *)
Lemma executeWorkload_checked h action dryRun mutate verify passed verified :
  (∀ target, actionTarget action = Ok target → written_keys action = [ref_key target]) →
  may_write h action dryRun →
  checked h (updateWorkload action dryRun mutate;;
    if dryRun then mret passed
    else verifyWorkload action verify;; verifyWorkloadRollout action;; mret verified) (executed action dryRun h).
Proof.
  intros Hkeys Hw. eapply safe_then_spec; [by apply updateWorkload_checked|]. intros h1 [] [Hh1 Hdry].
  assert (∀ h2 t, suffix h1 h2 → executed action dryRun h h2 t) as Hdone.
  { intros h2 t Hh2. split; [later|]. intros -> key Hk. eapply dry_run_passed_later; [exact Hh2 | by apply Hdry]. }
  destruct dryRun; [apply safe_ret_ok; intros; by apply Hdone|].
  eapply safe_then_spec; [apply verifyWorkload_checked|]. intros h2 [] Hh2.
  eapply safe_then_spec; [apply verifyWorkloadRollout_checked|]. intros h3 [] Hh3.
  apply safe_ret_ok. intros h4 Hh4. apply Hdone. unfold passes in *. later.
Qed.

Lemma executeWorkloadResources_checked h action dryRun :
  nested_string ["type"] action = "patch_workload_resources" → may_write h action dryRun →
  checked h (executeWorkloadResources action dryRun) (executed action dryRun h).
Proof.
  intros Ht Hw. unfold executeWorkloadResources. do 2 op_step. apply executeWorkload_checked; [|exact Hw].
  intros target Htarget. unfold written_keys. by rewrite Ht, Htarget.
Qed.

Lemma executeWorkloadProbes_checked h action dryRun :
  nested_string ["type"] action = "patch_workload_probes" → may_write h action dryRun →
  checked h (executeWorkloadProbes action dryRun) (executed action dryRun h).
Proof.
  intros Ht Hw. unfold executeWorkloadProbes. op_step. cbv zeta. apply executeWorkload_checked; [|exact Hw].
  intros target Htarget. unfold written_keys. by rewrite Ht, Htarget.
Qed.

Lemma budget_selector_checked h target : checked h (budget_selector target) (passes h).
Proof.
  assert (∀ kind, checked h (w ← call (GetWorkload kind (target_Namespace target) (target_Name target));
    match wl_Selector w with Some labels => mret labels | None => raise (Panic "nil pointer dereference") end)
    (passes h)) as Hget.
  { intros kind. op_read. op_step; [|op_step]. apply safe_ret_ok. intros h2 Hh2. unfold passes. later. }
  unfold budget_selector. destruct (workload_kind _) as [[]|]; [apply Hget.. | op_step | op_step].
Qed.

Lemma executePDB_checked h action dryRun :
  nested_string ["type"] action = "create_pdb" → may_write h action dryRun →
  checked h (executePDB action dryRun) (executed action dryRun h).
Proof.
  intros Ht Hw. unfold executePDB. op_step.
  assert (written_keys action = [("PodDisruptionBudget", target_Namespace a, budget_name a)]) as Hkeys.
  { unfold written_keys. by rewrite Ht, H0. }
  eapply safe_then_spec; [apply budget_selector_checked|]. intros h1 selector Hh1. op_step. cbv zeta.
  eapply safe_then_spec; [apply (upsertObject_checked _ "PodDisruptionBudget")|].
  { eapply may_write_later; [exact Hh1 | exact Hw |]. rewrite Hkeys. by left. }
  intros h2 [] [Hh2 Hdry]. unfold passes in Hh1.
  assert (∀ h3 t, suffix h2 h3 → executed action dryRun h h3 t) as Hdone.
  { intros h3 t Hh3. split; [later|]. intros -> key. rewrite Hkeys. intros ->%list_elem_of_singleton.
    eapply dry_run_passed_later; [exact Hh3 | by apply Hdry]. }
  destruct dryRun; [apply safe_ret_ok; intros; by apply Hdone|].
  op_read. do 2 op_step. apply safe_ret_ok. intros h4 Hh4. apply Hdone. later.
Qed.

Lemma executeTypedAction_checked h action dryRun :
  may_write h action dryRun → checked h (executeTypedAction action dryRun) (executed action dryRun h).
Proof.
  intros Hw. unfold executeTypedAction.
  repeat match goal with |- context [if ?x == ?y then _ else _] => destruct (String.eqb_spec x y) end.
  - by apply executeGovernance_checked.
  - by apply executePodSecurityLabels_checked.
  - by apply executeWorkloadResources_checked.
  - by apply executePDB_checked.
  - by apply executeWorkloadProbes_checked.
  - op_step.
Qed.

(** * Snapshots *)

Lemma snapshot_items_checked h refs : ∀ done items, Forall2 (pictures h) done items →
  checked h (snapshot_items refs items) (λ h' items', suffix h h' ∧ Forall2 (pictures h') (done ++ refs) items').
Proof.
  revert h. induction refs as [|ref refs IH]; intros h done items Hitems; cbn [snapshot_items].
  { apply safe_ret_ok. intros h' Hh'. split; [done|]. rewrite app_nil_r.
    eapply Forall2_impl; [exact Hitems|]. intros. by eapply pictures_later. }
  cbv zeta. apply safe_then_attempt_call. intros h1 Hh1. split; [exact I|]. intros r _.
  set (o := Occ _ _ r). assert (suffix h (o :: h1)) as Hs by later.
  assert (∀ item, pictures (o :: h1) ref item → Forall2 (pictures (o :: h1)) (done ++ [ref]) (items ++ [item])) as Hnext.
  { intros item Hitem. apply Forall2_app; [|by constructor].
    eapply Forall2_impl; [exact Hitems|]. intros. by eapply pictures_later. }
  assert (∀ items', Forall2 (pictures (o :: h1)) (done ++ [ref]) items' →
    checked (o :: h1) (snapshot_items refs items') (λ h' items'',
      suffix h h' ∧ Forall2 (pictures h') (done ++ ref :: refs) items'')) as Hrest.
  { intros items' Hi. eapply safe_weaken; [|by apply (IH _ (done ++ [ref]))].
    intros h' [a|] Ha; [|done]. destruct Ha as [Hsuf Ha]. split; [later|].
    by rewrite <- app_assoc in Ha. }
  destruct r as [x|err]; [|op_step; [|op_step]]; apply Hrest, Hnext; split_and!; try done;
    (eexists; split; [by left|]); by cbn.
Qed.

Definition saves h plan action h' (_ : string) : Prop := suffix h h' ∧ snapshot_saved h' plan action.

Lemma write_snapshot_checked h cm : (∀ h', suffix h h' → snapshot_pre m h' cm) →
  checked h (write_snapshot cm) (λ h' _, suffix h h' ∧
    (Occ _ (CreateConfigMap cm) (Ok tt) ∈ h' ∨ Occ _ (UpdateConfigMap cm) (Ok tt) ∈ h')).
Proof.
  intros Hpre. unfold write_snapshot. destruct (_ == _).
  all: apply safe_last_call; intros h1 Hh1; split; [by apply Hpre|]; intros [] _ h2 Hh2; split; [later|].
  - left. happened.
  - right. happened.
Qed.

Lemma ensureActionSnapshot_checked h plan action :
  m = true → authorised h plan action →
  checked h (ensureActionSnapshot plan action) (saves h plan action).
Proof.
  intros Hm Ha. unfold ensureActionSnapshot. cbv zeta.
  apply safe_then_attempt_call. intros h1 Hh1. split; [exact I|]. intros got Hgot.
  set (o := Occ _ _ got). assert (suffix h (o :: h1)) as Hs by later.
  assert (∀ cm, om_Namespace (cm_Meta cm) = GetNamespace plan → om_Name (cm_Meta cm) = snapshot_name plan →
    cm_Data cm !! snapshotKey action = None → ∀ ref,
    checked (o :: h1) (items ← snapshotItemsForAction action;
      payload ← pure_result (marshal_items items);
      raise_if (snapshot_limit <? len payload) (Errorf "snapshot exceeds the safe ConfigMap payload limit");;
      write_snapshot (mkConfigMap (cm_Meta cm) (<[snapshotKey action := payload]> (cm_Data cm)) (cm_Rest cm));;
      mret ref) (saves h plan action)) as Hsave.
  { intros cm Hns Hn Hnew ref. unfold snapshotItemsForAction. do 2 op_step.
    eapply safe_then_spec; [by apply (snapshot_items_checked _ _ []); constructor|]. intros h2 items [Hh2 Hitems].
    do 2 op_step. match goal with H : (_ <? _) = false |- _ => apply Z.ltb_ge in H as Hlen end.
    eapply safe_then_spec; [apply write_snapshot_checked|].
    { intros h3 Hh3. split; [exact Hm|]. exists plan, action, a, items, a0, (cm_Data cm). split_and!; try done.
      - eapply authorised_later; [|exact Ha]. later.
      - eapply Forall2_impl; [exact Hitems|]. intros. by eapply pictures_later. }
    intros h3 [] [Hh3 Hwritten]. apply safe_ret_ok. intros h4 Hh4. split; [later|].
    exists (mkConfigMap (cm_Meta cm) (<[snapshotKey action := a0]> (cm_Data cm)) (cm_Rest cm)).
    split_and!; [by exists a0; apply lookup_insert_eq | done | done |].
    right. destruct Hwritten as [Hw|Hw]; [left | right]; by eapply in_later. }
  destruct got as [cm|err].
  - destruct (Hgot cm eq_refl) as [Hns Hn]. op_step; [|by apply Hsave].
    apply safe_ret_ok. intros h2 Hh2. split; [later|]. exists cm. split_and!; [done..|]. left. happened.
  - op_step; [|op_step]. by apply Hsave.
Qed.

(** * The actions of a plan *)

Lemma mutate_action_checked h plan action ls :
  m = true → authorised h plan action →
  (∀ key, key ∈ written_keys action → dry_run_passed h key) →
  checked h (mutate_action plan action ls) (passes h).
Proof.
  intros Hm Ha Hdry. unfold mutate_action. cbv zeta.
  eapply safe_then_attempt; [by apply safe_grows, (ensureActionSnapshot_checked _ plan action)|].
  intros h1 [ref|err] [Hh1 Hsaved]; [|apply safe_ret_ok; intros; unfold passes; later].
  destruct Hsaved as [_ Hsaved].
  eapply safe_then_attempt; [apply safe_grows, (executeTypedAction_checked h1 action false)|].
  { intros key Hk. exists plan, action. split_and!; [by eapply authorised_later | done |]. intros _.
    split_and!; [done | | done]. eapply dry_run_passed_later; [exact Hh1 | by apply Hdry]. }
  intros h2 r [Hh2 _]. repeat op_step; apply safe_ret_ok; intros; unfold passes; later.
Qed.

Lemma run_action_checked h plan action ls :
  plan_read h plan → rollback_requested plan = false → released plan → AMap action ∈ plan_actions plan →
  checked h (run_action m plan action ls) (passes h).
Proof.
  intros Hread Hroll Hrel Haction. unfold run_action. cbv zeta.
  op_step; [|apply safe_ret_ok; auto]. op_step; [apply safe_ret_ok; auto|]. op_step; [|apply safe_ret_ok; auto].
  assert (authorised h plan action) as Ha.
  { split; [done..|by eexists|]. match goal with H : (_ != _) = false |- _ => by apply negb_false_iff, String.eqb_eq in H end. }
  eapply safe_then_attempt; [apply safe_grows, (executeTypedAction_checked h action true)|].
  { intros key Hk. exists plan, action. split_and!; [done..|]. intros [=]. }
  intros h1 [text|err] [Hh1 Hdone]; [|apply safe_ret_ok; intros; unfold passes; later].
  destruct Hdone as [_ Hdry].
  destruct m eqn:Hm; [|apply safe_ret_ok; intros; unfold passes; later].
  cbn [negb]. rewrite <- Hm. eapply safe_weaken; [|apply mutate_action_checked; [done | by eapply authorised_later | by apply Hdry]].
  intros h2 [x|err] Hh2; [|done]. unfold on_ok, passes in *. later.
Qed.

Lemma run_actions_checked h plan actions ls :
  plan_read h plan → rollback_requested plan = false → released plan →
  (∀ raw, raw ∈ actions → raw ∈ plan_actions plan) →
  checked h (run_actions m plan actions ls) (passes h).
Proof.
  revert h ls. induction actions as [|raw actions IH]; intros h ls Hread Hroll Hrel Hin; cbn [run_actions];
    [apply safe_ret_ok; auto|].
  assert (∀ h', suffix h h' → ∀ ls, checked h' (run_actions m plan actions ls) (passes h)) as Hrest.
  { intros h' Hh' ls'. eapply safe_weaken; [|apply IH; [by eapply plan_read_later | done | done |]].
    - intros h2 [x|err] Hh2; [|done]. unfold on_ok, passes in *. later.
    - intros x Hx. apply Hin. by right. }
  destruct raw as [| | | | | |action]; cbn [as_map]; try by apply Hrest.
  eapply safe_then_spec; [apply run_action_checked; try done; apply Hin; by left|].
  intros h1 [result|ls'] Hh1; [apply safe_ret_ok; intros; unfold passes in *; later | by apply Hrest].
Qed.

Lemma gate_result_released gate result :
  gate_result gate result = None →
  gate_execution gate = true ∧ (gate_required gate = true → gate_decision gate = "approved").
Proof.
  unfold gate_result. destruct gate as [[] decision []]; cbn; try done.
  - destruct (String.eqb_spec decision "rejected"); cbn; [done|].
    by destruct (String.eqb_spec decision "approved").
  - destruct (decision == "rejected"), (decision == "approved"); done.
Qed.

Lemma reconcilePlanActions_checked h plan :
  plan_read h plan → rollback_requested plan = false → checked h (reconcilePlanActions m plan) (passes h).
Proof.
  intros Hread Hroll. unfold reconcilePlanActions. cbv zeta.
  destruct (gate_result _ _) eqn:Hg; [apply safe_ret_ok; auto|].
  eapply safe_then_spec; [apply run_actions_checked; try done; by apply gate_result_released in Hg|].
  intros h1 [result|ls] Hh1; apply safe_ret_ok; intros; unfold passes in *; later.
Qed.

(** * Rollback *)

Definition item_got item (got : result object) : occurrence (OperatorE K) :=
  Occ _ (GetUnstructured (item_APIVersion item) (item_Kind item) (item_Namespace item) (item_Name item)) got.

(** The read that verifies an item. *)
Lemma get_item_checked h0 h item :
  suffix h0 h → checked h (get_item item) (λ h' o, suffix h h' ∧ since h0 h' (item_got item (Ok o))).
Proof.
  intros H0. apply safe_last_call. intros h1 Hh1. split; [exact I|]. intros o _ h2 Hh2.
  split; [later|]. eapply happened_later; [exact Hh2|]. apply since_now. later.
Qed.

Definition restores_item h0 h item h' (_ : unit) : Prop := suffix h h' ∧ seen_restored h0 h' item.

Lemma restore_present_checked h0 h item got :
  suffix h0 h → rollback_item h item → item_Existed item = true → item_got item got ∈ h →
  checked h (restore_present item got) (restores_item h0 h item).
Proof.
  intros H0 Hitem He Hgot. unfold restore_present. cbv zeta. apply safe_then_spec with (passes h).
  - destruct got as [current|err]; [|op_step; [|op_step]].
    + apply safe_then_call. intros h1 Hh1. split; [|intros x _; apply safe_ret_ok; intros; unfold passes; later].
      right. exists item, current. split_and!; [by eapply rollback_item_later | done | by eapply in_later | done].
    + apply safe_then_call. intros h1 Hh1. split; [|intros x _; apply safe_ret_ok; intros; unfold passes; later].
      right. exists item, err. split_and!; [by eapply rollback_item_later | done | by eapply in_later | done..].
  - intros h1 [] Hh1. unfold passes in Hh1.
    eapply safe_then_spec; [apply (get_item_checked h0); later|]. intros h2 o [Hh2 Hseen].
    apply safe_raise_if. intros Hstate%negb_false_iff%String.eqb_eq h3 Hh3. split; [later|].
    apply (seen_restored_later _ h2); [done|]. unfold seen_restored. rewrite He. by exists o.
Qed.

Lemma restore_absent_checked h0 h item got :
  suffix h0 h → rollback_item h item → item_Existed item = false → since h0 h (item_got item got) →
  checked h (restore_absent item got) (restores_item h0 h item).
Proof.
  intros H0 Hitem He Hgot.
  assert (∀ h1 err, suffix h h1 → since h0 h1 (item_got item (Err err)) → IsNotFound err = true →
    ∀ h2, suffix h1 h2 → restores_item h0 h item h2 tt) as Hdone.
  { intros h1 err Hh1 Herr Hnf h2 Hh2. split; [later|]. apply (seen_restored_later _ h1); [done|].
    unfold seen_restored. rewrite He. by exists err. }
  unfold restore_absent. destruct got as [current|err]; [|op_step; [by apply safe_ret_ok, Hdone with err | op_step]].
  op_step. apply safe_then_attempt_call. intros h1 Hh1. split.
  { exists item. split_and!; [by eapply rollback_item_later | done | | by apply labelled_owner].
    eapply in_later; [exact Hh1 | by eapply since_in]. }
  intros deleted _. apply safe_then_spec with (passes h).
  - repeat op_step; apply safe_ret_ok; intros; unfold passes; later.
  - intros h2 [] Hh2. unfold passes in Hh2. unfold get_item. apply safe_then_attempt_call. intros h3 Hh3.
    split; [exact I|]. intros check _. repeat op_step. apply safe_ret_ok.
    eapply Hdone; [later | apply since_now; later | done].
Qed.

Lemma restoreSnapshotItem_checked h0 h item :
  suffix h0 h → rollback_item h item → checked h (restoreSnapshotItem item) (restores_item h0 h item).
Proof.
  intros H0 Hitem. unfold restoreSnapshotItem, get_item. apply safe_then_attempt_call. intros h1 Hh1.
  split; [exact I|]. intros got _. set (o := Occ _ _ got).
  assert (since h0 (o :: h1) (item_got item got)) as Hgot by (apply since_now; later).
  assert (rollback_item (o :: h1) item) as Hitem' by (eapply rollback_item_later; [|exact Hitem]; later).
  eapply safe_weaken with (on_ok (restores_item h0 (o :: h1) item)).
  { intros h2 [x|err]; [|done]. intros [Hh2 Hseen]. split; [later | done]. }
  destruct (item_Existed item) eqn:He.
  - apply restore_present_checked; [later | done | done | by left].
  - apply restore_absent_checked; [later | done..].
Qed.

(** The items of a list, or of all sets: restored, or the rollback is reported as failed. *)
Definition restores_all h0 h (items : list snapshotItem) h' (outcome : planResult + planResult) : Prop :=
  suffix h h' ∧ match outcome with
  | inl failed => res_phase failed = "RollbackFailed"
  | inr _ => ∀ item, item ∈ items → seen_restored h0 h' item
  end.

Lemma restore_items_checked h0 h items result :
  suffix h0 h → (∀ item, item ∈ items → rollback_item h item) →
  checked h (restore_items items result) (restores_all h0 h items).
Proof.
  revert h result. induction items as [|item items IH]; intros h result H0 Hitems; cbn [restore_items].
  { apply safe_ret_ok. intros h' Hh'. split; [done|]. intros item []%not_elem_of_nil. }
  eapply safe_then_attempt; [apply safe_grows, (restoreSnapshotItem_checked h0 h); [done | apply Hitems; by left]|].
  intros h1 [[]|err] [Hh1 Hone]; [|apply safe_ret_ok; intros; split; [later | done]].
  destruct Hone as [_ Hone]. eapply safe_weaken; [|apply IH].
  - intros h2 [[failed|done']|err]; [| |done]; intros [Hh2 Hall]; (split; [later|]); [done|].
    intros i [->|Hi]%elem_of_cons; [by eapply seen_restored_later | by apply Hall].
  - later.
  - intros i Hi. eapply rollback_item_later; [exact Hh1|]. apply Hitems. by right.
Qed.

Definition restores_sets h0 h (sets : list (string * string)) h' (outcome : planResult + planResult) : Prop :=
  suffix h h' ∧ match outcome with
  | inl failed => res_phase failed = "RollbackFailed"
  | inr _ => ∀ key text, (key, text) ∈ sets →
      ∃ items, unmarshal_items text = Ok items ∧ ∀ item, item ∈ items → seen_restored h0 h' item
  end.

Lemma restore_sets_checked h0 h sets result : suffix h0 h →
  (∀ key text items item, (key, text) ∈ sets → unmarshal_items text = Ok items → item ∈ items → rollback_item h item) →
  checked h (restore_sets sets result) (restores_sets h0 h sets).
Proof.
  revert h result. induction sets as [|[key text] sets IH]; intros h result H0 Hsets; cbn [restore_sets].
  { apply safe_ret_ok. intros h' Hh'. split; [done|]. intros key text []%not_elem_of_nil. }
  op_step; [|apply safe_ret_ok; intros; split; [later | done]].
  rename select (unmarshal_items text = Ok _) into Hu.
  eapply safe_then_spec; [apply (restore_items_checked h0); [done|]|].
  { intros item Hitem. eapply Hsets; [by left | exact Hu | done]. }
  intros h1 [x|x] [Hh1 Hset]; [apply safe_ret_ok; intros; split; [later | done]|].
  eapply safe_weaken; [|apply IH; [later|]].
  - intros h2 [[failed|done']|err]; [| |done]; intros [Hh2 Hall]; (split; [later|]); [done|].
    intros k t [[= -> ->]|Hk]%elem_of_cons; [|by eapply Hall].
    eexists. split; [exact Hu|]. intros item Hitem. by eapply seen_restored_later, Hset.
  - intros k t its i Hin Hui Hi. eapply rollback_item_later; [exact Hh1|]. eapply Hsets; [right|..]; done.
Qed.

(** The phase is [RolledBack] only when it was. *)
Definition reports_rollback h plan h' (result : planResult) : Prop :=
  suffix h h' ∧ (res_phase result = "RolledBack" → rolled_back h' plan).

Lemma reconcileRollback_checked h plan :
  plan_read h plan → rollback_requested plan = true → checked h (reconcileRollback plan) (reports_rollback h plan).
Proof.
  intros Hread Hroll. unfold reconcileRollback. apply safe_then_attempt_call. intros h1 Hh1. split; [exact I|].
  intros [cm|err] _; [|apply safe_ret_ok; intros; split; [later | done]]. cbv zeta.
  set (o := Occ _ _ (Ok cm)).
  eapply safe_then_spec; [apply (restore_sets_checked (o :: h1)); [done|]|].
  { intros key text items item Hin Hu Hitem. exists plan, cm, key, text, items.
    split_and!; try done; [eapply plan_read_later; [|exact Hread]; later | by left | by apply elem_of_range]. }
  intros h2 [x|x] [Hh2 Hall]; apply safe_ret_ok; intros h3 Hh3; (split; [later|]); [by rewrite Hall|].
  intros _. apply (rolled_back_later h2); [done|]. exists (o :: h1), cm. split_and!; [done | by left |].
  intros key text Hk. by apply (Hall key), elem_of_range.
Qed.

(** * Recording the outcome, and the reconciliations *)

(** Writing the status of a record, where that status is not the one of a completed rollback. *)
Lemma status_checked h record status Q (k : object → P (OperatorE K) Q) Φ :
  own_record h record →
  (field "phase" status = AString "RolledBack" → rollback_requested record = true → rolled_back h record) →
  (∀ h' stored, suffix h h' → Occ _ (UpdateStatus (set_object_key "status" (AMap status) record)) (Ok stored) ∈ h' →
    checked h' (k stored) Φ) →
  checked h (stored ← call (UpdateStatus (set_object_key "status" (AMap status) record)); k stored) Φ.
Proof.
  intros Hown Hphase Hk. apply safe_then_call. intros h1 Hh1. split.
  - exists record, status. split_and!; [by eapply own_record_later | done |].
    intros Hp Hr. eapply rolled_back_later; [exact Hh1 | by apply Hphase].
  - intros stored _. apply Hk; [later | happened].
Qed.

Lemma finding_phase_named runState phase remediationState :
  finding_phase runState = Some (phase, remediationState) → AString phase ≠ AString "RolledBack".
Proof. unfold finding_phase. intros Hf. repeat case_match; by simplify_eq. Qed.

Lemma upsertRun_checked h plan written result now :
  Occ _ (UpdateStatus written) (Ok plan) ∈ h → checked h (upsertRun plan result now) (passes h).
Proof.
  intros Hplan. unfold upsertRun. cbv zeta. apply safe_then_attempt_call. intros h1 Hh1.
  split; [exact I|]. intros got _. set (o := Occ _ _ got).
  apply safe_then_spec with (λ h' run, suffix h h' ∧ own_record h' run).
  - destruct got as [run|err]; [|op_step; [|op_step]].
    + apply safe_ret_ok. intros h2 Hh2. split; [later|]. apply own_read. eexists "RemediationRun", _, _.
      split; [right; by left | eapply in_later; [exact Hh2 | by left]].
    + assert (run_of_plan h (new_run plan (NewRemediationRunObject (GetNamespace plan) (run_name plan)))) as Hrun
        by by exists plan, written.
      apply safe_last_call. intros h2 Hh2. split; [left; eapply run_of_plan_later; [|exact Hrun]; later|].
      intros run _ h3 Hh3. split; [later|]. eapply own_created; [|happened].
      eapply run_of_plan_later; [|exact Hrun]. later.
  - intros h2 run [Hh2 Hown]. apply status_checked; [done | discriminate |].
    intros h3 stored Hh3 _. apply safe_ret_ok. intros. unfold passes. later.
Qed.

Lemma updateFindingStatus_checked h plan result now : checked h (updateFindingStatus plan result now) (passes h).
Proof.
  unfold updateFindingStatus. cbv zeta. op_step; [apply safe_ret_ok; intros; unfold passes; later|].
  set (ns := if nested_string _ _ == "" then _ else _).
  apply safe_then_attempt_call. intros h1 Hh1. split; [exact I|].
  intros [finding|err] _; [|op_step; [apply safe_ret_ok; intros; unfold passes; later | op_step]].
  op_step; [|apply safe_ret_ok; intros; unfold passes; later]. op_step. apply status_checked.
  - apply own_read. eexists "Finding", _, _. split; [right; right; by left | by left].
  - intros Hp. by eapply finding_phase_named in Hp.
  - intros h2 stored Hh2 _. apply safe_ret_ok. intros. unfold passes. later.
Qed.

Lemma record_outcome_checked h plan result now :
  plan_read h plan →
  (res_phase result = "RolledBack" → rollback_requested plan = true → rolled_back h plan) →
  checked h (record_outcome plan result now) (passes h).
Proof.
  intros Hread Hphase. unfold record_outcome, writePlanStatus. apply status_checked.
  - by apply plan_read_own.
  - intros [= Hp]. by apply Hphase.
  - intros h1 plan' Hh1 Hwritten. eapply safe_then_spec; [by eapply upsertRun_checked|]. intros h2 [] Hh2.
    eapply safe_then_spec; [apply updateFindingStatus_checked|]. intros h3 [] Hh3.
    apply safe_ret_ok. intros. unfold passes in *. later.
Qed.

Lemma fetch_plan_checked h namespace name :
  checked h (fetch_plan namespace name) (λ h' plan, suffix h h' ∧ ∀ p, plan = Some p → plan_read h' p).
Proof.
  unfold fetch_plan. apply safe_then_attempt_call. intros h1 Hh1. split; [exact I|].
  intros [o|err] _; [|op_step; [apply safe_ret_ok; intros; split; [later|done] | op_step]].
  destruct (AddFinalizer plan_finalizer o) as [[] p] eqn:Hf.
  - apply safe_then_call. intros h2 Hh2. split.
    { left. exists plan_finalizer, o. rewrite Hf. split_and!; [by left | | done]. exists "RemediationPlan", namespace, name.
      split; [by left | happened]. }
    intros plan _. apply safe_ret_ok. intros h3 Hh3. split; [later|]. intros q [= <-].
    exists namespace, name, o. rewrite Hf. split; happened.
  - apply safe_ret_ok. intros h2 Hh2. split; [later|]. intros q [= <-].
    exists namespace, name, o. rewrite Hf. split; [happened | done].
Qed.

Lemma Reconcile_checked h namespace name : checked h (Reconcile m namespace name) (passes h).
Proof.
  unfold Reconcile. eapply safe_then_spec; [apply fetch_plan_checked|]. intros h1 [plan|] [Hh1 Hplan].
  2: { apply safe_ret_ok. intros. unfold passes. later. }
  specialize (Hplan plan eq_refl). apply safe_then_ask. intros h2 Hh2. split; [exact I|]. intros now _.
  set (o := Occ _ _ now). assert (plan_read (o :: h2) plan) as Hread by (eapply plan_read_later; [|exact Hplan]; later).
  assert (∀ h3 result, suffix (o :: h2) h3 →
    (res_phase result = "RolledBack" → rollback_requested plan = true → rolled_back h3 plan) →
    checked h3 (record_outcome plan result now) (passes h)) as Hrecord.
  { intros h3 result Hh3 Hphase. eapply safe_weaken; [|apply record_outcome_checked; [by eapply plan_read_later|done]].
    intros h4 [x|] Hh4; [|done]. unfold on_ok, passes in *. later. }
  destruct (nested_bool _ _) eqn:Hroll; [op_step; [apply safe_ret_ok; intros; unfold passes; later|]|].
  - eapply safe_then_spec; [by apply reconcileRollback_checked|]. intros h3 result [Hh3 Hdone].
    apply Hrecord; auto.
  - eapply safe_then_spec; [by apply reconcilePlanActions_checked|]. intros h3 result Hh3. apply Hrecord; [done|].
    unfold rollback_requested. by rewrite Hroll.
Qed.

Lemma ReconcileFinding_checked h namespace name : checked h (ReconcileFinding namespace name) (passes h).
Proof.
  unfold ReconcileFinding. apply safe_then_attempt_call. intros h1 Hh1. split; [exact I|].
  intros [o|err] _; [|op_step; [apply safe_ret_ok; intros; unfold passes; later | op_step]].
  set (occ := Occ _ _ (Ok o)).
  assert (∀ kinds, "Finding" ∈ kinds → record_read (occ :: h1) kinds o) as Hread
    by (intros kinds Hk; exists "Finding", namespace, name; split; [exact Hk | by left]).
  destruct (AddFinalizer finding_finalizer o) as [added p] eqn:Hf.
  apply safe_then_spec with (λ h' finding, suffix h h' ∧ own_record h' finding).
  - destruct added.
    + apply safe_last_call. intros h2 Hh2. split.
      { left. exists finding_finalizer, o. rewrite Hf. split_and!; [right; by left | | done].
        eapply record_read_later; [exact Hh2 | apply Hread; right; by left]. }
      intros stored _ h3 Hh3. split; [later|]. apply (own_stored _ finding_finalizer o).
      * eapply record_read_later; [|apply Hread; right; right; by left]. later.
      * rewrite Hf. happened.
    + apply safe_ret_ok. intros h2 Hh2. split; [later|]. replace p with (AddFinalizer finding_finalizer o).2 by by rewrite Hf.
      apply own_finalized. eapply record_read_later; [exact Hh2 | apply Hread; right; right; by left].
  - intros h2 finding [Hh2 Hown]. op_step; [apply safe_ret_ok; intros; unfold passes in *; later|].
    apply safe_then_ask. intros h3 Hh3. split; [exact I|]. intros now _. unfold observed_status.
    apply status_checked; [eapply own_record_later; [|exact Hown]; later | |].
    { rewrite !field_set_key. by repeat case_match. }
    intros h4 stored Hh4 _. apply safe_ret_ok. intros. unfold passes in *. later.
Qed.
End Programs.
