(* ===== verification/OperatorTrace.v ===== *)
(** Concurrent executions of the remediation operator: any number of reconciliations of plans and of
    findings, interleaved call by call with each other and with every other client of the API server,
    whose answers are arbitrary except that a read answers the object asked for. *)
From S2P Require Import Prelude GoLib Sha256 Json ActionCatalog Kube Interaction OperatorApi Operator OperatorProps.

Local Open Scope Z_scope.

Section Executions.
Context `{K : Kubernetes} {L : OperatorLib K} `{RangeOrder}.
Variable MutationEnabled : bool.
Implicit Types h : history (OperatorE K).

Definition discarded {A} (p : P (OperatorE K) A) : prog (OperatorE K) unit := prog_bind (λ _, Ret tt) p.

Inductive operator_entry : prog (OperatorE K) unit → Prop :=
| enter_plan namespace name : operator_entry (discarded (Reconcile MutationEnabled namespace name))
| enter_finding namespace name : operator_entry (discarded (ReconcileFinding namespace name)).

(** The state of the cluster is left open: it shows in the answers alone. *)
Definition operator_execution (h : history (OperatorE K)) (ts : list (prog (OperatorE K) unit)) : Prop :=
  execution (λ _ : unit, True) operator_entry (λ X _ e x _, operator_post X [] e x) (λ _ _, True) h tt ts.

Lemma operator_entry_safe p h :
  operator_entry p → safe (operator_pre MutationEnabled) operator_post h p (λ _ _, True).
Proof.
  assert (∀ A (q : P (OperatorE K) A), safe (operator_pre MutationEnabled) operator_post h q (on_ok (passes h)) →
    safe (operator_pre MutationEnabled) operator_post h (discarded q) (λ _ _, True)) as Hd.
  { intros A q Hq. apply safe_bind. eapply safe_weaken; [|exact Hq]. by intros h' r _ h'' _. }
  intros []; apply Hd; [apply Reconcile_checked | apply ReconcileFinding_checked].
Qed.

(** What the protocol demands of an event held when it was performed. *)
Lemma operator_event_pre h ts later X (e : OperatorE K X) x before :
  operator_execution h ts → h = later ++ Occ X e x :: before → operator_pre MutationEnabled X before e.
Proof.
  intros He ->. eapply (executions_obey (operator_pre MutationEnabled) operator_post) with (inv := λ _ _, True)
    in He as (_ & Ho & _); try done.
  - induction later as [|[] later IH]; cbn in Ho; destruct Ho; [done|]. by apply IH.
  - intros p h Hp. by apply operator_entry_safe.
Qed.

(** The snapshot of an action covers every object its executor writes. *)
Lemma labels_target (entry : CatalogAction) d :
  Validate entry = Ok d → req_Type entry = "patch_pod_security_labels" → req_Kind entry = "Namespace".
Proof.
  intros Hv Ht. unfold Validate in Hv. apply bind_ok in Hv as (d' & Hp & _).
  assert (Lookup "patch_pod_security_labels" = Some def_of_patch_pod_security_labels) as Hl by reflexivity.
  unfold ValidateProposal in Hp. rewrite Ht, Hl in Hp.
  destruct (supports _ _ _) eqn:Hs; [|done]. unfold supports in Hs. cbn -[String.eqb] in Hs.
  rewrite orb_false_r in Hs. apply andb_true_iff in Hs as [_ Hk]. by apply String.eqb_eq in Hk.
Qed.

Lemma written_keys_covered h plan action refs key :
  authorised h plan action → snapshot_refs action = Ok refs → key ∈ written_keys action → key ∈ map ref_key refs.
Proof.
  intros [_ _ _ _ [d Hd] _] Hrefs Hk. unfold snapshot_refs in Hrefs. unfold written_keys in Hk.
  apply bind_ok in Hrefs as (target & Ht & Hrefs). rewrite Ht in Hk.
  destruct (String.eqb_spec (nested_string ["type"] action) "apply_resource_governance").
  { apply bind_ok in Hrefs as (namespace & Hns & [= <-]). by rewrite Hns in Hk. }
  destruct (String.eqb_spec (nested_string ["type"] action) "patch_pod_security_labels") as [Hlabels|].
  { rewrite Hlabels in Hrefs. cbn in Hrefs. injection Hrefs as <-.
    pose proof (labels_target _ _ Hd Hlabels) as Hkind. cbn in Hkind. unfold targetNamespace in Hk.
    unfold actionTarget in Ht. unfold nested_map in Hkind.
    destruct (NestedMap ["target"] action) as [[t|]|]; [|done..]. cbn in Hkind. rewrite Hkind in Hk. cbn in Hk.
    apply bind_ok in Ht as ([] & _ & Ht). apply bind_ok in Ht as ([] & _ & [= <-]). done. }
  destruct (String.eqb_spec (nested_string ["type"] action) "create_pdb") as [|]; [by injection Hrefs as <-|].
  destruct (_ || _); [by injection Hrefs as <- | done].
Qed.

(** ** What the calls of an execution do *)

(** The calls that change the cluster: dry runs do not. *)
Definition changes {X} (e : OperatorE K X) : bool :=
  match e with
  | UpdateNamespace _ dryRun | CreateQuota _ dryRun | UpdateQuota _ dryRun | CreateLimitRange _ dryRun
  | UpdateLimitRange _ dryRun | CreateBudget _ dryRun | UpdateBudget _ dryRun | UpdateWorkload _ _ dryRun => negb dryRun
  | CreateConfigMap _ | UpdateConfigMap _ | CreateUnstructured _ | UpdateUnstructured _ | DeleteUnstructured _
  | UpdateStatus _ => true
  | Clock | GetNamespaceObj _ | GetQuota _ _ | GetLimitRange _ _ | GetBudget _ _ | GetWorkload _ _ _
  | GetConfigMap _ _ | GetUnstructured _ _ _ _ => false
  end.

(** It executes an action of a plan, with mutation enabled. *)
Definition executes_action h {X} (e : OperatorE K X) : Prop :=
  MutationEnabled = true ∧ ∃ key plan action, written_key e = Some (key, false) ∧
    authorised h plan action ∧ key ∈ written_keys action ∧
    dry_run_passed h key ∧ snapshot_saved h plan action ∧
    (∀ refs, snapshot_refs action = Ok refs → key ∈ map ref_key refs).

(** It saves the snapshot of an action of a plan, with mutation enabled. *)
Definition saves_snapshot h {X} (e : OperatorE K X) : Prop :=
  match e with CreateConfigMap cm | UpdateConfigMap cm => snapshot_pre MutationEnabled h cm | _ => False end.

(** It keeps the operator's plans, runs and findings. *)
Definition keeps_records h {X} (e : OperatorE K X) : Prop :=
  match e with
  | CreateUnstructured o => run_of_plan h o
  | UpdateUnstructured o => adds_finalizer h o
  | UpdateStatus o => records_status h o
  | _ => False
  end.

(** It restores an item of a snapshot of a plan whose rollback was requested. *)
Definition restores h {X} (e : OperatorE K X) : Prop :=
  match e with
  | CreateUnstructured o => recreates h o
  | UpdateUnstructured o => replaces h o
  | DeleteUnstructured o => removes h o
  | _ => False
  end.

(** ** Theorems *)

(** C8. Every call of the operator that changes the cluster does one of four things. It executes an action:
    mutation is enabled, the object is one the action names, the plan was read, is not being rolled
    back, is requested to be executed and is approved if it requires approval; the action is valid in the
    catalogue and direct; a server-side dry run of a write of that very object has passed; and the plan's
    ConfigMap holds a snapshot of the action, whose items cover the object. It saves such a snapshot,
    with mutation enabled. It keeps the operator's own plans, runs and findings. Or it restores an item of
    a snapshot of a plan whose rollback was requested, for which neither mutation nor a dry run is asked. *)
Theorem writes_authorised h ts later X (e : OperatorE K X) x before
    (He : operator_execution h ts) (Hh : h = later ++ Occ X e x :: before) (Hchanges : changes e = true) :
  executes_action before e ∨ saves_snapshot before e ∨ keeps_records before e ∨ restores before e.
Proof.
  pose proof (operator_event_pre _ _ _ _ _ _ _ He Hh) as Hpre.
  assert (∀ key, written_key e = Some (key, false) → write_pre MutationEnabled before key false →
    executes_action before e) as Hexec.
  { intros key Hkey (plan & action & Ha & Hk & Hd). destruct (Hd eq_refl) as (Hm & Hdry & Hs). split; [done|].
    exists key, plan, action. split_and!; try done. intros refs Hrefs. by eapply written_keys_covered. }
  destruct e; try discriminate Hchanges; cbn in Hchanges, Hpre.
  all: try (apply negb_true_iff in Hchanges; subst; left; by eapply Hexec, Hpre).
  - right; by left.
  - right; by left.
  - do 2 right. exact Hpre.
  - do 2 right. exact Hpre.
  - do 3 right. exact Hpre.
  - do 2 right. by left.
Qed.

(** How a call treats the object it names, dry runs included. *)
Definition respects_ownership h {X} (e : OperatorE K X) : Prop :=
  match e with
  | CreateQuota o _ => absent_before h o
  | CreateLimitRange o _ => absent_before h o
  | CreateBudget o _ => absent_before h o
  | UpdateQuota o _ => owned_update h o
  | UpdateLimitRange o _ => owned_update h o
  | UpdateBudget o _ => owned_update h o
  | UpdateNamespace o _ => protectedNamespace (om_Name (ns_Meta o)) = false ∧ relabels h o
  | UpdateWorkload kind o _ => respecifies h kind o
  | DeleteUnstructured o => GetLabels o !! managed_by = Some owner
  | CreateConfigMap _ | UpdateConfigMap _ => saves_snapshot h e
  | CreateUnstructured o => run_of_plan h o ∨ recreates h o
  | UpdateUnstructured o => adds_finalizer h o ∨ replaces h o
  | UpdateStatus o => records_status h o
  | Clock | GetNamespaceObj _ | GetQuota _ _ | GetLimitRange _ _ | GetBudget _ _ | GetWorkload _ _ _
  | GetConfigMap _ _ | GetUnstructured _ _ _ _ => True
  end.

(** C27. Executing actions, dry run or not, the operator creates a quota, limit range or disruption budget
    only after a read found none of that name; updates one only when the object read carries the
    operator's label, and at the version read; changes nothing of a namespace but its labels, and
    never of a protected one; changes nothing of a workload but its pod template. It deletes only objects
    that carry its label. It creates a ConfigMap or updates one only to save a snapshot. Every other
    object it creates or replaces is its own run, plan or finding, or one a rollback puts back as a
    snapshot recorded it: created after a read found none, or replaced, whoever owns it, at the version
    read. *)
Theorem ownership_respected h ts later X (e : OperatorE K X) x before
    (He : operator_execution h ts) (Hh : h = later ++ Occ X e x :: before) :
  respects_ownership before e.
Proof.
  pose proof (operator_event_pre _ _ _ _ _ _ _ He Hh) as Hpre.
  destruct e; cbn in *; try done; try by destruct Hpre. by destruct Hpre as (_ & _ & _ & _ & Hl).
Qed.

(** A ConfigMap is written only to save the snapshot of an authorised action, in the plan's own
    ConfigMap and under a key not taken before: its payload is the JSON of one item per object the action
    may write, which says the object was absent, or holds it as it was read, without its status and its
    server-side metadata; the payload stays within the limit. *)
Theorem snapshots_picture h ts later X (e : OperatorE K X) x before cm
    (He : operator_execution h ts) (Hh : h = later ++ Occ X e x :: before)
    (Hcm : match e with CreateConfigMap o | UpdateConfigMap o => o = cm | _ => False end) :
  MutationEnabled = true ∧ ∃ plan action refs items payload old,
    authorised before plan action ∧
    om_Namespace (cm_Meta cm) = GetNamespace plan ∧ om_Name (cm_Meta cm) = snapshot_name plan ∧
    snapshot_refs action = Ok refs ∧ Forall2 (pictures before) refs items ∧
    marshal_items items = Ok payload ∧ len payload ≤ snapshot_limit ∧
    old !! snapshotKey action = None ∧ cm_Data cm = <[snapshotKey action := payload]> old.
Proof.
  pose proof (operator_event_pre _ _ _ _ _ _ _ He Hh) as Hpre. destruct e; try done; subst cm; exact Hpre.
Qed.

(** The calls on whole objects of any type, by which the operator keeps its records and rolls back. *)
Definition untyped {X} (e : OperatorE K X) : bool :=
  match e with CreateUnstructured _ | UpdateUnstructured _ | DeleteUnstructured _ | UpdateStatus _ => true | _ => false end.

Definition restores_or_records h {X} (e : OperatorE K X) : Prop :=
  match e with
  | CreateUnstructured o => run_of_plan h o ∨ recreates h o
  | UpdateUnstructured o => adds_finalizer h o ∨ replaces h o
  | DeleteUnstructured o => removes h o
  | UpdateStatus o => records_status h o
  | _ => False
  end.

(** C26. Of its calls on whole objects, whatever their kind: the operator creates the run of a plan, or the
    object an item of a snapshot of a plan whose rollback was requested recorded, when a read found
    none; it updates a plan or a finding it read to add its finalizer, or replaces an object by the recorded
    one at the version a read answered; it deletes an object only when the snapshot recorded it as
    absent and the object read carries the operator's label; it writes the status of plans, runs and
    findings alone. The phase of a plan whose rollback is requested becomes RolledBack only once every set of
    the plan's snapshot ConfigMap decoded and, after that ConfigMap was read, a read of every item showed
    the spec and the labels recorded, or that the object recorded as absent is absent. *)
Theorem rollback_restores h ts later X (e : OperatorE K X) x before
    (He : operator_execution h ts) (Hh : h = later ++ Occ X e x :: before) (Huntyped : untyped e = true) :
  restores_or_records before e.
Proof.
  pose proof (operator_event_pre _ _ _ _ _ _ _ He Hh) as Hpre. by destruct e.
Qed.

End Executions.
