(* ===== verification/OperatorBounds.v ===== *)
(** The remediation operator function by function: what the gates answer, the bounds of names, probes
    and API calls, what filling in resources changes, and the finding controller. *)
From S2P Require Import Prelude GoLib Sha256 Json ActionCatalog Kube Interaction OperatorApi Operator OperatorProps.

Local Open Scope Z_scope.

(** * Names and probes *)

Lemma boundedInt_range raw fallback minimum maximum :
  minimum ≤ fallback ≤ maximum → minimum ≤ boundedInt raw fallback minimum maximum ≤ maximum.
Proof.
  intros Hf. unfold boundedInt. destruct (_ == _); [done|]. destruct (ParseInt raw) as [v|]; [|done].
  destruct (Z.ltb_spec v minimum), (Z.ltb_spec maximum v); cbn; lia.
Qed.

Lemma boundedInt_value raw fallback minimum maximum v :
  raw ≠ "" → ParseInt raw = Some v → minimum ≤ v ≤ maximum → boundedInt raw fallback minimum maximum = v.
Proof.
  intros Hraw Hv Hb. unfold boundedInt. destruct (String.eqb_spec raw ""); [done|]. rewrite Hv.
  destruct (Z.ltb_spec v minimum), (Z.ltb_spec maximum v); cbn; lia.
Qed.

Section Operator.
Context `{K : Kubernetes} {L : OperatorLib K} `{RangeOrder}.
Implicit Types (p : Probe) (c : Container).

(** Whatever the parameters of an action, a probe the operator writes has an initial delay of 0 to 300
    seconds, a period of 2 to 300, a timeout of 1 to 30 and a failure threshold of 1 to 10; a parameter
    that is a number within its range is taken as it is. *)
Theorem safeHTTPProbe_bounds (path : string) (port : IntOrString) (action : fields) :
  let p := safeHTTPProbe path port action in
  probe_HTTPGet p = Some (path, port) ∧
  0 ≤ probe_InitialDelaySeconds p ≤ 300 ∧ 2 ≤ probe_PeriodSeconds p ≤ 300 ∧
  1 ≤ probe_TimeoutSeconds p ≤ 30 ∧ 1 ≤ probe_FailureThreshold p ≤ 10 ∧ probe_SuccessThreshold p = 1 ∧
  (∀ v, param_of action "periodSeconds" ≠ "" → ParseInt (param_of action "periodSeconds") = Some v → 2 ≤ v ≤ 300 →
    probe_PeriodSeconds p = v).
Proof.
  intros p. split; [done|]. repeat (split; [apply boundedInt_range; lia|]). split; [done|].
  intros v Hne Hv Hr. by apply boundedInt_value.
Qed.

(** The name of a snapshot ConfigMap fits the 63 bytes of a label, and is the plain concatenation
    whenever that fits. *)
Theorem childName_bounds (prefix parent : string) :
  len (childName prefix parent) ≤ 63 ∧
  (len (prefix +:+ parent) ≤ 63 → childName prefix parent = prefix +:+ parent).
Proof.
  unfold childName. destruct (Z.leb_spec (len (prefix +:+ parent)) 63) as [Hle|Hgt]; [done|]. split; [|lia].
  unfold len, Trim. rewrite !string_length_app. cbn [String.length].
  pose proof (trim_both_length (in_cutset "-") (string_take 50 (prefix +:+ parent))).
  pose proof (string_take_length 50 (prefix +:+ parent)).
  pose proof (string_take_length 12 (sha256_hex (prefix +:+ parent))). lia.
Qed.

(** * The gates *)

(** The outcome of a plan that is not released. *)
Definition gate_outcome (gate : planGate) : string * string :=
  if negb (gate_required gate) then ("Prepared", "prepared")
  else if gate_decision gate == "rejected" then ("Rejected", "failed")
  else if gate_decision gate != "approved" then ("PendingApproval", "pending_approval")
  else ("Approved", "approved").

(** A plan that is not requested to be executed, or not approved where it requires approval, is
    reconciled without a single API call; its phase tells which gate stopped it, no action is reported
    and it is not requeued. *)
Theorem reconcilePlanActions_gated (MutationEnabled : bool) (plan : object) (Hgate : ¬ released plan) :
  ∃ r, reconcilePlanActions MutationEnabled plan = mret r ∧
    (res_phase r, res_runState r) = gate_outcome (plan_gate plan) ∧
    res_actionStatuses r = [] ∧ res_dryRunPassed r = false ∧ res_lastError r = "" ∧ res_requeueAfter r = 0.
Proof.
  unfold reconcilePlanActions. destruct (gate_result _ _) as [r|] eqn:Hg;
    [|by apply gate_result_released in Hg].
  exists r. split; [done|]. clear Hgate. unfold gate_outcome. revert Hg. unfold gate_result.
  destruct (plan_gate plan) as [[] decision []]; cbn [gate_required gate_decision gate_execution negb andb].
  all: destruct (String.eqb_spec decision "rejected") as [->|];
    [|destruct (String.eqb_spec decision "approved") as [->|]]; cbn; by intros [= <-].
Qed.

(** * Filling in resources *)

(** [new] has every key of [old] at its value, and those of [names] from [values]. *)
Definition filled {A} (names : list string) (values old new : gmap string A) : Prop :=
  ∀ name, new !! name = match old !! name with
                        | Some q => Some q
                        | None => if bool_decide (name ∈ names) then values !! name else None
                        end.

Lemma fill_lookup (values : gmap string Quantity) names old :
  filled names values old
    (foldl (λ m name, match values !! name with Some q => setIfMissing name q m | None => m end) old names).
Proof.
  revert old. induction names as [|n names IH]; intros old name; cbn [foldl].
  { rewrite bool_decide_eq_false_2; [by destruct (old !! name) | by intros ?%elem_of_nil]. }
  rewrite IH. unfold setIfMissing. destruct (base.decide (name = n)) as [->|Hne].
  - rewrite (bool_decide_eq_true_2 (n ∈ n :: names)) by by left.
    destruct (values !! n) as [q|] eqn:Hq; destruct (old !! n) as [q'|] eqn:Ho; rewrite ?Ho, ?lookup_insert_eq; try done.
    by case_bool_decide.
  - assert (bool_decide (name ∈ n :: names) = bool_decide (name ∈ names)) as ->.
    { apply bool_decide_ext. rewrite elem_of_cons. naive_solver. }
    destruct (values !! n) as [q|]; [|done]. destruct (old !! n) eqn:Ho; [done|]. by rewrite lookup_insert_ne.
Qed.

Lemma parse_quantities_spec what values acc m :
  parse_quantities what values acc = Ok m → ∀ name, is_Some (acc !! name) ∨ name ∈ values.*1 → is_Some (m !! name).
Proof.
  revert acc. induction values as [|[n v] values IH]; intros acc; cbn [parse_quantities].
  { intros [= <-] name [Hn|Hn]; [done | by apply elem_of_nil in Hn]. }
  destruct (ParseQuantity v) as [q|]; [|done]. destruct (quantity_Sign q <=? 0); [done|].
  intros Hm name Hname. eapply IH; [exact Hm|]. destruct (base.decide (name = n)) as [->|Hne].
  - left. rewrite lookup_insert_eq. by eexists.
  - rewrite lookup_insert_ne by done. destruct Hname as [Hn|Hn]; [by left|]. cbn in Hn.
    apply elem_of_cons in Hn as [->|Hn]; [done | by right].
Qed.

(** Patching the resources of a workload adds the requests and limits for CPU and memory a container
    lacks and changes nothing else: values that are present stay, in every container, the name, the
    probes and the rest too; the patched pod template passes the operator's own verification; and
    patching again changes nothing. *)
Theorem set_resources_spec (requests limits : gmap string Quantity) (c : Container)
    (Hr : is_Some (requests !! "cpu") ∧ is_Some (requests !! "memory"))
    (Hl : is_Some (limits !! "cpu") ∧ is_Some (limits !! "memory")) :
  let c' := set_resources requests limits c in
  filled ["cpu"; "memory"] requests (c_Requests c) (c_Requests c') ∧
  filled ["cpu"; "memory"] limits (c_Limits c) (c_Limits c') ∧
  c' = ((c <| c_Requests := c_Requests c' |>) <| c_Limits := c_Limits c' |>) ∧
  (∀ name, name ∈ ["cpu"; "memory"] → resources_missing c' name = None) ∧
  set_resources requests limits c' = c'.
Proof.
  intros c'. assert (filled ["cpu"; "memory"] requests (c_Requests c) (c_Requests c')) as Hq by apply fill_lookup.
  assert (filled ["cpu"; "memory"] limits (c_Limits c) (c_Limits c')) as Hm by apply fill_lookup.
  assert (∀ (values old new : gmap string Quantity) name, is_Some (values !! "cpu") ∧ is_Some (values !! "memory") →
    filled ["cpu"; "memory"] values old new → name ∈ ["cpu"; "memory"] → is_Some (new !! name)) as Hpresent.
  { intros values old new name [Hc Hmem] Hf Hname. rewrite Hf. destruct (old !! name); [done|].
    rewrite bool_decide_eq_true_2 by done. apply elem_of_cons in Hname as [-> | ->%list_elem_of_singleton]; done. }
  split_and!; [done | done | done | |].
  - intros name Hname. unfold resources_missing.
    destruct (Hpresent _ _ _ _ Hr Hq Hname) as [q ->], (Hpresent _ _ _ _ Hl Hm Hname) as [q' ->]. done.
  - assert (∀ (values old new : gmap string Quantity), is_Some (values !! "cpu") ∧ is_Some (values !! "memory") →
      filled ["cpu"; "memory"] values old new →
      foldl (λ m name, match values !! name with Some q => setIfMissing name q m | None => m end) new ["cpu"; "memory"] = new)
      as Hagain.
    { intros values old new Hv Hf. apply map_eq. intros name. rewrite (fill_lookup values ["cpu"; "memory"] new name).
      destruct (new !! name) eqn:Hn; [done|]. case_bool_decide as Hin; [|done].
      destruct (Hpresent _ _ _ _ Hv Hf Hin) as [q Hq']. congruence. }
    unfold set_resources at 1. rewrite (Hagain _ _ _ Hr Hq), (Hagain _ _ _ Hl Hm). done.
Qed.

(** * API calls *)

Lemma upsertObject_calls {T} {C : ClientObject (K := K) T} (obj : T) dryRun : at_most 2 (upsertObject obj dryRun).
Proof.
  unfold upsertObject. cbv zeta. apply (at_most_then 1 1); [apply at_most_attempt, at_most_call|].
  intros [current|err]; [apply at_most_raise_if; done | by destruct (IsNotFound err)].
Qed.

Lemma wrap_error_calls {A} n msg (p : P (OperatorE K) A) : at_most n p → at_most n (wrap_error msg p).
Proof. intros Hp. rewrite (plus_n_O n). by apply at_most_bind. Qed.

Lemma executeGovernance_calls action dryRun : at_most 6 (executeGovernance action dryRun).
Proof.
  apply at_most_pure. intros namespace _. apply (at_most_then 4 2).
  - apply at_most_raise_if. intros _. apply (at_most_then 2 2); [|intros _]; apply upsertObject_calls.
  - intros _. destruct dryRun; [done|]. apply (at_most_then 2 0); [|done]. apply wrap_error_calls.
    apply (at_most_then 1 1); [by apply wrap_error_calls|]. intros quota. apply at_most_raise_if. intros _.
    apply (at_most_then 1 0); [by apply wrap_error_calls|]. intros limits. by destruct (negb _).
Qed.

Lemma executePodSecurityLabels_calls action dryRun : at_most 3 (executePodSecurityLabels action dryRun).
Proof.
  apply at_most_pure. intros namespace _. apply at_most_raise_if. intros _. cbv zeta.
  apply (at_most_then 1 2); [apply at_most_call|]. intros o. apply (at_most_then 1 1); [apply at_most_call|].
  intros _. destruct dryRun; [done|]. apply (at_most_then 1 0); [apply at_most_call|]. intros verified.
  by destruct (List.find _ _) as [[]|].
Qed.

Lemma updateWorkload_calls action dryRun mutate : at_most 2 (updateWorkload action dryRun mutate).
Proof.
  apply at_most_pure. intros target _. destruct (workload_kind _); [|done].
  apply (at_most_then 1 1); [apply at_most_call|]. intros workload. by apply at_most_pure.
Qed.

Lemma verifyWorkload_calls action verify : at_most 1 (verifyWorkload action verify).
Proof.
  apply at_most_pure. intros target _. destruct (workload_kind _); [|done].
  apply (at_most_then 1 0); [apply at_most_call|]. intros workload. by destruct (verify _).
Qed.

Lemma verifyWorkloadRollout_calls action : at_most 1 (verifyWorkloadRollout action).
Proof.
  apply at_most_pure. intros target _. destruct (workload_kind _) as [kind|]; [|done].
  apply (at_most_then 1 0); [apply at_most_call|]. intros workload. destruct kind; cbv zeta; by destruct (_ || _).
Qed.

Lemma executeWorkload_calls action (dryRun : bool) mutate verify passed verified :
  at_most 4 (updateWorkload action dryRun mutate;;
    if dryRun then mret passed
    else verifyWorkload action verify;; verifyWorkloadRollout action;; mret verified : P (OperatorE K) string).
Proof.
  apply (at_most_then 2 2); [apply updateWorkload_calls|]. intros _. destruct dryRun; [done|].
  apply (at_most_then 1 1); [apply verifyWorkload_calls|]. intros _.
  by apply (at_most_then 1 0); [apply verifyWorkloadRollout_calls|].
Qed.

Lemma executePDB_calls action dryRun : at_most 4 (executePDB action dryRun).
Proof.
  apply at_most_pure. intros target _. apply (at_most_then 1 3).
  - assert (∀ kind, at_most 1 (w ← call (GetWorkload kind (target_Namespace target) (target_Name target));
      match wl_Selector w with Some labels => mret labels | None => raise (Panic "nil pointer dereference") end)) as Hget.
    { intros kind. apply (at_most_then 1 0); [apply at_most_call|]. intros w. by destruct (wl_Selector w). }
    unfold budget_selector. destruct (workload_kind _) as [[]|]; done.
  - intros selector. apply at_most_raise_if. intros _. cbv zeta.
    apply (at_most_then 2 1); [apply upsertObject_calls|]. intros _. destruct dryRun; [done|].
    apply (at_most_then 1 0); [apply at_most_call|]. intros verified. by do 2 (apply at_most_raise_if; intros _).
Qed.

Lemma executeTypedAction_calls action dryRun : at_most 6 (executeTypedAction action dryRun).
Proof.
  unfold executeTypedAction.
  repeat match goal with |- context [if ?x == ?y then _ else _] => destruct (x == y) end; [..|done].
  - apply executeGovernance_calls.
  - eapply at_most_more; [|apply executePodSecurityLabels_calls]. lia.
  - eapply at_most_more; [|do 2 (apply at_most_pure; intros ? _); apply executeWorkload_calls]. lia.
  - eapply at_most_more; [|apply executePDB_calls]. lia.
  - eapply at_most_more; [|apply at_most_raise_if; intros _; apply executeWorkload_calls]. lia.
Qed.

Lemma snapshot_items_calls refs items : at_most (length refs) (snapshot_items refs items).
Proof.
  revert items. induction refs as [|ref refs IH]; intros items; [done|]. cbn [snapshot_items length]. cbv zeta.
  apply (at_most_then 1); [apply at_most_attempt, at_most_call|]. intros [o|err]; [apply IH|].
  destruct (IsNotFound err); [apply IH | done].
Qed.

Lemma snapshot_refs_length action refs : snapshot_refs action = Ok refs → (length refs ≤ 2)%nat.
Proof.
  unfold snapshot_refs. intros (target & _ & Hrefs)%bind_ok.
  destruct (_ == _); [apply bind_ok in Hrefs as (namespace & _ & [= <-]); done|].
  destruct (_ == _); [injection Hrefs as <-; cbn; lia|]. destruct (_ == _); [injection Hrefs as <-; cbn; lia|].
  destruct (_ || _); [injection Hrefs as <-; cbn; lia | done].
Qed.

Lemma ensureActionSnapshot_calls plan action : at_most 4 (ensureActionSnapshot plan action).
Proof.
  unfold ensureActionSnapshot. cbv zeta.
  assert (∀ meta data rest ref, at_most 3 (items ← snapshotItemsForAction action;
    payload ← pure_result (marshal_items items);
    raise_if (snapshot_limit <? len payload) (Errorf "snapshot exceeds the safe ConfigMap payload limit");;
    write_snapshot (mkConfigMap meta (<[snapshotKey action := payload]> data) rest);;
    mret ref : P (OperatorE K) string)) as Hsave.
  { intros meta data rest ref. apply (at_most_then 2 1).
    - apply at_most_pure. intros refs Hrefs. eapply at_most_more; [by eapply snapshot_refs_length|].
      apply snapshot_items_calls.
    - intros items. apply at_most_pure. intros payload _. apply at_most_raise_if. intros _.
      apply (at_most_then 1 0); [|done]. unfold write_snapshot. destruct (_ == _); apply at_most_call. }
  apply (at_most_then 1 3); [apply at_most_attempt, at_most_call|]. intros [cm|err].
  - destruct (_ !! _); [done | apply Hsave].
  - destruct (IsNotFound err); [apply Hsave | done].
Qed.

(** The calls for one action: dry run, snapshot, execution. *)
Definition calls_per_action : nat := 6 + (4 + 6).

Lemma run_action_calls m plan action ls : at_most calls_per_action (run_action m plan action ls).
Proof.
  unfold run_action. cbv zeta. destruct (ValidateProposal _); [|done]. destruct (_ != _); [done|].
  destruct (Validate _); [|done].
  apply (at_most_then 6 10); [apply at_most_attempt, executeTypedAction_calls|]. intros [verification|err]; [|done].
  destruct (negb m); [done|]. unfold mutate_action. cbv zeta.
  apply (at_most_then 4 6); [apply at_most_attempt, ensureActionSnapshot_calls|]. intros [ref|err]; [|done].
  apply (at_most_then 6 0); [apply at_most_attempt, executeTypedAction_calls|].
  intros [text|err]; [done|]. by destruct (errors_Is _ _).
Qed.

Lemma run_actions_calls m plan actions ls :
  at_most (calls_per_action * length actions) (run_actions m plan actions ls).
Proof.
  revert ls. induction actions as [|raw actions IH]; intros ls; [done|]. cbn [run_actions length].
  rewrite <- mult_n_Sm, Nat.add_comm.
  assert (∀ ls', at_most (calls_per_action + calls_per_action * length actions) (run_actions m plan actions ls')) as Hrest.
  { intros ls'. eapply at_most_more; [|apply IH]. lia. }
  destruct (as_map raw) as [action|]; [|apply Hrest].
  apply at_most_then; [apply run_action_calls|]. intros [result|ls']; [done | apply IH].
Qed.

Lemma record_outcome_calls plan result now : at_most 6 (record_outcome plan result now).
Proof.
  apply (at_most_then 1 5); [apply at_most_call|]. intros plan'. apply (at_most_then 3 2).
  - unfold upsertRun. cbv zeta. apply (at_most_then 1 2); [apply at_most_attempt, at_most_call|].
    intros got. apply (at_most_then 1 1).
    { destruct got as [run|err]; [exact I|]. by destruct (IsNotFound err). }
    intros run. apply (at_most_then 1 0); [apply at_most_call | done].
  - intros _. apply (at_most_then 2 0); [|done]. unfold updateFindingStatus. cbv zeta.
    destruct (nested_string ["spec"; "findingRef"; "name"] _ == ""); [done|].
    apply (at_most_then 1 1); [apply at_most_attempt, at_most_call|].
    intros [finding|err]; [|by destruct (IsNotFound err)]. destruct (finding_phase _) as [[]|]; [|exact I].
    apply (at_most_then 1 0); [apply at_most_call | by intros].
Qed.

(** C28. Executing a plan ends after at most sixteen API calls per action and six to record the outcome,
    whatever the API server answers; in particular no step retries or waits. *)
Theorem reconcile_calls {D} (handle : ∀ X, OperatorE K X → D → X * D) (MutationEnabled : bool) (plan : object)
    (now : Time) (d : D) :
  let '(_, _, h) := drive handle (result ← reconcilePlanActions MutationEnabled plan; record_outcome plan result now) d [] in
  (length h ≤ 16 * length (plan_actions plan) + 6)%nat.
Proof.
  assert (at_most (16 * length (plan_actions plan) + 6)
    (result ← reconcilePlanActions MutationEnabled plan; record_outcome plan result now)) as Hcalls.
  { apply at_most_then; [|intros; apply record_outcome_calls]. unfold reconcilePlanActions. cbv zeta.
    destruct (gate_result _ _); [done|]. rewrite (plus_n_O (16 * _)).
    apply at_most_then; [apply run_actions_calls|]. by intros []. }
  pose proof (at_most_drive handle _ _ d [] Hcalls) as Hd. destruct (drive _ _ _ _) as [[r d'] h].
  cbn [length] in Hd. lia.
Qed.

(** * The finding controller *)

(** Reconciling a finding that is not yet observed at its generation sets the phase of its status to
    Observed, whatever it was, Resolved and Remediating included, and keeps every other status field
    but the generation and the time of the transition. *)
Theorem finding_observed {D} (handle : ∀ X, OperatorE K X → D → X * D) (namespace name : string) (d : D) (finding : object)
    (Hget : (handle _ (GetUnstructured plan_apiVersion "Finding" namespace name) d).1 = Ok finding)
    (Hfinalizer : AddFinalizer finding_finalizer finding = (false, finding))
    (Hphase : nested_string ["status"; "phase"] (Object finding) ≠ "Observed") :
  ∃ status x h, (drive handle (ReconcileFinding namespace name) d []).2 =
      Occ _ (UpdateStatus (set_object_key "status" (AMap status) finding)) x :: h ∧
    field "phase" status = AString "Observed" ∧
    (∀ key, key ∉ ["phase"; "observedGeneration"; "lastTransitionTime"] →
      field key status = field key (default [] (as_map (field "status" (Object finding))))).
Proof.
  unfold ReconcileFinding. rewrite drive_attempt_call.
  destruct (handle _ (GetUnstructured _ _ _ _) d) as [r d1]. cbn in Hget. subst r. cbn [caught].
  rewrite Hfinalizer. rewrite drive_ret.
  destruct (String.eqb_spec (nested_string ["status"; "phase"] (Object finding)) "Observed"); [done|].
  cbn [andb]. rewrite drive_ask. destruct (handle _ Clock d1) as [now d2]. rewrite drive_call.
  destruct (handle _ (UpdateStatus (set_object_key "status" (observed_status finding now) finding)) d2) as [x d3].
  exists
    (set_key "lastTransitionTime" (AString (FormatRFC3339 now))
      (set_key "observedGeneration" (AInt64 (GetGeneration finding)) (set_key "phase" (AString "Observed")
        (default [] (as_map (field "status" (Object finding))))))), x. eexists. split; [|split].
  - destruct x; reflexivity.
  - by rewrite !field_set_key.
  - intros key Hkey. rewrite !field_set_key. rewrite !not_elem_of_cons in Hkey. destruct Hkey as (H1 & H2 & H3 & _).
    apply String.eqb_neq in H1, H2, H3. by rewrite H1, H2, H3.
Qed.

End Operator.
