(* ===== verification/OperatorScenario.v ===== *)
(** A scenario for the remediation operator: the client libraries on JSON objects, a cluster that holds
    one plan, a limit range of the operator and no quota, a reconciliation that executes the plan and one
    that rolls it back. The theorems on concurrent executions are applied to its history. *)
From S2P Require Import Prelude GoLib Sha256 Json ActionCatalog Kube Interaction OperatorApi Operator OperatorProps.
From S2P Require Import OperatorTrace OperatorBounds.

Local Open Scope Z_scope.

(** * The client libraries on JSON objects *)

Definition bool_of_any (v : any) : option bool := match v with ABool b => Some b | _ => None end.

(** [fields] with the value at a path replaced. *)
Fixpoint set_path (path : list string) (v : any) (m : fields) : fields :=
  match path with
  | [] => m
  | [key] => set_key key v m
  | key :: rest => set_key key (AMap (set_path rest v (default [] (as_map (field key m))))) m
  end.

Definition object_of (m : fields) : json_object :=
  mkJsonObject m (found_or ∅ (nested_as labels_of_any ["metadata"; "labels"] m)).

(** Quantities are their text; a port is its text. *)
#[export] Instance json_operator : OperatorLib json_kubernetes := {
  Quantity := string;
  ParseQuantity s := if s == "" then Err (Errorf "empty quantity") else Ok s;
  MustParse s := s;
  quantity_Sign q := 1;
  quantity_Cmp q r := if q == r then 0 else 1;
  IntOrString := string;
  intstr_Parse s := s;
  intstr_String s := s;
  intstr_eqb := String.eqb;
  rest := unit;
  no_rest := tt;
  NestedBool := nested_as bool_of_any;
  NestedMap := nested_as as_map;
  SetNestedMap m path v := Ok (set_path path (AMap v) m);
  OfFields := object_of;
  NewObject apiVersion kind := object_of [("apiVersion", AString apiVersion); ("kind", AString kind)];
  SetObjectKey namespace name o :=
    object_of (set_path ["metadata"; "namespace"] (AString namespace)
                 (set_path ["metadata"; "name"] (AString name) (jo_fields o)));
  GetGeneration o := found_or 0 (nested_as int_of_any ["metadata"; "generation"] (jo_fields o));
  GetAnnotations o := found_or ∅ (nested_as labels_of_any ["metadata"; "annotations"] (jo_fields o));
  SetAnnotations a o :=
    object_of (set_path ["metadata"; "annotations"] (AMap (map (λ kv, (kv.1, AString kv.2)) (map_to_list a))) (jo_fields o));
  GetResourceVersion := json_string ["metadata"; "resourceVersion"];
  SetResourceVersion v o := object_of (set_path ["metadata"; "resourceVersion"] (AString v) (jo_fields o));
  AddFinalizer f o :=
    let fs := found_or [] (nested_as strings_of_any ["metadata"; "finalizers"] (jo_fields o)) in
    if existsb (String.eqb f) fs then (false, o)
    else (true, object_of (set_path ["metadata"; "finalizers"] (ASlice (map AString (fs ++ [f]))) (jo_fields o)))
}.

(** * The cluster *)

#[local] Instance order : RangeOrder := canonical_order.

Definition parse_object (text : string) : json_object :=
  match decode_yaml text with Ok o => o | Err _ => mkJsonObject [] ∅ end.

Definition plan_text (spec : string) : string := requote
  ("{'apiVersion':'security.kubeathrix.io/v1alpha1','kind':'RemediationPlan','metadata':{'namespace':'ops','name':'plan-1','generation':1},'spec':{" +:+ spec +:+
   "'executionRequested':true,'actions':[{'type':'apply_resource_governance','target':{'apiVersion':'v1','kind':'Namespace','name':'shop'}}]}}").
Definition limits_text : string := requote
  "{'apiVersion':'v1','kind':'LimitRange','metadata':{'namespace':'shop','name':'kubeathrix-defaults','resourceVersion':'7','labels':{'app.kubernetes.io/managed-by':'kubeathrix'}},'spec':{'limits':[]}}".
Definition quota_text : string := requote
  "{'apiVersion':'v1','kind':'ResourceQuota','metadata':{'namespace':'shop','name':'kubeathrix-defaults','resourceVersion':'9','labels':{'app.kubernetes.io/managed-by':'kubeathrix'}},'spec':{'hard':{}}}".

Record cluster := mkCluster {
  cl_rollback : bool;
  cl_quota : option ResourceQuota;
  cl_limits : LimitRange;
  cl_snapshots : option ConfigMap
}.

Definition NotFound : GoError := Errorf "NotFound".
Definition or_not_found {A} (o : option A) : result A := match o with Some a => Ok a | None => Err NotFound end.

Definition owned_meta_at (version : string) : ObjectMeta :=
  (new_meta "shop" governance_name) <| om_Labels := {[managed_by := owner]} |> <| om_ResourceVersion := version |>.

Definition get_unstructured (kind : string) (d : cluster) : result json_object :=
  if kind == "RemediationPlan" then
    Ok (parse_object (plan_text (if cl_rollback d then "'rollbackRequested':true," else "")))
  else if kind == "ResourceQuota" then (match cl_quota d with Some _ => Ok (parse_object quota_text) | None => Err NotFound end)
  else if kind == "LimitRange" then Ok (parse_object limits_text)
  else Err NotFound.

(** The plan is asked to be rolled back once its run is recorded. *)
Definition handle X (e : OperatorE json_kubernetes X) (d : cluster) : X * cluster :=
  match e in OperatorE _ X return X * cluster with
  | Clock => (64000000000 * Second, d)
  | GetNamespaceObj name => (Err NotFound, d)
  | UpdateNamespace o dryRun => (Err NotFound, d)
  | GetQuota namespace name => (or_not_found (cl_quota d), d)
  | CreateQuota o dryRun | UpdateQuota o dryRun =>
      (Ok tt, if dryRun : bool then d else mkCluster (cl_rollback d) (Some o) (cl_limits d) (cl_snapshots d))
  | GetLimitRange namespace name => (Ok (cl_limits d), d)
  | CreateLimitRange o dryRun | UpdateLimitRange o dryRun =>
      (Ok tt, if dryRun : bool then d else mkCluster (cl_rollback d) (cl_quota d) o (cl_snapshots d))
  | GetBudget namespace name => (Err NotFound, d)
  | CreateBudget o dryRun | UpdateBudget o dryRun => (Err NotFound, d)
  | GetWorkload kind namespace name => (Err NotFound, d)
  | UpdateWorkload kind o dryRun => (Err NotFound, d)
  | GetConfigMap namespace name =>
      (or_not_found (cm ← cl_snapshots d;
         if (om_Namespace (cm_Meta cm) == namespace) && (om_Name (cm_Meta cm) == name) then Some cm else None), d)
  | CreateConfigMap o | UpdateConfigMap o => (Ok tt, mkCluster (cl_rollback d) (cl_quota d) (cl_limits d) (Some o))
  | GetUnstructured apiVersion kind namespace name => (get_unstructured kind d, d)
  | CreateUnstructured o | UpdateUnstructured o => (Ok o, d)
  | DeleteUnstructured o => (Ok tt, mkCluster (cl_rollback d) None (cl_limits d) (cl_snapshots d))
  | UpdateStatus o =>
      (Ok o, if GetKind o == "RemediationRun" then mkCluster true (cl_quota d) (cl_limits d) (cl_snapshots d) else d)
  end.

Lemma handle_answers X (e : OperatorE json_kubernetes X) d : operator_post X [] e (handle X e d).1.
Proof.
  destruct e; try done. intros o Ho. cbn in Ho. destruct (cl_snapshots d) as [cm|]; [|done]. cbn in Ho.
  destruct (String.eqb_spec (om_Namespace (cm_Meta cm)) namespace), (String.eqb_spec (om_Name (cm_Meta cm)) name);
    by simplify_eq/=.
Qed.

Definition initial : cluster :=
  mkCluster false None (mkLimitRange (owned_meta_at "7") [] tt) None.

Abbreviation program := (prog (OperatorE json_kubernetes) unit).
Definition step : program := discarded (Reconcile true "ops" "plan-1").
Definition play (ps : list program) : cluster * history (OperatorE json_kubernetes) :=
  drive_all handle initial ps.

Lemma operator_play_execution ps : Forall (operator_entry true) ps → ∃ ts, operator_execution true (play ps).2 ts.
Proof. by apply (drive_all_execution handle _ _ _ _ (λ _ : cluster, tt) handle_answers initial ps). Qed.

Definition trace : history (OperatorE json_kubernetes) := (play [step; step]).2.

Lemma operator_trace_execution : ∃ ts, operator_execution true trace ts.
Proof. apply operator_play_execution. repeat constructor. Qed.

(** The first event of a kind, with what came after and before it. *)
Lemma split_first (f : occurrence (OperatorE json_kubernetes) → bool) (h : history (OperatorE json_kubernetes)) :
  existsb f h = true → ∃ later X (e : OperatorE json_kubernetes X) x before,
    h = later ++ Occ X e x :: before ∧ f (Occ X e x) = true.
Proof.
  induction h as [|[X e x] h IH]; cbn; [done|]. destruct (f _) eqn:E; [by exists [], X, e, x, h|].
  intros (later & Y & e' & y & before & -> & Hf)%IH. by exists (Occ X e x :: later), Y, e', y, before.
Qed.

Definition is_write (o : occurrence (OperatorE json_kubernetes)) : bool :=
  match o with Occ X e x => match written_key e with Some (_, false) => true | _ => false end end.
Definition is_limit_update (o : occurrence (OperatorE json_kubernetes)) : bool :=
  match o with Occ X e x => match e with UpdateLimitRange _ _ => true | _ => false end end.
Definition is_delete (o : occurrence (OperatorE json_kubernetes)) : bool :=
  match o with Occ X e x => match e with DeleteUnstructured _ => true | _ => false end end.

(** The phases recorded on the plan: the first reconciliation applies it, the second rolls it back. *)
Definition phase_of (o : occurrence (OperatorE json_kubernetes)) : list string :=
  match o with
  | Occ X e x => match e with
                 | UpdateStatus o => if GetKind o == "RemediationPlan" then [json_string ["status"; "phase"] o] else []
                 | _ => []
                 end
  end.
Example trace_phases : flat_map phase_of (rev trace) = ["Applied"; "RolledBack"].
Proof. vm_compute. reflexivity. Qed.

Lemma trace_event f : existsb f trace = true → ∃ later X (e : OperatorE json_kubernetes X) x before,
  trace = later ++ Occ X e x :: before ∧ f (Occ X e x) = true.
Proof. apply split_first. Qed.

Lemma writes_authorised_witness :
  ∃ later X (e : OperatorE json_kubernetes X) x before key plan action,
    trace = later ++ Occ X e x :: before ∧ written_key e = Some (key, false) ∧
    authorised before plan action ∧ dry_run_passed before key ∧ snapshot_saved before plan action.
Proof.
  destruct operator_trace_execution as [ts Hts].
  destruct (trace_event is_write) as (later & X & e & x & before & Hh & Hf); [vm_compute; reflexivity|].
  assert (changes e = true) as Hc by (destruct e; try discriminate Hf; by destruct dryRun).
  destruct (writes_authorised _ _ _ _ _ _ _ _ Hts Hh Hc) as [(_ & key & plan & action & Hkey & Ha & _ & Hd & Hs & _)|Hno].
  - exists later, X, e, x, before, key, plan, action. exact (conj Hh (conj Hkey (conj Ha (conj Hd Hs)))).
  - destruct e; try discriminate Hf; cbn in Hno; destruct Hno as [[]|[[]|[]]].
Defined.

Lemma ownership_respected_witness :
  ∃ later o dryRun x before, trace = later ++ Occ _ (UpdateLimitRange o dryRun) x :: before ∧ owned_update before o.
Proof.
  destruct operator_trace_execution as [ts Hts].
  destruct (trace_event is_limit_update) as (later & X & e & x & before & Hh & Hf); [vm_compute; reflexivity|].
  pose proof (ownership_respected _ _ _ _ _ _ _ _ Hts Hh) as Ho.
  destruct e; try discriminate Hf. exists later, o, dryRun, x, before. exact (conj Hh Ho).
Defined.

Lemma snapshots_picture_witness :
  ∃ later cm x before plan action payload, trace = later ++ Occ _ (CreateConfigMap cm) x :: before ∧
    authorised before plan action ∧ cm_Data cm !! snapshotKey action = Some payload.
Proof.
  destruct operator_trace_execution as [ts Hts].
  destruct (trace_event (λ o, match o with Occ X e x => match e with CreateConfigMap _ => true | _ => false end end))
    as (later & X & e & x & before & Hh & Hf); [vm_compute; reflexivity|].
  destruct e; try discriminate Hf.
  destruct (snapshots_picture _ _ _ _ _ _ _ _ o Hts Hh eq_refl) as
    (_ & plan & action & refs & items & payload & old & Ha & _ & _ & _ & _ & _ & _ & _ & Hd).
  exists later, o, x, before, plan, action, payload. split; [exact Hh|]. split; [exact Ha|].
  rewrite Hd. apply lookup_insert_eq.
Defined.

Lemma rollback_restores_witness :
  ∃ later o x before item, trace = later ++ Occ _ (DeleteUnstructured o) x :: before ∧
    rollback_item before item ∧ item_Existed item = false.
Proof.
  destruct operator_trace_execution as [ts Hts].
  destruct (trace_event is_delete) as (later & X & e & x & before & Hh & Hf); [vm_compute; reflexivity|].
  assert (untyped e = true) as Hu by (destruct e; try discriminate Hf; reflexivity).
  pose proof (rollback_restores _ _ _ _ _ _ _ _ Hts Hh Hu) as Hr.
  destruct e; try discriminate Hf. destruct Hr as (item & Hi & He & _).
  exists later, o, x, before, item. exact (conj Hh (conj Hi He)).
Defined.

(** ** Rolling back with mutation disabled *)

(** The cluster after the plan was applied, and what an operator with mutation disabled does to it. *)
Definition applied : cluster := (play [step]).1.
Definition disabled_trace : history (OperatorE json_kubernetes) :=
  (drive handle (discarded (Reconcile false "ops" "plan-1")) applied []).2.

(** A rollback does not ask whether mutation is enabled and does no dry run: an operator whose mutation
    is disabled deletes the quota the snapshot recorded as absent, and replaces the limit range, with
    writes that no dry run came before. *)
Theorem rollback_unguarded :
  (∃ ts, operator_execution false disabled_trace ts) ∧
  existsb is_delete disabled_trace = true ∧
  existsb (λ o, match o with Occ X e x => match e with UpdateUnstructured o => GetKind o == "LimitRange" | _ => false end end)
    disabled_trace = true ∧
  existsb (λ o, match o with Occ X e x => match written_key e with Some _ => true | None => false end end)
    disabled_trace = false.
Proof.
  split; [|vm_compute; done].
  assert (operator_execution (K := json_kubernetes) false [] [discarded (Reconcile false "ops" "plan-1")]) as Hp.
  { apply exec_start; [apply enter_plan|]. by apply exec_init. }
  pose proof (drive_execution handle _ _ _ _ (λ _ : cluster, tt) handle_answers _ applied _ _ Hp) as Hd.
  unfold disabled_trace. destruct (drive handle _ applied []) as [[[] d'] h']. destruct Hd as [[] Hd].
  exists [Ret tt]. exact Hd.
Qed.

(** ** Concrete inputs for the functional theorems *)

Definition unreleased_plan : json_object := parse_object (requote
  "{'metadata':{'name':'plan-2'},'spec':{'approvalPolicy':{'required':true,'decision':'pending'},'executionRequested':true}}").

Lemma reconcilePlanActions_gated_witness :
  ∃ r, reconcilePlanActions (K := json_kubernetes) true unreleased_plan = mret r ∧
    (res_phase r, res_runState r) = ("PendingApproval", "pending_approval").
Proof.
  assert (¬ released unreleased_plan) as Hn.
  { intros [_ Hdecision]. specialize (Hdecision eq_refl). vm_compute in Hdecision. discriminate. }
  destruct (reconcilePlanActions_gated (K := json_kubernetes) true unreleased_plan Hn) as (r & Hr & Hphase & _).
  exists r. split; [exact Hr|]. rewrite Hphase. reflexivity.
Defined.

Definition sample_container : Container (K := json_kubernetes) :=
  mkContainer "web" {["cpu" := "250m"]} ∅ None None tt.
Definition sample_values : gmap string (Quantity (K := json_kubernetes)) := <["cpu" := "100m"]> {["memory" := "128Mi"]}.

Lemma set_resources_spec_witness :
  c_Requests (set_resources sample_values sample_values sample_container) !! "cpu" = Some "250m" ∧
  set_resources sample_values sample_values (set_resources sample_values sample_values sample_container)
  = set_resources sample_values sample_values sample_container.
Proof.
  assert (is_Some (sample_values !! "cpu") ∧ is_Some (sample_values !! "memory")) as Hv
    by (split; eexists; vm_compute; reflexivity).
  split; [vm_compute; reflexivity|].
  exact (proj2 (proj2 (proj2 (proj2 (set_resources_spec (K := json_kubernetes) _ _ sample_container Hv Hv))))).
Defined.

Definition resolved_finding : json_object := parse_object (requote
  "{'kind':'Finding','metadata':{'name':'f-1','generation':3,'finalizers':['finding.security.kubeathrix.io/audit']},'status':{'phase':'Resolved','observedGeneration':3,'verificationResult':'ok'}}").
Definition finding_handle X (e : OperatorE json_kubernetes X) (d : unit) : X * unit :=
  (match e in OperatorE _ X return X → X with
   | GetUnstructured _ _ _ _ => λ _, Ok resolved_finding
   | _ => id
   end (handle X e initial).1, tt).

Lemma finding_observed_witness :
  ∃ status x h, (drive finding_handle (ReconcileFinding "ops" "f-1") tt []).2 =
      Occ _ (UpdateStatus (set_object_key "status" (AMap status) resolved_finding)) x :: h ∧
    field "phase" status = AString "Observed".
Proof.
  assert (nested_string (K := json_kubernetes) ["status"; "phase"] (Object resolved_finding) ≠ "Observed") as Hphase
    by (vm_compute; discriminate).
  destruct (finding_observed (K := json_kubernetes) finding_handle "ops" "f-1" tt resolved_finding eq_refl eq_refl Hphase)
    as (status & x & h & Hh & Hs & _).
  exists status, x, h. exact (conj Hh Hs).
Defined.
