(* ===== verification/Diff.v ===== *)
(** The exact diff of a plan, [services/api/internal/cluster/diff.go]: what the actions would change in the live objects,
    read through the workflow client. *)
From Stdlib Require Import SpecFloat.
From S2P Require Import Prelude GoLib Json Interaction Core Planner Kube ManagedProvenance WorkflowObjects Workflow.

Local Open Scope Z_scope.

(** * Text *)

(** [json.MarshalIndent(value, "", "  ")], which is never asked for more than JSON values; an infinite number has no text. *)
Definition line_break (depth : nat) : string := newline +:+ Join (repeat "  " depth) "".
Definition block (left right : string) (depth : nat) (parts : list string) : string :=
  match parts with
  | [] => left +:+ right
  | _ => left +:+ line_break (S depth) +:+ Join parts ("," +:+ line_break (S depth)) +:+ line_break depth +:+ right
  end.
Fixpoint indented (depth : nat) (v : any) : option string :=
  match v with
  | ASlice vs => block "[" "]" depth <$> mapM (indented (S depth)) vs
  | AMap m =>
      members ← mapM (λ kv, text ← indented (S depth) kv.2; Some (kv.1, text)) m;
      Some (block "{" "}" depth (map (λ kv, marshal_string kv.1 +:+ ": " +:+ kv.2) (sort_slice object_less members)))
  | v => marshal_any v
  end.
Definition prettyJSON (v : any) : string := default "" (indented 0 v).

Example prettyJSON_ex : prettyJSON (AMap [("b", ASlice [AInt64 1; AMap []]); ("a", AString "x")]) =
  "{" +:+ newline +:+ "  " +:+ quoted "a" +:+ ": " +:+ quoted "x" +:+ "," +:+ newline +:+ "  " +:+ quoted "b" +:+ ": [" +:+ newline +:+
  "    1," +:+ newline +:+ "    {}" +:+ newline +:+ "  ]" +:+ newline +:+ "}".
Proof. vm_compute. reflexivity. Qed.

Definition valueOrDefault (value fallback : string) : string := if value == "" then fallback else value.
Definition param (action : TypedAction) (name : string) : string := value_at (action_Params action) name.
Definition sorted_pairs (m : gmap string string) : list (string * string) := sort_slice object_less (map_to_list m).
Definition stringMapAny (m : gmap string string) : any := AMap (map (λ kv, (kv.1, AString kv.2)) (sorted_pairs m)).
(** [m[key] = value] *)
Definition with_entry (key : string) (v : any) (m : fields) : fields := (key, v) :: List.filter (λ kv, kv.1 != key) m.

Section Diff.
Context `{RangeOrder} `{Kubernetes} `{!KubernetesMeta _} `{!DynamicKubernetes _}.
Notation W := (P WorkflowE).

Definition object_manifest (target : ResourceRef) (podSpec : fields) : string :=
  prettyJSON (AMap [("apiVersion", AString (ref_APIVersion target)); ("kind", AString (ref_Kind target));
    ("metadata", AMap [("name", AString (ref_Name target)); ("namespace", AString (ref_Namespace target))]);
    ("spec", AMap [("template", AMap [("spec", AMap podSpec)])])]).

(** * Pod Security labels *)

Definition desired_labels (action : TypedAction) : gmap string string :=
  list_to_map [("pod-security.kubernetes.io/enforce", valueOrDefault (param action "enforce") "baseline");
               ("pod-security.kubernetes.io/audit", valueOrDefault (param action "audit") "restricted");
               ("pod-security.kubernetes.io/warn", valueOrDefault (param action "warn") "restricted")].
Definition label_line (labels : gmap string string) (kv : string * string) : string :=
  "metadata.labels[" +:+ Quote kv.1 +:+ "]: " +:+ Quote (value_at labels kv.1) +:+ " -> " +:+ Quote kv.2.
Definition renderPodSecurityDiff (action : TypedAction) (manifest : PlannedManifest) : W PlannedManifest :=
  let name := ref_Name (action_Target action) in
  o ← call (ApiGet (mkGVR "" "v1" "namespaces") "" name);
  let desired := desired_labels action in
  mret (manifest
    <| manifest_Diff := Join (map (label_line (GetLabels o)) (sorted_pairs desired)) newline |>
    <| manifest_Manifest := prettyJSON (AMap [("apiVersion", AString "v1"); ("kind", AString "Namespace");
         ("metadata", AMap [("name", AString name); ("labels", stringMapAny desired)])]) |>).

(** * Workloads *)

Definition getWorkload (target : ResourceRef) : W object :=
  let get resource := call (ApiGet (mkGVR "apps" "v1" resource) (ref_Namespace target) (ref_Name target)) in
  if ref_Kind target == "Deployment" then get "deployments"
  else if ref_Kind target == "StatefulSet" then get "statefulsets"
  else if ref_Kind target == "DaemonSet" then get "daemonsets"
  else raise (Errorf ("unsupported workload kind " +:+ ref_Kind target)).

(** [values] with the missing key, and a line about it. *)
Definition addMissing (key desired field container resourceField : string) (values : gmap string string) :
    gmap string string * list string :=
  match values !! key with
  | Some _ => (values, [])
  | None => (<[key := desired]> values,
             ["spec.template.spec." +:+ field +:+ "[" +:+ Quote container +:+ "].resources." +:+ resourceField +:+ "." +:+ key +:+
              ": <absent> -> " +:+ Quote desired])
  end.
Definition fill (field container resourceField cpu memory : string) (values : gmap string string) :
    gmap string string * list string :=
  let '(values, changes1) := addMissing "cpu" cpu field container resourceField values in
  let '(values, changes2) := addMissing "memory" memory field container resourceField values in
  (values, changes1 ++ changes2).

(** [unstructured.NestedStringMap], an empty map where there is none. *)
Definition quantities (name : string) (resources : fields) : gmap string string := found_or ∅ (NestedStringMap [name] resources).
Definition fill_container (action : TypedAction) (field : string) (raw : any) : any * list string :=
  match raw with
  | AMap container =>
      let name := found_or "" (NestedString ["name"] container) in
      let resources := default [] (NestedMap ["resources"] container) in
      let '(requests, changes1) := fill field name "requests" (param action "cpuRequest") (param action "memoryRequest")
                                     (quantities "requests" resources) in
      let '(limits, changes2) := fill field name "limits" (param action "cpuLimit") (param action "memoryLimit")
                                   (quantities "limits" resources) in
      let resources := with_entry "limits" (stringMapAny limits) (with_entry "requests" (stringMapAny requests) resources) in
      (AMap (with_entry "resources" (AMap resources) container), changes1 ++ changes2)
  | _ => (raw, [])
  end.
(** The containers of a field of the pod template; without them the nil slice. *)
Definition fill_field (action : TypedAction) (podSpec : fields) (field : string) : any * list string :=
  match NestedSlice [field] podSpec with
  | Ok (Some items) =>
      let filled := map (fill_container action field) items in
      (ASlice (map fst filled), concat (map snd filled))
  | _ => (ANil, [])
  end.
Definition no_change : string := "No resource fields would change; the action is already idempotent.".
Definition resources_diff (action : TypedAction) (manifest : PlannedManifest) (o : object) : result PlannedManifest :=
  match NestedMap ["spec"; "template"; "spec"] (Object o) with
  | None => Err (Errorf "workload has no pod template spec")
  | Some podSpec =>
      let '(initContainers, changes1) := fill_field action podSpec "initContainers" in
      let '(containers, changes2) := fill_field action podSpec "containers" in
      Ok (manifest
        <| manifest_Diff := valueOrDefault (Join (changes1 ++ changes2) newline) no_change |>
        <| manifest_Manifest := object_manifest (action_Target action)
             [("initContainers", initContainers); ("containers", containers)] |>)
  end.
Definition renderWorkloadResourcesDiff (action : TypedAction) (manifest : PlannedManifest) : W PlannedManifest :=
  o ← getWorkload (action_Target action);
  pure_result (resources_diff action manifest o).

Definition renderPDBDiff (action : TypedAction) (manifest : PlannedManifest) : W PlannedManifest :=
  let target := action_Target action in
  workload ← getWorkload target;
  let selector := found_or ∅ (NestedStringMap ["spec"; "selector"; "matchLabels"] (Object workload)) in
  raise_if (bool_decide (selector = ∅)) (Errorf "workload selector is empty");;
  let minimum := param action "minAvailable" in
  mret (manifest
    <| manifest_Diff := "create/reconcile policy/v1 PodDisruptionBudget " +:+ ref_Namespace target +:+ "/" +:+ ref_Name target +:+
         "-kubeathrix with minAvailable=" +:+ minimum +:+ " and matchLabels=" +:+ prettyJSON (stringMapAny selector) |>
    <| manifest_Manifest := prettyJSON (AMap [("apiVersion", AString "policy/v1"); ("kind", AString "PodDisruptionBudget");
         ("metadata", AMap [("name", AString (ref_Name target +:+ "-kubeathrix")); ("namespace", AString (ref_Namespace target))]);
         ("spec", AMap [("minAvailable", AString minimum); ("selector", AMap [("matchLabels", stringMapAny selector)])])]) |>).

Definition container_name (raw : any) : string := found_or "" (NestedString ["name"] (default [] (as_map raw))).
Definition probe (path port : string) : any := AMap [("httpGet", AMap [("path", AString path); ("port", AString port)])].
Definition renderWorkloadProbesDiff (action : TypedAction) (manifest : PlannedManifest) : W PlannedManifest :=
  o ← getWorkload (action_Target action);
  match NestedSlice ["spec"; "template"; "spec"; "containers"] (Object o) with
  | Ok (Some containers) =>
      let containerName := param action "container" in
      raise_if (negb (existsb (λ raw, container_name raw == containerName) containers))
        (Errorf ("configured container " +:+ containerName +:+ " does not exist"));;
      let readiness := param action "readinessPath" in
      let liveness := param action "livenessPath" in
      let port := param action "port" in
      mret (manifest
        <| manifest_WriteMode := "direct-tier-b" |>
        <| manifest_Diff := "container " +:+ containerName +:+ ": add missing readiness HTTP GET " +:+ readiness +:+ ":" +:+ port +:+
             " and liveness HTTP GET " +:+ liveness +:+ ":" +:+ port +:+ "; existing probes remain unchanged" |>
        <| manifest_Manifest := object_manifest (action_Target action)
             [("containers", ASlice [AMap [("name", AString containerName); ("readinessProbe", probe readiness port);
                                           ("livenessProbe", probe liveness port)]])] |>)
  | _ => raise (Errorf "workload has no containers")
  end.

(** * The diff *)

Definition render (action : TypedAction) (manifest : PlannedManifest) : W PlannedManifest :=
  let type := action_Type action in
  within ("render exact diff for " +:+ type)
    (if type == "patch_pod_security_labels" then renderPodSecurityDiff action manifest
     else if type == "patch_workload_resources" then renderWorkloadResourcesDiff action manifest
     else if type == "create_pdb" then renderPDBDiff action manifest
     else if (type == "patch_workload_probes") && (param action "configured" == "true") then renderWorkloadProbesDiff action manifest
     else mret manifest).
Fixpoint render_all (actions : list TypedAction) (manifests : list PlannedManifest) : W (list PlannedManifest) :=
  match actions, manifests with
  | action :: actions, manifest :: manifests =>
      manifest ← render action manifest;
      rest ← render_all actions manifests;
      mret (manifest :: rest)
  | _, _ => mret []
  end.
Definition RenderDiff (plan : RemediationPlan) : W RemediationDiff :=
  let diff := buildRemediationDiff plan in
  manifests ← render_all (plan_Actions plan) (diff_Manifests diff);
  mret (diff <| diff_Manifests := manifests |>).
End Diff.
