(* ===== verification/DiffProps.v ===== *)
(** The exact diff of a resource action against the operator that executes it: what is shown to the approver is what
    [executeWorkloadResources] writes; and a workload for which it is computed. *)
From S2P Require Import Prelude GoLib Json JsonProps Core Kube ManagedProvenance WorkflowObjects Workflow OperatorApi Operator Diff.
From S2P Require Import OperatorScenario.

Local Open Scope Z_scope.

(** * Entries of an object *)

Lemma find_with_entry key k v m :
  List.find (λ kv, kv.1 == k) (with_entry key v m) = if key == k then Some (key, v) else List.find (λ kv, kv.1 == k) m.
Proof.
  unfold with_entry. cbn [List.find fst]. destruct (key == k) eqn:Hk; [done|].
  induction m as [|[k' v'] m IH]; [done|]. cbn [List.filter List.find fst]. destruct (k' == key) eqn:Hkey; cbn [negb].
  - apply String.eqb_eq in Hkey as ->. by rewrite Hk.
  - cbn [List.find fst]. by destruct (k' == k).
Qed.

Lemma nested_with_entry key k v m path :
  nested (k :: path) (AMap (with_entry key v m)) = if key == k then nested path v else nested (k :: path) (AMap m).
Proof. cbn [nested]. rewrite find_with_entry. by destruct (key == k). Qed.

Section Exact.
Context `{RangeOrder} `{K : Kubernetes} {L : OperatorLib K} `{!KubernetesMeta K}.

(** * Quantities *)

(** The same quantities as text and parsed. *)
Definition same_quantities (texts : gmap string string) (values : gmap string Quantity) : Prop :=
  map_Forall2 (λ _ text q, ParseQuantity text = Ok q) texts values.

Lemma parse_quantities_at what values acc m :
  parse_quantities what values acc = Ok m → NoDup values.*1 → ∀ name v,
  ((name, v) ∈ values → ∃ q, m !! name = Some q ∧ ParseQuantity v = Ok q) ∧ (name ∉ values.*1 → m !! name = acc !! name).
Proof.
  revert acc. induction values as [|[n t] values IH]; intros acc; cbn [parse_quantities].
  { intros [= <-] _ name v. split; [by intros ?%elem_of_nil | done]. }
  destruct (ParseQuantity t) as [q|] eqn:Hq; [|done]. destruct (quantity_Sign q <=? 0); [done|].
  intros Hm [Hn Hnd]%NoDup_cons name v. destruct (IH _ Hm Hnd name v) as [Hin Hout]. split.
  - intros [[= -> ->]|Hv]%elem_of_cons; [|by apply Hin].
    exists q. by rewrite Hout, lookup_insert_eq by done.
  - cbn [fmap list_fmap fst]. intros [Hne Hnotin]%not_elem_of_cons. rewrite Hout by done. by apply lookup_insert_ne.
Qed.

(** What [executeWorkloadResources] parses of a group of parameters. *)
Definition group_of (cpu memory : string) : gmap string string := <["cpu" := cpu]> {["memory" := memory]}.

Lemma group_parsed what cpu memory values :
  parse_quantities what (range (group_of cpu memory)) ∅ = Ok values →
  ∃ q q', values !! "cpu" = Some q ∧ ParseQuantity cpu = Ok q ∧ values !! "memory" = Some q' ∧ ParseQuantity memory = Ok q'.
Proof.
  intros Hv. pose proof (parse_quantities_at _ _ _ _ Hv (NoDup_range _)) as Hat.
  destruct (proj1 (Hat "cpu" cpu)) as (q & ? & ?); [by apply elem_of_range; vm_compute|].
  destruct (proj1 (Hat "memory" memory)) as (q' & ? & ?); [by apply elem_of_range; vm_compute|].
  by exists q, q'.
Qed.

(** What a group of quantities becomes, in both components. *)
Definition executed (values old : gmap string Quantity) : gmap string Quantity :=
  foldl (λ m name, match values !! name with Some q => setIfMissing name q m | None => m end) old ["cpu"; "memory"].

Lemma fill_same field container resourceField what cpu memory values texts old :
  parse_quantities what (range (group_of cpu memory)) ∅ = Ok values → same_quantities texts old →
  let '(texts', changes) := fill field container resourceField cpu memory texts in
  same_quantities texts' (executed values old) ∧ (changes = [] ↔ executed values old = old).
Proof.
  intros (q & q' & Hcpu & Hq & Hmemory & Hq')%group_parsed Hsame.
  unfold executed, setIfMissing. cbn [foldl]. rewrite Hcpu, Hmemory.
  unfold fill, addMissing.
  pose proof (Hsame "cpu") as Hc. pose proof (Hsame "memory") as Hmem.
  assert (∀ key : string, old !! key = None → <[key := q]> old ≠ old ∧ <[key := q']> old ≠ old) as Hne.
  { intros key Hk. split; intros Heq; apply (f_equal (lookup key)) in Heq; rewrite lookup_insert_eq in Heq; congruence. }
  destruct (texts !! "cpu") eqn:Htc, (old !! "cpu") eqn:Hoc; inversion Hc; subst;
    rewrite ?lookup_insert_ne by done;
    destruct (texts !! "memory") eqn:Htm, (old !! "memory") eqn:Hom; inversion Hmem; subst; split; try done.
  all: try (by repeat apply map_Forall2_insert_2).
  all: try naive_solver.
  split; [done|]. intros Heq. apply (f_equal (lookup "cpu")) in Heq.
  rewrite lookup_insert_ne, lookup_insert_eq in Heq by done. congruence.
Qed.

(** * Containers *)

Definition resources_of (container : fields) : fields := default [] (ManagedProvenance.NestedMap ["resources"] container).
(** The container of the live object, read as the API server's client of the operator decodes it. *)
Definition read_as (raw : any) (c : Container) : Prop :=
  ∃ container, raw = AMap container ∧
    same_quantities (quantities "requests" (resources_of container)) (c_Requests c) ∧
    same_quantities (quantities "limits" (resources_of container)) (c_Limits c).
(** A container of the manifest that shows the resources of [c], and in the other entries those of [raw]. *)
Definition shows (raw shown : any) (c : Container) : Prop :=
  ∃ requests limits,
    nested ["resources"; "requests"] shown = Some (stringMapAny requests) ∧ same_quantities requests (c_Requests c) ∧
    nested ["resources"; "limits"] shown = Some (stringMapAny limits) ∧ same_quantities limits (c_Limits c) ∧
    ∀ key, key ≠ "resources" → nested [key] shown = nested [key] raw.

Context (action : TypedAction) (params : fields).
Context (Hparams : ∀ name, param_of params name = param action name).
Context (requests limits : gmap string Quantity).
Context (Hrequests : parse_quantities "request"
  (range (<["cpu" := param_of params "cpuRequest"]> {["memory" := param_of params "memoryRequest"]})) ∅ = Ok requests).
Context (Hlimits : parse_quantities "limit"
  (range (<["cpu" := param_of params "cpuLimit"]> {["memory" := param_of params "memoryLimit"]})) ∅ = Ok limits).

Lemma set_resources_same c :
  set_resources requests limits c = c ↔
  executed requests (c_Requests c) = c_Requests c ∧ executed limits (c_Limits c) = c_Limits c.
Proof.
  unfold set_resources. fold (executed requests (c_Requests c)). fold (executed limits (c_Limits c)).
  destruct c; cbn. split; [by intros [= ? ?] | by intros [-> ->]].
Qed.

Lemma fill_container_shows field raw c :
  read_as raw c →
  let '(shown, changes) := fill_container action field raw in
  shows raw shown (set_resources requests limits c) ∧ (changes = [] ↔ set_resources requests limits c = c).
Proof.
  intros (container & -> & Hreq & Hlim). unfold fill_container. fold (resources_of container).
  set (name := found_or "" _).
  unfold group_of in *. rewrite !Hparams in Hrequests. rewrite !Hparams in Hlimits.
  pose proof (fill_same field name "requests" _ _ _ _ _ _ Hrequests Hreq) as Hr.
  pose proof (fill_same field name "limits" _ _ _ _ _ _ Hlimits Hlim) as Hl.
  destruct (fill field name "requests" _ _ _) as [requests' changes1].
  destruct (fill field name "limits" _ _ _) as [limits' changes2].
  destruct Hr as [Hr1 Hr2], Hl as [Hl1 Hl2]. split; [|rewrite set_resources_same, <-Hr2, <-Hl2; by destruct changes1, changes2; naive_solver].
  exists requests', limits'. split_and!; [| exact Hr1 | | exact Hl1 |].
  1-2: rewrite nested_with_entry; cbn [String.eqb]; rewrite nested_with_entry; try done.
  intros key Hkey. rewrite nested_with_entry. by apply not_eq_sym, String.eqb_neq in Hkey as ->.
Qed.

Definition containers_of (field : string) (podSpec : fields) : list any := found_or [] (NestedSlice [field] podSpec).
(** A field of the manifest: a container for each of the pod template, in the same order; [null] without any. *)
Definition shows_field (raws : list any) (shown : any) (cs : list Container) : Prop :=
  ∃ items, Forall3 shows raws items cs ∧ (shown = ASlice items ∨ shown = ANil ∧ items = []).

Lemma fill_containers_show field raws cs :
  Forall2 read_as raws cs →
  Forall3 shows raws (map fst (map (fill_container action field) raws)) (map (set_resources requests limits) cs) ∧
  (concat (map snd (map (fill_container action field) raws)) = [] ↔ map (set_resources requests limits) cs = cs).
Proof.
  induction 1 as [|raw c raws cs Hread _ [IH1 IH2]]; [by repeat constructor|].
  pose proof (fill_container_shows field _ _ Hread) as Hc. cbn [map concat].
  destruct (fill_container action field raw) as [shown changes]. destruct Hc as [Hshows Hsame]. cbn [fst snd].
  split; [by constructor|]. rewrite app_nil, Hsame, IH2. split; [by intros [-> ->] | by intros [= ? ?]].
Qed.

Lemma fill_field_shows field podSpec cs :
  Forall2 read_as (containers_of field podSpec) cs →
  let '(shown, changes) := fill_field action podSpec field in
  shows_field (containers_of field podSpec) shown (map (set_resources requests limits) cs) ∧
  (changes = [] ↔ map (set_resources requests limits) cs = cs).
Proof.
  unfold containers_of, fill_field. destruct (NestedSlice [field] podSpec) as [[items|]|]; cbn [found_or].
  1: { intros [? ?]%(fill_containers_show field). split; [|done]. eexists. by split; [|left]. }
  all: intros ->%Forall2_nil_inv_l; split; [|done]; exists []; split; [constructor | by right].
Qed.

(** The lines about a change, which never read like [no_change]. *)
Definition change_line (line : string) : Prop := ∃ tail, line = "spec." +:+ tail.

Lemma changes_text (changes : list string) :
  Forall change_line changes → valueOrDefault (Join changes newline) no_change = no_change ↔ changes = [].
Proof.
  destruct changes as [|line rest]; [done|]. intros [[tail ->] _]%Forall_cons. split; [|done].
  assert (∃ more, Join (("spec." +:+ tail) :: rest) newline = "spec." +:+ more) as [more ->]; [|done].
  unfold Join. cbn [String.concat]. destruct rest; [by eexists|]. rewrite <-string_app_assoc. by eexists.
Qed.

Lemma fill_lines field container resourceField cpu memory texts :
  Forall change_line (fill field container resourceField cpu memory texts).2.
Proof.
  unfold fill, addMissing. destruct (texts !! "cpu"); destruct (_ !! "memory"); cbn [snd app];
    repeat constructor; by eexists.
Qed.

Lemma fill_field_lines field podSpec : Forall change_line (fill_field action podSpec field).2.
Proof.
  unfold fill_field. destruct (NestedSlice [field] podSpec) as [[items|]|]; [|constructor..]. cbn [snd].
  apply Forall_concat, Forall_forall. intros changes (filled & -> & (raw & -> & _)%list_elem_of_fmap)%list_elem_of_fmap.
  unfold fill_container. destruct raw; try constructor.
  set (name := found_or "" _). set (resources := default [] _).
  pose proof (fill_lines field name "requests" (param action "cpuRequest") (param action "memoryRequest") (quantities "requests" resources)) as Hr.
  pose proof (fill_lines field name "limits" (param action "cpuLimit") (param action "memoryLimit") (quantities "limits" resources)) as Hl.
  destruct (fill _ _ "requests" _ _ _), (fill _ _ "limits" _ _ _). by apply Forall_app.
Qed.

(** C16. The exact diff of a resource action is what executing it does: from a workload whose containers the operator reads
    as those of the pod template, the manifest shows for each container, in order, the requests and limits
    [executeWorkloadResources] sets, with the other entries as they are; and the diff says that nothing would change
    exactly when executing the action leaves every container as it is. *)
Theorem resources_diff_exact (manifest : PlannedManifest) (o : object) (podSpec : fields) (spec : PodSpec)
    (Hpod : ManagedProvenance.NestedMap ["spec"; "template"; "spec"] (Object o) = Some podSpec)
    (Hinit : Forall2 read_as (containers_of "initContainers" podSpec) (ps_InitContainers spec))
    (Hmain : Forall2 read_as (containers_of "containers" podSpec) (ps_Containers spec)) :
  let initContainers := map (set_resources requests limits) (ps_InitContainers spec) in
  let containers := map (set_resources requests limits) (ps_Containers spec) in
  ∃ text shown1 shown2,
    resources_diff action manifest o =
      Ok (manifest <| manifest_Diff := text |>
           <| manifest_Manifest := object_manifest (action_Target action) [("initContainers", shown1); ("containers", shown2)] |>) ∧
    shows_field (containers_of "initContainers" podSpec) shown1 initContainers ∧
    shows_field (containers_of "containers" podSpec) shown2 containers ∧
    (text = no_change ↔ initContainers = ps_InitContainers spec ∧ containers = ps_Containers spec).
Proof.
  intros initContainers containers.
  pose proof (fill_field_shows _ _ _ Hinit) as Hs1. pose proof (fill_field_lines "initContainers" podSpec) as Hl1.
  pose proof (fill_field_shows _ _ _ Hmain) as Hs2. pose proof (fill_field_lines "containers" podSpec) as Hl2.
  unfold resources_diff. rewrite Hpod.
  destruct (fill_field action podSpec "initContainers") as [shown1 changes1].
  destruct (fill_field action podSpec "containers") as [shown2 changes2].
  destruct Hs1 as [Hs1 Hsame1], Hs2 as [Hs2 Hsame2].
  eexists _, shown1, shown2. split; [reflexivity|]. split_and!; [done | done |].
  rewrite changes_text by by apply Forall_app. by rewrite app_nil, Hsame1, Hsame2.
Qed.
End Exact.

(** * A workload with one init container and two containers, one of which lacks nothing *)

#[local] Existing Instance canonical_order.

Definition group_any (cpu memory : string) : any := AMap [("cpu", AString cpu); ("memory", AString memory)].
Definition init_any : any := AMap [("name", AString "migrate")].
Definition web_any : any :=
  AMap [("name", AString "web"); ("image", AString "web:1"); ("resources", AMap [("requests", AMap [("cpu", AString "250m")])])].
Definition proxy_any : any :=
  AMap [("name", AString "proxy"); ("resources", AMap [("requests", group_any "10m" "16Mi"); ("limits", group_any "50m" "32Mi")])].
Definition pod_fields : fields := [("initContainers", ASlice [init_any]); ("containers", ASlice [web_any; proxy_any])].
Definition workload_object : json_object :=
  object_of [("spec", AMap [("template", AMap [("spec", AMap pod_fields)])])].

Definition group (cpu memory : string) : gmap string (Quantity (K := json_kubernetes)) := <["cpu" := cpu]> {["memory" := memory]}.
Definition pod_spec : PodSpec (K := json_kubernetes) :=
  mkPodSpec [mkContainer "migrate" ∅ ∅ None None tt]
    [mkContainer "web" {["cpu" := "250m"]} ∅ None None tt; mkContainer "proxy" (group "10m" "16Mi") (group "50m" "32Mi") None None tt] tt.

Definition resource_params : list (string * string) :=
  [("cpuRequest", "100m"); ("memoryRequest", "128Mi"); ("cpuLimit", "500m"); ("memoryLimit", "512Mi")].
Definition resource_action : TypedAction :=
  mkTypedAction "patch_workload_resources" (mkResourceRef "apps/v1" "Deployment" "shop" "web") "" (list_to_map resource_params).
Definition resource_fields : fields := [("params", AMap (map (λ kv, (kv.1, AString kv.2)) resource_params))].
Definition blank_manifest : PlannedManifest :=
  mkPlannedManifest "patch_workload_resources" (action_Target resource_action) "" "" true [] [] [] "" "" "" "".

Lemma same_text (m : gmap string string) : map_Forall (λ _ s, s ≠ "") m → same_quantities (K := json_kubernetes) m m.
Proof.
  intros Hm name. specialize (Hm name).
  change (option_Forall2 (λ text q : string, ParseQuantity (K := json_kubernetes) text = Ok q) (m !! name) (m !! name)).
  destruct (m !! name) as [s|]; constructor. cbn.
  by rewrite (proj2 (String.eqb_neq s "") (Hm s eq_refl)).
Qed.
Lemma literal_read_as container (c : Container (K := json_kubernetes)) :
  quantities "requests" (resources_of container) = c_Requests c → quantities "limits" (resources_of container) = c_Limits c →
  bool_decide (map_Forall (λ _ s : string, s ≠ "") (c_Requests c)) = true →
  bool_decide (map_Forall (λ _ s : string, s ≠ "") (c_Limits c)) = true →
  read_as (AMap container) c.
Proof.
  intros Hr Hl Hr'%bool_decide_eq_true Hl'%bool_decide_eq_true. exists container. split; [done|]. rewrite Hr, Hl.
  split; by apply same_text.
Qed.

Example resource_lines :
  manifest_Diff <$> (match resources_diff resource_action blank_manifest workload_object with Ok m => Some m | Err _ => None end) =
  Some (requote (Join
    ["spec.template.spec.initContainers['migrate'].resources.requests.cpu: <absent> -> '100m'";
     "spec.template.spec.initContainers['migrate'].resources.requests.memory: <absent> -> '128Mi'";
     "spec.template.spec.initContainers['migrate'].resources.limits.cpu: <absent> -> '500m'";
     "spec.template.spec.initContainers['migrate'].resources.limits.memory: <absent> -> '512Mi'";
     "spec.template.spec.containers['web'].resources.requests.memory: <absent> -> '128Mi'";
     "spec.template.spec.containers['web'].resources.limits.cpu: <absent> -> '500m'";
     "spec.template.spec.containers['web'].resources.limits.memory: <absent> -> '512Mi'"] newline)).
Proof. vm_compute. reflexivity. Qed.

Lemma resources_diff_exact_witness :
  ∃ text shown1 shown2,
    resources_diff resource_action blank_manifest workload_object =
      Ok (blank_manifest <| manifest_Diff := text |>
           <| manifest_Manifest := object_manifest (action_Target resource_action)
                [("initContainers", shown1); ("containers", shown2)] |>) ∧ text ≠ no_change.
Proof.
  destruct (resources_diff_exact (K := json_kubernetes) resource_action resource_fields
    (λ name, ltac:(reflexivity)) (group "100m" "128Mi") (group "500m" "512Mi")
    ltac:(vm_compute; reflexivity) ltac:(vm_compute; reflexivity) blank_manifest workload_object pod_fields pod_spec)
    as (text & shown1 & shown2 & Hdiff & _ & _ & Htext).
  - vm_compute. reflexivity.
  - repeat constructor; apply literal_read_as; vm_compute; reflexivity.
  - repeat constructor; apply literal_read_as; vm_compute; reflexivity.
  - exists text, shown1, shown2. split; [exact Hdiff|]. intros Hno%Htext. destruct Hno as [Hno _].
    apply (f_equal (map (λ c, c_Requests c !! "cpu"))) in Hno. vm_compute in Hno. discriminate.
Defined.
