(* ===== verification/Adapters.v ===== *)
(** The scanner adapters, [services/api/internal/adapters/adapters.go]: the report APIs each adapter lists, how a report
    becomes findings, the health of an adapter, and the collection of all of them with its cache of thirty seconds.

    [newFinding] takes the time of the wall clock for a report without a creation time; it is read once per adapter. *)
From Stdlib Require Import SpecFloat.
From S2P Require Import Prelude GoLib GoDuration Sha256 Json Interaction Core Kube ManagedProvenance ManagedDiscovery WorkflowObjects Http.

Local Open Scope Z_scope.

(** * Values *)

Definition valueOr (value fallback : string) : string := if TrimSpace value == "" then fallback else value.

Definition apiVersionForKind (kind : string) : string :=
  if bool_decide (kind ∈ ["Deployment"; "StatefulSet"; "DaemonSet"; "ReplicaSet"]) then "apps/v1"
  else if bool_decide (kind ∈ ["Role"; "RoleBinding"; "ClusterRole"; "ClusterRoleBinding"]) then "rbac.authorization.k8s.io/v1"
  else "v1".

Definition severityFromText (value : string) : string :=
  let value := ToLower value in
  if value == "critical" then SeverityCritical
  else if bool_decide (value ∈ ["high"; "error"]) then SeverityHigh
  else if bool_decide (value ∈ ["medium"; "moderate"; "warn"; "warning"]) then SeverityMedium
  else if value == "low" then SeverityLow
  else SeverityInfo.

Definition riskForSeverity (severity : string) : Z :=
  if severity == SeverityCritical then 95
  else if severity == SeverityHigh then 80
  else if severity == SeverityMedium then 60
  else if severity == SeverityLow then 35
  else 10.

Definition stableID (parts : list string) : string :=
  string_take 20 (sha256_hex (Join parts (String (byte_of_code 0) EmptyString))).

(** [typed > 0] and [int(typed)] of the two types a count may have. *)
Definition positive_count (value : any) : option Z :=
  match value with
  | AInt64 typed => if 0 <? typed then Some typed else None
  | AFloat64 (S754_finite false m e) => Some (truncate (S754_finite false m e))
  | _ => None
  end.
Definition severity_keys : list (string * string) :=
  [("critical", SeverityCritical); ("Critical", SeverityCritical); ("high", SeverityHigh); ("High", SeverityHigh);
   ("medium", SeverityMedium); ("Medium", SeverityMedium); ("low", SeverityLow); ("Low", SeverityLow)].
Definition highestCountSeverity (values : fields) : string * Z :=
  let counted ks := count ← positive_count (field ks.1 values); Some (ks.2, count) in
  default (SeverityInfo, 0) (head (omap counted severity_keys)).

Section Reports.
Context `{Kubernetes} `{!KubernetesMeta _} `{!DynamicKubernetes _}.

Definition string_field (item : fields) (key : string) : string := found_or "" (NestedString [key] item).
Definition firstNestedString (item : fields) (keys : list string) : string :=
  default "" (List.find (λ value, value != "") (map (string_field item) keys)).
Definition nestedSliceAny (o : fields) (paths : list (list string)) : list any :=
  match List.find (λ path, found (NestedSlice path o)) paths with
  | Some path => found_or [] (NestedSlice path o)
  | None => []
  end.
Definition nestedMapAny (o : fields) (paths : list (list string)) : fields := default [] (head (omap (λ path, NestedMap path o) paths)).

(** * Affected resources *)

Definition own_ref (o : object) : ResourceRef := mkResourceRef (GetAPIVersion o) (GetKind o) (GetNamespace o) (GetName o).
Definition ownerResource (o : object) : ResourceRef :=
  match GetOwnerReferences o with
  | [] => own_ref o
  | owner :: _ => mkResourceRef (owner_APIVersion owner) (owner_Kind owner) (GetNamespace o) (owner_Name owner)
  end.
Definition trivyResource (o : object) : ResourceRef :=
  let labels := GetLabels o in
  let resource := mkResourceRef "" (value_at labels "trivy-operator.resource.kind") (GetNamespace o)
                    (value_at labels "trivy-operator.resource.name") in
  let resource := if ref_Name resource == "" then ownerResource o else resource in
  if ref_APIVersion resource == "" then resource <| ref_APIVersion := apiVersionForKind (ref_Kind resource) |> else resource.
Definition kubescapeResource (o : object) : ResourceRef :=
  let labels := GetLabels o in
  let resource := mkResourceRef (value_at labels "kubescape.io/workload-api-version") (value_at labels "kubescape.io/workload-kind")
                    (GetNamespace o) (value_at labels "kubescape.io/workload-name") in
  let resource := if ref_Name resource == "" then ownerResource o else resource in
  if ref_Name resource == "" then mkResourceRef "apps/v1" "Workload" (GetNamespace o) (GetName o) else resource.

(** * Findings *)

Definition finding_keys (resource : ResourceRef) : CorrelationKeys :=
  let kind := ref_Kind resource in
  zero_CorrelationKeys
    <| keys_Namespace := if kind == "Namespace" then ref_Name resource else ref_Namespace resource |>
    <| keys_Workload := if bool_decide (kind ∈ ["Deployment"; "StatefulSet"; "DaemonSet"; "ReplicaSet"; "Pod"; "Workload"])
                        then ref_Namespace resource +:+ "/" +:+ kind +:+ "/" +:+ ref_Name resource else "" |>
    <| keys_Identity := if bool_decide (kind ∈ ["Role"; "RoleBinding"; "ClusterRole"; "ClusterRoleBinding"; "ServiceAccount";
                                                 "RbacAssessmentReport"])
                        then ref_String resource else "" |>
    <| keys_NetworkExposure := if bool_decide (kind ∈ ["Service"; "Ingress"; "NetworkPolicy"]) then ref_String resource else "" |>.

Variable wall : Time.

Definition newFinding (source : string) (o : object) (sourceKey title severity : string) (resource : ResourceRef)
    (details correlation : string) : Finding :=
  let observedAt := if IsZero (GetCreationTimestamp o) then wall else GetCreationTimestamp o in
  let reference := "k8s://" +:+ GetAPIVersion o +:+ "/" +:+ GetKind o +:+ "/" +:+ GetNamespace o +:+ "/" +:+ GetName o in
  let fingerprint := stableID [source; GetUID o +:+ "|" +:+ sourceKey +:+ "|" +:+ ref_String resource] in
  zero_Finding
    <| finding_ID := "finding-" +:+ source +:+ "-" +:+ fingerprint |> <| finding_Source := source |>
    <| finding_Title := title |> <| finding_Severity := severity |>
    <| finding_Evidence := [mkEvidence title details reference observedAt] |> <| finding_Resources := [resource] |>
    <| finding_BlastRadius := "Affected Kubernetes resource: " +:+ ref_String resource |>
    <| finding_Fixability := FixabilityHumanOnly |> <| finding_Status := FindingOpen |>
    <| finding_CorrelationGroup := correlation |> <| finding_RiskScore := riskForSeverity severity |>
    <| finding_RemediationState := "proposal_only" |>
    <| finding_RecommendedAction := "Review source evidence and generate only a typed catalog action supported for this resource." |>
    <| finding_CreatedAt := observedAt |> <| finding_UpdatedAt := observedAt |>
    <| finding_CorrelationKeys := finding_keys resource |>.

(** [item, ok := raw.(map[string]any); if !ok { continue }], with the index of [raw]. *)
Definition each_item (f : nat → fields → list Finding) (raws : list any) : list Finding :=
  concat (imap (λ index raw, match as_map raw with Some item => f index item | None => [] end) raws).
Definition slice_at (path : list string) (o : object) : list any := found_or [] (NestedSlice path (Object o)).
Definition text_of (path : list string) (o : object) : string := found_or "" (NestedString path (Object o)).

Definition vulnerability_finding (o : object) (item : fields) : Finding :=
  let digest := text_of ["report"; "artifact"; "digest"] o in
  let vulnerabilityID := string_field item "vulnerabilityID" in
  let image := Trim (text_of ["report"; "artifact"; "repository"] o +:+ ":" +:+ text_of ["report"; "artifact"; "tag"] o) ":" in
  let details := TrimSpace ("image=" +:+ image +:+ " digest=" +:+ digest +:+ " fixedVersion=" +:+ string_field item "fixedVersion" +:+
                            " advisory=" +:+ string_field item "primaryLink") in
  let finding := newFinding "trivy" o vulnerabilityID (valueOr (string_field item "title") vulnerabilityID)
                   (severityFromText (string_field item "severity")) (trivyResource o) details ("image:" +:+ valueOr digest image) in
  finding <| finding_CorrelationKeys := (finding_CorrelationKeys finding) <| keys_Image := valueOr digest image |> |>.
Definition normalizeTrivyVulnerabilities (o : object) : list Finding :=
  each_item (λ _ item, [vulnerability_finding o item]) (slice_at ["report"; "vulnerabilities"] o).

Definition normalizeTrivyChecks (o : object) : list Finding :=
  let resource := trivyResource o in
  each_item (λ _ item,
    match NestedBool ["success"] item with
    | Ok (Some true) => []
    | _ =>
        let checkID := string_field item "checkID" in
        [newFinding "trivy" o checkID ("Trivy configuration check failed: " +:+ checkID) (severityFromText (string_field item "severity"))
           resource (Join (found_or [] (NestedStringSlice ["messages"] item)) "; ") (ref_String resource)]
    end) (slice_at ["report"; "checks"] o).

Definition secret_finding (o : object) (index : nat) (raw : any) : Finding :=
  let item := default [] (as_map raw) in
  let ruleID := string_field item "ruleID" in
  let resource := trivyResource o in
  newFinding "trivy" o (ruleID +:+ "-" +:+ Itoa (Z.of_nat index))
    ("Potential exposed secret: " +:+ valueOr (string_field item "title") ruleID) SeverityCritical resource
    "Trivy reported secret material; KubeAthrix intentionally does not copy the matched value." (ref_String resource).
Definition normalizeTrivySecrets (o : object) : list Finding := imap (secret_finding o) (slice_at ["report"; "secrets"] o).

Definition policy_resource (o : object) : ResourceRef :=
  let scope := default [] (NestedMap ["scope"] (Object o)) in
  let resource := mkResourceRef (string_field scope "apiVersion") (string_field scope "kind") (string_field scope "namespace")
                    (string_field scope "name") in
  if ref_Name resource == "" then ownerResource o else resource.
Definition normalizePolicyReport (o : object) : list Finding :=
  let resource := policy_resource o in
  each_item (λ index item,
    let outcome := string_field item "result" in
    if (outcome == "pass") || (outcome == "skip") then []
    else
      let policy := string_field item "policy" in
      let rule := string_field item "rule" in
      let severityText := string_field item "severity" in
      let severity := if severityText == "" then if outcome == "error" then SeverityHigh else SeverityMedium
                      else severityFromText severityText in
      [newFinding "kyverno" o (policy +:+ "/" +:+ rule +:+ "/" +:+ outcome +:+ "/" +:+ Itoa (Z.of_nat index))
         ("Policy " +:+ policy +:+ "/" +:+ rule +:+ " reported " +:+ outcome) severity resource (string_field item "message")
         (ref_String resource +:+ "|policy:" +:+ policy)])
    (slice_at ["results"] o).

Definition control_findings (o : object) (index : nat) (item : fields) : list Finding :=
  let resource := kubescapeResource o in
  let status := string_field item "status" in
  if bool_decide (status ∈ ["passed"; "pass"; "skipped"]) then []
  else
    let controlID := firstNestedString item ["controlID"; "controlId"; "id"] in
    let severity := severityFromText (firstNestedString item ["severity"]) in
    let severity := if severity == SeverityInfo then SeverityMedium else severity in
    [newFinding "kubescape" o (controlID +:+ "-" +:+ Itoa (Z.of_nat index))
       ("Kubescape control failed: " +:+ valueOr (firstNestedString item ["name"; "controlName"]) controlID) severity resource
       ("Kubescape workload configuration summary reports status " +:+ status) (ref_String resource +:+ "|control:" +:+ controlID)].
Definition summary_findings (o : object) : list Finding :=
  let resource := kubescapeResource o in
  let severities := nestedMapAny (Object o) [["spec"; "severities"]; ["status"; "severities"]; ["spec"; "summary"]] in
  let '(severity, count) := highestCountSeverity severities in
  if 0 <? count then
    [newFinding "kubescape" o "summary" ("Kubescape reports " +:+ Itoa count +:+ " " +:+ severity +:+ " workload findings") severity
       resource "Kubescape summary contains failed controls or vulnerabilities; inspect the cited CRD for individual entries."
       (ref_String resource)]
  else [].
Definition normalizeKubescapeSummary (o : object) : list Finding :=
  match each_item (control_findings o) (nestedSliceAny (Object o) [["spec"; "controls"]; ["status"; "controls"]]) with
  | [] => summary_findings o
  | findings => findings
  end.

(** The reports of the Trivy operator, by kind. *)
Definition normalizeTrivy (o : object) : list Finding :=
  let kind := GetKind o in
  if kind == "VulnerabilityReport" then normalizeTrivyVulnerabilities o
  else if (kind == "ConfigAuditReport") || (kind == "RbacAssessmentReport") then normalizeTrivyChecks o
  else if kind == "ExposedSecretReport" then normalizeTrivySecrets o
  else [].
End Reports.

(** * Adapters *)

Record reportResource := mkReportResource { report_GVR : GroupVersionResource; report_namespaced : bool }.
(** [result]: an integration, its health, and what it found. *)
Record adapterOutcome := mkAdapterOutcome {
  outcome_integration : Integration; outcome_health : IntegrationHealth; outcome_findings : list Finding
}.

Definition trivy_resources : list reportResource :=
  map (λ resource, mkReportResource (mkGVR "aquasecurity.github.io" "v1alpha1" resource) true)
    ["vulnerabilityreports"; "configauditreports"; "exposedsecretreports"; "rbacassessmentreports"].
Definition kyverno_resources : list reportResource :=
  [mkReportResource (mkGVR "wgpolicyk8s.io" "v1alpha2" "policyreports") true;
   mkReportResource (mkGVR "wgpolicyk8s.io" "v1alpha2" "clusterpolicyreports") false;
   mkReportResource (mkGVR "openreports.io" "v1alpha1" "reports") true;
   mkReportResource (mkGVR "openreports.io" "v1alpha1" "clusterreports") false].
Definition kubescape_resources : list reportResource :=
  map (λ resource, mkReportResource (mkGVR "spdx.softwarecomposition.kubescape.io" "v1beta1" resource) true)
    ["workloadconfigurationscansummaries"; "vulnerabilitymanifestsummaries"].

Section Adapters.
Context `{Kubernetes} `{!KubernetesMeta _} `{!DynamicKubernetes _} `{ListErrors}.

(** Listing a report API over all namespaces, the native source's snapshot with its error, the clocks of the manager
    and of the process, and the cache with the time it was filled, which is read and written under the lock. *)
Inductive AdapterE : Type → Type :=
| ListReports (resource : GroupVersionResource) (namespaced : bool) : AdapterE (result (list object))
| NativeSnapshot : AdapterE (ClusterSnapshot * option GoError)
| AdapterNow : AdapterE Time
| WallClock : AdapterE Time
| LoadCache : AdapterE (Collection * Time)
| SaveCache (collection : Collection) (cachedAt : Time) : AdapterE unit.
Notation A := (P AdapterE).

Definition available_name (source : reportResource) : string :=
  let gvr := report_GVR source in gvr_Group gvr +:+ "/" +:+ gvr_Version gvr +:+ " " +:+ gvr_Resource gvr.
Definition denied (err : GoError) : bool := IsForbidden err || IsUnauthorized err.

(** [items], [available] and [firstPermissionError] so far. *)
Fixpoint collectResources (resources : list reportResource) (items : list object) (available : list string)
    (firstPermissionError : option GoError) : A (list object * list string * option GoError) :=
  match resources with
  | [] => mret (items, available, firstPermissionError)
  | source :: rest =>
      listed ← attempt (call (ListReports (report_GVR source) (report_namespaced source)));
      match listed with
      | Ok listed => collectResources rest (items ++ listed) (available ++ [available_name source]) firstPermissionError
      | Err err =>
          if IsNotFound err || IsMethodNotSupported err then collectResources rest items available firstPermissionError
          else if denied err then collectResources rest items available (Some (default err firstPermissionError))
          else mret (items, available, Some err)
      end
  end.

Definition adapterResult (name integrationType : string) (supported permissions available : list string) (lastSeen : Time)
    (findings : list Finding) (collectErr : option GoError) (checkedAt : Time) : adapterOutcome :=
  let enabled := negb (bool_decide (available = [])) in
  let '(status, health, setupGaps) :=
    match collectErr with
    | Some err =>
        if denied err then
          ("permission_denied", "degraded", ["Grant the documented read-only report permissions to the API service account."])
        else ("error", "unhealthy", ["Inspect the adapter error and Kubernetes API availability."])
    | None =>
        if enabled then ("online", "healthy", [])
        else ("not_configured", "not_configured",
              ["Install or enable a supported report API; an environment flag alone is not considered healthy."])
    end in
  let lastSeenText := if IsZero lastSeen then "never" else FormatRFC3339 lastSeen in
  mkAdapterOutcome (mkIntegration name integrationType enabled status)
    (mkIntegrationHealth name integrationType enabled status health lastSeenText permissions supported setupGaps
       (match collectErr with Some err => error_text err | None => "" end) (Z.of_nat (length findings)) checkedAt)
    findings.

(** The creation time of the latest report, the zero time without reports. *)
Definition last_seen (items : list object) : Time :=
  foldl (λ lastSeen o, if After (GetCreationTimestamp o) lastSeen then GetCreationTimestamp o else lastSeen) 0 items.

Definition collect_reports (resources : list reportResource) (normalize : Time → object → list Finding)
    (name integrationType : string) (supported permissions : list string) : A adapterOutcome :=
  '(items, available, err) ← collectResources resources [] [] None;
  wall ← ask WallClock;
  now ← ask AdapterNow;
  mret (adapterResult name integrationType supported permissions available (last_seen items)
          (flat_map (normalize wall) items) err now).

Definition trivy_collect : A adapterOutcome :=
  collect_reports trivy_resources normalizeTrivy "Trivy Operator" "scanner" ["aquasecurity.github.io/v1alpha1"]
    ["list/watch VulnerabilityReport"; "list/watch ConfigAuditReport"; "list/watch ExposedSecretReport";
     "list/watch RbacAssessmentReport"].
Definition kyverno_collect : A adapterOutcome :=
  collect_reports kyverno_resources normalizePolicyReport "Kyverno" "policy" ["wgpolicyk8s.io/v1alpha2"; "openreports.io/v1alpha1"]
    ["list/watch namespaced policy reports"; "list/watch cluster policy reports"].
Definition kubescape_collect : A adapterOutcome :=
  collect_reports kubescape_resources normalizeKubescapeSummary "Kubescape" "scanner" ["spdx.softwarecomposition.kubescape.io/v1beta1"]
    ["list/watch WorkloadConfigurationScanSummary"; "list/watch VulnerabilityManifestSummary"].
Definition native_collect : A adapterOutcome :=
  '(snapshot, err) ← ask NativeSnapshot;
  now ← ask AdapterNow;
  mret (adapterResult "Kubernetes native posture" "native" ["kubernetes/v1"]
          ["read workload and namespace specs/status"; "read RBAC rules"; "no Secret object access"]
          (match err with None => ["kubernetes/v1 native posture"] | Some _ => [] end)
          (scan_LastRunAt (snapshot_Scan snapshot)) (snapshot_Findings snapshot) err now).

(** * The manager *)

Record Manager := mkManager { manager_adapters : list (A adapterOutcome); manager_ttl : Duration }.
Definition NewManagerFromClient (native : bool) : Manager :=
  mkManager ([trivy_collect; kyverno_collect; kubescape_collect] ++ if native then [native_collect] else []) (30 * Second).

(** The goroutines of [Collect], which it waits for: the schedule says which of them performs its next call; when it ends
    the others finish one after the other. *)
Fixpoint one_by_one {R} (ps : list (A R)) : A (list R) :=
  match ps with
  | [] => mret []
  | p :: rest => r ← p; rs ← one_by_one rest; mret (r :: rs)
  end.
Fixpoint parallel {R} (schedule : list nat) (ps : list (A R)) : A (list R) :=
  match schedule with
  | [] => one_by_one ps
  | index :: schedule =>
      match ps !! index with
      | Some (Vis e k) => Vis e (λ x, parallel schedule (<[index := k x]> ps))
      | _ => parallel schedule ps
      end
  end.

(** The first finding of each identifier. *)
Fixpoint unseen (seen : gset string) (findings : list Finding) : list Finding :=
  match findings with
  | [] => []
  | finding :: rest =>
      let id := finding_ID finding in
      if bool_decide (id ∈ seen) then unseen seen rest else finding :: unseen ({[ id ]} ∪ seen) rest
  end.
Definition before (x y : Finding) : bool :=
  if finding_RiskScore x =? finding_RiskScore y then String.ltb (finding_ID x) (finding_ID y)
  else finding_RiskScore y <? finding_RiskScore x.
Definition merge (results : list adapterOutcome) : Collection :=
  mkCollection (sort_slice (λ x y, String.ltb (integration_Name x) (integration_Name y)) (map outcome_integration results))
    (sort_slice (λ x y, String.ltb (health_Name x) (health_Name y)) (map outcome_health results))
    (sort_slice before (unseen ∅ (flat_map outcome_findings results))).

Definition Collect (m : Manager) (schedule : list nat) : A Collection :=
  '(cached, cachedAt) ← ask LoadCache;
  fresh ← (if IsZero cachedAt then mret false else now ← ask AdapterNow; mret (Sub now cachedAt <? manager_ttl m));
  if (fresh : bool) then mret cached
  else
    results ← parallel schedule (manager_adapters m);
    let collection := merge results in
    now ← ask AdapterNow;
    ask (SaveCache collection now);;
    mret collection.
End Adapters.
