(* ===== verification/AdaptersProps.v ===== *)
(** What the adapters collect: in a cluster that answers the same whenever it is asked, the outcome does not depend on how
    the adapters' goroutines interleave, and is the findings of the listed reports, each once and ranked; and the values
    of exposed secrets are never copied; and a cluster with Trivy at work. *)
From S2P Require Import Prelude GoLib GoDuration Json Interaction Core Kube ManagedProvenance ManagedDiscovery WorkflowObjects Http.
From S2P Require Import Inspector InspectorProps Adapters.
From S2P Require Import WorkflowTrace.

Local Open Scope Z_scope.

(** * Programs in surroundings that do not change *)

Section Answered.
Context {E : Type → Type} (answers : ∀ X, E X → X).

Fixpoint answered {A} (p : prog E A) : A :=
  match p with Ret a => a | @Vis _ _ X e k => answered (k (answers X e)) end.

Lemma answered_prog_bind {A B} (k : A → prog E B) p : answered (prog_bind k p) = answered (k (answered p)).
Proof. induction p as [a|X e h IH]; cbn; [done | apply IH]. Qed.
Lemma answered_bind {A B} (k : A → P E B) (p : P E A) :
  answered (p ≫= k) = match answered p with Ok a => answered (k a) | Err e => Err e end.
Proof. unfold mbind, P_bind. rewrite answered_prog_bind. by destruct (answered p). Qed.
End Answered.

Section Goroutines.
Context `{Kubernetes} `{!KubernetesMeta _} `{!DynamicKubernetes _} `{ListErrors}.
Context (answers : ∀ X, AdapterE X → X).

Lemma one_by_one_answered {R} (ps qs : list (P AdapterE R)) :
  Forall2 (λ p q, answered answers p = answered answers q) ps qs →
  answered answers (one_by_one ps) = answered answers (one_by_one qs).
Proof.
  induction 1 as [|p q ps qs Hp _ IH]; [done|]. cbn [one_by_one]. rewrite !answered_bind, Hp.
  destruct (answered answers q); [|done]. by rewrite !answered_bind, IH.
Qed.

(** Whatever the schedule, each adapter ends as it does on its own. *)
Lemma parallel_answered {R} schedule (ps : list (P AdapterE R)) :
  answered answers (parallel schedule ps) = answered answers (one_by_one ps).
Proof.
  revert ps. induction schedule as [|index schedule IH]; intros ps; [done|]. cbn [parallel].
  destruct (ps !! index) as [[|X e k]|] eqn:Hp; [apply IH | | apply IH]. cbn [answered]. rewrite IH.
  apply one_by_one_answered, Forall2_same_length_lookup. split; [apply length_insert|]. intros i p q Hi Hq.
  destruct (decide (i = index)) as [->|Hne].
  - rewrite list_lookup_insert_eq in Hi by by eapply lookup_lt_Some.
    pose proof (eq_trans (eq_sym Hp) Hq) as Heq. injection Hi as <-. injection Heq as <-. reflexivity.
  - rewrite list_lookup_insert_ne in Hi by done. by simplify_eq.
Qed.

(** * Listing *)

(** Answers are values or errors; the client does not panic. *)
Context (Herrors : ∀ resource namespaced text, answers _ (ListReports resource namespaced) ≠ Err (Panic text)).

Definition answer (source : reportResource) : result (list object) :=
  answers _ (ListReports (report_GVR source) (report_namespaced source)).
(** An API that is not installed, or not permitted, does not end the collection. *)
Definition absent (err : GoError) : bool := IsNotFound err || IsMethodNotSupported err.
Definition fatal (source : reportResource) : bool :=
  match answer source with Ok _ => false | Err err => negb (absent err || denied err) end.
(** The resources before the first fatal error. *)
Fixpoint reached (resources : list reportResource) : list reportResource :=
  match resources with [] => [] | source :: rest => if fatal source then [] else source :: reached rest end.
Definition reports (source : reportResource) : list object := match answer source with Ok listed => listed | Err _ => [] end.
Definition listed (source : reportResource) : bool := match answer source with Ok _ => true | Err _ => false end.
Definition denial (source : reportResource) : option GoError :=
  match answer source with Err err => if negb (absent err) && denied err then Some err else None | Ok _ => None end.
Definition failure (source : reportResource) : option GoError :=
  match answer source with Err err => if fatal source then Some err else None | Ok _ => None end.
(** The first fatal error, or else the first denial. *)
Definition collect_error (resources : list reportResource) : option GoError :=
  match head (omap failure resources) with Some err => Some err | None => head (omap denial resources) end.

Lemma collectResources_step source rest items available first :
  answered answers (collectResources (source :: rest) items available first) =
  match answer source with
  | Ok l => answered answers (collectResources rest (items ++ l) (available ++ [available_name source]) first)
  | Err err =>
      if absent err then answered answers (collectResources rest items available first)
      else if denied err then answered answers (collectResources rest items available (Some (default err first)))
      else Ok (items, available, Some err)
  end.
Proof.
  pose proof (Herrors (report_GVR source) (report_namespaced source)) as Hno. fold (answer source) in Hno.
  cbn [collectResources]. rewrite answered_bind. unfold attempt, call. rewrite answered_prog_bind. cbn [answered].
  fold (answer source). destruct (answer source) as [l|err]; [done|].
  assert (caught (A := list object) (Err err) = Ok (Err err)) as -> by (destruct err; (reflexivity || (exfalso; by eapply Hno))).
  unfold absent. destruct (_ || _); [done|]. by destruct (denied err).
Qed.

Lemma collectResources_spec resources items available first :
  answered answers (collectResources resources items available first) =
  Ok (items ++ flat_map reports (reached resources),
      available ++ map available_name (List.filter listed (reached resources)),
      match head (omap failure resources), first with
      | Some err, _ | None, Some err => Some err
      | None, None => head (omap denial resources)
      end).
Proof.
  revert items available first. induction resources as [|source rest IH]; intros items available first.
  { cbn. rewrite !app_nil_r. by destruct first. }
  rewrite collectResources_step. cbn [reached omap list_omap].
  unfold failure at 1, denial at 1, fatal. destruct (answer source) as [l|err] eqn:Ha.
  - rewrite IH. cbn [flat_map map List.filter]. unfold listed at 2, reports at 2. rewrite Ha. cbn [map]. by rewrite <-!app_assoc.
  - assert (listed source = false ∧ reports source = []) as [Hl Hr] by (unfold listed, reports; by rewrite Ha).
    destruct (absent err); cbn [orb negb andb]; [|destruct (denied err); cbn [orb negb andb]].
    all: rewrite ?IH; cbn [flat_map List.filter app]; rewrite ?Hl, ?Hr; cbn [app map flat_map List.filter]; rewrite ?app_nil_r; try done.
    destruct (head (omap failure rest)); [done|]. by destruct first.
Qed.

(** * Collecting *)

Abbreviation now := (answers _ AdapterNow) (only parsing).
Abbreviation wall := (answers _ WallClock) (only parsing).
Abbreviation snapshot := (answers _ NativeSnapshot) (only parsing).

Definition listed_reports (resources : list reportResource) : list object := flat_map reports (reached resources).
(** The status of an adapter whose collection ended with an error, or listed an API. *)
Definition status_of (err : option GoError) (listed : bool) : string :=
  match err with
  | Some err => if denied err then "permission_denied" else "error"
  | None => if listed then "online" else "not_configured"
  end.
Definition report_status (resources : list reportResource) : string :=
  status_of (collect_error resources) (existsb listed (reached resources)).

(** The adapters by name: the resources they list and what they make of a report. *)
Definition collectors : list (string * list reportResource * (Time → object → list Finding)) :=
  [("Trivy Operator", trivy_resources, normalizeTrivy); ("Kyverno", kyverno_resources, normalizePolicyReport);
   ("Kubescape", kubescape_resources, normalizeKubescapeSummary)].
Definition found_by (resources : list reportResource) (normalize : Time → object → list Finding) : list Finding :=
  flat_map (normalize wall) (listed_reports resources).
Definition native_findings (native : bool) : list Finding := if native then snapshot_Findings snapshot.1 else [].
Definition cluster_findings (native : bool) : list Finding :=
  flat_map (λ c, found_by c.1.2 c.2) collectors ++ native_findings native.
(** Name, status and number of findings of each adapter. *)
Definition health_line (h : IntegrationHealth) : string * string * Z := (health_Name h, health_Status h, health_FindingsCount h).
Definition cluster_health (native : bool) : list (string * string * Z) :=
  map (λ c, (c.1.1, report_status c.1.2, Z.of_nat (length (found_by c.1.2 c.2)))) collectors ++
  if native then
    [("Kubernetes native posture", status_of snapshot.2 true, Z.of_nat (length (snapshot_Findings snapshot.1)))]
  else [].

Lemma adapterResult_line name type supported permissions available lastSeen findings err checkedAt :
  let r := adapterResult name type supported permissions available lastSeen findings err checkedAt in
  health_line (outcome_health r) =
    (name, status_of err (negb (bool_decide (available = []))), Z.of_nat (length findings)) ∧ outcome_findings r = findings.
Proof. unfold adapterResult, status_of. destruct err as [err|]; [destruct (denied err) | destruct (bool_decide _)]; done. Qed.

Lemma collect_reports_answered resources normalize name type supported permissions :
  ∃ r, answered answers (collect_reports resources normalize name type supported permissions) = Ok r ∧
    health_line (outcome_health r) = (name, report_status resources, Z.of_nat (length (found_by resources normalize))) ∧
    outcome_findings r = found_by resources normalize.
Proof.
  unfold collect_reports. rewrite answered_bind, collectResources_spec. cbn [app]. rewrite !answered_bind. cbn [answered ask].
  eexists. split; [reflexivity|]. destruct (adapterResult_line name type supported permissions
    (map available_name (List.filter listed (reached resources))) (last_seen (listed_reports resources))
    (found_by resources normalize) (collect_error resources) now) as [Hl Hf].
  split; [etransitivity; [exact Hl|] | exact Hf]. unfold report_status. do 3 f_equal. clear.
  induction (reached resources) as [|source rest IH]; [done|]. cbn [List.filter existsb].
  destruct (listed source); [by rewrite bool_decide_eq_false_2 | exact IH].
Qed.

Lemma native_collect_answered :
  ∃ r, answered answers native_collect = Ok r ∧
    health_line (outcome_health r) =
      ("Kubernetes native posture", status_of snapshot.2 true, Z.of_nat (length (snapshot_Findings snapshot.1))) ∧
    outcome_findings r = snapshot_Findings snapshot.1.
Proof.
  unfold native_collect. rewrite answered_bind. cbn [answered ask]. destruct snapshot as [s err]. rewrite answered_bind.
  eexists. split; [reflexivity|]. cbn [fst snd].
  edestruct adapterResult_line as [Hl Hf]. split; [etransitivity; [exact Hl | by destruct err] | exact Hf].
Qed.

Lemma collected_by p name resources normalize :
  (∃ type supported permissions, p = collect_reports resources normalize name type supported permissions) →
  ∃ r, answered answers p = Ok r ∧
    health_line (outcome_health r) = (name, report_status resources, Z.of_nat (length (found_by resources normalize))) ∧
    outcome_findings r = found_by resources normalize.
Proof. intros (type & supported & permissions & ->). apply collect_reports_answered. Qed.

(** The adapters one after the other. *)
Lemma adapters_answered native :
  ∃ rs, answered answers (one_by_one (manager_adapters (NewManagerFromClient native))) = Ok rs ∧
    map (λ r, health_line (outcome_health r)) rs = cluster_health native ∧ flat_map outcome_findings rs = cluster_findings native.
Proof.
  unfold NewManagerFromClient, cluster_health, cluster_findings, native_findings, collectors. cbn [manager_adapters app map flat_map fst snd].
  destruct (collected_by trivy_collect "Trivy Operator" trivy_resources normalizeTrivy) as (r1 & Hr1 & Hl1 & Hf1); [by do 3 eexists|].
  destruct (collected_by kyverno_collect "Kyverno" kyverno_resources normalizePolicyReport) as (r2 & Hr2 & Hl2 & Hf2); [by do 3 eexists|].
  destruct (collected_by kubescape_collect "Kubescape" kubescape_resources normalizeKubescapeSummary) as (r3 & Hr3 & Hl3 & Hf3);
    [by do 3 eexists|].
  destruct native_collect_answered as (r4 & Hr4 & Hl4 & Hf4).
  destruct native; [exists [r1; r2; r3; r4] | exists [r1; r2; r3]]; cbn [one_by_one]; rewrite !answered_bind, Hr1, !answered_bind, Hr2, !answered_bind, Hr3, !answered_bind;
    [rewrite Hr4, !answered_bind|]; cbn [answered map flat_map].
  all: split_and!; [reflexivity | | ]; rewrite ?Hl1, ?Hl2, ?Hl3, ?Hl4, ?Hf1, ?Hf2, ?Hf3, ?Hf4, ?app_nil_r, <-?app_assoc; reflexivity.
Qed.

Lemma unseen_spec seen l :
  (∀ f, f ∈ unseen seen l → f ∈ l ∧ finding_ID f ∉ seen) ∧
  (∀ f, f ∈ l → finding_ID f ∈ seen ∨ finding_ID f ∈ map finding_ID (unseen seen l)) ∧ NoDup (map finding_ID (unseen seen l)).
Proof.
  revert seen. induction l as [|f l IH]; intros seen; cbn [unseen].
  { split_and!; [by intros f ?%elem_of_nil | by intros f ?%elem_of_nil | constructor]. }
  case_bool_decide as Hf.
  - destruct (IH seen) as (H1' & H2' & H3'). split_and!; [|intros g [->|Hg]%elem_of_cons; [by left | by apply H2'] | done].
    intros g Hg. destruct (H1' g Hg). split; [by right | done].
  - destruct (IH ({[finding_ID f]} ∪ seen)) as (H1' & H2' & H3'). cbn [map]. split_and!.
    + intros g [->|Hg]%elem_of_cons; [split; [by left | done]|]. destruct (H1' g Hg). split; [by right | set_solver].
    + intros g [->|Hg]%elem_of_cons; [right; by left|]. destruct (H2' g Hg) as [Hs|?]; [|right; by right].
      apply elem_of_union in Hs as [->%elem_of_singleton|?]; [right; by left | by left].
    + apply NoDup_cons. split; [|done]. intros (g & Hg & Hin)%list_elem_of_fmap. destruct (H1' g Hin). set_solver.
Qed.

(** C17. However the goroutines of the adapters interleave, in a cluster that answers the same meanwhile: within thirty seconds
    of the last collection the cached one is returned; otherwise every finding of the listed reports and of the native
    source is collected, one of each identifier and nothing else, ranked by score and identifier, and each adapter's
    health says what its collection came to: online with a listed API, not configured without, permission denied or
    error otherwise, with the number of its findings. *)
Theorem collect_reference native schedule :
  let '(cached, cachedAt) := answers _ LoadCache in
  if negb (IsZero cachedAt) && (Sub now cachedAt <? 30 * Second) then
    answered answers (Collect (NewManagerFromClient native) schedule) = Ok cached
  else
    ∃ collection, answered answers (Collect (NewManagerFromClient native) schedule) = Ok collection ∧
      (∀ finding, finding ∈ collection_Findings collection → finding ∈ cluster_findings native) ∧
      (∀ finding, finding ∈ cluster_findings native → finding_ID finding ∈ map finding_ID (collection_Findings collection)) ∧
      NoDup (map finding_ID (collection_Findings collection)) ∧ StronglySorted ranked (collection_Findings collection) ∧
      map health_line (collection_Health collection) ≡ₚ cluster_health native.
Proof.
  unfold Collect. rewrite answered_bind. cbn [answered ask]. destruct (answers _ LoadCache) as [cached cachedAt].
  rewrite answered_bind. destruct (IsZero cachedAt); cbn [negb andb answered mret P_ret].
  2: rewrite answered_bind; cbn [answered ask mret P_ret]; change (manager_ttl _) with (30 * Second); destruct (Sub now cachedAt <? 30 * Second); [done|].
  all: rewrite answered_bind, parallel_answered; destruct (adapters_answered native) as (rs & -> & Hl & Hf);
    rewrite !answered_bind; cbn [answered ask]; rewrite answered_bind; cbn [answered ask]; exists (merge rs); split; [reflexivity|];
    unfold merge; cbn [collection_Findings collection_Health]; rewrite <-Hl, <-Hf;
    destruct (unseen_spec ∅ (flat_map outcome_findings rs)) as (H1' & H2' & H3'); split_and!.
  all: try (intros f Hin%elem_of_sort_slice; by apply H1').
  all: try (intros f Hin; rewrite sort_slice_perm; by destruct (H2' f Hin) as [?%elem_of_empty|?]).
  all: try by rewrite sort_slice_perm.
  all: try apply sort_ranked.
  all: rewrite sort_slice_perm, map_map; reflexivity.
Qed.
End Goroutines.

(** * Exposed secrets *)

Section Secrets.
Context `{Kubernetes} `{!KubernetesMeta _} `{!DynamicKubernetes _} `{ListErrors}.

(** Two items that say the same of the rule, whatever they say of the match. *)
Definition same_rule (raw raw' : any) : Prop :=
  let item := default [] (as_map raw) in
  let item' := default [] (as_map raw') in
  string_field item "ruleID" = string_field item' "ruleID" ∧ string_field item "title" = string_field item' "title".
(** Two reports of exposed secrets that differ in nothing else. *)
Record same_but_values (o o' : object) : Prop := {
  same_kind : GetKind o = "ExposedSecretReport" ∧ GetKind o' = "ExposedSecretReport";
  same_name : GetAPIVersion o = GetAPIVersion o' ∧ GetNamespace o = GetNamespace o' ∧ GetName o = GetName o' ∧ GetUID o = GetUID o';
  same_created : GetCreationTimestamp o = GetCreationTimestamp o';
  same_resource : GetLabels o = GetLabels o' ∧ GetOwnerReferences o = GetOwnerReferences o';
  same_items : Forall2 same_rule (slice_at ["report"; "secrets"] o) (slice_at ["report"; "secrets"] o')
}.

Lemma imap_same {A B} (f g : nat → A → B) (R : A → A → Prop) l l' :
  Forall2 R l l' → (∀ i x y, R x y → f i x = g i y) → imap f l = imap g l'.
Proof.
  intros Hl. revert f g. induction Hl as [|x y l l' Hxy _ IH]; intros f g Hfg; [done|]. cbn [imap].
  rewrite (Hfg _ _ _ Hxy). f_equal. by apply IH; intros i; apply (Hfg (S i)).
Qed.

Lemma same_secret_findings wall o o' : same_but_values o o' → normalizeTrivy wall o = normalizeTrivy wall o'.
Proof.
  intros [[Hk Hk'] (Ha & Hns & Hn & Hu) Hc [Hlab Hown] Hitems]. unfold normalizeTrivy. rewrite Hk, Hk'. cbn [String.eqb orb].
  change (normalizeTrivySecrets wall o = normalizeTrivySecrets wall o'). unfold normalizeTrivySecrets.
  apply (imap_same _ _ same_rule); [done|]. intros index raw raw' [Hrule Htitle].
  unfold secret_finding, newFinding, trivyResource, ownerResource, own_ref. cbv zeta.
  by rewrite Hrule, Htitle, Ha, Hk, Hk', Hns, Hn, Hu, Hc, Hlab, Hown.
Qed.

(** Reports that give the same findings at the same time. *)
Definition alike (normalize : Time → object → list Finding) (o o' : object) : Prop :=
  GetCreationTimestamp o = GetCreationTimestamp o' ∧ ∀ wall, normalize wall o = normalize wall o'.
Definition alike_answers (normalize : Time → object → list Finding) (r r' : result (list object)) : Prop :=
  match r, r' with
  | Ok l, Ok l' => Forall2 (alike normalize) l l'
  | Err err, Err err' => err = err'
  | _, _ => False
  end.

Context (answers answers' : ∀ X, AdapterE X → X).
Context (Hnow : answers _ AdapterNow = answers' _ AdapterNow) (Hwall : answers _ WallClock = answers' _ WallClock)
        (Hnative : answers _ NativeSnapshot = answers' _ NativeSnapshot) (Hcache : answers _ LoadCache = answers' _ LoadCache).
Context (Herrors : ∀ resource namespaced text, answers _ (ListReports resource namespaced) ≠ Err (Panic text)).
Context (Herrors' : ∀ resource namespaced text, answers' _ (ListReports resource namespaced) ≠ Err (Panic text)).

Lemma collectResources_alike normalize resources items items' available first :
  Forall (λ source, alike_answers normalize (answer answers source) (answer answers' source)) resources →
  Forall2 (alike normalize) items items' →
  ∃ l l' available' err,
    answered answers (collectResources resources items available first) = Ok (l, available', err) ∧
    answered answers' (collectResources resources items' available first) = Ok (l', available', err) ∧
    Forall2 (alike normalize) l l'.
Proof.
  intros Hr. revert items items' available first. induction Hr as [|source rest Hs _ IH]; intros items items' available first Hi.
  { by exists items, items', available, first. }
  rewrite !collectResources_step by done. unfold alike_answers in Hs.
  destruct (answer answers source) as [l|err], (answer answers' source) as [l'|err']; try done.
  - by apply IH, Forall2_app.
  - subst err'. destruct (absent err); [by apply IH|]. destruct (denied err); [by apply IH|].
    by exists items, items', available, (Some err).
Qed.

Lemma collect_reports_alike normalize resources name type supported permissions :
  Forall (λ source, alike_answers normalize (answer answers source) (answer answers' source)) resources →
  answered answers (collect_reports resources normalize name type supported permissions) =
  answered answers' (collect_reports resources normalize name type supported permissions).
Proof.
  intros Hr. unfold collect_reports. rewrite !answered_bind.
  destruct (collectResources_alike normalize resources [] [] [] None Hr) as (l & l' & available & err & -> & -> & Hl); [done|].
  rewrite !answered_bind. cbn [answered ask]. rewrite !answered_bind. cbn [answered ask mret P_ret]. rewrite Hnow, Hwall.
  do 2 f_equal.
  - unfold last_seen. generalize 0. induction Hl as [|o o' l l' [Hc _] _ IH]; intros t; [done|]. cbn [foldl]. rewrite Hc. apply IH.
  - induction Hl as [|o o' l l' [_ Hn] _ IH]; [done|]. cbn [flat_map]. by rewrite Hn, IH.
Qed.

Definition secret_reports : GroupVersionResource := mkGVR "aquasecurity.github.io" "v1alpha1" "exposedsecretreports".

Lemma alike_refl normalize r : alike_answers normalize r r.
Proof. destruct r as [l|err]; [|done]. cbn. induction l; constructor; done. Qed.

Lemma one_by_one_alike {R} (ps : list (P AdapterE R)) :
  Forall (λ p, answered answers p = answered answers' p) ps → answered answers (one_by_one ps) = answered answers' (one_by_one ps).
Proof.
  induction 1 as [|p ps Hp _ IH]; [done|]. cbn [one_by_one]. rewrite !answered_bind, Hp. destruct (answered answers' p); [|done].
  by rewrite !answered_bind, IH.
Qed.

Context (Hreports : ∀ source, report_GVR source ≠ secret_reports → answer answers source = answer answers' source).
Context (Hsecrets : ∀ source, report_GVR source = secret_reports →
  match answer answers source, answer answers' source with
  | Ok l, Ok l' => Forall2 same_but_values l l'
  | Err err, Err err' => err = err'
  | _, _ => False
  end).

Lemma other_alike normalize source : report_GVR source ≠ secret_reports →
  alike_answers normalize (answer answers source) (answer answers' source).
Proof. intros Hs. rewrite (Hreports _ Hs). apply alike_refl. Qed.
Lemma secret_alike source : report_GVR source = secret_reports →
  alike_answers normalizeTrivy (answer answers source) (answer answers' source).
Proof.
  intros Hs. specialize (Hsecrets _ Hs). unfold alike_answers.
  destruct (answer answers source), (answer answers' source); try done.
  eapply Forall2_impl; [exact Hsecrets|]. intros o o' Ho. split; [apply Ho|]. intros wall. by apply same_secret_findings.
Qed.

Lemma adapters_alike native :
  answered answers (one_by_one (manager_adapters (NewManagerFromClient native))) =
  answered answers' (one_by_one (manager_adapters (NewManagerFromClient native))).
Proof.
  apply one_by_one_alike. assert (answered answers native_collect = answered answers' native_collect) as Hn.
  { unfold native_collect. rewrite !answered_bind. cbn [answered ask]. rewrite Hnative. destruct (answers' _ NativeSnapshot).
    rewrite !answered_bind. cbn [answered ask]. by rewrite Hnow. }
  unfold NewManagerFromClient. cbn [manager_adapters]. apply Forall_app. split; [|by destruct native; repeat constructor].
  repeat constructor; apply collect_reports_alike; repeat constructor; (by apply other_alike) || by apply secret_alike.
Qed.

(** C18. The values of exposed secrets are never copied: whatever the goroutines do, two clusters whose reports of exposed
    secrets differ in what they say of the matches only, not in their rules and titles, give the same collection. *)
Theorem secrets_not_copied native schedule :
  answered answers (Collect (NewManagerFromClient native) schedule) =
  answered answers' (Collect (NewManagerFromClient native) schedule).
Proof.
  unfold Collect. rewrite !answered_bind. cbn [answered ask]. rewrite Hcache. destruct (answers' _ LoadCache) as [cached cachedAt].
  rewrite !answered_bind. destruct (IsZero cachedAt); cbn [answered mret P_ret];
    [|rewrite !answered_bind; cbn [answered ask mret P_ret]; rewrite Hnow; destruct (Sub _ _ <? _); [done|]].
  all: rewrite !answered_bind, !parallel_answered, adapters_alike; destruct (answered answers' _); [|done];
    rewrite !answered_bind; cbn [answered ask]; by rewrite !answered_bind.
Qed.
End Secrets.

(** * A cluster with Trivy, without Kyverno, and with Kubescape reports that may not be listed *)

#[local] Existing Instance WorkflowTrace.json_meta.
#[local] Existing Instance WorkflowTrace.json_dynamic.
#[local] Instance scanner_errors : ListErrors :=
  {| IsMethodNotSupported := λ _, false; IsForbidden := λ e, bool_decide (e = Errorf "forbidden"); IsUnauthorized := λ _, false |}.

Definition report_object (text : string) : json_object :=
  match decode_yaml (requote text) with Ok o => o | Err _ => mkJsonObject [] ∅ end.
Definition secrets_report (value : string) : json_object := report_object
  ("{'apiVersion':'aquasecurity.github.io/v1alpha1','kind':'ExposedSecretReport','metadata':{'namespace':'shop','name':'web','uid':'u1'},'report':{'secrets':[{'ruleID':'aws-key','title':'AWS key','match':'" +:+ value +:+ "'},{'ruleID':'aws-key'}]}}").
Definition vulnerabilities_report : json_object := report_object
  "{'apiVersion':'aquasecurity.github.io/v1alpha1','kind':'VulnerabilityReport','metadata':{'namespace':'shop','name':'web','uid':'u2'},'report':{'artifact':{'repository':'web','tag':'1'},'vulnerabilities':[{'vulnerabilityID':'CVE-1','severity':'HIGH'},{'vulnerabilityID':'CVE-1','severity':'HIGH'}]}}".

Definition is_secrets (gvr : GroupVersionResource) : bool :=
  (gvr_Group gvr == gvr_Group secret_reports) && (gvr_Version gvr == gvr_Version secret_reports) &&
  (gvr_Resource gvr == gvr_Resource secret_reports).
Definition list_answer (value : string) (gvr : GroupVersionResource) : result (list json_object) :=
  let resource := gvr_Resource gvr in
  if is_secrets gvr then Ok [secrets_report value]
  else if resource == "vulnerabilityreports" then Ok [vulnerabilities_report]
  else if resource == "workloadconfigurationscansummaries" then Err (Errorf "forbidden")
  else Err (Errorf "NotFound").
Definition scanners (value : string) X (e : AdapterE (H0 := json_kubernetes) X) : X :=
  match e in AdapterE X return X with
  | ListReports resource _ => list_answer value resource
  | NativeSnapshot => (zero_ClusterSnapshot, None)
  | AdapterNow => 100
  | WallClock => 90
  | LoadCache => (mkCollection [] [] [], 0)
  | SaveCache _ _ => tt
  end.

Lemma no_panic value resource namespaced text : scanners value _ (ListReports resource namespaced) ≠ Err (Panic text).
Proof. cbn. unfold list_answer. destruct (is_secrets _); [done|]. by repeat destruct (_ == _). Qed.

Lemma is_secrets_spec gvr : is_secrets gvr = true → gvr = secret_reports.
Proof.
  destruct gvr as [group version resource]. unfold is_secrets. cbn [gvr_Group gvr_Version gvr_Resource].
  rewrite !andb_true_iff, !String.eqb_eq. by intros [[-> ->] ->].
Qed.

Example scanned :
  (λ r, match r with
        | Ok c => Some (map finding_Title (collection_Findings c), map health_line (collection_Health c))
        | Err _ => None
        end) (answered (scanners "AKIA1") (Collect (NewManagerFromClient false) [1%nat; 0%nat; 2%nat; 0%nat])) =
  Some (["Potential exposed secret: aws-key"; "Potential exposed secret: AWS key"; "CVE-1"],
        [("Kubescape", "permission_denied", 0); ("Kyverno", "not_configured", 0); ("Trivy Operator", "online", 4)]).
Proof. vm_compute. reflexivity. Qed.

Lemma collect_reference_witness :
  ∃ collection, answered (scanners "AKIA1") (Collect (NewManagerFromClient false) [1%nat; 0%nat]) = Ok collection ∧
    NoDup (map finding_ID (collection_Findings collection)) ∧ length (cluster_findings (scanners "AKIA1") false) = 4%nat.
Proof.
  pose proof (collect_reference (scanners "AKIA1") (no_panic "AKIA1") false [1%nat; 0%nat]) as Hc.
  cbn [scanners] in Hc. change (negb (IsZero 0) && _) with false in Hc.
  destruct Hc as (collection & Hc & _ & _ & Hnd & _). exists collection.
  split; [exact Hc|]. split; [exact Hnd|]. vm_compute. reflexivity.
Defined.

Lemma secrets_not_copied_witness :
  secrets_report "AKIA1" ≠ secrets_report "AKIA2" ∧
  answered (scanners "AKIA1") (Collect (NewManagerFromClient true) [2%nat; 3%nat]) =
  answered (scanners "AKIA2") (Collect (NewManagerFromClient true) [2%nat; 3%nat]).
Proof.
  split; [intros Heq%(f_equal (λ o, marshal_any (AMap (jo_fields o)))); vm_compute in Heq; discriminate|].
  apply secrets_not_copied; try reflexivity; try apply no_panic.
  - intros source Hne. cbn. unfold list_answer. destruct (is_secrets (report_GVR source)) eqn:Hs; [|reflexivity].
    destruct Hne. by apply is_secrets_spec.
  - intros source Hs. unfold answer. rewrite Hs. repeat constructor.
Defined.
